(* ===== verification/_CoqProject ===== *)
-Q . S2P
Prelude.v
PyStr.v
Json.v
JsonText.v
Config.v
Crypto.v
StateTrie.v
Wallet.v
Transaction.v
Fees.v
Block.v
Receipt.v
ChainState.v
Ledger.v
StateOps.v
Staking.v
Consensus.v
Store.v
StoreLaws.v
ReceiptOps.v
Apply.v
Frames.v
Books.v
TokenLaws.v
TxPool.v
Rollback.v
Persist.v
Chain.v
Stored.v
ChainLaws.v
StoredLaws.v
Restart.v
Tables.v
Notarization.v
Sdk.v
WalletFile.v
Mlkem.v
Limits.v
Metrics.v
Codec.v
P2P.v
Query.v
Node.v
ReceiptLaws.v
Replica.v
NodeLaws.v
Sync.v
SyncLaws.v
P2PLaws.v
Webhooks.v
WebSocket.v
Rpc.v
NodeRpc.v
NodeRpcLaws.v
RestApi.v
RestLaws.v
Client.v
ClientLaws.v
SdkSocket.v
Tls.v
