(* ===== verification/Prelude.v ===== *)
(** * QBit Network: a verification development

    QBit Network is a permissioned blockchain in Python: validators take turns
    to produce blocks of transactions (notarizations of documents, transfers,
    stakes, tokens, key management) signed with ML-DSA, and exchange them over
    an authenticated peer-to-peer protocol; a node serves wallets over RPC, and
    an SDK builds and signs transactions for it.  This library models the code
    under [src/qbit_network] and [src/sdk] as executable definitions and proves
    what makes it correct.

    ** How the code is modelled

    - A call that returns or raises is a [result]; a call that changes a state
      [S] is a computation of the monad [M S], in which an exception keeps the
      mutations made before it.  [wp] is its weakest precondition, [keeps I]
      says that [I] survives it, returning or raising.
    - Python integers are [Z]; fixed-width encodings ([to_bytes]) raise where
      Python does.  Floats are IEEE binary64 of the Standard Library's
      [SpecFloat].  Byte strings and strings are [string]; a string holds code
      points below 256, [utf8] encodes it.
    - A dictionary whose order is observed is an insertion-ordered association
      list, any other is a [gmap].  Decoded JSON is [JVal].
    - Shared objects are one state that all handlers thread; [await] splits a
      handler where another one may run (network/sync.py), and a node or a
      connection runs as a list of such steps in any order.
    - Code that is not in the repository is a parameter: SHA3-256 and ML-DSA
      ([Crypto]), ML-KEM ([Kem]), AES-GCM and scrypt ([Cipher]), msgpack and
      [json.loads] ([Wire]), the address tests of [ipaddress] ([P2PEnv]), the
      synchronisation constants missing from config.py ([SyncConfig]).  What
      the code relies on is a class of laws next to each ([CryptoLaws] and so
      on), and each has a toy instance that evaluates, used by the witnesses.
      The activation height of dynamic fees is the class [ChainConfig].
      A hash collision is never excluded by assumption: a theorem that needs it
      exhibits the collision instead.

    ** Files and the code they model

    - [Prelude], [PyStr], [Json]: the monads, record update, dictionaries,
      sums; characters, hexadecimal, UTF-8, big-endian integers; JSON values,
      [json.dumps] and the proof that its text determines the value.
    - [Config] (config.py), [Crypto] (crypto/hashing.py, crypto/mldsa.py),
      [Mlkem] (crypto/mlkem.py), [StateTrie] (core/state_tree.py), [Wallet] and
      [WalletFile] (core/wallet.py, crypto/secure_bytes.py, crypto/aes.py).
    - [Transaction] (core/transaction.py), [Fees] (core/fees.py), [Block]
      (core/block.py), [Receipt] (core/receipt.py).
    - [ChainState]: the records of core/blockchain.py and of its parts, the
      trie of a state.  [Ledger] (core/ledger.py), [StateOps]
      (core/state_ops.py), [Staking] (core/staking.py), [Consensus]
      (core/consensus.py), [ReceiptOps] (core/receipt_ops.py), [TxPool]
      (core/tx_pool.py), [Rollback] (core/rollback.py), [Query]
      (core/query.py), [Notarization] (core/proof.py).
    - [Apply]: the application of a block ([_append_block_inner] and what it
      calls in core/blockchain.py); [Chain]: production, acceptance, genesis
      and reorganization of the chain, in the same file.
    - [Frames], [Books], [TokenLaws], [ChainLaws], [ReceiptLaws], [Replica]:
      the laws of applying blocks and of the chain.
    - [Node] (node.py: the wallet methods of RPC, peer messages, block loop),
      [NodeLaws].
    - [Limits] (network/rate_limiter.py, network/reputation.py), [Codec]
      (network/codec.py), [P2P] (network/p2p.py), [P2PLaws]; [Sync]
      (network/sync.py and the header functions of core/blockchain.py),
      [SyncLaws].
    - [Sdk] (sdk/qbit_sdk/signer.py, models.py).

    ** What is proved

    - Commitments: the signed bytes determine the transaction, the hash of a
      block its header and transactions, Merkle and state proofs their leaves;
      the trie of a state is exactly its entries and a light client reads
      balances from it; receipts and notarization proofs of accepted blocks
      verify ([Transaction], [Block], [Crypto], [ReceiptLaws],
      [Notarization]).
    - Money: every application of a block, also one that raises, keeps the
      books and the supply; tokens, stakes, epoch rewards, slashing and
      rollback account for what they move ([Books], [TokenLaws], [Staking],
      [Rollback]).
    - The chain: acceptance is exactly validity; a reachable chain applies
      every transaction once and in order of nonces; a produced block extends
      the chain and replicates on other nodes; a run of a node refines an
      append-only log; finality and the stake-weighted draw ([Consensus],
      [ChainLaws], [Replica], [ReceiptOps]).
    - Nodes: in every interleaving of requests, messages and block turns the
      wallet locks, the bounded stores and the chain stay sound; submission
      methods post exactly one transaction with the next nonce; shared secrets,
      wallet files and the wire formats of transactions and of messages round
      trip ([NodeLaws], [WalletFile], [Sdk], [Codec]).
    - The network: an authenticated peer has signed a challenge of this node;
      two honest nodes complete the handshake and share a key; the limits
      are bounded; the header download terminates, and its state machine moves
      along its table ([P2PLaws], [SyncLaws]).
    - Where the code does not do what it means to, a theorem says what it does
      instead: a relay can impersonate a node, a handshake in msgpack cuts
      itself off, a used-up nonce in the pool stops production, and others that
      are lemmas of their components.

    ** Fuel

    Loops without structural measure take fuel and return [None] when it runs
    out: Merkle layers halve, so the number of leaves is enough
    ([merkle_loop_fuel]); the finality walk and the header download descend by
    one ([finality_quorum], [header_sync_terminates] prove that the fuel given
    is enough); the wait for a wallet lock is shown never to run out
    ([node_safe]).

    ** Not modelled

    - Storage: core/store.py (SQL statements) and core/persistence.py (files);
      the chain lives in memory.
    - Sockets, timeouts and tasks of asyncio: handlers of network/p2p.py run
      from start to end, a closed connection is an event.
    - The HTTP surfaces network/rest_api.py, network/rpc.py (transport),
      network/websocket.py, network/webhooks.py, network/metrics.py,
      network/tls_manager.py, the client and websocket modules of the SDK, the
      command line cli/, logging and benchmarks: they format, forward or
      schedule and keep no state of the chain.
    - Log lines and metrics inside modelled functions. *)
From Stdlib Require Export ZArith Lia Ascii.
From stdpp Require Export base gmap strings list sets sorting pretty numbers.

#[export] Set Default Goal Selector "!".

(** ** Exceptions and the two monads of the development

    A Python call either returns or raises.  [result] is the value of a call
    without side effects; [M S] is a call that reads and writes a state [S],
    and a raised exception keeps the mutations made before it. *)

Inductive exn :=
  | ValueError (msg : string)
  | TypeError
  | KeyError
  | IndexError
  | OverflowError
  | ZeroDivisionError
  | RuntimeError
  | AttributeError
  | DatabaseError.

Inductive result (A : Type) :=
  | Ok (a : A)
  | Raise (e : exn).
Arguments Ok {A} _.
Arguments Raise {A} _.

#[global] Instance exn_eq_dec : EqDecision exn.
Proof. solve_decision. Defined.
#[global] Instance result_eq_dec `{EqDecision A} : EqDecision (result A).
Proof. solve_decision. Defined.

#[global] Instance result_ret : MRet result := λ A a, Ok a.
#[global] Instance result_fmap : FMap result := λ A B f r,
  match r with Ok a => Ok (f a) | Raise e => Raise e end.
#[global] Instance result_bind : MBind result := λ A B f r,
  match r with Ok a => f a | Raise e => Raise e end.

Definition M (S A : Type) : Type := S → result A * S.

#[global] Instance M_ret {S} : MRet (M S) := λ A a s, (Ok a, s).
#[global] Instance M_bind {S} : MBind (M S) := λ A B f m s,
  match m s with
  | (Ok a, s') => f a s'
  | (Raise e, s') => (Raise e, s')
  end.

Definition raise {S A} (e : exn) : M S A := λ s, (Raise e, s).
Definition get {S} : M S S := λ s, (Ok s, s).
Definition gets {S A} (f : S → A) : M S A := λ s, (Ok (f s), s).
Definition modify {S} (f : S → S) : M S unit := λ s, (Ok tt, f s).
Definition lift {S A} (r : result A) : M S A := λ s, (r, s).
Definition when {S} (b : bool) (m : M S unit) : M S unit := if b then m else mret tt.

(** [for x in l: f x]; an exception leaves the loop. *)
Fixpoint mfor {S A} (f : A → M S unit) (l : list A) : M S unit :=
  match l with
  | [] => mret tt
  | x :: l' => _ ← f x; mfor f l'
  end.

(** [zoom] runs an operation of a component inside the whole state. *)
Definition zoom {S T A} (π : S → T) (upd : (T → T) → S → S) (m : M T A) : M S A := λ s,
  match m (π s) with (r, t) => (r, upd (λ _, t) s) end.

(** Weakest precondition: [Q] holds of the outcome and of the final state. *)
Definition wp {S A} (m : M S A) (Q : result A → S → Prop) (s : S) : Prop :=
  match m s with (r, s') => Q r s' end.

Lemma wp_mono {S A} (m : M S A) (Q Q' : result A → S → Prop) s :
  wp m Q s → (∀ r s', Q r s' → Q' r s') → wp m Q' s.
Proof. unfold wp. destruct (m s). auto. Qed.

Lemma wp_bind {S A B} (m : M S A) (k : A → M S B) Q s :
  wp m (λ r s', match r with Ok a => wp (k a) Q s' | Raise e => Q (Raise e) s' end) s →
  wp (m ≫= k) Q s.
Proof. unfold wp, mbind, M_bind. by destruct (m s) as [[] ?]. Qed.

Lemma wp_ret {S A} (a : A) Q (s : S) : Q (Ok a) s → wp (mret a) Q s.
Proof. done. Qed.
Lemma wp_raise {S A} e Q (s : S) : Q (Raise e) s → wp (raise (A:=A) e) Q s.
Proof. done. Qed.
Lemma wp_get {S} Q (s : S) : Q (Ok s) s → wp get Q s.
Proof. done. Qed.
Lemma wp_modify {S} (f : S → S) Q (s : S) : Q (Ok tt) (f s) → wp (modify f) Q s.
Proof. done. Qed.
Lemma wp_lift {S A} (r : result A) Q (s : S) : Q r s → wp (lift r) Q s.
Proof. done. Qed.
Lemma wp_when {S} b (m : M S unit) Q s :
  (b = true → wp m Q s) → (b = false → Q (Ok tt) s) → wp (when b m) Q s.
Proof. destruct b; intros H1 H2; [by apply H1|by apply H2]. Qed.

Lemma wp_run {S A} (m : M S A) Q s r s' : m s = (r, s') → wp m Q s → Q r s'.
Proof. unfold wp. by intros ->. Qed.

(** [m] preserves [I], whether it returns or raises. *)
Definition keeps {S A} (I : S → Prop) (m : M S A) : Prop := ∀ s, I s → wp m (λ _ s', I s') s.

Section Keeps.
Context {S : Type} (I : S → Prop).
Lemma keeps_bind {A B} (m : M S A) (k : A → M S B) :
  keeps I m → (∀ a, keeps I (k a)) → keeps I (m ≫= k).
Proof.
  intros Hm Hk s Hs. apply wp_bind. eapply wp_mono; [by apply Hm|]. intros [a|e] s' Hs'; [by apply Hk|done].
Qed.
Lemma keeps_ret {A} (a : A) : keeps I (mret a).
Proof. by intros s Hs. Qed.
Lemma keeps_raise {A} e : keeps I (raise (A:=A) e).
Proof. by intros s Hs. Qed.
Lemma keeps_lift {A} (r : result A) : keeps I (lift r).
Proof. by intros s Hs. Qed.
Lemma keeps_get : keeps I get.
Proof. by intros s Hs. Qed.
Lemma keeps_gets {A} (f : S → A) : keeps I (gets f).
Proof. by intros s Hs. Qed.
Lemma keeps_modify f : (∀ s, I s → I (f s)) → keeps I (modify f).
Proof. intros Hf s Hs. by apply Hf. Qed.
Lemma keeps_when b m : keeps I m → keeps I (when b m).
Proof. destruct b; [done|intros _; apply keeps_ret]. Qed.
Lemma keeps_mfor {A} (f : A → M S unit) l : (∀ x, keeps I (f x)) → keeps I (mfor f l).
Proof. intros Hf. induction l as [|x l IH]; [apply keeps_ret|]. apply keeps_bind; [apply Hf|done]. Qed.
End Keeps.

Create HintDb keeps.
#[export] Hint Resolve keeps_ret keeps_raise keeps_lift keeps_get keeps_gets keeps_when keeps_mfor : keeps.
#[export] Hint Extern 1 (keeps _ (_ ≫= _)) => (apply keeps_bind; [|intros ?]) : keeps.
#[export] Hint Extern 2 (keeps _ (if ?b then _ else _)) => destruct b : keeps.
#[export] Hint Extern 2 (keeps _ (match ?x with _ => _ end)) => destruct x : keeps.

(** ** Record update *)

Class Setter {R T} (proj : R → T) := set : (T → T) → R → R.
Arguments set {R T} proj {_} _ _.
Notation "s <| proj := v |>" := (set proj (λ _, v) s)
  (at level 12, left associativity, format "s  <| proj  :=  v |>").
Notation "s <| proj ::= f |>" := (set proj f s)
  (at level 12, left associativity, format "s  <| proj  ::=  f |>").

(** ** Python dictionaries and sets

    A dictionary whose iteration order the code never observes is stdpp's
    [gmap]; where the order matters it is the insertion-ordered [dict]:
    assigning to a present key keeps its place, a new key goes last. *)

Definition get_or `{Countable K} {V} (m : gmap K V) (k : K) (d : V) : V :=
  default d (m !! k).

Abbreviation dict K V := (list (K * V)) (only parsing).

Section Dict.
Context {K V : Type} `{EqDecision K}.

Fixpoint dget (d : dict K V) (k : K) : option V :=
  match d with
  | [] => None
  | (k', v) :: d' => if decide (k = k') then Some v else dget d' k
  end.

Fixpoint dset (d : dict K V) (k : K) (v : V) : dict K V :=
  match d with
  | [] => [(k, v)]
  | (k', v') :: d' =>
      if decide (k = k') then (k', v) :: d' else (k', v') :: dset d' k v
  end.

Fixpoint dpop (d : dict K V) (k : K) : dict K V :=
  match d with
  | [] => []
  | (k', v') :: d' =>
      if decide (k = k') then dpop d' k else (k', v') :: dpop d' k
  end.

Definition dget_or (d : dict K V) (k : K) (x : V) : V := default x (dget d k).
Definition dmem (d : dict K V) (k : K) : bool :=
  match dget d k with Some _ => true | None => false end.

Lemma dget_dset d k k' v :
  dget (dset d k v) k' = if decide (k' = k) then Some v else dget d k'.
Proof.
  induction d as [|[k0 v0] d IH]; simpl; [done|].
  destruct (decide (k = k0)); simpl; rewrite ?IH;
    destruct (decide (k' = k)), (decide (k' = k0)); congruence.
Qed.
Lemma dget_dset_eq d k v : dget (dset d k v) k = Some v.
Proof. rewrite dget_dset. by case_decide. Qed.
Lemma dget_dset_ne d k k' v : k' ≠ k → dget (dset d k v) k' = dget d k'.
Proof. intros. rewrite dget_dset. by case_decide. Qed.
Lemma dget_dpop d k k' :
  dget (dpop d k) k' = if decide (k' = k) then None else dget d k'.
Proof.
  induction d as [|[k0 v0] d IH]; simpl; [by case_decide|].
  destruct (decide (k = k0)); simpl; rewrite ?IH;
    destruct (decide (k' = k)), (decide (k' = k0)); congruence.
Qed.
Lemma dget_dpop_eq d k : dget (dpop d k) k = None.
Proof. rewrite dget_dpop. by case_decide. Qed.
Lemma dget_dpop_ne d k k' : k' ≠ k → dget (dpop d k) k' = dget d k'.
Proof. intros. rewrite dget_dpop. by case_decide. Qed.
Lemma dget_None d k : dget d k = None ↔ k ∉ d.*1.
Proof.
  induction d as [|[k0 v0] d IH]; csimpl; [set_solver|].
  rewrite not_elem_of_cons, <-IH. destruct (decide (k = k0)); naive_solver.
Qed.
Lemma dget_Some_elem d k v : dget d k = Some v → (k, v) ∈ d.
Proof.
  induction d as [|[k0 v0] d IH]; csimpl; [done|].
  case_decide; [intros [= ->]; subst; by left|]. intros. right. auto.
Qed.
Lemma dget_elem d k v : NoDup d.*1 → (k, v) ∈ d → dget d k = Some v.
Proof.
  induction d as [|[k0 v0] d IH]; csimpl; [set_solver|].
  intros [Hk Hd]%list.NoDup_cons [[= -> ->]|Hin]%elem_of_cons.
  - by rewrite decide_True.
  - case_decide; [subst|by apply IH]. destruct Hk. by apply (list_elem_of_fmap_2 fst) in Hin.
Qed.
Lemma dset_keys_old d k v : k ∈ d.*1 → (dset d k v).*1 = d.*1.
Proof.
  induction d as [|[k0 v0] d IH]; csimpl; [set_solver|].
  rewrite elem_of_cons. destruct (decide (k = k0)); csimpl; [done|].
  intros [?|?]; [done|]. by rewrite IH.
Qed.
Lemma dset_keys_new d k v : k ∉ d.*1 → (dset d k v).*1 = d.*1 ++ [k].
Proof.
  induction d as [|[k0 v0] d IH]; csimpl; [done|].
  rewrite not_elem_of_cons. intros [??]. destruct (decide (k = k0)); csimpl; [done|].
  by rewrite IH.
Qed.
Lemma dset_NoDup d k v : NoDup d.*1 → NoDup (dset d k v).*1.
Proof.
  intros. destruct (decide (k ∈ d.*1)); [by rewrite dset_keys_old|].
  rewrite dset_keys_new by done.
  apply list.NoDup_app. split_and!; [done|set_solver|apply NoDup_singleton].
Qed.
Lemma dpop_keys_sub d k x : x ∈ (dpop d k).*1 → x ∈ d.*1.
Proof.
  induction d as [|[k0 v0] d IH]; csimpl; [done|]. case_decide; set_solver.
Qed.
Lemma dpop_NoDup d k : NoDup d.*1 → NoDup (dpop d k).*1.
Proof.
  induction d as [|[k0 v0] d IH]; csimpl; [done|].
  intros [Hk Hd]%list.NoDup_cons. case_decide; csimpl; [by apply IH|].
  apply list.NoDup_cons. split; [|by apply IH]. by intros ?%dpop_keys_sub.
Qed.
Lemma dpop_sub d k x : x ∈ dpop d k → x ∈ d ∧ x.1 ≠ k.
Proof.
  induction d as [|[k' v] d IH]; cbn [dpop]; [by intros H%elem_of_nil|]. case_decide as E.
  - intros [H1 H2]%IH. split; [by right|done].
  - intros [->|Hx]%elem_of_cons; [split; [by left|cbn; congruence]|].
    destruct (IH Hx). split; [by right|done].
Qed.
Lemma dpop_length d k : k ∈ d.*1 → (length (dpop d k) < length d)%nat.
Proof.
  assert (Hle : ∀ d : dict K V, (length (dpop d k) ≤ length d)%nat).
  { clear d. intros d. induction d as [|[k' v] d IH]; cbn [dpop length]; [lia|]. case_decide; cbn [length]; lia. }
  induction d as [|[k' v] d IH]; csimpl; [by intros H%elem_of_nil|].
  intros Hin. case_decide as E; [pose proof (Hle d); lia|].
  apply elem_of_cons in Hin as [Hin|Hin]; [done|]. cbn [length]. specialize (IH Hin). lia.
Qed.
Lemma dset_length_old d k v : is_Some (dget d k) → length (dset d k v) = length d.
Proof.
  induction d as [|[k' v'] d IH]; cbn [dget dset]; [by intros []|]. case_decide; [done|].
  intros Hk. cbn [length]. by rewrite IH.
Qed.
Lemma dset_elem d k v x : NoDup d.*1 → x ∈ dset d k v → x = (k, v) ∨ (x ∈ d ∧ x.1 ≠ k).
Proof.
  intros Hd Hx. destruct x as [k' v']. pose proof (dget_elem _ _ _ (dset_NoDup d k v Hd) Hx) as Hg.
  rewrite dget_dset in Hg. case_decide as E; [left; congruence|]. right. by apply dget_Some_elem in Hg.
Qed.
Lemma dget_app_new d k v : dget d k = None → dget (d ++ [(k, v)]) k = Some v.
Proof.
  induction d as [|[k' v'] d IH]; cbn; [by rewrite decide_True|]. by case_decide.
Qed.
Lemma dset_new d k v : dget d k = None → dset d k v = d ++ [(k, v)].
Proof. induction d as [|[k' v'] d IH]; cbn; [done|]. case_decide; [done|]. intros Hd. by rewrite IH. Qed.
End Dict.

Create HintDb pydict.
Create Rewrite HintDb pydict.
Create Rewrite HintDb pysum.
#[export] Hint Rewrite @dget_dset_eq @dget_dpop_eq : pydict.
#[export] Hint Rewrite @dget_dset_ne @dget_dpop_ne using done : pydict.
#[export] Hint Resolve dset_NoDup dpop_NoDup : pydict.

(** ** Sums *)

Definition zsum (l : list Z) : Z := foldr Z.add 0%Z l.

Lemma zsum_app l1 l2 : zsum (l1 ++ l2) = (zsum l1 + zsum l2)%Z.
Proof. induction l1 as [|x l IH]; simpl; [done|]. rewrite IH. lia. Qed.
Lemma zsum_nonneg l : Forall (λ x, 0 ≤ x)%Z l → (0 ≤ zsum l)%Z.
Proof. induction 1; simpl; lia. Qed.
Lemma zsum_permutation l1 l2 : l1 ≡ₚ l2 → zsum l1 = zsum l2.
Proof. induction 1; simpl; lia. Qed.

Definition dsum {K} (d : dict K Z) : Z := zsum d.*2.

Section DictSum.
Context {K : Type} `{EqDecision K}.
Local Open Scope Z_scope.

Lemma dsum_dset (d : dict K Z) k v :
  NoDup d.*1 → dsum (dset d k v) = dsum d - dget_or d k 0 + v.
Proof.
  unfold dsum, dget_or.
  induction d as [|[k0 v0] d IH]; csimpl; [lia|].
  intros [Hk Hd]%list.NoDup_cons. case_decide; csimpl; [lia|]. rewrite IH by done. lia.
Qed.
Lemma dsum_dpop (d : dict K Z) k :
  NoDup d.*1 → dsum (dpop d k) = dsum d - dget_or d k 0.
Proof.
  unfold dsum, dget_or.
  induction d as [|[k0 v0] d IH]; csimpl; [lia|].
  intros [Hk Hd]%list.NoDup_cons. case_decide; csimpl.
  - rewrite IH by done. subst. apply dget_None in Hk. rewrite Hk. csimpl. lia.
  - rewrite IH by done. lia.
Qed.
End DictSum.

Definition msum `{Countable K} (m : gmap K Z) : Z := map_fold (λ _ v acc, v + acc)%Z 0%Z m.

Section MapSum.
Context `{Countable K}.
Local Open Scope Z_scope.

Lemma msum_empty : msum (∅ : gmap K Z) = 0.
Proof. apply map_fold_empty. Qed.
Lemma msum_insert_new (m : gmap K Z) k v : m !! k = None → msum (<[k:=v]> m) = v + msum m.
Proof. intros. unfold msum. rewrite map_fold_insert_L; [done|intros; lia|done]. Qed.
Lemma msum_delete (m : gmap K Z) k : msum (delete k m) = msum m - get_or m k 0.
Proof.
  unfold get_or. destruct (m !! k) as [x|] eqn:E; simpl.
  - rewrite <-(insert_delete_id m k x E) at 2.
    rewrite msum_insert_new by apply lookup_delete_eq. lia.
  - rewrite delete_id by done. lia.
Qed.
Lemma msum_insert (m : gmap K Z) k v : msum (<[k:=v]> m) = msum m - get_or m k 0 + v.
Proof.
  rewrite <-insert_delete_eq, msum_insert_new by apply lookup_delete_eq.
  rewrite msum_delete. lia.
Qed.
End MapSum.

#[export] Hint Rewrite @msum_empty @msum_delete @msum_insert : pysum.
#[export] Hint Rewrite @dsum_dset @dsum_dpop using done : pysum.

Lemma get_or_insert `{Countable K} {V} (m : gmap K V) k k' v d :
  get_or (<[k:=v]> m) k' d = if decide (k = k') then v else get_or m k' d.
Proof. unfold get_or. rewrite lookup_insert. by case_decide. Qed.
Lemma get_or_delete `{Countable K} {V} (m : gmap K V) k k' d :
  get_or (delete k m) k' d = if decide (k = k') then d else get_or m k' d.
Proof. unfold get_or. rewrite lookup_delete. by case_decide. Qed.
#[export] Hint Rewrite @get_or_insert @get_or_delete : pydict.

(** ** Lists *)

Lemma Forall_in {A} (P : A → Prop) l x : Forall P l → x ∈ l → P x.
Proof. intros Hl. by apply (proj1 (list.Forall_forall P l) Hl). Qed.
Lemma Forall_intro {A} (P : A → Prop) l : (∀ x, x ∈ l → P x) → Forall P l.
Proof. apply list.Forall_forall. Qed.
Lemma list_ind2 {A} (P : list A → Prop) :
  P [] → (∀ x, P [x]) → (∀ x y l, P l → P (x :: y :: l)) → ∀ l, P l.
Proof.
  intros H0 H1 H2 l. assert (P l ∧ ∀ x, P (x :: l)); [|tauto].
  induction l as [|y l [IH1 IH2]]; [auto|]. split; [auto|]. intros x. auto.
Qed.
Lemma foldr_flip_reverse {A B} (f : A → B → A) (l : list B) a :
  foldr (flip f) a (reverse l) = foldl f a l.
Proof.
  revert a. induction l as [|x l IH]; intros a; [done|].
  rewrite reverse_cons, foldr_app. apply IH.
Qed.

Section Filter.
Context {A : Type} (P Q : A → Prop) `{∀ x, Decision (P x)} `{∀ x, Decision (Q x)}.
Lemma filter_all (l : list A) : (∀ x, x ∈ l → P x) → filter P l = l.
Proof.
  induction l as [|x l IH]; [done|]. intros Hl. rewrite filter_cons, decide_True by (apply Hl; set_solver).
  rewrite IH; [done|]. intros y Hy. apply Hl. set_solver.
Qed.
Lemma filter_none (l : list A) : (∀ x, x ∈ l → ¬ P x) → filter P l = [].
Proof.
  induction l as [|x l IH]; [done|]. intros Hl. rewrite filter_cons, decide_False by (apply Hl; set_solver).
  apply IH. intros y Hy. apply Hl. set_solver.
Qed.
Lemma filter_ext_in (l : list A) : (∀ x, x ∈ l → P x ↔ Q x) → filter P l = filter Q l.
Proof.
  induction l as [|x l IH]; [done|]. intros Hl. rewrite !filter_cons, IH by (intros; apply Hl; set_solver).
  pose proof (Hl x ltac:(set_solver)). repeat case_decide; tauto.
Qed.
End Filter.
Lemma NoDup_fmap_filter {A B} (f : A → B) (P : A → Prop) `{∀ x, Decision (P x)} l :
  NoDup (f <$> l) → NoDup (f <$> filter P l).
Proof.
  induction l as [|x l IH]; [done|]. csimpl. intros [Hx Hl]%list.NoDup_cons. rewrite filter_cons.
  case_decide; [|by apply IH]. csimpl. apply list.NoDup_cons. split; [|by apply IH].
  intros (y & Hy & [_ Hin]%list_elem_of_filter)%list_elem_of_fmap. apply Hx. rewrite Hy. by apply list_elem_of_fmap_2.
Qed.
