(* ===== verification/PyStr.v ===== *)
(** * Strings and bytes

    Python's [str] and [bytes] are both [string] here: a character of a [str]
    is a code point below 256, a character of a [bytes] is an octet.  The file
    models what the source uses of them: [bytes.hex], [bytes.fromhex],
    [int.to_bytes], [str.encode] and the anchored regular expressions. *)
From S2P Require Import Prelude.

(** ** Characters *)

Definition chr (n : nat) : ascii := ascii_of_nat n.
Definition ord (c : ascii) : nat := nat_of_ascii c.

Definition NL : ascii := chr 10.
Definition DQUOTE : ascii := chr 34.
Definition BACKSLASH : ascii := chr 92.

Definition in_range (lo hi : nat) (c : ascii) : bool :=
  (lo <=? ord c)%nat && (ord c <=? hi)%nat.
Definition is_digit (c : ascii) : bool := in_range 48 57 c.
Definition is_upper (c : ascii) : bool := in_range 65 90 c.
Definition is_lower (c : ascii) : bool := in_range 97 122 c.
Definition is_hex (c : ascii) : bool := is_digit c || in_range 97 102 c || in_range 65 70 c.
(** ASCII white space: tab, newline, vertical tab, form feed, return, blank *)
Definition is_ws (c : ascii) : bool := in_range 9 13 c || (ord c =? 32)%nat.

Fixpoint all_chars (p : ascii → bool) (s : string) : bool :=
  match s with
  | EmptyString => true
  | String c s' => p c && all_chars p s'
  end.

Definition str_len (s : string) : Z := Z.of_nat (String.length s).
Definition str_take (n : nat) (s : string) : string := String.substring 0 n s.
Fixpoint str_drop (n : nat) (s : string) : string :=
  match n, s with
  | O, _ => s
  | S n', String _ s' => str_drop n' s'
  | S _, EmptyString => EmptyString
  end.
Definition str_of_Z (z : Z) : string := pretty z.
Definition is_empty (s : string) : bool :=
  match s with EmptyString => true | _ => false end.

(** ** Regular expressions

    [re.match] with a pattern [^C+$]: a non-empty run of characters of the
    class, up to the end of the string or up to a final newline, because [$]
    also matches before a newline at the very end. *)

Fixpoint run_to_end (p : ascii → bool) (s : string) : bool :=
  match s with
  | EmptyString => true
  | String c s' => if p c then run_to_end p s' else bool_decide (c = NL) && is_empty s'
  end.

Definition re_plus (p : ascii → bool) (s : string) : bool :=
  match s with
  | EmptyString => false
  | String c s' => p c && run_to_end p s'
  end.

(** [^C{n}$] *)
Fixpoint re_exactly (p : ascii → bool) (n : nat) (s : string) : bool :=
  match n, s with
  | O, EmptyString => true
  | O, String c s' => bool_decide (c = NL) && is_empty s'
  | S n', String c s' => p c && re_exactly p n' s'
  | S _, EmptyString => false
  end.

Definition hex_re (s : string) : bool := re_plus is_hex s.

Lemma run_to_end_all p s : all_chars p s = true → run_to_end p s = true.
Proof. induction s as [|c s IH]; simpl; [done|]. by intros [-> ?]%andb_prop; auto. Qed.

Lemma run_to_end_spec p s :
  p NL = false →
  run_to_end p s = true ↔
  ∃ t, all_chars p t = true ∧ (s = t ∨ s = t +:+ String NL EmptyString).
Proof.
  intros Hnl. split.
  - induction s as [|c s IH]; simpl; [exists EmptyString; auto|].
    destruct (p c) eqn:Hc.
    + intros (t & Ht & Hs)%IH. exists (String c t). simpl. rewrite Hc. split; [done|].
      destruct Hs as [->| ->]; [by left|by right].
    + intros [Hc1%bool_decide_eq_true Hs]%andb_prop. subst c.
      exists EmptyString. split; [done|right]. by destruct s.
  - intros (t & Ht & [->| ->]); [by apply run_to_end_all|].
    induction t as [|c t IH].
    { change (EmptyString +:+ ?x) with x. cbn [run_to_end]. by rewrite Hnl. } simpl in Ht.
    apply andb_prop in Ht as [Hc Ht]. change (String c t +:+ ?x) with (String c (t +:+ x)).
    simpl. rewrite Hc. auto.
Qed.

(** ** Hexadecimal text *)

Definition hex_digit (n : nat) : ascii := if (n <? 10)%nat then chr (48 + n) else chr (87 + n).
Definition hex_val (c : ascii) : option nat :=
  let n := ord c in
  if is_digit c then Some (n - 48)%nat
  else if in_range 97 102 c then Some (n - 87)%nat
  else if in_range 65 70 c then Some (n - 55)%nat
  else None.

(** [bytes.hex()] *)
Fixpoint hex (b : string) : string :=
  match b with
  | EmptyString => EmptyString
  | String c b' => String (hex_digit (ord c / 16)) (String (hex_digit (ord c mod 16)) (hex b'))
  end.

(** [bytes.fromhex]: pairs of digits, white space allowed between the pairs *)
Fixpoint fromhex (s : string) : option string :=
  match s with
  | EmptyString => Some EmptyString
  | String c s1 =>
      if is_ws c then fromhex s1
      else match s1 with
           | EmptyString => None
           | String d s2 =>
               match hex_val c, hex_val d with
               | Some h, Some l =>
                   match fromhex s2 with
                   | Some b => Some (String (chr (16 * h + l)) b)
                   | None => None
                   end
               | _, _ => None
               end
           end
  end.

Definition all_ascii : list ascii := chr <$> seq 0 256.
Lemma all_ascii_spec (P : ascii → bool) : forallb P all_ascii = true → ∀ c, P c = true.
Proof.
  intros H c. rewrite forallb_forall in H. apply H. apply list_elem_of_In.
  apply list_elem_of_fmap. exists (ord c). split.
  - unfold chr, ord. by rewrite ascii_nat_embedding.
  - apply elem_of_seq. pose proof (nat_ascii_bounded c). unfold ord. lia.
Qed.
(** A decidable fact about one character, by inspection of all of them *)
Ltac by_chars :=
  match goal with
  | |- ∀ c : ascii, @?P c = true => apply (all_ascii_spec P); vm_compute; reflexivity
  end.

Lemma hex_digits_ok : ∀ c : ascii,
  (negb (is_ws (hex_digit (ord c / 16))) &&
   bool_decide (hex_val (hex_digit (ord c / 16)) = Some (ord c / 16)%nat) &&
   bool_decide (hex_val (hex_digit (ord c mod 16)) = Some (ord c mod 16)%nat) &&
   bool_decide (chr (16 * (ord c / 16) + ord c mod 16) = c) &&
   is_hex (hex_digit (ord c / 16)) && is_hex (hex_digit (ord c mod 16))) = true.
Proof. by_chars. Qed.

Lemma fromhex_hex b : fromhex (hex b) = Some b.
Proof.
  induction b as [|c b IH]; [done|]. pose proof (hex_digits_ok c) as H.
  cbn [hex fromhex]. set (h := hex_digit (ord c / 16)) in *. set (l := hex_digit _) in *.
  rewrite !andb_true_iff, !bool_decide_eq_true in H. destruct H as [[[[[Hw H1] H2] H3] _] _].
  apply negb_true_iff in Hw. rewrite Hw, H1, H2, IH. by rewrite H3.
Qed.

#[global] Instance hex_inj : Inj (=) (=) hex.
Proof. intros a b H. apply (f_equal fromhex) in H. rewrite !fromhex_hex in H. congruence. Qed.

Lemma hex_all_hex b : all_chars is_hex (hex b) = true.
Proof.
  induction b as [|c b IH]; [done|]. pose proof (hex_digits_ok c) as H.
  cbn [hex all_chars]. rewrite !andb_true_iff in H. destruct H as [[_ H1] H2].
  by rewrite H1, H2, IH.
Qed.

Lemma hex_length b : String.length (hex b) = (2 * String.length b)%nat.
Proof. induction b as [|c b IH]; [done|]. cbn [hex String.length]. rewrite IH. lia. Qed.

(** ** Encodings *)

(** [str.encode()] (UTF-8) of code points below 256 *)
Fixpoint utf8 (s : string) : string :=
  match s with
  | EmptyString => EmptyString
  | String c s' =>
      if (ord c <? 128)%nat then String c (utf8 s')
      else String (chr (192 + ord c / 64)) (String (chr (128 + ord c mod 64)) (utf8 s'))
  end.

(** [int.to_bytes(n, 'big')] *)
Fixpoint be_bytes (n : nat) (z : Z) : string :=
  match n with
  | O => EmptyString
  | S n' => be_bytes n' (z / 256) +:+ String (chr (Z.to_nat (z mod 256))) EmptyString
  end.
Definition to_bytes (n : nat) (z : Z) : result string :=
  if (z <? 0)%Z || (256 ^ Z.of_nat n <=? z)%Z then Raise OverflowError else Ok (be_bytes n z).

(** [sub in s] *)
Definition contains (sub s : string) : bool := match String.index 0 sub s with Some _ => true | None => false end.

(** [b[start:stop]] for [0 <= start <= stop] *)
Definition str_slice (s : string) (start stop : Z) : string :=
  str_take (Z.to_nat (stop - start)) (str_drop (Z.to_nat start) s).

(** [int.from_bytes(b, 'big')] *)
Fixpoint from_bytes_acc (acc : Z) (b : string) : Z :=
  match b with
  | EmptyString => acc
  | String c b' => from_bytes_acc (acc * 256 + Z.of_nat (ord c)) b'
  end.
Definition from_bytes (b : string) : Z := from_bytes_acc 0 b.

Lemma string_app_cons c s t : String c s +:+ t = String c (s +:+ t).
Proof. done. Qed.
Lemma string_app_nil s : s +:+ EmptyString = s.
Proof. induction s as [|c s IH]; [done|]. by rewrite string_app_cons, IH. Qed.
Lemma string_app_nil_l s : EmptyString +:+ s = s.
Proof. done. Qed.
Lemma string_app_assoc s t u : (s +:+ t) +:+ u = s +:+ t +:+ u.
Proof. induction s as [|c s IH]; [done|]. by rewrite !string_app_cons, IH. Qed.
Lemma string_length_app s t :
  String.length (s +:+ t) = (String.length s + String.length t)%nat.
Proof.
  induction s as [|c s IH]; [done|]. rewrite string_app_cons. cbn [String.length]. by rewrite IH.
Qed.
Create Rewrite HintDb pystr.
#[export] Hint Rewrite string_app_cons string_app_nil string_app_nil_l string_app_assoc : pystr.
(** Concatenations in right-associated form, literals spelled out *)
Tactic Notation "str_simpl" := autorewrite with pystr.
Tactic Notation "str_simpl" "in" hyp(H) := autorewrite with pystr in H.

Lemma string_app_inj_l s t u : s +:+ t = s +:+ u → t = u.
Proof. induction s as [|c s IH]; [done|]. rewrite !string_app_cons. intros [= ?]. auto. Qed.
(** Two concatenations whose first parts have one length agree part by part. *)
Lemma string_app_inj_len s s' t t' :
  String.length s = String.length s' → s +:+ t = s' +:+ t' → s = s' ∧ t = t'.
Proof.
  revert s'. induction s as [|c s IH]; intros [|c' s'] Hl; try done.
  rewrite !string_app_cons. intros [= <- H]. injection Hl as Hl.
  destruct (IH s' Hl H) as [-> ->]. done.
Qed.

Lemma str_drop_app s t : str_drop (String.length s) (s +:+ t) = t.
Proof. induction s as [|c s IH]; [done|]. by rewrite string_app_cons. Qed.
Lemma str_take_app s t : str_take (String.length s) (s +:+ t) = s.
Proof.
  unfold str_take. induction s as [|c s IH]; [by destruct t|]. rewrite string_app_cons. cbn. by rewrite IH.
Qed.
Lemma str_len_app s t : str_len (s +:+ t) = (str_len s + str_len t)%Z.
Proof. unfold str_len. rewrite string_length_app. lia. Qed.
(** The middle of three pieces *)
Lemma str_slice_mid s t u a b : str_len s = a → str_len t = (b - a)%Z → str_slice (s +:+ t +:+ u) a b = t.
Proof.
  unfold str_len, str_slice. intros <- <-. rewrite !Nat2Z.id, str_drop_app. apply str_take_app.
Qed.
Lemma str_take_length n s : (n ≤ String.length s)%nat → String.length (str_take n s) = n.
Proof.
  unfold str_take. revert s. induction n as [|n IH]; intros [|c s] H; cbn in *; try lia. f_equal. apply IH. lia.
Qed.
Lemma str_drop_length n s : String.length (str_drop n s) = (String.length s - n)%nat.
Proof. revert s. induction n as [|n IH]; intros [|c s]; cbn; try done. Qed.
Lemma str_slice_len s a b : (0 <= a <= b)%Z → (b <= str_len s)%Z → str_len (str_slice s a b) = (b - a)%Z.
Proof.
  unfold str_len, str_slice. intros Ha Hb. rewrite str_take_length; [lia|]. rewrite str_drop_length. lia.
Qed.

Lemma from_bytes_acc_app a b acc :
  from_bytes_acc acc (a +:+ b) = from_bytes_acc (from_bytes_acc acc a) b.
Proof.
  revert acc. induction a as [|c a IH]; intros acc; [done|].
  rewrite string_app_cons. cbn [from_bytes_acc]. apply IH.
Qed.

Lemma from_be_bytes n z : (0 ≤ z < 256 ^ Z.of_nat n)%Z → from_bytes (be_bytes n z) = z.
Proof.
  unfold from_bytes. revert z. induction n as [|n IH]; intros z Hz.
  { change (256 ^ Z.of_nat 0)%Z with 1%Z in Hz. cbn. lia. }
  cbn [be_bytes]. rewrite from_bytes_acc_app. rewrite IH.
  - cbn [from_bytes_acc]. unfold ord, chr.
    pose proof (Z.mod_pos_bound z 256 eq_refl).
    rewrite nat_ascii_embedding by lia.
    rewrite Z2Nat.id by lia. pose proof (Z.div_mod z 256). lia.
  - rewrite Nat2Z.inj_succ, Z.pow_succ_r in Hz by lia.
    split; [apply Z.div_pos; lia|]. apply Z.div_lt_upper_bound; lia.
Qed.

Lemma be_bytes_length n z : String.length (be_bytes n z) = n.
Proof.
  revert z. induction n as [|n IH]; intros z; [done|].
  cbn [be_bytes]. rewrite string_length_app, IH. cbn. lia.
Qed.

Lemma be_bytes_from_acc n acc b : (0 <= acc)%Z →
  be_bytes (n + String.length b) (from_bytes_acc acc b) = be_bytes n acc +:+ b.
Proof.
  revert n acc. induction b as [|c b IH]; intros n acc Ha; cbn [from_bytes_acc String.length].
  { by rewrite Nat.add_0_r, string_app_nil. }
  pose proof (nat_ascii_bounded c). unfold ord.
  rewrite <-Nat.add_succ_comm, IH by lia. cbn [be_bytes].
  replace ((acc * 256 + Z.of_nat (nat_of_ascii c)) / 256)%Z with acc by (apply (Z.div_unique _ _ _ (Z.of_nat (nat_of_ascii c))); lia).
  replace ((acc * 256 + Z.of_nat (nat_of_ascii c)) mod 256)%Z with (Z.of_nat (nat_of_ascii c)) by (apply (Z.mod_unique _ _ acc); lia).
  unfold chr. rewrite Nat2Z.id, ascii_nat_embedding. by rewrite string_app_assoc, string_app_cons, string_app_nil_l.
Qed.
Lemma be_from_bytes b : be_bytes (String.length b) (from_bytes b) = b.
Proof. apply (be_bytes_from_acc 0 0 b). done. Qed.

(** Cutting strings *)
Lemma str_take_drop n s : str_take n s +:+ str_drop n s = s.
Proof.
  unfold str_take. revert s. induction n as [|n IH]; intros [|c s]; try done.
  cbn. rewrite string_app_cons. by rewrite IH.
Qed.
Lemma str_drop_drop n m s : str_drop n (str_drop m s) = str_drop (m + n) s.
Proof. revert s. induction m as [|m IH]; intros [|c s]; cbn; try done. by destruct n. Qed.
Lemma str_take_all n s : (String.length s ≤ n)%nat → str_take n s = s.
Proof.
  unfold str_take. revert s. induction n as [|n IH]; intros [|c s] H; cbn in *; try done; try lia.
  f_equal. apply IH. lia.
Qed.
Lemma str_take_split n m s : str_take (n + m) s = str_take n s +:+ str_take m (str_drop n s).
Proof.
  unfold str_take. revert s. induction n as [|n IH]; intros [|c s]; cbn; try done.
  - by destruct m. - rewrite string_app_cons. f_equal. apply IH.
Qed.
(** A string cut in pieces *)
Lemma str_slice_app s a b c : (0 <= a <= b)%Z → (b <= c)%Z →
  str_slice s a b +:+ str_slice s b c = str_slice s a c.
Proof.
  intros Ha Hb. unfold str_slice. replace (Z.to_nat (c - a)) with (Z.to_nat (b - a) + Z.to_nat (c - b))%nat by lia.
  rewrite str_take_split, str_drop_drop. do 3 f_equal. lia.
Qed.
Lemma str_slice_all s : str_slice s 0 (str_len s) = s.
Proof. unfold str_slice, str_len. rewrite Z.sub_0_r, Nat2Z.id. by apply str_take_all. Qed.

(** Fixed-width integers survive the round trip; the others raise. *)
Lemma to_bytes_ok n z :
  (0 ≤ z < 256 ^ Z.of_nat n)%Z →
  to_bytes n z = Ok (be_bytes n z) ∧ from_bytes (be_bytes n z) = z.
Proof.
  intros Hz. split; [|by apply from_be_bytes]. unfold to_bytes.
  destruct (Z.ltb_spec z 0); [lia|]. destruct (Z.leb_spec (256 ^ Z.of_nat n) z); [lia|done].
Qed.
Lemma to_bytes_inv n z b :
  to_bytes n z = Ok b → (0 ≤ z < 256 ^ Z.of_nat n)%Z ∧ b = be_bytes n z.
Proof.
  unfold to_bytes.
  destruct (Z.ltb_spec z 0), (Z.leb_spec (256 ^ Z.of_nat n) z); simpl; intros [= <-]; split; lia || done.
Qed.

(** *** UTF-8 is injective *)

(** The first octet of a character tells its length, and a character can be
    read back from its octets. *)
Definition utf8_char (c : ascii) : string := utf8 (String c EmptyString).
Lemma utf8_char_nonempty : ∀ c : ascii, negb (is_empty (utf8_char c)) = true.
Proof. by_chars. Qed.

Lemma utf8_cons c s : utf8 (String c s) = utf8_char c +:+ utf8 s.
Proof. unfold utf8_char. cbn [utf8]. by destruct (ord c <? 128)%nat. Qed.

Lemma elem_of_all_ascii c : In c all_ascii.
Proof.
  apply list_elem_of_In, list_elem_of_fmap. exists (ord c).
  split; [by unfold chr, ord; rewrite ascii_nat_embedding|].
  apply elem_of_seq. pose proof (nat_ascii_bounded c). unfold ord. lia.
Qed.

(** Prefix-free codes of characters extend to strings: [f] below is a
    character code, its table is computed once and checked pair by pair. *)
Definition code_table (f : ascii → string) : list (ascii * string) := (λ c, (c, f c)) <$> all_ascii.
Fixpoint prefixb (s t : string) : bool :=
  match s, t with
  | EmptyString, _ => true
  | String c s', String d t' => Ascii.eqb c d && prefixb s' t'
  | _, EmptyString => false
  end.
Definition prefix_free (tab : list (ascii * string)) : bool :=
  forallb (λ x, forallb (λ y, Ascii.eqb x.1 y.1 || negb (prefixb x.2 y.2 || prefixb y.2 x.2)) tab) tab.
(** Prove [prefix_free (code_table f) = true]. *)
Ltac by_code_table :=
  match goal with
  | |- prefix_free ?t = true =>
      let l := eval vm_compute in t in
      let E := fresh in assert (t = l) as E by (vm_compute; reflexivity); rewrite E; vm_compute; reflexivity
  end.

Lemma app_eq_prefix s t x y : s +:+ x = t +:+ y → prefixb s t || prefixb t s = true.
Proof.
  revert t. induction s as [|c s IH]; intros [|d t]; rewrite ?string_app_cons; try done.
  intros [= -> H]. cbn [prefixb]. rewrite !Ascii.eqb_refl. by apply IH.
Qed.
Lemma char_code_inj (f : ascii → string) c d x y :
  prefix_free (code_table f) = true → f c +:+ x = f d +:+ y → c = d ∧ x = y.
Proof.
  intros Hf H. unfold prefix_free in Hf. rewrite forallb_forall in Hf.
  assert (Hin : ∀ c, In (c, f c) (code_table f)).
  { intros e. apply list_elem_of_In, list_elem_of_fmap. exists e. split; [done|].
    apply list_elem_of_In, elem_of_all_ascii. }
  specialize (Hf _ (Hin c)). rewrite forallb_forall in Hf. specialize (Hf _ (Hin d)). cbn [fst snd] in Hf.
  rewrite (app_eq_prefix _ _ _ _ H), orb_false_r in Hf.
  apply Ascii.eqb_eq in Hf as ->. split; [done|]. by eapply string_app_inj_l.
Qed.

Lemma utf8_char_prefix_free : prefix_free (code_table utf8_char) = true.
Proof. by_code_table. Qed.

#[global] Instance utf8_inj : Inj (=) (=) utf8.
Proof.
  intros s. induction s as [|c s IH]; intros [|d t]; rewrite ?utf8_cons; [done|..].
  - pose proof (utf8_char_nonempty d). by destruct (utf8_char d).
  - pose proof (utf8_char_nonempty c). by destruct (utf8_char c).
  - intros [-> H]%(char_code_inj utf8_char); [|exact utf8_char_prefix_free]. f_equal. auto.
Qed.
