(* ===== verification/Json.v ===== *)
(** * JSON values and their canonical serialization

    The values a payload can hold, Python's tests on them ([isinstance],
    truthiness) and [json.dumps(obj, sort_keys=True, separators=(',', ':'))],
    the text that is hashed and signed.  The main fact is that this text
    determines the value up to the order of dictionary keys. *)
From S2P Require Import Prelude PyStr.

(** A float carries its [repr] text; the source only ever rejects floats,
    tests them for truth or prints them. *)
Inductive JVal :=
  | JNull
  | JBool (b : bool)
  | JInt (z : Z)
  | JFloat (repr : string)
  | JStr (s : string)
  | JList (l : list JVal)
  | JObj (d : list (string * JVal)).

Section JValInd.
Context (P : JVal → Prop)
  (Hnull : P JNull) (Hbool : ∀ b, P (JBool b)) (Hint : ∀ z, P (JInt z))
  (Hfloat : ∀ r, P (JFloat r)) (Hstr : ∀ s, P (JStr s))
  (Hlist : ∀ l, Forall P l → P (JList l))
  (Hobj : ∀ d, Forall (λ kv, P kv.2) d → P (JObj d)).

Fixpoint JVal_nested_ind (v : JVal) : P v :=
  match v with
  | JNull => Hnull | JBool b => Hbool b | JInt z => Hint z
  | JFloat r => Hfloat r | JStr s => Hstr s
  | JList l => Hlist l ((fix go l := match l return Forall P l with
      | [] => @Forall_nil _ P
      | x :: l' => @Forall_cons _ P x l' (JVal_nested_ind x) (go l') end) l)
  | JObj d => Hobj d ((fix go d := match d return Forall (λ kv, P kv.2) d with
      | [] => @Forall_nil _ (λ kv, P kv.2)
      | kv :: d' => @Forall_cons _ (λ kv, P kv.2) kv d' (JVal_nested_ind kv.2) (go d') end) d)
  end.
End JValInd.

Definition JVal_eq_dec : ∀ v w : JVal, {v = w} + {v ≠ w}.
Proof.
  refine (fix go v w {struct v} := match v, w with
    | JNull, JNull => left eq_refl
    | JBool b, JBool c => cast_if (decide (b = c))
    | JInt a, JInt b => cast_if (decide (a = b))
    | JFloat a, JFloat b => cast_if (decide (a = b))
    | JStr a, JStr b => cast_if (decide (a = b))
    | JList a, JList b =>
        cast_if ((fix gol l k : {l = k} + {l ≠ k} := match l, k with
          | [], [] => left eq_refl
          | x :: l', y :: k' => cast_if_and (go x y) (gol l' k')
          | _, _ => right _ end) a b)
    | JObj a, JObj b =>
        cast_if ((fix god l k : {l = k} + {l ≠ k} := match l, k with
          | [], [] => left eq_refl
          | (i, x) :: l', (j, y) :: k' => cast_if_and3 (decide (i = j)) (go x y) (god l' k')
          | _, _ => right _ end) a b)
    | _, _ => right _
    end); clear go; abstract congruence.
Defined.
#[global] Instance JVal_eq_decision : EqDecision JVal := JVal_eq_dec.

(** ** Python's tests on values *)

Definition is_int (v : JVal) : bool :=
  match v with JInt _ | JBool _ => true | _ => false end.
Definition is_bool (v : JVal) : bool := match v with JBool _ => true | _ => false end.
Definition is_str (v : JVal) : bool := match v with JStr _ => true | _ => false end.
(** The integer an [int] stands for; [True] is 1. *)
Definition as_Z (v : JVal) : result Z :=
  match v with JInt z => Ok z | JBool b => Ok (if b then 1 else 0)%Z | _ => Raise TypeError end.
Definition as_str (v : JVal) : result string :=
  match v with JStr s => Ok s | _ => Raise TypeError end.
Definition truthy (v : JVal) : bool :=
  match v with
  | JNull => false
  | JBool b => b
  | JInt z => negb (z =? 0)%Z
  | JFloat r => negb (bool_decide (r = "0.0") || bool_decide (r = "-0.0"))
  | JStr s => negb (is_empty s)
  | JList l => match l with [] => false | _ => true end
  | JObj d => match d with [] => false | _ => true end
  end.

(** [d.get(k, default)] and its typed readings *)
Definition jget (d : dict string JVal) (k : string) (default : JVal) : JVal := dget_or d k default.
Definition jget_int (d : dict string JVal) (k : string) (default : Z) : result Z :=
  as_Z (jget d k (JInt default)).
Definition jget_str (d : dict string JVal) (k : string) : result string :=
  as_str (jget d k (JStr EmptyString)).
(** [d[k]] *)
Definition jindex (d : dict string JVal) (k : string) : result JVal :=
  match dget d k with Some v => Ok v | None => Raise KeyError end.
Definition jindex_int (d : dict string JVal) (k : string) : result Z := v ← jindex d k; as_Z v.
Definition jindex_str (d : dict string JVal) (k : string) : result string := v ← jindex d k; as_str v.

(** ** Reading values of unknown type *)

(** [if cond: raise ValueError(msg)] before the rest *)
Definition guard {A} (cond : bool) (msg : string) (k : result A) : result A :=
  if cond then Raise (ValueError msg) else k.

(** [bytes.fromhex(v)] on a value read from a dictionary *)
Definition fromhex_val (v : JVal) : result string :=
  s ← as_str v;
  match fromhex s with
  | Some b => Ok b
  | None => Raise (ValueError "non-hexadecimal number found in fromhex() arg")
  end.

(** [v.get], [v[k]] on a value that must be a dictionary *)
Definition as_dict (v : JVal) : result (dict string JVal) :=
  match v with JObj d => Ok d | _ => Raise AttributeError end.
Definition index_val (v : JVal) (k : string) : result JVal :=
  match v with JObj d => jindex d k | _ => Raise TypeError end.
Definition as_list (v : JVal) : result (list JVal) :=
  match v with JList l => Ok l | _ => Raise TypeError end.
(** [for x in v]: a dictionary iterates over its keys, a string over its characters. *)
Definition iter_val (v : JVal) : result (list JVal) :=
  match v with
  | JList l => Ok l
  | JObj d => Ok (JStr <$> d.*1)
  | JStr s => Ok ((λ c, JStr (String c EmptyString)) <$> String.list_ascii_of_string s)
  | _ => Raise TypeError
  end.

Open Scope Z_scope.
(** [range(start, stop)] *)
Definition zrange (start stop : Z) : list Z :=
  (λ k, start + Z.of_nat k) <$> seq 0 (Z.to_nat (stop - start)).
(** [l[i]]: a negative index counts from the end. *)
Definition py_index {A} (l : list A) (i : Z) : result A :=
  let n := Z.of_nat (length l) in
  let j := if i <? 0 then i + n else i in
  if (j <? 0) || (n <=? j) then Raise IndexError
  else match l !! Z.to_nat j with Some x => Ok x | None => Raise IndexError end.

(** [l[start:stop]] *)
Definition slice_bound (n i : Z) : Z := Z.max 0 (Z.min n (if i <? 0 then i + n else i)).
Definition py_slice {A} (l : list A) (start stop : Z) : list A :=
  let n := Z.of_nat (length l) in
  let a := slice_bound n start in
  let b := slice_bound n stop in
  take (Z.to_nat (b - a)) (drop (Z.to_nat a) l).

(** [[f x for x in l]] *)
Fixpoint mmap {A B} (f : A → result B) (l : list A) : result (list B) :=
  match l with
  | [] => Ok []
  | x :: l' => y ← f x; ys ← mmap f l'; Ok (y :: ys)
  end.

Lemma fromhex_val_hex b : fromhex_val (JStr (hex b)) = Ok b.
Proof. unfold fromhex_val. cbn. by rewrite fromhex_hex. Qed.

Lemma mmap_fmap {A B D} (f : B → result D) (h : A → B) (g : A → D) l :
  (∀ x, f (h x) = Ok (g x)) → mmap f (h <$> l) = Ok (g <$> l).
Proof. intros H. induction l as [|x l IH]; [done|]. csimpl. by rewrite H, IH. Qed.

Lemma py_index_nat {A} (l : list A) n x : l !! n = Some x → py_index l (Z.of_nat n) = Ok x.
Proof.
  intros Hn. pose proof (lookup_lt_Some _ _ _ Hn). unfold py_index.
  destruct (Z.ltb_spec (Z.of_nat n) 0); [lia|]. cbn.
  destruct (Z.ltb_spec (Z.of_nat n) 0); [lia|]. destruct (Z.leb_spec (Z.of_nat (length l)) (Z.of_nat n)); [lia|].
  cbn. by rewrite Nat2Z.id, Hn.
Qed.

Close Scope Z_scope.

(** ** json.dumps *)

Definition hex4 (n : nat) : string :=
  String (hex_digit 0) (String (hex_digit 0)
    (String (hex_digit (n / 16)) (String (hex_digit (n mod 16)) EmptyString))).

(** [ensure_ascii]: everything outside blank..tilde is escaped. *)
Definition esc_char (c : ascii) : string :=
  let n := ord c in
  let two d := String BACKSLASH (String d EmptyString) in
  if bool_decide (c = DQUOTE) then two DQUOTE
  else if bool_decide (c = BACKSLASH) then two BACKSLASH
  else if (n =? 10)%nat then two "n"%char
  else if (n =? 13)%nat then two "r"%char
  else if (n =? 9)%nat then two "t"%char
  else if (n =? 12)%nat then two "f"%char
  else if (n =? 8)%nat then two "b"%char
  else if in_range 32 126 c then String c EmptyString
  else String BACKSLASH (String "u"%char (hex4 n)).

Fixpoint esc (s : string) : string :=
  match s with EmptyString => EmptyString | String c s' => esc_char c +:+ esc s' end.
Definition quote (s : string) : string :=
  String DQUOTE (esc s +:+ String DQUOTE EmptyString).

Definition key_le (x y : string * JVal) : Prop := String.le x.1 y.1.
#[global] Instance key_le_dec : ∀ x y, Decision (key_le x y).
Proof. intros x y. unfold key_le. apply _. Defined.
Definition sort_keys (d : dict string JVal) : dict string JVal := merge_sort key_le d.

(** Dictionaries in key order, at every depth *)
Fixpoint norm (v : JVal) : JVal :=
  match v with
  | JList l => JList (List.map norm l)
  | JObj d => JObj (sort_keys (List.map (λ kv, (kv.1, norm kv.2)) d))
  | _ => v
  end.

Definition COMMA : string := ",".
Fixpoint sep_concat (l : list string) : string :=
  match l with
  | [] => EmptyString
  | [x] => x
  | x :: l' => x +:+ COMMA +:+ sep_concat l'
  end.

(** The text of a value, dictionaries in the order they are given *)
Fixpoint print (v : JVal) : string :=
  match v with
  | JNull => "null"
  | JBool true => "true"
  | JBool false => "false"
  | JInt z => str_of_Z z
  | JFloat r => r
  | JStr s => quote s
  | JList l => "[" +:+ sep_concat (List.map print l) +:+ "]"
  | JObj d => "{" +:+ sep_concat (List.map (λ kv, quote kv.1 +:+ ":" +:+ print kv.2) d) +:+ "}"
  end.

Definition dumps (v : JVal) : string := print (norm v).

(** ** Well-formed values *)

Definition is_delim (c : ascii) : bool :=
  bool_decide (c = ","%char) || bool_decide (c = "]"%char) || bool_decide (c = "}"%char).
Definition num_char (c : ascii) : bool := is_digit c || bool_decide (c = "-"%char).
Definition num_first (c : ascii) : bool :=
  num_char c || bool_decide (c = "N"%char) || bool_decide (c = "I"%char).
(** The shape of [float.__repr__] as the JSON encoder writes it *)
Definition wf_float (r : string) : bool :=
  all_chars (λ c, negb (is_delim c)) r && negb (all_chars num_char r) &&
  match r with EmptyString => false | String c _ => num_first c end.

Fixpoint wf (v : JVal) : bool :=
  match v with
  | JFloat r => wf_float r
  | JList l => forallb wf l
  | JObj d => bool_decide (NoDup d.*1) && forallb (λ kv, wf kv.2) d
  | _ => true
  end.

Example dumps_sorted :
  dumps (JObj [("b", JList [JInt (-12); JBool true]); ("a", JStr (String NL "x"))])
  = String.concat EmptyString ["{"; quote "a"; ":"; String DQUOTE (String BACKSLASH "nx"); String DQUOTE ",";
      quote "b"; ":[-12,true]}"].
Proof. vm_compute. reflexivity. Qed.

(** ** The text determines the value *)

Definition ends (r : string) : bool :=
  match r with EmptyString => true | String c _ => is_delim c end.

Definition stops (p : ascii → bool) (r : string) : Prop :=
  match r with EmptyString => True | String c _ => p c = false end.

Lemma token_split p t t' r r' :
  all_chars p t = true → all_chars p t' = true → stops p r → stops p r' →
  t +:+ r = t' +:+ r' → t = t' ∧ r = r'.
Proof.
  revert t'. induction t as [|c t IH]; intros [|c' t'] Ht Ht' Hr Hr'; cbn [all_chars] in *;
    str_simpl.
  - done.
  - intros ->. cbn in Hr. apply andb_prop in Ht' as [? _]. congruence.
  - intros <-. cbn in Hr'. apply andb_prop in Ht as [? _]. congruence.
  - intros [= <- H].
    apply andb_prop in Ht as [_ Ht]. apply andb_prop in Ht' as [_ Ht'].
    by destruct (IH t' Ht Ht' Hr Hr' H) as [-> ->].
Qed.

Lemma forallb_True_iff {A} (f : A → bool) l : forallb f l = true ↔ Forall (λ x, f x = true) l.
Proof.
  rewrite forallb_forall, list.Forall_forall.
  split; intros Hl x Hx; apply Hl; by apply list_elem_of_In.
Qed.

Lemma esc_char_prefix_free : prefix_free (code_table esc_char) = true.
Proof. by_code_table. Qed.
Lemma esc_char_start : ∀ c : ascii,
  negb (prefixb (String DQUOTE EmptyString) (esc_char c)) && negb (is_empty (esc_char c)) = true.
Proof. by_chars. Qed.

Lemma esc_char_inj c d x y : esc_char c +:+ x = esc_char d +:+ y → c = d ∧ x = y.
Proof. apply char_code_inj, esc_char_prefix_free. Qed.

Lemma esc_char_head c x y : esc_char c +:+ x ≠ String DQUOTE y.
Proof.
  intros H. pose proof (esc_char_start c) as Hc.
  rewrite !andb_true_iff, !negb_true_iff in Hc. destruct Hc as [Hc He].
  destruct (esc_char c) as [|d s]; [done|].
  rewrite string_app_cons in H. injection H as -> _.
  cbn [prefixb] in Hc. by rewrite Ascii.eqb_refl in Hc.
Qed.

Lemma quote_inj s t x y : quote s +:+ x = quote t +:+ y → s = t ∧ x = y.
Proof.
  unfold quote. rewrite !string_app_cons, !string_app_assoc. intros [= H].
  revert t H. induction s as [|c s IH]; intros [|d t]; cbn [esc]; str_simpl.
  - by intros [= ->].
  - intros H. symmetry in H. by apply esc_char_head in H.
  - intros H. by apply esc_char_head in H.
  - intros [-> H]%esc_char_inj. by destruct (IH t H) as [-> ->].
Qed.

(** *** Numbers *)

Lemma pretty_N_go_chars n s :
  all_chars is_digit s = true → all_chars is_digit (pretty_N_go n s) = true.
Proof.
  revert s. induction (N.lt_wf_0 n) as [n _ IH]; intros s Hs.
  destruct (decide (n = 0)%N) as [->|]; [by rewrite pretty_N_go_0|].
  rewrite pretty_N_go_step by lia. apply IH; [apply N.div_lt; lia|].
  cbn [all_chars]. rewrite Hs, andb_true_r.
  pose proof (N.mod_lt n 10 ltac:(done)) as Hm. revert Hm.
  generalize (n `mod` 10)%N as m. intros m Hm.
  assert (m = 0 ∨ m = 1 ∨ m = 2 ∨ m = 3 ∨ m = 4 ∨ m = 5 ∨ m = 6 ∨ m = 7 ∨ m = 8 ∨ m = 9)%N
    as Hc by lia.
  by repeat destruct Hc as [->|Hc]; [..|subst].
Qed.
Lemma pretty_N_chars (n : N) : all_chars is_digit (pretty n) = true.
Proof.
  unfold pretty, pretty_N. case_decide; [done|]. by apply pretty_N_go_chars.
Qed.
Lemma all_chars_impl (p q : ascii → bool) s :
  (∀ c, p c = true → q c = true) → all_chars p s = true → all_chars q s = true.
Proof.
  intros Hpq. induction s as [|c s IH]; [done|]. cbn [all_chars].
  intros [Hc Hs]%andb_prop. by rewrite (Hpq _ Hc), (IH Hs).
Qed.
Lemma digit_num c : is_digit c = true → num_char c = true.
Proof. unfold num_char. by intros ->. Qed.
Lemma num_not_delim : ∀ c : ascii, implb (num_char c) (negb (is_delim c)) = true.
Proof. by_chars. Qed.

Lemma str_of_Z_chars z : all_chars num_char (str_of_Z z) = true.
Proof.
  unfold str_of_Z, pretty, pretty_Z. destruct z as [|p|p].
  - by vm_compute.
  - eapply all_chars_impl; [apply digit_num|]. apply pretty_N_chars.
  - change (all_chars num_char (String "-"%char (pretty (N.pos p))) = true).
    cbn [all_chars]. eapply all_chars_impl; [apply digit_num|]. apply pretty_N_chars.
Qed.

Lemma pretty_N_nonempty (n : N) : pretty n ≠ EmptyString.
Proof.
  intros H. destruct (decide (n = 0)%N) as [->|Hn]; [done|].
  assert (pretty n ≠ EmptyString); [|done]. clear H.
  unfold pretty, pretty_N. rewrite decide_False by done.
  assert (∀ m s, s ≠ EmptyString → pretty_N_go m s ≠ EmptyString) as Hgo.
  { intros m. induction (N.lt_wf_0 m) as [m _ IH]; intros s Hs.
    destruct (decide (m = 0)%N) as [->|]; [by rewrite pretty_N_go_0|].
    rewrite pretty_N_go_step by lia. apply IH; [apply N.div_lt; lia|done]. }
  rewrite pretty_N_go_step by lia. by apply Hgo.
Qed.
Lemma str_of_Z_nonempty z : str_of_Z z ≠ EmptyString.
Proof.
  unfold str_of_Z, pretty, pretty_Z. destruct z; [done|apply pretty_N_nonempty|done].
Qed.

(** *** The first character tells the kind of a value *)

Definition head_kind (c : ascii) : nat :=
  if bool_decide (c = "n"%char) then 0 else if bool_decide (c = "t"%char) then 1
  else if bool_decide (c = "f"%char) then 2 else if num_first c then 3
  else if bool_decide (c = DQUOTE) then 4 else if bool_decide (c = "["%char) then 5
  else if bool_decide (c = "{"%char) then 6 else 7.

Definition kind (v : JVal) : nat :=
  match v with
  | JNull => 0 | JBool true => 1 | JBool false => 2 | JInt _ | JFloat _ => 3
  | JStr _ => 4 | JList _ => 5 | JObj _ => 6
  end.

Lemma head_kind_num : ∀ c : ascii, implb (num_first c) (bool_decide (head_kind c = 3%nat)) = true.
Proof. by_chars. Qed.
Lemma head_kind_delim : ∀ c : ascii, implb (is_delim c) (bool_decide (head_kind c = 7%nat)) = true.
Proof. by_chars. Qed.

Lemma print_head v : wf v = true → ∃ c s, print v = String c s ∧ head_kind c = kind v.
Proof.
  destruct v as [|[]|z|r|s|l|d]; intros Hwf; try by eexists _, _.
  - cbn [print]. pose proof (str_of_Z_chars z) as Hz. pose proof (str_of_Z_nonempty z).
    destruct (str_of_Z z) as [|c s]; [done|]. exists c, s. split; [done|].
    cbn [all_chars] in Hz. apply andb_prop in Hz as [Hc _].
    pose proof (head_kind_num c) as Hk. unfold num_first in Hk. rewrite Hc in Hk. simpl in Hk.
    by apply bool_decide_eq_true in Hk.
  - cbn [wf print] in *. unfold wf_float in Hwf. apply andb_prop in Hwf as [_ Hf].
    destruct r as [|c s]; [done|]. exists c, s. split; [done|].
    pose proof (head_kind_num c) as Hk. rewrite Hf in Hk. by apply bool_decide_eq_true in Hk.
Qed.

Lemma print_kind v w x y :
  wf v = true → wf w = true → print v +:+ x = print w +:+ y → kind v = kind w.
Proof.
  intros (c & s & -> & <-)%print_head (d & t & -> & <-)%print_head.
  rewrite !string_app_cons. congruence.
Qed.

(** *** Prefix injectivity of [print] *)

(** Two separated lists followed by a closing bracket agree element by
    element when the element printer is prefix-injective. *)
Lemma sep_concat_inj {A} (f : A → string) (ok : A → Prop) (close : ascii) (l l' : list A) r r' :
  is_delim close = true → close ≠ ","%char →
  (∀ x y r r', x ∈ l → ok y → ends r = true → ends r' = true →
     f x +:+ r = f y +:+ r' → x = y ∧ r = r') →
  (∀ x, ok x → ∃ c s, f x = String c s ∧ is_delim c = false) →
  Forall ok l → Forall ok l' →
  sep_concat (List.map f l) +:+ String close r = sep_concat (List.map f l') +:+ String close r' →
  l = l' ∧ r = r'.
Proof.
  intros Hd Hne Hinj Hhead. revert l'. induction l as [|x l IH]; intros l' Hl Hl' H.
  { destruct l' as [|y [|z l']]; cbn [List.map sep_concat] in H; str_simpl in H.
    - injection H as ->. done.
    - apply list.Forall_cons in Hl' as [Hy _]. destruct (Hhead y Hy) as (c & s & Hf & Hc).
      rewrite Hf in H. str_simpl in H. congruence.
    - apply list.Forall_cons in Hl' as [Hy _]. destruct (Hhead y Hy) as (c & s & Hf & Hc).
      rewrite Hf in H. str_simpl in H. congruence. }
  apply list.Forall_cons in Hl as [Hx Hl].
  destruct l' as [|y l'].
  { destruct (Hhead x Hx) as (c & s & Hf & Hc).
    destruct l; cbn [List.map sep_concat] in H; rewrite Hf in H; str_simpl in H; congruence. }
  apply list.Forall_cons in Hl' as [Hy Hl'].
  destruct l as [|x2 l], l' as [|y2 l']; cbn [List.map sep_concat] in H; unfold COMMA in H;
    str_simpl in H.
  - apply Hinj in H as [-> H]; [|set_solver|done..]. by injection H as ->.
  - apply Hinj in H as [-> H]; [|set_solver|done..]. str_simpl in H. congruence.
  - apply Hinj in H as [-> H]; [|set_solver|done..]. str_simpl in H. congruence.
  - apply Hinj in H as [-> H]; [|set_solver|done..].
    str_simpl in H. injection H as H.
    destruct (IH ltac:(intros; eapply Hinj; eauto; set_solver) (y2 :: l') Hl Hl' H) as [[= -> ->] ->].
    done.
Qed.

Lemma kind_not_delim c n : head_kind c = n → n < 7 → is_delim c = false.
Proof.
  intros <- Hlt. pose proof (head_kind_delim c) as Hk.
  destruct (is_delim c); [|done]. simpl in Hk. apply bool_decide_eq_true in Hk. lia.
Qed.
Lemma kind_lt v : kind v < 7.
Proof. destruct v as [|[]| | | | |]; simpl; lia. Qed.
Lemma print_head_nd v : wf v = true → ∃ c s, print v = String c s ∧ is_delim c = false.
Proof.
  intros (c & s & Hp & Hk)%print_head. exists c, s. split; [done|].
  eapply kind_not_delim; [done|]. apply kind_lt.
Qed.

Lemma int_not_delim z : all_chars (λ c, negb (is_delim c)) (str_of_Z z) = true.
Proof.
  eapply all_chars_impl; [|apply str_of_Z_chars]. intros c Hc.
  pose proof (num_not_delim c) as H. by rewrite Hc in H.
Qed.
Lemma ends_stops r : ends r = true → stops (λ c, negb (is_delim c)) r.
Proof. destruct r; simpl; [done|]. by intros ->. Qed.

Lemma number_inj v w r r' :
  kind v = 3 → wf v = true → kind w = 3 → wf w = true → ends r = true → ends r' = true →
  print v +:+ r = print w +:+ r' → v = w ∧ r = r'.
Proof.
  intros Kv Wv Kw Ww Hr%ends_stops Hr'%ends_stops H.
  assert (∀ v, kind v = 3 → wf v = true → all_chars (λ c, negb (is_delim c)) (print v) = true) as Ht.
  { intros [|[]|z|t|s|l|d] Hk Hw; try done; [apply int_not_delim|].
    cbn [wf print] in *. unfold wf_float in Hw. rewrite !andb_true_iff in Hw. by destruct Hw as [[? _] _]. }
  eapply token_split in H as [H ->]; [|by apply Ht|by apply Ht|done..]. split; [|done].
  destruct v as [|[]|z|t|s|l|d], w as [|[]|z'|t'|s'|l'|d']; try done; cbn [print] in H.
  - f_equal. by apply (inj pretty).
  - cbn [wf] in Ww. unfold wf_float in Ww. rewrite <-H, str_of_Z_chars in Ww.
    by rewrite andb_false_r in Ww.
  - cbn [wf] in Wv. unfold wf_float in Wv. rewrite H, str_of_Z_chars in Wv.
    by rewrite andb_false_r in Wv.
  - by rewrite H.
Qed.

Lemma item_head k v : ∃ c s, quote k +:+ ":" +:+ print v = String c s ∧ is_delim c = false.
Proof. unfold quote. str_simpl. by eexists _, _. Qed.

Lemma print_prefix_inj v : ∀ w r r',
  wf v = true → wf w = true → ends r = true → ends r' = true →
  print v +:+ r = print w +:+ r' → v = w ∧ r = r'.
Proof.
  induction v as [|b|z|t|s|l IH|d IH] using JVal_nested_ind; intros w r r' Wv Ww Hr Hr' H;
    pose proof (print_kind _ _ _ _ Wv Ww H) as K.
  - destruct w as [|[]| | | | |]; try done. by apply string_app_inj_l in H.
  - destruct w as [|[]| | | | |], b; try done; by apply string_app_inj_l in H.
  - by apply number_inj.
  - by apply number_inj.
  - destruct w as [|[]| | |s'| |]; try done. apply quote_inj in H as [-> ->]. done.
  - destruct w as [|[]| | | |l'|]; try done. cbn [print] in H. str_simpl in H. injection H as H.
    cbn [wf] in Wv, Ww. rewrite !forallb_True_iff in Wv, Ww.
    eapply (sep_concat_inj print (λ x, wf x = true)) in H as [-> ->]; try done.
    + intros x y r1 r1' Hx Wy. apply (Forall_in _ _ _ IH Hx); [|done].
      apply (Forall_in _ _ _ Wv Hx).
    + intros x Wx. by apply print_head_nd.
  - destruct w as [|[]| | | | |d']; try done. cbn [print] in H. str_simpl in H. injection H as H.
    cbn [wf] in Wv, Ww. rewrite !andb_true_iff, !forallb_True_iff in Wv, Ww.
    destruct Wv as [_ Wv], Ww as [_ Ww].
    eapply (sep_concat_inj _ (λ kv, wf kv.2 = true)) in H as [-> ->]; try done.
    + intros [k x] [k' y] r1 r1' Hx Wy Hr1 Hr1' Hq. cbn [fst snd] in Hq. str_simpl in Hq.
      apply quote_inj in Hq as [-> Hq]. injection Hq as Hq.
      destruct (Forall_in _ _ _ IH Hx y r1 r1' (Forall_in _ _ _ Wv Hx) Wy Hr1 Hr1' Hq)
        as [Hxy ->].
      simpl in Hxy. by subst.
    + intros [k x] _. apply item_head.
Qed.

Lemma merge_sort_wf d : forallb (λ kv, wf kv.2) d = true →
  forallb (λ kv, wf kv.2) (sort_keys d) = true.
Proof.
  rewrite !forallb_True_iff. intros Hd. unfold sort_keys.
  by rewrite merge_sort_Permutation.
Qed.

Lemma norm_wf v : wf v = true → wf (norm v) = true.
Proof.
  induction v as [|b|z|t|s|l IH|d IH] using JVal_nested_ind; try done; cbn [norm wf].
  - rewrite !forallb_True_iff, Forall_map. intros Hl. apply Forall_intro. intros x Hx.
    apply (Forall_in _ _ _ IH Hx), (Forall_in _ _ _ Hl Hx).
  - rewrite !andb_true_iff. intros [Hnd Hd]. split.
    + apply bool_decide_eq_true. apply bool_decide_eq_true in Hnd. unfold sort_keys.
      rewrite merge_sort_Permutation. by rewrite <-list_fmap_compose in *.
    + apply merge_sort_wf. rewrite !forallb_True_iff in *. rewrite Forall_map.
      apply Forall_intro. intros x Hx. apply (Forall_in _ _ _ IH Hx), (Forall_in _ _ _ Hd Hx).
Qed.

(** Canonical text is injective: equal texts come from values that are equal
    up to the order of dictionary keys. *)
Lemma dumps_inj v w : wf v = true → wf w = true → dumps v = dumps w → norm v = norm w.
Proof.
  intros Wv%norm_wf Ww%norm_wf H. unfold dumps in H.
  destruct (print_prefix_inj (norm v) (norm w) EmptyString EmptyString) as [? _]; try done.
  by rewrite !string_app_nil.
Qed.
