(* ===== verification/JsonText.v ===== *)
(** * json.loads

    The decoder of Python's [json] module as the source uses it: white space,
    literals, numbers, strings with their escapes, arrays and objects, of which
    a repeated key keeps its place and takes the last value.  [None] stands for
    the [ValueError] the decoder raises; it also stands for a text with an
    escape above U+00FF, which the strings of this development do not hold.
    Python's limit on the nesting of calls is not modelled; the limit on the
    digits of an integer is.

    The main fact is that what [json.dumps] writes, with either pair of
    separators, is read back as the value it was written from. *)
From S2P Require Import Prelude PyStr Json.

(** [float(text)] and then [repr], the text a float is known by *)
Class PyFloat := float_repr : string → string.

(** ** The scanner *)

Definition json_ws (c : ascii) : bool := (ord c =? 32)%nat || (ord c =? 9)%nat || (ord c =? 10)%nat || (ord c =? 13)%nat.
Fixpoint skip_ws (s : string) : string :=
  match s with
  | String c s' => if json_ws c then skip_ws s' else s
  | EmptyString => s
  end.
(** The longest run of characters of a class, and the rest *)
Fixpoint span (p : ascii → bool) (s : string) : string * string :=
  match s with
  | String c s' => if p c then (String c (span p s').1, (span p s').2) else (EmptyString, s)
  | EmptyString => (EmptyString, s)
  end.
(** [s.startswith(t)], and what follows *)
Fixpoint after (t s : string) : option string :=
  match t, s with
  | EmptyString, _ => Some s
  | String c t', String d s' => if bool_decide (c = d) then after t' s' else None
  | _, _ => None
  end.

(** *** Strings *)

Definition unescape (c : ascii) : option ascii :=
  if bool_decide (c = DQUOTE) || bool_decide (c = BACKSLASH) || bool_decide (c = "/"%char) then Some c
  else if bool_decide (c = "n"%char) then Some (chr 10)
  else if bool_decide (c = "r"%char) then Some (chr 13)
  else if bool_decide (c = "t"%char) then Some (chr 9)
  else if bool_decide (c = "f"%char) then Some (chr 12)
  else if bool_decide (c = "b"%char) then Some (chr 8)
  else None.
Definition code_point (a b c d : ascii) : option ascii :=
  a ← hex_val a; b ← hex_val b; c ← hex_val c; d ← hex_val d;
  if ((a =? 0) && (b =? 0))%nat then Some (chr (16 * c + d)) else None.
(** One character of a string that is not its closing quote *)
Definition scan_char (s : string) : option (ascii * string) :=
  match s with
  | String c s' =>
      if bool_decide (c = BACKSLASH) then
        match s' with
        | String e s'' =>
            if bool_decide (e = "u"%char) then
              match s'' with
              | String a (String b (String c (String d r))) => x ← code_point a b c d; Some (x, r)
              | _ => None
              end
            else x ← unescape e; Some (x, s'')
        | EmptyString => None
        end
      else if in_range 0 31 c then None else Some (c, s')
  | EmptyString => None
  end.
(** The rest of a string literal, after its opening quote *)
Fixpoint scan_string (fuel : nat) (s : string) : option (string * string) :=
  match fuel with
  | O => None
  | S fuel =>
      match after (String DQUOTE EmptyString) s with
      | Some r => Some (EmptyString, r)
      | None => '(c, r) ← scan_char s; '(t, r) ← scan_string fuel r; Some (String c t, r)
      end
  end.

(** *** Numbers *)

Fixpoint digits_val (acc : Z) (s : string) : Z :=
  match s with
  | String c s' => digits_val (10 * acc + (Z.of_nat (ord c) - 48)) s'
  | EmptyString => acc
  end.
(** The integer part: a sign, then zero or digits that do not start with zero *)
Definition scan_nat (neg : bool) (s : string) : option ((bool * string) * string) :=
  match after "0" s with
  | Some r => Some ((neg, "0"), r)
  | None => let '(ds, r) := span is_digit s in if is_empty ds then None else Some ((neg, ds), r)
  end.
Definition scan_int (s : string) : option ((bool * string) * string) :=
  match after "-" s with Some r => scan_nat true r | None => scan_nat false s end.
Definition scan_frac (s : string) : string * string :=
  match after "." s with
  | Some r => let '(ds, r) := span is_digit r in if is_empty ds then (EmptyString, s) else ("." +:+ ds, r)
  | None => (EmptyString, s)
  end.
Definition scan_exp (s : string) : string * string :=
  match s with
  | String c r =>
      if bool_decide (c = "e"%char) || bool_decide (c = "E"%char) then
        let '(sign, r) := match r with
                          | String d r' => if bool_decide (d = "-"%char) || bool_decide (d = "+"%char)
                                           then (String d EmptyString, r') else (EmptyString, r)
                          | EmptyString => (EmptyString, r)
                          end in
        let '(ds, r) := span is_digit r in
        if is_empty ds then (EmptyString, s) else (String c (sign +:+ ds), r)
      else (EmptyString, s)
  | EmptyString => (EmptyString, s)
  end.
(** [sys.int_info.default_max_str_digits] *)
Definition MAX_INT_DIGITS : nat := 4300.

Section Loads.
Context `{F : PyFloat}.

Definition scan_number (s : string) : option (JVal * string) :=
  '(neg, ds, r) ← scan_int s;
  let '(frac, r1) := scan_frac r in
  let '(exp, r2) := scan_exp r1 in
  if is_empty frac && is_empty exp then
    if (MAX_INT_DIGITS <? String.length ds)%nat then None
    else Some (JInt (if neg : bool then - digits_val 0 ds else digits_val 0 ds)%Z, r)
  else Some (JFloat (float_repr ((if neg : bool then "-" else EmptyString) +:+ ds +:+ frac +:+ exp)), r2).

(** A value that is neither a string nor a container *)
Definition scan_scalar (s : string) : option (JVal * string) :=
  match after "null" s, after "true" s, after "false" s with
  | Some r, _, _ => Some (JNull, r)
  | _, Some r, _ => Some (JBool true, r)
  | _, _, Some r => Some (JBool false, r)
  | _, _, _ =>
      match after "NaN" s, after "Infinity" s, after "-Infinity" s with
      | Some r, _, _ => Some (JFloat "NaN", r)
      | _, Some r, _ => Some (JFloat "Infinity", r)
      | _, _, Some r => Some (JFloat "-Infinity", r)
      | _, _, _ => scan_number s
      end
  end.

(** *** Values

    [scan_items] and [scan_members] read what is left of an array or an
    object after its first bracket or a comma. *)
Fixpoint scan_value (fuel : nat) (s : string) : option (JVal * string) :=
  match fuel with
  | O => None
  | S fuel =>
      match s with
      | String c r =>
          if bool_decide (c = DQUOTE) then '(t, r) ← scan_string (S (String.length r)) r; Some (JStr t, r)
          else if bool_decide (c = "["%char) then
            match after "]" (skip_ws r) with
            | Some r => Some (JList [], r)
            | None => '(l, r) ← scan_items fuel (skip_ws r); Some (JList l, r)
            end
          else if bool_decide (c = "{"%char) then
            match after "}" (skip_ws r) with
            | Some r => Some (JObj [], r)
            | None => '(d, r) ← scan_members fuel (skip_ws r) []; Some (JObj d, r)
            end
          else scan_scalar s
      | EmptyString => None
      end
  end
with scan_items (fuel : nat) (s : string) : option (list JVal * string) :=
  match fuel with
  | O => None
  | S fuel =>
      '(v, r) ← scan_value fuel s;
      match after "]" (skip_ws r) with
      | Some r => Some ([v], r)
      | None => r ← after "," (skip_ws r); '(l, r) ← scan_items fuel (skip_ws r); Some (v :: l, r)
      end
  end
with scan_members (fuel : nat) (s : string) (d : dict string JVal) : option (dict string JVal * string) :=
  match fuel with
  | O => None
  | S fuel =>
      r ← after (String DQUOTE EmptyString) s;
      '(k, r) ← scan_string (S (String.length r)) r;
      r ← after ":" (skip_ws r);
      '(v, r) ← scan_value fuel (skip_ws r);
      match after "}" (skip_ws r) with
      | Some r => Some (dset d k v, r)
      | None => r ← after "," (skip_ws r); scan_members fuel (skip_ws r) (dset d k v)
      end
  end.

(** [json.loads]: one value between white space *)
Definition loads_fuel (s : string) : nat := S (2 * String.length s).
Definition loads (s : string) : option JVal :=
  '(v, r) ← scan_value (loads_fuel s) (skip_ws s);
  if is_empty (skip_ws r) then Some v else None.

Example loads_reads :
  loads (String.concat EmptyString [" { "; quote "a"; " : [1, -20 ,3.5e2], "; quote "b"; ":null,"; quote "a"; ":"; quote "x/"; "} "])
  = Some (JObj [("a", JStr "x/"); ("b", JNull)]).
Proof. vm_compute. reflexivity. Qed.
Example loads_refuses : loads "[1,]" = None ∧ loads "01" = None ∧ loads "{}x" = None ∧ loads "" = None.
Proof. vm_compute. done. Qed.
End Loads.

(** ** The two printers *)

(** [json.dumps] with separators [(',' + w, ':' + w)] *)
Fixpoint print_sep (w : string) (v : JVal) : string :=
  match v with
  | JList l => "[" +:+ String.concat ("," +:+ w) (List.map (print_sep w) l) +:+ "]"
  | JObj d => "{" +:+ String.concat ("," +:+ w) (List.map (λ kv, quote kv.1 +:+ ":" +:+ w +:+ print_sep w kv.2) d) +:+ "}"
  | v => print v
  end.
(** [json.dumps(v)], with the default separators *)
Definition print_spaced : JVal → string := print_sep " ".

(** The values a text stands for: no repeated keys, no integer over the limit,
    and floats written as [repr] writes them. *)
Definition float_lit `{F : PyFloat} (r : string) : bool :=
  all_chars (in_range 33 126) r && (bool_decide (r ∈ ["NaN"; "Infinity"; "-Infinity"]) || bool_decide (scan_number r = Some (JFloat r, EmptyString))).
Fixpoint text_ok `{F : PyFloat} (v : JVal) : bool :=
  match v with
  | JInt z => (String.length (pretty (Z.abs_N z)) <=? MAX_INT_DIGITS)%nat
  | JFloat r => float_lit r
  | JList l => forallb text_ok l
  | JObj d => bool_decide (NoDup d.*1) && forallb (λ kv, text_ok kv.2) d
  | _ => true
  end.

Lemma sep_concat_concat l : sep_concat l = String.concat COMMA l.
Proof.
  induction l as [|x [|y l] IH]; [done..|]. cbn [sep_concat String.concat] in *. by rewrite IH.
Qed.
Lemma map_Forall_ext {A B} (f g : A → B) l : Forall (λ x, f x = g x) l → List.map f l = List.map g l.
Proof. induction 1 as [|x l H _ IH]; [done|]. cbn. by rewrite H, IH. Qed.
Lemma print_tight v : print v = print_sep EmptyString v.
Proof.
  induction v as [|b|z|r|s|l IH|d IH] using JVal_nested_ind; try done; cbn [print print_sep].
  - rewrite sep_concat_concat. by rewrite (map_Forall_ext _ _ _ IH).
  - rewrite sep_concat_concat. erewrite map_Forall_ext; [done|].
    eapply Forall_impl; [|exact IH]. intros [k v] H. cbn in *. by rewrite H.
Qed.

(** ** Pieces of a text *)

Lemma after_app t s : after t (t +:+ s) = Some s.
Proof. induction t as [|c t IH]; [done|]. rewrite string_app_cons. cbn. by rewrite bool_decide_eq_true_2. Qed.
Lemma after_inv t s r : after t s = Some r → s = t +:+ r.
Proof.
  revert s. induction t as [|c t IH]; intros s H; [by injection H as ->|].
  destruct s as [|d s]; [done|]. cbn in H. case_bool_decide as E; [|done].
  rewrite string_app_cons. by rewrite E, (IH _ H).
Qed.
Lemma after_ne c d s t : c ≠ d → after (String c t) (String d s) = None.
Proof. intros H. cbn. by rewrite bool_decide_eq_false_2. Qed.
Lemma span_spec p s : s = (span p s).1 +:+ (span p s).2 ∧ all_chars p (span p s).1 = true ∧ stops p (span p s).2.
Proof.
  induction s as [|c s (IH1 & IH2 & IH3)]; [done|]. cbn [span]. destruct (p c) eqn:E; cbn [fst snd all_chars].
  - rewrite E, string_app_cons, <-IH1. done.
  - done.
Qed.
Lemma span_all p s r : all_chars p s = true → stops p r → span p (s +:+ r) = (s, r).
Proof.
  intros H Hr. induction s as [|c s IH].
  - rewrite string_app_nil_l. destruct r as [|c r]; [done|]. cbn [stops] in Hr. cbn [span]. by rewrite Hr.
  - cbn [all_chars] in H. apply andb_prop in H as [Hc H]. rewrite string_app_cons. cbn [span].
    by rewrite Hc, (IH H).
Qed.
Lemma span_app p s r : stops p r → span p (s +:+ r) = ((span p s).1, (span p s).2 +:+ r).
Proof.
  intros Hr. destruct (span_spec p s) as (H1 & H2 & H3). rewrite H1 at 1. rewrite string_app_assoc.
  apply span_all; [done|]. by destruct ((span p s).2).
Qed.

(** A text after a number: it does not go on with one. *)
Definition num_tail (c : ascii) : bool :=
  is_digit c || bool_decide (c = "."%char) || bool_decide (c = "e"%char) || bool_decide (c = "E"%char)
  || bool_decide (c = "+"%char) || bool_decide (c = "-"%char).
Definition text_end (r : string) : Prop :=
  match r with EmptyString => True | String c _ => is_delim c || json_ws c = true end.
Lemma delim_tail : ∀ c : ascii, implb (is_delim c || json_ws c) (negb (num_tail c)) = true.
Proof. by_chars. Qed.
Lemma text_end_tail r : text_end r → stops num_tail r.
Proof.
  destruct r as [|c r]; [done|]. cbn. intros H. pose proof (delim_tail c) as T. rewrite H in T.
  cbn in T. by apply negb_true_iff in T.
Qed.
Lemma stops_impl (p q : ascii → bool) r : (∀ c, q c = true → p c = true) → stops p r → stops q r.
Proof. destruct r as [|c r]; [done|]. cbn. intros H Hp. destruct (q c) eqn:E; [|done]. apply H in E. congruence. Qed.
Lemma tail_digits r : stops num_tail r → stops is_digit r.
Proof. apply stops_impl. intros c H. unfold num_tail. by rewrite H. Qed.
Lemma tail_not c r s : stops num_tail r → num_tail c = true → after (String c EmptyString) r = Some s → False.
Proof. intros H Hc Hs. apply after_inv in Hs as ->. cbn in H. congruence. Qed.

(** *** Strings *)

Lemma scan_esc_char c r : scan_char (esc_char c +:+ r) = Some (c, r).
Proof. destruct c as [[] [] [] [] [] [] [] []]; reflexivity. Qed.
Lemma scan_string_esc fuel s r : (String.length s < fuel)%nat →
  scan_string fuel (esc s +:+ String DQUOTE r) = Some (s, r).
Proof.
  revert s. induction fuel as [|fuel IH]; intros s H; [lia|]. cbn [scan_string]. destruct s as [|c s]; cbn [esc].
  - by rewrite string_app_nil_l.
  - rewrite string_app_assoc. destruct (after _ _) as [r'|] eqn:E.
    + apply after_inv in E. by apply esc_char_head in E.
    + rewrite scan_esc_char. cbn [mbind option_bind]. rewrite IH; [done|]. cbn in H. lia.
Qed.
Lemma esc_length s : (String.length s ≤ String.length (esc s))%nat.
Proof.
  induction s as [|c s IH]; [done|]. cbn [esc]. rewrite string_length_app. cbn [String.length].
  pose proof (esc_char_start c) as H. apply andb_prop in H as [_ H]. destruct (esc_char c); [done|]. cbn. lia.
Qed.
Lemma scan_quoted s r : scan_string (S (String.length (esc s +:+ String DQUOTE r))) (esc s +:+ String DQUOTE r) = Some (s, r).
Proof. apply scan_string_esc. rewrite string_length_app. pose proof (esc_length s). lia. Qed.

(** *** Numbers *)

Lemma scan_nat_app neg s x r t :
  scan_nat neg s = Some (x, r) → stops num_tail t → scan_nat neg (s +:+ t) = Some (x, r +:+ t).
Proof.
  intros H Ht%tail_digits. unfold scan_nat in *. destruct s as [|c s]; [done|].
  rewrite (span_app _ (String c s) t Ht), string_app_cons. cbn [after] in *.
  case_bool_decide as E; [by simplify_eq|]. destruct (span is_digit (String c s)) as [ds r']. cbn [fst snd].
  destruct (is_empty ds); [done|]. by simplify_eq.
Qed.
Lemma scan_int_app s x r t : scan_int s = Some (x, r) → stops num_tail t → scan_int (s +:+ t) = Some (x, r +:+ t).
Proof.
  intros H Ht. unfold scan_int in *. destruct s as [|c s]; [done|].
  assert (after "-" (String c s +:+ t) = (λ u, u +:+ t) <$> after "-" (String c s)) as ->.
  { rewrite string_app_cons. cbn [after]. by case_bool_decide. }
  destruct (after "-" (String c s)); by apply scan_nat_app.
Qed.
Lemma scan_frac_app s t : stops num_tail t → scan_frac (s +:+ t) = ((scan_frac s).1, (scan_frac s).2 +:+ t).
Proof.
  intros Ht. unfold scan_frac. destruct s as [|c s].
  - rewrite string_app_nil_l. destruct (after "." t) eqn:E; [|done]. by apply tail_not in E.
  - rewrite string_app_cons. cbn [after]. case_bool_decide as E; [|done].
    rewrite (span_app _ _ _ (tail_digits _ Ht)). destruct (span is_digit s) as [ds r]. cbn [fst snd].
    by destruct (is_empty ds).
Qed.
Lemma scan_exp_app s t : stops num_tail t → scan_exp (s +:+ t) = ((scan_exp s).1, (scan_exp s).2 +:+ t).
Proof.
  intros Ht. destruct s as [|c s].
  { rewrite string_app_nil_l. destruct t as [|c t]; [done|]. cbn in *. unfold num_tail in Ht.
    apply orb_false_elim in Ht as [[[[_ ->]%orb_false_elim ->]%orb_false_elim _]%orb_false_elim _]. done. }
  rewrite string_app_cons. cbn [scan_exp]. destruct (_ || _); [|done].
  assert (∀ sign r, (let '(ds, r') := span is_digit (r +:+ t) in
      if is_empty ds then (EmptyString, String c (s +:+ t)) else (String c (sign +:+ ds), r')) =
    let p := (let '(ds, r') := span is_digit r in if is_empty ds then (EmptyString, String c s) else (String c (sign +:+ ds), r'))
    in (p.1, p.2 +:+ t)) as Hs.
  { intros sign r. rewrite (span_app _ _ _ (tail_digits _ Ht)). destruct (span is_digit r) as [ds r']. cbn [fst snd].
    by destruct (is_empty ds). }
  destruct s as [|d s].
  - specialize (Hs EmptyString EmptyString). rewrite !string_app_nil_l in *. cbn [span is_empty] in Hs. destruct t as [|d t]; [done|].
    cbn in Ht. unfold num_tail in Ht.
    apply orb_false_elim in Ht as [[[[_ _]%orb_false_elim _]%orb_false_elim H1]%orb_false_elim H2].
    rewrite H2, H1. exact Hs.
  - rewrite string_app_cons in *. destruct (bool_decide (d = "-"%char) || _).
    + apply (Hs (String d EmptyString) s).
    + apply (Hs EmptyString (String d s)).
Qed.
Lemma scan_number_app `{F : PyFloat} s v t :
  scan_number s = Some (v, EmptyString) → stops num_tail t → scan_number (s +:+ t) = Some (v, t).
Proof.
  intros H Ht. unfold scan_number in *. destruct (scan_int s) as [[[neg ds] r]|] eqn:E; [|done].
  rewrite (scan_int_app _ _ _ _ E Ht). cbn [mbind option_bind] in *. rewrite (scan_frac_app _ _ Ht).
  destruct (scan_frac r) as [frac r1]. cbn [fst snd]. rewrite (scan_exp_app _ _ Ht).
  destruct (scan_exp r1) as [ex r2]. cbn [fst snd]. destruct (is_empty frac && is_empty ex).
  - destruct (_ <? _)%nat; [done|]. simplify_eq. by rewrite string_app_nil_l.
  - simplify_eq. by rewrite string_app_nil_l.
Qed.
Lemma scan_number_head `{F : PyFloat} s x : scan_number s = Some x → ∃ c s', s = String c s' ∧ num_char c = true ∧
  (c = "-"%char → ∃ d s'', s' = String d s'' ∧ is_digit d = true).
Proof.
  intros H. unfold scan_number in H. destruct (scan_int s) as [y|] eqn:E; [|done]. clear H. unfold scan_int in E.
  assert (∀ neg s, scan_nat neg s = Some y → ∃ d s', s = String d s' ∧ is_digit d = true) as Hs.
  { clear. intros neg s. unfold scan_nat. destruct (after "0" s) eqn:E; [apply after_inv in E as ->; by eexists _, _|].
    destruct s as [|c s]; [done|]. cbn [span]. destruct (is_digit c) eqn:D; [|done]. by eexists _, _. }
  destruct (after "-" s) as [r|] eqn:E2.
  - apply after_inv in E2 as ->. eexists _, _. split_and!; [reflexivity|done|]. intros _. by eapply Hs.
  - apply Hs in E as (d & s' & -> & Hd). eexists _, _. split_and!; [reflexivity|by apply digit_num|]. by intros ->.
Qed.

Lemma digit_chr n : (n < 10)%N → is_digit (pretty_N_char n) = true ∧ (Z.of_nat (ord (pretty_N_char n)) - 48)%Z = Z.of_N n ∧
  (n ≠ 0%N → pretty_N_char n ≠ "0"%char).
Proof.
  intros H. assert (n = 0 ∨ n = 1 ∨ n = 2 ∨ n = 3 ∨ n = 4 ∨ n = 5 ∨ n = 6 ∨ n = 7 ∨ n = 8 ∨ n = 9)%N as Hc by lia.
  by repeat destruct Hc as [->|Hc]; [..|subst].
Qed.
Lemma digits_val_go n s : digits_val 0 (pretty_N_go n s) = digits_val (Z.of_N n) s.
Proof.
  revert s. induction (N.lt_wf_0 n) as [n _ IH]; intros s.
  destruct (decide (n = 0)%N) as [->|]; [by rewrite pretty_N_go_0|].
  rewrite pretty_N_go_step by lia. rewrite IH by (apply N.div_lt; lia). cbn [digits_val].
  destruct (digit_chr (n `mod` 10)%N) as (_ & -> & _); [by apply N.mod_lt|]. f_equal.
  pose proof (N.div_mod n 10). lia.
Qed.
Lemma pretty_go_first n s : n ≠ 0%N → ∃ c s', pretty_N_go n s = String c s' ∧ c ≠ "0"%char.
Proof.
  revert s. induction (N.lt_wf_0 n) as [n _ IH]; intros s Hn. rewrite pretty_N_go_step by lia.
  destruct (decide (n / 10 = 0)%N) as [E|E].
  - rewrite E, pretty_N_go_0. eexists _, _. split; [reflexivity|].
    apply (digit_chr (n `mod` 10)%N); [by apply N.mod_lt|]. pose proof (N.div_mod n 10). lia.
  - apply IH; [|done]. apply N.div_lt; lia.
Qed.
Lemma pretty_N_text (n : N) : digits_val 0 (pretty n) = Z.of_N n ∧
  (pretty n = "0" ∨ ∃ c s, pretty n = String c s ∧ c ≠ "0"%char ∧ all_chars is_digit (String c s) = true).
Proof.
  pose proof (pretty_N_chars n) as Hd. unfold pretty, pretty_N in *. case_decide as E; [subst; split; [done|by left]|].
  rewrite digits_val_go. split; [done|]. right. destruct (pretty_go_first n "" E) as (c & s & H & Hc).
  rewrite H in *. by eexists _, _.
Qed.
Lemma scan_nat_pretty neg (n : N) : scan_nat neg (pretty n) = Some ((neg, pretty n), EmptyString).
Proof.
  unfold scan_nat. destruct (pretty_N_text n) as [_ [->|(c & s & -> & Hc & Hd)]]; [done|]. cbn [after].
  rewrite bool_decide_eq_false_2 by (by intros <-).
  rewrite <-(string_app_nil (String c s)) at 1. by rewrite span_all.
Qed.
Lemma scan_int_pretty (n : N) : scan_int (pretty n) = Some ((false, pretty n), EmptyString).
Proof.
  rewrite <-scan_nat_pretty. unfold scan_int. destruct (after "-" (pretty n)) as [r|] eqn:E; [|done].
  apply after_inv in E. pose proof (pretty_N_chars n) as H. by rewrite E in H.
Qed.
Lemma scan_int_neg (n : N) : scan_int (String "-"%char (pretty n)) = Some ((true, pretty n), EmptyString).
Proof. rewrite <-scan_nat_pretty. unfold scan_int. change (String "-"%char (pretty n)) with ("-" +:+ pretty n). by rewrite after_app. Qed.
Lemma scan_int_text `{F : PyFloat} z : text_ok (JInt z) = true → scan_number (str_of_Z z) = Some (JInt z, EmptyString).
Proof.
  cbn [text_ok]. intros H%Nat.leb_le. unfold str_of_Z, scan_number. destruct z as [|p|p]; [done|..].
  - change (pretty (Z.pos p)) with (pretty (N.pos p)). cbn [Z.abs_N] in H. rewrite scan_int_pretty. cbn [mbind option_bind scan_frac after scan_exp is_empty andb].
    destruct (Nat.ltb_spec MAX_INT_DIGITS (String.length (pretty (N.pos p)))); [lia|].
    destruct (pretty_N_text (N.pos p)) as [-> _]. done.
  - change (pretty (Z.neg p)) with (String "-"%char (pretty (N.pos p))). cbn [Z.abs_N] in H. rewrite scan_int_neg.
    cbn [mbind option_bind scan_frac after scan_exp is_empty andb].
    destruct (Nat.ltb_spec MAX_INT_DIGITS (String.length (pretty (N.pos p)))); [lia|].
    destruct (pretty_N_text (N.pos p)) as [-> _]. done.
Qed.

(** *** Values *)

Lemma skip_ws_app w s : all_chars json_ws w = true → skip_ws (w +:+ s) = skip_ws s.
Proof.
  induction w as [|c w IH]; [done|]. cbn [all_chars]. intros [Hc Hw]%andb_prop. rewrite string_app_cons. cbn [skip_ws].
  rewrite Hc. by apply IH.
Qed.
Lemma skip_ws_head c s : json_ws c = false → skip_ws (String c s) = String c s.
Proof. intros H. cbn [skip_ws]. by rewrite H. Qed.
Lemma num_char_plain : ∀ c : ascii, implb (num_char c)
  (negb (is_delim c || json_ws c) && negb (bool_decide (c = DQUOTE) || bool_decide (c = "["%char) || bool_decide (c = "{"%char)
   || bool_decide (c = "n"%char) || bool_decide (c = "t"%char) || bool_decide (c = "f"%char) || bool_decide (c = "N"%char)
   || bool_decide (c = "I"%char))) = true.
Proof. by_chars. Qed.

Section RoundTrip.
Context `{F : PyFloat}.

Lemma scalar_number s v t : scan_number s = Some (v, EmptyString) → text_end t → scan_scalar (s +:+ t) = Some (v, t).
Proof.
  intros H Ht%text_end_tail. rewrite <-(scan_number_app _ _ _ H Ht).
  destruct (scan_number_head _ _ H) as (c & s' & -> & Hc & Hm). rewrite string_app_cons. unfold scan_scalar.
  pose proof (num_char_plain c) as P. rewrite Hc in P. cbn [implb] in P.
  apply andb_prop in P as [_ P]. rewrite negb_true_iff, !orb_false_iff, !bool_decide_eq_false in P.
  destruct P as [[[[[[[_ _] _] P1] P2] P3] P4] P5]. rewrite !(after_ne _ c) by congruence.
  destruct (decide (c = "-"%char)) as [->|E]; [|by rewrite after_ne by congruence].
  destruct (Hm eq_refl) as (d & s'' & -> & Hd). rewrite string_app_cons. cbn [after]. rewrite bool_decide_eq_true_2 by done.
  rewrite bool_decide_eq_false_2; [done|]. by intros <-.
Qed.
Lemma print_sep_head w v : text_ok v = true →
  ∃ c s, print_sep w v = String c s ∧ is_delim c || json_ws c = false.
Proof.
  assert (∀ s v, scan_number s = Some (v, EmptyString) → ∃ c s', s = String c s' ∧ is_delim c || json_ws c = false) as Hn.
  { clear v. intros s v H. apply scan_number_head in H as (c & s' & -> & Hc & _). exists c, s'. split; [done|].
    pose proof (num_char_plain c) as P. rewrite Hc in P. apply andb_prop in P as [P _]. by apply negb_true_iff in P. }
  intros H. destruct v as [|[]|z|r|s|l|d]; try by eexists _, _.
  - apply scan_int_text in H. by eapply Hn.
  - cbn [text_ok print_sep print] in *. unfold float_lit in H. apply andb_prop in H as [_ [H|H]%orb_prop].
    + apply bool_decide_eq_true in H. rewrite !elem_of_cons, elem_of_nil in H.
      destruct H as [->|[->|[->|[]]]]; by eexists _, _.
    + apply bool_decide_eq_true in H. by eapply Hn.
Qed.
Lemma scan_scalar_text v t : match v with JStr _ | JList _ | JObj _ => False | _ => True end → text_ok v = true →
  text_end t → scan_scalar (print v +:+ t) = Some (v, t).
Proof.
  intros Hv H Ht. destruct v as [|[]|z|r|s|l|d]; try done; cbn [print].
  - by apply scalar_number; [apply scan_int_text|].
  - cbn [text_ok] in H. unfold float_lit in H. apply andb_prop in H as [_ [H|H]%orb_prop]; apply bool_decide_eq_true in H.
    + rewrite !elem_of_cons, elem_of_nil in H. by destruct H as [->|[->|[->|[]]]].
    + by apply scalar_number.
Qed.

(** What [scan_value] does on a text of [v], whatever follows *)
Definition reads (w : string) (v : JVal) : Prop := ∀ t fuel, text_end t →
  2 * String.length (print_sep w v) ≤ S fuel → scan_value fuel (print_sep w v +:+ t) = Some (v, t).

Context (w : string) (Hw : all_chars json_ws w = true).

Lemma comma_next x : skip_ws ("," +:+ x) = "," +:+ x ∧ after "]" ("," +:+ x) = None ∧ after "}" ("," +:+ x) = None.
Proof. done. Qed.
Lemma concat_cons2 sep (x y : string) l : String.concat sep (x :: y :: l) = x +:+ sep +:+ String.concat sep (y :: l).
Proof. done. Qed.

Lemma concat_head sep x l t c s : x = String c s → json_ws c = false →
  ∃ s', String.concat sep (x :: l) +:+ t = String c s' ∧ skip_ws (String.concat sep (x :: l) +:+ t) = String.concat sep (x :: l) +:+ t.
Proof.
  intros -> Hc. destruct l as [|y l]; [cbn [String.concat]|rewrite concat_cons2]; str_simpl; eexists _;
    (split; [reflexivity|by apply skip_ws_head]).
Qed.
Lemma scan_items_text v l t fuel : Forall (reads w) (v :: l) → Forall (λ v, text_ok v = true) (v :: l) →
  2 * String.length (String.concat ("," +:+ w) (List.map (print_sep w) (v :: l))) ≤ fuel →
  scan_items fuel (String.concat ("," +:+ w) (List.map (print_sep w) (v :: l)) +:+ "]" +:+ t) = Some (v :: l, t).
Proof.
  revert v fuel. induction l as [|v2 l IH]; intros v fuel Hr Hok Hf; apply list.Forall_cons in Hr as [Hv Hr];
    apply list.Forall_cons in Hok as [Ho Hok]; destruct (print_sep_head w v Ho) as (c & s & E & _).
  - cbn [List.map String.concat] in *. destruct fuel as [|fuel]; [rewrite E in Hf; cbn in Hf; lia|]. cbn [scan_items].
    rewrite Hv by (done || lia). done.
  - cbn [List.map] in *. rewrite concat_cons2 in *. rewrite !string_length_app in Hf. rewrite !string_app_assoc.
    destruct fuel as [|fuel]; [rewrite E in Hf; cbn in Hf; lia|]. cbn [scan_items].
    rewrite Hv by (done || lia). cbn [mbind option_bind].
    rewrite (proj1 (comma_next _)), (proj1 (proj2 (comma_next _))), (after_app ",").
    cbn [mbind option_bind]. rewrite skip_ws_app by done.
    specialize (IH v2 fuel Hr Hok). cbn [List.map] in IH.
    destruct (print_sep_head w v2 (Forall_inv Hok)) as (c2 & s2 & E2 & Hc2).
    destruct (concat_head ("," +:+ w) _ (List.map (print_sep w) l) ("]" +:+ t) _ _ E2) as (_ & _ & ->);
      [by apply orb_false_elim in Hc2 as [_ ?]|].
    rewrite IH; [done|]. change (String.length ",") with 1 in Hf. lia.
Qed.

Definition member_text (kv : string * JVal) : string := quote kv.1 +:+ ":" +:+ w +:+ print_sep w kv.2.
Lemma colon_next x : skip_ws (":" +:+ x) = ":" +:+ x.
Proof. done. Qed.
Lemma quote_app k x : quote k +:+ x = String DQUOTE EmptyString +:+ esc k +:+ String DQUOTE x.
Proof. unfold quote. by str_simpl. Qed.
(** Reading the first member *)
Lemma scan_member_text k v t fuel : reads w v → text_ok v = true → text_end t →
  2 * String.length (print_sep w v) ≤ S fuel → ∃ r,
  after (String DQUOTE EmptyString) (member_text (k, v) +:+ t) = Some r ∧
  scan_string (S (String.length r)) r = Some (k, ":" +:+ w +:+ print_sep w v +:+ t) ∧
  scan_value fuel (skip_ws (w +:+ print_sep w v +:+ t)) = Some (v, t).
Proof.
  intros Hv Ho Ht Hf. unfold member_text. cbn [fst snd]. rewrite !string_app_assoc, quote_app. eexists _. split_and!.
  - apply after_app.
  - apply scan_quoted.
  - rewrite skip_ws_app by done. destruct (print_sep_head w v Ho) as (c & s & E & Hc).
    rewrite <-(Hv t fuel Ht Hf), E, string_app_cons, skip_ws_head; [done|]. by apply orb_false_elim in Hc as [_ ?].
Qed.
Lemma member_length k v : String.length (print_sep w v) + 3 ≤ String.length (member_text (k, v)).
Proof. unfold member_text, quote. cbn [fst snd]. rewrite !string_length_app. cbn [String.length]. rewrite string_length_app. cbn [String.length]. lia. Qed.

Lemma scan_members_text kv l t fuel acc : Forall (λ kv, reads w kv.2) (kv :: l) → Forall (λ kv, text_ok kv.2 = true) (kv :: l) →
  NoDup (kv :: l).*1 → (∀ k, k ∈ (kv :: l).*1 → dget acc k = None) →
  2 * String.length (String.concat ("," +:+ w) (List.map member_text (kv :: l))) ≤ fuel →
  scan_members fuel (String.concat ("," +:+ w) (List.map member_text (kv :: l)) +:+ "}" +:+ t) acc = Some (acc ++ kv :: l, t).
Proof.
  revert kv fuel acc. induction l as [|kv2 l IH]; intros [k v] fuel acc Hr Hok Hd Ha Hf; apply list.Forall_cons in Hr as [Hv Hr];
    apply list.Forall_cons in Hok as [Ho Hok]; cbn [snd] in Hv, Ho; pose proof (member_length k v) as Hl.
  - cbn [List.map String.concat] in *. destruct fuel as [|fuel]; [lia|]. cbn [scan_members].
    destruct (scan_member_text k v ("}" +:+ t) fuel) as (r & -> & R1 & R2); [done..|lia|]. cbn [mbind option_bind].
    rewrite R1. cbn [mbind option_bind]. rewrite colon_next, (after_app ":"). cbn [mbind option_bind].
    rewrite R2. cbn. rewrite dset_new; [done|]. apply Ha. by left.
  - cbn [List.map] in *. rewrite concat_cons2 in *. rewrite !string_length_app in Hf. rewrite !string_app_assoc.
    destruct fuel as [|fuel]; [lia|]. cbn [scan_members].
    destruct (scan_member_text k v ("," +:+ w +:+ String.concat ("," +:+ w) (member_text kv2 :: List.map member_text l)
      +:+ "}" +:+ t) fuel) as (r & -> & R1 & R2); [done..|lia|]. cbn [mbind option_bind].
    rewrite R1. cbn [mbind option_bind]. rewrite colon_next, (after_app ":"). cbn [mbind option_bind].
    rewrite R2. cbn [mbind option_bind].
    rewrite (proj1 (comma_next _)), (proj2 (proj2 (comma_next _))), (after_app ","). cbn [mbind option_bind].
    rewrite skip_ws_app by done. csimpl in Hd. apply list.NoDup_cons in Hd as [Hk Hd].
    specialize (IH kv2 fuel (dset acc k v) Hr Hok Hd). cbn [List.map] in IH.
    destruct (concat_head ("," +:+ w) (member_text kv2) (List.map member_text l) ("}" +:+ t) DQUOTE _ eq_refl eq_refl)
      as (_ & _ & ->).
    rewrite dset_new in IH by (apply Ha; by left). rewrite <-app_assoc in IH. rewrite dset_new by (apply Ha; by left). apply IH.
    + intros k' Hk'. rewrite dget_None, fmap_app, elem_of_app. intros [H|H]; [|set_solver].
      revert H. apply dget_None, Ha. by right.
    + change (String.length ",") with 1 in Hf. lia.
Qed.

Lemma scan_scalar_head v t : match v with JStr _ | JList _ | JObj _ => False | _ => True end → text_ok v = true →
  ∃ c s, print v +:+ t = String c s ∧ c ≠ DQUOTE ∧ c ≠ "["%char ∧ c ≠ "{"%char.
Proof.
  intros Hv H. destruct (print_sep_head w v H) as (c & s & E & _).
  assert (print_sep w v = print v) as E2 by (by destruct v).
  assert (scan_scalar (print v +:+ EmptyString) = Some (v, EmptyString)) as R by (by apply scan_scalar_text).
  rewrite string_app_nil, <-E2, E in R. rewrite <-E2, E. eexists _, _. split; [reflexivity|].
  split_and!; intros ->; discriminate R.
Qed.
Lemma scan_value_text v : text_ok v = true → reads w v.
Proof.
  induction v as [|b|z|r|s|l IH|d IH] using JVal_nested_ind; intros Hok t fuel Ht Hf;
    destruct (print_sep_head w _ Hok) as (c & s' & E & _);
    (destruct fuel as [|fuel]; [rewrite E in Hf; cbn in Hf; lia|]); clear c s' E.
  1-4: match goal with |- scan_value _ (print_sep w ?v +:+ _) = _ => destruct (scan_scalar_head v t) as (c & s' & E & E1 & E2 & E3); [done..|] end;
    cbn [print_sep]; rewrite E; cbn [scan_value]; rewrite !bool_decide_eq_false_2 by done; rewrite <-E; by apply scan_scalar_text.
  - cbn [print_sep print]. rewrite quote_app. change (String DQUOTE EmptyString +:+ ?x) with (String DQUOTE x). cbn [scan_value].
    rewrite bool_decide_eq_true_2 by done. by rewrite scan_quoted.
  - cbn [print_sep text_ok] in *. apply forallb_True_iff in Hok. rewrite !string_app_assoc.
    change ("[" +:+ ?x) with (String "[" x). cbn [scan_value]. rewrite bool_decide_eq_false_2, bool_decide_eq_true_2 by done.
    destruct l as [|v l]; [done|].
    assert (Forall (reads w) (v :: l)) as Hr.
    { apply list.Forall_forall. intros x Hx. apply (Forall_in _ _ _ IH Hx), (Forall_in _ _ _ Hok Hx). }
    destruct (print_sep_head w v (Forall_inv Hok)) as (c & s & E & [Hd Hc]%orb_false_elim).
    destruct (concat_head ("," +:+ w) _ (List.map (print_sep w) l) ("]" +:+ t) _ _ E Hc) as (s2 & E2 & S2).
    cbn [List.map] in *. rewrite S2. rewrite E2 at 1. rewrite after_ne by (intros <-; done).
    pose proof (scan_items_text v l t fuel Hr Hok) as R. cbn [List.map] in R. rewrite R; [done|].
    rewrite !string_length_app in Hf. change (String.length "[") with 1 in Hf. change (String.length "]") with 1 in Hf.
    lia.
  - cbn [print_sep text_ok] in *. apply andb_prop in Hok as [Hnd%bool_decide_eq_true Hok%forallb_True_iff]. rewrite !string_app_assoc.
    change ("{" +:+ ?x) with (String "{" x). cbn [scan_value]. rewrite !bool_decide_eq_false_2, bool_decide_eq_true_2 by done.
    destruct d as [|kv d]; [done|].
    assert (Forall (λ kv, reads w kv.2) (kv :: d)) as Hr.
    { apply list.Forall_forall. intros x Hx. apply (Forall_in _ _ _ IH Hx), (Forall_in _ _ _ Hok Hx). }
    change (List.map _ (kv :: d)) with (List.map member_text (kv :: d)) in *.
    destruct (concat_head ("," +:+ w) (member_text kv) (List.map member_text d) ("}" +:+ t) DQUOTE _ eq_refl eq_refl)
      as (s2 & E2 & S2).
    cbn [List.map] in *. rewrite S2. rewrite E2 at 1. rewrite after_ne by done.
    pose proof (scan_members_text kv d t fuel [] Hr Hok Hnd (λ _ _, eq_refl)) as R. cbn [List.map] in R. rewrite R; [done|].
    rewrite !string_length_app in Hf. change (String.length "{") with 1 in Hf. change (String.length "}") with 1 in Hf.
    lia.
Qed.
End RoundTrip.

(** *** Lines of text

    What the default encoder writes is printable and does not end in white
    space, so it is a line of its own and [str.strip] removes nothing of it. *)
Definition printable : ascii → bool := in_range 32 126.
Lemma all_chars_app p s t : all_chars p (s +:+ t) = all_chars p s && all_chars p t.
Proof. induction s as [|c s IH]; [done|]. rewrite string_app_cons. cbn [all_chars]. by rewrite IH, andb_assoc. Qed.
Lemma esc_char_printable : ∀ c : ascii, all_chars printable (esc_char c) = true.
Proof. by_chars. Qed.
Lemma quote_printable s : all_chars printable (quote s) = true.
Proof.
  unfold quote. change (all_chars printable (esc s +:+ String DQUOTE EmptyString) = true).
  rewrite all_chars_app, andb_true_iff. split; [|done].
  induction s as [|c s IH]; [done|]. cbn [esc]. rewrite all_chars_app, IH. by rewrite esc_char_printable.
Qed.
Lemma num_char_printable : ∀ c : ascii, implb (num_char c) (in_range 33 126 c) = true.
Proof. by_chars. Qed.
Lemma visible_printable : ∀ c : ascii, implb (in_range 33 126 c) (printable c) = true.
Proof. by_chars. Qed.
Lemma implb_all p q s : (∀ c, implb (p c) (q c) = true) → all_chars p s = true → all_chars q s = true.
Proof. intros H. apply all_chars_impl. intros c Hc. specialize (H c). by rewrite Hc in H. Qed.
Lemma concat_printable sep l : all_chars printable sep = true → Forall (λ x, all_chars printable x = true) l →
  all_chars printable (String.concat sep l) = true.
Proof.
  intros Hs. induction 1 as [|x [|y l] Hx Hl IH]; [done..|]. rewrite concat_cons2, !all_chars_app, Hx, Hs. exact IH.
Qed.
(** A scalar is visible text. *)
Lemma scalar_visible `{F : PyFloat} v : match v with JStr _ | JList _ | JObj _ => False | _ => True end → text_ok v = true →
  all_chars (in_range 33 126) (print v) = true.
Proof.
  intros Hv H. destruct v as [|[]|z|r|s|l|d]; try done; cbn [print].
  - apply (implb_all num_char); [exact num_char_printable|]. apply str_of_Z_chars.
  - by apply andb_prop in H as [H _].
Qed.
Lemma print_sep_printable `{F : PyFloat} w v : all_chars printable w = true → text_ok v = true →
  all_chars printable (print_sep w v) = true.
Proof.
  intros Hw. assert (all_chars printable ("," +:+ w) = true) as Hs by (by rewrite all_chars_app, Hw).
  induction v as [|b|z|r|s|l IH|d IH] using JVal_nested_ind; intros H;
    try (apply (implb_all (in_range 33 126)); [exact visible_printable|by apply scalar_visible]); cbn [print_sep print].
  - apply quote_printable.
  - cbn [text_ok] in H. apply forallb_True_iff in H. rewrite !all_chars_app, (concat_printable _ _ Hs); [done|].
    apply list.Forall_forall. intros x Hx. change (List.map ?f ?l) with (f <$> l) in Hx.
    apply list_elem_of_fmap in Hx as (v & -> & Hv). apply (Forall_in _ _ _ IH Hv), (Forall_in _ _ _ H Hv).
  - cbn [text_ok] in H. apply andb_prop in H as [_ H%forallb_True_iff].
    rewrite !all_chars_app, (concat_printable _ _ Hs); [done|]. apply list.Forall_forall. intros x Hx.
    change (List.map ?f ?l) with (f <$> l) in Hx. apply list_elem_of_fmap in Hx as ([k v] & -> & Hv). cbn [fst snd].
    pose proof (Forall_in _ _ _ IH Hv (Forall_in _ _ _ H Hv)) as G. cbn [snd] in G.
    by rewrite !all_chars_app, quote_printable, Hw, G.
Qed.

(** [str.isspace], below 256, and [str.strip] *)
Definition py_space (c : ascii) : bool := in_range 9 13 c || in_range 28 32 c || (ord c =? 133)%nat || (ord c =? 160)%nat.
Fixpoint lstrip (s : string) : string :=
  match s with String c s' => if py_space c then lstrip s' else s | EmptyString => s end.
Fixpoint rstrip (s : string) : string :=
  match s with
  | String c s' => let t := rstrip s' in if is_empty t && py_space c then EmptyString else String c t
  | EmptyString => s
  end.
Definition strip (s : string) : string := rstrip (lstrip s).

Lemma rstrip_end s c u : py_space c = false → all_chars py_space u = true →
  rstrip (s +:+ String c u) = s +:+ String c EmptyString.
Proof.
  intros Hc Hu. assert (rstrip u = EmptyString) as E.
  { induction u as [|d u IH]; [done|]. cbn [all_chars] in Hu. apply andb_prop in Hu as [Hd Hu]. cbn [rstrip].
    by rewrite (IH Hu), Hd. }
  induction s as [|d s IH].
  - rewrite !string_app_nil_l. cbn [rstrip]. by rewrite E, Hc, andb_false_r.
  - rewrite !string_app_cons. cbn [rstrip]. rewrite IH. by destruct s.
Qed.
Lemma visible_end s : s ≠ EmptyString → all_chars (in_range 33 126) s = true →
  ∃ t c, s = t +:+ String c EmptyString ∧ py_space c = false.
Proof.
  assert (∀ c : ascii, implb (in_range 33 126 c) (negb (py_space c)) = true) as V by by_chars.
  induction s as [|c s IH]; [done|]. intros _. cbn [all_chars]. intros [Hc Hs]%andb_prop. destruct s as [|d s].
  - exists EmptyString, c. split; [done|]. specialize (V c). rewrite Hc in V. by apply negb_true_iff in V.
  - destruct IH as (t & e & E & He); [done..|]. exists (String c t), e. rewrite string_app_cons. by rewrite <-E.
Qed.
Lemma print_sep_end `{F : PyFloat} w v : text_ok v = true →
  ∃ t c, print_sep w v = t +:+ String c EmptyString ∧ py_space c = false.
Proof.
  intros H. assert (∀ (a b : string) c, py_space c = false → ∃ t d, a +:+ b +:+ String c EmptyString = t +:+ String d EmptyString ∧ py_space d = false) as He.
  { intros a b c Hc. exists (a +:+ b), c. by rewrite string_app_assoc. }
  destruct v as [|b|z|r|s|l|d];
    try (apply visible_end; [destruct (print_sep_head w _ H) as (? & ? & -> & _); done|by apply (scalar_visible _)]);
    cbn [print_sep print]; [|by apply He..].
  unfold quote. by apply (He (String DQUOTE EmptyString)).
Qed.
(** A line: the text of a value and a newline *)
Lemma printable_space : ∀ c : ascii, implb (printable c && negb (is_delim c || json_ws c)) (negb (py_space c)) = true.
Proof. by_chars. Qed.
Lemma strip_line `{F : PyFloat} v : text_ok v = true → strip (print_spaced v +:+ String NL EmptyString) = print_spaced v.
Proof.
  intros H. unfold strip. destruct (print_sep_head " " v H) as (c & s & E & Hc).
  pose proof (print_sep_printable " " v eq_refl H) as P. fold print_spaced in *.
  assert (lstrip (print_spaced v +:+ String NL EmptyString) = print_spaced v +:+ String NL EmptyString) as ->.
  { unfold print_spaced in *. rewrite E in *. cbn [all_chars] in P. apply andb_prop in P as [Pc _].
    rewrite string_app_cons. cbn [lstrip]. pose proof (printable_space c) as Q. rewrite Pc, Hc in Q. by apply negb_true_iff in Q as ->. }
  destruct (print_sep_end " " v H) as (t & d & E2 & Hd). unfold print_spaced. rewrite E2, string_app_assoc. by apply rstrip_end.
Qed.

(** What [json.dumps] writes, with compact separators or with the default ones,
    [json.loads] reads back; white space after the text does not matter. *)
Lemma loads_text `{F : PyFloat} v t : text_ok v = true → all_chars json_ws t = true →
  loads (print v +:+ t) = Some v ∧ loads (print_spaced v +:+ t) = Some v.
Proof.
  intros H Ht. assert (∀ w, all_chars json_ws w = true → loads (print_sep w v +:+ t) = Some v) as Hl.
  { intros w Hw. unfold loads. destruct (print_sep_head w v H) as (c & s & E & [_ Hc]%orb_false_elim).
    rewrite E, string_app_cons, skip_ws_head by done. rewrite <-string_app_cons, <-E.
    rewrite (scan_value_text w Hw v H t).
    - cbn [mbind option_bind]. rewrite <-(string_app_nil t), skip_ws_app; done.
    - destruct t as [|d t]; [done|]. cbn [all_chars text_end] in *. apply andb_prop in Ht as [-> _]. by rewrite orb_true_r.
    - unfold loads_fuel. rewrite string_length_app. lia. }
  rewrite print_tight. split; by apply Hl.
Qed.

(** ** Texts of numbers *)

(** Digits with single underscores between them *)
Fixpoint int_digits (after_digit : bool) (acc : Z) (s : string) : option Z :=
  match s with
  | EmptyString => if after_digit then Some acc else None
  | String c s' =>
      if is_digit c then int_digits true (acc * 10 + (Z.of_nat (ord c) - 48))%Z s'
      else if bool_decide (c = "_"%char) && after_digit then int_digits false acc s'
      else None
  end.
Definition count_digits (s : string) : nat := length (filter (λ c, is_digit c) (String.list_ascii_of_string s)).
(** [int(s)], [None] when it raises *)
Definition py_int (s : string) : option Z :=
  let t := strip s in
  let '(neg, u) := match t with
                   | String c u => if bool_decide (c = "-"%char) then (true, u) else if bool_decide (c = "+"%char) then (false, u) else (false, t)
                   | EmptyString => (false, t)
                   end in
  if (MAX_INT_DIGITS <? count_digits u)%nat then None
  else (λ z, if neg : bool then Z.opp z else z) <$> int_digits false 0 u.
Example py_int_1 : py_int " 1_000 " = Some 1000%Z ∧ py_int "-7" = Some (-7)%Z ∧ py_int "1__0" = None ∧ py_int "" = None ∧ py_int "1.0" = None.
Proof. vm_compute. split_and!; reflexivity. Qed.
