(* ===== verification/Config.v ===== *)
(** * Chain constants

    [qbit_network/config.py].  The activation height of dynamic fees comes
    from the environment of the process, so it is a field of [ChainConfig]. *)
From S2P Require Import Prelude PyStr.
Open Scope Z_scope.

Definition MAX_TX_PER_BLOCK : Z := 200.
Definition MAX_BLOCK_SIZE : Z := 5 * 1024 * 1024.
Definition MAX_TX_PAYLOAD_SIZE : Z := 8192.
Definition MAX_TX_POOL_SIZE : Z := 10000.
Definition MAX_BLOCK_DRIFT : Z := 30.
Definition BLOCK_INTERVAL : Z := 5.
Definition ADDRESS_PREFIX : string := "qv1".
Definition CHAIN_ID : string := "qbit-mainnet".
Definition MAX_REORG_DEPTH : Z := 32.

(** Staking *)
Definition MIN_STAKE : Z := 1.
Definition MAX_STAKE : Z := 1000000.
Definition UNBONDING_PERIOD : Z := 100.
Definition EPOCH_LENGTH : Z := 100.
Definition SLASH_PERCENTAGE : Z := 50.
Definition DEFAULT_COMMISSION_RATE : Z := 10.

(** Token economics, in qubits *)
Definition TOKEN_DECIMALS : Z := 9.
Definition QUBIT_PER_QBIT : Z := 10 ^ TOKEN_DECIMALS.
Definition MAX_SUPPLY : Z := 21000000 * QUBIT_PER_QBIT.
Definition MAX_TX_AMOUNT : Z := 2 ^ 63 - 1.
Definition INITIAL_BLOCK_REWARD : Z := 5 * QUBIT_PER_QBIT.
Definition HALVING_INTERVAL : Z := 2100000.
Definition GENESIS_BALANCE_QBIT : Z := 2100000.

Definition TX_FEES : dict string Z := [
  ("TRANSFER", 1000000); ("NOTARIZE", 10000000); ("STORE", 20000000);
  ("SHARE", 10000000); ("REGISTER_KEY", 100000000); ("REGISTER_VALIDATOR", 1000000000);
  ("STAKE", 10000000); ("DELEGATE", 10000000); ("UNSTAKE", 10000000);
  ("REVOKE_KEY", 0); ("EVIDENCE", 0); ("ISSUE_TOKEN", 500000000);
  ("MINT_TOKEN", 10000000); ("TRANSFER_TOKEN", 1000000)].

Definition TX_WEIGHTS : dict string Z := [
  ("TRANSFER", 100000); ("NOTARIZE", 1000000); ("STORE", 2000000);
  ("SHARE", 1000000); ("REGISTER_KEY", 10000000); ("REGISTER_VALIDATOR", 100000000);
  ("STAKE", 1000000); ("DELEGATE", 1000000); ("UNSTAKE", 1000000);
  ("REVOKE_KEY", 0); ("EVIDENCE", 0); ("ISSUE_TOKEN", 50000000);
  ("MINT_TOKEN", 1000000); ("TRANSFER_TOKEN", 100000)].

Definition MAX_BLOCK_WEIGHT : Z := 20000000.
Definition TARGET_BLOCK_WEIGHT : Z := MAX_BLOCK_WEIGHT / 2.
Definition BASE_FEE_CHANGE_DENOM : Z := 8.
Definition INITIAL_BASE_FEE : Z := 10.
Definition MIN_BASE_FEE : Z := 1.
Definition MAX_BASE_FEE : Z := 10000.
Definition MAX_SELF_TX_WEIGHT_RATIO : Z := 25.

(** Tokens *)
Definition TOKEN_ACTIVATION_HEIGHT : Z := 0.
Definition MAX_TOKEN_NAME_LENGTH : Z := 64.
Definition MAX_TOKEN_SYMBOL_LENGTH : Z := 8.
Definition MIN_TOKEN_SYMBOL_LENGTH : Z := 2.
Definition MAX_TOKEN_DECIMALS : Z := 18.

(** [DYNAMIC_FEE_ACTIVATION_HEIGHT = int(os.environ[...])], [2**63] when unset *)
Class ChainConfig := { DYNAMIC_FEE_ACTIVATION_HEIGHT : Z }.
Definition legacy_config : ChainConfig := {| DYNAMIC_FEE_ACTIVATION_HEIGHT := 2 ^ 63 |}.
Definition dynamic_config : ChainConfig := {| DYNAMIC_FEE_ACTIVATION_HEIGHT := 0 |}.
