(* ===== verification/Crypto.v ===== *)
(** * Hashing, signatures and Merkle trees

    [crypto/hashing.py] and [crypto/mldsa.py].  SHA3-256 (hashlib) and the
    ML-DSA-65 routines of liboqs are operations of the class [Crypto]; what
    the code relies on is the class [CryptoLaws].  Every theorem holds for all
    instances, [Toy] is one that evaluates. *)
From S2P Require Import Prelude PyStr.

Class Crypto := {
  sha3_256 : string → string;
  (** liboqs: [signer.sign(message)] with a secret key, [None] when it fails *)
  oqs_sign : string → string → option string;
  (** liboqs: [verifier.verify(message, signature, public_key)]; an exception is [false] *)
  oqs_verify : string → string → string → bool;
}.

Class CryptoLaws (C : Crypto) := {
  sha3_256_length : ∀ x, String.length (sha3_256 x) = 32%nat;
}.

Section MLDSA.
Context `{C : Crypto}.

(** [MLDSA.sign] *)
Definition MLDSA_sign (sk msg : string) : result string :=
  match oqs_sign sk msg with Some s => Ok s | None => Raise RuntimeError end.

(** [MLDSA.verify] *)
Definition MLDSA_verify (pk msg sig : string) : bool :=
  if is_empty pk || is_empty sig then false else oqs_verify msg sig pk.
End MLDSA.

(** ** Merkle trees *)

Definition LEAF_PREFIX : string := String (chr 0) EmptyString.
Definition NODE_PREFIX : string := String (chr 1) EmptyString.

Section Merkle.
Context `{C : Crypto}.

Definition merkle_leaf (item : string) : string := sha3_256 (LEAF_PREFIX +:+ item).
Definition merkle_node (left right : string) : string :=
  sha3_256 (NODE_PREFIX +:+ left +:+ right).

(** One turn of the loop: neighbours are paired, an odd last element is
    promoted unpaired. *)
Fixpoint merkle_layer (layer : list string) : list string :=
  match layer with
  | a :: b :: rest => merkle_node a b :: merkle_layer rest
  | _ => layer
  end.

(** [while len(layer) > 1]; [fuel] bounds the number of turns. *)
Fixpoint merkle_loop (fuel : nat) (layer : list string) : string :=
  match fuel, layer with
  | S f, _ :: _ :: _ => merkle_loop f (merkle_layer layer)
  | _, x :: _ => x
  | _, [] => EmptyString
  end.

Definition zero32 : string := be_bytes 32 0.

Definition merkle_root (items : list string) : string :=
  match items with
  | [] => zero32
  | _ => merkle_loop (length items) (merkle_leaf <$> items)
  end.

(** The siblings one layer contributes, [i] being the position of its head *)
Fixpoint proof_layer (layer : list string) (i idx : Z) : list (string * bool) :=
  match layer with
  | a :: b :: rest =>
      (if (i =? idx - idx mod 2)%Z
       then [if (idx mod 2 =? 0)%Z then (b, false) else (a, true)] else [])
      ++ proof_layer rest (i + 2)%Z idx
  | _ => []
  end.

Fixpoint proof_loop (fuel : nat) (layer : list string) (idx : Z) : list (string * bool) :=
  match fuel, layer with
  | S f, _ :: _ :: _ =>
      proof_layer layer 0 idx ++ proof_loop f (merkle_layer layer) (idx / 2)%Z
  | _, _ => []
  end.

Definition merkle_proof (items : list string) (index : Z) : list (string * bool) :=
  if (Z.of_nat (length items) <=? index)%Z then []
  else proof_loop (length items) (merkle_leaf <$> items) index.

Definition proof_step (current : string) (p : string * bool) : string :=
  if p.2 then merkle_node p.1 current else merkle_node current p.1.

Definition verify_merkle_proof (leaf : string) (proof : list (string * bool)) (root : string) : bool :=
  bool_decide (foldl proof_step (merkle_leaf leaf) proof = root).

(** *** Termination: the fuel is enough *)

Lemma merkle_layer_length layer :
  length (merkle_layer layer) = Nat.div2 (S (length layer)).
Proof.
  induction layer as [| x | x y l IH] using list_ind2; [done|done|].
  cbn [merkle_layer length]. rewrite IH. done.
Qed.

Lemma merkle_layer_shrinks layer :
  1 < length layer → length (merkle_layer layer) < length layer.
Proof.
  intros. rewrite merkle_layer_length. rewrite Nat.div2_div.
  apply Nat.Div0.div_lt_upper_bound; lia.
Qed.

Lemma merkle_loop_fuel f g layer :
  length layer ≤ f → length layer ≤ g → merkle_loop f layer = merkle_loop g layer.
Proof.
  revert g layer. induction f as [|f IH]; intros [|g] [|x [|y l]] Hf Hg; try done; simpl in *; try lia.
  pose proof (merkle_layer_shrinks (x :: y :: l)) as Hs. simpl in Hs.
  apply IH; simpl; lia.
Qed.

(** *** Completeness *)

Lemma proof_layer_before layer i idx :
  (idx < i)%Z → proof_layer layer i idx = [].
Proof.
  revert i. induction layer as [|x|x y l IH] using list_ind2; intros i Hi; [done|done|].
  cbn [proof_layer]. pose proof (Z.mod_pos_bound idx 2 eq_refl).
  destruct (Z.eqb_spec i (idx - idx mod 2)); [lia|]. apply IH. lia.
Qed.

Lemma proof_layer_spec layer i n x :
  (i mod 2 = 0)%Z → layer !! n = Some x →
  merkle_layer layer !! (n / 2) =
    Some (foldl proof_step x (proof_layer layer i (i + Z.of_nat n))).
Proof.
  revert i n. induction layer as [|y|y z l IH] using list_ind2; intros i n Hi Hn; [done|..].
  { destruct n; [|done]. injection Hn as ->. done. }
  cbn [proof_layer merkle_layer].
  destruct n as [|[|n]].
  - injection Hn as ->. rewrite Z.add_0_r, Hi, Z.sub_0_r, !Z.eqb_refl.
    by rewrite proof_layer_before by lia.
  - injection Hn as ->. change (Z.of_nat 1) with 1%Z.
    assert ((i + 1) mod 2 = 1)%Z as -> by (rewrite Z.add_mod, Hi by lia; done).
    replace (i + 1 - 1)%Z with i by lia. rewrite Z.eqb_refl.
    by rewrite proof_layer_before by lia.
  - pose proof (Z.mod_pos_bound (i + Z.of_nat (S (S n))) 2 eq_refl).
    destruct (Z.eqb_spec i (i + Z.of_nat (S (S n)) - (i + Z.of_nat (S (S n))) mod 2)); [lia|].
    rewrite app_nil_l. replace (i + Z.of_nat (S (S n)))%Z with (i + 2 + Z.of_nat n)%Z by lia.
    replace (S (S n) / 2) with (S (n / 2)) by (rewrite <-!Nat.div2_div; done).
    cbn [lookup list_lookup]. apply IH; [|done].
    rewrite Z.add_mod, Hi by lia. done.
Qed.

Lemma proof_loop_spec f layer n x :
  length layer ≤ f → layer !! n = Some x →
  foldl proof_step x (proof_loop f layer (Z.of_nat n)) = merkle_loop f layer.
Proof.
  revert layer n x. induction f as [|f IH]; intros layer n x Hf Hn.
  { destruct layer; [done|simpl in Hf; lia]. }
  destruct layer as [|y [|z l]]; [done|..].
  { destruct n; [|done]. by injection Hn as ->. }
  cbn [proof_loop merkle_loop]. rewrite foldl_app.
  apply (proof_layer_spec _ 0) in Hn; [|done]. rewrite Z.add_0_l in Hn.
  pose proof (merkle_layer_shrinks (y :: z :: l)) as Hs. simpl in Hs, Hf.
  replace (Z.of_nat n / 2)%Z with (Z.of_nat (n / 2)) by apply Nat2Z.inj_div.
  apply IH; [simpl; lia|]. exact Hn.
Qed.

Lemma merkle_proof_complete items n x :
  items !! n = Some x →
  verify_merkle_proof x (merkle_proof items (Z.of_nat n)) (merkle_root items) = true.
Proof.
  intros Hn. pose proof (lookup_lt_Some _ _ _ Hn) as Hlt. unfold verify_merkle_proof, merkle_proof.
  destruct (Z.leb_spec (Z.of_nat (length items)) (Z.of_nat n)); [lia|].
  apply bool_decide_eq_true. destruct items as [|y l]; [done|].
  unfold merkle_root. apply proof_loop_spec; [by rewrite length_fmap|].
  by rewrite list_lookup_fmap, Hn.
Qed.

(** *** Soundness: a verified item is in the tree, or a collision is found *)

Inductive mtree := MLeaf (item : string) | MNode (l r : mtree).

Fixpoint mhash (t : mtree) : string :=
  match t with
  | MLeaf x => merkle_leaf x
  | MNode l r => merkle_node (mhash l) (mhash r)
  end.
Fixpoint mitems (t : mtree) : list string :=
  match t with MLeaf x => [x] | MNode l r => mitems l ++ mitems r end.

Fixpoint tree_layer (layer : list mtree) : list mtree :=
  match layer with
  | a :: b :: rest => MNode a b :: tree_layer rest
  | _ => layer
  end.
Fixpoint tree_loop (fuel : nat) (layer : list mtree) : mtree :=
  match fuel, layer with
  | S f, _ :: _ :: _ => tree_loop f (tree_layer layer)
  | _, t :: _ => t
  | _, [] => MLeaf EmptyString
  end.
Definition build_tree (items : list string) : mtree := tree_loop (length items) (MLeaf <$> items).

Lemma tree_layer_hash layer : mhash <$> tree_layer layer = merkle_layer (mhash <$> layer).
Proof. induction layer as [|x|x y l IH] using list_ind2; [done|done|]. csimpl. by rewrite IH. Qed.
Lemma tree_layer_items layer : mjoin (mitems <$> tree_layer layer) = mjoin (mitems <$> layer).
Proof.
  induction layer as [|x|x y l IH] using list_ind2; [done|done|]. csimpl.
  by rewrite IH, (assoc_L (++)).
Qed.
Lemma tree_layer_length layer : length (tree_layer layer) = length (merkle_layer (mhash <$> layer)).
Proof. by rewrite <-tree_layer_hash, length_fmap. Qed.

Lemma tree_loop_spec f layer :
  length layer ≤ f → layer ≠ [] →
  mhash (tree_loop f layer) = merkle_loop f (mhash <$> layer) ∧
  mitems (tree_loop f layer) = mjoin (mitems <$> layer).
Proof.
  revert layer. induction f as [|f IH]; intros layer Hf Hne.
  { destruct layer; csimpl in Hf; [done|lia]. }
  destruct layer as [|x [|y l]]; [done|..].
  { csimpl. by rewrite (right_id_L [] (++)). }
  cbn [tree_loop]. pose proof (merkle_layer_shrinks (mhash <$> x :: y :: l)) as Hs.
  rewrite <-tree_layer_length, !length_fmap in Hs. csimpl in Hs. csimpl in Hf.
  destruct (IH (tree_layer (x :: y :: l))) as [H1 H2]; [csimpl; lia|done|].
  rewrite H1, H2, tree_layer_hash, tree_layer_items. done.
Qed.

Lemma build_tree_spec items :
  items ≠ [] → mhash (build_tree items) = merkle_root items ∧ mitems (build_tree items) = items.
Proof.
  intros Hne. unfold build_tree, merkle_root.
  destruct (tree_loop_spec (length items) (MLeaf <$> items)) as [H1 H2];
    [by rewrite length_fmap|by destruct items|].
  rewrite H1, H2. destruct items as [|x l]; [done|]. split.
  - by rewrite <-list_fmap_compose.
  - clear. generalize (x :: l) as k. induction k as [|y k IH]; [done|]. csimpl. by f_equal.
Qed.

(** The hash inputs at which a forged proof and the tree first differ, the
    proof being walked from the root ([rev proof]). *)
Definition leaf_input (item : string) : string := LEAF_PREFIX +:+ item.
Definition node_input (l r : string) : string := NODE_PREFIX +:+ l +:+ r.
Definition step_input (current : string) (p : string * bool) : string :=
  if p.2 then node_input p.1 current else node_input current p.1.

Fixpoint forged_at (t : mtree) (leaf : string) (rproof : list (string * bool)) : string * string :=
  match rproof, t with
  | [], MLeaf x => (leaf_input leaf, leaf_input x)
  | [], MNode l r => (leaf_input leaf, node_input (mhash l) (mhash r))
  | p :: rest, MLeaf x => (step_input (foldr (flip proof_step) (merkle_leaf leaf) rest) p, leaf_input x)
  | p :: rest, MNode l r =>
      let inp := step_input (foldr (flip proof_step) (merkle_leaf leaf) rest) p in
      if decide (inp = node_input (mhash l) (mhash r))
      then forged_at (if p.2 then r else l) leaf rest
      else (inp, node_input (mhash l) (mhash r))
  end.

Definition is_collision (xy : string * string) : Prop :=
  xy.1 ≠ xy.2 ∧ sha3_256 xy.1 = sha3_256 xy.2.

Lemma proof_step_input c p : proof_step c p = sha3_256 (step_input c p).
Proof. unfold proof_step, step_input. by destruct p as [? []]. Qed.
Lemma node_leaf_input l r x : node_input l r ≠ leaf_input x.
Proof. unfold node_input, leaf_input. done. Qed.
Lemma step_leaf_input c p x : step_input c p ≠ leaf_input x.
Proof. unfold step_input. destruct p.2; apply node_leaf_input. Qed.

Context `{!CryptoLaws C}.

Lemma mhash_length t : String.length (mhash t) = 32%nat.
Proof. destruct t; apply sha3_256_length. Qed.
Lemma fold_length leaf rest :
  String.length (foldr (flip proof_step) (merkle_leaf leaf) rest) = 32%nat.
Proof.
  destruct rest as [|p rest]; [apply sha3_256_length|].
  cbn [foldr flip]. rewrite proof_step_input. apply sha3_256_length.
Qed.

(** A proof step that hashes the same input as an inner node continues in
    the child on the proof's side. *)
Lemma step_input_inv c p l r :
  String.length c = 32%nat →
  step_input c p = node_input (mhash l) (mhash r) → c = mhash (if p.2 then r else l).
Proof.
  intros Hc. unfold step_input, node_input, NODE_PREFIX. str_simpl.
  destruct p as [sib []]; cbn [fst snd]; intros H; injection H as H.
  - assert (String.length sib = String.length (mhash l)) as Hl.
    { apply (f_equal String.length) in H. rewrite !string_length_app, !mhash_length in H.
      rewrite mhash_length. lia. }
    by destruct (string_app_inj_len _ _ _ _ Hl H).
  - assert (String.length c = String.length (mhash l)) as Hl by by rewrite mhash_length.
    by destruct (string_app_inj_len _ _ _ _ Hl H).
Qed.

Lemma forged_at_sound t leaf rproof :
  foldr (flip proof_step) (merkle_leaf leaf) rproof = mhash t →
  leaf ∈ mitems t ∨ is_collision (forged_at t leaf rproof).
Proof.
  revert t. induction rproof as [|p rest IH]; intros t Ht.
  - destruct t as [x|l r]; cbn [foldr mhash forged_at mitems] in *.
    + destruct (decide (leaf = x)) as [->|Hne]; [left; set_solver|right].
      split; cbn; [|exact Ht]. unfold leaf_input, LEAF_PREFIX. str_simpl. congruence.
    + right. split; cbn; [|exact Ht]. intros H. symmetry in H. by apply node_leaf_input in H.
  - cbn [foldr flip] in Ht. rewrite proof_step_input in Ht.
    destruct t as [x|l r]; cbn [mhash forged_at mitems] in *.
    + right. split; cbn; [apply step_leaf_input|exact Ht].
    + case_decide as Hd; [|right; split; cbn; [exact Hd|exact Ht]].
      apply step_input_inv in Hd; [|apply fold_length].
      destruct (IH _ Hd) as [Hin|Hc]; [left|by right].
      destruct p.2; set_solver.
Qed.
End Merkle.

(** Whatever path leads to the root of a list starts at one of its items or
    shows a collision on the way. *)
Lemma verify_merkle_inv `{C : Crypto} `{!CryptoLaws C} items leaf proof :
  items ≠ [] → verify_merkle_proof leaf proof (merkle_root items) = true →
  leaf ∈ items ∨ is_collision (forged_at (build_tree items) leaf (reverse proof)).
Proof.
  intros Hne Hv.
  destruct (build_tree_spec items Hne) as [Hroot Hitems].
  apply bool_decide_eq_true in Hv. rewrite <-Hroot in Hv.
  rewrite <-foldr_flip_reverse in Hv.
  destruct (forged_at_sound _ _ _ Hv) as [Hin|Hc]; [left|by right].
  by rewrite <-Hitems.
Qed.

(** ** An instance that evaluates

    A rolling polynomial hash written on 32 octets and a signature that quotes the
    key and the hash of the message; only used to run the definitions. *)
Module Toy.
Fixpoint roll (acc : Z) (s : string) : Z :=
  match s with
  | EmptyString => acc
  | String c s' => roll ((acc * 257 + Z.of_nat (ord c) + 1) mod 2147483647) s'
  end.
Definition hash (s : string) : string := be_bytes 32 (roll 7 s).
Definition sign (sk msg : string) : option string := Some ("sig:" +:+ sk +:+ ":" +:+ hash msg).
Definition verify (msg sig pk : string) : bool :=
  bool_decide (Some sig = sign pk msg).

#[export] Instance crypto : Crypto :=
  {| sha3_256 := hash; oqs_sign := sign; oqs_verify := verify |}.
#[export] Instance laws : CryptoLaws crypto.
Proof. constructor. intros x. apply be_bytes_length. Defined.
End Toy.

(** ** Properties *)

(** Completeness: the proof [merkle_proof] builds for any position of the
    list verifies against [merkle_root] of the list. *)
Lemma merkle_inclusion_complete `{C : Crypto} (items : list string) (n : nat) (x : string)
  (Hx : items !! n = Some x) :
  verify_merkle_proof x (merkle_proof items (Z.of_nat n)) (merkle_root items) = true.
Proof. by apply merkle_proof_complete. Qed.

(** Soundness: whatever proof an adversary supplies, if it verifies
    against the root of a non-empty list then the item is in the list, or the
    walk of the proof along the tree exhibits two different inputs with one
    SHA3-256 hash.  The domain separation of leaves and nodes and the fixed
    hash length are what the proof rests on. *)
Lemma merkle_inclusion_sound `{C : Crypto} `{!CryptoLaws C}
  (items : list string) (leaf : string) (proof : list (string * bool))
  (Hne : items ≠ [])
  (Hv : verify_merkle_proof leaf proof (merkle_root items) = true) :
  leaf ∈ items ∨ is_collision (forged_at (build_tree items) leaf (reverse proof)).
Proof.
  by apply verify_merkle_inv.
Qed.

