(* ===== verification/StateTrie.v ===== *)
(** * The state trie

    [core/state_tree.py]: a key-value map whose root is the Merkle root of
    the leaves [sha3(key ++ value)] in the order of the keys.  The cached
    root of the code is a memo of [root], so it is not state here. *)
From S2P Require Import Prelude PyStr Crypto.

Definition entries : Type := gmap string string.

Section StateTrie.
Context `{C : Crypto}.

Definition EMPTY_STATE_TAG : string := "empty_state".

Definition trie_set (k v : string) (t : gmap string string) : gmap string string :=
  match t !! k with
  | Some old => if decide (old = v) then t else <[k:=v]> t
  | None => <[k:=v]> t
  end.
Definition trie_delete (k : string) (t : gmap string string) : gmap string string :=
  if decide (is_Some (t !! k)) then delete k t else t.

Definition sorted_keys (t : gmap string string) : list string :=
  merge_sort String.le (elements (dom t)).
Definition trie_leaf (t : gmap string string) (k : string) : string :=
  sha3_256 (utf8 k +:+ get_or t k EmptyString).
Definition sorted_leaves (t : gmap string string) : list string :=
  trie_leaf t <$> sorted_keys t.

Definition trie_root (t : gmap string string) : string :=
  if decide (t = ∅) then sha3_256 EMPTY_STATE_TAG else merkle_root (sorted_leaves t).

(** [bisect.bisect_left] on a sorted list: how many keys are smaller *)
Fixpoint bisect_left (l : list string) (k : string) : nat :=
  match l with
  | [] => 0
  | x :: l' => if decide (String.le k x) then 0 else S (bisect_left l' k)
  end.

Record StateProof := mkStateProof {
  sp_key : string;
  sp_value : string;
  sp_proof : list (string * bool);
  sp_root : string;
}.

(** [get_proof]: digests and values are in hexadecimal text *)
Definition get_proof (t : gmap string string) (key : string) : option StateProof :=
  match t !! key with
  | None => None
  | Some v =>
      let keys := sorted_keys t in
      let proof := merkle_proof (trie_leaf t <$> keys) (Z.of_nat (bisect_left keys key)) in
      Some (mkStateProof key (hex v) ((λ p, (hex p.1, p.2)) <$> proof) (hex (trie_root t)))
  end.

Definition verify_proof (key value : string) (proof : list (string * bool)) (root : string) : bool :=
  verify_merkle_proof (sha3_256 (utf8 key +:+ value)) proof root.

(** [snapshot] copies the entries, [restore] installs a copy. *)
Definition trie_snapshot (t : gmap string string) : gmap string string := t.
Definition trie_restore (t entries : gmap string string) : gmap string string := entries.

(** ** Lemmas *)

Lemma trie_set_insert k v t : trie_set k v t = <[k:=v]> t.
Proof.
  unfold trie_set. destruct (t !! k) as [old|] eqn:E; [|done].
  case_decide; [subst|done]. by rewrite insert_id.
Qed.
Lemma trie_delete_delete k t : trie_delete k t = delete k t.
Proof.
  unfold trie_delete. case_decide as E; [done|]. symmetry. apply delete_id.
  by apply eq_None_not_Some.
Qed.

Lemma sorted_keys_elem t k : k ∈ sorted_keys t ↔ is_Some (t !! k).
Proof.
  unfold sorted_keys. rewrite merge_sort_Permutation, elem_of_elements. apply elem_of_dom.
Qed.
Lemma sorted_keys_sorted t : StronglySorted String.le (sorted_keys t).
Proof. apply (StronglySorted_merge_sort _). Qed.
Lemma sorted_keys_NoDup t : NoDup (sorted_keys t).
Proof. unfold sorted_keys. rewrite merge_sort_Permutation. apply NoDup_elements. Qed.

Lemma bisect_left_lookup l k :
  StronglySorted String.le l → k ∈ l → l !! bisect_left l k = Some k.
Proof.
  induction 1 as [|x l Hl IH Hx]; intros Hin; [set_solver|]. cbn [bisect_left].
  case_decide as Hle; cbn [lookup list_lookup].
  - apply elem_of_cons in Hin as [->|Hin]; [done|]. f_equal.
    apply (anti_symm String.le); [|done]. by apply (Forall_in _ _ _ Hx).
  - apply IH. apply elem_of_cons in Hin as [->|Hin]; [|done]. by destruct Hle.
Qed.

Lemma sorted_keys_nil t : t ≠ ∅ → sorted_keys t ≠ [].
Proof.
  intros Ht Hs. apply map_choose in Ht as (k & v & Hk).
  assert (k ∈ sorted_keys t) as Hin by (apply sorted_keys_elem; eauto).
  rewrite Hs in Hin. set_solver.
Qed.
End StateTrie.

(** The proof with its digests decoded, as a client reads it *)
Fixpoint decode_proof (p : list (string * bool)) : option (list (string * bool)) :=
  match p with
  | [] => Some []
  | (h, l) :: p' =>
      match fromhex h, decode_proof p' with
      | Some b, Some q => Some ((b, l) :: q)
      | _, _ => None
      end
  end.

Lemma decode_proof_hex p : decode_proof ((λ x, (hex x.1, x.2)) <$> p) = Some p.
Proof. induction p as [|[b l] p IH]; [done|]. csimpl. by rewrite fromhex_hex, IH. Qed.

(** Keys and values that concatenate to one leaf input are equal when the
    values have one length. *)
Lemma leaf_input_inj k k' v v' :
  String.length v = String.length v' → utf8 k +:+ v = utf8 k' +:+ v' → k = k' ∧ v = v'.
Proof.
  intros Hl H. assert (String.length (utf8 k) = String.length (utf8 k')) as Hk.
  { apply (f_equal String.length) in H. rewrite !string_length_app in H. lia. }
  destruct (string_app_inj_len _ _ _ _ Hk H) as [Heq ->]. split; [|done]. by apply (inj utf8).
Qed.

Lemma verify_proof_sound `{C : Crypto} `{!CryptoLaws C} (t : gmap string string)
  (k v : string) (path : list (string * bool)) (n : nat)
  (Hne : t ≠ ∅)
  (Hw : map_Forall (λ _ x, String.length x = n) t) (Hv : String.length v = n)
  (Hok : verify_proof k v path (trie_root t) = true) :
  t !! k = Some v ∨
  is_collision (forged_at (build_tree (sorted_leaves t)) (sha3_256 (utf8 k +:+ v)) (reverse path)) ∨
  ∃ k' v', t !! k' = Some v' ∧ is_collision (utf8 k +:+ v, utf8 k' +:+ v').
Proof.
  unfold verify_proof, trie_root in Hok. rewrite decide_False in Hok by done.
  assert (sorted_leaves t ≠ []) as Hl.
  { unfold sorted_leaves. intros H%fmap_nil_inv. by apply sorted_keys_nil in H. }
  destruct (verify_merkle_inv _ _ _ Hl Hok) as [Hin|]; [|tauto]. apply list_elem_of_fmap in Hin as (k' & Hh & Hk').
  apply sorted_keys_elem in Hk' as [v' Hv']. unfold trie_leaf, get_or in Hh.
  rewrite Hv' in Hh. cbn in Hh.
  destruct (decide (utf8 k +:+ v = utf8 k' +:+ v')) as [He|Hne'].
  - left. apply leaf_input_inj in He as [-> ->]; [done|]. rewrite Hv. symmetry. by eapply Hw.
  - right; right. exists k', v'. by split_and!.
Qed.

(** ** Properties *)

(** Every key of the trie has a proof; decoded, it verifies for the key's
    value against the root the trie reports. *)
Lemma state_proof_complete `{C : Crypto} (t : gmap string string) (k v : string)
  (Hk : t !! k = Some v) :
  ∃ p path, get_proof t k = Some p ∧ sp_key p = k ∧ fromhex (sp_value p) = Some v ∧
    fromhex (sp_root p) = Some (trie_root t) ∧ decode_proof (sp_proof p) = Some path ∧
    verify_proof k v path (trie_root t) = true.
Proof.
  unfold get_proof. rewrite Hk. eexists _, _. split; [reflexivity|]. cbn.
  rewrite !fromhex_hex, decode_proof_hex. split_and!; try reflexivity.
  unfold verify_proof, trie_root. rewrite decide_False by (intros ->; set_solver).
  apply merkle_proof_complete. unfold sorted_leaves. rewrite list_lookup_fmap.
  rewrite bisect_left_lookup; [|apply sorted_keys_sorted|apply sorted_keys_elem; eauto].
  cbn. unfold trie_leaf, get_or. by rewrite Hk.
Qed.

(** A proof for a value of the trie's width that verifies against the root
    of a non-empty trie shows the value the trie holds, unless it exhibits a
    SHA3-256 collision: inside the Merkle tree or between two leaf inputs. *)
Lemma state_proof_sound `{C : Crypto} `{!CryptoLaws C} (t : gmap string string)
  (k v : string) (path : list (string * bool)) (n : nat)
  (Hne : t ≠ ∅)
  (Hw : map_Forall (λ _ x, String.length x = n) t) (Hv : String.length v = n)
  (Hok : verify_proof k v path (trie_root t) = true) :
  t !! k = Some v ∨
  is_collision (forged_at (build_tree (sorted_leaves t)) (sha3_256 (utf8 k +:+ v)) (reverse path)) ∨
  ∃ k' v', t !! k' = Some v' ∧ is_collision (utf8 k +:+ v, utf8 k' +:+ v').
Proof. by apply (verify_proof_sound t k v path n). Qed.

(** The width of the value matters: [verify_proof] concatenates key and
    value, so the proof of one entry also verifies for the key without its
    last (ASCII) character and that character put in front of the value. *)
Lemma state_proof_key_value_ambiguous `{C : Crypto} (k v : string) (c : ascii)
  (path : list (string * bool)) (root : string) (Hc : (ord c < 128)%nat) :
  verify_proof (k +:+ String c EmptyString) v path root = verify_proof k (String c v) path root.
Proof.
  unfold verify_proof.
  assert (utf8 (k +:+ String c EmptyString) +:+ v = utf8 k +:+ String c v) as ->; [|done].
  induction k as [|d k IH]; str_simpl; cbn [utf8].
  - destruct (Nat.ltb_spec (ord c) 128); [|lia]. by str_simpl.
  - destruct (ord d <? 128)%nat; str_simpl; by rewrite IH.
Qed.

