(* ===== verification/Wallet.v ===== *)
(** * Wallet addresses

    [core/wallet.py]: the address of a signing key. *)
From S2P Require Import Prelude PyStr Crypto Config.

Section Wallet.
Context `{C : Crypto}.

(** [Wallet.derive_address] *)
Definition derive_address (signing_pk : string) : string :=
  ADDRESS_PREFIX +:+ hex (sha3_256 signing_pk).
End Wallet.
