(* ===== verification/Transaction.v ===== *)
(** * Transactions

    [core/transaction.py]: the record, the canonical bytes that are hashed and
    signed, signature verification, payload validation, the wire dictionary
    and the factory methods.  Error texts keep the constant part of the
    message; interpolated values are left out.

    The integer fields of a transaction are [Z] and its recipient is a
    [string]; [from_dict] raises [TypeError] where the wire dictionary holds a
    boolean or, for [to], a non-string in such a field. *)
From S2P Require Import Prelude PyStr Json Config Crypto Wallet.
Open Scope Z_scope.

Inductive TxType :=
  | REGISTER_KEY | REGISTER_VALIDATOR | REVOKE_KEY | NOTARIZE | STORE | SHARE
  | STAKE | DELEGATE | UNSTAKE | EVIDENCE | TRANSFER
  | ISSUE_TOKEN | MINT_TOKEN | TRANSFER_TOKEN.
#[global] Instance TxType_eq_dec : EqDecision TxType.
Proof. solve_decision. Defined.

(** [tx_type.value] *)
Definition tt_value (t : TxType) : string :=
  match t with
  | REGISTER_KEY => "REGISTER_KEY" | REGISTER_VALIDATOR => "REGISTER_VALIDATOR"
  | REVOKE_KEY => "REVOKE_KEY" | NOTARIZE => "NOTARIZE" | STORE => "STORE"
  | SHARE => "SHARE" | STAKE => "STAKE" | DELEGATE => "DELEGATE"
  | UNSTAKE => "UNSTAKE" | EVIDENCE => "EVIDENCE" | TRANSFER => "TRANSFER"
  | ISSUE_TOKEN => "ISSUE_TOKEN" | MINT_TOKEN => "MINT_TOKEN"
  | TRANSFER_TOKEN => "TRANSFER_TOKEN"
  end.
Definition all_tx_types : list TxType :=
  [REGISTER_KEY; REGISTER_VALIDATOR; REVOKE_KEY; NOTARIZE; STORE; SHARE; STAKE; DELEGATE;
   UNSTAKE; EVIDENCE; TRANSFER; ISSUE_TOKEN; MINT_TOKEN; TRANSFER_TOKEN].
(** [TxType(s)] *)
Definition tt_of_value (s : string) : result TxType :=
  match list_find (λ t, tt_value t = s) all_tx_types with
  | Some (_, t) => Ok t
  | None => Raise (ValueError "not a valid TxType")
  end.

Lemma tt_of_value_value t : tt_of_value (tt_value t) = Ok t.
Proof. by destruct t. Qed.
#[global] Instance tt_value_inj : Inj (=) (=) tt_value.
Proof. intros [] []; done. Qed.

Record Transaction := mkTx {
  tx_type : TxType;
  sender : string;
  recipient : string;
  timestamp : Z;
  payload : dict string JVal;
  signature : string;
  sender_pubkey : string;
  nonce : Z;
  chain_id : string;
  max_fee_per_weight : Z;
  max_priority_fee : Z;
}.
#[global] Instance Transaction_eq_dec : EqDecision Transaction.
Proof. solve_decision. Defined.

(** ** Canonical bytes, identifier, signature *)

Definition signable_obj (tx : Transaction) : JVal :=
  JObj [("chainId", JStr (chain_id tx)); ("from", JStr (sender tx));
        ("maxFeePerWeight", JInt (max_fee_per_weight tx));
        ("maxPriorityFee", JInt (max_priority_fee tx)); ("nonce", JInt (nonce tx));
        ("payload", JObj (payload tx)); ("timestamp", JInt (timestamp tx));
        ("to", JStr (recipient tx)); ("type", JStr (tt_value (tx_type tx)))].

Definition signable_bytes (tx : Transaction) : string := dumps (signable_obj tx).

Section Signing.
Context `{C : Crypto}.

Definition tx_id (tx : Transaction) : string := hex (sha3_256 (signable_bytes tx)).

Definition tx_sign (tx : Transaction) (signing_sk signing_pk : string) : result Transaction :=
  let tx' := mkTx (tx_type tx) (sender tx) (recipient tx) (timestamp tx) (payload tx)
                  (signature tx) signing_pk (nonce tx) (chain_id tx)
                  (max_fee_per_weight tx) (max_priority_fee tx) in
  sig ← MLDSA_sign signing_sk (signable_bytes tx');
  Ok (mkTx (tx_type tx) (sender tx) (recipient tx) (timestamp tx) (payload tx)
           sig signing_pk (nonce tx) (chain_id tx)
           (max_fee_per_weight tx) (max_priority_fee tx)).

Definition tx_verify (tx : Transaction) : bool :=
  if is_empty (signature tx) || is_empty (sender_pubkey tx) then false
  else if negb (bool_decide (derive_address (sender_pubkey tx) = sender tx)) then false
  else MLDSA_verify (sender_pubkey tx) (signable_bytes tx) (signature tx).
End Signing.

(** ** Payload validation *)

(** [None] stands for [(True, "")], [Some msg] for [(False, msg)]. *)
Definition verdict := result (option string).
Definition accept : verdict := Ok None.
Definition reject (msg : string) : verdict := Ok (Some msg).
(** [if cond: return False, msg] followed by the rest of the method *)
Definition refuse_if (cond : bool) (msg : string) (rest : verdict) : verdict :=
  if cond then reject msg else rest.

Definition int_val (v : JVal) : option Z :=
  match as_Z v with Ok z => Some z | Raise _ => None end.
(** [isinstance(v, int) and v > n] *)
Definition int_gt (v : JVal) (n : Z) : bool :=
  match int_val v with Some z => (n <? z)%Z | None => false end.
(** [not isinstance(v, int) or v < n] *)
Definition not_int_ge (v : JVal) (n : Z) : bool :=
  match int_val v with Some z => (z <? n)%Z | None => true end.
Definition is_none (v : JVal) : bool := match v with JNull => true | _ => false end.
(** [not isinstance(v, str) or not v] *)
Definition not_nonempty_str (v : JVal) : bool :=
  match v with JStr s => is_empty s | _ => true end.
(** [isinstance(v, str) and len(v) > n] *)
Definition str_longer (v : JVal) (n : Z) : bool :=
  match v with JStr s => (n <? str_len s)%Z | _ => false end.
(** [v in {...}] for a string or any other value *)
Definition str_in (v : JVal) (l : list string) : bool :=
  match v with JStr s => bool_decide (s ∈ l) | _ => false end.
(** [not v or not _HEX_RE.match(v)]: matching a truthy non-string raises. *)
Definition not_hex (v : JVal) : result bool :=
  if negb (truthy v) then Ok true else s ← as_str v; Ok (negb (hex_re s)).
Definition hex_str (v : JVal) : bool :=
  match v with JStr s => negb (is_empty s) && hex_re s | _ => false end.

Definition allowed_keys (t : TxType) : list string :=
  match t with
  | REGISTER_KEY => ["encryption_pk"]
  | REGISTER_VALIDATOR => ["validator_pubkey"; "validator_address"; "commission"]
  | REVOKE_KEY => ["key_type"; "reason"]
  | NOTARIZE => ["documentHash"; "metadata"]
  | STORE => ["documentHash"; "cid"; "metadata"]
  | SHARE => ["cid"; "encapsulatedKey"; "expires"]
  | STAKE | DELEGATE | UNSTAKE => ["amount"; "validator_address"]
  | EVIDENCE => ["evidence_type"; "block_a_hash"; "block_b_hash"; "block_a_sig"; "block_b_sig";
                 "block_index"; "validator_address"; "block_a_header"; "block_b_header"]
  | TRANSFER => ["amount"; "memo"]
  | ISSUE_TOKEN => ["name"; "symbol"; "decimals"; "max_supply"; "transferable"]
  | MINT_TOKEN => ["token_id"; "amount"]
  | TRANSFER_TOKEN => ["token_id"; "amount"; "memo"]
  end.

Definition EVIDENCE_MAX_PAYLOAD : Z := 32768.

Definition check_metadata (p : dict string JVal) : verdict :=
  let meta := jget p "metadata" JNull in
  refuse_if (negb (is_none meta) && negb (is_str meta)) "metadata must be a string" (
  refuse_if (str_longer meta 1024) "metadata exceeds 1024 characters" accept).

Definition validate_notarize (p : dict string JVal) : verdict :=
  let dh := jget p "documentHash" (JStr EmptyString) in
  bad ← not_hex dh;
  refuse_if bad "documentHash must be non-empty hex string" (
  refuse_if (str_longer dh 128) "documentHash too long (max 128 hex chars)" (
  check_metadata p)).

Definition validate_store (p : dict string JVal) : verdict :=
  let dh := jget p "documentHash" (JStr EmptyString) in
  bad ← not_hex dh;
  refuse_if bad "documentHash must be non-empty hex string" (
  refuse_if (str_longer dh 128) "documentHash too long (max 128 hex chars)" (
  refuse_if (negb (truthy (jget p "cid" JNull))) "cid required for STORE tx" (
  check_metadata p))).

Definition validate_share (p : dict string JVal) : verdict :=
  refuse_if (negb (truthy (jget p "cid" JNull))) "cid required for SHARE tx" (
  bad ← not_hex (jget p "encapsulatedKey" (JStr EmptyString));
  refuse_if bad "encapsulatedKey must be non-empty hex" (
  refuse_if (not_int_ge (jget p "expires" (JInt 0)) 0)
    "expires must be non-negative integer" accept)).

Definition validate_register_key (p : dict string JVal) : verdict :=
  bad ← not_hex (jget p "encryption_pk" (JStr EmptyString));
  refuse_if bad "encryption_pk must be non-empty hex" accept.

Definition validate_revoke_key (p : dict string JVal) : verdict :=
  refuse_if (negb (str_in (jget p "key_type" (JStr EmptyString)) ["signing"; "encryption"; "validator"]))
    "key_type must be one of" (
  refuse_if (negb (str_in (jget p "reason" (JStr EmptyString)) ["compromised"; "rotation"; "decommission"]))
    "reason must be one of" accept).

Definition validate_staking (p : dict string JVal) : verdict :=
  let amount := jget p "amount" JNull in
  refuse_if (not_int_ge amount MIN_STAKE) "amount must be integer >= MIN_STAKE" (
  refuse_if (int_gt amount MAX_STAKE) "amount must be <= MAX_STAKE" (
  refuse_if (not_nonempty_str (jget p "validator_address" (JStr EmptyString)))
    "validator_address must be non-empty string" accept)).

(** The recipient test of the value-bearing types: [qv1] and 67 characters,
    hexadecimal from the fourth on. *)
Definition valid_recipient (r : string) : bool :=
  String.prefix ADDRESS_PREFIX r && (str_len r =? 67)%Z && hex_re (str_drop 3 r).

Definition check_memo (p : dict string JVal) : verdict :=
  let memo := jget p "memo" JNull in
  refuse_if (negb (is_none memo) && negb (is_str memo)) "memo must be a string" (
  refuse_if (str_longer memo 256) "memo exceeds 256 characters" accept).

(** [v1] and then, when it accepts, [v2] *)
Definition and_then (v1 v2 : verdict) : verdict :=
  o ← v1; match o with Some m => reject m | None => v2 end.

Definition validate_transfer (p : dict string JVal) (snd rcp : string) : verdict :=
  let amount := jget p "amount" JNull in
  refuse_if (not_int_ge amount 1) "amount must be a positive integer" (
  refuse_if (int_gt amount MAX_SUPPLY) "amount exceeds MAX_SUPPLY" (
  and_then (check_memo p) (
  refuse_if (is_empty rcp) "TRANSFER requires a recipient" (
  refuse_if (bool_decide (rcp = snd)) "cannot transfer to self" (
  refuse_if (negb (valid_recipient rcp)) "recipient must be a valid qv1 address (67 chars)" accept))))).

Definition token_id_ok (v : JVal) : bool :=
  match v with JStr s => (str_len s =? 32)%Z && hex_re s | _ => false end.

Definition validate_mint_token (p : dict string JVal) (rcp : string) : verdict :=
  let amount := jget p "amount" JNull in
  refuse_if (negb (token_id_ok (jget p "token_id" (JStr EmptyString))))
    "token_id must be a 32-character hex string" (
  refuse_if (not_int_ge amount 1) "amount must be a positive integer" (
  refuse_if (int_gt amount MAX_SUPPLY) "amount exceeds MAX_SUPPLY" (
  refuse_if (is_empty rcp) "MINT_TOKEN requires a recipient" (
  refuse_if (negb (valid_recipient rcp)) "recipient must be a valid qv1 address (67 chars)" accept)))).

Definition validate_transfer_token (p : dict string JVal) (snd rcp : string) : verdict :=
  let amount := jget p "amount" JNull in
  refuse_if (negb (token_id_ok (jget p "token_id" (JStr EmptyString))))
    "token_id must be a 32-character hex string" (
  refuse_if (not_int_ge amount 1) "amount must be a positive integer" (
  refuse_if (int_gt amount MAX_SUPPLY) "amount exceeds MAX_SUPPLY" (
  refuse_if (is_empty rcp) "TRANSFER_TOKEN requires a recipient" (
  refuse_if (bool_decide (rcp = snd)) "cannot transfer token to self" (
  refuse_if (negb (valid_recipient rcp)) "recipient must be a valid qv1 address (67 chars)" (
  check_memo p)))))).

(** [^[a-zA-Z0-9 ]+$] and [^[A-Z][A-Z0-9]+$] *)
Definition name_re (s : string) : bool :=
  re_plus (λ c, is_lower c || is_upper c || is_digit c || (ord c =? 32)%nat) s.
Definition symbol_re (s : string) : bool :=
  match s with
  | EmptyString => false
  | String c s' => is_upper c && re_plus (λ c, is_upper c || is_digit c) s'
  end.

Definition validate_issue_token (p : dict string JVal) : verdict :=
  match jget p "name" (JStr EmptyString) with
  | JStr name =>
      refuse_if (is_empty name) "name must be a non-empty string" (
      refuse_if (MAX_TOKEN_NAME_LENGTH <? str_len name)%Z "name exceeds 64 characters" (
      refuse_if (negb (name_re name)) "name must contain only alphanumeric characters and spaces" (
      match jget p "symbol" (JStr EmptyString) with
      | JStr symbol =>
          refuse_if (is_empty symbol) "symbol must be a non-empty string" (
          refuse_if (str_len symbol <? MIN_TOKEN_SYMBOL_LENGTH)%Z "symbol must be at least 2 characters" (
          refuse_if (MAX_TOKEN_SYMBOL_LENGTH <? str_len symbol)%Z "symbol exceeds 8 characters" (
          refuse_if (negb (symbol_re symbol))
            "symbol must be uppercase alphanumeric starting with a letter" (
          refuse_if (bool_decide (symbol = "QBIT")) "symbol QBIT is reserved for the native token" (
          let decimals := jget p "decimals" JNull in
          refuse_if (not_int_ge decimals 0 || int_gt decimals MAX_TOKEN_DECIMALS)
            "decimals must be an integer 0-18" (
          refuse_if (not_int_ge (jget p "max_supply" (JInt 0)) 0)
            "max_supply must be a non-negative integer" (
          refuse_if (negb (is_bool (jget p "transferable" (JBool true))))
            "transferable must be a boolean" accept)))))))
      | _ => reject "symbol must be a non-empty string"
      end)))
  | _ => reject "name must be a non-empty string"
  end.

Section Validation.
Context `{C : Crypto}.

Definition validate_register_validator (p : dict string JVal) (snd : string) : verdict :=
  let vpk := jget p "validator_pubkey" (JStr EmptyString) in
  bad ← not_hex vpk;
  refuse_if bad "validator_pubkey must be non-empty hex" (
  vpk_s ← as_str vpk;
  refuse_if (negb (str_len vpk_s =? 3904)%Z) "validator_pubkey wrong size" (
  let vaddr := jget p "validator_address" (JStr EmptyString) in
  refuse_if (not_nonempty_str vaddr) "validator_address must be non-empty string" (
  match fromhex vpk_s with
  | None => Raise (ValueError "non-hexadecimal number found in fromhex() arg")
  | Some pk =>
      refuse_if (negb (bool_decide (vaddr = JStr (derive_address pk))))
        "validator_address does not match validator_pubkey" (
      refuse_if (negb (bool_decide (JStr snd = vaddr)))
        "REGISTER_VALIDATOR requires sender == validator_address" (
      let commission := jget p "commission" JNull in
      refuse_if (negb (is_none commission) && (not_int_ge commission 0 || int_gt commission 100))
        "commission must be an integer 0-100" accept))
  end))).

(** [for hdr_field, hash_field in ...]: each header hashes to the claimed hash *)
Definition check_header_hash (p : dict string JVal) (hdr_field hash_field : string) : verdict :=
  h ← jindex_str p hdr_field;
  match fromhex h with
  | None => Raise (ValueError "non-hexadecimal number found in fromhex() arg")
  | Some b =>
      claimed ← jindex p hash_field;
      refuse_if (negb (bool_decide (JStr (hex (sha3_256 b)) = claimed)))
        "header does not hash to the claimed block hash" accept
  end.

Definition validate_evidence (p : dict string JVal) : verdict :=
  let field_bad f := negb (hex_str (jget p f (JStr EmptyString))) in
  refuse_if (negb (bool_decide (jget p "evidence_type" (JStr EmptyString) = JStr "double_sign")))
    "evidence_type must be 'double_sign'" (
  refuse_if (existsb field_bad ["block_a_hash"; "block_b_hash"; "block_a_sig"; "block_b_sig"])
    "field must be non-empty hex string" (
  refuse_if (existsb field_bad ["block_a_header"; "block_b_header"])
    "field must be non-empty hex string" (
  and_then (check_header_hash p "block_a_header" "block_a_hash") (
  and_then (check_header_hash p "block_b_header" "block_b_hash") (
  refuse_if (bool_decide (jget p "block_a_hash" JNull = jget p "block_b_hash" JNull))
    "block_a_hash and block_b_hash must differ (not double-sign)" (
  refuse_if (not_int_ge (jget p "block_index" JNull) 0)
    "block_index must be non-negative integer" (
  refuse_if (not_nonempty_str (jget p "validator_address" (JStr EmptyString)))
    "validator_address must be non-empty string" accept))))))).

(** The checks before the branch on the type: size, keys, big integers *)
Definition validate_common (tx : Transaction) : verdict :=
  let p := payload tx in
  let t := tx_type tx in
  let max_size := if decide (t = EVIDENCE) then EVIDENCE_MAX_PAYLOAD else MAX_TX_PAYLOAD_SIZE in
  refuse_if (max_size <? str_len (dumps (JObj p)))%Z "payload too large" (
  refuse_if (negb (forallb (λ k, bool_decide (k ∈ allowed_keys t)) p.*1)) "unknown payload keys" (
  refuse_if (bool_decide (t ∈ [TRANSFER; STAKE; DELEGATE; UNSTAKE; MINT_TOKEN; TRANSFER_TOKEN]) &&
             int_gt (jget p "amount" JNull) MAX_TX_AMOUNT) "amount exceeds MAX_TX_AMOUNT" (
  refuse_if (bool_decide (t = ISSUE_TOKEN) && int_gt (jget p "max_supply" JNull) MAX_TX_AMOUNT)
    "max_supply exceeds MAX_TX_AMOUNT" (
  refuse_if (bool_decide (t ∈ [TRANSFER; STAKE; DELEGATE; MINT_TOKEN]) &&
             int_gt (jget p "amount" JNull) MAX_SUPPLY) "amount exceeds MAX_SUPPLY" accept)))).

Definition validate_payload (tx : Transaction) : verdict :=
  let p := payload tx in
  and_then (validate_common tx)
    match tx_type tx with
    | NOTARIZE => validate_notarize p
    | STORE => validate_store p
    | SHARE => validate_share p
    | REGISTER_KEY => validate_register_key p
    | REGISTER_VALIDATOR => validate_register_validator p (sender tx)
    | REVOKE_KEY => validate_revoke_key p
    | STAKE | DELEGATE | UNSTAKE => validate_staking p
    | TRANSFER => validate_transfer p (sender tx) (recipient tx)
    | EVIDENCE => validate_evidence p
    | ISSUE_TOKEN => validate_issue_token p
    | MINT_TOKEN => validate_mint_token p (recipient tx)
    | TRANSFER_TOKEN => validate_transfer_token p (sender tx) (recipient tx)
    end.
End Validation.

(** ** The wire dictionary *)

Definition MAX_FEE_PARAM : Z := 2 ^ 63.

(** An integer field, which [isinstance(v, int)] must accept; a boolean leaves
    the model (see the head of the file). *)
Definition int_field (v : JVal) (msg : string) : result Z :=
  match v with
  | JInt z => Ok z
  | JBool _ => Raise TypeError
  | _ => Raise (ValueError msg)
  end.
Definition str_field (v : JVal) (msg : string) : result string :=
  match v with JStr s => Ok s | _ => Raise (ValueError msg) end.
(** [bytes.fromhex(v)] *)
Definition bytes_field (v : JVal) : result string :=
  s ← as_str v;
  match fromhex s with
  | Some b => Ok b
  | None => Raise (ValueError "signature/sender_pubkey must be valid hex")
  end.

(** [data.get("type", "")] as a set member: unhashable values raise, and no
    other non-string is the name of a type. *)
Definition type_field (v : JVal) : result string :=
  match v with
  | JStr s => Ok s
  | JList _ | JObj _ => Raise TypeError
  | _ => Ok EmptyString
  end.

(** The amount checks at deserialization (R30-001, R30-004) *)
Definition check_wire_amounts (t : string) (p : dict string JVal) : result unit :=
  let amt := jget p "amount" JNull in
  let ms := jget p "max_supply" JNull in
  guard (bool_decide (t ∈ ["TRANSFER"; "STAKE"; "DELEGATE"; "UNSTAKE"; "MINT_TOKEN"; "TRANSFER_TOKEN"])
         && negb (is_none amt) && (negb (is_int amt) || is_bool amt)) "payload amount must be an integer" (
  guard (bool_decide (t ∈ ["TRANSFER"; "STAKE"; "DELEGATE"; "UNSTAKE"; "MINT_TOKEN"; "TRANSFER_TOKEN"])
         && negb (is_none amt) && not_int_ge amt 1) "payload amount must be positive" (
  guard (bool_decide (t ∈ ["TRANSFER"; "STAKE"; "DELEGATE"; "UNSTAKE"; "MINT_TOKEN"; "TRANSFER_TOKEN"])
         && negb (is_none amt) && int_gt amt MAX_TX_AMOUNT) "payload amount exceeds MAX_TX_AMOUNT" (
  guard (bool_decide (t ∈ ["TRANSFER"; "STAKE"; "DELEGATE"; "MINT_TOKEN"])
         && int_gt (jget p "amount" (JInt 0)) MAX_SUPPLY) "amount exceeds MAX_SUPPLY" (
  guard (bool_decide (t = "ISSUE_TOKEN") && negb (is_none ms) && (negb (is_int ms) || is_bool ms))
    "payload max_supply must be an integer" (
  guard (bool_decide (t = "ISSUE_TOKEN") && negb (is_none ms) && not_int_ge ms 0)
    "payload max_supply must be non-negative" (
  guard (bool_decide (t = "ISSUE_TOKEN") && negb (is_none ms) && int_gt ms MAX_TX_AMOUNT)
    "payload max_supply exceeds MAX_TX_AMOUNT" (Ok tt))))))).

Definition fee_field (v : JVal) : result Z :=
  z ← int_field v "fee parameter must be non-negative int";
  guard (z <? 0)%Z "fee parameter must be non-negative int" (
  guard (MAX_FEE_PARAM <? z)%Z "fee parameter exceeds 2**63" (Ok z)).

Definition tx_from_dict (data : dict string JVal) : result Transaction :=
  ts ← int_field (jget data "timestamp" JNull) "timestamp must be int";
  from ← str_field (jget data "from" JNull) "from must be string";
  n ← int_field (jget data "nonce" (JInt 0)) "nonce must be int";
  match jget data "payload" JNull with
  | JObj p =>
      sig ← bytes_field (jget data "signature" (JStr EmptyString));
      spk ← bytes_field (jget data "sender_pubkey" (JStr EmptyString));
      guard (negb (is_empty spk) && negb (str_len spk =? 1952)%Z) "sender_pubkey wrong size" (
      cid ← str_field (jget data "chainId" (JStr EmptyString)) "chainId must be string";
      mfpw ← fee_field (jget data "maxFeePerWeight" (JInt 0));
      mpf ← fee_field (jget data "maxPriorityFee" (JInt 0));
      t ← type_field (jget data "type" (JStr EmptyString));
      _ ← check_wire_amounts t p;
      _ ← jindex data "type";
      tt ← tt_of_value t;
      rcp ← as_str (jget data "to" (JStr EmptyString));
      Ok (mkTx tt from rcp ts p sig spk n cid mfpw mpf))
  | _ => Raise (ValueError "payload must be dict")
  end.

Section Wire.
Context `{C : Crypto}.

Definition tx_to_dict (tx : Transaction) : dict string JVal :=
  [("id", JStr (tx_id tx)); ("type", JStr (tt_value (tx_type tx)));
   ("from", JStr (sender tx)); ("to", JStr (recipient tx));
   ("timestamp", JInt (timestamp tx)); ("payload", JObj (payload tx));
   ("nonce", JInt (nonce tx)); ("chainId", JStr (chain_id tx));
   ("maxFeePerWeight", JInt (max_fee_per_weight tx));
   ("maxPriorityFee", JInt (max_priority_fee tx));
   ("signature", JStr (hex (signature tx)));
   ("sender_pubkey", JStr (hex (sender_pubkey tx)))].
End Wire.

(** ** Factory methods

    [now] is [int(time.time())], the timestamp of a transaction created
    without one; the chain identifier is the default one. *)
Section Factories.
Context (now : Z) (snd : string) (n mfpw mpf : Z).

Definition fresh_tx (t : TxType) (rcp : string) (p : dict string JVal) : Transaction :=
  mkTx t snd rcp now p EmptyString EmptyString n CHAIN_ID mfpw mpf.

Definition mk_register_key (encryption_pk : string) : Transaction :=
  fresh_tx REGISTER_KEY EmptyString [("encryption_pk", JStr (hex encryption_pk))].
Definition mk_register_validator (validator_pubkey validator_address : string) : Transaction :=
  fresh_tx REGISTER_VALIDATOR EmptyString
    [("validator_pubkey", JStr (hex validator_pubkey));
     ("validator_address", JStr validator_address)].
Definition mk_notarize (document_hash metadata : string) : Transaction :=
  fresh_tx NOTARIZE EmptyString [("documentHash", JStr document_hash); ("metadata", JStr metadata)].
Definition mk_store (document_hash cid metadata : string) : Transaction :=
  fresh_tx STORE EmptyString
    [("documentHash", JStr document_hash); ("cid", JStr cid); ("metadata", JStr metadata)].
Definition mk_revoke_key (key_type reason : string) : Transaction :=
  fresh_tx REVOKE_KEY EmptyString [("key_type", JStr key_type); ("reason", JStr reason)].
Definition mk_share (rcp cid encapsulated_key : string) (expires : Z) : Transaction :=
  fresh_tx SHARE rcp [("cid", JStr cid); ("encapsulatedKey", JStr (hex encapsulated_key));
                      ("expires", JInt expires)].
Definition mk_stake (validator_address : string) (amount : Z) : Transaction :=
  fresh_tx STAKE EmptyString [("amount", JInt amount); ("validator_address", JStr validator_address)].
Definition mk_delegate (validator_address : string) (amount : Z) : Transaction :=
  fresh_tx DELEGATE EmptyString
    [("amount", JInt amount); ("validator_address", JStr validator_address)].
Definition mk_unstake (validator_address : string) (amount : Z) : Transaction :=
  fresh_tx UNSTAKE EmptyString
    [("amount", JInt amount); ("validator_address", JStr validator_address)].
(** [if memo: payload["memo"] = memo] *)
Definition with_memo (memo : string) (p : dict string JVal) : dict string JVal :=
  if is_empty memo then p else p ++ [("memo", JStr memo)].
Definition mk_transfer (rcp : string) (amount : Z) (memo : string) : Transaction :=
  fresh_tx TRANSFER rcp (with_memo memo [("amount", JInt amount)]).
Definition mk_evidence (validator_address : string) (block_index : Z)
    (a_hash b_hash a_sig b_sig a_header b_header : string) : Transaction :=
  fresh_tx EVIDENCE EmptyString
    [("evidence_type", JStr "double_sign"); ("block_a_hash", JStr a_hash);
     ("block_b_hash", JStr b_hash); ("block_a_sig", JStr a_sig); ("block_b_sig", JStr b_sig);
     ("block_a_header", JStr a_header); ("block_b_header", JStr b_header);
     ("block_index", JInt block_index); ("validator_address", JStr validator_address)].
Definition mk_issue_token (name symbol : string) (decimals max_supply : Z) (transferable : bool)
    : Transaction :=
  fresh_tx ISSUE_TOKEN EmptyString
    [("name", JStr name); ("symbol", JStr symbol); ("decimals", JInt decimals);
     ("max_supply", JInt max_supply); ("transferable", JBool transferable)].
Definition mk_mint_token (rcp token_id : string) (amount : Z) : Transaction :=
  fresh_tx MINT_TOKEN rcp [("token_id", JStr token_id); ("amount", JInt amount)].
Definition mk_transfer_token (rcp token_id : string) (amount : Z) (memo : string) : Transaction :=
  fresh_tx TRANSFER_TOKEN rcp
    (with_memo memo [("token_id", JStr token_id); ("amount", JInt amount)]).
End Factories.

(** ** Lemmas *)

Lemma refuse_if_accept c m v : refuse_if c m v = accept ↔ c = false ∧ v = accept.
Proof. unfold refuse_if, accept, reject. destruct c; naive_solver. Qed.
Lemma and_then_accept v1 v2 : and_then v1 v2 = accept ↔ v1 = accept ∧ v2 = accept.
Proof.
  unfold and_then, accept, reject. destruct v1 as [[m|]|e]; cbn; naive_solver.
Qed.

Lemma not_int_ge_false v n : not_int_ge v n = false ↔ ∃ z, as_Z v = Ok z ∧ n ≤ z.
Proof.
  unfold not_int_ge, int_val. destruct (as_Z v) as [z|e]; [|naive_solver].
  rewrite Z.ltb_ge. naive_solver.
Qed.
Lemma int_gt_false v n z : as_Z v = Ok z → int_gt v n = false ↔ z ≤ n.
Proof. unfold int_gt, int_val. intros ->. apply Z.ltb_ge. Qed.

Create HintDb payload.
Create Rewrite HintDb payload.
#[export] Hint Rewrite refuse_if_accept and_then_accept not_int_ge_false : payload.

Lemma jget_int_default p k d z : as_Z (jget p k JNull) = Ok z → jget_int p k d = Ok z.
Proof. unfold jget_int, jget, dget_or. by destruct (dget p k). Qed.
Lemma jindex_int_get p k z : as_Z (jget p k JNull) = Ok z → jindex_int p k = Ok z.
Proof. unfold jindex_int, jindex, jget, dget_or. by destruct (dget p k). Qed.

(** The types whose payload carries an amount, with the cap that applies *)
Definition amount_cap (t : TxType) : option Z :=
  match t with
  | TRANSFER | MINT_TOKEN | TRANSFER_TOKEN => Some MAX_SUPPLY
  | STAKE | DELEGATE | UNSTAKE => Some MAX_STAKE
  | _ => None
  end.

Lemma validate_staking_amount p :
  validate_staking p = accept →
  ∃ z v, as_Z (jget p "amount" JNull) = Ok z ∧ MIN_STAKE ≤ z ≤ MAX_STAKE ∧
         jget p "validator_address" (JStr EmptyString) = JStr v ∧ v ≠ EmptyString.
Proof.
  unfold validate_staking. autorewrite with payload.
  intros ((z & Hz & ?) & Hmax & Hv & _). rewrite (int_gt_false _ _ _ Hz) in Hmax.
  destruct (jget p "validator_address" _) as [|b|i|r|[|c v]|l|d] eqn:E; try done.
  by exists z, (String c v).
Qed.

Lemma validate_transfer_amount p s r :
  validate_transfer p s r = accept →
  ∃ z, as_Z (jget p "amount" JNull) = Ok z ∧ 1 ≤ z ≤ MAX_SUPPLY ∧
       r ≠ EmptyString ∧ r ≠ s ∧ valid_recipient r = true.
Proof.
  unfold validate_transfer. autorewrite with payload.
  intros ((z & Hz & ?) & Hmax & _ & Hr & Hs & Hv & _). rewrite (int_gt_false _ _ _ Hz) in Hmax.
  exists z. apply bool_decide_eq_false in Hs. apply negb_false_iff in Hv.
  split_and!; try done. by intros ->.
Qed.

Lemma validate_mint_amount p r :
  validate_mint_token p r = accept →
  ∃ z t, as_Z (jget p "amount" JNull) = Ok z ∧ 1 ≤ z ≤ MAX_SUPPLY ∧
    jget p "token_id" (JStr EmptyString) = JStr t ∧ t ≠ EmptyString ∧ valid_recipient r = true.
Proof.
  unfold validate_mint_token. autorewrite with payload.
  intros (Ht & (z & Hz & ?) & Hmax & Hr & Hv & _). rewrite (int_gt_false _ _ _ Hz) in Hmax.
  destruct (jget p "token_id" _) as [|b|i|f|t|l|d] eqn:E; try done.
  exists z, t. apply negb_false_iff in Hv. split_and!; try done. by intros ->.
Qed.

Lemma validate_transfer_token_amount p s r :
  validate_transfer_token p s r = accept →
  ∃ z t, as_Z (jget p "amount" JNull) = Ok z ∧ 1 ≤ z ≤ MAX_SUPPLY ∧
    jget p "token_id" (JStr EmptyString) = JStr t ∧ t ≠ EmptyString ∧ r ≠ s ∧
    valid_recipient r = true.
Proof.
  unfold validate_transfer_token. autorewrite with payload.
  intros (Ht & (z & Hz & ?) & Hmax & Hr & Hs & Hv & _). rewrite (int_gt_false _ _ _ Hz) in Hmax.
  destruct (jget p "token_id" _) as [|b|i|f|t|l|d] eqn:E; try done.
  exists z, t. apply negb_false_iff in Hv. apply bool_decide_eq_false in Hs.
  split_and!; try done. by intros ->.
Qed.

Lemma validate_payload_amount `{C : Crypto} tx cap :
  validate_payload tx = accept → amount_cap (tx_type tx) = Some cap →
  ∃ z, as_Z (jget (payload tx) "amount" JNull) = Ok z ∧ 1 ≤ z ≤ cap.
Proof.
  unfold validate_payload. rewrite and_then_accept. intros [_ H] Hcap.
  destruct (tx_type tx); try done; injection Hcap as <-.
  1-3: apply validate_staking_amount in H as (z & v & Hz & Hb & _); exists z;
    split; [done|unfold MIN_STAKE in *; lia].
  - apply validate_transfer_amount in H as (z & Hz & Hb & _). eauto.
  - apply validate_mint_amount in H as (z & t & Hz & Hb & _). eauto.
  - apply validate_transfer_token_amount in H as (z & t & Hz & Hb & _). eauto.
Qed.

(** *** The recipient format *)

Lemma prefix_split s : String.prefix ADDRESS_PREFIX s = true → s = ADDRESS_PREFIX +:+ str_drop 3 s.
Proof.
  unfold ADDRESS_PREFIX. destruct s as [|a [|b [|c s]]]; cbn [String.prefix];
    repeat destruct (ascii_dec _ _); try done.
  intros _. by subst.
Qed.
Lemma hex_re_run s : s ≠ EmptyString → is_hex NL = false → hex_re s = true ↔
  (run_to_end is_hex s = true ∧ s ≠ String NL EmptyString).
Proof.
  intros Hs _. destruct s as [|c s]; [done|]. unfold hex_re, re_plus. cbn [run_to_end].
  destruct (is_hex c) eqn:Hc; simpl.
  - split; [|tauto]. intros H. split; [done|]. intros [= -> ->]. done.
  - split; [done|]. intros [[->%bool_decide_eq_true He]%andb_prop H]. by destruct s.
Qed.

Lemma valid_recipient_spec r :
  valid_recipient r = true ↔
  ∃ h, all_chars is_hex h = true ∧
    ((r = ADDRESS_PREFIX +:+ h ∧ String.length h = 64%nat) ∨
     (r = ADDRESS_PREFIX +:+ h +:+ String NL EmptyString ∧ String.length h = 63%nat)).
Proof.
  unfold valid_recipient. rewrite !andb_true_iff, Z.eqb_eq. unfold str_len. split.
  - intros [[Hp Hl] Hh]. apply prefix_split in Hp. revert Hp Hl Hh.
    generalize (str_drop 3 r) as t. intros t -> Hl Hh. rewrite string_length_app in Hl. change (String.length ADDRESS_PREFIX) with 3%nat in Hl.
    assert (t ≠ EmptyString) as Hne by (by intros ->).
    apply hex_re_run in Hh as [Hrun _]; [|done..].
    apply run_to_end_spec in Hrun as (h & Hd & [-> | ->]); [..|done].
    + exists h. split; [done|left]. split; [done|lia].
    + exists h. split; [done|right]. split; [done|].
      rewrite string_length_app in Hl. simpl in Hl. lia.
  - intros (h & Hh & [[-> Hl]|[-> Hl]]).
    + assert (h ≠ EmptyString) by (by intros ->). split_and!.
      * by destruct h.
      * rewrite string_length_app, Hl. done.
      * change (str_drop 3 (ADDRESS_PREFIX +:+ h)) with h. apply hex_re_run; [done..|].
        split; [by apply run_to_end_all|]. intros ->. done.
    + split_and!.
      * by destruct h.
      * rewrite !string_length_app, Hl. done.
      * change (str_drop 3 (ADDRESS_PREFIX +:+ ?x)) with x. destruct h as [|c h]; [done|].
        apply hex_re_run; [done..|]. split; [|destruct h; [simpl in Hl; lia|done]].
        apply run_to_end_spec; [done|]. exists (String c h). auto.
Qed.

(** *** The signed bytes *)

Lemma norm_obj d : norm (JObj d) = JObj (sort_keys (List.map (λ kv, (kv.1, norm kv.2)) d)).
Proof. done. Qed.
Lemma signable_sorted v1 v2 v3 v4 v5 v6 v7 v8 v9 :
  let d := [("chainId", v1); ("from", v2); ("maxFeePerWeight", v3); ("maxPriorityFee", v4);
            ("nonce", v5); ("payload", v6); ("timestamp", v7); ("to", v8); ("type", v9)] in
  sort_keys d = d.
Proof. vm_compute. reflexivity. Qed.

Lemma signable_wf tx : wf (JObj (payload tx)) = true → wf (signable_obj tx) = true.
Proof.
  intros Hp. unfold signable_obj. cbn [wf forallb snd]. rewrite andb_true_r.
  apply andb_true_intro. split; [|exact Hp].
  vm_compute. reflexivity.
Qed.

(** ** Properties *)

(** C15 The bytes that are hashed and signed determine the transaction: two
    transactions with the same canonical bytes agree in every signed field,
    the payloads up to the order of dictionary keys.  So neither replaying a
    signature on another transaction nor two transactions with one canonical
    text is possible. *)
Theorem signable_bytes_injective (a b : Transaction)
  (Wa : wf (JObj (payload a)) = true) (Wb : wf (JObj (payload b)) = true)
  (H : signable_bytes a = signable_bytes b) :
  tx_type a = tx_type b ∧ sender a = sender b ∧ recipient a = recipient b ∧
  timestamp a = timestamp b ∧ nonce a = nonce b ∧ chain_id a = chain_id b ∧
  max_fee_per_weight a = max_fee_per_weight b ∧ max_priority_fee a = max_priority_fee b ∧
  norm (JObj (payload a)) = norm (JObj (payload b)).
Proof.
  apply dumps_inj in H; [|by apply signable_wf..].
  unfold signable_obj in H. rewrite (norm_obj [_; _; _; _; _; _; _; _; _]) in H.
  rewrite (norm_obj [("chainId", JStr (chain_id b)); _; _; _; _; _; _; _; _]) in H.
  cbn [List.map fst snd] in H. rewrite !signable_sorted in H.
  generalize dependent (norm (JObj (payload a))). generalize (norm (JObj (payload b))).
  intros pb pa H. cbn [norm] in H. injection H as ???????? Ht. apply (inj tt_value) in Ht.
  by split_and!.
Qed.

Definition sample_transfer : Transaction :=
  mk_transfer 1700000000 "qv1sender" 0 5 1 "qv1recipient" 25 "rent".

Lemma signable_bytes_injective_witness :
  nonce sample_transfer = nonce sample_transfer ∧
  norm (JObj (payload sample_transfer)) = norm (JObj (payload sample_transfer)).
Proof.
  destruct (signable_bytes_injective sample_transfer sample_transfer)
    as (_ & _ & _ & _ & Hn & _ & _ & _ & Hp); [vm_compute; reflexivity..|].
  exact (conj Hn Hp).
Defined.

(** A transaction whose payload [validate_payload] accepts carries, for the
    types that move value, an integer amount between 1 and the cap of its
    type; staking types name a validator, transfers a well-formed recipient
    that is not the sender. *)
Lemma validate_payload_value_bearing `{C : Crypto} (tx : Transaction) (cap : Z)
  (Hok : validate_payload tx = accept) (Hcap : amount_cap (tx_type tx) = Some cap) :
  (∃ z, jget_int (payload tx) "amount" 0 = Ok z ∧ 1 ≤ z ≤ cap) ∧
  (tx_type tx ∈ [STAKE; DELEGATE; UNSTAKE] →
     ∃ v, jget_str (payload tx) "validator_address" = Ok v ∧ v ≠ EmptyString) ∧
  (tx_type tx ∈ [TRANSFER; TRANSFER_TOKEN] → recipient tx ≠ sender tx) ∧
  (tx_type tx ∈ [TRANSFER; MINT_TOKEN; TRANSFER_TOKEN] → valid_recipient (recipient tx) = true).
Proof.
  split.
  { destruct (validate_payload_amount tx cap Hok Hcap) as (z & Hz & Hb).
    exists z. split; [by apply jget_int_default|done]. }
  unfold validate_payload in Hok. apply and_then_accept in Hok as [_ H].
  destruct (tx_type tx); try done.
  1-3: apply validate_staking_amount in H as (z & v & _ & _ & Hv & Hne);
    (split_and!; [intros _; exists v; unfold jget_str; by rewrite Hv|set_solver..]).
  - apply validate_transfer_amount in H as (z & _ & _ & _ & ? & ?). by split_and!; [set_solver|..].
  - apply validate_mint_amount in H as (z & t & _ & _ & _ & _ & ?).
    by split_and!; [set_solver..|].
  - apply validate_transfer_token_amount in H as (z & t & _ & _ & _ & _ & ? & ?).
    by split_and!; [set_solver|..].
Qed.

(** An address in the documented form: the prefix and 64 hexadecimal digits *)
Definition sample_address (c : ascii) : string :=
  ADDRESS_PREFIX +:+ hex (be_bytes 32 (Z.of_nat (ord c))).

(** The recipient check accepts exactly two shapes: [qv1] with 64
    hexadecimal digits (the address format) and, because [$] also matches
    before a final newline, [qv1] with 63 digits and a newline. *)
Lemma valid_recipient_exact (r : string) :
  valid_recipient r = true ↔
  ∃ h, all_chars is_hex h = true ∧
    ((r = ADDRESS_PREFIX +:+ h ∧ String.length h = 64%nat) ∨
     (r = ADDRESS_PREFIX +:+ h +:+ String NL EmptyString ∧ String.length h = 63%nat)).
Proof. apply valid_recipient_spec. Qed.

(** Every derived address passes the recipient check, and no accepted
    recipient of the newline shape is the address of any key: value sent
    there cannot be spent. *)
Lemma derived_address_is_recipient `{C : Crypto} `{!CryptoLaws C} (pk h : string) :
  valid_recipient (derive_address pk) = true ∧
  derive_address pk ≠ ADDRESS_PREFIX +:+ h +:+ String NL EmptyString.
Proof.
  split.
  - apply valid_recipient_spec. exists (hex (sha3_256 pk)). split; [apply hex_all_hex|left].
    split; [done|]. by rewrite hex_length, sha3_256_length.
  - intros H. apply string_app_inj_l in H.
    pose proof (hex_all_hex (sha3_256 pk)) as Hx. rewrite H in Hx. clear H.
    induction h as [|c h IH]; [done|]. rewrite string_app_cons in Hx. cbn [all_chars] in Hx.
    apply andb_prop in Hx as [_ Hx]. auto.
Qed.

(** The reserved-symbol check compares with [QBIT] only: a token whose
    symbol is [QBIT] followed by a newline passes validation. *)
Lemma reserved_symbol_bypass `{C : Crypto} (now n : Z) (s : string) :
  validate_payload (mk_issue_token now s n 0 0 "QBit" ("QBIT" +:+ String NL EmptyString) 9 0 true)
  = accept.
Proof. vm_compute. reflexivity. Qed.

(** Validation of evidence is not total: when the header text is
    hexadecimal but has an odd number of digits, [bytes.fromhex] raises
    ValueError out of [validate_payload] instead of a refusal. *)
Lemma validate_payload_raises_on_odd_header `{C : Crypto} (now n : Z) (s v : string) :
  validate_payload (mk_evidence now s n 0 0 v 7 "aa" "bb" "cc" "dd" "abc" "abc")
  = if (EVIDENCE_MAX_PAYLOAD <? str_len (dumps (JObj (payload
         (mk_evidence now s n 0 0 v 7 "aa" "bb" "cc" "dd" "abc" "abc")))))%Z
    then reject "payload too large"
    else Raise (ValueError "non-hexadecimal number found in fromhex() arg").
Proof.
  unfold validate_payload, and_then, validate_common, refuse_if.
  destruct (decide (tx_type _ = EVIDENCE)); [|done].
  destruct (_ <? _)%Z; reflexivity.
Qed.

(** What a transaction must satisfy to be read back from the wire *)
Definition wire_ok (tx : Transaction) : bool :=
  (is_empty (sender_pubkey tx) || (str_len (sender_pubkey tx) =? 1952)%Z) &&
  (0 <=? max_fee_per_weight tx)%Z && (max_fee_per_weight tx <=? MAX_FEE_PARAM)%Z &&
  (0 <=? max_priority_fee tx)%Z && (max_priority_fee tx <=? MAX_FEE_PARAM)%Z &&
  bool_decide (check_wire_amounts (tt_value (tx_type tx)) (payload tx) = Ok tt).

Lemma bytes_field_hex b : bytes_field (JStr (hex b)) = Ok b.
Proof. unfold bytes_field. cbn. by rewrite fromhex_hex. Qed.
Lemma fee_field_ok z : (0 <=? z)%Z = true → (z <=? MAX_FEE_PARAM)%Z = true → fee_field (JInt z) = Ok z.
Proof.
  rewrite !Z.leb_le. intros. unfold fee_field. cbn. unfold guard.
  destruct (Z.ltb_spec z 0); [lia|]. destruct (Z.ltb_spec MAX_FEE_PARAM z); [lia|done].
Qed.

Lemma tx_wire_ok `{C : Crypto} (tx : Transaction) (Hok : wire_ok tx = true) :
  tx_from_dict (tx_to_dict tx) = Ok tx.
Proof.
  unfold wire_ok in Hok. rewrite !andb_true_iff, bool_decide_eq_true in Hok.
  destruct Hok as [[[[[Hpk H1] H2] H3] H4] Ham].
  destruct tx as [t s r ts p sg pk n cid mf mp]. cbn in *. unfold tx_from_dict.
  set (d := tx_to_dict _).
  replace (jget d "timestamp" JNull) with (JInt ts) by reflexivity.
  replace (jget d "from" JNull) with (JStr s) by reflexivity.
  replace (jget d "nonce" (JInt 0)) with (JInt n) by reflexivity.
  replace (jget d "payload" JNull) with (JObj p) by reflexivity.
  replace (jget d "signature" (JStr EmptyString)) with (JStr (hex sg)) by reflexivity.
  replace (jget d "sender_pubkey" (JStr EmptyString)) with (JStr (hex pk)) by reflexivity.
  replace (jget d "chainId" (JStr EmptyString)) with (JStr cid) by reflexivity.
  replace (jget d "maxFeePerWeight" (JInt 0)) with (JInt mf) by reflexivity.
  replace (jget d "maxPriorityFee" (JInt 0)) with (JInt mp) by reflexivity.
  replace (jget d "type" (JStr EmptyString)) with (JStr (tt_value t)) by reflexivity.
  replace (jget d "to" (JStr EmptyString)) with (JStr r) by reflexivity.
  replace (jindex d "type") with (@Ok JVal (JStr (tt_value t))) by reflexivity.
  cbn [int_field str_field type_field as_str mbind result_bind].
  rewrite !bytes_field_hex. cbn [mbind result_bind].
  rewrite !fee_field_ok by done. cbn [mbind result_bind].
  rewrite Ham, tt_of_value_value. unfold guard.
  destruct (negb (is_empty pk) && negb (str_len pk =? 1952)%Z) eqn:E; [|done].
  rewrite <-negb_orb, Hpk in E. done.
Qed.

(** Wire round trip: reading the dictionary a transaction writes gives the
    transaction back, signature and key included. *)
Lemma tx_wire_roundtrip `{C : Crypto} (tx : Transaction) (Hok : wire_ok tx = true) :
  tx_from_dict (tx_to_dict tx) = Ok tx.
Proof. by apply tx_wire_ok. Qed.

Lemma tx_wire_roundtrip_witness :
  wire_ok sample_transfer = true ∧
  tx_from_dict (@tx_to_dict Toy.crypto sample_transfer) = Ok sample_transfer.
Proof. split; [vm_compute; reflexivity|]. apply (@tx_wire_roundtrip Toy.crypto). vm_compute. reflexivity. Defined.
