(* ===== verification/Fees.v ===== *)
(** * Dynamic fees

    [core/fees.py]: block weights, the base fee adjustment and the fee of a
    transaction (EIP-1559). *)
From S2P Require Import Prelude PyStr Json Config Transaction.
Open Scope Z_scope.

Definition tx_weight (tx_type : string) : Z := dget_or TX_WEIGHTS tx_type 0.
Definition weight_of (tx : Transaction) : Z := tx_weight (tt_value (tx_type tx)).

Definition effective_block_weight (txs : list Transaction) (validator_address : string) : Z :=
  zsum (weight_of <$> filter (λ tx, sender tx ≠ validator_address) txs).

Definition block_total_weight (txs : list Transaction) : Z := zsum (weight_of <$> txs).

Definition compute_base_fee (parent_base_fee parent_effective_weight target_weight : Z) : Z :=
  let new_fee :=
    if parent_effective_weight =? target_weight then parent_base_fee
    else if target_weight <? parent_effective_weight then
      let delta := parent_effective_weight - target_weight in
      let fee_delta := Z.max 1 (parent_base_fee * delta / target_weight / BASE_FEE_CHANGE_DENOM) in
      parent_base_fee + fee_delta
    else
      let delta := target_weight - parent_effective_weight in
      let fee_delta := parent_base_fee * delta / target_weight / BASE_FEE_CHANGE_DENOM in
      parent_base_fee - fee_delta in
  Z.max MIN_BASE_FEE (Z.min new_fee MAX_BASE_FEE).

(** The default target of the callers *)
Definition next_base_fee (parent_base_fee parent_effective_weight : Z) : Z :=
  compute_base_fee parent_base_fee parent_effective_weight TARGET_BLOCK_WEIGHT.

Definition compute_tx_fee (base_fee max_fee_per_weight max_priority_fee weight : Z) : Z :=
  if weight =? 0 then 0
  else
    let effective_priority := Z.max 0 (Z.min max_priority_fee (max_fee_per_weight - base_fee)) in
    (base_fee + effective_priority) * weight.

(** ** Lemmas *)

Lemma weight_of_nonneg tx : 0 <= weight_of tx.
Proof. unfold weight_of. destruct (tx_type tx); vm_compute; discriminate. Qed.

Lemma total_weight_split txs v :
  block_total_weight txs =
  effective_block_weight txs v + zsum (weight_of <$> filter (λ tx, sender tx = v) txs).
Proof.
  unfold block_total_weight, effective_block_weight.
  induction txs as [|tx txs IH]; [done|]. csimpl. rewrite IH, !filter_cons.
  repeat case_decide; csimpl; congruence || lia.
Qed.

Lemma zsum_fmap_nonneg {A} (f : A -> Z) l : (forall x, 0 <= f x) -> 0 <= zsum (f <$> l).
Proof. intros Hf. induction l as [|x l IH]; csimpl; [lia|]. specialize (Hf x). lia. Qed.

Lemma effective_weight_bounds txs v :
  0 <= effective_block_weight txs v <= block_total_weight txs.
Proof.
  rewrite (total_weight_split txs v). unfold effective_block_weight.
  pose proof (zsum_fmap_nonneg weight_of (filter (λ tx, sender tx ≠ v) txs) weight_of_nonneg).
  pose proof (zsum_fmap_nonneg weight_of (filter (λ tx, sender tx = v) txs) weight_of_nonneg).
  lia.
Qed.

Lemma compute_tx_fee_bounds b mf mp w :
  0 <= b -> 0 <= w -> b <= mf -> b * w <= compute_tx_fee b mf mp w <= mf * w.
Proof.
  intros. unfold compute_tx_fee. destruct (Z.eqb_spec w 0) as [->|]; [lia|].
  split; nia.
Qed.
Lemma compute_tx_fee_nonneg b mf mp w : 0 <= b -> 0 <= w -> 0 <= compute_tx_fee b mf mp w.
Proof.
  intros. unfold compute_tx_fee. destruct (Z.eqb_spec w 0); [lia|].
  apply Z.mul_nonneg_nonneg; lia.
Qed.

(** The adjustment terms of the base fee *)
Lemma fee_delta_le p d t :
  0 <= p -> 0 < t -> 0 <= d <= t -> 0 <= p * d / t / BASE_FEE_CHANGE_DENOM <= p / BASE_FEE_CHANGE_DENOM.
Proof.
  intros Hp Ht Hd. unfold BASE_FEE_CHANGE_DENOM. split.
  - apply Z.div_pos; [|lia]. apply Z.div_pos; nia.
  - apply Z.div_le_mono; [lia|]. apply Z.div_le_upper_bound; nia.
Qed.
Lemma fee_delta_mono p d d' t :
  0 <= p -> 0 < t -> d <= d' -> p * d / t / BASE_FEE_CHANGE_DENOM <= p * d' / t / BASE_FEE_CHANGE_DENOM.
Proof.
  intros. unfold BASE_FEE_CHANGE_DENOM. do 2 (apply Z.div_le_mono; [lia|]). nia.
Qed.

(** ** Properties *)

(** The base fee of the next block stays in [MIN_BASE_FEE, MAX_BASE_FEE]
    and moves by at most an eighth (or by one unit upwards) from the parent's,
    for any parent block within the weight limit; a block exactly on target
    leaves it unchanged. *)
Lemma base_fee_step (p w : Z)
  (Hp : MIN_BASE_FEE <= p <= MAX_BASE_FEE) (Hw : 0 <= w <= MAX_BLOCK_WEIGHT) :
  MIN_BASE_FEE <= next_base_fee p w <= MAX_BASE_FEE /\
  p - p / BASE_FEE_CHANGE_DENOM <= next_base_fee p w <= p + Z.max 1 (p / BASE_FEE_CHANGE_DENOM) /\
  (w = TARGET_BLOCK_WEIGHT -> next_base_fee p w = p).
Proof.
  assert (TARGET_BLOCK_WEIGHT = 10000000) as HT by reflexivity.
  unfold MIN_BASE_FEE, MAX_BASE_FEE, MAX_BLOCK_WEIGHT in *. unfold next_base_fee, compute_base_fee.
  pose proof (fee_delta_le p (w - TARGET_BLOCK_WEIGHT) TARGET_BLOCK_WEIGHT) as H1.
  pose proof (fee_delta_le p (TARGET_BLOCK_WEIGHT - w) TARGET_BLOCK_WEIGHT) as H2.
  rewrite HT in *. unfold MIN_BASE_FEE, MAX_BASE_FEE.
  assert (p / BASE_FEE_CHANGE_DENOM <= p) by (apply Z.div_le_upper_bound; unfold BASE_FEE_CHANGE_DENOM; lia).
  assert (0 <= p / BASE_FEE_CHANGE_DENOM) by (apply Z.div_pos; unfold BASE_FEE_CHANGE_DENOM; lia).
  assert (0 < p -> p / BASE_FEE_CHANGE_DENOM < p) by (intros; apply Z.div_lt; unfold BASE_FEE_CHANGE_DENOM; lia).
  destruct (Z.eqb_spec w 10000000); [lia|].
  destruct (Z.ltb_spec 10000000 w); lia.
Qed.

(** More weight in the parent block never lowers the next base fee. *)
Lemma base_fee_monotone (p w w' : Z) (Hp : 0 <= p) (Hw : w <= w') :
  next_base_fee p w <= next_base_fee p w'.
Proof.
  assert (TARGET_BLOCK_WEIGHT = 10000000) as HT by reflexivity.
  unfold next_base_fee, compute_base_fee. rewrite HT.
  assert (w - 10000000 <= w' - 10000000) as Hd by lia.
  assert (10000000 - w' <= 10000000 - w) as Hd' by lia.
  pose proof (fee_delta_mono p _ _ 10000000 Hp ltac:(lia) Hd) as H1.
  pose proof (fee_delta_mono p _ _ 10000000 Hp ltac:(lia) Hd') as H2.
  assert (w < 10000000 -> 0 <= p * (10000000 - w) / 10000000 / BASE_FEE_CHANGE_DENOM) as H3.
  { intros. unfold BASE_FEE_CHANGE_DENOM. apply Z.div_pos; [|lia]. apply Z.div_pos; nia. }
  revert H1 H2 H3.
  generalize (p * (w - 10000000) / 10000000 / BASE_FEE_CHANGE_DENOM).
  generalize (p * (w' - 10000000) / 10000000 / BASE_FEE_CHANGE_DENOM).
  generalize (p * (10000000 - w') / 10000000 / BASE_FEE_CHANGE_DENOM).
  generalize (p * (10000000 - w) / 10000000 / BASE_FEE_CHANGE_DENOM).
  intros d1 d2 d3 d4 H1 H2 H3.
  destruct (Z.eqb_spec w 10000000), (Z.eqb_spec w' 10000000);
    destruct (Z.ltb_spec 10000000 w), (Z.ltb_spec 10000000 w'); lia.
Qed.

(** The fee charged lies between the base fee and the sender's maximum per
    unit of weight whenever the sender offers at least the base fee, and the
    part above the base fee is at most the offered priority. *)
Lemma tx_fee_within_offer (b mf mp w : Z)
  (Hb : 0 <= b) (Hw : 0 <= w) (Hoffer : b <= mf) (Hmp : 0 <= mp) :
  b * w <= compute_tx_fee b mf mp w <= mf * w /\
  compute_tx_fee b mf mp w <= (b + mp) * w.
Proof.
  split; [by apply compute_tx_fee_bounds|].
  unfold compute_tx_fee. destruct (Z.eqb_spec w 0); nia.
Qed.

