(* ===== verification/Block.v ===== *)
(** * Blocks

    [core/block.py]: the record, the header bytes that are hashed and signed,
    transaction inclusion proofs and the wire dictionaries.  The Merkle root
    the constructor stores is a function of the transactions here.  As for
    transactions, integer and string fields have their types, and [from_dict]
    raises [TypeError] where the dictionary holds another type unchecked. *)
From S2P Require Import Prelude PyStr Json Config Crypto Wallet Transaction.
Open Scope Z_scope.

Record Block := mkBlock {
  index : Z;
  prev_hash : string;
  transactions : list Transaction;
  validator : string;
  blk_timestamp : Z;
  blk_signature : string;
  base_fee : Z;
  state_root : string;
  receipts_root : string;
}.
#[global] Instance Block_eq_dec : EqDecision Block.
Proof. solve_decision. Defined.

Section Block.
Context `{C : Crypto}.

(** [[bytes.fromhex(tx.tx_id) for tx in transactions]] *)
Definition tx_hashes (b : Block) : list string :=
  (λ tx, sha3_256 (signable_bytes tx)) <$> transactions b.
Definition blk_merkle_root (b : Block) : string := hex (merkle_root (tx_hashes b)).

Definition header_obj (b : Block) : JVal :=
  JObj ([("baseFee", JInt (base_fee b)); ("index", JInt (index b));
         ("merkleRoot", JStr (blk_merkle_root b)); ("prevHash", JStr (prev_hash b));
         ("timestamp", JInt (blk_timestamp b));
         ("txCount", JInt (Z.of_nat (length (transactions b))));
         ("validator", JStr (validator b))]
        ++ (if is_empty (receipts_root b) then [] else [("receiptsRoot", JStr (receipts_root b))])
        ++ (if is_empty (state_root b) then [] else [("stateRoot", JStr (state_root b))])).
Definition header_bytes (b : Block) : string := dumps (header_obj b).
Definition block_hash (b : Block) : string := hex (sha3_256 (header_bytes b)).

Definition set_signature (b : Block) (sig : string) : Block :=
  mkBlock (index b) (prev_hash b) (transactions b) (validator b) (blk_timestamp b) sig
          (base_fee b) (state_root b) (receipts_root b).
(** [block.state_root = sr; block.receipts_root = rr], header caches cleared *)
Definition stamp_roots (b : Block) (sr rr : string) : Block :=
  mkBlock (index b) (prev_hash b) (transactions b) (validator b) (blk_timestamp b)
          (blk_signature b) (base_fee b) sr rr.

Definition block_sign (b : Block) (signing_sk : string) : result Block :=
  sig ← MLDSA_sign signing_sk (header_bytes b); Ok (set_signature b sig).
Definition verify_signature (b : Block) (signing_pk : string) : bool :=
  MLDSA_verify signing_pk (header_bytes b) (blk_signature b).

Definition get_tx_proof (b : Block) (tx_index : Z) : list (string * bool) :=
  merkle_proof (tx_hashes b) tx_index.
Definition verify_tx_proof (b : Block) (tid : string) (proof : list (string * bool)) : result bool :=
  match fromhex tid, fromhex (blk_merkle_root b) with
  | Some leaf, Some root => Ok (verify_merkle_proof leaf proof root)
  | _, _ => Raise (ValueError "non-hexadecimal number found in fromhex() arg")
  end.

Definition to_header_dict (b : Block) : dict string JVal :=
  [("hash", JStr (block_hash b)); ("index", JInt (index b));
   ("timestamp", JInt (blk_timestamp b)); ("prevHash", JStr (prev_hash b));
   ("merkleRoot", JStr (blk_merkle_root b)); ("baseFee", JInt (base_fee b));
   ("stateRoot", JStr (state_root b)); ("receiptsRoot", JStr (receipts_root b));
   ("validator", JStr (validator b)); ("txCount", JInt (Z.of_nat (length (transactions b))));
   ("signature", JStr (hex (blk_signature b)))].

Definition block_to_dict (b : Block) : dict string JVal :=
  [("hash", JStr (block_hash b)); ("index", JInt (index b));
   ("timestamp", JInt (blk_timestamp b)); ("prevHash", JStr (prev_hash b));
   ("merkleRoot", JStr (blk_merkle_root b)); ("baseFee", JInt (base_fee b));
   ("stateRoot", JStr (state_root b)); ("receiptsRoot", JStr (receipts_root b));
   ("validator", JStr (validator b));
   ("transactions", JList ((λ tx, JObj (tx_to_dict tx)) <$> transactions b));
   ("signature", JStr (hex (blk_signature b)))].

(** [[Transaction.from_dict(t) for t in l]] *)
Fixpoint txs_from_list (l : list JVal) : result (list Transaction) :=
  match l with
  | [] => Ok []
  | v :: l' =>
      match v with
      | JObj d => tx ← tx_from_dict d; txs ← txs_from_list l'; Ok (tx :: txs)
      | _ => Raise TypeError
      end
  end.

Definition fee_wire (v : JVal) : result Z :=
  match v with
  | JInt z => guard (z <? 0) "baseFee must be non-negative" (Ok z)
  | _ => Raise (ValueError "baseFee must be an integer")
  end.

Definition block_from_dict (data : dict string JVal) : result Block :=
  idx ← int_field (jget data "index" JNull) "block index must be int";
  ts ← int_field (jget data "timestamp" JNull) "block timestamp must be int";
  bf ← fee_wire (jget data "baseFee" (JInt 0));
  txs ← match jget data "transactions" (JList []) with
        | JList l => txs_from_list l
        | _ => Raise TypeError
        end;
  prev ← jindex_str data "prevHash";
  v ← jget_str data "validator";
  sig_hex ← jget_str data "signature";
  match fromhex sig_hex with
  | None => Raise (ValueError "non-hexadecimal number found in fromhex() arg")
  | Some sig =>
      sr ← jget_str data "stateRoot";
      rr ← jget_str data "receiptsRoot";
      let block := mkBlock idx prev txs v ts sig bf sr rr in
      let claimed := jget data "hash" JNull in
      guard (truthy claimed && negb (bool_decide (claimed = JStr (block_hash block))))
        "block hash mismatch" (Ok block)
  end.

Definition zeros64 : string := hex (be_bytes 32 0).
(** [Block.genesis]; [now] is [int(time.time())] *)
Definition block_genesis (now : Z) (v : string) (txs : list Transaction) : Block :=
  mkBlock 0 zeros64 txs v now EmptyString 0 EmptyString EmptyString.

(** ** Lemmas *)

Lemma fee_wire_ok z : 0 <= z → fee_wire (JInt z) = Ok z.
Proof. intros. unfold fee_wire, guard. destruct (Z.ltb_spec z 0); [lia|done]. Qed.

Lemma txs_roundtrip txs :
  forallb wire_ok txs = true →
  txs_from_list ((λ tx, JObj (tx_to_dict tx)) <$> txs) = Ok txs.
Proof.
  induction txs as [|tx txs IH]; [done|]. cbn [forallb]. intros [Htx Htxs]%andb_prop.
  csimpl. rewrite tx_wire_ok by done. cbn. rewrite IH by done. done.
Qed.
End Block.

(** *** The header text determines the header *)

(** Header dictionaries in key order, with the optional roots *)
Definition sorted_header (bf i mr ph ts n v : JVal) (rr sr : list (string * JVal)) : dict string JVal :=
  [("baseFee", bf); ("index", i); ("merkleRoot", mr); ("prevHash", ph)] ++ rr ++ sr ++
  [("timestamp", ts); ("txCount", n); ("validator", v)].

Definition root_entry (k r : string) : list (string * JVal) :=
  if is_empty r then [] else [(k, JStr r)].

Lemma header_sorted `{C : Crypto} b :
  norm (header_obj b) =
  JObj (sorted_header (JInt (base_fee b)) (JInt (index b)) (JStr (blk_merkle_root b))
    (JStr (prev_hash b)) (JInt (blk_timestamp b)) (JInt (Z.of_nat (length (transactions b))))
    (JStr (validator b)) (root_entry "receiptsRoot" (receipts_root b))
    (root_entry "stateRoot" (state_root b))).
Proof.
  unfold header_obj, sorted_header, root_entry. rewrite norm_obj.
  generalize (blk_merkle_root b) (Z.of_nat (length (transactions b))). intros mr n.
  destruct (is_empty (receipts_root b)), (is_empty (state_root b)); vm_compute; reflexivity.
Qed.

Lemma header_wf `{C : Crypto} b : wf (header_obj b) = true.
Proof.
  unfold header_obj. generalize (blk_merkle_root b). intros mr.
  destruct (is_empty (receipts_root b)), (is_empty (state_root b)); vm_compute; reflexivity.
Qed.

Lemma header_bytes_inj `{C : Crypto} a b :
  header_bytes a = header_bytes b →
  index a = index b ∧ prev_hash a = prev_hash b ∧ blk_merkle_root a = blk_merkle_root b ∧
  blk_timestamp a = blk_timestamp b ∧ length (transactions a) = length (transactions b) ∧
  validator a = validator b ∧ base_fee a = base_fee b ∧ state_root a = state_root b ∧
  receipts_root a = receipts_root b.
Proof.
  intros H. apply dumps_inj in H; [|apply header_wf..]. rewrite !header_sorted in H.
  injection H as Hbf Hi Hm Hp H.
  assert (blk_timestamp a = blk_timestamp b ∧ length (transactions a) = length (transactions b) ∧
    validator a = validator b ∧ receipts_root a = receipts_root b ∧ state_root a = state_root b)
    as (? & ? & ? & ? & ?).
  { unfold root_entry in H.
    destruct (receipts_root a), (receipts_root b), (state_root a), (state_root b);
      simpl in H; injection H as ?; try done; simplify_eq; split_and!; try done; lia. }
  by split_and!.
Qed.

(** ** Properties *)

(** A block hash commits to the whole header and to every transaction of
    the block: two blocks with one header text have equal header fields, and
    unless a SHA3-256 collision is exhibited in their Merkle trees, every
    transaction hash of one block is among the hashes of the other. *)
Lemma block_header_commits `{C : Crypto} `{!CryptoLaws C} (a b : Block)
  (H : header_bytes a = header_bytes b) :
  index a = index b ∧ prev_hash a = prev_hash b ∧ blk_timestamp a = blk_timestamp b ∧
  validator a = validator b ∧ base_fee a = base_fee b ∧ state_root a = state_root b ∧
  receipts_root a = receipts_root b ∧ length (transactions a) = length (transactions b) ∧
  ∀ n h, tx_hashes a !! n = Some h →
    h ∈ tx_hashes b ∨
    is_collision (forged_at (build_tree (tx_hashes b)) h
      (reverse (merkle_proof (tx_hashes a) (Z.of_nat n)))).
Proof.
  apply header_bytes_inj in H as (? & ? & Hm & ? & Hl & ? & ? & ? & ?). split_and!; try done.
  intros n h Hn. pose proof (merkle_proof_complete _ _ _ Hn) as Hv.
  apply (inj hex) in Hm. rewrite Hm in Hv.
  assert (tx_hashes b ≠ []) as Hne.
  { unfold tx_hashes in *. destruct (transactions b); [|done].
    destruct (transactions a); [done|done]. }
  by apply verify_merkle_inv.
Qed.

Definition sample_block : Block :=
  mkBlock 7 "prev" [sample_transfer] "qv1validator" 1700000100 EmptyString 10 "aa" EmptyString.

Lemma block_header_commits_witness :
  @header_bytes Toy.crypto sample_block = @header_bytes Toy.crypto sample_block ∧
  index sample_block = index sample_block.
Proof. split; [reflexivity|]. by apply (@block_header_commits Toy.crypto Toy.laws). Defined.

(** Wire round trip of blocks: reading the dictionary a block writes gives
    the block back; in particular the recomputed hash equals the claimed one. *)
Lemma block_wire_roundtrip `{C : Crypto} (b : Block)
  (Htxs : forallb wire_ok (transactions b) = true) (Hbf : 0 <= base_fee b) :
  block_from_dict (block_to_dict b) = Ok b.
Proof.
  destruct b as [i ph txs v ts sg bf sr rr]. cbn in Htxs, Hbf. unfold block_from_dict.
  set (b := mkBlock i ph txs v ts sg bf sr rr). set (d := block_to_dict b).
  replace (jget d "index" JNull) with (JInt i) by reflexivity.
  replace (jget d "timestamp" JNull) with (JInt ts) by reflexivity.
  replace (jget d "baseFee" (JInt 0)) with (JInt bf) by reflexivity.
  replace (jget d "transactions" (JList []))
    with (JList ((λ tx, JObj (tx_to_dict tx)) <$> txs)) by reflexivity.
  replace (jindex_str d "prevHash") with (@Ok string ph) by reflexivity.
  replace (jget_str d "validator") with (@Ok string v) by reflexivity.
  replace (jget_str d "signature") with (@Ok string (hex sg)) by reflexivity.
  replace (jget_str d "stateRoot") with (@Ok string sr) by reflexivity.
  replace (jget_str d "receiptsRoot") with (@Ok string rr) by reflexivity.
  replace (jget d "hash" JNull) with (JStr (block_hash b)) by reflexivity.
  rewrite fee_wire_ok by done. cbn [int_field mbind result_bind].
  rewrite txs_roundtrip by done. cbn [mbind result_bind]. rewrite fromhex_hex.
  cbn [mbind result_bind]. unfold guard. rewrite bool_decide_eq_true_2 by done.
  by rewrite andb_false_r.
Qed.

