(* ===== verification/Receipt.v ===== *)
(** * Transaction receipts and events

    [core/receipt.py]: the receipt record with the checks of its constructor,
    its hash, and the Merkle commitment to the receipts of a block. *)
From S2P Require Import Prelude PyStr Json Config Crypto Transaction.
Open Scope Z_scope.

Definition event := dict string JVal.

(** [build_event(event_type, **kwargs)] *)
Definition build_event (event_type : string) (kwargs : dict string JVal) : event :=
  foldl (λ e kv, dset e kv.1 kv.2) [("type", JStr event_type)] kwargs.
(** [ev.get("type", "")] *)
Definition event_type_of (e : event) : string :=
  match jget e "type" (JStr EmptyString) with JStr s => s | _ => EmptyString end.

Record Receipt := mkReceipt {
  r_tx_id : string;
  r_status : string;
  r_fee_paid : Z;
  r_block_index : Z;
  r_tx_index : Z;
  r_events : list event;
}.

(** [TransactionReceipt(...)] *)
Definition new_receipt (tid status : string) (fee block_index tx_index : Z) (events : list event)
    : result Receipt :=
  guard (is_empty tid) "tx_id must be a non-empty string" (
  guard (negb (bool_decide (status ∈ ["success"; "failure"]))) "status must be 'success' or 'failure'" (
  guard (fee <? 0) "fee_paid must be a non-negative integer" (
  guard (block_index <? 0) "block_index must be a non-negative integer" (
  guard (tx_index <? 0) "tx_index must be a non-negative integer" (
  Ok (mkReceipt tid status fee block_index tx_index events)))))).

Section Receipt.
Context `{C : Crypto}.

Definition receipt_obj (r : Receipt) : JVal :=
  JObj [("blockIndex", JInt (r_block_index r)); ("events", JList (JObj <$> r_events r));
        ("feePaid", JInt (r_fee_paid r)); ("status", JStr (r_status r));
        ("txId", JStr (r_tx_id r)); ("txIndex", JInt (r_tx_index r))].
Definition receipt_digest (r : Receipt) : string := sha3_256 (dumps (receipt_obj r)).
Definition receipt_hash (r : Receipt) : string := hex (receipt_digest r).

Definition receipt_to_dict (r : Receipt) : dict string JVal :=
  [("tx_id", JStr (r_tx_id r)); ("status", JStr (r_status r)); ("fee_paid", JInt (r_fee_paid r));
   ("block_index", JInt (r_block_index r)); ("tx_index", JInt (r_tx_index r));
   ("events", JList (JObj <$> r_events r)); ("receipt_hash", JStr (receipt_hash r))].

Fixpoint events_from (l : list JVal) : result (list event) :=
  match l with
  | [] => Ok []
  | JObj d :: l' => es ← events_from l'; Ok (d :: es)
  | _ :: _ => Raise TypeError
  end.

Definition receipt_from_dict (data : dict string JVal) : result Receipt :=
  tid ← jindex_str data "tx_id";
  status ← jindex_str data "status";
  fee ← jindex_int data "fee_paid";
  bi ← jindex_int data "block_index";
  ti ← jindex_int data "tx_index";
  events ← match jget data "events" (JList []) with
           | JList l => events_from l
           | _ => Raise (ValueError "events must be a list")
           end;
  new_receipt tid status fee bi ti events.

Definition receipts_root_of (receipts : list Receipt) : string :=
  match receipts with
  | [] => hex (be_bytes 32 0)
  | _ => hex (merkle_root (receipt_digest <$> receipts))
  end.

Definition receipt_proof (receipts : list Receipt) (tx_index : Z) : list (string * bool) :=
  if (tx_index <? 0) || (Z.of_nat (length receipts) <=? tx_index) then []
  else merkle_proof (receipt_digest <$> receipts) tx_index.

Definition verify_receipt_proof (rhash : string) (proof : list (string * bool)) (root : string)
    : result bool :=
  match fromhex rhash, fromhex root with
  | Some leaf, Some rt => Ok (verify_merkle_proof leaf proof rt)
  | _, _ => Raise (ValueError "non-hexadecimal number found in fromhex() arg")
  end.

Lemma new_receipt_ok tid status fee bi ti events r :
  new_receipt tid status fee bi ti events = Ok r →
  r = mkReceipt tid status fee bi ti events ∧ tid ≠ EmptyString ∧
  status ∈ ["success"; "failure"] ∧ 0 <= fee ∧ 0 <= bi ∧ 0 <= ti.
Proof.
  unfold new_receipt, guard.
  destruct (is_empty tid) eqn:Ht; [done|]. case_bool_decide as Hs; [|done]. simpl.
  destruct (Z.ltb_spec fee 0), (Z.ltb_spec bi 0), (Z.ltb_spec ti 0); try done.
  intros [= <-]. split_and!; try done. by intros ->.
Qed.
Lemma events_from_obj es : events_from (JObj <$> es) = Ok es.
Proof. induction es as [|e es IH]; [done|]. csimpl. by rewrite IH. Qed.
End Receipt.

(** ** Properties *)

(** Every receipt of a block has a proof against the receipts root, and a
    receipt that the constructor accepts is read back from its dictionary. *)
Lemma receipt_proof_complete `{C : Crypto} (receipts : list Receipt) (n : nat) (r : Receipt)
  (Hr : receipts !! n = Some r) :
  verify_receipt_proof (receipt_hash r) (receipt_proof receipts (Z.of_nat n))
    (receipts_root_of receipts) = Ok true ∧
  (new_receipt (r_tx_id r) (r_status r) (r_fee_paid r) (r_block_index r) (r_tx_index r) (r_events r)
     = Ok r → receipt_from_dict (receipt_to_dict r) = Ok r).
Proof.
  pose proof (lookup_lt_Some _ _ _ Hr) as Hlt. split.
  - unfold verify_receipt_proof, receipt_hash, receipts_root_of, receipt_proof.
    destruct (Z.ltb_spec (Z.of_nat n) 0); [lia|].
    destruct (Z.leb_spec (Z.of_nat (length receipts)) (Z.of_nat n)); [lia|]. simpl orb.
    destruct receipts as [|r0 l]; [done|]. rewrite !fromhex_hex. f_equal.
    apply merkle_proof_complete. by rewrite list_lookup_fmap, Hr.
  - intros Hok. destruct r as [tid st fee bi ti es]. unfold receipt_from_dict.
    set (d := receipt_to_dict _).
    replace (jindex_str d "tx_id") with (@Ok string tid) by reflexivity.
    replace (jindex_str d "status") with (@Ok string st) by reflexivity.
    replace (jindex_int d "fee_paid") with (@Ok Z fee) by reflexivity.
    replace (jindex_int d "block_index") with (@Ok Z bi) by reflexivity.
    replace (jindex_int d "tx_index") with (@Ok Z ti) by reflexivity.
    replace (jget d "events" (JList [])) with (JList (JObj <$> es)) by reflexivity.
    cbn [mbind result_bind]. rewrite events_from_obj. exact Hok.
Qed.

