(* ===== verification/ChainState.v ===== *)
(** * The state of a chain

    [Blockchain.__init__] of [core/blockchain.py]: one record per group of
    attributes, all of them together in [Chain], and the read-only queries of
    [core/query.py] the other components use.  Dictionaries whose iteration
    order is observed ([_stakes], [_receipts]) are insertion-ordered. *)
From S2P Require Import Prelude PyStr Json Config Crypto StateTrie Wallet Transaction Fees Block Receipt.
Open Scope Z_scope.

(** ** Entries *)

Record Unbonding := mkUnbonding {
  ub_staker : string; ub_validator : string; ub_amount : Z; ub_release : Z }.
Record SlashEvent := mkSlash {
  sl_validator : string; sl_tx_id : string; sl_amount : Z; sl_block : Z }.
Record Distribution := mkDist { d_credits : list (string * Z); d_debits : list (string * Z) }.
Record Revocation := mkRevocation { rv_tx_id : string; rv_timestamp : Z; rv_reason : string }.
Record Token := mkToken {
  tk_issuer : string; tk_name : string; tk_symbol : string; tk_decimals : Z;
  tk_max_supply : Z; tk_total_minted : Z; tk_transferable : bool;
  tk_created_block : Z; tk_created_tx : string }.
#[global] Instance Unbonding_eq_dec : EqDecision Unbonding.
Proof. solve_decision. Defined.
#[global] Instance Token_eq_dec : EqDecision Token.
Proof. solve_decision. Defined.
Definition with_minted (f : Z → Z) (t : Token) : Token :=
  mkToken (tk_issuer t) (tk_name t) (tk_symbol t) (tk_decimals t) (tk_max_supply t)
    (f (tk_total_minted t)) (tk_transferable t) (tk_created_block t) (tk_created_tx t).

(** ** The components *)

(** Balances and supply ([core/ledger.py]) *)
Record Ledger := mkLedger {
  balances : gmap string Z;
  total_minted : Z;
  total_burned : Z;
  financial_active : bool;
  epoch_rewards : gmap string Z;
  validator_commission : gmap string Z;
  last_epoch_distributions : gmap Z Distribution;
}.
#[export] Instance set_balances : Setter balances := λ f x, mkLedger (f (balances x))
  (total_minted x) (total_burned x) (financial_active x) (epoch_rewards x) (validator_commission
  x) (last_epoch_distributions x).
#[export] Instance set_total_minted : Setter total_minted := λ f x, mkLedger (balances x) (f
  (total_minted x)) (total_burned x) (financial_active x) (epoch_rewards x) (validator_commission
  x) (last_epoch_distributions x).
#[export] Instance set_total_burned : Setter total_burned := λ f x, mkLedger (balances x)
  (total_minted x) (f (total_burned x)) (financial_active x) (epoch_rewards x)
  (validator_commission x) (last_epoch_distributions x).
#[export] Instance set_financial_active : Setter financial_active := λ f x, mkLedger (balances x)
  (total_minted x) (total_burned x) (f (financial_active x)) (epoch_rewards x)
  (validator_commission x) (last_epoch_distributions x).
#[export] Instance set_epoch_rewards : Setter epoch_rewards := λ f x, mkLedger (balances x)
  (total_minted x) (total_burned x) (financial_active x) (f (epoch_rewards x))
  (validator_commission x) (last_epoch_distributions x).
#[export] Instance set_validator_commission : Setter validator_commission := λ f x, mkLedger
  (balances x) (total_minted x) (total_burned x) (financial_active x) (epoch_rewards x) (f
  (validator_commission x)) (last_epoch_distributions x).
#[export] Instance set_last_epoch_distributions : Setter last_epoch_distributions := λ f x,
  mkLedger (balances x) (total_minted x) (total_burned x) (financial_active x) (epoch_rewards x)
  (validator_commission x) (f (last_epoch_distributions x)).
Definition empty_Ledger : Ledger := mkLedger ∅ 0 0 false ∅ ∅ ∅.

(** Stakes, epochs and slashing ([core/staking.py]) *)
Record Staking := mkStaking {
  stakes : dict string (dict string Z);
  total_stake : gmap string Z;
  unbonding : list Unbonding;
  current_epoch : Z;
  epoch_validators : list (string * Z);
  epochs : gmap Z (list (string * Z));
  slashed_validators : gset string;
  slashing_events : list SlashEvent;
  processed_evidence : gset string;
}.
#[export] Instance set_stakes : Setter stakes := λ f x, mkStaking (f (stakes x)) (total_stake x)
  (unbonding x) (current_epoch x) (epoch_validators x) (epochs x) (slashed_validators x)
  (slashing_events x) (processed_evidence x).
#[export] Instance set_total_stake : Setter total_stake := λ f x, mkStaking (stakes x) (f
  (total_stake x)) (unbonding x) (current_epoch x) (epoch_validators x) (epochs x)
  (slashed_validators x) (slashing_events x) (processed_evidence x).
#[export] Instance set_unbonding : Setter unbonding := λ f x, mkStaking (stakes x) (total_stake x)
  (f (unbonding x)) (current_epoch x) (epoch_validators x) (epochs x) (slashed_validators x)
  (slashing_events x) (processed_evidence x).
#[export] Instance set_current_epoch : Setter current_epoch := λ f x, mkStaking (stakes x)
  (total_stake x) (unbonding x) (f (current_epoch x)) (epoch_validators x) (epochs x)
  (slashed_validators x) (slashing_events x) (processed_evidence x).
#[export] Instance set_epoch_validators : Setter epoch_validators := λ f x, mkStaking (stakes x)
  (total_stake x) (unbonding x) (current_epoch x) (f (epoch_validators x)) (epochs x)
  (slashed_validators x) (slashing_events x) (processed_evidence x).
#[export] Instance set_epochs : Setter epochs := λ f x, mkStaking (stakes x) (total_stake x)
  (unbonding x) (current_epoch x) (epoch_validators x) (f (epochs x)) (slashed_validators x)
  (slashing_events x) (processed_evidence x).
#[export] Instance set_slashed_validators : Setter slashed_validators := λ f x, mkStaking (stakes
  x) (total_stake x) (unbonding x) (current_epoch x) (epoch_validators x) (epochs x) (f
  (slashed_validators x)) (slashing_events x) (processed_evidence x).
#[export] Instance set_slashing_events : Setter slashing_events := λ f x, mkStaking (stakes x)
  (total_stake x) (unbonding x) (current_epoch x) (epoch_validators x) (epochs x)
  (slashed_validators x) (f (slashing_events x)) (processed_evidence x).
#[export] Instance set_processed_evidence : Setter processed_evidence := λ f x, mkStaking (stakes
  x) (total_stake x) (unbonding x) (current_epoch x) (epoch_validators x) (epochs x)
  (slashed_validators x) (slashing_events x) (f (processed_evidence x)).
Definition empty_Staking : Staking := mkStaking [] ∅ [] 0 [] ∅ ∅ [] ∅.

(** Multi-asset tokens *)
Record Tokens := mkTokens {
  token_registry : gmap string Token;
  token_balances : gmap (string * string) Z;
  token_by_symbol : gmap string string;
  holders_by_token : gmap string (gset string);
  tokens_by_address : gmap string (gset string);
}.
#[export] Instance set_token_registry : Setter token_registry := λ f x, mkTokens (f
  (token_registry x)) (token_balances x) (token_by_symbol x) (holders_by_token x)
  (tokens_by_address x).
#[export] Instance set_token_balances : Setter token_balances := λ f x, mkTokens (token_registry
  x) (f (token_balances x)) (token_by_symbol x) (holders_by_token x) (tokens_by_address x).
#[export] Instance set_token_by_symbol : Setter token_by_symbol := λ f x, mkTokens (token_registry
  x) (token_balances x) (f (token_by_symbol x)) (holders_by_token x) (tokens_by_address x).
#[export] Instance set_holders_by_token : Setter holders_by_token := λ f x, mkTokens
  (token_registry x) (token_balances x) (token_by_symbol x) (f (holders_by_token x))
  (tokens_by_address x).
#[export] Instance set_tokens_by_address : Setter tokens_by_address := λ f x, mkTokens
  (token_registry x) (token_balances x) (token_by_symbol x) (holders_by_token x) (f
  (tokens_by_address x)).
Definition empty_Tokens : Tokens := mkTokens ∅ ∅ ∅ ∅ ∅.

(** The transaction pool *)
Record Pool := mkPool {
  tx_pool : list Transaction;
  pool_ids : gset string;
  pool_sender_count : gmap string Z;
  pending_debits_cache : gmap string Z;
  pool_type_counts : gmap string Z;
}.
#[export] Instance set_tx_pool : Setter tx_pool := λ f x, mkPool (f (tx_pool x)) (pool_ids x)
  (pool_sender_count x) (pending_debits_cache x) (pool_type_counts x).
#[export] Instance set_pool_ids : Setter pool_ids := λ f x, mkPool (tx_pool x) (f (pool_ids x))
  (pool_sender_count x) (pending_debits_cache x) (pool_type_counts x).
#[export] Instance set_pool_sender_count : Setter pool_sender_count := λ f x, mkPool (tx_pool x)
  (pool_ids x) (f (pool_sender_count x)) (pending_debits_cache x) (pool_type_counts x).
#[export] Instance set_pending_debits_cache : Setter pending_debits_cache := λ f x, mkPool
  (tx_pool x) (pool_ids x) (pool_sender_count x) (f (pending_debits_cache x)) (pool_type_counts
  x).
#[export] Instance set_pool_type_counts : Setter pool_type_counts := λ f x, mkPool (tx_pool x)
  (pool_ids x) (pool_sender_count x) (pending_debits_cache x) (f (pool_type_counts x)).
Definition empty_Pool : Pool := mkPool [] ∅ ∅ ∅ ∅.

(** Lookup indices, nonces and notarizations *)
Record Index := mkIndex {
  block_by_hash : gmap string Z;
  tx_by_id : gmap string (Z * Z);
  txs_by_sender : gmap string (list string);
  txs_by_recipient : gmap string (list string);
  notarizations : gmap string string;
  notarizations_by_hash : gmap string (list string);
  notarization_count : gmap string Z;
  sender_nonce : gmap string Z;
}.
#[export] Instance set_block_by_hash : Setter block_by_hash := λ f x, mkIndex (f (block_by_hash
  x)) (tx_by_id x) (txs_by_sender x) (txs_by_recipient x) (notarizations x) (notarizations_by_hash
  x) (notarization_count x) (sender_nonce x).
#[export] Instance set_tx_by_id : Setter tx_by_id := λ f x, mkIndex (block_by_hash x) (f (tx_by_id
  x)) (txs_by_sender x) (txs_by_recipient x) (notarizations x) (notarizations_by_hash x)
  (notarization_count x) (sender_nonce x).
#[export] Instance set_txs_by_sender : Setter txs_by_sender := λ f x, mkIndex (block_by_hash x)
  (tx_by_id x) (f (txs_by_sender x)) (txs_by_recipient x) (notarizations x) (notarizations_by_hash
  x) (notarization_count x) (sender_nonce x).
#[export] Instance set_txs_by_recipient : Setter txs_by_recipient := λ f x, mkIndex (block_by_hash
  x) (tx_by_id x) (txs_by_sender x) (f (txs_by_recipient x)) (notarizations x)
  (notarizations_by_hash x) (notarization_count x) (sender_nonce x).
#[export] Instance set_notarizations : Setter notarizations := λ f x, mkIndex (block_by_hash x)
  (tx_by_id x) (txs_by_sender x) (txs_by_recipient x) (f (notarizations x)) (notarizations_by_hash
  x) (notarization_count x) (sender_nonce x).
#[export] Instance set_notarizations_by_hash : Setter notarizations_by_hash := λ f x, mkIndex
  (block_by_hash x) (tx_by_id x) (txs_by_sender x) (txs_by_recipient x) (notarizations x) (f
  (notarizations_by_hash x)) (notarization_count x) (sender_nonce x).
#[export] Instance set_notarization_count : Setter notarization_count := λ f x, mkIndex
  (block_by_hash x) (tx_by_id x) (txs_by_sender x) (txs_by_recipient x) (notarizations x)
  (notarizations_by_hash x) (f (notarization_count x)) (sender_nonce x).
#[export] Instance set_sender_nonce : Setter sender_nonce := λ f x, mkIndex (block_by_hash x)
  (tx_by_id x) (txs_by_sender x) (txs_by_recipient x) (notarizations x) (notarizations_by_hash x)
  (notarization_count x) (f (sender_nonce x)).
Definition empty_Index : Index := mkIndex ∅ ∅ ∅ ∅ ∅ ∅ ∅ ∅.

(** Key and validator registries *)
Record Keys := mkKeys {
  key_registry : gmap string string;
  key_history : gmap string (list string);
  validator_registry : gmap string string;
  revoked_keys : gmap string Revocation;
}.
#[export] Instance set_key_registry : Setter key_registry := λ f x, mkKeys (f (key_registry x))
  (key_history x) (validator_registry x) (revoked_keys x).
#[export] Instance set_key_history : Setter key_history := λ f x, mkKeys (key_registry x) (f
  (key_history x)) (validator_registry x) (revoked_keys x).
#[export] Instance set_validator_registry : Setter validator_registry := λ f x, mkKeys
  (key_registry x) (key_history x) (f (validator_registry x)) (revoked_keys x).
#[export] Instance set_revoked_keys : Setter revoked_keys := λ f x, mkKeys (key_registry x)
  (key_history x) (validator_registry x) (f (revoked_keys x)).
Definition empty_Keys : Keys := mkKeys ∅ ∅ ∅ ∅.

(** The state of [ProofOfAuthority]; its nonces, revocations and validator set are the chain's *)
Record Consensus := mkConsensus {
  validators : gmap string string;
  genesis_hash : string;
  chain_tx_ids : gset string;
}.
#[export] Instance set_validators : Setter validators := λ f x, mkConsensus (f (validators x))
  (genesis_hash x) (chain_tx_ids x).
#[export] Instance set_genesis_hash : Setter genesis_hash := λ f x, mkConsensus (validators x) (f
  (genesis_hash x)) (chain_tx_ids x).
#[export] Instance set_chain_tx_ids : Setter chain_tx_ids := λ f x, mkConsensus (validators x)
  (genesis_hash x) (f (chain_tx_ids x)).
Definition empty_Consensus : Consensus := mkConsensus ∅ EmptyString ∅.

(** Receipts, events and finality *)
Record Receipts := mkReceipts {
  receipts : dict string Receipt;
  events_by_type : gmap string (list string);
  events_by_block : gmap Z (list string);
  block_level_events : gmap Z (list event);
  finalized_height : Z;
}.
#[export] Instance set_receipts : Setter receipts := λ f x, mkReceipts (f (receipts x))
  (events_by_type x) (events_by_block x) (block_level_events x) (finalized_height x).
#[export] Instance set_events_by_type : Setter events_by_type := λ f x, mkReceipts (receipts x) (f
  (events_by_type x)) (events_by_block x) (block_level_events x) (finalized_height x).
#[export] Instance set_events_by_block : Setter events_by_block := λ f x, mkReceipts (receipts x)
  (events_by_type x) (f (events_by_block x)) (block_level_events x) (finalized_height x).
#[export] Instance set_block_level_events : Setter block_level_events := λ f x, mkReceipts
  (receipts x) (events_by_type x) (events_by_block x) (f (block_level_events x)) (finalized_height
  x).
#[export] Instance set_finalized_height : Setter finalized_height := λ f x, mkReceipts (receipts
  x) (events_by_type x) (events_by_block x) (block_level_events x) (f (finalized_height x)).
Definition empty_Receipts : Receipts := mkReceipts [] ∅ ∅ ∅ (-1).

(** The state trie, its snapshots and the roots computed last *)
Record Trie := mkTrie {
  state_trie : gmap string string;
  state_snapshots : gmap Z (gmap string string);
  last_state_root : option string;
  last_receipts_root : option string;
}.
#[export] Instance set_state_trie : Setter state_trie := λ f x, mkTrie (f (state_trie x))
  (state_snapshots x) (last_state_root x) (last_receipts_root x).
#[export] Instance set_state_snapshots : Setter state_snapshots := λ f x, mkTrie (state_trie x) (f
  (state_snapshots x)) (last_state_root x) (last_receipts_root x).
#[export] Instance set_last_state_root : Setter last_state_root := λ f x, mkTrie (state_trie x)
  (state_snapshots x) (f (last_state_root x)) (last_receipts_root x).
#[export] Instance set_last_receipts_root : Setter last_receipts_root := λ f x, mkTrie (state_trie
  x) (state_snapshots x) (last_state_root x) (f (last_receipts_root x)).
Definition empty_Trie : Trie := mkTrie ∅ ∅ None None.

(** The object [Blockchain] in memory mode ([_store] is [None]) *)
Record Chain := mkChain {
  chain_list : list Block;
  latest_block : option Block;
  height : Z;
  pool : Pool;
  idx : Index;
  keys : Keys;
  staking : Staking;
  ledger : Ledger;
  tokens : Tokens;
  trie : Trie;
  recs : Receipts;
  cons : Consensus;
}.
#[export] Instance set_chain_list : Setter chain_list := λ f x, mkChain (f (chain_list x))
  (latest_block x) (height x) (pool x) (idx x) (keys x) (staking x) (ledger x) (tokens x) (trie x)
  (recs x) (cons x).
#[export] Instance set_latest_block : Setter latest_block := λ f x, mkChain (chain_list x) (f
  (latest_block x)) (height x) (pool x) (idx x) (keys x) (staking x) (ledger x) (tokens x) (trie
  x) (recs x) (cons x).
#[export] Instance set_height : Setter height := λ f x, mkChain (chain_list x) (latest_block x) (f
  (height x)) (pool x) (idx x) (keys x) (staking x) (ledger x) (tokens x) (trie x) (recs x) (cons
  x).
#[export] Instance set_pool : Setter pool := λ f x, mkChain (chain_list x) (latest_block x)
  (height x) (f (pool x)) (idx x) (keys x) (staking x) (ledger x) (tokens x) (trie x) (recs x)
  (cons x).
#[export] Instance set_idx : Setter idx := λ f x, mkChain (chain_list x) (latest_block x) (height
  x) (pool x) (f (idx x)) (keys x) (staking x) (ledger x) (tokens x) (trie x) (recs x) (cons x).
#[export] Instance set_keys : Setter keys := λ f x, mkChain (chain_list x) (latest_block x)
  (height x) (pool x) (idx x) (f (keys x)) (staking x) (ledger x) (tokens x) (trie x) (recs x)
  (cons x).
#[export] Instance set_staking : Setter staking := λ f x, mkChain (chain_list x) (latest_block x)
  (height x) (pool x) (idx x) (keys x) (f (staking x)) (ledger x) (tokens x) (trie x) (recs x)
  (cons x).
#[export] Instance set_ledger : Setter ledger := λ f x, mkChain (chain_list x) (latest_block x)
  (height x) (pool x) (idx x) (keys x) (staking x) (f (ledger x)) (tokens x) (trie x) (recs x)
  (cons x).
#[export] Instance set_tokens : Setter tokens := λ f x, mkChain (chain_list x) (latest_block x)
  (height x) (pool x) (idx x) (keys x) (staking x) (ledger x) (f (tokens x)) (trie x) (recs x)
  (cons x).
#[export] Instance set_trie : Setter trie := λ f x, mkChain (chain_list x) (latest_block x)
  (height x) (pool x) (idx x) (keys x) (staking x) (ledger x) (tokens x) (f (trie x)) (recs x)
  (cons x).
#[export] Instance set_recs : Setter recs := λ f x, mkChain (chain_list x) (latest_block x)
  (height x) (pool x) (idx x) (keys x) (staking x) (ledger x) (tokens x) (trie x) (f (recs x))
  (cons x).
#[export] Instance set_cons : Setter cons := λ f x, mkChain (chain_list x) (latest_block x)
  (height x) (pool x) (idx x) (keys x) (staking x) (ledger x) (tokens x) (trie x) (recs x) (f
  (cons x)).
Definition empty_Chain : Chain := mkChain [] None (-1) empty_Pool empty_Index empty_Keys empty_Staking empty_Ledger empty_Tokens empty_Trie empty_Receipts empty_Consensus.
(** Simplify projections of updated records and nothing else. *)
Ltac chain_simpl :=
  cbn [set set_balances set_total_minted set_total_burned set_financial_active set_epoch_rewards
       set_validator_commission set_last_epoch_distributions set_stakes set_total_stake
       set_unbonding set_current_epoch set_epoch_validators set_epochs set_slashed_validators
       set_slashing_events set_processed_evidence set_token_registry set_token_balances
       set_token_by_symbol set_holders_by_token set_tokens_by_address set_tx_pool set_pool_ids
       set_pool_sender_count set_pending_debits_cache set_pool_type_counts set_block_by_hash
       set_tx_by_id set_txs_by_sender set_txs_by_recipient set_notarizations
       set_notarizations_by_hash set_notarization_count set_sender_nonce set_key_registry
       set_key_history set_validator_registry set_revoked_keys set_validators set_genesis_hash
       set_chain_tx_ids set_receipts set_events_by_type set_events_by_block
       set_block_level_events set_finalized_height set_state_trie set_state_snapshots
       set_last_state_root set_last_receipts_root set_chain_list set_latest_block set_height
       set_pool set_idx set_keys set_staking set_ledger set_tokens set_trie set_recs set_cons
       balances total_minted total_burned financial_active epoch_rewards validator_commission
       last_epoch_distributions stakes total_stake unbonding current_epoch epoch_validators
       epochs slashed_validators slashing_events processed_evidence token_registry token_balances
       token_by_symbol holders_by_token tokens_by_address tx_pool pool_ids pool_sender_count
       pending_debits_cache pool_type_counts block_by_hash tx_by_id txs_by_sender
       txs_by_recipient notarizations notarizations_by_hash notarization_count sender_nonce
       key_registry key_history validator_registry revoked_keys validators genesis_hash
       chain_tx_ids receipts events_by_type events_by_block block_level_events finalized_height
       state_trie state_snapshots last_state_root last_receipts_root chain_list latest_block
       height pool idx keys staking ledger tokens trie recs cons].
Ltac chain_simpl_in H :=
  cbn [set set_balances set_total_minted set_total_burned set_financial_active set_epoch_rewards
       set_validator_commission set_last_epoch_distributions set_stakes set_total_stake
       set_unbonding set_current_epoch set_epoch_validators set_epochs set_slashed_validators
       set_slashing_events set_processed_evidence set_token_registry set_token_balances
       set_token_by_symbol set_holders_by_token set_tokens_by_address set_tx_pool set_pool_ids
       set_pool_sender_count set_pending_debits_cache set_pool_type_counts set_block_by_hash
       set_tx_by_id set_txs_by_sender set_txs_by_recipient set_notarizations
       set_notarizations_by_hash set_notarization_count set_sender_nonce set_key_registry
       set_key_history set_validator_registry set_revoked_keys set_validators set_genesis_hash
       set_chain_tx_ids set_receipts set_events_by_type set_events_by_block
       set_block_level_events set_finalized_height set_state_trie set_state_snapshots
       set_last_state_root set_last_receipts_root set_chain_list set_latest_block set_height
       set_pool set_idx set_keys set_staking set_ledger set_tokens set_trie set_recs set_cons
       balances total_minted total_burned financial_active epoch_rewards validator_commission
       last_epoch_distributions stakes total_stake unbonding current_epoch epoch_validators
       epochs slashed_validators slashing_events processed_evidence token_registry token_balances
       token_by_symbol holders_by_token tokens_by_address tx_pool pool_ids pool_sender_count
       pending_debits_cache pool_type_counts block_by_hash tx_by_id txs_by_sender
       txs_by_recipient notarizations notarizations_by_hash notarization_count sender_nonce
       key_registry key_history validator_registry revoked_keys validators genesis_hash
       chain_tx_ids receipts events_by_type events_by_block block_level_events finalized_height
       state_trie state_snapshots last_state_root last_receipts_root chain_list latest_block
       height pool idx keys staking ledger tokens trie recs cons] in H.

(** Running an operation of one component on the chain *)
Definition on {S T A} (π : S → T) `{!Setter π} (m : M T A) : M S A := zoom π (set π) m.

Lemma wp_on {S T A} (π : S → T) `{Hs : !Setter π} (m : M T A) Q s :
  wp m (λ r t, Q r (set π (λ _, t) s)) (π s) → wp (on π m) Q s.
Proof. unfold wp, on, zoom. by destruct (m (π s)). Qed.

(** [m] leaves [π] of the state as it is, whether it returns or raises. *)
Definition fixes {S T A} (π : S → T) (m : M S A) : Prop := ∀ s, π (m s).2 = π s.

Section Fixes.
Context {S T : Type} (π : S → T).
Lemma fixes_ret {A} (a : A) : fixes π (mret a).
Proof. done. Qed.
Lemma fixes_raise {A} e : fixes π (raise (A:=A) e).
Proof. done. Qed.
Lemma fixes_lift {A} (r : result A) : fixes π (lift r).
Proof. done. Qed.
Lemma fixes_get : fixes π get.
Proof. done. Qed.
Lemma fixes_gets {A} (f : S → A) : fixes π (gets f).
Proof. done. Qed.
Lemma fixes_modify f : (∀ s, π (f s) = π s) → fixes π (modify f).
Proof. done. Qed.
Lemma fixes_bind {A B} (m : M S A) (k : A → M S B) : fixes π m → (∀ a, fixes π (k a)) → fixes π (m ≫= k).
Proof.
  intros Hm Hk s. unfold mbind, M_bind. specialize (Hm s). destruct (m s) as [[a|e] s']; cbn in Hm; [|done].
  by rewrite (Hk a s').
Qed.
Lemma fixes_when b m : fixes π m → fixes π (when b m).
Proof. destruct b; [done|intros _; apply fixes_ret]. Qed.
Lemma fixes_mfor {A} (f : A → M S unit) l : (∀ x, fixes π (f x)) → fixes π (mfor f l).
Proof. intros Hf. induction l as [|x l IH]; [done|]. apply fixes_bind; [apply Hf|done]. Qed.
Lemma fixes_on {U A} (ρ : S → U) `{!Setter ρ} (m : M U A) :
  (∀ u s, π (set ρ (λ _, u) s) = π s) → fixes π (on ρ m).
Proof. intros Hu s. unfold on, zoom. destruct (m (ρ s)) as [r u]. apply Hu. Qed.
Lemma fixes_keeps {A} (I : T → Prop) (m : M S A) : fixes π m → keeps (λ s, I (π s)) m.
Proof. intros Hm s Hs. unfold wp. specialize (Hm s). destruct (m s) as [r s']. cbn in Hm. by rewrite Hm. Qed.
End Fixes.

Create HintDb fixes.
#[export] Hint Resolve fixes_ret fixes_raise fixes_lift fixes_get fixes_gets fixes_when fixes_mfor : fixes.
#[export] Hint Extern 1 (fixes _ (_ ≫= _)) => (apply fixes_bind; [|intros ?]) : fixes.
#[export] Hint Extern 1 (fixes _ (on _ _)) => (apply fixes_on; intros; reflexivity) : fixes.
#[export] Hint Extern 2 (fixes _ (if ?b then _ else _)) => destruct b : fixes.
#[export] Hint Extern 2 (fixes _ (match ?x with _ => _ end)) => destruct x : fixes.

(** ** Queries *)

Section Queries.
Context `{C : Crypto}.

(** [_get_block_by_index] on the in-memory list *)
Definition get_block_by_index (s : Chain) (i : Z) : option Block :=
  if (0 <=? i) && (i <? Z.of_nat (length (chain_list s)))
  then chain_list s !! Z.to_nat i else None.

Definition get_balance (s : Chain) (a : string) : Z := get_or (balances (ledger s)) a 0.
Definition get_next_nonce (s : Chain) (a : string) : Z := get_or (sender_nonce (idx s)) a (-1) + 1.

Definition revocation_key (address key_type : string) : string := address +:+ ":" +:+ key_type.
Definition is_key_revoked (s : Chain) (address key_type : string) : bool :=
  bool_decide (is_Some (revoked_keys (keys s) !! revocation_key address key_type)).
Definition is_registered_validator (s : Chain) (a : string) : bool :=
  bool_decide (is_Some (validator_registry (keys s) !! a)).
Definition get_encryption_pk (s : Chain) (a : string) : option string := key_registry (keys s) !! a.
Definition get_validator_pk (s : Chain) (a : string) : option string := validator_registry (keys s) !! a.
Definition get_revocation_info (s : Chain) (address key_type : string) : option Revocation :=
  revoked_keys (keys s) !! revocation_key address key_type.
Definition get_notarization_count (s : Chain) (a : string) : Z :=
  get_or (notarization_count (idx s)) a 0.

(** [list[i]] with [0 <= i]; the code tests the upper bound *)
Definition nth_tx (txs : list Transaction) (i : Z) : option Transaction :=
  if i <? 0 then None else txs !! Z.to_nat i.

Definition get_block (s : Chain) (by_index : Z + string) : option Block :=
  match by_index with
  | inl i => get_block_by_index s i
  | inr h => match block_by_hash (idx s) !! h with
             | Some i => get_block_by_index s i
             | None => None
             end
  end.
Definition get_tx (s : Chain) (tid : string) : option Transaction :=
  match tx_by_id (idx s) !! tid with
  | Some (bi, ti) =>
      match get_block_by_index s bi with
      | Some b => nth_tx (transactions b) ti
      | None => None
      end
  | None => None
  end.
Definition get_tx_block (s : Chain) (tid : string) : option Z := fst <$> tx_by_id (idx s) !! tid.
Definition get_txs_by_sender (s : Chain) (a : string) : list string :=
  get_or (txs_by_sender (idx s)) a [].
Definition get_txs_by_recipient (s : Chain) (a : string) : list string :=
  get_or (txs_by_recipient (idx s)) a [].

(** Staking queries *)
Definition get_validator_stake (s : Chain) (v : string) : Z := get_or (total_stake (staking s)) v 0.
Definition staker_info (st : Staking) (staker v : string) : Z :=
  dget_or (dget_or (stakes st) v []) staker 0.
Definition get_staker_info (s : Chain) (staker v : string) : Z := staker_info (staking s) staker v.
Definition addr_le (x y : string * Z) : Prop := String.le x.1 y.1.
#[global] Instance addr_le_dec : ∀ x y, Decision (addr_le x y).
Proof. intros x y. unfold addr_le. apply _. Defined.
(** The stakes above zero in the order of the addresses *)
Definition live_validators (st : Staking) : list (string * Z) :=
  merge_sort addr_le (filter (λ x, 0 < x.2) (map_to_list (total_stake st))).
Definition active_validators (st : Staking) : list (string * Z) :=
  match epoch_validators st with [] => live_validators st | l => l end.
Definition get_epoch_validators (s : Chain) (e : option Z) : list (string * Z) :=
  get_or (epochs (staking s)) (default (current_epoch (staking s)) e) [].
Definition is_slashed (s : Chain) (a : string) : bool :=
  bool_decide (a ∈ slashed_validators (staking s)).

(** Token queries *)
Definition get_token_info (s : Chain) (tid : string) : option Token := token_registry (tokens s) !! tid.
Definition get_token_by_symbol (s : Chain) (symbol : string) : option Token :=
  match token_by_symbol (tokens s) !! symbol with
  | Some tid => if is_empty tid then None else token_registry (tokens s) !! tid
  | None => None
  end.
Definition token_balance (tk : Tokens) (tid a : string) : Z := get_or (token_balances tk) (tid, a) 0.
Definition get_token_balance (s : Chain) (tid a : string) : Z := token_balance (tokens s) tid a.
End Queries.
