(* ===== verification/Ledger.v ===== *)
(** * The balance ledger

    [core/ledger.py]: credits and debits, the block reward, supply figures,
    and the pending debit of a pool transaction.  An amount read from a
    payload is Python's [payload.get("amount", 0)]. *)
From S2P Require Import Prelude PyStr Json Config Crypto StateTrie Wallet Transaction Fees Block Receipt ChainState.
Open Scope Z_scope.

(** ** Balance maps *)

Definition credit_map (a : string) (n : Z) (m : gmap string Z) : gmap string Z :=
  if n =? 0 then m else <[a := get_or m a 0 + n]> m.
(** A balance that reaches zero is removed. *)
Definition debit_map (a : string) (n : Z) (m : gmap string Z) : gmap string Z :=
  if n =? 0 then m
  else let new_balance := get_or m a 0 - n in
       if new_balance =? 0 then delete a m else <[a := new_balance]> m.

Definition credit (a : string) (amount : Z) : M Ledger unit :=
  if amount <? 0 then raise (ValueError "credit amount must be non-negative")
  else modify (set balances (credit_map a amount)).

Definition debit (a : string) (amount : Z) : M Ledger unit :=
  if amount <? 0 then raise (ValueError "debit amount must be non-negative")
  else if amount =? 0 then mret tt
  else
    current ← gets (λ l, get_or (balances l) a 0);
    if current <? amount then raise (ValueError "insufficient balance")
    else modify (set balances (debit_map a amount)).

(** Rollback may leave a temporarily negative balance. *)
Definition rollback_debit (a : string) (amount : Z) : M Ledger unit :=
  if amount <=? 0 then mret tt else modify (set balances (debit_map a amount)).

(** ** Supply *)

Definition calc_block_reward (minted block_index : Z) : Z :=
  if block_index <=? 0 then 0
  else
    let reward := Z.shiftr INITIAL_BLOCK_REWARD (block_index / HALVING_INTERVAL) in
    let remaining := MAX_SUPPLY - minted in
    Z.min reward (Z.max 0 remaining).

Record Supply := mkSupply {
  sup_minted : Z; sup_burned : Z; sup_circulating : Z; sup_staked : Z; sup_max : Z }.
Definition get_total_supply (s : Chain) : Supply :=
  let total_staked := msum (total_stake (staking s)) in
  mkSupply (total_minted (ledger s)) (total_burned (ledger s))
    (total_minted (ledger s) - total_burned (ledger s) - total_staked) total_staked MAX_SUPPLY.

(** ** Pending debits *)

Definition legacy_fee (tx : Transaction) : Z := dget_or TX_FEES (tt_value (tx_type tx)) 0.
(** The amount a transfer or a stake takes from its sender *)
Definition moved_amount (tx : Transaction) : result Z :=
  match tx_type tx with
  | TRANSFER | STAKE | DELEGATE => jget_int (payload tx) "amount" 0
  | _ => Ok 0
  end.

Section Pending.
Context `{Cfg : ChainConfig}.

(** [_calc_tx_debit] at chain height [h] for the next block [next] *)
Definition calc_tx_debit (h next : Z) (tx : Transaction) : result Z :=
  let dynamic_active := (DYNAMIC_FEE_ACTIVATION_HEIGHT <=? next) && (0 <=? h) in
  let fee := if dynamic_active then max_fee_per_weight tx * weight_of tx else legacy_fee tx in
  amount ← moved_amount tx;
  Ok (fee + amount).

Definition pending_debits (s : Chain) (a : string) : Z :=
  get_or (pending_debits_cache (pool s)) a 0.

(** [cache[sender] = cache.get(sender, 0) + debit] along the pool *)
Fixpoint debits_cache (h next : Z) (txs : list Transaction) (cache : gmap string Z)
    : result (gmap string Z) :=
  match txs with
  | [] => Ok cache
  | tx :: txs' =>
      d ← calc_tx_debit h next tx;
      debits_cache h next txs' (<[sender tx := get_or cache (sender tx) 0 + d]> cache)
  end.
Definition rebuild_pending_debits_cache : M Chain unit :=
  s ← get;
  cache ← lift (debits_cache (height s) (height s + 1) (tx_pool (pool s)) ∅);
  on pool (modify (set pending_debits_cache (λ _, cache))).
End Pending.

(** ** Lemmas *)

Definition bal (l : Ledger) (a : string) : Z := get_or (balances l) a 0.

Lemma credit_map_sum a n m : msum (credit_map a n m) = msum m + n.
Proof. unfold credit_map. destruct (Z.eqb_spec n 0); [lia|]. rewrite msum_insert. lia. Qed.
Lemma debit_map_sum a n m : msum (debit_map a n m) = msum m - n.
Proof.
  unfold debit_map. destruct (Z.eqb_spec n 0); [lia|].
  destruct (Z.eqb_spec (get_or m a 0 - n) 0); [rewrite msum_delete|rewrite msum_insert]; lia.
Qed.
Lemma credit_map_get a n m b :
  get_or (credit_map a n m) b 0 = get_or m b 0 + (if decide (a = b) then n else 0).
Proof.
  unfold credit_map. destruct (Z.eqb_spec n 0) as [->|]; [case_decide; lia|].
  rewrite get_or_insert. case_decide; subst; lia.
Qed.
Lemma debit_map_get a n m b :
  get_or (debit_map a n m) b 0 = get_or m b 0 - (if decide (a = b) then n else 0).
Proof.
  unfold debit_map. destruct (Z.eqb_spec n 0) as [->|]; [case_decide; lia|].
  destruct (Z.eqb_spec (get_or m a 0 - n) 0).
  - rewrite get_or_delete. case_decide; subst; lia.
  - rewrite get_or_insert. case_decide; subst; lia.
Qed.

(** Every recorded balance is positive. *)
Definition positive_map (m : gmap string Z) : Prop := map_Forall (λ _ v, 0 < v) m.

Lemma positive_get m a : positive_map m → 0 <= get_or m a 0.
Proof.
  intros Hm. unfold get_or. destruct (m !! a) as [v|] eqn:E; simpl; [|lia].
  apply Hm in E. lia.
Qed.
Lemma credit_map_positive a n m : 0 <= n → positive_map m → positive_map (credit_map a n m).
Proof.
  intros Hn Hm. unfold credit_map. destruct (Z.eqb_spec n 0); [done|].
  apply map_Forall_insert_2; [|done]. pose proof (positive_get m a Hm). lia.
Qed.
Lemma debit_map_positive a n m :
  n <= get_or m a 0 → positive_map m → positive_map (debit_map a n m).
Proof.
  intros Hn Hm. unfold debit_map. destruct (Z.eqb_spec n 0); [done|].
  destruct (Z.eqb_spec (get_or m a 0 - n) 0); [by apply map_Forall_delete|].
  apply map_Forall_insert_2; [lia|done].
Qed.

(** The two operations as equations: what they do to the state on each branch *)
Lemma credit_run a n l :
  credit a n l =
  if n <? 0 then (Raise (ValueError "credit amount must be non-negative"), l)
  else (Ok tt, l <| balances ::= credit_map a n |>).
Proof. unfold credit. by destruct (n <? 0). Qed.

Lemma debit_run a n l :
  debit a n l =
  if n <? 0 then (Raise (ValueError "debit amount must be non-negative"), l)
  else if negb (n =? 0) && (bal l a <? n) then (Raise (ValueError "insufficient balance"), l)
  else (Ok tt, l <| balances ::= debit_map a n |>).
Proof.
  unfold debit, bal. destruct (n <? 0); [done|]. destruct (Z.eqb_spec n 0) as [->|Hn]; simpl.
  - unfold debit_map. simpl. by destruct l.
  - unfold mbind, M_bind, gets. by destruct (_ <? n).
Qed.

Lemma rollback_debit_run a n l :
  rollback_debit a n l = (Ok tt, if n <=? 0 then l else l <| balances ::= debit_map a n |>).
Proof. unfold rollback_debit. by destruct (n <=? 0). Qed.

Create HintDb ledger.
Create Rewrite HintDb ledger.
#[export] Hint Rewrite credit_map_sum debit_map_sum : ledger.
#[export] Hint Rewrite credit_map_get debit_map_get : ledger.
#[export] Hint Resolve credit_map_positive debit_map_positive positive_get : ledger.

Lemma reward_nonneg minted i : 0 <= calc_block_reward minted i.
Proof.
  unfold calc_block_reward. destruct (Z.leb_spec i 0); [lia|].
  assert (0 <= Z.shiftr INITIAL_BLOCK_REWARD (i / HALVING_INTERVAL)); [|lia].
  apply Z.shiftr_nonneg. vm_compute. discriminate.
Qed.
Lemma reward_cap minted i : minted <= MAX_SUPPLY → minted + calc_block_reward minted i <= MAX_SUPPLY.
Proof. unfold calc_block_reward. destruct (Z.leb_spec i 0); lia. Qed.

(** ** Properties *)

(** The block reward follows the halving schedule: nothing at genesis,
    [5 QBIT / 2^k] in the [k]-th interval while the supply lasts, never
    negative, never above what is left of the supply, and zero from the 33rd
    halving on. *)
Lemma block_reward_schedule (minted i k : Z)
  (Hi : 0 < i) (Hk : i / HALVING_INTERVAL = k) (Hm : minted <= MAX_SUPPLY) :
  0 <= calc_block_reward minted i <= MAX_SUPPLY - minted ∧
  (INITIAL_BLOCK_REWARD / 2 ^ k <= MAX_SUPPLY - minted →
     calc_block_reward minted i = INITIAL_BLOCK_REWARD / 2 ^ k) ∧
  (33 <= k → calc_block_reward minted i = 0) ∧
  calc_block_reward minted 0 = 0.
Proof.
  assert (0 <= k) as Hk0 by (rewrite <-Hk; apply Z.div_pos; [lia|done]).
  split; [pose proof (reward_nonneg minted i); pose proof (reward_cap minted i Hm); lia|].
  unfold calc_block_reward. destruct (Z.leb_spec i 0); [lia|]. rewrite Hk.
  rewrite Z.shiftr_div_pow2 by done. split_and!; [lia| |done].
  intros H33. assert (INITIAL_BLOCK_REWARD / 2 ^ k = 0) as ->; [|lia].
  apply Z.div_small. split; [done|].
  apply Z.lt_le_trans with (2 ^ 33); [done|]. by apply Z.pow_le_mono_r.
Qed.

