(* ===== verification/StateOps.v ===== *)
(** * Rebuilding the state trie

    [core/state_ops.py]: the trie is cleared and filled with the balances,
    nonces, token balances and token supplies, each on eight octets, and
    proofs are read from it.  The first part below is the code; the second
    shows exactly which entries the rebuilt trie holds. *)
From S2P Require Import Prelude PyStr Json Config Crypto StateTrie Wallet Transaction Fees Block Receipt ChainState Ledger.
Open Scope Z_scope.

(** [_TOKEN_ID_RE = ^[0-9a-fA-F]{32}$] *)
Definition validate_token_id (tid : string) : bool := re_exactly is_hex 32 tid.

Definition balance_key (a : string) : string := "balance:" +:+ a.
Definition nonce_key (a : string) : string := "nonce:" +:+ a.
Definition token_balance_key (tid a : string) : string := "token:" +:+ tid +:+ ":balance:" +:+ a.
Definition token_supply_key (tid : string) : string := "token:" +:+ tid +:+ ":supply".

(** [trie.set(key, value.to_bytes(8, 'big'))] *)
Definition put_entry (k : string) (v : Z) : M Chain unit :=
  b ← lift (to_bytes 8 v); on trie (modify (set state_trie (trie_set k b))).

Definition put_balance (e : string * Z) : M Chain unit :=
  if e.2 <? 0 then mret tt else put_entry (balance_key e.1) e.2.
Definition put_nonce (e : string * Z) : M Chain unit :=
  when (0 <=? e.2) (put_entry (nonce_key e.1) e.2).
Definition put_token_balance (e : (string * string) * Z) : M Chain unit :=
  when (0 <? e.2)
    (if negb (validate_token_id e.1.1) then raise (ValueError "invalid token_id in state")
     else put_entry (token_balance_key e.1.1 e.1.2) e.2).
Definition put_token_supply (e : string * Token) : M Chain unit :=
  if negb (validate_token_id e.1) then raise (ValueError "invalid token_id in state")
  else put_entry (token_supply_key e.1) (tk_total_minted e.2).

Definition rebuild_state_trie : M Chain unit :=
  _ ← on trie (modify (set state_trie (λ _, ∅)));
  s ← get;
  _ ← mfor put_balance (map_to_list (balances (ledger s)));
  _ ← mfor put_nonce (map_to_list (sender_nonce (idx s)));
  _ ← mfor put_token_balance (map_to_list (token_balances (tokens s)));
  mfor put_token_supply (map_to_list (token_registry (tokens s))).

Section StateProofs.
Context `{C : Crypto}.

Definition get_state_proof (s : Chain) (address key_type : string) : option StateProof :=
  if bool_decide (key_type ∈ ["balance"; "nonce"])
  then get_proof (state_trie (trie s)) (key_type +:+ ":" +:+ address) else None.
Definition get_token_state_proof (s : Chain) (token_id address : string) : option StateProof :=
  if validate_token_id token_id
  then get_proof (state_trie (trie s)) (token_balance_key token_id address) else None.
Definition get_state_root (s : Chain) : string := hex (trie_root (state_trie (trie s))).
End StateProofs.

(** ** Activating the balance ledger ([core/ledger.py]) *)

Definition activate_financial_layer (validator_address : string) : M Chain unit :=
  s ← get;
  if financial_active (ledger s) then mret tt
  else
    _ ← on ledger (modify (set financial_active (λ _, true)));
    _ ← when (negb (is_empty validator_address) && (get_balance s validator_address =? 0))
          (let genesis_balance := GENESIS_BALANCE_QBIT * QUBIT_PER_QBIT in
           _ ← on ledger (credit validator_address genesis_balance);
           on ledger (modify (set total_minted (λ m, m + genesis_balance))));
    _ ← rebuild_state_trie;
    h ← gets height;
    t ← gets (λ s, state_trie (trie s));
    when (0 <=? h) (on trie (modify (set state_snapshots (<[h := trie_snapshot t]>)))).

(** ** What the rebuilt trie holds *)

(** The entries a state commits to *)
Inductive committed (s : Chain) : string → string → Prop :=
  | com_balance a n : balances (ledger s) !! a = Some n → 0 <= n < 256 ^ 8 →
      committed s (balance_key a) (be_bytes 8 n)
  | com_nonce a n : sender_nonce (idx s) !! a = Some n → 0 <= n < 256 ^ 8 →
      committed s (nonce_key a) (be_bytes 8 n)
  | com_token_balance tid a n : token_balances (tokens s) !! (tid, a) = Some n → 0 < n < 256 ^ 8 →
      validate_token_id tid = true → committed s (token_balance_key tid a) (be_bytes 8 n)
  | com_token_supply tid t : token_registry (tokens s) !! tid = Some t →
      0 <= tk_total_minted t < 256 ^ 8 → validate_token_id tid = true →
      committed s (token_supply_key tid) (be_bytes 8 (tk_total_minted t)).

(** The write a loop turn performs, if any *)
Definition plan_step := result (option (string * string)).
Definition plan_entry (k : string) (v : Z) : plan_step :=
  b ← to_bytes 8 v; Ok (Some (k, b)).
Definition plan_balance (e : string * Z) : plan_step :=
  if e.2 <? 0 then Ok None else plan_entry (balance_key e.1) e.2.
Definition plan_nonce (e : string * Z) : plan_step :=
  if 0 <=? e.2 then plan_entry (nonce_key e.1) e.2 else Ok None.
Definition plan_token_balance (e : (string * string) * Z) : plan_step :=
  if 0 <? e.2 then
    (if negb (validate_token_id e.1.1) then Raise (ValueError "invalid token_id in state")
     else plan_entry (token_balance_key e.1.1 e.1.2) e.2)
  else Ok None.
Definition plan_token_supply (e : string * Token) : plan_step :=
  if negb (validate_token_id e.1) then Raise (ValueError "invalid token_id in state")
  else plan_entry (token_supply_key e.1) (tk_total_minted e.2).
Definition plan_of (s : Chain) : list plan_step :=
  (plan_balance <$> map_to_list (balances (ledger s))) ++
  (plan_nonce <$> map_to_list (sender_nonce (idx s))) ++
  (plan_token_balance <$> map_to_list (token_balances (tokens s))) ++
  (plan_token_supply <$> map_to_list (token_registry (tokens s))).

Definition put_raw (kb : string * string) (s : Chain) : Chain :=
  s <| trie ::= set state_trie (<[kb.1 := kb.2]>) |>.
Definition run_step (p : plan_step) : M Chain unit := λ s,
  match p with
  | Raise e => (Raise e, s)
  | Ok None => (Ok tt, s)
  | Ok (Some kb) => (Ok tt, put_raw kb s)
  end.

Lemma mfor_ext {S A B} (f : A → M S unit) (g : B → M S unit) (h : A → B) (l : list A) s :
  (∀ x s, f x s = g (h x) s) → mfor f l s = mfor g (h <$> l) s.
Proof.
  intros Hf. revert s. induction l as [|x l IH]; intros s; [done|]. csimpl.
  unfold mbind, M_bind. rewrite Hf. by destruct (g (h x) s) as [[] ?].
Qed.
Lemma mfor_app {S A} (f : A → M S unit) (l k : list A) s :
  mfor f (l ++ k) s = (_ ← mfor f l; mfor f k) s.
Proof.
  revert s. induction l as [|x l IH]; intros s; [done|]. csimpl.
  unfold mbind, M_bind in *. destruct (f x s) as [[] s1]; [apply IH|done].
Qed.

Lemma put_entry_run k v s : put_entry k v s = run_step (plan_entry k v) s.
Proof.
  unfold put_entry, plan_entry, lift, mbind, M_bind, result_bind.
  destruct (to_bytes 8 v) as [b|e]; [|done]. unfold run_step, put_raw, on, zoom, modify.
  unfold set, set_trie, set_state_trie. cbn beta. by rewrite trie_set_insert.
Qed.
Lemma put_run_all :
  (∀ e s, put_balance e s = run_step (plan_balance e) s) ∧
  (∀ e s, put_nonce e s = run_step (plan_nonce e) s) ∧
  (∀ e s, put_token_balance e s = run_step (plan_token_balance e) s) ∧
  (∀ e s, put_token_supply e s = run_step (plan_token_supply e) s).
Proof.
  split_and!; intros e s;
    unfold put_balance, plan_balance, put_nonce, plan_nonce, put_token_balance,
      plan_token_balance, put_token_supply, plan_token_supply, when.
  - destruct (e.2 <? 0); [done|apply put_entry_run].
  - destruct (0 <=? e.2); [apply put_entry_run|done].
  - destruct (0 <? e.2); [|done]. destruct (validate_token_id _); [apply put_entry_run|done].
  - destruct (validate_token_id _); [apply put_entry_run|done].
Qed.

Definition clear_trie (s : Chain) : Chain := s <| trie ::= set state_trie (λ _, ∅) |>.

Lemma rebuild_run s : rebuild_state_trie s = mfor run_step (plan_of s) (clear_trie s).
Proof.
  unfold plan_of. rewrite mfor_app. unfold mbind at 1, M_bind.
  destruct put_run_all as (H1 & H2 & H3 & H4).
  rewrite <-(mfor_ext _ _ _ _ _ H1).
  unfold rebuild_state_trie, get, mbind, M_bind, on, zoom, modify. fold (clear_trie s).
  change (balances (ledger (clear_trie s))) with (balances (ledger s)).
  change (sender_nonce (idx (clear_trie s))) with (sender_nonce (idx s)).
  change (token_balances (tokens (clear_trie s))) with (token_balances (tokens s)).
  change (token_registry (tokens (clear_trie s))) with (token_registry (tokens s)).
  destruct (mfor put_balance _ _) as [[[]|] s1]; [|done].
  rewrite mfor_app. unfold mbind, M_bind. rewrite <-(mfor_ext _ _ _ _ _ H2).
  destruct (mfor put_nonce _ _) as [[[]|] s2]; [|done].
  rewrite mfor_app. unfold mbind, M_bind. rewrite <-(mfor_ext _ _ _ _ _ H3).
  destruct (mfor put_token_balance _ _) as [[[]|] s3]; [|done].
  by rewrite <-(mfor_ext _ _ _ _ _ H4).
Qed.

(** *** The plan and the trie *)

Lemma run_plan_spec (p : list plan_step) s s' :
  mfor run_step p s = (Ok tt, s') →
  (∀ e, Raise e ∉ p) ∧
  (∀ k v, state_trie (trie s') !! k = Some v →
     Ok (Some (k, v)) ∈ p ∨ state_trie (trie s) !! k = Some v) ∧
  (∀ k v, Ok (Some (k, v)) ∈ p → ∃ v', state_trie (trie s') !! k = Some v') ∧
  (∀ k, is_Some (state_trie (trie s) !! k) → is_Some (state_trie (trie s') !! k)) ∧
  s' = s <| trie ::= set state_trie (λ _, state_trie (trie s')) |>.
Proof.
  revert s. induction p as [|x p IH]; intros s; simpl.
  { intros [= <-]. split_and!; [set_solver|by right|set_solver|done|by destruct s as [????????? [] ??]]. }
  unfold mbind, M_bind, run_step at 1. destruct x as [[[k0 v0]|]|e]; [| |done].
  - intros H. apply IH in H as (He & H1 & H2 & H3 & H4).
    change (state_trie (trie (put_raw (k0, v0) s))) with (<[k0 := v0]> (state_trie (trie s))) in *.
    split_and!.
    + set_solver.
    + intros k v Hk. apply H1 in Hk as [|Hk]; [left; by right|].
      apply lookup_insert_Some in Hk as [[<- <-]|[_ Hk]]; [left; by left|by right].
    + intros k v [[= <- <-]|Hin]%elem_of_cons; [|by eapply H2].
      destruct (H3 k) as [v' Hv']; [rewrite lookup_insert_eq; eauto|eauto].
    + intros k [v Hk]. apply H3. rewrite lookup_insert_is_Some'. eauto.
    + rewrite H4. by destruct s as [????????? [] ??].
  - intros H. apply IH in H as (He & H1 & H2 & H3 & H4). split_and!; [set_solver| | |done|done].
    + intros k v Hk. apply H1 in Hk as [|]; [left; by right|by right].
    + intros k v [?|Hin]%elem_of_cons; [done|by eapply H2].
Qed.

Lemma plan_entry_inv k v k' b :
  plan_entry k v = Ok (Some (k', b)) ↔ k' = k ∧ 0 <= v < 256 ^ 8 ∧ b = be_bytes 8 v.
Proof.
  unfold plan_entry, mbind, result_bind. split.
  - destruct (to_bytes 8 v) as [b'|] eqn:E; [|done]. apply to_bytes_inv in E as [? ->].
    by intros [= <- <-].
  - intros (-> & Hv & ->). by destruct (to_bytes_ok 8 v Hv) as [-> _].
Qed.

Lemma plan_of_committed s k v : Ok (Some (k, v)) ∈ plan_of s ↔ committed s k v.
Proof.
  unfold plan_of. rewrite !elem_of_app, !list_elem_of_fmap. split.
  - intros [([a n] & Hp & Hin%elem_of_map_to_list)|[([a n] & Hp & Hin%elem_of_map_to_list)|
      [([[tid a] n] & Hp & Hin%elem_of_map_to_list)|([tid t] & Hp & Hin%elem_of_map_to_list)]]];
      symmetry in Hp.
    + unfold plan_balance in Hp. destruct (_ <? _); [done|].
      apply plan_entry_inv in Hp as (-> & ? & ->). by constructor.
    + unfold plan_nonce in Hp. destruct (_ <=? _); [|done].
      apply plan_entry_inv in Hp as (-> & ? & ->). by constructor.
    + unfold plan_token_balance in Hp. cbn [fst snd] in Hp. destruct (Z.ltb_spec 0 n); [|done].
      destruct (validate_token_id _) eqn:Hv; [|done].
      apply plan_entry_inv in Hp as (-> & ? & ->). by constructor; [|simpl in *; lia|].
    + unfold plan_token_supply in Hp. cbn [fst snd] in Hp. destruct (validate_token_id _) eqn:Hv; [|done].
      apply plan_entry_inv in Hp as (-> & ? & ->). by constructor.
  - intros [a n Hl Hn|a n Hl Hn|tid a n Hl Hn Ht|tid t Hl Hn Ht].
    + left. exists (a, n). split; [|by apply elem_of_map_to_list].
      unfold plan_balance. simpl. destruct (Z.ltb_spec n 0); [lia|]. symmetry. by apply plan_entry_inv.
    + right; left. exists (a, n). split; [|by apply elem_of_map_to_list].
      unfold plan_nonce. simpl. destruct (Z.leb_spec 0 n); [|lia]. symmetry. by apply plan_entry_inv.
    + right; right; left. exists (tid, a, n). split; [|by apply elem_of_map_to_list].
      unfold plan_token_balance. simpl. destruct (Z.ltb_spec 0 n); [|lia]. rewrite Ht.
      symmetry. apply plan_entry_inv. split_and!; [done|lia|lia|done].
    + right; right; right. exists (tid, t). split; [|by apply elem_of_map_to_list].
      unfold plan_token_supply. simpl. rewrite Ht. symmetry. by apply plan_entry_inv.
Qed.

(** *** Keys determine what they are keys of *)

Definition not_colon (c : ascii) : bool := negb (bool_decide (c = ":"%char)).

Lemma hex_not_colon : ∀ c : ascii, implb (is_hex c) (not_colon c) = true.
Proof. by_chars. Qed.
Lemma token_id_no_colon n tid : re_exactly is_hex n tid = true → all_chars not_colon tid = true.
Proof.
  revert n. induction tid as [|c tid IH]; intros n; [done|]. destruct n as [|n]; cbn [re_exactly all_chars].
  - intros [->%bool_decide_eq_true Ht]%andb_prop. by destruct tid.
  - intros [Hc Ht]%andb_prop. rewrite (IH n Ht), andb_true_r.
    pose proof (hex_not_colon c) as H. by rewrite Hc in H.
Qed.
Lemma token_key_split tid tid' r r' :
  validate_token_id tid = true → validate_token_id tid' = true →
  tid +:+ String ":"%char r = tid' +:+ String ":"%char r' → tid = tid' ∧ r = r'.
Proof.
  intros H%token_id_no_colon H'%token_id_no_colon Heq.
  apply (token_split not_colon) in Heq as [-> Hr]; [|done..]. by injection Hr.
Qed.

Lemma committed_fun s k v v' : committed s k v → committed s k v' → v = v'.
Proof.
  intros H H'. inversion H as [a n Hl Hn|a n Hl Hn|tid a n Hl Hn Ht|tid t Hl Hn Ht]; subst;
    inversion H' as [a' n' Hl' ? Hk|a' n' Hl' ? Hk|tid' a' n' Hl' ? Ht' Hk|tid' t' Hl' ? Ht' Hk]; subst;
    try (unfold balance_key, nonce_key, token_balance_key, token_supply_key in Hk; str_simpl in Hk; done).
  - apply string_app_inj_l in Hk as ->. congruence.
  - apply string_app_inj_l in Hk as ->. congruence.
  - apply string_app_inj_l in Hk. apply token_key_split in Hk as [-> Hk]; [|done..].
    assert (a' = a) as -> by (injection Hk; done). congruence.
  - apply string_app_inj_l in Hk. apply token_key_split in Hk as [-> Hk]; done.
  - apply string_app_inj_l in Hk. apply token_key_split in Hk as [-> Hk]; done.
  - apply string_app_inj_l in Hk. apply token_key_split in Hk as [-> Hk]; [|done..]. congruence.
Qed.

(** The rebuild changes nothing but the trie, which then holds exactly the
    committed entries. *)
Lemma rebuild_spec s s' :
  rebuild_state_trie s = (Ok tt, s') →
  s' = s <| trie ::= set state_trie (λ _, state_trie (trie s')) |> ∧
  ∀ k v, state_trie (trie s') !! k = Some v ↔ committed s k v.
Proof.
  rewrite rebuild_run. intros (_ & H1 & H2 & _ & H4)%run_plan_spec.
  split; [rewrite H4; by destruct s as [????????? [] ??]|].
  change (state_trie (trie (clear_trie s))) with (∅ : gmap string string) in H1.
  intros k v. rewrite <-plan_of_committed. split.
  - intros [|]%H1; [done|set_solver].
  - intros Hc. destruct (H2 k v Hc) as [v' Hv']. rewrite Hv'. f_equal.
    apply H1 in Hv' as [Hv'|]; [|set_solver].
    apply plan_of_committed in Hc, Hv'. by eapply committed_fun.
Qed.

Lemma run_plan_total (p : list plan_step) s :
  (∀ e, Raise e ∉ p) → ∃ s', mfor run_step p s = (Ok tt, s').
Proof.
  revert s. induction p as [|x p IH]; intros s He; [by eexists|]. simpl.
  assert (∀ s1, ∃ s2, mfor run_step p s1 = (Ok tt, s2)) as IH' by (intros; apply IH; set_solver).
  unfold mbind, M_bind, run_step at 1. destruct x as [[kb|]|e]; [apply IH'|apply IH'|].
  destruct (He e). by left.
Qed.
Lemma plan_entry_total k v e : 0 <= v < 256 ^ 8 → plan_entry k v ≠ Raise e.
Proof.
  intros Hv. unfold plan_entry, mbind, result_bind. by destruct (to_bytes_ok 8 v Hv) as [-> _].
Qed.

(** A state every entry of which fits its encoding *)
Record encodable (s : Chain) : Prop := mkEncodable {
  enc_balances : map_Forall (λ _ n, n < 256 ^ 8) (balances (ledger s));
  enc_nonces : map_Forall (λ _ n, n < 256 ^ 8) (sender_nonce (idx s));
  enc_token_balances : map_Forall (λ k n, 0 < n → n < 256 ^ 8 ∧ validate_token_id k.1 = true)
    (token_balances (tokens s));
  enc_supplies : map_Forall (λ tid t, 0 <= tk_total_minted t < 256 ^ 8 ∧ validate_token_id tid = true)
    (token_registry (tokens s)) }.

Lemma plan_total s e : encodable s → Raise e ∉ plan_of s.
Proof.
  intros [Hb Hn Ht Hs]. unfold plan_of. rewrite !elem_of_app, !list_elem_of_fmap.
  intros [([a n] & Hp & Hin%elem_of_map_to_list)|[([a n] & Hp & Hin%elem_of_map_to_list)|
    [([[tid a] n] & Hp & Hin%elem_of_map_to_list)|([tid t] & Hp & Hin%elem_of_map_to_list)]]];
    symmetry in Hp; revert Hp.
  - apply Hb in Hin. unfold plan_balance. cbn [fst snd].
    destruct (Z.ltb_spec n 0); [done|]. apply plan_entry_total. lia.
  - apply Hn in Hin. unfold plan_nonce. cbn [fst snd].
    destruct (Z.leb_spec 0 n); [|done]. apply plan_entry_total. lia.
  - apply Ht in Hin. unfold plan_token_balance. cbn [fst snd] in *.
    destruct (Z.ltb_spec 0 n); [|done]. destruct Hin as [? ->]; [done|]. apply plan_entry_total. lia.
  - apply Hs in Hin as [? Hid]. unfold plan_token_supply. cbn [fst snd]. rewrite Hid.
    by apply plan_entry_total.
Qed.

(** The committed entry of a balance or nonce key *)
Lemma committed_balance_inv s a v :
  committed s (balance_key a) v →
  ∃ m, balances (ledger s) !! a = Some m ∧ 0 <= m < 256 ^ 8 ∧ v = be_bytes 8 m.
Proof.
  intros H. inversion H as [a' n Hl Hn Hk|a' n Hl Hn Hk|tid a' n Hl Hn Ht Hk|tid t Hl Hn Ht Hk];
    subst; unfold balance_key, nonce_key, token_balance_key, token_supply_key in Hk;
    try (str_simpl in Hk; done).
  apply string_app_inj_l in Hk as ->. eauto.
Qed.
Lemma committed_nonce_inv s a v :
  committed s (nonce_key a) v →
  ∃ m, sender_nonce (idx s) !! a = Some m ∧ 0 <= m < 256 ^ 8 ∧ v = be_bytes 8 m.
Proof.
  intros H. inversion H as [a' n Hl Hn Hk|a' n Hl Hn Hk|tid a' n Hl Hn Ht Hk|tid t Hl Hn Ht Hk];
    subst; unfold balance_key, nonce_key, token_balance_key, token_supply_key in Hk;
    try (str_simpl in Hk; done).
  apply string_app_inj_l in Hk as ->. eauto.
Qed.
Lemma be_bytes_inj n x y :
  0 <= x < 256 ^ Z.of_nat n → 0 <= y < 256 ^ Z.of_nat n → be_bytes n x = be_bytes n y → x = y.
Proof. intros Hx Hy H. by rewrite <-(from_be_bytes n x Hx), H, from_be_bytes. Qed.

Lemma committed_width s k v : committed s k v → String.length v = 8%nat.
Proof. intros []; apply be_bytes_length. Qed.

(** ** Properties *)

(** Rebuilding the trie of a state whose amounts fit eight octets returns,
    changes nothing else, and leaves a trie that holds exactly one entry for
    each non-negative balance and nonce, each positive token balance and each
    token's supply, and no other entry. *)
Lemma rebuild_state_trie_exact (s : Chain) (He : encodable s) :
  ∃ s', rebuild_state_trie s = (Ok tt, s') ∧
    s' = s <| trie ::= set state_trie (λ _, state_trie (trie s')) |> ∧
    ∀ k v, state_trie (trie s') !! k = Some v ↔ committed s k v.
Proof.
  destruct (run_plan_total (plan_of s) (clear_trie s)) as [s' Hs'].
  { intros e. by apply plan_total. }
  rewrite <-rebuild_run in Hs'. exists s'. split; [done|by apply rebuild_spec].
Qed.

Definition two_account_state : Chain :=
  empty_Chain <| ledger ::= set balances (λ _, <["qv1a" := 70]> (<["qv1b" := 5]> ∅)) |>
    <| idx ::= set sender_nonce (λ _, <["qv1a" := 3]> ∅) |>.

Lemma two_account_encodable : encodable two_account_state.
Proof.
  split; cbn; intros k v Hk.
  - rewrite lookup_insert_Some in Hk. destruct Hk as [[_ <-]|[_ Hk]]; [done|].
    rewrite lookup_insert_Some in Hk. by destruct Hk as [[_ <-]|[_ ?]].
  - rewrite lookup_insert_Some in Hk. by destruct Hk as [[_ <-]|[_ ?]].
  - done.
  - done.
Qed.

(** C18 Light clients: after a rebuild, a proof that verifies against the
    state root for the eight-octet encoding of [n] under the balance key of
    an address shows that the ledger's balance is [n], and likewise for its
    nonce, unless the proof exhibits a SHA3-256 collision. *)
Theorem light_client_sound `{C : Crypto} `{!CryptoLaws C} (s s' : Chain) (a : string) (n : Z)
  (path : list (string * bool))
  (Hr : rebuild_state_trie s = (Ok tt, s')) (Hne : state_trie (trie s') ≠ ∅)
  (Hn : 0 <= n < 256 ^ 8) :
  let t := state_trie (trie s') in
  let collides k := is_collision (forged_at (build_tree (sorted_leaves t))
      (sha3_256 (utf8 k +:+ be_bytes 8 n)) (reverse path)) ∨
    ∃ k' v', t !! k' = Some v' ∧ is_collision (utf8 k +:+ be_bytes 8 n, utf8 k' +:+ v') in
  (verify_proof (balance_key a) (be_bytes 8 n) path (trie_root t) = true →
     balances (ledger s) !! a = Some n ∨ collides (balance_key a)) ∧
  (verify_proof (nonce_key a) (be_bytes 8 n) path (trie_root t) = true →
     sender_nonce (idx s) !! a = Some n ∨ collides (nonce_key a)).
Proof.
  apply rebuild_spec in Hr as [_ Hspec]. intros t collides.
  assert (map_Forall (λ _ x, String.length x = 8%nat) t) as Hw.
  { intros k v Hk%Hspec. by eapply committed_width. }
  pose proof (be_bytes_length 8 n) as Hl.
  split; intros H; apply (verify_proof_sound t _ _ path 8 Hne Hw Hl) in H as [Hk|Hc];
    try (by right); left; apply Hspec in Hk.
  - apply committed_balance_inv in Hk as (m & Hm & ? & He). by apply be_bytes_inj in He as ->.
  - apply committed_nonce_inv in Hk as (m & Hm & ? & He). by apply be_bytes_inj in He as ->.
Qed.

Lemma light_client_sound_witness :
  let s' := (rebuild_state_trie two_account_state).2 in
  let t := state_trie (trie s') in
  verify_proof (C := Toy.crypto) (balance_key "qv1a") (be_bytes 8 70)
    (merkle_proof (C := Toy.crypto) (sorted_leaves (C := Toy.crypto) t) 0)
    (trie_root (C := Toy.crypto) t) = true ∧
  (balances (ledger two_account_state) !! "qv1a" = Some 70 ∨
   (is_collision (C := Toy.crypto) (forged_at (C := Toy.crypto)
      (build_tree (sorted_leaves (C := Toy.crypto) t))
      (sha3_256 (Crypto := Toy.crypto) (utf8 (balance_key "qv1a") +:+ be_bytes 8 70))
      (reverse (merkle_proof (C := Toy.crypto) (sorted_leaves (C := Toy.crypto) t) 0))) ∨
    ∃ k' v', t !! k' = Some v' ∧
      is_collision (C := Toy.crypto) (utf8 (balance_key "qv1a") +:+ be_bytes 8 70, utf8 k' +:+ v'))).
Proof.
  intros s' t. split; [vm_compute; reflexivity|].
  apply (@light_client_sound Toy.crypto Toy.laws two_account_state s' "qv1a" 70
    (merkle_proof (C := Toy.crypto) (sorted_leaves (C := Toy.crypto) t) 0)).
  - vm_compute. reflexivity.
  - intros H. apply (f_equal (λ m, m !! balance_key "qv1a")) in H. vm_compute in H. discriminate H.
  - done.
  - vm_compute. reflexivity.
Defined.
