(* ===== verification/Staking.v ===== *)
(** * Staking, epochs and slashing

    [core/staking.py]: double-sign evidence and the slash it triggers, the
    distribution of epoch rewards to delegators, epoch rotation and the
    maturing of unbonding entries. *)
From S2P Require Import Prelude PyStr Json Config Crypto StateTrie Wallet Transaction Fees Block Receipt ChainState Ledger.
Open Scope Z_scope.

(** ** Slashing *)

(** At least one unit is slashed when there is any stake. *)
Definition slash_of (total : Z) : Z :=
  let amount := total * SLASH_PERCENTAGE / 100 in
  if (amount <=? 0) && (0 <? total) then 1 else amount.

(** One turn of the loop over the stakers of the slashed validator *)
Definition reduce_staker (d : dict string Z) (e : string * Z) : dict string Z :=
  let reduction := slash_of e.2 in
  let new_amount := Z.max 0 (e.2 - reduction) in
  if new_amount =? 0 then dpop d e.1 else dset d e.1 new_amount.
(** [stakers = dict(self._stakes[vaddr])] is iterated, the entry itself changed. *)
Definition reduce_stakers (d : dict string Z) : dict string Z := foldl reduce_staker d d.

Definition MAX_MEM_EVENTS : Z := Z.max (MAX_REORG_DEPTH * 2) 200.
(** [l[-n:]] once the list is longer than [n] *)
Definition keep_last {A} (n : Z) (l : list A) : list A :=
  if n <? Z.of_nat (length l) then drop (length l - Z.to_nat n) l else l.

(** The frozen validator set after a slash: the validator leaves below the
    minimum, otherwise its weight is the new one. *)
Definition slash_epoch_set (vaddr : string) (new_total : Z) (l : list (string * Z)) : list (string * Z) :=
  let l := filter (λ e, e.1 ≠ vaddr ∨ MIN_STAKE <= new_total) l in
  if MIN_STAKE <=? new_total then (λ e, if decide (e.1 = vaddr) then (e.1, new_total) else e) <$> l
  else l.

Definition apply_slash (vaddr evidence_id : string) (block_index : Z) (st : Staking) : Staking :=
  let total := get_or (total_stake st) vaddr 0 in
  let slash_amount := slash_of total in
  let new_total := Z.max 0 (total - slash_amount) in
  let stakes1 := match dget (stakes st) vaddr with
                 | Some stakers => dset (stakes st) vaddr (reduce_stakers stakers)
                 | None => stakes st
                 end in
  let below := new_total <? MIN_STAKE in
  st <| stakes := if below then dpop stakes1 vaddr else stakes1 |>
     <| total_stake ::= λ m, if below then delete vaddr m else <[vaddr := new_total]> m |>
     <| slashed_validators ::= union {[vaddr]} |>
     <| processed_evidence ::= union {[vaddr]} |>
     <| slashing_events ::= λ l,
          keep_last MAX_MEM_EVENTS (l ++ [mkSlash vaddr evidence_id slash_amount block_index]) |>
     <| epoch_validators ::= slash_epoch_set vaddr new_total |>.

(** [self.consensus.remove_validator] *)
Definition remove_validator (vaddr : string) : M Consensus unit := modify (set validators (delete vaddr)).

Definition slash_validator (vaddr evidence_id : string) (block_index : Z) : M Chain unit :=
  total ← gets (λ s, get_or (total_stake (staking s)) vaddr 0);
  _ ← on staking (modify (apply_slash vaddr evidence_id block_index));
  when (Z.max 0 (total - slash_of total) <? MIN_STAKE) (on cons (remove_validator vaddr)).

(** [bytes.fromhex(v)] inside [try ... except ValueError: return] *)
Definition fromhex_or_return {S} (v : JVal) (k : string → M S unit) : M S unit :=
  t ← lift (as_str v);
  match fromhex t with Some b => k b | None => mret tt end.

Section Evidence.
Context `{C : Crypto}.

(** Every exit of [_process_evidence_tx] returns [None], the successful one too. *)
Definition process_evidence_tx (tx : Transaction) (block_index : Z) : M Chain unit :=
  let p := payload tx in
  vaddr ← lift (jget_str p "validator_address");
  s ← get;
  if is_empty vaddr || bool_decide (vaddr ∈ processed_evidence (staking s)) then mret tt
  else match validator_registry (keys s) !! vaddr with
  | None => mret tt
  | Some vpk =>
      fromhex_or_return (jget p "block_a_sig" (JStr EmptyString)) (λ block_a_sig,
      fromhex_or_return (jget p "block_b_sig" (JStr EmptyString)) (λ block_b_sig,
      fromhex_or_return (jget p "block_a_header" (JStr EmptyString)) (λ header_a,
      fromhex_or_return (jget p "block_b_header" (JStr EmptyString)) (λ header_b,
      if negb (MLDSA_verify vpk header_a block_a_sig) then mret tt
      else if negb (MLDSA_verify vpk header_b block_b_sig) then mret tt
      else slash_validator vaddr (tx_id tx) block_index))))
  end.
End Evidence.

(** ** Epoch rewards *)

Definition total_delegated (validator_addr : string) (stakers : dict string Z) : Z :=
  zsum (filter (λ e, e.1 ≠ validator_addr) stakers).*2.

(** The delegators' part of the rewards, capped by what the validator holds *)
Definition delegator_pool (rewards commission_rate val_bal : Z) : Z :=
  let pool := rewards - rewards * commission_rate / 100 in
  if val_bal <? pool then val_bal else pool.

(** The inner loop: credits each delegator its share and returns the credits. *)
Fixpoint distribute_shares (validator_addr : string) (pool total : Z) (stakers : list (string * Z))
    : M Ledger (list (string * Z)) :=
  match stakers with
  | [] => mret []
  | (delegator, stake) :: rest =>
      if decide (delegator = validator_addr) then distribute_shares validator_addr pool total rest
      else
        let share := pool * stake / total in
        if 0 <? share then
          _ ← credit delegator share;
          credits ← distribute_shares validator_addr pool total rest;
          mret ((delegator, share) :: credits)
        else distribute_shares validator_addr pool total rest
  end.

(** The turn of one validator: the credits and debits it adds *)
Definition distribute_to (snapshot : option (gmap string Z)) (validator_addr : string)
    (stakers : dict string Z) : M Ledger (list (string * Z) * list (string * Z)) :=
  l ← get;
  let commission_rate := get_or (validator_commission l) validator_addr DEFAULT_COMMISSION_RATE in
  let total := total_delegated validator_addr stakers in
  let rewards := get_or (epoch_rewards l) validator_addr 0 in
  if bool_decide (stakers = []) || (total =? 0) || (rewards =? 0) then mret ([], [])
  else
    let live_bal := bal l validator_addr in
    let val_bal := match snapshot with
                   | Some snap => Z.min (get_or snap validator_addr 0) live_bal
                   | None => live_bal
                   end in
    let pool := delegator_pool rewards commission_rate val_bal in
    credits ← distribute_shares validator_addr pool total stakers;
    let total_distributed := zsum credits.*2 in
    debits ← (if 0 <? total_distributed then
                _ ← debit validator_addr total_distributed;
                mret [(validator_addr, total_distributed)]
              else mret []);
    _ ← modify (set epoch_rewards (<[validator_addr := 0]>));
    mret (credits, debits).

Fixpoint distribute_all (snapshot : option (gmap string Z)) (vs : list (string * dict string Z))
    : M Ledger (list (string * Z) * list (string * Z)) :=
  match vs with
  | [] => mret ([], [])
  | (v, stakers) :: rest =>
      x ← distribute_to snapshot v stakers;
      y ← distribute_all snapshot rest;
      mret (x.1 ++ y.1, x.2 ++ y.2)
  end.

Definition distribute_epoch_rewards (epoch_number : Z) (snapshot : option (gmap string Z)) : M Chain unit :=
  s ← get;
  on ledger (
    x ← distribute_all snapshot (stakes (staking s));
    _ ← modify (set epoch_rewards (fmap (λ _, 0)));
    modify (set last_epoch_distributions (<[epoch_number := mkDist x.1 x.2]>))).

Definition get_epoch_rewards (s : Chain) (v : string) : Z := get_or (epoch_rewards (ledger s)) v 0.
Definition get_validator_commission (s : Chain) (v : string) : Z :=
  get_or (validator_commission (ledger s)) v DEFAULT_COMMISSION_RATE.
Definition get_slashing_events (s : Chain) (v : string) : list SlashEvent :=
  if is_empty v then slashing_events (staking s)
  else filter (λ e, sl_validator e = v) (slashing_events (staking s)).

(** ** Epoch rotation *)

(** [{v: balances.get(v, 0) for v in stakes}] *)
Definition balance_snapshot (s : Chain) : gmap string Z :=
  list_to_map ((λ v, (v, bal (ledger s) v)) <$> (stakes (staking s)).*1).

Definition check_epoch_transition (block_index : Z) : M Chain unit :=
  s ← get;
  let new_epoch := block_index / EPOCH_LENGTH in
  let cur := current_epoch (staking s) in
  if (EPOCH_LENGTH <=? 0) then mret tt
  else when ((cur <? new_epoch) || ((block_index =? 0) && bool_decide (epochs (staking s) = ∅)))
    (_ ← when ((0 <? new_epoch) && financial_active (ledger s))
           (distribute_epoch_rewards (new_epoch - 1) (Some (balance_snapshot s)));
     on staking (modify (λ st,
       let live := live_validators st in
       st <| current_epoch := new_epoch |> <| epoch_validators := live |>
          <| epochs ::= <[new_epoch := live]> |>))).

(** ** Unbonding *)

Fixpoint release_matured (financial : bool) (current_index : Z) (l : list Unbonding)
    : M Ledger (list Unbonding) :=
  match l with
  | [] => mret []
  | e :: rest =>
      if ub_release e <=? current_index then
        _ ← when financial (credit (ub_staker e) (ub_amount e));
        release_matured financial current_index rest
      else
        remaining ← release_matured financial current_index rest;
        mret (e :: remaining)
  end.

Definition process_mature_unbondings (current_index : Z) : M Chain unit :=
  s ← get;
  remaining ← on ledger (release_matured (financial_active (ledger s)) current_index (unbonding (staking s)));
  on staking (modify (set unbonding (λ _, remaining))).

(** ** Maturing: what is released and to whom *)

Definition matured (i : Z) (l : list Unbonding) : list Unbonding := filter (λ e, ub_release e <= i) l.
Definition pending (i : Z) (l : list Unbonding) : list Unbonding := filter (λ e, ¬ (ub_release e <= i)) l.
Definition ub_total (l : list Unbonding) : Z := zsum (ub_amount <$> l).
Definition ub_total_of (a : string) (l : list Unbonding) : Z :=
  ub_total (filter (λ e, ub_staker e = a) l).

Lemma balances_set f L : balances (L <| balances ::= f |>) = f (balances L).
Proof. done. Qed.

Lemma ub_total_cons e l : ub_total (e :: l) = ub_amount e + ub_total l.
Proof. done. Qed.
Lemma ub_total_split i l : ub_total l = ub_total (matured i l) + ub_total (pending i l).
Proof.
  unfold matured, pending. induction l as [|e l IH]; [done|].
  rewrite !filter_cons. repeat case_decide; try tauto; rewrite ?ub_total_cons; lia.
Qed.

Lemma release_matured_spec fin i l L :
  Forall (λ e, 0 <= ub_amount e) l →
  ∃ bals, release_matured fin i l L = (Ok (pending i l), L <| balances := bals |>) ∧
    (∀ a, get_or bals a 0 = bal L a + (if fin then ub_total_of a (matured i l) else 0)) ∧
    msum bals = msum (balances L) + (if fin then ub_total (matured i l) else 0) ∧
    (positive_map (balances L) → positive_map bals).
Proof.
  revert L. induction l as [|e l IH]; intros L Hl.
  { exists (balances L). unfold bal, ub_total_of, ub_total. split_and!; [by destruct L| |simpl|done].
    - intros a. destruct fin; cbn; lia.
    - destruct fin; cbn; lia. }
  apply list.Forall_cons in Hl as [He Hl]. cbn [release_matured].
  unfold matured, pending. rewrite !filter_cons.
  destruct (Z.leb_spec (ub_release e) i) as [Hi|Hi].
  - destruct (decide (ub_release e <= i)); [|tauto].
    destruct (decide (¬ _)) as [|_]; [tauto|]. fold (matured i l) (pending i l).
    set (L1 := if fin then L <| balances ::= credit_map (ub_staker e) (ub_amount e) |> else L).
    destruct (IH L1 Hl) as (bals & Hrun & Hget & Hsum & Hpos). exists bals.
    split; [|split; [|split]].
    + unfold mbind, M_bind, when. subst L1. destruct fin; [|done].
      rewrite credit_run. destruct (Z.ltb_spec (ub_amount e) 0); [lia|]. by rewrite Hrun.
    + intros a. rewrite Hget. unfold ub_total_of. rewrite filter_cons. subst L1. destruct fin; [|done].
      unfold bal. rewrite balances_set, credit_map_get. case_decide; rewrite ?ub_total_cons; lia.
    + rewrite Hsum. subst L1. destruct fin; [|done]. rewrite balances_set, credit_map_sum, ub_total_cons. lia.
    + intros Hp. apply Hpos. subst L1. destruct fin; [|done]. by apply credit_map_positive.
  - destruct (decide (ub_release e <= i)); [lia|].
    destruct (decide (¬ _)) as [_|?]; [|tauto]. fold (matured i l) (pending i l).
    destruct (IH L Hl) as (bals & Hrun & Hrest). exists bals. split; [|done].
    unfold mbind, M_bind. by rewrite Hrun.
Qed.

(** ** Shares *)

Definition share_of (pool total stake : Z) : Z := pool * stake / total.

Lemma floor_shares_le pool total stakes :
  0 <= pool → 0 < total → Forall (λ x, 0 <= x) stakes →
  zsum (share_of pool total <$> stakes) * total <= pool * zsum stakes.
Proof.
  intros Hp Ht. induction 1 as [|x l Hx Hl IH]; csimpl; [lia|].
  unfold share_of at 1. pose proof (Z.mul_div_le (pool * x) total Ht). lia.
Qed.

(** What a list of movements adds up to for one address *)
Definition sum_of (a : string) (l : list (string * Z)) : Z := zsum (filter (λ e, e.1 = a) l).*2.
Lemma sum_of_cons a e l : sum_of a (e :: l) = (if decide (e.1 = a) then e.2 else 0) + sum_of a l.
Proof. unfold sum_of. rewrite filter_cons. case_decide; csimpl; lia. Qed.
Lemma sum_of_app a l k : sum_of a (l ++ k) = sum_of a l + sum_of a k.
Proof. unfold sum_of. by rewrite list.filter_app, fmap_app, zsum_app. Qed.

Lemma distribute_shares_spec v pool total stakers L :
  0 <= pool → 0 < total → Forall (λ e, 0 <= e.2) stakers →
  ∃ credits bals,
    distribute_shares v pool total stakers L = (Ok credits, L <| balances := bals |>) ∧
    zsum credits.*2 = zsum (share_of pool total <$> (filter (λ e, e.1 ≠ v) stakers).*2) ∧
    Forall (λ c, 0 < c.2 ∧ c.1 ≠ v) credits ∧
    msum bals = msum (balances L) + zsum credits.*2 ∧
    (∀ a, get_or bals a 0 = bal L a + sum_of a credits) ∧
    (positive_map (balances L) → positive_map bals).
Proof.
  intros Hp Ht. revert L. induction stakers as [|[d x] rest IH]; intros L Hs.
  { exists [], (balances L). split_and!; [by destruct L|done|constructor|simpl; lia| |done].
    intros a. unfold sum_of. simpl. unfold bal. lia. }
  apply list.Forall_cons in Hs as [Hx Hs]. cbn [distribute_shares snd] in *.
  rewrite filter_cons. cbn [fst]. destruct (decide (d = v)) as [->|Hd].
  { rewrite decide_False by tauto. by apply IH. }
  rewrite decide_True by done. csimpl. fold (share_of pool total x).
  assert (0 <= share_of pool total x) by (apply Z.div_pos; [apply Z.mul_nonneg_nonneg|]; done).
  destruct (Z.ltb_spec 0 (share_of pool total x)) as [Hpos|Hz].
  - set (L1 := L <| balances ::= credit_map d (share_of pool total x) |>).
    destruct (IH L1 Hs) as (cr & bals & Hrun & Hz & Hall & Hsum & Hv & Hposm).
    exists ((d, share_of pool total x) :: cr), bals. split_and!.
    + unfold mbind, M_bind. rewrite credit_run.
      destruct (Z.ltb_spec (share_of pool total x) 0); [lia|]. fold L1. by rewrite Hrun.
    + csimpl. lia.
    + by constructor.
    + rewrite Hsum. subst L1. rewrite balances_set, credit_map_sum. csimpl. lia.
    + intros a. rewrite Hv, sum_of_cons. subst L1. unfold bal.
      rewrite balances_set, credit_map_get. cbn [fst snd]. lia.
    + intros Hm. apply Hposm. subst L1. rewrite balances_set. apply credit_map_positive; [lia|done].
  - destruct (IH L Hs) as (cr & bals & Hrun & Hzs & Hrest). exists cr, bals.
    split; [done|]. split; [lia|done].
Qed.

Lemma sum_of_none v l : Forall (λ c, 0 < c.2 ∧ c.1 ≠ v) l → sum_of v l = 0.
Proof.
  induction 1 as [|c l [Hc Hv] Hl IH]; [done|]. rewrite sum_of_cons, decide_False by done. lia.
Qed.

(** *** One validator's turn, and the whole loop *)

Record epoch_ok (L : Ledger) : Prop := mkEpochOk {
  eo_balances : positive_map (balances L);
  eo_rewards : map_Forall (λ _ r, 0 <= r) (epoch_rewards L);
  eo_commission : map_Forall (λ _ c, 0 <= c <= 100) (validator_commission L) }.

Lemma delegator_pool_bounds rewards rate val_bal :
  0 <= rewards → 0 <= rate <= 100 → 0 <= val_bal → 0 <= delegator_pool rewards rate val_bal <= val_bal.
Proof.
  intros Hr Hc Hv. unfold delegator_pool.
  assert (rewards * rate / 100 <= rewards) by (apply Z.div_le_upper_bound; nia).
  destruct (Z.ltb_spec val_bal (rewards - rewards * rate / 100)); lia.
Qed.

Lemma total_delegated_nonneg v stakers : Forall (λ e, 0 <= e.2) stakers → 0 <= total_delegated v stakers.
Proof.
  intros Hs. apply zsum_nonneg. apply Forall_intro. intros x [e [-> He]]%list_elem_of_fmap.
  apply list_elem_of_filter in He as [_ He]. by apply (Forall_in _ _ _ Hs).
Qed.

(** The delegators together receive no more than the pool. *)
Lemma distributed_le_pool v pool stakers :
  0 <= pool → Forall (λ e, 0 <= e.2) stakers → 0 < total_delegated v stakers →
  zsum (share_of pool (total_delegated v stakers) <$> (filter (λ e, e.1 ≠ v) stakers).*2) <= pool.
Proof.
  intros Hp Hs Ht.
  pose proof (floor_shares_le pool _ (filter (λ e, e.1 ≠ v) stakers).*2 Hp Ht) as H.
  fold (total_delegated v stakers) in H.
  apply Z.mul_le_mono_pos_r with (total_delegated v stakers); [done|]. apply H.
  apply Forall_intro. intros x [e [-> He]]%list_elem_of_fmap.
  apply list_elem_of_filter in He as [_ He]. by apply (Forall_in _ _ _ Hs).
Qed.

Definition snapshot_ok (snapshot : option (gmap string Z)) : Prop :=
  match snapshot with Some snap => ∀ v, 0 <= get_or snap v 0 | None => True end.

(** The movements [cr] and [db] took the ledger from [L] to one with balances
    [bals] and epoch rewards [er], and only moved value. *)
Record moved (L : Ledger) (cr db : list (string * Z)) (bals er : gmap string Z) : Prop := mkMoved {
  mv_balances : ∀ a, get_or bals a 0 = bal L a + sum_of a cr - sum_of a db;
  mv_equal : zsum cr.*2 = zsum db.*2;
  mv_sum : msum bals = msum (balances L);
  mv_credits : Forall (λ c, 0 < c.2) cr;
  mv_positive : positive_map bals;
  mv_rewards : map_Forall (λ _ r, 0 <= r) er;
  mv_dom : dom (epoch_rewards L) ⊆ dom er }.

Lemma moved_refl L : epoch_ok L → moved L [] [] (balances L) (epoch_rewards L).
Proof. intros []. split; try done. intros a. unfold sum_of, bal. simpl. lia. Qed.

Lemma distribute_to_spec snap v stakers L :
  epoch_ok L → snapshot_ok snap → Forall (λ e, 0 <= e.2) stakers →
  ∃ cr db bals er,
    distribute_to snap v stakers L =
      (Ok (cr, db), L <| balances := bals |> <| epoch_rewards := er |>) ∧
    moved L cr db bals er.
Proof.
  intros Hok Hsnap Hs. pose proof Hok as [Hb Hr Hc].
  unfold distribute_to, get. unfold mbind at 1, M_bind at 1. cbv beta iota zeta.
  set (rate := get_or (validator_commission L) v DEFAULT_COMMISSION_RATE).
  set (total := total_delegated v stakers). set (rewards := get_or (epoch_rewards L) v 0).
  set (val_bal := match snap with Some snap => Z.min (get_or snap v 0) (bal L v) | None => bal L v end).
  set (pool := delegator_pool rewards rate val_bal).
  destruct (_ || (rewards =? 0)) eqn:Hskip.
  { exists [], [], (balances L), (epoch_rewards L). split; [by destruct L|by apply moved_refl]. }
  apply orb_false_iff in Hskip as [Hskip _]. apply orb_false_iff in Hskip as [_ Ht%Z.eqb_neq].
  pose proof (total_delegated_nonneg v stakers Hs) as Ht0. fold total in Ht0.
  assert (0 <= rewards) as Hrew.
  { subst rewards. unfold get_or. destruct (epoch_rewards L !! v) eqn:E; [by eapply Hr|done]. }
  assert (0 <= rate <= 100) as Hrate.
  { subst rate. unfold get_or. destruct (validator_commission L !! v) eqn:E; [by eapply Hc|done]. }
  assert (0 <= val_bal <= bal L v) as Hvb.
  { pose proof (positive_get _ v Hb). subst val_bal. destruct snap as [snap|]; [|unfold bal in *; lia].
    pose proof (Hsnap v). unfold bal in *. lia. }
  destruct (delegator_pool_bounds rewards rate val_bal Hrew Hrate) as [Hp0 Hp1]; [lia|]. fold pool in Hp0, Hp1.
  destruct (distribute_shares_spec v pool total stakers L Hp0 ltac:(lia) Hs)
    as (cr & bals & Hrun & Hz & Hall & Hsum & Hget & Hpos).
  pose proof (distributed_le_pool v pool stakers Hp0 Hs ltac:(fold total; lia)) as Hle.
  fold total in Hle. rewrite <-Hz in Hle.
  unfold mbind at 1, M_bind at 1. rewrite Hrun. clear Hrun.
  assert (0 <= zsum cr.*2) as Hcr.
  { apply zsum_nonneg, Forall_intro. intros x [e [-> He]]%list_elem_of_fmap.
    apply (Forall_in _ _ _ Hall) in He. lia. }
  assert (map_Forall (λ _ r, 0 <= r) (<[v := 0]> (epoch_rewards L))) as Her
    by by apply map_Forall_insert_2.
  destruct (Z.ltb_spec 0 (zsum cr.*2)) as [Hd|Hd].
  - exists cr, [(v, zsum cr.*2)], (debit_map v (zsum cr.*2) bals), (<[v := 0]> (epoch_rewards L)). split.
    + unfold mbind, M_bind. rewrite debit_run. destruct (Z.ltb_spec (zsum cr.*2) 0); [lia|].
      unfold bal at 1. cbn [balances set set_balances]. rewrite Hget, (sum_of_none v) by done.
      destruct (Z.ltb_spec (bal L v + 0) (zsum cr.*2)); [lia|]. by rewrite andb_false_r.
    + split; [..|done|cbn; set_solver].
      * intros a. rewrite debit_map_get, Hget, sum_of_cons. change (sum_of a []) with 0. cbn [fst snd]. lia.
      * csimpl. lia.
      * rewrite debit_map_sum. lia.
      * eapply list.Forall_impl; [exact Hall|]. naive_solver.
      * apply debit_map_positive; [|by apply Hpos]. rewrite Hget, (sum_of_none v) by done. lia.
  - exists cr, [], bals, (<[v := 0]> (epoch_rewards L)). split; [done|].
    split; [..|done|cbn; set_solver].
    + intros a. rewrite Hget. change (sum_of a []) with 0. lia.
    + csimpl. lia.
    + lia.
    + eapply list.Forall_impl; [exact Hall|]. naive_solver.
    + by apply Hpos.
Qed.

Lemma moved_trans L cr db bals er cr' db' bals' er' :
  moved L cr db bals er →
  moved (L <| balances := bals |> <| epoch_rewards := er |>) cr' db' bals' er' →
  moved L (cr ++ cr') (db ++ db') bals' er'.
Proof.
  intros [H1 H2 H3 H4 H5 H6 H7] [K1 K2 K3 K4 K5 K6 K7]. split; try done.
  - intros a. rewrite K1, !sum_of_app. unfold bal. cbn. rewrite H1. unfold bal. lia.
  - rewrite !fmap_app, !zsum_app. lia.
  - rewrite K3. exact H3.
  - by apply list.Forall_app.
  - etrans; [exact H7|exact K7].
Qed.

Definition stakes_nonneg (st : Staking) : Prop := Forall (λ e, Forall (λ x, 0 <= x.2) e.2) (stakes st).

Lemma distribute_all_spec snap vs L :
  epoch_ok L → snapshot_ok snap → Forall (λ e, Forall (λ x, 0 <= x.2) e.2) vs →
  ∃ cr db bals er,
    distribute_all snap vs L =
      (Ok (cr, db), L <| balances := bals |> <| epoch_rewards := er |>) ∧
    moved L cr db bals er.
Proof.
  revert L. induction vs as [|[v stakers] vs IH]; intros L Hok Hsnap Hvs.
  { exists [], [], (balances L), (epoch_rewards L). split; [by destruct L|by apply moved_refl]. }
  apply list.Forall_cons in Hvs as [Hs Hvs]. cbn [snd] in Hs.
  destruct (distribute_to_spec snap v stakers L Hok Hsnap Hs) as (cr & db & bals & er & Hrun & Hm).
  destruct (IH (L <| balances := bals |> <| epoch_rewards := er |>)) as (cr' & db' & bals' & er' & Hrun' & Hm');
    [|done|done|].
  { split; [exact (mv_positive _ _ _ _ _ Hm)|exact (mv_rewards _ _ _ _ _ Hm)|apply Hok]. }
  exists (cr ++ cr'), (db ++ db'), bals', er'. split; [|by eapply moved_trans].
  cbn [distribute_all]. unfold mbind, M_bind. rewrite Hrun, Hrun'. done.
Qed.

Lemma distribute_epoch_rewards_spec s e snap :
  epoch_ok (ledger s) → snapshot_ok snap → stakes_nonneg (staking s) →
  ∃ cr db bals er,
    distribute_epoch_rewards e snap s =
      (Ok tt, s <| ledger := ledger s <| balances := bals |>
                 <| epoch_rewards := (λ _, 0) <$> er |>
                 <| last_epoch_distributions ::= <[e := mkDist cr db]> |> |>) ∧
    moved (ledger s) cr db bals er.
Proof.
  intros Hok Hsnap Hs. destruct (distribute_all_spec snap _ _ Hok Hsnap Hs) as (cr & db & bals & er & Hrun & Hm).
  exists cr, db, bals, er. split; [|done].
  unfold distribute_epoch_rewards, get, mbind, M_bind, on, zoom. by rewrite Hrun.
Qed.

(** ** Supply accounting

    What balances, burns, unbonding entries and stakes hold together; for a
    chain that neither creates nor loses value it stays [total_minted]. *)
Definition holdings (s : Chain) : Z :=
  msum (balances (ledger s)) + total_burned (ledger s) + ub_total (unbonding (staking s)) +
  msum (total_stake (staking s)).
(** Value held beyond what was minted *)
Definition unaccounted (s : Chain) : Z := holdings s - total_minted (ledger s).

Lemma process_mature_spec s i :
  Forall (λ e, 0 <= ub_amount e) (unbonding (staking s)) →
  ∃ bals,
    process_mature_unbondings i s =
      (Ok tt, s <| ledger ::= set balances (λ _, bals) |>
                <| staking ::= set unbonding (pending i) |>) ∧
    (∀ a, get_or bals a 0 = bal (ledger s) a +
       (if financial_active (ledger s) then ub_total_of a (matured i (unbonding (staking s))) else 0)) ∧
    msum bals = msum (balances (ledger s)) +
       (if financial_active (ledger s) then ub_total (matured i (unbonding (staking s))) else 0) ∧
    (positive_map (balances (ledger s)) → positive_map bals).
Proof.
  intros Hu. destruct (release_matured_spec (financial_active (ledger s)) i _ (ledger s) Hu)
    as (bals & Hrun & Hrest). exists bals. split; [|done].
  unfold process_mature_unbondings, get, mbind, M_bind, on, zoom. by rewrite Hrun.
Qed.

(** ** Slashing lemmas *)

Lemma slash_of_bounds t : 0 <= t → 0 <= slash_of t <= t ∧ (0 < t → 0 < slash_of t).
Proof.
  intros Ht. unfold slash_of, SLASH_PERCENTAGE.
  pose proof (Z.div_mod (t * 50) 100 ltac:(done)). pose proof (Z.mod_pos_bound (t * 50) 100 ltac:(done)).
  destruct (Z.leb_spec (t * 50 / 100) 0), (Z.ltb_spec 0 t); simpl; lia.
Qed.

Lemma slash_of_half t : 0 < t → slash_of t = Z.max 1 (t / 2).
Proof.
  intros Ht. unfold slash_of, SLASH_PERCENTAGE.
  change 100 with (2 * 50). rewrite Z.div_mul_cancel_r by done.
  destruct (Z.leb_spec (t / 2) 0), (Z.ltb_spec 0 t); simpl; lia.
Qed.

Lemma foldl_reduce l d :
  NoDup l.*1 → NoDup d.*1 →
  NoDup (foldl reduce_staker d l).*1 ∧
  ∀ a, dget (foldl reduce_staker d l) a =
    match dget l a with
    | Some x => if Z.max 0 (x - slash_of x) =? 0 then None else Some (Z.max 0 (x - slash_of x))
    | None => dget d a
    end.
Proof.
  revert d. induction l as [|[b y] l IH]; intros d Hl Hd; [done|].
  csimpl in *. apply list.NoDup_cons in Hl as [Hb Hl].
  assert (NoDup (reduce_staker d (b, y)).*1) as Hr.
  { unfold reduce_staker. destruct (_ =? 0); auto with pydict. }
  destruct (IH _ Hl Hr) as [H1 H2]. split; [done|]. intros a. rewrite H2.
  destruct (decide (a = b)) as [->|Hne].
  - apply dget_None in Hb. rewrite Hb. unfold reduce_staker. cbn [fst snd].
    destruct (_ =? 0); by autorewrite with pydict.
  - destruct (dget l a); [done|]. unfold reduce_staker. cbn [fst snd].
    destruct (_ =? 0); by autorewrite with pydict.
Qed.

Lemma reduce_stakers_get d a :
  NoDup d.*1 →
  dget (reduce_stakers d) a =
    match dget d a with
    | Some x => if Z.max 0 (x - slash_of x) =? 0 then None else Some (Z.max 0 (x - slash_of x))
    | None => None
    end.
Proof.
  intros Hd. destruct (foldl_reduce d d Hd Hd) as [_ H]. unfold reduce_stakers. rewrite H.
  by destruct (dget d a).
Qed.

Lemma slash_validator_run v ev i s :
  ∃ s', slash_validator v ev i s = (Ok tt, s') ∧
    staking s' = apply_slash v ev i (staking s) ∧
    ledger s' = ledger s ∧ keys s' = keys s ∧ tokens s' = tokens s ∧ idx s' = idx s ∧
    pool s' = pool s ∧ height s' = height s ∧ chain_list s' = chain_list s ∧
    latest_block s' = latest_block s ∧ recs s' = recs s ∧ trie s' = trie s ∧
    (validators (cons s') = validators (cons s) ∨ validators (cons s') = delete v (validators (cons s))) ∧
    chain_tx_ids (cons s') = chain_tx_ids (cons s) ∧ genesis_hash (cons s') = genesis_hash (cons s).
Proof.
  unfold slash_validator, gets, mbind, M_bind, on, zoom, when.
  destruct (_ <? MIN_STAKE); eexists; (split; [reflexivity|]); cbn; split_and!; auto.
Qed.

Lemma apply_slash_total v ev i st w :
  0 <= get_or (total_stake st) v 0 →
  get_or (total_stake (apply_slash v ev i st)) w 0 =
  get_or (total_stake st) w 0 - (if decide (v = w) then slash_of (get_or (total_stake st) v 0) else 0).
Proof.
  intros Ht. unfold apply_slash. set (t := get_or (total_stake st) v 0) in *.
  destruct (slash_of_bounds t Ht) as [Hb _].
  cbn. unfold MIN_STAKE. destruct (Z.ltb_spec (Z.max 0 (t - slash_of t)) 1); autorewrite with pydict;
    case_decide; subst; subst t; lia.
Qed.
Lemma apply_slash_sum v ev i st :
  0 <= get_or (total_stake st) v 0 →
  msum (total_stake (apply_slash v ev i st)) =
  msum (total_stake st) - slash_of (get_or (total_stake st) v 0).
Proof.
  intros Ht. unfold apply_slash. set (t := get_or (total_stake st) v 0) in *.
  destruct (slash_of_bounds t Ht) as [Hb _].
  cbn. unfold MIN_STAKE. destruct (Z.ltb_spec (Z.max 0 (t - slash_of t)) 1); autorewrite with pysum;
    fold t; lia.
Qed.

Lemma apply_slash_staker v ev i st a w :
  NoDup (stakes st).*1 → NoDup (dget_or (stakes st) v []).*1 →
  staker_info (apply_slash v ev i st) a w =
  if decide (w = v) then
    (let t := get_or (total_stake st) v 0 in let x := staker_info st a v in
     if Z.max 0 (t - slash_of t) <? MIN_STAKE then 0 else Z.max 0 (x - slash_of x))
  else staker_info st a w.
Proof.
  intros Hn Hv. unfold staker_info, apply_slash. cbn. unfold dget_or in *.
  set (below := _ <? MIN_STAKE).
  destruct (dget (stakes st) v) as [stakers|] eqn:E; cbn in Hv.
  - destruct (decide (w = v)) as [->|Hne].
    + destruct below; autorewrite with pydict; [done|]. cbn.
      rewrite reduce_stakers_get by done. destruct (dget stakers a) as [x|]; cbn; [|done].
      destruct (Z.eqb_spec (Z.max 0 (x - slash_of x)) 0); cbn; lia.
    + destruct below; by autorewrite with pydict.
  - destruct (decide (w = v)) as [->|Hne].
    + destruct below; autorewrite with pydict; [done|]. by rewrite E.
    + destruct below; by autorewrite with pydict.
Qed.

(** The evidence handler either leaves the state alone or slashes, and it
    slashes only on two signatures of the registered key. *)
Definition double_signed `{C : Crypto} (s : Chain) (tx : Transaction) (v : string) : Prop :=
  ∃ vpk sa sb ha hb,
    jget (payload tx) "validator_address" (JStr EmptyString) = JStr v ∧ v ≠ EmptyString ∧
    (v ∉ processed_evidence (staking s)) ∧ validator_registry (keys s) !! v = Some vpk ∧
    (fromhex <$> as_str (jget (payload tx) "block_a_sig" (JStr EmptyString))) = Ok (Some sa) ∧
    (fromhex <$> as_str (jget (payload tx) "block_b_sig" (JStr EmptyString))) = Ok (Some sb) ∧
    (fromhex <$> as_str (jget (payload tx) "block_a_header" (JStr EmptyString))) = Ok (Some ha) ∧
    (fromhex <$> as_str (jget (payload tx) "block_b_header" (JStr EmptyString))) = Ok (Some hb) ∧
    MLDSA_verify vpk ha sa = true ∧ MLDSA_verify vpk hb sb = true.

Lemma fromhex_or_return_cases {S} (v : JVal) (k : string → M S unit) s :
  (∃ b, (fromhex <$> as_str v) = Ok (Some b) ∧ fromhex_or_return v k s = k b s) ∨
  (snd (fromhex_or_return v k s) = s).
Proof.
  unfold fromhex_or_return, lift, mbind, M_bind.
  destruct (as_str v) as [t|]; [|by right]. cbn. destruct (fromhex t) as [b|]; [left; eauto|by right].
Qed.

Lemma process_evidence_cases `{C : Crypto} tx i s :
  snd (process_evidence_tx tx i s) = s ∨
  ∃ v, double_signed s tx v ∧ process_evidence_tx tx i s = slash_validator v (tx_id tx) i s.
Proof.
  unfold process_evidence_tx, jget_str, lift, get, mbind, M_bind.
  destruct (jget (payload tx) "validator_address" (JStr "")) as [| | | |v| |] eqn:Ev; try by left.
  cbn [as_str].
  destruct (is_empty v) eqn:Hv; [by left|]. case_bool_decide as Hp; [by left|]. cbn [orb].
  destruct (validator_registry (keys s) !! v) as [vpk|] eqn:Hr; [|by left].
  match goal with |- context [fromhex_or_return ?w ?k s] =>
    destruct (fromhex_or_return_cases w k s) as [(sa & Hsa & Hk)|Hk] end; [|by left; rewrite Hk].
  rewrite Hk. clear Hk. cbv beta.
  match goal with |- context [fromhex_or_return ?w ?k s] =>
    destruct (fromhex_or_return_cases w k s) as [(sb & Hsb & Hk)|Hk] end; [|by left; rewrite Hk].
  rewrite Hk. clear Hk. cbv beta.
  match goal with |- context [fromhex_or_return ?w ?k s] =>
    destruct (fromhex_or_return_cases w k s) as [(ha & Hha & Hk)|Hk] end; [|by left; rewrite Hk].
  rewrite Hk. clear Hk. cbv beta.
  match goal with |- context [fromhex_or_return ?w ?k s] =>
    destruct (fromhex_or_return_cases w k s) as [(hb & Hhb & Hk)|Hk] end; [|by left; rewrite Hk].
  rewrite Hk. clear Hk. cbv beta.
  destruct (MLDSA_verify vpk ha sa) eqn:Hva; [|by left].
  destruct (MLDSA_verify vpk hb sb) eqn:Hvb; [|by left].
  right. exists v. split; [|done]. exists vpk, sa, sb, ha, hb. split_and!; try done.
  by intros ->.
Qed.

(** ** Properties *)

(** The distribution of epoch rewards never raises and only moves value:
    the balances add up to what they did, stay positive, each address gains
    exactly its recorded credits and loses exactly its recorded debits, the
    credits equal the debits, and every accumulated reward is reset. *)
Lemma epoch_distribution_conserves (s : Chain) (e : Z) (snapshot : option (gmap string Z))
  (Hok : epoch_ok (ledger s)) (Hsnap : snapshot_ok snapshot) (Hs : stakes_nonneg (staking s)) :
  ∃ s' credits debits,
    distribute_epoch_rewards e snapshot s = (Ok tt, s') ∧
    last_epoch_distributions (ledger s') !! e = Some (mkDist credits debits) ∧
    (∀ a, bal (ledger s') a = bal (ledger s) a + sum_of a credits - sum_of a debits) ∧
    zsum credits.*2 = zsum debits.*2 ∧
    msum (balances (ledger s')) = msum (balances (ledger s)) ∧
    positive_map (balances (ledger s')) ∧
    (∀ v, get_epoch_rewards s' v = 0) ∧
    staking s' = staking s ∧ total_minted (ledger s') = total_minted (ledger s).
Proof.
  destruct (distribute_epoch_rewards_spec s e snapshot Hok Hsnap Hs)
    as (cr & db & bals & er & Hrun & [H1 H2 H3 H4 H5 H6 H7]).
  eexists _, cr, db. split; [exact Hrun|]. split_and!; try done.
  - cbn. apply lookup_insert_eq.
  - intros v. unfold get_epoch_rewards, get_or. cbn. rewrite lookup_fmap. by destruct (er !! v).
Qed.

(** Two delegators and the validator's own stake, ten units of rewards *)
Definition epoch_state : Chain :=
  empty_Chain <| ledger := empty_Ledger <| balances := <["v" := 100]> ∅ |>
                             <| epoch_rewards := <["v" := 10]> ∅ |> |>
    <| staking := empty_Staking <| stakes := [("v", [("v", 5); ("a", 2); ("b", 1)])] |> |>.

(** C19 Slashing: evidence changes the state only when the accused validator is
    registered, was not slashed before, and its registered key verifies both
    submitted signatures; then half of its stake (at least one unit) is gone,
    every staker loses half of its own (at least one unit) or, when nothing is
    left of the validator, everything, other validators and all balances are
    untouched, and a second piece of evidence against it changes nothing. *)
Theorem evidence_slashes_double_signers `{C : Crypto} (tx : Transaction) (i : Z) (s s' : Chain)
  (r : result unit) (v : string)
  (Hrun : process_evidence_tx tx i s = (r, s')) (Hch : s' ≠ s)
  (Hv : jget (payload tx) "validator_address" (JStr EmptyString) = JStr v)
  (Ht : 0 <= get_validator_stake s v)
  (Hn : NoDup (stakes (staking s)).*1) (Hnv : NoDup (dget_or (stakes (staking s)) v []).*1) :
  double_signed s tx v ∧ r = Ok tt ∧
  (let t := get_validator_stake s v in
   get_validator_stake s' v = t - slash_of t ∧ (0 < t → slash_of t = Z.max 1 (t / 2)) ∧
   ∀ a, get_staker_info s' a v =
     if t - slash_of t <? MIN_STAKE then 0
     else Z.max 0 (get_staker_info s a v - slash_of (get_staker_info s a v))) ∧
  (∀ w, w ≠ v → get_validator_stake s' w = get_validator_stake s w ∧
     ∀ a, get_staker_info s' a w = get_staker_info s a w) ∧
  ledger s' = ledger s ∧ is_slashed s' v = true ∧
  ∀ tx' j, jget (payload tx') "validator_address" (JStr EmptyString) = JStr v →
    process_evidence_tx tx' j s' = (Ok tt, s').
Proof.
  destruct (process_evidence_cases tx i s) as [Hsame|(w & Hds & Heq)]; [by rewrite Hrun in Hsame|].
  pose proof Hds as (? & ? & ? & ? & ? & Hw & ? & _). assert (w = v) as -> by congruence.
  rewrite Heq in Hrun.
  destruct (slash_validator_run v (tx_id tx) i s) as (s1 & Hrun1 & Hst & Hl & Hk & _).
  rewrite Hrun in Hrun1. injection Hrun1 as -> <-.
  unfold get_validator_stake, get_staker_info, is_slashed in *. rewrite Hst.
  destruct (slash_of_bounds _ Ht) as [Hb Hb'].
  split; [done|]. split; [done|]. split; [|split].
  - split; [rewrite apply_slash_total by done; case_decide; [lia|done]|]. split.
    + intros Hp. by apply slash_of_half.
    + intros a. rewrite apply_slash_staker, decide_True by done. cbv zeta.
      by rewrite Z.max_r by lia.
  - intros w Hw'. rewrite apply_slash_total by done. rewrite decide_False by done.
    split; [lia|]. intros a. by rewrite apply_slash_staker, decide_False by done.
  - split; [done|]. split; [by apply bool_decide_eq_true; cbn; set_solver|].
    intros tx' j Htx'. unfold process_evidence_tx, jget_str, lift, get, mbind, M_bind.
    rewrite Htx'. cbn [as_str]. rewrite Hst. rewrite (bool_decide_true (v ∈ _)), orb_true_r; [done|].
    cbn. set_solver.
Qed.

(** A validator with two blocks signed at one height *)
Definition evidence_tx : Transaction :=
  let sig m := JStr (hex (default EmptyString (Toy.sign "k" m))) in
  mkTx EVIDENCE "qv1reporter" EmptyString 0
    [("evidence_type", JStr "double_sign"); ("validator_address", JStr "v");
     ("block_a_sig", sig "A"); ("block_b_sig", sig "B");
     ("block_a_header", JStr (hex "A")); ("block_b_header", JStr (hex "B"))]
    EmptyString EmptyString 0 CHAIN_ID 0 0.
Definition staked_state (stakers : list (string * Z)) : Chain :=
  empty_Chain <| keys := empty_Keys <| validator_registry := <["v" := "k"]> ∅ |> |>
    <| staking := empty_Staking <| stakes := [("v", stakers)] |>
                    <| total_stake := <["v" := zsum stakers.*2]> ∅ |> |>.

Lemma evidence_slashes_double_signers_witness :
  let s := staked_state [("v", 7); ("a", 3)] in
  let s' := (process_evidence_tx (C := Toy.crypto) evidence_tx 9 s).2 in
  s' ≠ s ∧ get_validator_stake s' "v" = 5 ∧ double_signed (C := Toy.crypto) s evidence_tx "v".
Proof.
  intros s s'.
  assert (s' ≠ s) as Hne.
  { intros H. apply (f_equal (λ s, get_validator_stake s "v")) in H. vm_compute in H. discriminate H. }
  split; [exact Hne|]. split; [vm_compute; reflexivity|].
  apply (evidence_slashes_double_signers (C := Toy.crypto) evidence_tx 9 s s' (Ok tt) "v").
  - vm_compute. reflexivity.
  - exact Hne.
  - reflexivity.
  - vm_compute. discriminate.
  - cbn. apply NoDup_singleton.
  - apply (proj1 (bool_decide_eq_true (NoDup (dget_or (stakes (staking s)) "v" []).*1))).
    vm_compute. reflexivity.
Defined.

(** Rounding at a slash: the total of a validator loses one floor, each of
    its stakers another, so the total and the sum of the stakes part.  Three
    stakers of one unit all lose their stake while two units stay recorded
    for the validator, which nobody can withdraw. *)
Lemma slash_rounding_strands_stake :
  let s := staked_state [("a", 1); ("b", 1); ("c", 1)] in
  let s' := (process_evidence_tx (C := Toy.crypto) evidence_tx 9 s).2 in
  get_validator_stake s "v" = dsum (dget_or (stakes (staking s)) "v" []) ∧
  get_validator_stake s' "v" = 2 ∧ dget_or (stakes (staking s')) "v" [] = [].
Proof. vm_compute. auto. Qed.
