(* ===== verification/Consensus.v ===== *)
(** * Consensus

    [core/consensus.py]: the validator set, the stake-weighted and the
    round-robin choice of the producer, and the checks a block must pass.
    [now] is [int(time.time())].  The objects the blockchain injects (nonces,
    transaction identifiers, revoked keys, active validators) are read from
    the chain's state. *)
From S2P Require Import Prelude PyStr Json Config Crypto StateTrie Wallet Transaction Fees Block Receipt ChainState Ledger Staking.
Open Scope Z_scope.

Definition TX_OVERHEAD : Z := 200.
Definition MAX_TX_WIRE_SIZE : Z := TX_OVERHEAD + MAX_TX_PAYLOAD_SIZE + 3309 * 2 + 1952 * 2.

Definition add_validator (address signing_pk : string) : M Consensus unit :=
  modify (set validators (<[address := signing_pk]>)).
Definition is_validator (s : Chain) (address : string) : bool :=
  bool_decide (is_Some (validators (cons s) !! address)).
Definition set_the_genesis_hash (h : string) : M Consensus unit := modify (set genesis_hash (λ _, h)).

(** ** Choosing the producer *)

(** [cumulative += stake; if point < cumulative: return addr], and the
    fallback [active[-1][0]] *)
Fixpoint pick (point cumulative : Z) (active : list (string * Z)) (fallback : string) : string :=
  match active with
  | [] => fallback
  | (addr, stake) :: rest =>
      let cumulative := cumulative + stake in
      if point <? cumulative then addr else pick point cumulative rest fallback
  end.

(** The address at [(base + skips) % n]; [int(elapsed / 15)] on whole seconds *)
Definition select_with_skip (now : Z) (addresses : list string) (base n parent_timestamp : Z)
    (block_timestamp : option Z) : option string :=
  let elapsed := default now block_timestamp - parent_timestamp in
  let skips := Z.max 0 (Z.quot elapsed (BLOCK_INTERVAL * 3)) in
  addresses !! Z.to_nat ((base + skips) mod n).

Definition select_poa (now : Z) (s : Chain) (block_index : Z)
    (parent_timestamp block_timestamp : option Z) : option string :=
  let addresses := sorted_keys (validators (cons s)) in
  if bool_decide (addresses = []) then None
  else
    let n := Z.of_nat (length addresses) in
    let base := block_index mod n in
    match parent_timestamp with
    | Some pt => select_with_skip now addresses base n pt block_timestamp
    | None => addresses !! Z.to_nat base
    end.

Definition select_validator_with_skip (now : Z) (s : Chain) (block_index parent_timestamp : Z)
    (block_timestamp : option Z) : option string :=
  let addresses := sorted_keys (validators (cons s)) in
  if bool_decide (addresses = []) then None
  else
    let n := Z.of_nat (length addresses) in
    select_with_skip now addresses (block_index mod n) n parent_timestamp block_timestamp.

Section Consensus.
Context `{C : Crypto} `{Cfg : ChainConfig}.

Definition dpos_point (block_index : Z) (parent_hash : string) (total : Z) : Z :=
  let seed := sha3_256 (utf8 (parent_hash +:+ ":" +:+ str_of_Z block_index)) in
  from_bytes (str_take 8 seed) mod total.

Definition select_dpos (block_index : Z) (parent_hash : string) (active : list (string * Z))
    : result string :=
  let total := zsum active.*2 in
  if total =? 0 then Raise ZeroDivisionError
  else match list.last active with
       | None => Raise IndexError
       | Some e => Ok (pick (dpos_point block_index parent_hash total) 0 active e.1)
       end.

Definition select_validator (now : Z) (s : Chain) (block_index : Z) (parent_timestamp : option Z)
    (parent_hash : string) (block_timestamp : option Z) : result (option string) :=
  let active := active_validators (staking s) in
  if negb (is_empty parent_hash) && negb (bool_decide (active = []))
  then Some <$> select_dpos block_index parent_hash active
  else Ok (select_poa now s block_index parent_timestamp block_timestamp).

(** ** Validating a block *)

Definition dynamic_active (index : Z) : bool :=
  (DYNAMIC_FEE_ACTIVATION_HEIGHT <=? index) && (0 <? index).

(** The base fee the parent determines for a block *)
Definition expected_base_fee (index : Z) (parent : Block) : Z :=
  let parent_pre := (Block.index parent =? 0) || (Block.index parent <? DYNAMIC_FEE_ACTIVATION_HEIGHT) in
  if (index =? DYNAMIC_FEE_ACTIVATION_HEIGHT) || parent_pre then INITIAL_BASE_FEE
  else next_base_fee (base_fee parent) (effective_block_weight (transactions parent) (validator parent)).

Definition self_weight (b : Block) : Z :=
  zsum (weight_of <$> filter (λ tx, sender tx = validator b) (transactions b)).

Definition check_fees (b parent : Block) (rest : verdict) : verdict :=
  if negb (dynamic_active (index b)) then rest
  else
    let total_weight := block_total_weight (transactions b) in
    refuse_if (negb (base_fee b =? expected_base_fee (index b) parent)) "base_fee mismatch" (
    refuse_if (MAX_BLOCK_WEIGHT <? total_weight) "block weight exceeds the maximum" (
    refuse_if ((0 <? total_weight) && (total_weight * MAX_SELF_TX_WEIGHT_RATIO <? self_weight b * 100))
      "self-tx weight exceeds 25%" rest)).

(** The checks of one transaction before its nonce *)
Definition check_tx (s : Chain) (b : Block) (seen : gset string) (tx : Transaction) (rest : verdict) : verdict :=
  refuse_if (negb (tx_verify tx)) "invalid tx signature" (
  refuse_if (negb (bool_decide (chain_id tx = CHAIN_ID))) "wrong chain_id in tx" (
  refuse_if (bool_decide (tx_id tx ∈ seen)) "duplicate tx in block" (
  refuse_if (bool_decide (tx_id tx ∈ chain_tx_ids (cons s))) "tx already in chain" (
  and_then (validate_payload tx) (
  refuse_if (dynamic_active (index b) && (0 <? weight_of tx) && (max_fee_per_weight tx <? base_fee b))
    "max_fee_per_weight below base_fee" (
  refuse_if (is_key_revoked s (sender tx) "signing") "tx from revoked signing key" rest)))))).

(** The loop: [seen_ids], [sender_nonces], [sender_first_nonce] *)
Fixpoint check_txs (s : Chain) (b : Block) (txs : list Transaction) (seen : gset string)
    (nonces first : gmap string Z) : verdict :=
  match txs with
  | [] =>
      refuse_if (negb (bool_decide
        (map_Forall (λ a _, get_or first a 0 = get_next_nonce s a) nonces))) "nonce mismatch" accept
  | tx :: rest =>
      check_tx s b seen tx (
      let a := sender tx in
      refuse_if (match nonces !! a with Some p => negb (nonce tx =? p + 1) | None => false end) "nonce gap" (
      check_txs s b rest ({[tx_id tx]} ∪ seen) (<[a := nonce tx]> nonces)
        (match first !! a with Some _ => first | None => <[a := nonce tx]> first end)))
  end.

Definition validate_block (now : Z) (s : Chain) (b : Block) (parent : option Block) : verdict :=
  if index b =? 0 then
    refuse_if (negb (is_empty (genesis_hash (cons s))) && negb (bool_decide (block_hash b = genesis_hash (cons s))))
      "genesis hash mismatch" accept
  else match parent with
  | None => reject "parent block required"
  | Some parent =>
      refuse_if (negb (index b =? index parent + 1)) "unexpected index" (
      refuse_if (negb (bool_decide (prev_hash b = block_hash parent))) "prev_hash mismatch" (
      refuse_if (blk_timestamp b <=? blk_timestamp parent) "timestamp must be after parent" (
      refuse_if (now + MAX_BLOCK_DRIFT <? blk_timestamp b) "timestamp too far in future" (
      match validators (cons s) !! validator b with
      | None => reject "unknown validator"
      | Some pk =>
          refuse_if (is_key_revoked s (validator b) "signing") "validator signing key revoked" (
          expected ← select_validator now s (index b) (Some (blk_timestamp parent))
                       (block_hash parent) (Some (blk_timestamp b));
          refuse_if (match expected with
                     | Some e => negb (is_empty e) && negb (bool_decide (validator b = e))
                     | None => false
                     end) "wrong validator turn" (
          refuse_if (negb (verify_signature b pk)) "invalid block signature" (
          check_fees b parent (
          refuse_if (MAX_TX_PER_BLOCK <? Z.of_nat (length (transactions b))) "too many txs" (
          refuse_if (bool_decide (transactions b = []) && negb (dynamic_active (index b)))
            "non-genesis block must contain at least one transaction" (
          refuse_if (MAX_BLOCK_SIZE * 2 <? 500 + Z.of_nat (length (transactions b)) * MAX_TX_WIRE_SIZE)
            "block estimated too large" (
          check_txs s b (transactions b) ∅ ∅ ∅)))))))
      end))))
  end.
End Consensus.

(** ** The producer's share of the points *)

Lemma pick_split point c active fallback :
  Forall (λ e, 0 <= e.2) active → c <= point < c + zsum active.*2 →
  ∃ l1 a stake l2, active = l1 ++ (a, stake) :: l2 ∧ pick point c active fallback = a ∧
    c + zsum l1.*2 <= point < c + zsum l1.*2 + stake.
Proof.
  revert c. induction active as [|[a stake] rest IH]; intros c Hs Hp; csimpl in *; [lia|].
  apply list.Forall_cons in Hs as [Ha Hs]. cbn in Ha.
  destruct (Z.ltb_spec point (c + stake)) as [Hlt|Hge].
  - exists [], a, stake, rest. csimpl. split_and!; [done|done|lia|lia].
  - destruct (IH (c + stake) Hs ltac:(lia)) as (l1 & a' & st' & l2 & -> & Hpick & Hb).
    exists ((a, stake) :: l1), a', st', l2. csimpl. split_and!; [done|done|lia|lia].
Qed.

Lemma pick_elem point c active fallback :
  Forall (λ e, 0 <= e.2) active → c <= point < c + zsum active.*2 →
  pick point c active fallback ∈ active.*1.
Proof.
  intros Hs Hp. destruct (pick_split point c active fallback Hs Hp) as (l1 & a & st & l2 & -> & -> & _).
  rewrite fmap_app. set_solver.
Qed.

(** Among the points [c .. c + total - 1], an entry is picked exactly as many
    times as its stake. *)
Lemma pick_count c active fallback a stake :
  NoDup active.*1 → Forall (λ e, 0 <= e.2) active → (a, stake) ∈ active →
  Z.of_nat (length (filter (λ p, pick p c active fallback = a) (seqZ c (zsum active.*2)))) = stake.
Proof.
  revert c. induction active as [|[b st] rest IH]; intros c Hn Hs Hin; [set_solver|].
  csimpl in *. apply list.NoDup_cons in Hn as [Hb Hn]. apply list.Forall_cons in Hs as [Hst Hs].
  cbn in Hst. pose proof (zsum_nonneg rest.*2) as Hr.
  assert (0 <= zsum rest.*2) as Hrest.
  { apply Hr. apply Forall_intro. intros x [e [-> He]]%list_elem_of_fmap. by apply (Forall_in _ _ _ Hs). }
  rewrite seqZ_app by lia. rewrite list.filter_app, length_app.
  assert (∀ p, p ∈ seqZ c st → (p <? c + st) = true) as H1.
  { intros p [??]%elem_of_seqZ. apply Z.ltb_lt. lia. }
  assert (∀ p, p ∈ seqZ (c + st) (zsum rest.*2) → (p <? c + st) = false) as H2.
  { intros p [??]%elem_of_seqZ. apply Z.ltb_ge. lia. }
  destruct (decide (a = b)) as [->|Hne].
  - assert (stake = st) as Hst'.
    { apply elem_of_cons in Hin as [[= ->]|Hin]; [done|].
      destruct Hb. by apply (list_elem_of_fmap_2 fst) in Hin. }
    subst stake. rewrite filter_all, length_seqZ.
    + rewrite filter_none; [cbn; lia|]. intros p Hp. rewrite H2 by done. intros Hpick. apply Hb. rewrite <-Hpick.
      apply pick_elem; [done|]. apply elem_of_seqZ in Hp. lia.
    + intros p Hp. by rewrite H1.
  - apply elem_of_cons in Hin as [[= -> ->]|Hin]; [done|].
    rewrite (filter_none _ (seqZ c st)); [|intros p Hp; by rewrite H1].
    rewrite <-(IH (c + st) Hn Hs Hin). cbn [length Nat.add]. do 2 f_equal.
    apply filter_ext_in. intros p Hp. by rewrite H2.
Qed.

(** ** What an accepted block satisfies *)

Section Spec.
Context `{C : Crypto} `{Cfg : ChainConfig}.

Record valid_tx (s : Chain) (b : Block) (tx : Transaction) : Prop := mkValidTx {
  vt_signed : tx_verify tx = true;
  vt_chain : chain_id tx = CHAIN_ID;
  vt_fresh : tx_id tx ∉ chain_tx_ids (cons s);
  vt_payload : validate_payload tx = accept;
  vt_offer : dynamic_active (index b) = true → 0 < weight_of tx → base_fee b <= max_fee_per_weight tx;
  vt_not_revoked : is_key_revoked s (sender tx) "signing" = false }.

(** Each transaction carries the next nonce of its sender, counting the
    earlier transactions of the block. *)
Fixpoint nonces_follow (next : string → Z) (txs : list Transaction) : Prop :=
  match txs with
  | [] => True
  | tx :: rest =>
      nonce tx = next (sender tx) ∧
      nonces_follow (λ a, if decide (a = sender tx) then next a + 1 else next a) rest
  end.

Record valid_successor (now : Z) (s : Chain) (b p : Block) : Prop := mkValidSuccessor {
  vs_index : index b = index p + 1;
  vs_prev : prev_hash b = block_hash p;
  vs_time : blk_timestamp p < blk_timestamp b <= now + MAX_BLOCK_DRIFT;
  vs_signed : ∃ pk, validators (cons s) !! validator b = Some pk ∧ verify_signature b pk = true;
  vs_not_revoked : is_key_revoked s (validator b) "signing" = false;
  vs_turn : ∃ e, select_validator now s (index b) (Some (blk_timestamp p)) (block_hash p)
                   (Some (blk_timestamp b)) = Ok e ∧
                 (e = None ∨ e = Some EmptyString ∨ e = Some (validator b));
  vs_base_fee : dynamic_active (index b) = true → base_fee b = expected_base_fee (index b) p;
  vs_weight : dynamic_active (index b) = true → block_total_weight (transactions b) <= MAX_BLOCK_WEIGHT;
  vs_self : dynamic_active (index b) = true → 0 < block_total_weight (transactions b) →
    self_weight b * 100 <= block_total_weight (transactions b) * MAX_SELF_TX_WEIGHT_RATIO;
  vs_count : Z.of_nat (length (transactions b)) <= MAX_TX_PER_BLOCK;
  vs_nonempty : dynamic_active (index b) = false → transactions b ≠ [];
  vs_txs : Forall (valid_tx s b) (transactions b);
  vs_unique : NoDup (tx_id <$> transactions b);
  vs_nonces : nonces_follow (get_next_nonce s) (transactions b) }.

Lemma check_tx_accept s b seen tx rest :
  check_tx s b seen tx rest = accept ↔ valid_tx s b tx ∧ (tx_id tx ∉ seen) ∧ rest = accept.
Proof.
  unfold check_tx. rewrite !refuse_if_accept, and_then_accept, !refuse_if_accept.
  rewrite !negb_false_iff, !bool_decide_eq_true, !bool_decide_eq_false.
  assert (dynamic_active (index b) && (0 <? weight_of tx) && (max_fee_per_weight tx <? base_fee b) = false ↔
    (dynamic_active (index b) = true → 0 < weight_of tx → base_fee b <= max_fee_per_weight tx)) as ->.
  { destruct (dynamic_active _), (Z.ltb_spec 0 (weight_of tx)), (Z.ltb_spec (max_fee_per_weight tx) (base_fee b));
      simpl; split; try done; try lia; intros H'; specialize (H' eq_refl); lia. }
  split.
  - intros (? & ? & ? & ? & ? & ? & ? & ?). split_and!; [|done..]. by split.
  - intros ([] & ? & ?). by split_and!.
Qed.

(** The nonce the loop expects next of an address *)
Definition loop_next (s : Chain) (nonces : gmap string Z) (a : string) : Z :=
  match nonces !! a with Some n => n + 1 | None => get_next_nonce s a end.

Lemma nonces_follow_ext f g txs : (∀ a, f a = g a) → nonces_follow f txs → nonces_follow g txs.
Proof.
  revert f g. induction txs as [|tx rest IH]; intros f g Hfg; [done|]. intros [Hn Hr]. split; [by rewrite <-Hfg|].
  eapply IH; [|exact Hr]. intros a. cbn. by rewrite Hfg.
Qed.

Lemma check_txs_accept s b txs seen nonces first :
  dom nonces = dom first →
  check_txs s b txs seen nonces first = accept ↔
  Forall (valid_tx s b) txs ∧ NoDup (tx_id <$> txs) ∧ Forall (λ tx, tx_id tx ∉ seen) txs ∧
  nonces_follow (loop_next s nonces) txs ∧
  map_Forall (λ a n, n = get_next_nonce s a) first.
Proof.
  revert seen nonces first. induction txs as [|tx rest IH]; intros seen nonces first Hdom; cbn [check_txs].
  { rewrite refuse_if_accept, negb_false_iff, bool_decide_eq_true. split.
    - intros [Hf _]. split_and!; try done; try constructor.
      intros a n Hn. assert (is_Some (nonces !! a)) as [m Hm].
      { apply elem_of_dom. rewrite Hdom. by apply elem_of_dom_2 in Hn. }
      apply Hf in Hm. unfold get_or in Hm. by rewrite Hn in Hm.
    - intros (_ & _ & _ & _ & Hf). split; [|done]. intros a m Hm.
      assert (is_Some (first !! a)) as [n Hn].
      { apply elem_of_dom. rewrite <-Hdom. by apply elem_of_dom_2 in Hm. }
      unfold get_or. rewrite Hn. by apply Hf. }
  rewrite check_tx_accept, refuse_if_accept, IH; clear IH.
  2:{ destruct (first !! sender tx) as [x|] eqn:E; [|set_solver].
      apply elem_of_dom_2 in E. rewrite dom_insert_L, Hdom. set_solver. }
  csimpl. rewrite list.NoDup_cons, !list.Forall_cons.
  assert ((tx_id tx ∉ tx_id <$> rest) ↔ Forall (λ t, tx_id t ≠ tx_id tx) rest) as ->.
  { rewrite list.Forall_forall, list_elem_of_fmap. naive_solver. }
  assert (Forall (λ t, tx_id t ∉ {[tx_id tx]} ∪ seen) rest ↔
    Forall (λ t, tx_id t ≠ tx_id tx) rest ∧ Forall (λ t, tx_id t ∉ seen) rest) as ->.
  { rewrite <-list.Forall_and. apply list.Forall_iff. intros t. set_solver. }
  set (f := loop_next s nonces). set (g := λ a, if decide (a = sender tx) then f a + 1 else f a).
  assert (nonce tx = f (sender tx) → nonces_follow (loop_next s (<[sender tx := nonce tx]> nonces)) rest ↔
    nonces_follow g rest) as Hfollow.
  { intros Hn. assert (∀ a, loop_next s (<[sender tx := nonce tx]> nonces) a = g a) as He.
    { intros a. unfold g, loop_next. rewrite lookup_insert. subst f. unfold loop_next in *.
      destruct (decide (sender tx = a)) as [<-|]; [rewrite decide_True by done; lia|].
      by rewrite decide_False by congruence. }
    split; apply nonces_follow_ext; intros a; by rewrite He. }
  destruct (first !! sender tx) as [x|] eqn:Ef.
  - assert (is_Some (nonces !! sender tx)) as [m Hm].
    { apply elem_of_dom. rewrite Hdom. by apply elem_of_dom_2 in Ef. }
    rewrite Hm, negb_false_iff, Z.eqb_eq. subst f. unfold loop_next at 1 in Hfollow. rewrite Hm in Hfollow.
    unfold loop_next at 2. rewrite Hm. tauto.
  - assert (nonces !! sender tx = None) as Hm.
    { apply not_elem_of_dom. rewrite Hdom. by apply not_elem_of_dom. }
    rewrite Hm. rewrite map_Forall_insert by done.
    subst f. unfold loop_next at 1 in Hfollow. rewrite Hm in Hfollow.
    unfold loop_next at 2. rewrite Hm. tauto.
Qed.

Lemma size_check_idle n : Z.of_nat n <= MAX_TX_PER_BLOCK →
  (MAX_BLOCK_SIZE * 2 <? 500 + Z.of_nat n * MAX_TX_WIRE_SIZE) = false.
Proof.
  intros Hn. assert (MAX_BLOCK_SIZE * 2 = 10485760) as -> by done.
  assert (MAX_TX_WIRE_SIZE = 18914) as -> by done. unfold MAX_TX_PER_BLOCK in Hn.
  apply Z.ltb_ge. lia.
Qed.

Lemma check_fees_accept b p rest :
  check_fees b p rest = accept ↔
  (dynamic_active (index b) = true → base_fee b = expected_base_fee (index b) p) ∧
  (dynamic_active (index b) = true → block_total_weight (transactions b) <= MAX_BLOCK_WEIGHT) ∧
  (dynamic_active (index b) = true → 0 < block_total_weight (transactions b) →
    self_weight b * 100 <= block_total_weight (transactions b) * MAX_SELF_TX_WEIGHT_RATIO) ∧
  rest = accept.
Proof.
  unfold check_fees. destruct (dynamic_active (index b)); cbn [negb];
    [|split; [intros H; by split_and!|by intros (_ & _ & _ & H)]].
  rewrite !refuse_if_accept, negb_false_iff, Z.eqb_eq, Z.ltb_ge, andb_false_iff, !Z.ltb_ge.
  split.
  - intros (? & ? & [?|?] & ?); split_and!; intros; try done; lia.
  - intros (H1 & H2 & H3 & ?). specialize (H1 eq_refl). specialize (H2 eq_refl). specialize (H3 eq_refl).
    split_and!; try done. destruct (Z.le_gt_cases (block_total_weight (transactions b)) 0); [by left|right].
    apply H3. lia.
Qed.

Lemma validate_block_accept now s b p :
  index b ≠ 0 → validate_block now s b (Some p) = accept ↔ valid_successor now s b p.
Proof.
  intros Hi%Z.eqb_neq. unfold validate_block. rewrite Hi, !refuse_if_accept.
  rewrite !negb_false_iff, Z.eqb_eq, bool_decide_eq_true, Z.leb_gt, Z.ltb_ge.
  split.
  - intros (H1 & H2 & H3 & H4 & H). destruct (validators (cons s) !! validator b) as [pk|] eqn:Hpk; [|done].
    rewrite refuse_if_accept in H. destruct H as [Hrev H].
    destruct (select_validator _ _ _ _ _ _) as [e|] eqn:He; [|done]. cbn in H.
    rewrite refuse_if_accept, refuse_if_accept, check_fees_accept, !refuse_if_accept in H.
    rewrite check_txs_accept in H by done.
    destruct H as (Ht & Hs & Hbf & Hw & Hself & Hc & Hne & _ & Htx & Hid & _ & Hnon & _).
    split; try done.
    + exists pk. split; [done|]. by apply negb_false_iff.
    + exists e. split; [done|]. destruct e as [e|]; [right|by left].
      apply andb_false_iff in Ht as [Ht|Ht]; apply negb_false_iff in Ht.
      * left. by destruct e.
      * right. apply bool_decide_eq_true in Ht. by rewrite Ht.
    + by apply Z.ltb_ge.
    + intros Hd. apply andb_false_iff in Hne as [Hne|Hne]; [by apply bool_decide_eq_false in Hne|].
      by rewrite Hd in Hne.
  - intros []. destruct vs_signed0 as (pk & -> & Hs). destruct vs_turn0 as (e & He & Hturn).
    split_and!; try done; [lia..|].
    rewrite refuse_if_accept. split; [done|]. rewrite He. cbn.
    rewrite !refuse_if_accept, check_fees_accept, !refuse_if_accept, check_txs_accept by done.
    rewrite size_check_idle by done. split_and!; try done.
    + destruct Hturn as [->|[->| ->]]; [done|done|]. by rewrite bool_decide_true, andb_false_r.
    + by rewrite Hs.
    + by apply Z.ltb_ge.
    + destruct (dynamic_active (index b)); [by rewrite andb_false_r|]. rewrite andb_true_r.
      apply bool_decide_eq_false. by apply vs_nonempty0.
    + apply Forall_intro. set_solver.
Qed.
End Spec.

(** ** Properties *)

(** C14 A block after genesis is accepted on a parent exactly when it is a valid
    successor: next index, linked, later in time and not too far ahead, signed
    by the registered and unrevoked validator whose turn it is, with the base
    fee the parent determines and within the weight limits once dynamic fees
    are active, not empty before, and with distinct, fresh, signed, well-formed
    transactions of unrevoked senders whose nonces continue the chain without
    a gap.  The size estimate never refuses a block the count admits. *)
Theorem validate_block_exact `{C : Crypto} `{Cfg : ChainConfig} (now : Z) (s : Chain) (b p : Block)
  (Hi : index b ≠ 0) :
  validate_block now s b (Some p) = accept ↔ valid_successor now s b p.
Proof. by apply validate_block_accept. Qed.

(** A validator with key ["k"] and a block of one notarization on a parent *)
Module Sample.
#[local] Existing Instance Toy.crypto.
Definition signed (tx : Transaction) (sk : string) : Transaction :=
  match tx_sign tx sk sk with Ok t => t | Raise _ => tx end.
Definition sealed (b : Block) (sk : string) : Block :=
  match block_sign b sk with Ok b' => b' | Raise _ => b end.
Definition addr : string := derive_address "k".
Definition tx (n : Z) : Transaction := signed (mk_notarize 1000 addr n 0 0 "ab" "") "k".
Definition parent : Block := mkBlock 6 "aa" [] addr 1000 EmptyString 0 EmptyString EmptyString.
Definition block : Block :=
  sealed (mkBlock 7 (block_hash parent) [tx 0; tx 1] addr 1010 EmptyString 0 EmptyString EmptyString) "k".
Definition state : Chain :=
  empty_Chain <| cons := empty_Consensus <| validators := <[addr := "k"]> ∅ |> |>.
End Sample.

Lemma validate_block_exact_witness :
  index Sample.block ≠ 0 ∧
  valid_successor (C := Toy.crypto) (Cfg := legacy_config) 1000 Sample.state Sample.block Sample.parent.
Proof.
  split; [vm_compute; discriminate|].
  apply (validate_block_exact (C := Toy.crypto) (Cfg := legacy_config)); [vm_compute; discriminate|].
  vm_compute. reflexivity.
Defined.

(** Stake-weighted selection: with non-negative stakes that do not add up to
    zero the draw returns a validator of the list with positive stake; the
    fallback is never taken, the validator is the one whose segment of the
    stakes contains the drawn point, and among all points each validator is
    chosen exactly as often as it has units of stake. *)
Lemma dpos_proportional `{C : Crypto} (i : Z) (parent_hash : string) (active : list (string * Z))
  (Hs : Forall (λ e, 0 <= e.2) active) (Ht : 0 < zsum active.*2) :
  let total := zsum active.*2 in
  (∃ l1 a stake l2, active = l1 ++ (a, stake) :: l2 ∧ 0 < stake ∧
    select_dpos i parent_hash active = Ok a ∧
    zsum l1.*2 <= dpos_point i parent_hash total < zsum l1.*2 + stake) ∧
  (NoDup active.*1 → ∀ a stake fallback, (a, stake) ∈ active →
    Z.of_nat (length (filter (λ p, pick p 0 active fallback = a) (seqZ 0 total))) = stake).
Proof.
  intros total. split; [|intros Hn a stake fb Hin; by apply pick_count].
  assert (0 <= dpos_point i parent_hash total < total) as Hp by (by apply Z.mod_pos_bound).
  unfold select_dpos. fold total. destruct (Z.eqb_spec total 0); [lia|].
  destruct (list.last active) as [e|] eqn:El.
  2:{ apply last_None in El. subst active. unfold total in *. cbn in Ht. lia. }
  destruct (pick_split (dpos_point i parent_hash total) 0 active e.1 Hs Hp)
    as (l1 & a & stake & l2 & Heq & Hpick & Hb).
  exists l1, a, stake, l2. rewrite Hpick. split_and!; [done|lia|done|lia|lia].
Qed.

(** The round robin of the fallback disagrees with itself: a producer's turn
    is decided without the time that passed, a block's turn with it.  With two
    validators and fifteen to twenty-nine seconds since the parent, the
    address that is told to produce is never the one whose block is accepted,
    so while the gap lasts nobody extends the chain. *)
Lemma poa_turns_disagree `{C : Crypto} (now : Z) (s : Chain)
  (i pt bt : Z) (parent_hash : string)
  (Ha : active_validators (staking s) = []) (Hn : length (sorted_keys (validators (cons s))) = 2%nat)
  (Hbt : 15 <= bt - pt < 30) :
  ∃ producer accepted, producer ≠ accepted ∧
    select_validator now s i None parent_hash None = Ok (Some producer) ∧
    select_validator now s i (Some pt) parent_hash (Some bt) = Ok (Some accepted).
Proof.
  unfold select_validator. rewrite Ha. rewrite andb_false_r. unfold select_poa, select_with_skip. cbn [default].
  pose proof (sorted_keys_NoDup (validators (cons s))) as Hd.
  destruct (sorted_keys (validators (cons s))) as [|x [|y [|]]]; try done. cbn [length].
  rewrite bool_decide_false by done. cbn [default id].
  assert (Z.quot (bt - pt) (BLOCK_INTERVAL * 3) = 1) as ->.
  { change (BLOCK_INTERVAL * 3) with 15. rewrite Z.quot_div_nonneg by lia.
    symmetry. apply (Z.div_unique _ _ _ (bt - pt - 15)); lia. }
  assert (x ≠ y) as Hxy. { apply list.NoDup_cons in Hd as [Hx _]. set_solver. }
  change (Z.of_nat 2) with 2. change (Z.max 0 1) with 1.
  assert (i mod 2 = 0 ∨ i mod 2 = 1) as [-> | ->] by (pose proof (Z.mod_pos_bound i 2); lia).
  - exists x, y. done.
  - exists y, x. done.
Qed.

