(* ===== verification/Store.v ===== *)
(** * The database

    [core/store.py]: the SQLite tables of a node, the statements the store
    executes on them, and its transactions.  A table is the list of its rows in
    rowid order; one with a primary key is a dictionary from the key to the
    other columns.  A statement that breaks a constraint raises and changes
    nothing; what was written since the last commit is undone by a rollback and
    lost when the process stops.

    The thread-local connections and the locks around them are not modelled:
    the state is the one the writing thread sees. *)
From S2P Require Import Prelude PyStr Json JsonText Config Crypto Transaction Block Receipt ChainState.
Open Scope Z_scope.

(** ** Rows *)

Record TxRow := mkTxRow {
  tr_block : Z; tr_idx : Z; tr_sender : string; tr_recipient : string; tr_type : string; tr_nonce : Z }.
Record ReceiptRow := mkReceiptRow {
  rr_status : string; rr_fee : Z; rr_block : Z; rr_index : Z; rr_events : string }.
Record EventRow := mkEventRow { er_block : Z; er_tx : string; er_type : string; er_data : string }.

(** ** Tables *)

Record Db := mkDb {
  t_blocks : dict Z (string * string);  (** blocks: idx, then hash and data *)
  t_txs : dict string TxRow;  (** txs: tx_id *)
  t_notarizations : dict (string * string) bool;  (** notarizations: (doc_hash, tx_id), then is_first *)
  t_keys : dict (string * Z) string;  (** key_registry: (address, seq), then encryption_pk *)
  t_validators : dict string string;  (** validator_registry *)
  t_revoked : dict (string * string) Revocation;  (** revoked_keys: (address, key_type) *)
  t_stakes : dict (string * string) Z;  (** stakes: (staker, validator) *)
  t_unbonding : list (Z * Unbonding);  (** unbonding: id *)
  t_epochs : dict Z (Z * string);  (** epochs: epoch_number, then block_start and validators_json *)
  t_slashing : list (Z * SlashEvent);  (** slashing_events: id *)
  t_balances : dict string Z;  (** balances *)
  t_supply : dict string Z;  (** supply *)
  t_receipts : dict string ReceiptRow;  (** receipts: tx_id *)
  t_events : list (Z * EventRow);  (** events: id *)
  t_tokens : dict string Token;  (** tokens: token_id *)
  t_token_balances : dict (string * string) Z;  (** token_balances: (token_id, address) *)
  t_block_events : list (Z * string);  (** block_level_events *)
  seq_unbonding : Z;  (** the highest id given out in each table with AUTOINCREMENT *)
  seq_slashing : Z;
  seq_events : Z;
}.
#[export] Instance set_t_blocks : Setter t_blocks := λ f x, mkDb (f (t_blocks x)) (t_txs x) (t_notarizations x)
  (t_keys x) (t_validators x) (t_revoked x) (t_stakes x) (t_unbonding x) (t_epochs x) (t_slashing x) (t_balances x)
  (t_supply x) (t_receipts x) (t_events x) (t_tokens x) (t_token_balances x) (t_block_events x) (seq_unbonding x)
  (seq_slashing x) (seq_events x).
#[export] Instance set_t_txs : Setter t_txs := λ f x, mkDb (t_blocks x) (f (t_txs x)) (t_notarizations x) (t_keys x)
  (t_validators x) (t_revoked x) (t_stakes x) (t_unbonding x) (t_epochs x) (t_slashing x) (t_balances x) (t_supply x)
  (t_receipts x) (t_events x) (t_tokens x) (t_token_balances x) (t_block_events x) (seq_unbonding x) (seq_slashing x)
  (seq_events x).
#[export] Instance set_t_notarizations : Setter t_notarizations := λ f x, mkDb (t_blocks x) (t_txs x) (f
  (t_notarizations x)) (t_keys x) (t_validators x) (t_revoked x) (t_stakes x) (t_unbonding x) (t_epochs x) (t_slashing
  x) (t_balances x) (t_supply x) (t_receipts x) (t_events x) (t_tokens x) (t_token_balances x) (t_block_events x)
  (seq_unbonding x) (seq_slashing x) (seq_events x).
#[export] Instance set_t_keys : Setter t_keys := λ f x, mkDb (t_blocks x) (t_txs x) (t_notarizations x) (f (t_keys x))
  (t_validators x) (t_revoked x) (t_stakes x) (t_unbonding x) (t_epochs x) (t_slashing x) (t_balances x) (t_supply x)
  (t_receipts x) (t_events x) (t_tokens x) (t_token_balances x) (t_block_events x) (seq_unbonding x) (seq_slashing x)
  (seq_events x).
#[export] Instance set_t_validators : Setter t_validators := λ f x, mkDb (t_blocks x) (t_txs x) (t_notarizations x)
  (t_keys x) (f (t_validators x)) (t_revoked x) (t_stakes x) (t_unbonding x) (t_epochs x) (t_slashing x) (t_balances
  x) (t_supply x) (t_receipts x) (t_events x) (t_tokens x) (t_token_balances x) (t_block_events x) (seq_unbonding x)
  (seq_slashing x) (seq_events x).
#[export] Instance set_t_revoked : Setter t_revoked := λ f x, mkDb (t_blocks x) (t_txs x) (t_notarizations x) (t_keys
  x) (t_validators x) (f (t_revoked x)) (t_stakes x) (t_unbonding x) (t_epochs x) (t_slashing x) (t_balances x)
  (t_supply x) (t_receipts x) (t_events x) (t_tokens x) (t_token_balances x) (t_block_events x) (seq_unbonding x)
  (seq_slashing x) (seq_events x).
#[export] Instance set_t_stakes : Setter t_stakes := λ f x, mkDb (t_blocks x) (t_txs x) (t_notarizations x) (t_keys x)
  (t_validators x) (t_revoked x) (f (t_stakes x)) (t_unbonding x) (t_epochs x) (t_slashing x) (t_balances x) (t_supply
  x) (t_receipts x) (t_events x) (t_tokens x) (t_token_balances x) (t_block_events x) (seq_unbonding x) (seq_slashing
  x) (seq_events x).
#[export] Instance set_t_unbonding : Setter t_unbonding := λ f x, mkDb (t_blocks x) (t_txs x) (t_notarizations x)
  (t_keys x) (t_validators x) (t_revoked x) (t_stakes x) (f (t_unbonding x)) (t_epochs x) (t_slashing x) (t_balances
  x) (t_supply x) (t_receipts x) (t_events x) (t_tokens x) (t_token_balances x) (t_block_events x) (seq_unbonding x)
  (seq_slashing x) (seq_events x).
#[export] Instance set_t_epochs : Setter t_epochs := λ f x, mkDb (t_blocks x) (t_txs x) (t_notarizations x) (t_keys x)
  (t_validators x) (t_revoked x) (t_stakes x) (t_unbonding x) (f (t_epochs x)) (t_slashing x) (t_balances x) (t_supply
  x) (t_receipts x) (t_events x) (t_tokens x) (t_token_balances x) (t_block_events x) (seq_unbonding x) (seq_slashing
  x) (seq_events x).
#[export] Instance set_t_slashing : Setter t_slashing := λ f x, mkDb (t_blocks x) (t_txs x) (t_notarizations x)
  (t_keys x) (t_validators x) (t_revoked x) (t_stakes x) (t_unbonding x) (t_epochs x) (f (t_slashing x)) (t_balances
  x) (t_supply x) (t_receipts x) (t_events x) (t_tokens x) (t_token_balances x) (t_block_events x) (seq_unbonding x)
  (seq_slashing x) (seq_events x).
#[export] Instance set_t_balances : Setter t_balances := λ f x, mkDb (t_blocks x) (t_txs x) (t_notarizations x)
  (t_keys x) (t_validators x) (t_revoked x) (t_stakes x) (t_unbonding x) (t_epochs x) (t_slashing x) (f (t_balances
  x)) (t_supply x) (t_receipts x) (t_events x) (t_tokens x) (t_token_balances x) (t_block_events x) (seq_unbonding x)
  (seq_slashing x) (seq_events x).
#[export] Instance set_t_supply : Setter t_supply := λ f x, mkDb (t_blocks x) (t_txs x) (t_notarizations x) (t_keys x)
  (t_validators x) (t_revoked x) (t_stakes x) (t_unbonding x) (t_epochs x) (t_slashing x) (t_balances x) (f (t_supply
  x)) (t_receipts x) (t_events x) (t_tokens x) (t_token_balances x) (t_block_events x) (seq_unbonding x) (seq_slashing
  x) (seq_events x).
#[export] Instance set_t_receipts : Setter t_receipts := λ f x, mkDb (t_blocks x) (t_txs x) (t_notarizations x)
  (t_keys x) (t_validators x) (t_revoked x) (t_stakes x) (t_unbonding x) (t_epochs x) (t_slashing x) (t_balances x)
  (t_supply x) (f (t_receipts x)) (t_events x) (t_tokens x) (t_token_balances x) (t_block_events x) (seq_unbonding x)
  (seq_slashing x) (seq_events x).
#[export] Instance set_t_events : Setter t_events := λ f x, mkDb (t_blocks x) (t_txs x) (t_notarizations x) (t_keys x)
  (t_validators x) (t_revoked x) (t_stakes x) (t_unbonding x) (t_epochs x) (t_slashing x) (t_balances x) (t_supply x)
  (t_receipts x) (f (t_events x)) (t_tokens x) (t_token_balances x) (t_block_events x) (seq_unbonding x) (seq_slashing
  x) (seq_events x).
#[export] Instance set_t_tokens : Setter t_tokens := λ f x, mkDb (t_blocks x) (t_txs x) (t_notarizations x) (t_keys x)
  (t_validators x) (t_revoked x) (t_stakes x) (t_unbonding x) (t_epochs x) (t_slashing x) (t_balances x) (t_supply x)
  (t_receipts x) (t_events x) (f (t_tokens x)) (t_token_balances x) (t_block_events x) (seq_unbonding x) (seq_slashing
  x) (seq_events x).
#[export] Instance set_t_token_balances : Setter t_token_balances := λ f x, mkDb (t_blocks x) (t_txs x)
  (t_notarizations x) (t_keys x) (t_validators x) (t_revoked x) (t_stakes x) (t_unbonding x) (t_epochs x) (t_slashing
  x) (t_balances x) (t_supply x) (t_receipts x) (t_events x) (t_tokens x) (f (t_token_balances x)) (t_block_events x)
  (seq_unbonding x) (seq_slashing x) (seq_events x).
#[export] Instance set_t_block_events : Setter t_block_events := λ f x, mkDb (t_blocks x) (t_txs x) (t_notarizations
  x) (t_keys x) (t_validators x) (t_revoked x) (t_stakes x) (t_unbonding x) (t_epochs x) (t_slashing x) (t_balances x)
  (t_supply x) (t_receipts x) (t_events x) (t_tokens x) (t_token_balances x) (f (t_block_events x)) (seq_unbonding x)
  (seq_slashing x) (seq_events x).
#[export] Instance set_seq_unbonding : Setter seq_unbonding := λ f x, mkDb (t_blocks x) (t_txs x) (t_notarizations x)
  (t_keys x) (t_validators x) (t_revoked x) (t_stakes x) (t_unbonding x) (t_epochs x) (t_slashing x) (t_balances x)
  (t_supply x) (t_receipts x) (t_events x) (t_tokens x) (t_token_balances x) (t_block_events x) (f (seq_unbonding x))
  (seq_slashing x) (seq_events x).
#[export] Instance set_seq_slashing : Setter seq_slashing := λ f x, mkDb (t_blocks x) (t_txs x) (t_notarizations x)
  (t_keys x) (t_validators x) (t_revoked x) (t_stakes x) (t_unbonding x) (t_epochs x) (t_slashing x) (t_balances x)
  (t_supply x) (t_receipts x) (t_events x) (t_tokens x) (t_token_balances x) (t_block_events x) (seq_unbonding x) (f
  (seq_slashing x)) (seq_events x).
#[export] Instance set_seq_events : Setter seq_events := λ f x, mkDb (t_blocks x) (t_txs x) (t_notarizations x)
  (t_keys x) (t_validators x) (t_revoked x) (t_stakes x) (t_unbonding x) (t_epochs x) (t_slashing x) (t_balances x)
  (t_supply x) (t_receipts x) (t_events x) (t_tokens x) (t_token_balances x) (t_block_events x) (seq_unbonding x)
  (seq_slashing x) (f (seq_events x)).
Definition empty_Db : Db := mkDb [] [] [] [] [] [] [] [] [] [] [] [] [] [] [] [] [] 0 0 0.

(** [SQLiteStore]: [db] is what the connection of the writing thread sees,
    [committed] what the file holds after the last commit; [s_height] is
    [self._height]. *)
Record Store := mkStore { committed : Db; db : Db; s_height : Z }.
#[export] Instance set_committed : Setter committed := λ f x, mkStore (f (committed x)) (db x) (s_height x).
#[export] Instance set_db : Setter db := λ f x, mkStore (committed x) (f (db x)) (s_height x).
#[export] Instance set_s_height : Setter s_height := λ f x, mkStore (committed x) (db x) (f (s_height x)).

(** ** Statements *)

Section Tables.
Context {K V : Type} `{EqDecision K}.
(** [INSERT INTO], [INSERT OR IGNORE INTO], [INSERT OR REPLACE INTO]: the row
    that replaces another has a new rowid. *)
Definition insert_new (k : K) (v : V) (t : dict K V) : result (dict K V) :=
  if dmem t k then Raise DatabaseError else Ok (t ++ [(k, v)]).
Definition insert_ignore (k : K) (v : V) (t : dict K V) : dict K V := if dmem t k then t else t ++ [(k, v)].
Definition insert_replace (k : K) (v : V) (t : dict K V) : dict K V := dpop t k ++ [(k, v)].
End Tables.
(** [DELETE FROM t WHERE p] *)
Definition delete_where {R} (p : R → bool) (t : list R) : list R := filter (λ r, p r = false) t.
(** [SELECT ... WHERE p] *)
Definition select_where {R} (p : R → bool) (t : list R) : list R := filter (λ r, p r = true) t.

(** A Python integer as a parameter of a statement: 64 bits, signed *)
Definition bind64 (z : Z) : result Z := if (- 2 ^ 63 <=? z) && (z <? 2 ^ 63) then Ok z else Raise OverflowError.

(** [execute] of a statement that cannot break a constraint *)
Definition exec (f : Db → Db) : M Store unit := modify (set db f).
(** [commit] and [rollback] *)
Definition commit : M Store unit := modify (λ s, s <| committed := db s |>).
Definition rollback (s : Store) : Store := s <| db := committed s |>.
Definition commit_if (c : bool) : M Store unit := when c commit.
(** [try: ... except Exception: rollback; raise] *)
Definition atomic {A} (m : M Store A) : M Store A := λ s,
  match m s with (Ok a, s') => (Ok a, s') | (Raise e, s') => (Raise e, rollback s') end.
(** The process stops, and the file is opened again: [__init__] *)
Definition max_idx (d : Db) : Z := foldr Z.max (-1) (t_blocks d).*1.
Definition reopen (s : Store) : Store := mkStore (committed s) (committed s) (max_idx (committed s)).
Definition new_store : Store := mkStore empty_Db empty_Db (-1).

Section Store.
Context `{C : Crypto} `{F : PyFloat}.

(** ** Blocks and transactions *)

Definition block_text (b : Block) : string := print (JObj (block_to_dict b)).
(** [Block.from_dict(json.loads(data))] *)
Definition read_block (data : string) : result Block :=
  match loads data with
  | None => Raise (ValueError "json")
  | Some v => d ← as_dict v; block_from_dict d
  end.

(** [INSERT INTO blocks]; the hash is [UNIQUE]. *)
Definition insert_block (i : Z) (h data : string) : M Store unit :=
  i ← lift (bind64 i);
  d ← gets db;
  if existsb (λ r, bool_decide (r.2.1 = h)) (t_blocks d) then raise DatabaseError
  else t ← lift (insert_new i (h, data) (t_blocks d)); exec (set t_blocks (λ _, t)).
Definition insert_tx (i tx_idx : Z) (tx : Transaction) : M Store unit :=
  n ← lift (bind64 (nonce tx));
  exec (set t_txs (insert_ignore (tx_id tx) (mkTxRow i tx_idx (sender tx) (recipient tx) (tt_value (tx_type tx)) n))).
Definition insert_notarization (tx : Transaction) : M Store unit :=
  dh ← lift (jget_str (payload tx) "documentHash");
  when (negb (is_empty dh))
    (exec (λ d, let first := negb (existsb (λ r, bool_decide (r.1.1 = dh) && r.2) (t_notarizations d)) in
                d <| t_notarizations ::= insert_ignore (dh, tx_id tx) first |>)).
Definition insert_key (tx : Transaction) : M Store unit :=
  epk ← lift (jget_str (payload tx) "encryption_pk");
  when (negb (is_empty epk))
    (exec (λ d, let seq := Z.of_nat (length (select_where (λ r, bool_decide (r.1.1 = sender tx)) (t_keys d))) in
                d <| t_keys ::= insert_ignore (sender tx, seq) epk |>)).
Definition store_tx (i tx_idx : Z) (tx : Transaction) : M Store unit :=
  _ ← insert_tx i tx_idx tx;
  match tx_type tx with
  | NOTARIZE => insert_notarization tx
  | REGISTER_KEY => insert_key tx
  | _ => mret tt
  end.
Fixpoint store_txs (i tx_idx : Z) (txs : list Transaction) : M Store unit :=
  match txs with
  | [] => mret tt
  | tx :: rest => _ ← store_tx i tx_idx tx; store_txs i (tx_idx + 1) rest
  end.
Definition append_block (b : Block) : M Store unit :=
  i ← gets (λ s, s_height s + 1);
  atomic (
    _ ← insert_block i (block_hash b) (block_text b);
    _ ← store_txs i 0 (transactions b);
    _ ← commit;
    modify (set s_height (λ _, i))).

(** [UPDATE blocks SET hash, data WHERE idx] *)
Definition update_block (b : Block) : M Store unit :=
  i ← lift (bind64 (index b));
  d ← gets db;
  if negb (dmem (t_blocks d) i) then commit
  else if existsb (λ r, bool_decide (r.1 ≠ i ∧ r.2.1 = block_hash b)) (t_blocks d) then raise DatabaseError
  else _ ← exec (set t_blocks (λ t, dset t i (block_hash b, block_text b))); commit.

Definition get_block (s : Store) (i : Z) : result (option Block) :=
  match dget (t_blocks (db s)) i with
  | Some (_, data) => b ← read_block data; Ok (Some b)
  | None => Ok None
  end.
Definition get_block_by_hash (s : Store) (h : string) : result (option Block) :=
  match select_where (λ r, bool_decide (r.2.1 = h)) (t_blocks (db s)) with
  | (_, (_, data)) :: _ => b ← read_block data; Ok (Some b)
  | [] => Ok None
  end.
Definition get_tx (s : Store) (tid : string) : result (option Transaction) :=
  match dget (t_txs (db s)) tid with
  | None => Ok None
  | Some row =>
      b ← get_block s (tr_block row);
      match b with
      | Some b => if tr_idx row <? Z.of_nat (length (transactions b))
                  then tx ← py_index (transactions b) (tr_idx row); Ok (Some tx) else Ok None
      | None => Ok None
      end
  end.
Definition get_tx_block (s : Store) (tid : string) : option Z := tr_block <$> dget (t_txs (db s)) tid.
(** [MAX(nonce) + 1], or 0 *)
Definition get_nonce (s : Store) (a : string) : Z :=
  match (λ r, tr_nonce r.2) <$> select_where (λ r, bool_decide (tr_sender r.2 = a)) (t_txs (db s)) with
  | [] => 0
  | n :: l => foldr Z.max n l + 1
  end.
Definition get_notarization (s : Store) (dh : string) : option string :=
  (λ r, r.1.2) <$> head (select_where (λ r, bool_decide (r.1.1 = dh) && r.2) (t_notarizations (db s))).
Definition get_all_notarizations (s : Store) (dh : string) : list string :=
  (λ r, r.1.2) <$> select_where (λ r, bool_decide (r.1.1 = dh)) (t_notarizations (db s)).
(** [ORDER BY seq DESC LIMIT 1] *)
Definition seq_le (x y : (string * Z) * string) : Prop := y.1.2 ≤ x.1.2.
#[global] Instance seq_le_dec : ∀ x y, Decision (seq_le x y).
Proof. intros x y. unfold seq_le. apply _. Defined.
Definition get_encryption_pk (s : Store) (a : string) : option string :=
  snd <$> head (merge_sort seq_le (select_where (λ r, bool_decide (r.1.1 = a)) (t_keys (db s)))).

(** [ORDER BY nonce] and [ORDER BY block_idx, tx_idx] *)
Definition nonce_le (x y : string * TxRow) : Prop := tr_nonce x.2 ≤ tr_nonce y.2.
#[global] Instance nonce_le_dec : ∀ x y, Decision (nonce_le x y).
Proof. intros x y. unfold nonce_le. apply _. Defined.
Definition place_le (x y : string * TxRow) : Prop :=
  tr_block x.2 < tr_block y.2 ∨ (tr_block x.2 = tr_block y.2 ∧ tr_idx x.2 ≤ tr_idx y.2).
#[global] Instance place_le_dec : ∀ x y, Decision (place_le x y).
Proof. intros x y. unfold place_le. apply _. Defined.
(** [LIMIT limit OFFSET offset]: a negative limit is none, a negative offset zero. *)
Definition limit_offset {A} (limit offset : Z) (l : list A) : list A :=
  let l := drop (Z.to_nat offset) l in if limit <? 0 then l else take (Z.to_nat limit) l.

Definition sender_rows (s : Store) (a : string) : list (string * TxRow) :=
  select_where (λ r, bool_decide (tr_sender r.2 = a)) (t_txs (db s)).
Definition recipient_rows (s : Store) (a : string) : list (string * TxRow) :=
  select_where (λ r, bool_decide (tr_recipient r.2 = a)) (t_txs (db s)).
Definition get_txs_by_sender (s : Store) (a : string) : list string := (merge_sort nonce_le (sender_rows s a)).*1.
Definition get_txs_by_sender_count (s : Store) (a : string) : Z := Z.of_nat (length (sender_rows s a)).
Definition get_txs_by_sender_page (s : Store) (a : string) (offset limit : Z) : list string :=
  (limit_offset limit offset (merge_sort nonce_le (sender_rows s a))).*1.
Definition get_txs_by_recipient (s : Store) (a : string) : list string := (merge_sort place_le (recipient_rows s a)).*1.
Definition get_txs_by_recipient_count (s : Store) (a : string) : Z := Z.of_nat (length (recipient_rows s a)).

Definition block_hash_exists (s : Store) (h : string) : bool :=
  existsb (λ r, bool_decide (r.2.1 = h)) (t_blocks (db s)).
Definition tx_exists (s : Store) (tid : string) : bool := dmem (t_txs (db s)) tid.
(** [ORDER BY idx] *)
Definition idx_le (x y : Z * (string * string)) : Prop := x.1 ≤ y.1.
#[global] Instance idx_le_dec : ∀ x y, Decision (idx_le x y).
Proof. intros x y. unfold idx_le. apply _. Defined.
Definition rows_between (p : Z → bool) (d : Db) : list (Z * (string * string)) :=
  merge_sort idx_le (select_where (λ r, p r.1) (t_blocks d)).
Definition get_blocks_range (s : Store) (start stop : Z) : result (list Block) :=
  mmap (λ r, read_block r.2.2) (rows_between (λ i, (start <=? i) && (i <? stop)) (db s)).
Definition get_blocks_count (s : Store) : Z := if 0 <=? s_height s then s_height s + 1 else 0.
Definition latest_block (s : Store) : result (option Block) :=
  if 0 <=? s_height s then get_block s (s_height s) else Ok None.

(** ** Registries

    Every operation takes [commit]: with it, whatever was pending is committed
    with the change. *)

Definition put_validator (a pk : string) (c : bool) : M Store unit :=
  _ ← exec (set t_validators (insert_replace a pk)); commit_if c.
Definition get_validator (s : Store) (a : string) : option string := dget (t_validators (db s)) a.
Definition get_all_validators (s : Store) : list (string * string) := t_validators (db s).
Definition delete_validator (a : string) (c : bool) : M Store unit :=
  _ ← exec (set t_validators (λ t, dpop t a)); commit_if c.

Definition put_stake (staker v : string) (amount : Z) (c : bool) : M Store unit :=
  n ← lift (bind64 amount);
  _ ← exec (set t_stakes (insert_replace (staker, v) n)); commit_if c.
Definition get_stake (s : Store) (staker v : string) : Z := dget_or (t_stakes (db s)) (staker, v) 0.
Definition delete_stake (staker v : string) (c : bool) : M Store unit :=
  _ ← exec (set t_stakes (λ t, dpop t (staker, v))); commit_if c.
Definition get_all_stakes (s : Store) : list (string * string * Z) := t_stakes (db s).

Definition put_unbonding (staker v : string) (amount release_block : Z) (c : bool) : M Store unit :=
  n ← lift (bind64 amount);
  r ← lift (bind64 release_block);
  _ ← exec (λ d, let i := seq_unbonding d + 1 in
              d <| seq_unbonding := i |> <| t_unbonding ::= λ t, t ++ [(i, mkUnbonding staker v n r)] |>);
  commit_if c.
Definition get_mature_unbondings (s : Store) (current_block : Z) : list (Z * Unbonding) :=
  select_where (λ r, ub_release r.2 <=? current_block) (t_unbonding (db s)).
Definition delete_unbonding (staker v : string) (amount release_block : Z) (c : bool) : M Store unit :=
  n ← lift (bind64 amount);
  r ← lift (bind64 release_block);
  _ ← exec (set t_unbonding (delete_where (λ row, bool_decide (row.2 = mkUnbonding staker v n r)))); commit_if c.
Definition delete_unbondings_from_block (from_block : Z) (c : bool) : M Store unit :=
  n ← lift (bind64 from_block);
  _ ← exec (set t_unbonding (delete_where (λ r, n <=? ub_release r.2))); commit_if c.

Definition put_revocation (a key_type : string) (rev : Revocation) (c : bool) : M Store unit :=
  _ ← exec (set t_revoked (insert_replace (a, key_type) rev)); commit_if c.
Definition get_revocation (s : Store) (a key_type : string) : option Revocation := dget (t_revoked (db s)) (a, key_type).
Definition delete_revocation (a key_type : string) (c : bool) : M Store unit :=
  _ ← exec (set t_revoked (λ t, dpop t (a, key_type))); commit_if c.
Definition get_all_revocations (s : Store) : list (string * string * Revocation) := t_revoked (db s).

Definition put_epoch (epoch_number block_start : Z) (validators_json : string) (c : bool) : M Store unit :=
  n ← lift (bind64 epoch_number);
  b ← lift (bind64 block_start);
  _ ← exec (set t_epochs (insert_replace n (b, validators_json))); commit_if c.
Definition get_epoch (s : Store) (epoch_number : Z) : option (Z * string) := dget (t_epochs (db s)) epoch_number.
Definition delete_epochs_from (epoch_number : Z) (c : bool) : M Store unit :=
  n ← lift (bind64 epoch_number);
  _ ← exec (set t_epochs (delete_where (λ r, n <=? r.1))); commit_if c.
(** [ORDER BY epoch_number] *)
Definition epoch_le (x y : Z * (Z * string)) : Prop := x.1 ≤ y.1.
#[global] Instance epoch_le_dec : ∀ x y, Decision (epoch_le x y).
Proof. intros x y. unfold epoch_le. apply _. Defined.
Definition get_all_epochs (s : Store) : list (Z * (Z * string)) := merge_sort epoch_le (t_epochs (db s)).

Definition put_slashing_event (e : SlashEvent) (c : bool) : M Store unit :=
  n ← lift (bind64 (sl_amount e));
  b ← lift (bind64 (sl_block e));
  _ ← exec (λ d, let i := seq_slashing d + 1 in
              d <| seq_slashing := i |> <| t_slashing ::= λ t, t ++ [(i, mkSlash (sl_validator e) (sl_tx_id e) n b)] |>);
  commit_if c.
(** [ORDER BY block_index] *)
Definition slash_le (x y : SlashEvent) : Prop := sl_block x ≤ sl_block y.
#[global] Instance slash_le_dec : ∀ x y, Decision (slash_le x y).
Proof. intros x y. unfold slash_le. apply _. Defined.
Definition get_slashing_events (s : Store) (v : string) : list SlashEvent :=
  merge_sort slash_le (select_where (λ e, is_empty v || bool_decide (sl_validator e = v)) (snd <$> t_slashing (db s))).
Definition delete_slashing_events_from_block (from_block : Z) (c : bool) : M Store unit :=
  n ← lift (bind64 from_block);
  _ ← exec (set t_slashing (delete_where (λ r, n <=? sl_block r.2))); commit_if c.

(** ** Balances and tokens *)

Definition put_balance (a : string) (amount : Z) (c : bool) : M Store unit :=
  n ← lift (bind64 amount);
  _ ← exec (set t_balances (insert_replace a n)); commit_if c.
Definition get_balance (s : Store) (a : string) : Z := dget_or (t_balances (db s)) a 0.
Definition get_all_balances (s : Store) : list (string * Z) := t_balances (db s).
Definition put_supply (key : string) (value : Z) (c : bool) : M Store unit :=
  n ← lift (bind64 value);
  _ ← exec (set t_supply (insert_replace key n)); commit_if c.
Definition get_supply (s : Store) (key : string) : Z := dget_or (t_supply (db s)) key 0.

(** [INSERT OR REPLACE INTO tokens]: the symbol is [UNIQUE] too, so a row with
    the same symbol is replaced as well. *)
Definition put_token (token_id : string) (meta : Token) (c : bool) : M Store unit :=
  _ ← lift (bind64 (tk_decimals meta));
  _ ← lift (bind64 (tk_max_supply meta));
  _ ← lift (bind64 (tk_total_minted meta));
  _ ← lift (bind64 (tk_created_block meta));
  _ ← exec (set t_tokens (λ t,
        delete_where (λ r, bool_decide (r.1 = token_id ∨ tk_symbol r.2 = tk_symbol meta)) t ++ [(token_id, meta)]));
  commit_if c.
Definition get_token (s : Store) (token_id : string) : option Token := dget (t_tokens (db s)) token_id.
Definition get_all_tokens (s : Store) : list (string * Token) := t_tokens (db s).
Definition delete_token (token_id : string) (c : bool) : M Store unit :=
  _ ← exec (set t_tokens (λ t, dpop t token_id));
  _ ← exec (set t_token_balances (delete_where (λ r, bool_decide (r.1.1 = token_id)))); commit_if c.

Definition put_token_balance (token_id a : string) (amount : Z) (c : bool) : M Store unit :=
  _ ← (if amount <=? 0 then exec (set t_token_balances (λ t, dpop t (token_id, a)))
       else n ← lift (bind64 amount); exec (set t_token_balances (insert_replace (token_id, a) n)));
  commit_if c.
Definition get_token_balance (s : Store) (token_id a : string) : Z := dget_or (t_token_balances (db s)) (token_id, a) 0.
Definition holder_rows (s : Store) (token_id : string) : list (string * Z) :=
  (λ r, (r.1.2, r.2)) <$> select_where (λ r, bool_decide (r.1.1 = token_id) && (0 <? r.2)) (t_token_balances (db s)).
Definition get_token_holders (s : Store) (token_id : string) : list (string * Z) := holder_rows s token_id.
(** [ORDER BY amount DESC, address ASC] *)
Definition holder_le (x y : string * Z) : Prop := y.2 < x.2 ∨ (x.2 = y.2 ∧ String.le x.1 y.1).
#[global] Instance holder_le_dec : ∀ x y, Decision (holder_le x y).
Proof. intros x y. unfold holder_le. apply _. Defined.
Definition get_token_holders_page (s : Store) (token_id : string) (page limit : Z) : list (string * Z) * Z :=
  (limit_offset limit ((page - 1) * limit) (merge_sort holder_le (holder_rows s token_id)),
   Z.of_nat (length (holder_rows s token_id))).
Definition get_address_tokens (s : Store) (a : string) : list (string * Z) :=
  (λ r, (r.1.1, r.2)) <$> select_where (λ r, bool_decide (r.1.2 = a) && (0 <? r.2)) (t_token_balances (db s)).

(** ** Receipts and events *)

Definition events_text (es : list event) : string := print (JList (JObj <$> es)).
(** [json.loads] of what [events_text] wrote *)
Definition read_events (text : string) : result (list event) :=
  match loads text with
  | None => Raise (ValueError "json")
  | Some v => l ← iter_val v; events_from l
  end.
Definition insert_event (bi : Z) (tid : string) (e : event) : M Store unit :=
  when (negb (is_empty (event_type_of e)))
    (exec (λ d, let i := seq_events d + 1 in
       d <| seq_events := i |> <| t_events ::= λ t, t ++ [(i, mkEventRow bi tid (event_type_of e) (print (JObj e)))] |>)).
Definition put_receipt (r : Receipt) (c : bool) : M Store unit :=
  atomic (
    fee ← lift (bind64 (r_fee_paid r));
    bi ← lift (bind64 (r_block_index r));
    ti ← lift (bind64 (r_tx_index r));
    _ ← exec (set t_receipts (insert_replace (r_tx_id r) (mkReceiptRow (r_status r) fee bi ti (events_text (r_events r)))));
    _ ← mfor (insert_event bi (r_tx_id r)) (r_events r);
    commit_if c).
Definition read_receipt (tid : string) (row : ReceiptRow) : result Receipt :=
  es ← read_events (rr_events row);
  new_receipt tid (rr_status row) (rr_fee row) (rr_block row) (rr_index row) es.
Definition get_receipt (s : Store) (tid : string) : result (option Receipt) :=
  match dget (t_receipts (db s)) tid with
  | None => Ok None
  | Some row => r ← read_receipt tid row; Ok (Some r)
  end.
(** [ORDER BY tx_index] *)
Definition row_le (x y : string * ReceiptRow) : Prop := rr_index x.2 ≤ rr_index y.2.
#[global] Instance row_le_dec : ∀ x y, Decision (row_le x y).
Proof. intros x y. unfold row_le. apply _. Defined.
Definition get_receipts_for_block (s : Store) (bi : Z) : result (list Receipt) :=
  mmap (λ r, read_receipt r.1 r.2)
    (merge_sort row_le (select_where (λ r, rr_block r.2 =? bi) (t_receipts (db s)))).
Definition delete_receipts_for_block (bi : Z) (c : bool) : M Store unit :=
  n ← lift (bind64 bi);
  _ ← exec (set t_events (delete_where (λ r, n <=? er_block r.2)));
  _ ← exec (set t_receipts (delete_where (λ r, n <=? rr_block r.2)));
  _ ← exec (set t_block_events (delete_where (λ r, n <=? r.1)));
  commit_if c.

(** The table has no key, so [INSERT OR REPLACE] replaces nothing. *)
Definition put_block_level_events (bi : Z) (es : list event) (c : bool) : M Store unit :=
  when (negb (bool_decide (es = [])))
    (n ← lift (bind64 bi);
     _ ← exec (set t_block_events (λ t, t ++ [(n, events_text es)])); commit_if c).
Definition get_block_level_events (s : Store) (bi : Z) : result (list event) :=
  match select_where (λ r, r.1 =? bi) (t_block_events (db s)) with
  | [] => Ok []
  | (_, text) :: _ => read_events text
  end.
(** [ORDER BY id DESC LIMIT], between 1 and 100 *)
Definition query_events (s : Store) (event_type : string) (bi : option Z) (limit : Z) : list EventRow :=
  limit_offset (Z.min (Z.max limit 1) 100) 0
    (reverse (select_where (λ r, (is_empty event_type || bool_decide (er_type r = event_type))
                               && match bi with Some i => er_block r =? i | None => true end)
       (snd <$> t_events (db s)))).

(** ** Pruning and rollback *)

Definition prune_blocks (before_index : Z) : M Store Z :=
  if before_index <=? 0 then mret 0
  else atomic (
    n ← lift (bind64 before_index);
    d ← gets db;
    let count := Z.of_nat (length (select_where (λ r, r.1 <? n) (t_blocks d))) in
    if count =? 0 then mret 0
    else
      _ ← exec (set t_txs (delete_where (λ r, tr_block r.2 <? n)));
      _ ← exec (set t_blocks (delete_where (λ r, r.1 <? n)));
      _ ← commit;
      mret count).

(** [json.loads(data).get('transactions', [])] and the fields read of each *)
Definition block_txs (data : string) : result (list (dict string JVal)) :=
  match loads data with
  | None => Raise (ValueError "json")
  | Some v => d ← as_dict v; l ← iter_val (jget d "transactions" (JList [])); mmap as_dict l
  end.
Definition tx_payload (td : dict string JVal) : result (dict string JVal) := as_dict (jget td "payload" (JObj [])).
(** The validators registered and the keys revoked in a block *)
Inductive Undo := UndoValidator (a : string) | UndoRevocation (a key_type : string).
Definition undo_of (td : dict string JVal) : result (list Undo) :=
  if bool_decide (jget td "type" JNull = JStr "REGISTER_VALIDATOR") then
    p ← tx_payload td;
    v ← jget_str p "validator_address";
    Ok (if is_empty v then [] else [UndoValidator v])
  else if bool_decide (jget td "type" JNull = JStr "REVOKE_KEY") then
    p ← tx_payload td;
    a ← jget_str td "from";
    kt ← jget_str p "key_type";
    Ok (if is_empty a || is_empty kt then [] else [UndoRevocation a kt])
  else Ok [].
Definition undo_row (u : Undo) : Db → Db :=
  match u with
  | UndoValidator a => set t_validators (λ t, dpop t a)
  | UndoRevocation a kt => set t_revoked (λ t, dpop t (a, kt))
  end.

(** [stake_state], replayed from a transaction of a block that remains *)
Definition slash_key (v : string) (st : dict (string * string) Z) (k : string * string) : dict (string * string) Z :=
  if bool_decide (k.2 = v) then
    let current := dget_or st k 0 in
    let reduction := current * SLASH_PERCENTAGE / 100 in
    let reduction := if (reduction <=? 0) && (0 <? current) then 1 else reduction in
    dset st k (Z.max 0 (current - reduction))
  else st.
Definition replay_stake (st : dict (string * string) Z) (td : dict string JVal) : result (dict (string * string) Z) :=
  let tt := jget td "type" (JStr EmptyString) in
  if bool_decide (tt ∈ [JStr "STAKE"; JStr "DELEGATE"; JStr "UNSTAKE"]) then
    p ← tx_payload td;
    a ← jget_str td "from";
    v ← jget_str p "validator_address";
    amt ← jget_int p "amount" 0;
    Ok (if negb (is_empty v) && (0 <? amt) then
          dset st (a, v) (if bool_decide (tt = JStr "UNSTAKE") then Z.max 0 (dget_or st (a, v) 0 - amt)
                          else dget_or st (a, v) 0 + amt)
        else st)
  else if bool_decide (tt = JStr "EVIDENCE") then
    p ← tx_payload td;
    v ← jget_str p "validator_address";
    Ok (if is_empty v then st else foldl (slash_key v) st st.*1)
  else Ok st.
(** A left fold that can raise *)
Fixpoint foldl_result {A B} (f : A → B → result A) (acc : A) (l : list B) : result A :=
  match l with [] => Ok acc | x :: l' => acc ← f acc x; foldl_result f acc l' end.
Definition replay_block (st : dict (string * string) Z) (row : Z * (string * string)) : result (dict (string * string) Z) :=
  txs ← block_txs row.2.2; foldl_result replay_stake st txs.
Definition bind_stake (r : (string * string) * Z) : result ((string * string) * Z) := n ← bind64 r.2; Ok (r.1, n).

(** The key of a row of [key_registry] as text *)
Definition key_text (r : (string * Z) * string) : string := r.1.1 +:+ ":" +:+ str_of_Z r.1.2.
Definition prune_keys (d : Db) : Db :=
  let live := select_where (λ r, existsb (λ t, bool_decide (tr_sender t.2 = r.1.1)) (t_txs d)) (t_keys d) in
  d <| t_keys ::= delete_where (λ r, negb (existsb (λ r', bool_decide (key_text r' = key_text r)) live)) |>.

Definition delete_epochs (from_index : Z) : Db → Db := set t_epochs (λ t,
  if 0 <? from_index then
    let first := from_index / EPOCH_LENGTH in
    if from_index mod EPOCH_LENGTH =? 0 then delete_where (λ r, first <=? r.1) t
    else delete_where (λ r, first <? r.1) t
  else []).
(** Balances, supply and token balances go altogether. *)
Definition clear_books (from_index : Z) (d : Db) : Db :=
  d <| t_balances := [] |> <| t_supply := [] |>
    <| t_tokens ::= λ t, (λ r, (r.1, with_minted (λ _, 0) r.2)) <$> delete_where (λ r, from_index <=? tk_created_block r.2) t |>
    <| t_token_balances := [] |>.
(** What goes with the blocks *)
Definition drop_rows (n : Z) : M Store unit :=
  _ ← exec (set t_receipts (delete_where (λ r, n <=? rr_block r.2)));
  _ ← exec (set t_events (delete_where (λ r, n <=? er_block r.2)));
  _ ← exec (set t_txs (delete_where (λ r, n <=? tr_block r.2)));
  _ ← exec (λ d, d <| t_notarizations ::= delete_where (λ r, negb (dmem (t_txs d) r.1.2)) |>);
  _ ← exec prune_keys;
  exec (set t_blocks (delete_where (λ r, n <=? r.1))).
Definition rebuild_stakes (n : Z) : M Store unit :=
  _ ← exec (set t_stakes (λ _, []));
  _ ← exec (set t_unbonding (λ _, []));
  d ← gets db;
  st ← lift (foldl_result replay_block [] (rows_between (λ i, i <? n) d));
  rows ← lift (mmap bind_stake (select_where (λ r, 0 <? r.2) st));
  exec (set t_stakes (λ _, rows)).
(** The statements of the rollback, up to the commit *)
Definition undo_all (n : Z) (undo : list Undo) : M Store unit :=
  _ ← drop_rows n;
  _ ← mfor (λ u, exec (undo_row u)) undo;
  _ ← rebuild_stakes n;
  _ ← exec (delete_epochs n);
  _ ← exec (set t_slashing (delete_where (λ r, n <=? sl_block r.2)));
  exec (clear_books n).
Definition undos_of (d : Db) (n : Z) : result (list Undo) :=
  us ← mmap (λ r, txs ← block_txs r.2.2; us ← mmap undo_of txs; Ok (concat us)) (rows_between (λ i, n <=? i) d);
  Ok (concat us).
Definition delete_blocks_from (from_index : Z) : M Store unit :=
  atomic (
    n ← lift (bind64 from_index);
    d ← gets db;
    undo ← lift (undos_of d n);
    _ ← undo_all n undo;
    _ ← commit;
    modify (λ s, s <| s_height := max_idx (db s) |>)).
End Store.
