(* ===== verification/StoreLaws.v ===== *)
(** * The database refines a list of blocks

    The log of a node is a list of blocks.  [represents] relates it to the
    tables of blocks, transactions and notarizations; appending, rolling back
    and the queries of the store are those of the list. *)
From S2P Require Import Prelude PyStr Json JsonText Config Crypto Transaction Block Receipt ChainState Store.
Open Scope Z_scope.

(** ** Transactions with their places *)

Section Laws.
Context `{C : Crypto} `{F : PyFloat}.

Record Placed := mkPlaced { pl_block : Z; pl_idx : Z; pl_tx : Transaction }.
Fixpoint placed_txs (i ti : Z) (txs : list Transaction) : list Placed :=
  match txs with [] => [] | tx :: rest => mkPlaced i ti tx :: placed_txs i (ti + 1) rest end.
Fixpoint placed_from (i : Z) (bs : list Block) : list Placed :=
  match bs with [] => [] | b :: rest => placed_txs i 0 (transactions b) ++ placed_from (i + 1) rest end.
Definition placed (bs : list Block) : list Placed := placed_from 0 bs.

Lemma placed_from_app i bs bs' : placed_from i (bs ++ bs') = placed_from i bs ++ placed_from (i + Z.of_nat (length bs)) bs'.
Proof.
  revert i. induction bs as [|b bs IH]; intros i; [by rewrite Z.add_0_r|]. cbn [app placed_from length]. rewrite IH, app_assoc.
  do 2 f_equal. lia.
Qed.
Lemma placed_app bs bs' : placed (bs ++ bs') = placed bs ++ placed_from (Z.of_nat (length bs)) bs'.
Proof. apply placed_from_app. Qed.
Lemma placed_txs_block i ti txs p : p ∈ placed_txs i ti txs → pl_block p = i.
Proof.
  revert ti. induction txs as [|tx txs IH]; intros ti; cbn [placed_txs]; [by intros ?%elem_of_nil|].
  intros [->|H]%elem_of_cons; [done|by eapply IH].
Qed.
Lemma placed_from_block i bs p : p ∈ placed_from i bs → i <= pl_block p < i + Z.of_nat (length bs).
Proof.
  revert i. induction bs as [|b bs IH]; intros i; cbn [placed_from length]; [by intros ?%elem_of_nil|].
  intros [H%placed_txs_block|H%IH]%elem_of_app; lia.
Qed.
Lemma placed_block bs p : p ∈ placed bs → 0 <= pl_block p < Z.of_nat (length bs).
Proof. intros H%placed_from_block. lia. Qed.
Lemma placed_txs_ids i ti txs : pl_tx <$> placed_txs i ti txs = txs.
Proof. revert ti. induction txs as [|tx txs IH]; intros ti; [done|]. csimpl. by rewrite IH. Qed.
Lemma placed_ids bs : pl_tx <$> placed bs = concat (transactions <$> bs).
Proof.
  unfold placed. generalize 0. induction bs as [|b bs IH]; intros i; [done|]. csimpl. by rewrite fmap_app, placed_txs_ids, IH.
Qed.

(** ** The rows of a log *)

(** [payload.get(k, '')] when it is a string *)
Definition payload_str (tx : Transaction) (k : string) : string :=
  match jget_str (payload tx) k with Ok s => s | Raise _ => EmptyString end.
Definition tx_row (p : Placed) : TxRow :=
  mkTxRow (pl_block p) (pl_idx p) (sender (pl_tx p)) (recipient (pl_tx p)) (tt_value (tx_type (pl_tx p))) (nonce (pl_tx p)).
Definition add_tx (t : dict string TxRow) (p : Placed) : dict string TxRow := insert_ignore (tx_id (pl_tx p)) (tx_row p) t.
Definition txs_of (l : list Placed) : dict string TxRow := foldl add_tx [] l.
(** The document a transaction notarizes *)
Definition notarizes (tx : Transaction) : option string :=
  if decide (tx_type tx = NOTARIZE) then
    let dh := payload_str tx "documentHash" in if is_empty dh then None else Some dh
  else None.
Definition first_of (dh : string) (t : dict (string * string) bool) : bool := existsb (λ r, bool_decide (r.1.1 = dh) && r.2) t.
Definition add_notarization (t : dict (string * string) bool) (p : Placed) : dict (string * string) bool :=
  match notarizes (pl_tx p) with
  | Some dh => insert_ignore (dh, tx_id (pl_tx p)) (negb (first_of dh t)) t
  | None => t
  end.
Definition notarizations_of (l : list Placed) : dict (string * string) bool := foldl add_notarization [] l.
Definition block_row (i : nat) (b : Block) : Z * (string * string) := (Z.of_nat i, (block_hash b, block_text b)).

(** [s] holds the log [bs], and nothing is pending. *)
Record represents (bs : list Block) (s : Store) : Prop := mkRepresents {
  rp_blocks : t_blocks (db s) = imap block_row bs;
  rp_txs : t_txs (db s) = txs_of (placed bs);
  rp_notarizations : t_notarizations (db s) = notarizations_of (placed bs);
  rp_height : s_height s = Z.of_nat (length bs) - 1;
  rp_committed : committed s = db s }.

Lemma represents_new : represents [] new_store.
Proof. by split. Qed.

(** What a transaction must be for its row to be written *)
Definition storable_tx (tx : Transaction) : bool :=
  (- 2 ^ 63 <=? nonce tx) && (nonce tx <? 2 ^ 63) &&
  match tx_type tx with
  | NOTARIZE => match jget_str (payload tx) "documentHash" with Ok _ => true | Raise _ => false end
  | REGISTER_KEY => match jget_str (payload tx) "encryption_pk" with Ok _ => true | Raise _ => false end
  | REVOKE_KEY => match jget_str (payload tx) "key_type" with Ok _ => true | Raise _ => false end
  | REGISTER_VALIDATOR | EVIDENCE => match jget_str (payload tx) "validator_address" with Ok _ => true | Raise _ => false end
  | STAKE | DELEGATE | UNSTAKE =>
      match jget_str (payload tx) "validator_address", jget_int (payload tx) "amount" 0 with Ok _, Ok _ => true | _, _ => false end
  | _ => true
  end.
(** A transaction leaves the other tables alone, apart from the key registry. *)
Definition add_keys (p : Placed) (d : Db) : Db :=
  if decide (tx_type (pl_tx p) = REGISTER_KEY) then
    let epk := payload_str (pl_tx p) "encryption_pk" in
    let a := sender (pl_tx p) in
    if is_empty epk then d
    else d <| t_keys ::= insert_ignore (a, Z.of_nat (length (select_where (λ r, bool_decide (r.1.1 = a)) (t_keys d)))) epk |>
  else d.
Definition add_row (d : Db) (p : Placed) : Db :=
  add_keys p (d <| t_txs ::= λ t, add_tx t p |> <| t_notarizations ::= λ t, add_notarization t p |>).

Lemma bind64_ok z : - 2 ^ 63 <= z < 2 ^ 63 → bind64 z = Ok z.
Proof.
  intros H. unfold bind64. destruct (Z.leb_spec (- 2 ^ 63) z); [|lia]. by destruct (Z.ltb_spec z (2 ^ 63)); [|lia].
Qed.
Lemma store_tx_run i ti tx s : storable_tx tx = true →
  store_tx i ti tx s = (Ok tt, s <| db ::= λ d, add_row d (mkPlaced i ti tx) |>).
Proof.
  unfold storable_tx. rewrite !andb_true_iff, Z.leb_le, Z.ltb_lt. intros [Hn Ht].
  unfold store_tx, insert_tx. rewrite (bind64_ok (nonce tx)) by done. destruct s as [c d h].
  unfold add_row, add_keys, add_tx, tx_row, add_notarization, notarizes, payload_str. cbn [pl_tx].
  destruct (tx_type tx) eqn:E; try (by destruct d); cbn [decide].
  - unfold insert_key. repeat (case_decide; [try done|try done]). destruct (jget_str _ _) as [epk|]; [|done].
    unfold mbind, M_bind, lift, when, exec, modify. cbn. by destruct (is_empty epk), d.
  - unfold insert_notarization. repeat (case_decide; [try done|try done]). destruct (jget_str _ _) as [dh|]; [|done].
    unfold mbind, M_bind, lift, when, exec, modify. cbn. by destruct (is_empty dh), d.
Qed.

(** *** Loops over the transactions of a block *)

Definition add_rows (l : list Placed) (d : Db) : Db := foldl add_row d l.
Lemma store_txs_run i ti txs s : forallb storable_tx txs = true →
  store_txs i ti txs s = (Ok tt, s <| db ::= add_rows (placed_txs i ti txs) |>).
Proof.
  revert ti s. induction txs as [|tx txs IH]; intros ti s; [by destruct s|]. cbn [forallb store_txs placed_txs].
  intros [Ht Hts]%andb_prop. unfold mbind, M_bind. rewrite store_tx_run by done. rewrite IH by done. by destruct s.
Qed.
Lemma add_row_tables d p : t_blocks (add_row d p) = t_blocks d ∧ t_txs (add_row d p) = add_tx (t_txs d) p ∧
  t_notarizations (add_row d p) = add_notarization (t_notarizations d) p.
Proof. unfold add_row, add_keys. case_decide; [|done]. cbn zeta. by destruct (is_empty _). Qed.
Lemma add_rows_tables l d : t_blocks (add_rows l d) = t_blocks d ∧ t_txs (add_rows l d) = foldl add_tx (t_txs d) l ∧
  t_notarizations (add_rows l d) = foldl add_notarization (t_notarizations d) l.
Proof.
  unfold add_rows. revert d. induction l as [|p l IH]; intros d; [done|]. cbn [foldl]. destruct (IH (add_row d p)) as (-> & -> & ->).
  by destruct (add_row_tables d p) as (-> & -> & ->).
Qed.

(** *** All or nothing

    What runs before the commit of an atomic operation touches neither the
    committed tables nor the height, so an exception undoes it. *)
Definition frame (s : Store) : Db * Z := (committed s, s_height s).
Lemma frame_exec f : fixes frame (exec f).
Proof. by apply fixes_modify. Qed.
#[local] Hint Resolve frame_exec : fixes.
Lemma frame_insert_block i h data : fixes frame (insert_block i h data).
Proof. unfold insert_block. auto 10 with fixes. Qed.
Lemma frame_store_txs i ti txs : fixes frame (store_txs i ti txs).
Proof.
  assert (∀ ti tx, fixes frame (store_tx i ti tx)) as Ht.
  { intros ti' tx. unfold store_tx, insert_tx, insert_notarization, insert_key. auto 20 with fixes. }
  revert ti. induction txs as [|tx txs IH]; intros ti; cbn [store_txs]; auto with fixes.
Qed.
(** If [m] raises, it raises before it commits. *)
Definition undoable {A} (m : M Store A) : Prop := ∀ s e s', m s = (Raise e, s') → frame s' = frame s.
Lemma undoable_bind {A B} (m : M Store A) (k : A → M Store B) : fixes frame m → (∀ a, undoable (k a)) → undoable (m ≫= k).
Proof.
  intros Hm Hk s e s'. unfold mbind, M_bind. pose proof (Hm s) as H. destruct (m s) as [[a|e'] s1]; cbn in H.
  - intros E. by rewrite (Hk _ _ _ _ E).
  - by intros [= <- <-].
Qed.
Lemma undoable_commit (f : Store → Store) : undoable (_ ← commit; modify f).
Proof. done. Qed.
Lemma undoable_commit_ret {A} (a : A) : undoable (_ ← commit; mret a).
Proof. done. Qed.
Lemma undoable_fixes {A} (m : M Store A) : fixes frame m → undoable m.
Proof. intros H s e s' E. specialize (H s). by rewrite E in H. Qed.
Lemma atomic_raise {A} (m : M Store A) s e s' : undoable m → committed s = db s → atomic m s = (Raise e, s') → s' = s.
Proof.
  intros Hm Hs. unfold atomic. destruct (m s) as [[a|e'] s1] eqn:E; [done|]. intros [= <- <-].
  apply Hm in E. injection E as E1 E2. unfold rollback. destruct s, s1. cbn in *. by simplify_eq.
Qed.

(** ** Appending *)

Lemma imap_block_row_app bs b : imap block_row (bs ++ [b]) = imap block_row bs ++ [block_row (length bs) b].
Proof. rewrite imap_app. cbn. by rewrite Nat.add_0_r. Qed.
Lemma block_rows_hash bs h : existsb (λ r : Z * (string * string), bool_decide (r.2.1 = h)) (imap block_row bs) = bool_decide (h ∈ block_hash <$> bs).
Proof.
  apply eq_bool_prop_intro. rewrite bool_decide_spec. rewrite Is_true_true, existsb_exists, list_elem_of_fmap. split.
  - intros ([i [h' data]] & H & E%bool_decide_eq_true). apply list_elem_of_In, elem_of_lookup_imap in H as (j & b & [= -> -> ->] & Hb).
    exists b. split; [done|]. by eapply list_elem_of_lookup_2.
  - intros (b & -> & Hb). apply list_elem_of_lookup in Hb as [j Hj]. exists (block_row j b).
    split; [|by apply bool_decide_eq_true]. apply list_elem_of_In, elem_of_lookup_imap. eauto.
Qed.
Lemma block_rows_index bs (i : Z) : dmem (imap block_row bs) i = (0 <=? i) && (i <? Z.of_nat (length bs)).
Proof.
  apply eq_bool_prop_intro. rewrite !Is_true_true. unfold dmem. destruct (dget _ i) eqn:E.
  - apply dget_Some_elem, elem_of_lookup_imap in E as (j & b & [= -> _] & Hj). apply lookup_lt_Some in Hj. lia.
  - apply dget_None in E. split; [done|]. intros H. exfalso. apply E.
    destruct (lookup_lt_is_Some_2 bs (Z.to_nat i)) as [b Hb]; [lia|]. apply list_elem_of_fmap. exists (block_row (Z.to_nat i) b).
    split; [cbn; lia|]. apply elem_of_lookup_imap. eauto.
Qed.

Lemma insert_block_run i h data s : bind64 i = Ok i →
  existsb (λ r : Z * (string * string), bool_decide (r.2.1 = h)) (t_blocks (db s)) = false → dmem (t_blocks (db s)) i = false →
  insert_block i h data s = (Ok tt, s <| db ::= set t_blocks (λ t, t ++ [(i, (h, data))]) |>).
Proof.
  intros H1 H2 H3. unfold insert_block, gets, lift, mbind, M_bind. rewrite H1, H2. unfold insert_new. by rewrite H3.
Qed.
Lemma insert_block_ok bs b s : represents bs s → forallb storable_tx (transactions b) = true →
  block_hash b ∉ block_hash <$> bs → Z.of_nat (length bs) < 2 ^ 63 →
  ∃ s', append_block b s = (Ok tt, s') ∧ represents (bs ++ [b]) s'.
Proof.
  intros [R1 R2 R3 R4 R5] Ht Hh Hl. set (n := Z.of_nat (length bs)) in *.
  assert (append_block b s = let s' := s <| db ::= λ d, add_rows (placed_txs n 0 (transactions b))
    (d <| t_blocks ::= λ t, t ++ [(n, (block_hash b, block_text b))] |>) |> in
    (Ok tt, s' <| committed := db s' |> <| s_height := n |>)) as ->.
  { unfold append_block, gets. unfold mbind at 1, M_bind at 1. rewrite R4. replace (n - 1 + 1) with n by lia.
    unfold atomic. unfold mbind at 1, M_bind at 1. rewrite insert_block_run.
    - unfold mbind at 1, M_bind at 1. rewrite store_txs_run by done. by destruct s.
    - apply bind64_ok. lia.
    - by rewrite R1, block_rows_hash, bool_decide_eq_false_2.
    - rewrite R1, block_rows_index. destruct (Z.ltb_spec n (Z.of_nat (length bs))); [lia|]. by rewrite andb_false_r. }
  eexists. split; [reflexivity|]. cbn zeta.
  destruct (add_rows_tables (placed_txs n 0 (transactions b))
    (db s <| t_blocks ::= λ t, t ++ [(n, (block_hash b, block_text b))] |>)) as (T1 & T2 & T3).
  assert (placed (bs ++ [b]) = placed bs ++ placed_txs n 0 (transactions b)) as E.
  { rewrite placed_app. cbn [placed_from]. by rewrite app_nil_r. }
  split; rewrite ?E; unfold txs_of, notarizations_of; rewrite ?foldl_app; destruct s as [c d h]; cbn in *.
  - rewrite T1. cbn. by rewrite R1, imap_block_row_app.
  - rewrite T2. cbn. by rewrite R2.
  - rewrite T3. cbn. by rewrite R3.
  - rewrite length_app. cbn. lia.
  - done.
Qed.
(** A block whose hash is there already is refused, and an append that raises
    changes nothing. *)
Lemma append_block_dup bs b s : represents bs s → block_hash b ∈ block_hash <$> bs → Z.of_nat (length bs) < 2 ^ 63 →
  append_block b s = (Raise DatabaseError, s).
Proof.
  intros [R1 R2 R3 R4 R5] Hh Hl. unfold append_block, gets. unfold mbind at 1, M_bind at 1. rewrite R4.
  unfold atomic, mbind at 1, M_bind at 1, insert_block, gets, lift, mbind, M_bind. rewrite bind64_ok by lia.
  rewrite R1, block_rows_hash, bool_decide_eq_true_2 by done. cbn. unfold rollback. destruct s. cbn in *. by subst.
Qed.
Lemma append_block_raise b s e s' : committed s = db s → append_block b s = (Raise e, s') → s' = s.
Proof.
  intros Hs. unfold append_block. unfold mbind at 1, M_bind at 1, gets. intros H.
  eapply atomic_raise in H; [done| |done]. apply undoable_bind; [apply frame_insert_block|intros _].
  apply undoable_bind; [apply frame_store_txs|intros _]. apply undoable_commit.
Qed.

(** ** Rolling back *)

Lemma delete_where_all {R} (p : R → bool) l : Forall (λ r, p r = true) l → delete_where p l = [].
Proof.
  induction 1 as [|r l H _ IH]; [done|]. unfold delete_where in *. rewrite filter_cons, decide_False by congruence. done.
Qed.
Lemma delete_where_none {R} (p : R → bool) l : Forall (λ r, p r = false) l → delete_where p l = l.
Proof.
  induction 1 as [|r l H _ IH]; [done|]. unfold delete_where in *. rewrite filter_cons, decide_True by done. by rewrite IH.
Qed.
Lemma delete_where_app {R} (p : R → bool) l l' : delete_where p (l ++ l') = delete_where p l ++ delete_where p l'.
Proof. apply list.filter_app. Qed.
Lemma insert_ignore_cases {K V} `{EqDecision K} (k : K) (v : V) t :
  insert_ignore k v t = t ∨ (dget t k = None ∧ insert_ignore k v t = t ++ [(k, v)]).
Proof. unfold insert_ignore, dmem. destruct (dget t k) eqn:E; [by left|by right]. Qed.
Lemma dmem_keys {K V} `{EqDecision K} (t : dict K V) k : dmem t k = true ↔ k ∈ t.*1.
Proof.
  unfold dmem. destruct (dget t k) eqn:E.
  - split; [intros _|done]. apply dget_Some_elem in E. by apply (list_elem_of_fmap_2 fst) in E.
  - split; [done|]. intros H. by apply dget_None in E.
Qed.

(** The tables of the first part of a log are what a rollback leaves. *)
Lemma txs_of_keys l k : k ∈ (txs_of l).*1 ↔ k ∈ tx_id ∘ pl_tx <$> l.
Proof.
  unfold txs_of. assert (∀ t, k ∈ (foldl add_tx t l).*1 ↔ k ∈ t.*1 ∨ k ∈ tx_id ∘ pl_tx <$> l) as H.
  { induction l as [|p l IH]; intros t; cbn [foldl fmap list_fmap]; [rewrite elem_of_nil; naive_solver|].
    rewrite IH, elem_of_cons. unfold add_tx. destruct (insert_ignore_cases (tx_id (pl_tx p)) (tx_row p) t) as [E|[_ E]].
    - rewrite E. unfold insert_ignore in E. destruct (dmem t (tx_id (pl_tx p))) eqn:D.
      + apply dmem_keys in D. unfold compose. split; [naive_solver|]. intros [?|[->|?]]; tauto.
      + exfalso. apply (f_equal length) in E. rewrite length_app in E. cbn in E. lia.
    - rewrite E, fmap_app, elem_of_app. cbn. rewrite list_elem_of_singleton. unfold compose. tauto. }
  rewrite H. cbn. rewrite elem_of_nil. tauto.
Qed.
Lemma foldl_add_tx_delete n l t : Forall (λ p, n <= pl_block p) l →
  delete_where (λ r : string * TxRow, n <=? tr_block r.2) (foldl add_tx t l) = delete_where (λ r, n <=? tr_block r.2) t.
Proof.
  intros H. revert t. induction H as [|p l Hp _ IH]; intros t; [done|]. cbn [foldl]. rewrite IH. unfold add_tx.
  destruct (insert_ignore_cases (tx_id (pl_tx p)) (tx_row p) t) as [->|[_ ->]]; [done|].
  rewrite delete_where_app, (delete_where_all _ [_]); [by rewrite app_nil_r|]. repeat constructor. cbn. by apply Z.leb_le.
Qed.
Lemma txs_of_rows l : Forall (λ r : string * TxRow, ∃ p, p ∈ l ∧ r = (tx_id (pl_tx p), tx_row p)) (txs_of l).
Proof.
  induction l as [|p l IH] using rev_ind; [constructor|]. unfold txs_of in *. rewrite foldl_app. cbn [foldl].
  assert (Forall (λ r, ∃ q, q ∈ l ++ [p] ∧ r = (tx_id (pl_tx q), tx_row q)) (foldl add_tx [] l)) as IH'.
  { eapply Forall_impl; [|exact IH]. intros r (q & Hq & ->). exists q. set_solver. }
  unfold add_tx at 1. destruct (insert_ignore_cases (tx_id (pl_tx p)) (tx_row p) (foldl add_tx [] l)) as [->|[_ ->]]; [done|].
  apply list.Forall_app. split; [done|]. repeat constructor. exists p. set_solver.
Qed.
Lemma txs_of_delete n l l' : Forall (λ p, pl_block p < n) l → Forall (λ p, n <= pl_block p) l' →
  delete_where (λ r : string * TxRow, n <=? tr_block r.2) (txs_of (l ++ l')) = txs_of l.
Proof.
  intros H1 H2. unfold txs_of at 1. rewrite foldl_app, foldl_add_tx_delete by done. apply delete_where_none.
  eapply Forall_impl; [|apply (txs_of_rows l)]. intros r (p & Hp & ->). cbn.
  rewrite list.Forall_forall in H1. specialize (H1 _ Hp). destruct (Z.leb_spec n (pl_block p)); [lia|done].
Qed.

Lemma add_notarization_cases t p : add_notarization t p = t ∨
  ∃ dh f, add_notarization t p = t ++ [((dh, tx_id (pl_tx p)), f)].
Proof.
  unfold add_notarization. destruct (notarizes (pl_tx p)) as [dh|]; [|by left].
  destruct (insert_ignore_cases (dh, tx_id (pl_tx p)) (negb (first_of dh t)) t) as [->|[_ ->]]; eauto.
Qed.
Lemma notarizations_of_keep (T : list string) l : Forall (λ p, tx_id (pl_tx p) ∈ T) l →
  Forall (λ r : (string * string) * bool, r.1.2 ∈ T) (notarizations_of l).
Proof.
  unfold notarizations_of. assert (∀ t, Forall (λ r : (string * string) * bool, r.1.2 ∈ T) t → Forall (λ p, tx_id (pl_tx p) ∈ T) l →
    Forall (λ r : (string * string) * bool, r.1.2 ∈ T) (foldl add_notarization t l)) as H; [|intros Hl; by apply H].
  induction l as [|p l IH]; intros t Ht Hl; [done|]. apply list.Forall_cons in Hl as [Hp Hl]. cbn [foldl]. apply IH; [|done].
  destruct (add_notarization_cases t p) as [->|(dh & f & ->)]; [done|]. apply list.Forall_app. split; [done|]. by repeat constructor.
Qed.
Lemma notarizations_of_delete q l l' : Forall (λ p, q (tx_id (pl_tx p)) = false) l → Forall (λ p, q (tx_id (pl_tx p)) = true) l' →
  delete_where (λ r : (string * string) * bool, q r.1.2) (notarizations_of (l ++ l')) = notarizations_of l.
Proof.
  intros H1 H2. unfold notarizations_of. rewrite foldl_app.
  assert (∀ t, delete_where (λ r : (string * string) * bool, q r.1.2) (foldl add_notarization t l') =
    delete_where (λ r, q r.1.2) t) as ->.
  { clear H1. induction H2 as [|p l' Hp _ IH]; intros t; [done|]. cbn [foldl]. rewrite IH.
    destruct (add_notarization_cases t p) as [->|(dh & f & ->)]; [done|].
    rewrite delete_where_app, (delete_where_all _ [_]); [by rewrite app_nil_r|]. by repeat constructor. }
  apply delete_where_none. fold (notarizations_of l).
  pose proof (notarizations_of_keep (tx_id ∘ pl_tx <$> l) l) as K. eapply Forall_impl; [|apply K].
  - intros r (p & -> & Hp)%list_elem_of_fmap. rewrite list.Forall_forall in H1. by apply H1.
  - apply list.Forall_forall. intros p Hp. by apply (list_elem_of_fmap_2 (tx_id ∘ pl_tx)).
Qed.
Lemma block_rows_delete n bs : delete_where (λ r, n <=? r.1) (imap block_row bs) = imap block_row (take (Z.to_nat n) bs).
Proof.
  rewrite <-(take_drop (Z.to_nat n) bs) at 1. rewrite imap_app, delete_where_app, delete_where_none, delete_where_all; [by rewrite app_nil_r|..];
    apply list.Forall_forall; intros r (j & b & -> & Hj)%elem_of_lookup_imap; cbn.
  - apply Z.leb_le. apply lookup_lt_Some in Hj. rewrite length_drop in Hj. rewrite length_take. lia.
  - apply Z.leb_gt. apply lookup_lt_Some in Hj. rewrite length_take in Hj. lia.
Qed.

Definition log_ids (bs : list Block) : list string := tx_id <$> concat (transactions <$> bs).
Lemma placed_log_ids bs : tx_id ∘ pl_tx <$> placed bs = log_ids bs.
Proof. unfold log_ids. by rewrite list_fmap_compose, placed_ids. Qed.
Lemma placed_split n bs : ∃ l, placed bs = placed (take (Z.to_nat n) bs) ++ l ∧
  Forall (λ p, pl_block p < n) (placed (take (Z.to_nat n) bs)) ∧ Forall (λ p, n <= pl_block p) l.
Proof.
  eexists. split; [rewrite <-(take_drop (Z.to_nat n) bs) at 1; apply placed_app|]. split; apply list.Forall_forall; intros p Hp.
  - apply placed_block in Hp. rewrite length_take in Hp. lia.
  - apply placed_from_block in Hp. rewrite length_take, length_drop in Hp. lia.
Qed.

(** The three tables of the log *)
Definition log_tables (s : Store) : dict Z (string * string) * dict string TxRow * dict (string * string) bool :=
  (t_blocks (db s), t_txs (db s), t_notarizations (db s)).
Lemma frame_drop_rows n : fixes frame (drop_rows n).
Proof. unfold drop_rows. auto 10 with fixes. Qed.
Lemma drop_rows_tables n s : (drop_rows n s).1 = Ok tt ∧
  log_tables (drop_rows n s).2 =
    (delete_where (λ r, n <=? r.1) (t_blocks (db s)), delete_where (λ r, n <=? tr_block r.2) (t_txs (db s)),
     delete_where (λ r, negb (dmem (delete_where (λ r, n <=? tr_block r.2) (t_txs (db s))) r.1.2)) (t_notarizations (db s))).
Proof. done. Qed.
Lemma drop_rows_log n bs s : represents bs s → NoDup (log_ids bs) →
  log_tables (drop_rows n s).2 = (imap block_row (take (Z.to_nat n) bs), txs_of (placed (take (Z.to_nat n) bs)),
    notarizations_of (placed (take (Z.to_nat n) bs))).
Proof.
  intros [R1 R2 R3 _ _] Hd. destruct (drop_rows_tables n s) as [_ ->]. rewrite R1, block_rows_delete, R2, R3.
  destruct (placed_split n bs) as (l & E & H1 & H2). rewrite <-placed_log_ids, E, fmap_app in Hd. rewrite E.
  rewrite txs_of_delete by done. f_equal. apply (notarizations_of_delete (λ tid, negb (dmem (txs_of (placed (take (Z.to_nat n) bs))) tid)));
    apply list.Forall_forall; intros p Hp; apply (list_elem_of_fmap_2 (tx_id ∘ pl_tx)) in Hp.
  - apply negb_false_iff, dmem_keys, txs_of_keys, Hp.
  - apply negb_true_iff, not_true_is_false. intros H%dmem_keys%txs_of_keys. apply list.NoDup_app in Hd as (_ & Hd & _).
    by apply (Hd _ H).
Qed.

Lemma undo_tables u : fixes log_tables (exec (undo_row u)) ∧ fixes frame (exec (undo_row u)).
Proof. split; [|apply frame_exec]. apply fixes_modify. by destruct u. Qed.
Lemma log_exec f : (∀ d, t_blocks (f d) = t_blocks d ∧ t_txs (f d) = t_txs d ∧ t_notarizations (f d) = t_notarizations d) →
  fixes log_tables (exec f).
Proof. intros H. apply fixes_modify. intros s. unfold log_tables. cbn. by destruct (H (db s)) as (-> & -> & ->). Qed.
#[local] Hint Extern 1 (fixes log_tables (exec _)) => (apply log_exec; by intros []) : fixes.
Lemma rebuild_stakes_fixes n : fixes log_tables (rebuild_stakes n) ∧ fixes frame (rebuild_stakes n).
Proof. unfold rebuild_stakes. split; auto 10 with fixes. Qed.

Lemma max_idx_rows d bs : t_blocks d = imap block_row bs → max_idx d = Z.of_nat (length bs) - 1.
Proof.
  unfold max_idx. intros ->. induction bs as [|b bs IH] using rev_ind; [done|].
  rewrite imap_block_row_app, fmap_app, foldr_app. cbn [foldr fmap list_fmap block_row fst]. rewrite length_app. cbn [length].
  assert (∀ (l : list Z) a, foldr Z.max a l = Z.max a (foldr Z.max (-1) l) ∨ a < -1) as H.
  { induction l as [|x l IH']; intros a; cbn; [|destruct (IH' a)]; lia. }
  destruct (H (imap block_row bs).*1 (Z.max (Z.of_nat (length bs)) (-1))) as [->|]; [|lia]. rewrite IH. lia.
Qed.

Lemma undo_all_tables n undo s s' : undo_all n undo s = (Ok tt, s') → log_tables s' = log_tables (drop_rows n s).2.
Proof.
  unfold undo_all. unfold mbind at 1, M_bind at 1. destruct (drop_rows n s) as [[[]|e] s1]; [|done]. intros H. cbn [snd].
  match type of H with ?m _ = _ => assert (fixes log_tables m) as Hf end; [|specialize (Hf s1); by rewrite H in Hf].
  pose proof undo_tables as Hu. destruct (rebuild_stakes_fixes n) as [Hr _].
  apply fixes_bind; [apply fixes_mfor; intros u; apply Hu|intros _]. auto 10 with fixes.
Qed.

Lemma delete_blocks_from_log n bs s s' : represents bs s → NoDup (log_ids bs) →
  delete_blocks_from n s = (Ok tt, s') → represents (take (Z.to_nat n) bs) s'.
Proof.
  intros R Hd. unfold delete_blocks_from, atomic. unfold mbind at 1, M_bind at 1, lift.
  destruct (bind64 n) as [n'|] eqn:B; [|done]. unfold bind64 in B. destruct (_ && _); [|done]. injection B as <-.
  unfold mbind at 1, M_bind at 1, gets. unfold mbind at 1, M_bind at 1. destruct (undos_of (db s) n) as [undo|]; [|done].
  unfold mbind at 1, M_bind at 1. destruct (undo_all n undo s) as [[[]|e] s1] eqn:E; [|done].
  apply undo_all_tables in E. rewrite (drop_rows_log n bs s R Hd) in E. unfold log_tables in E. injection E as E1 E2 E3.
  intros [= <-]. destruct s1 as [c d h]. split; cbn in *; try done. by apply max_idx_rows.
Qed.
Lemma undo_all_frame n undo : fixes frame (undo_all n undo).
Proof.
  unfold undo_all. pose proof (frame_drop_rows n). destruct (rebuild_stakes_fixes n). pose proof undo_tables.
  apply fixes_bind; [done|intros _]. apply fixes_bind; [by apply fixes_mfor; intros u; apply undo_tables|intros _]. auto 10 with fixes.
Qed.
Lemma delete_blocks_from_raise n s e s' : committed s = db s → delete_blocks_from n s = (Raise e, s') → s' = s.
Proof.
  intros Hs H. eapply atomic_raise in H; [done| |done]. apply undoable_bind; [apply fixes_lift|intros n'].
  apply undoable_bind; [apply fixes_gets|intros d]. apply undoable_bind; [apply fixes_lift|intros undo].
  apply undoable_bind; [apply undo_all_frame|intros _]. apply undoable_commit.
Qed.

(** ** Reading *)

(** A block the database can hold and give back *)
Definition storable (b : Block) : bool :=
  text_ok (JObj (block_to_dict b)) && forallb wire_ok (transactions b) && (0 <=? base_fee b) && forallb storable_tx (transactions b).
Lemma storable_txs b : storable b = true → forallb storable_tx (transactions b) = true.
Proof. unfold storable. by intros [_ ?]%andb_prop. Qed.
Lemma read_block_text b : storable b = true → read_block (block_text b) = Ok b.
Proof.
  unfold storable. rewrite !andb_true_iff, Z.leb_le. intros [[[Ht Hw] Hf] _]. unfold read_block, block_text.
  destruct (loads_text _ EmptyString Ht eq_refl) as [R _]. rewrite string_app_nil in R. rewrite R. cbn [as_dict mbind result_bind].
  by apply block_wire_roundtrip.
Qed.

Context (bs : list Block) (s : Store) (R : represents bs s) (Hs : Forall (λ b, storable b = true) bs).

Lemma rows_NoDup (l : list Block) : NoDup (imap block_row l).*1.
Proof.
  apply NoDup_alt. intros i j x Hi Hj. rewrite list_lookup_fmap, list_lookup_imap in Hi, Hj.
  destruct (l !! i), (l !! j); try done. cbn in *. simplify_eq. lia.
Qed.
Lemma dget_rows i : dget (t_blocks (db s)) i = if 0 <=? i then (λ b, (block_hash b, block_text b)) <$> bs !! Z.to_nat i else None.
Proof using R.
  rewrite (rp_blocks _ _ R). destruct (dmem (imap block_row bs) i) eqn:E; pose proof E as E'; rewrite block_rows_index in E'.
  - destruct (Z.leb_spec 0 i); [|lia]. destruct (lookup_lt_is_Some_2 bs (Z.to_nat i)) as [b Hb]; [lia|]. rewrite Hb. cbn.
    apply dget_elem; [apply rows_NoDup|]. apply elem_of_lookup_imap. exists (Z.to_nat i), b. split; [|done]. unfold block_row.
    by rewrite Z2Nat.id by lia.
  - unfold dmem in E. destruct (dget _ _); [done|]. destruct (Z.leb_spec 0 i); [|done].
    rewrite lookup_ge_None_2; [done|]. lia.
Qed.
Lemma log_storable i b : bs !! i = Some b → storable b = true.
Proof using Hs. intros H. rewrite list.Forall_forall in Hs. by eapply Hs, list_elem_of_lookup_2. Qed.
Lemma get_block_log i : Store.get_block s i = Ok (if 0 <=? i then bs !! Z.to_nat i else None).
Proof using R Hs.
  unfold Store.get_block. rewrite dget_rows. destruct (0 <=? i); [|done]. destruct (bs !! Z.to_nat i) as [b|] eqn:E; [|done].
  cbn [fmap option_fmap option_map]. rewrite read_block_text by (by eapply log_storable). done.
Qed.
Lemma latest_block_log : Store.latest_block s = Ok (list.last bs).
Proof using R Hs.
  unfold Store.latest_block. rewrite (rp_height _ _ R), get_block_log. destruct (Z.leb_spec 0 (Z.of_nat (length bs) - 1)).
  - rewrite last_lookup. do 2 f_equal. lia.
  - by destruct bs; [|cbn [length] in *; lia].
Qed.

Lemma StronglySorted_select {T} (Q : T → T → Prop) (p : T → bool) l : StronglySorted Q l → StronglySorted Q (select_where p l).
Proof.
  induction 1 as [|x l _ IH Hx]; [constructor|]. unfold select_where in *. rewrite filter_cons. case_decide; [|done].
  constructor; [done|]. apply list.Forall_forall. intros y [_ Hy]%list_elem_of_filter. rewrite list.Forall_forall in Hx. by apply Hx.
Qed.
(** Rows already in order are not moved. *)
Lemma rows_between_rows p l d : t_blocks d = imap block_row l → rows_between p d = select_where (λ r, p r.1) (imap block_row l).
Proof.
  unfold rows_between. intros ->.
  assert (Transitive idx_le) by (intros ???; unfold idx_le; lia). assert (Total idx_le) by (intros ??; unfold idx_le; lia).
  apply (StronglySorted_unique_strong idx_le).
  - intros x y Hx Hy H1 H2. rewrite merge_sort_Permutation in Hx. unfold select_where in *.
    apply list_elem_of_filter in Hx as [_ (i & b & -> & Hb)%elem_of_lookup_imap].
    apply list_elem_of_filter in Hy as [_ (j & b' & -> & Hb')%elem_of_lookup_imap].
    unfold idx_le in *. cbn in *. assert (i = j) as -> by lia. by simplify_eq.
  - by apply StronglySorted_merge_sort.
  - apply StronglySorted_select. clear. induction l as [|b l IH] using rev_ind; [constructor|].
    rewrite imap_block_row_app. apply StronglySorted_app. split; [|split; [done|by repeat constructor]].
    intros x y (i & b' & -> & Hb)%elem_of_lookup_imap ->%list_elem_of_singleton. unfold idx_le. cbn.
    apply lookup_lt_Some in Hb. lia.
  - apply merge_sort_Permutation.
Qed.
Lemma rows_between_log p : rows_between p (db s) = select_where (λ r, p r.1) (imap block_row bs).
Proof using R. apply rows_between_rows, R. Qed.
Lemma read_rows k l : Forall (λ b, storable b = true) l →
  mmap (λ r : Z * (string * string), read_block r.2.2) (imap (λ i b, block_row (k + i) b) l) = Ok l.
Proof.
  intros H. revert k. induction H as [|b l Hb _ IH]; intros k; [done|]. cbn [imap mmap block_row snd].
  rewrite read_block_text by done. cbn [mbind result_bind].
  assert (imap ((λ i b, block_row (k + i) b) ∘ S) l = imap (λ i b, block_row (S k + i) b) l) as ->.
  { apply imap_ext. intros i x _. unfold compose. f_equal. lia. }
  by rewrite IH.
Qed.
Lemma select_where_app {T} (p : T → bool) l l' : select_where p (l ++ l') = select_where p l ++ select_where p l'.
Proof. apply list.filter_app. Qed.
Lemma select_where_all {T} (p : T → bool) l : Forall (λ r, p r = true) l → select_where p l = l.
Proof. induction 1 as [|r l H _ IH]; [done|]. unfold select_where in *. rewrite filter_cons, decide_True by done. by rewrite IH. Qed.
Lemma select_where_none {T} (p : T → bool) l : Forall (λ r, p r = false) l → select_where p l = [].
Proof. induction 1 as [|r l H _ IH]; [done|]. unfold select_where in *. rewrite filter_cons, decide_False by congruence. done. Qed.
Lemma get_blocks_range_log start stop : 0 <= start <= stop →
  Store.get_blocks_range s start stop = Ok (take (Z.to_nat (stop - start)) (drop (Z.to_nat start) bs)).
Proof using R Hs.
  intros H. unfold get_blocks_range. rewrite (rows_between_log (λ i, (start <=? i) && (i <? stop))).
  set (a := Z.to_nat start). set (k := Z.to_nat (stop - start)). set (mid := take k (drop a bs)).
  assert (bs = take a bs ++ mid ++ drop k (drop a bs)) as E by (unfold mid; by rewrite !take_drop).
  assert (select_where (λ r : Z * (string * string), (start <=? r.1) && (r.1 <? stop)) (imap block_row bs)
    = imap (λ i b, block_row (length (take a bs) + i) b) mid) as ->.
  { rewrite E at 1. rewrite !imap_app, !select_where_app, select_where_none, select_where_all, select_where_none, app_nil_r; [done|..];
      apply list.Forall_forall; intros r (j & b & -> & Hj)%elem_of_lookup_imap; apply lookup_lt_Some in Hj; cbn;
      unfold mid, a, k in *; rewrite ?length_take, ?length_drop in Hj; rewrite ?length_take, ?length_drop;
      rewrite ?andb_false_iff, ?andb_true_iff, ?Z.leb_le, ?Z.leb_gt, ?Z.ltb_lt, ?Z.ltb_ge; lia. }
  apply read_rows. unfold mid. by apply Forall_take, Forall_drop.
Qed.

(** *** Transactions and notarizations *)

Lemma placed_txs_lookup i ti txs p : p ∈ placed_txs i ti txs →
  ti <= pl_idx p ∧ txs !! Z.to_nat (pl_idx p - ti) = Some (pl_tx p).
Proof.
  revert ti. induction txs as [|tx txs IH]; intros ti; cbn [placed_txs]; [by intros ?%elem_of_nil|].
  intros [->|H]%elem_of_cons; cbn; [by rewrite Z.sub_diag|]. apply IH in H as [H1 H2]. split; [lia|].
  replace (Z.to_nat (pl_idx p - ti)) with (S (Z.to_nat (pl_idx p - (ti + 1)))) by lia. done.
Qed.
Lemma placed_from_lookup i l p : p ∈ placed_from i l → ∃ b, l !! Z.to_nat (pl_block p - i) = Some b ∧ i <= pl_block p ∧
  0 <= pl_idx p ∧ transactions b !! Z.to_nat (pl_idx p) = Some (pl_tx p).
Proof.
  revert i. induction l as [|b l IH]; intros i; cbn [placed_from]; [by intros ?%elem_of_nil|]. intros [H|H]%elem_of_app.
  - pose proof (placed_txs_block _ _ _ _ H) as ->. apply placed_txs_lookup in H as [H1 H2]. rewrite Z.sub_0_r in H2.
    exists b. rewrite Z.sub_diag. split_and!; [done|lia|done|done].
  - apply IH in H as (b' & H1 & H2 & H3). exists b'. split_and!; [|lia|apply H3|apply H3].
    replace (Z.to_nat (pl_block p - i)) with (S (Z.to_nat (pl_block p - (i + 1)))) by lia. done.
Qed.
Lemma NoDup_fmap_same {A B} (f : A → B) l x y : NoDup (f <$> l) → x ∈ l → y ∈ l → f x = f y → x = y.
Proof.
  intros Hd [i Hi]%list_elem_of_lookup [j Hj]%list_elem_of_lookup E. assert (i = j) as ->; [|congruence].
  eapply NoDup_lookup; [exact Hd|..]; rewrite list_lookup_fmap; [by rewrite Hi|by rewrite Hj, E].
Qed.
Lemma txs_of_row l p : NoDup (tx_id ∘ pl_tx <$> l) → p ∈ l → dget (txs_of l) (tx_id (pl_tx p)) = Some (tx_row p).
Proof.
  intros Hd Hp. destruct (dget _ _) as [row|] eqn:E.
  - apply dget_Some_elem in E. pose proof (txs_of_rows l) as Hr. rewrite list.Forall_forall in Hr.
    destruct (Hr _ E) as (q & Hq & [= Hid ->]). by rewrite (NoDup_fmap_same _ _ _ _ Hd Hp Hq Hid).
  - apply dget_None in E. destruct E. apply txs_of_keys. by apply (list_elem_of_fmap_2 (tx_id ∘ pl_tx)).
Qed.
Lemma get_tx_log p : NoDup (log_ids bs) → p ∈ placed bs →
  Store.get_tx s (tx_id (pl_tx p)) = Ok (Some (pl_tx p)) ∧ Store.get_tx_block s (tx_id (pl_tx p)) = Some (pl_block p).
Proof using R Hs.
  intros Hd Hp. rewrite <-placed_log_ids in Hd. unfold Store.get_tx, Store.get_tx_block. rewrite (rp_txs _ _ R), txs_of_row by done.
  split; [|done]. cbn [tr_block tr_idx tx_row]. rewrite get_block_log.
  destruct (placed_from_lookup _ _ _ Hp) as (b & Hb & H0 & Hi & Ht). rewrite Z.sub_0_r in Hb.
  destruct (Z.leb_spec 0 (pl_block p)); [|lia]. rewrite Hb. cbn [mbind result_bind]. pose proof (lookup_lt_Some _ _ _ Ht).
  destruct (Z.ltb_spec (pl_idx p) (Z.of_nat (length (transactions b)))); [|lia].
  replace (pl_idx p) with (Z.of_nat (Z.to_nat (pl_idx p))) by lia. by rewrite (py_index_nat _ _ _ Ht).
Qed.

(** The first transaction of the log that notarizes a document *)
Definition notarized_by (dh : string) (l : list Placed) : option string :=
  tx_id ∘ pl_tx <$> head (filter (λ p, notarizes (pl_tx p) = Some dh) l).
Lemma first_of_head dh t : first_of dh t = bool_decide (is_Some (head (select_where (λ r : (string * string) * bool, bool_decide (r.1.1 = dh) && r.2) t))).
Proof.
  induction t as [|r t IH]; [done|]. unfold first_of, select_where in *. cbn [existsb]. rewrite filter_cons.
  destruct (bool_decide (r.1.1 = dh) && r.2); [rewrite decide_True by done|rewrite decide_False by done]; [done|]. exact IH.
Qed.
Lemma notarized_by_snoc dh l p : notarized_by dh (l ++ [p]) = match notarized_by dh l with Some t => Some t | None =>
  if decide (notarizes (pl_tx p) = Some dh) then Some (tx_id (pl_tx p)) else None end.
Proof. unfold notarized_by. rewrite list.filter_app. cbn. destruct (filter _ l); [|done]. cbn. by case_decide. Qed.
Lemma head_app_match {T} (l l' : list T) : head (l ++ l') = match head l with Some x => Some x | None => head l' end.
Proof. by destruct l. Qed.
Lemma notarizations_first dh l : NoDup (tx_id ∘ pl_tx <$> l) →
  (λ r : (string * string) * bool, r.1.2) <$> head (select_where (λ r, bool_decide (r.1.1 = dh) && r.2) (notarizations_of l)) = notarized_by dh l.
Proof.
  induction l as [|p l IH] using rev_ind; [done|]. rewrite fmap_app, list.NoDup_app. intros (Hd & Hn & _). specialize (IH Hd).
  unfold notarizations_of. rewrite foldl_app. cbn [foldl]. fold (notarizations_of l). rewrite notarized_by_snoc.
  unfold add_notarization. destruct (notarizes (pl_tx p)) as [d|]; [|by rewrite IH; destruct (notarized_by dh l)].
  assert (dget (notarizations_of l) (d, tx_id (pl_tx p)) = None) as Hg.
  { apply dget_None. intros (r & Er & Hr)%list_elem_of_fmap.
    assert (Forall (λ r : (string * string) * bool, r.1.2 ∈ (tx_id ∘ pl_tx <$> l)) (notarizations_of l)) as K.
    { apply notarizations_of_keep, list.Forall_forall. intros q Hq. by apply (list_elem_of_fmap_2 (tx_id ∘ pl_tx)). }
    rewrite list.Forall_forall in K. specialize (K _ Hr). rewrite <-Er in K. apply (Hn _ K). by left. }
  unfold insert_ignore, dmem. rewrite Hg, select_where_app, head_app_match.
  pose proof (first_of_head dh (notarizations_of l)) as Hf. rewrite <-IH.
  destruct (head (select_where _ (notarizations_of l))) as [r|]; [done|]. unfold select_where. cbn.
  destruct (decide (d = dh)) as [->|Hne].
  - rewrite bool_decide_eq_true_2 by done. rewrite Hf, bool_decide_eq_false_2 by (by intros []).
    cbn. by rewrite !decide_True by done.
  - rewrite bool_decide_eq_false_2 by done. cbn. rewrite !decide_False by congruence. done.
Qed.
Lemma get_notarization_log dh : NoDup (log_ids bs) → Store.get_notarization s dh = notarized_by dh (placed bs).
Proof using R.
  intros Hd. rewrite <-placed_log_ids in Hd. unfold Store.get_notarization. rewrite (rp_notarizations _ _ R).
  by apply notarizations_first.
Qed.
End Laws.

(** ** A rollback of readable blocks succeeds *)

Section Replay.
Context `{C : Crypto} `{F : PyFloat}.

Definition payload_int (tx : Transaction) (k : string) : Z :=
  match jget_int (payload tx) k 0 with Ok n => n | Raise _ => 0 end.
(** The effect of a transaction on [stake_state] *)
Definition stake_effect (st : dict (string * string) Z) (tx : Transaction) : dict (string * string) Z :=
  let v := payload_str tx "validator_address" in
  let amt := payload_int tx "amount" in
  let k := (sender tx, v) in
  match tx_type tx with
  | STAKE | DELEGATE => if negb (is_empty v) && (0 <? amt) then dset st k (dget_or st k 0 + amt) else st
  | UNSTAKE => if negb (is_empty v) && (0 <? amt) then dset st k (Z.max 0 (dget_or st k 0 - amt)) else st
  | EVIDENCE => if is_empty v then st else foldl (slash_key v) st st.*1
  | _ => st
  end.
Definition stakes_of (l : list Transaction) : dict (string * string) Z := foldl stake_effect [] l.
(** What was ever staked *)
Definition staked (tx : Transaction) : Z :=
  match tx_type tx with STAKE | DELEGATE => Z.max 0 (payload_int tx "amount") | _ => 0 end.
Definition total_staked (l : list Transaction) : Z := foldr (λ tx n, staked tx + n) 0 l.

Lemma total_staked_app l l' : total_staked (l ++ l') = total_staked l + total_staked l'.
Proof. induction l as [|tx l IH]; [done|]. unfold total_staked in *. cbn [foldr app]. rewrite IH. lia. Qed.
Lemma staked_nonneg tx : 0 <= staked tx.
Proof. unfold staked. destruct (tx_type tx); lia. Qed.
Lemma Forall_dset_pair {K V} `{EqDecision K} (P : K * V → Prop) d k v : Forall P d → P (k, v) → Forall P (dset d k v).
Proof.
  induction 1 as [|[k' v'] d H Hd IH]; intros Hk; cbn [dset]; [by repeat constructor|]. case_decide; [subst; by constructor|].
  constructor; [done|by apply IH].
Qed.
Definition within (m : Z) (st : dict (string * string) Z) : Prop := Forall (λ r : (string * string) * Z, 0 <= r.2 <= m) st.
Lemma within_get m st k : 0 <= m → within m st → 0 <= dget_or st k 0 <= m.
Proof.
  intros Hm H. unfold dget_or. destruct (dget st k) as [n|] eqn:E; [|done]. apply dget_Some_elem in E. unfold within in H.
  rewrite list.Forall_forall in H. apply (H _ E).
Qed.
Lemma within_mono m m' st : m <= m' → within m st → within m' st.
Proof. intros Hm H. unfold within in *. eapply Forall_impl; [|exact H]. cbn. intros r Hr. lia. Qed.
Lemma within_slash m v st : 0 <= m → within m st → within m (foldl (slash_key v) st st.*1).
Proof.
  intros Hm. generalize st.*1 as ks. intros ks. revert st. induction ks as [|k ks IH]; intros st H; [done|]. cbn [foldl]. apply IH.
  unfold slash_key. case_bool_decide; [|done]. pose proof (within_get m st k Hm H). apply Forall_dset_pair; [done|]. cbn.
  assert (0 <= dget_or st k 0 * SLASH_PERCENTAGE / 100) by (apply Z.div_pos; unfold SLASH_PERCENTAGE; lia).
  destruct (_ && _); lia.
Qed.
Lemma within_effect m st tx : 0 <= m → within m st → within (m + staked tx) (stake_effect st tx).
Proof.
  intros Hm H. pose proof (staked_nonneg tx) as Hs. assert (within (m + staked tx) st) as H' by (apply (within_mono m); [lia|done]).
  unfold stake_effect. pose proof (within_get m st (sender tx, payload_str tx "validator_address") Hm H) as Hg.
  unfold staked in *. destruct (tx_type tx); try done.
  1-3: destruct (negb _); cbn [andb]; [|done]; destruct (Z.ltb_spec 0 (payload_int tx "amount")); [|done];
    apply Forall_dset_pair; [done|]; cbn; lia.
  destruct (is_empty _); [done|]. apply within_slash; [lia|done].
Qed.
Lemma within_stakes l : within (total_staked l) (stakes_of l).
Proof.
  assert (∀ m st, 0 <= m → within m st → within (m + total_staked l) (foldl stake_effect st l)) as H.
  { induction l as [|tx l IH]; intros m st Hm Hw; cbn; [by rewrite Z.add_0_r|]. pose proof (staked_nonneg tx).
    rewrite Z.add_assoc. apply IH; [lia|]. by apply within_effect. }
  apply (H 0 []); [done|constructor].
Qed.

(** *** The text of a block is read back field by field *)

Lemma block_txs_text b : storable b = true → block_txs (block_text b) = Ok (tx_to_dict <$> transactions b).
Proof.
  unfold storable. rewrite !andb_true_iff. intros [[[Ht _] _] _]. unfold block_txs, block_text.
  destruct (loads_text _ EmptyString Ht eq_refl) as [R _]. rewrite string_app_nil in R. rewrite R. cbn [as_dict mbind result_bind].
  replace (jget (block_to_dict b) "transactions" (JList [])) with (JList ((λ tx, JObj (tx_to_dict tx)) <$> transactions b)) by reflexivity.
  cbn [iter_val mbind result_bind]. clear. induction (transactions b) as [|tx l IH]; [done|]. csimpl. by rewrite IH.
Qed.
Lemma tx_dict_fields tx d : jget (tx_to_dict tx) "type" d = JStr (tt_value (tx_type tx)) ∧
  tx_payload (tx_to_dict tx) = Ok (payload tx) ∧ jget_str (tx_to_dict tx) "from" = Ok (sender tx).
Proof. done. Qed.
Lemma type_is tx t s : tt_value t = s → bool_decide (JStr (tt_value (tx_type tx)) = JStr s) = bool_decide (tx_type tx = t).
Proof. intros <-. apply bool_decide_ext. split; [|by intros ->]. destruct (tx_type tx), t; done. Qed.
Lemma undo_of_text tx : storable_tx tx = true → ∃ us, undo_of (tx_to_dict tx) = Ok us.
Proof.
  intros [_ H]%andb_prop. unfold undo_of. destruct (tx_dict_fields tx JNull) as (-> & -> & ->). cbn [mbind result_bind].
  rewrite (type_is tx REGISTER_VALIDATOR), (type_is tx REVOKE_KEY) by done.
  destruct (tx_type tx); try (by eexists); destruct (jget_str _ _); try done; by eexists.
Qed.
Lemma replay_stake_text st tx : storable_tx tx = true → replay_stake st (tx_to_dict tx) = Ok (stake_effect st tx).
Proof.
  intros [_ H]%andb_prop. unfold replay_stake, stake_effect, payload_str, payload_int.
  destruct (tx_dict_fields tx (JStr EmptyString)) as (-> & -> & ->). cbn [mbind result_bind].
  assert (bool_decide (JStr (tt_value (tx_type tx)) ∈ [JStr "STAKE"; JStr "DELEGATE"; JStr "UNSTAKE"]) =
    bool_decide (tx_type tx ∈ [STAKE; DELEGATE; UNSTAKE])) as ->.
  { apply bool_decide_ext. rewrite !elem_of_cons, !elem_of_nil. destruct (tx_type tx); naive_solver. }
  rewrite (type_is tx UNSTAKE), (type_is tx EVIDENCE) by done.
  destruct (tx_type tx); try done; destruct (jget_str _ _) as [v|]; try done;
    destruct (jget_int _ _ _) as [n|]; try done; cbn; by destruct (is_empty v), (0 <? n).
Qed.
Lemma mmap_ok {A B} (f : A → result B) l : Forall (λ x, ∃ y, f x = Ok y) l → ∃ ys, mmap f l = Ok ys.
Proof.
  induction 1 as [|x l [y Hy] _ [ys IH]]; [by eexists|]. cbn [mmap]. rewrite Hy. cbn [mbind result_bind]. rewrite IH. by eexists.
Qed.
Lemma foldl_result_ok {A B} (f : A → B → result A) (g : A → B → A) l : (∀ a x, x ∈ l → f a x = Ok (g a x)) →
  ∀ a, foldl_result f a l = Ok (foldl g a l).
Proof.
  intros H a. revert a. induction l as [|x l IH]; intros a; [done|]. cbn [foldl_result foldl]. rewrite H by by left. cbn [mbind result_bind].
  apply IH. intros. apply H. by right.
Qed.
Lemma replay_block_text st i b : storable b = true → replay_block st (block_row i b) = Ok (foldl stake_effect st (transactions b)).
Proof.
  intros H. unfold replay_block. cbn [block_row snd]. rewrite block_txs_text by done. cbn [mbind result_bind].
  apply storable_txs in H. rewrite forallb_True_iff in H. revert st. induction H as [|tx l Ht _ IH]; intros st; [done|].
  csimpl. rewrite replay_stake_text by done. cbn [mbind result_bind]. apply IH.
Qed.
Lemma foldl_concat_rows (bs : list Block) (f : nat → nat) st : Forall (λ b, storable b = true) bs →
  foldl_result replay_block st (imap (λ i b, block_row (f i) b) bs) = Ok (foldl stake_effect st (concat (transactions <$> bs))).
Proof.
  intros H. revert f st. induction H as [|b bs Hb _ IH]; intros f st; [done|]. cbn [imap foldl_result]. rewrite replay_block_text by done.
  cbn [mbind result_bind fmap list_fmap concat]. rewrite foldl_app. apply (IH (f ∘ S)).
Qed.

Context (bs : list Block) (s : Store) (R : represents bs s) (Hs : Forall (λ b, storable b = true) bs).

Lemma undos_of_log n : ∃ us, undos_of (db s) n = Ok us.
Proof using R Hs.
  unfold undos_of. rewrite (rows_between_log bs s R (λ i, n <=? i)).
  destruct (mmap_ok (λ r : Z * (string * string), txs ← block_txs r.2.2; us ← mmap undo_of txs; Ok (concat us))
    (select_where (λ r, n <=? r.1) (imap block_row bs))) as [us ->]; [|by eexists].
  apply list.Forall_forall. intros r [_ (i & b & -> & Hb)%elem_of_lookup_imap]%list_elem_of_filter.
  pose proof (log_storable bs Hs _ _ Hb) as Hst. cbn [block_row snd]. rewrite block_txs_text by done. cbn [mbind result_bind].
  destruct (mmap_ok undo_of (tx_to_dict <$> transactions b)) as [us ->]; [|by eexists].
  apply storable_txs in Hst. rewrite forallb_True_iff in Hst. apply Forall_fmap. eapply Forall_impl; [|exact Hst].
  intros tx Ht. by apply undo_of_text.
Qed.

(** The stakes a rollback to block [n] leaves: the replay of what remains *)
Definition stakes_left (n : Z) : dict (string * string) Z :=
  select_where (λ r, 0 <? r.2) (stakes_of (concat (transactions <$> take (Z.to_nat n) bs))).
Lemma total_staked_take k : 0 <= total_staked (concat (transactions <$> take k bs)) <= total_staked (concat (transactions <$> bs)).
Proof.
  assert (∀ l, 0 <= total_staked l) as H.
  { induction l as [|tx l IH]; [done|]. unfold total_staked in *. cbn. pose proof (staked_nonneg tx). lia. }
  split; [apply H|]. rewrite <-(take_drop k bs) at 2. rewrite fmap_app, concat_app, total_staked_app.
  pose proof (H (concat (transactions <$> drop k bs))). lia.
Qed.
Lemma select_rows n : select_where (λ r, r.1 <? n) (imap block_row bs) = imap block_row (take (Z.to_nat n) bs).
Proof.
  rewrite <-block_rows_delete. unfold select_where, delete_where. apply list_filter_iff. intros r. rewrite Z.ltb_lt, Z.leb_gt. done.
Qed.
Lemma rebuild_stakes_log n s1 : t_blocks (db s1) = imap block_row (take (Z.to_nat n) bs) →
  total_staked (concat (transactions <$> bs)) < 2 ^ 63 →
  (rebuild_stakes n s1).1 = Ok tt ∧ t_stakes (db (rebuild_stakes n s1).2) = stakes_left n.
Proof using Hs.
  intros Hb Ht. cbv beta iota delta [rebuild_stakes exec modify gets lift mbind M_bind].
  rewrite (rows_between_rows (λ i, i <? n) (take (Z.to_nat n) bs)) by (destruct s1 as [c d h]; exact Hb).
  assert (select_where (λ r, r.1 <? n) (imap block_row (take (Z.to_nat n) bs)) = imap block_row (take (Z.to_nat n) bs)) as ->.
  { apply select_where_all, list.Forall_forall. intros r (i & b & -> & Hi%lookup_lt_Some)%elem_of_lookup_imap. cbn.
    rewrite length_take in Hi. apply Z.ltb_lt. lia. }
  rewrite (foldl_concat_rows _ (λ i, i)) by (by apply Forall_take). fold (stakes_of (concat (transactions <$> take (Z.to_nat n) bs))).
  assert (mmap bind_stake (stakes_left n) = Ok (stakes_left n)) as E; [|unfold stakes_left in *; by rewrite E].
  assert (within (2 ^ 63 - 1) (stakes_left n)) as Hw.
  { unfold stakes_left, within. apply list.Forall_forall. intros r [_ Hr]%list_elem_of_filter.
    pose proof (within_stakes (concat (transactions <$> take (Z.to_nat n) bs))) as W. unfold within in W.
    rewrite list.Forall_forall in W. specialize (W _ Hr). pose proof (total_staked_take (Z.to_nat n)). cbn in *. lia. }
  induction Hw as [|[k v] l Hv _ IH]; [done|]. cbn [mmap].
  assert (bind_stake (k, v) = Ok (k, v)) as ->.
  { unfold bind_stake. cbn [fst snd] in *. by rewrite bind64_ok by lia. }
  cbn [mbind result_bind]. by rewrite IH.
Qed.

Lemma mfor_exec_ok {A} (f : A → Db → Db) l s0 : (mfor (λ u, exec (f u)) l s0).1 = Ok tt.
Proof. revert s0. induction l as [|x l IH]; intros s0; [done|]. cbn [mfor]. unfold mbind, M_bind, exec, modify. apply IH. Qed.
Lemma delete_blocks_from_ok n : NoDup (log_ids bs) → total_staked (concat (transactions <$> bs)) < 2 ^ 63 → - 2 ^ 63 <= n < 2 ^ 63 →
  ∃ s', delete_blocks_from n s = (Ok tt, s') ∧ represents (take (Z.to_nat n) bs) s' ∧ t_stakes (db s') = stakes_left n.
Proof using R Hs.
  intros Hd Ht Hn. destruct (undos_of_log n) as [us Hu].
  assert (∃ s2, undo_all n us s = (Ok tt, s2) ∧ t_stakes (db s2) = stakes_left n) as (s2 & E & Est).
  { unfold undo_all. destruct (drop_rows_tables n s) as [D1 _]. pose proof (drop_rows_log n bs s R Hd) as D2.
    unfold mbind at 1, M_bind at 1. destruct (drop_rows n s) as [[[]|?] s1]; [|done]. cbn [snd] in D2.
    unfold mbind at 1, M_bind at 1. pose proof (mfor_exec_ok undo_row us s1) as F1.
    assert (fixes log_tables (mfor (λ u, exec (undo_row u)) us)) as Ff by (apply fixes_mfor; intros u; apply undo_tables).
    specialize (Ff s1). destruct (mfor _ us s1) as [[[]|?] s1']; [|done]. cbn [snd] in Ff. rewrite D2 in Ff. unfold log_tables in Ff.
    injection Ff as Fb _ _. destruct (rebuild_stakes_log n s1' Fb Ht) as [G1 G2].
    unfold mbind at 1, M_bind at 1. destruct (rebuild_stakes n s1') as [[[]|?] s3]; [|done]. cbn [snd] in G2.
    eexists. split; [reflexivity|]. by destruct s3 as [c [] h]. }
  assert (∃ s', delete_blocks_from n s = (Ok tt, s') ∧ t_stakes (db s') = stakes_left n) as (s' & Hr & Es).
  { unfold delete_blocks_from, atomic. unfold mbind at 1, M_bind at 1, lift. rewrite bind64_ok by done.
    unfold mbind at 1, M_bind at 1, gets. unfold mbind at 1, M_bind at 1. rewrite Hu.
    unfold mbind at 1, M_bind at 1. rewrite E. eexists. split; [reflexivity|]. by destruct s2. }
  exists s'. split_and!; [done| |done]. by apply (delete_blocks_from_log n bs s s' R Hd).
Qed.
End Replay.

(** ** Histories of the database *)

Section History.
Context `{C : Crypto} `{F : PyFloat}.

Inductive Op := Append (b : Block) | Delete (from_index : Z).
Definition run_op (o : Op) : M Store unit := match o with Append b => append_block b | Delete n => delete_blocks_from n end.
Fixpoint run_ops (l : list Op) : M Store unit := match l with [] => mret tt | o :: l' => _ ← run_op o; run_ops l' end.
(** The specification: the log, and what the node sees to before each write *)
Definition log_op (bs : list Block) (o : Op) : list Block :=
  match o with Append b => bs ++ [b] | Delete n => take (Z.to_nat n) bs end.
Definition log_ok (bs : list Block) : Prop :=
  Forall (λ b, storable b = true) bs ∧ NoDup (block_hash <$> bs) ∧ NoDup (log_ids bs) ∧
  total_staked (concat (transactions <$> bs)) < 2 ^ 63 ∧ Z.of_nat (length bs) < 2 ^ 63.
Definition allowed (bs : list Block) (o : Op) : Prop :=
  match o with Append b => log_ok (bs ++ [b]) | Delete n => - 2 ^ 63 <= n < 2 ^ 63 end.
Fixpoint history (bs : list Block) (l : list Op) : Prop :=
  match l with [] => True | o :: l' => allowed bs o ∧ history (log_op bs o) l' end.

Lemma log_ok_take k bs : log_ok bs → log_ok (take k bs).
Proof.
  intros (H1 & H2 & H3 & H4 & H5). split_and!.
  - by apply Forall_take.
  - rewrite <-(take_drop k bs), fmap_app in H2. by apply list.NoDup_app in H2 as [? _].
  - unfold log_ids in *. rewrite <-(take_drop k bs), fmap_app, concat_app, fmap_app in H3. by apply list.NoDup_app in H3 as [? _].
  - pose proof (total_staked_take bs k). lia.
  - rewrite length_take. lia.
Qed.
Lemma run_op_ok bs o s : represents bs s → log_ok bs → allowed bs o →
  ∃ s', run_op o s = (Ok tt, s') ∧ represents (log_op bs o) s' ∧ log_ok (log_op bs o).
Proof.
  intros R (H1 & H2 & H3 & H4 & H5) Ha. destruct o as [b|n]; cbn [run_op log_op allowed] in *.
  - destruct Ha as (A1 & A2 & A3 & A4 & A5). rewrite fmap_app in A2. apply list.NoDup_app in A2 as (_ & A2 & _).
    rewrite length_app in A5. cbn in A5.
    destruct (insert_block_ok bs b s R) as (s' & E & R'); [|intros Hb; apply (A2 _ Hb); by left|lia|].
    { apply list.Forall_app in A1 as [_ A1]. by apply storable_txs, (Forall_inv A1). }
    exists s'. split_and!; [done|done|]. split_and!; try done.
    + rewrite fmap_app. apply list.NoDup_app. split_and!; [done|done|apply NoDup_singleton].
    + rewrite length_app. cbn. lia.
  - destruct (delete_blocks_from_ok bs s R H1 n H3 H4 Ha) as (s' & E & R' & _). exists s'. split_and!; [done|done|].
    by apply log_ok_take.
Qed.
Lemma run_ops_ok l : ∀ bs s, represents bs s → log_ok bs → history bs l →
  ∃ s', run_ops l s = (Ok tt, s') ∧ represents (foldl log_op bs l) s' ∧ log_ok (foldl log_op bs l).
Proof.
  induction l as [|o l IH]; intros bs s R Hok Hh; [by exists s|]. destruct Hh as [Ha Hh].
  destruct (run_op_ok bs o s R Hok Ha) as (s1 & E & R1 & Hok1). destruct (IH _ s1 R1 Hok1 Hh) as (s2 & E2 & R2 & Hok2).
  exists s2. split_and!; [|done|done]. cbn [run_ops]. unfold mbind, M_bind. by rewrite E, E2.
Qed.
Lemma log_ok_nil : log_ok [].
Proof. by split_and!; constructor. Qed.

Lemma reopen_log bs s : represents bs s → reopen s = s.
Proof.
  intros [R1 _ _ R4 R5]. unfold reopen. rewrite R5, (max_idx_rows _ _ R1), <-R4, <-R5. destruct s as [c d h]. cbn in *. by subst.
Qed.
Lemma run_op_raise o s e s' : committed s = db s → run_op o s = (Raise e, s') → s' = s.
Proof. destruct o; [apply append_block_raise|apply delete_blocks_from_raise]. Qed.
End History.

(** ** Properties *)


(** A write is all or nothing: an append or a rollback that raises,
    wherever in its statements, leaves the store as it was, in memory, on disk
    and in height. *)
Lemma failed_write_changes_nothing `{C : Crypto} `{F : PyFloat} (o : Op) (s s' : Store) (e : exn)
  (Hc : committed s = db s) (H : run_op o s = (Raise e, s')) : s' = s ∧ committed s' = db s'.
Proof. apply run_op_raise in H as ->; [|done]. by split. Qed.

(** ** A history *)

Module StoreRun.
#[export] Existing Instance Toy.crypto.
#[export] Instance float : PyFloat := λ r, r.
Definition doc (n : Z) : Transaction := mk_notarize 1700000000 (sample_address "a") n 0 0 "aabb" "".
Definition stake_tx (n : Z) : Transaction := mk_stake 1700000000 (sample_address "a") n 0 0 (sample_address "b") 5.
Definition b0 : Block := block_genesis 1700000000 (sample_address "b") [doc 0].
Definition b1 : Block := mkBlock 1 (block_hash b0) [stake_tx 1; doc 2] (sample_address "b") 1700000010 EmptyString 0 EmptyString EmptyString.
Definition b1' : Block := mkBlock 1 (block_hash b0) [stake_tx 1] (sample_address "b") 1700000020 EmptyString 0 EmptyString EmptyString.
Definition ops : list Op := [Append b0; Append b1; Delete 1; Append b1'].
End StoreRun.

#[local] Existing Instance Toy.crypto.
#[local] Existing Instance StoreRun.float.
