(* ===== verification/ReceiptOps.v ===== *)
(** * Events, receipts and finality

    [core/receipt_ops.py]: the events of a transaction, the simple finality
    rule and the event queries. *)
From S2P Require Import Prelude PyStr Json Config Crypto StateTrie Wallet Transaction Fees Block Receipt ChainState Ledger Staking.
Open Scope Z_scope.

Section Events.
Context `{C : Crypto}.

(** The identifier an ISSUE_TOKEN transaction gives its token *)
Definition derive_token_id (snd symbol : string) (n : Z) : string :=
  str_take 32 (hex (sha3_256 (utf8 (snd +:+ symbol +:+ str_of_Z n)))).

Definition build_tx_events (s : Chain) (tx : Transaction) (block_index : Z) : result (list event) :=
  let p := payload tx in
  let snd := JStr (sender tx) in
  let rcp := JStr (recipient tx) in
  let str k := jget p k (JStr EmptyString) in
  let amount := jget p "amount" (JInt 0) in
  match tx_type tx with
  | TRANSFER => Ok [build_event "Transfer" [("sender", snd); ("recipient", rcp); ("amount", amount)]]
  | NOTARIZE => Ok [build_event "Notarize" [("sender", snd); ("documentHash", str "documentHash")]]
  | STORE => Ok [build_event "Store"
      [("sender", snd); ("documentHash", str "documentHash"); ("cid", str "cid")]]
  | SHARE => Ok [build_event "Share" [("sender", snd); ("recipient", rcp)]]
  | STAKE => Ok [build_event "Stake"
      [("staker", snd); ("validator", str "validator_address"); ("amount", amount)]]
  | DELEGATE => Ok [build_event "Delegate"
      [("delegator", snd); ("validator", str "validator_address"); ("amount", amount)]]
  | UNSTAKE => Ok [build_event "Unstake"
      [("staker", snd); ("validator", str "validator_address"); ("amount", amount)]]
  | REGISTER_KEY => Ok [build_event "KeyRegistered" [("address", snd)]]
  | REGISTER_VALIDATOR => Ok [build_event "ValidatorRegistered"
      [("address", jget p "validator_address" snd)]]
  | REVOKE_KEY => Ok [build_event "KeyRevoked" [("address", snd); ("key_type", str "key_type")]]
  | EVIDENCE =>
      vaddr ← jget_str p "validator_address";
      Ok [build_event "Slashed"
        [("validator", JStr vaddr); ("amount", JInt (slash_of (get_or (total_stake (staking s)) vaddr 0)))]]
  | ISSUE_TOKEN =>
      symbol ← jget_str p "symbol";
      Ok [build_event "TokenIssued"
        [("token_id", JStr (derive_token_id (sender tx) symbol (nonce tx))); ("symbol", JStr symbol);
         ("name", str "name"); ("issuer", snd); ("max_supply", jget p "max_supply" (JInt 0))]]
  | MINT_TOKEN =>
      tid ← jget_str p "token_id";
      let minted := match token_registry (tokens s) !! tid with
                    | Some t => tk_total_minted t
                    | None => 0
                    end in
      Ok [build_event "TokenMinted"
        [("token_id", JStr tid); ("amount", amount); ("recipient", rcp); ("total_minted", JInt minted)]]
  | TRANSFER_TOKEN => Ok [build_event "TokenTransferred"
      [("token_id", str "token_id"); ("amount", amount); ("sender", snd); ("recipient", rcp)]]
  end.
End Events.

(** ** Finality *)

Definition stake_of (s : Chain) (v : string) : Z := get_or (total_stake (staking s)) v 0.

(** The walk backward from block [bi] over [fuel] blocks: the first height at
    which the builders seen hold more than two thirds of the stake *)
Fixpoint finality_walk (s : Chain) (total : Z) (fuel : nat) (bi : Z) (seen : gset string) (cumulative : Z)
    : option Z :=
  match fuel with
  | O => None
  | S fuel' =>
      match get_block_by_index s bi with
      | None => None
      | Some b =>
          let v := validator b in
          let cumulative := if decide (v ∈ seen) then cumulative else cumulative + stake_of s v in
          if total * 2 <? cumulative * 3 then Some bi
          else finality_walk s total fuel' (bi - 1) ({[v]} ∪ seen) cumulative
      end
  end.

Definition update_finality (new_block_index : Z) : M Chain unit :=
  s ← get;
  let total := msum (total_stake (staking s)) in
  if negb (financial_active (ledger s)) || (total =? 0) then mret tt
  else
    let stop := Z.max (finalized_height (recs s)) (-1) in
    match finality_walk s total (Z.to_nat (new_block_index - stop)) new_block_index ∅ 0 with
    | Some h => when (finalized_height (recs s) <? h) (on recs (modify (set finalized_height (λ _, h))))
    | None => mret tt
    end.

(** ** Queries *)

Definition get_finalized_height (s : Chain) : Z := finalized_height (recs s).
Definition get_receipt (s : Chain) (tid : string) : option Receipt := dget (receipts (recs s)) tid.
Definition get_block_level_events (s : Chain) (i : Z) : list event :=
  get_or (block_level_events (recs s)) i [].

Record EventHit := mkHit { eh_tx_id : string; eh_block : Z; eh_event : event }.

(** [ev.get("sender", ev.get("staker", ...))] *)
Definition event_sender (e : event) : JVal :=
  jget e "sender" (jget e "staker" (jget e "delegator" (jget e "address" (JStr EmptyString)))).

Fixpoint scan_events (tid : string) (bi : Z) (ty sndr : string) (limit : Z) (es : list event)
    (results : list EventHit) : list EventHit :=
  match es with
  | [] => results
  | e :: rest =>
      if limit <=? Z.of_nat (length results) then results
      else if negb (is_empty ty) && negb (bool_decide (dget e "type" = Some (JStr ty)))
      then scan_events tid bi ty sndr limit rest results
      else if negb (is_empty sndr) && negb (bool_decide (event_sender e = JStr sndr))
      then scan_events tid bi ty sndr limit rest results
      else scan_events tid bi ty sndr limit rest (results ++ [mkHit tid bi e])
  end.
Fixpoint scan_receipts (s : Chain) (ty : string) (block_index : option Z) (sndr : string) (limit : Z)
    (tids : list string) (results : list EventHit) : list EventHit :=
  match tids with
  | [] => results
  | tid :: rest =>
      if limit <=? Z.of_nat (length results) then results
      else
        scan_receipts s ty block_index sndr limit rest
          match get_receipt s tid with
          | None => results
          | Some r =>
              if match block_index with Some i => r_block_index r =? i | None => true end
              then scan_events tid (r_block_index r) ty sndr limit (r_events r) results
              else results
          end
  end.
Definition get_events (s : Chain) (ty : string) (block_index : option Z) (sndr : string) (limit : Z)
    : list EventHit :=
  let limit := Z.max 1 (Z.min limit 100) in
  let candidates :=
    match (if is_empty ty then None else events_by_type (recs s) !! ty) with
    | Some l => l
    | None =>
        match (match block_index with Some i => events_by_block (recs s) !! i | None => None end) with
        | Some l => l
        | None => (receipts (recs s)).*1
        end
    end in
  scan_receipts s ty block_index sndr limit candidates [].

(** ** Quorums *)

(** The validators that built the blocks [h .. h + n - 1] *)
Fixpoint builders (s : Chain) (h : Z) (n : nat) : gset string :=
  match n with
  | O => ∅
  | S n' => match get_block_by_index s h with
            | Some b => {[validator b]} ∪ builders s (h + 1) n'
            | None => builders s (h + 1) n'
            end
  end.
Definition set_stake (s : Chain) (X : gset string) : Z := zsum (stake_of s <$> elements X).
(** More than two thirds of all stake *)
Definition quorum (s : Chain) (X : gset string) : Prop :=
  msum (total_stake (staking s)) * 2 < set_stake s X * 3.

Lemma set_stake_add s v X : v ∉ X → set_stake s ({[v]} ∪ X) = set_stake s X + stake_of s v.
Proof.
  intros Hv. unfold set_stake.
  rewrite (zsum_permutation _ (stake_of s <$> v :: elements X)); [csimpl; lia|].
  apply Permutation_map. by apply elements_union_singleton.
Qed.

Lemma set_stake_cum s v seen :
  (if decide (v ∈ seen) then set_stake s seen else set_stake s seen + stake_of s v) =
  set_stake s ({[v]} ∪ seen).
Proof.
  case_decide as Hv; [|by rewrite set_stake_add]. f_equal. set_solver.
Qed.

Lemma builders_snoc s h n :
  builders s h (S n) =
  match get_block_by_index s (h + Z.of_nat n) with
  | Some b => {[validator b]} ∪ builders s h n
  | None => builders s h n
  end.
Proof.
  revert h. induction n as [|n IH]; intros h.
  { cbn [builders]. by rewrite Z.add_0_r. }
  change (builders s h (S (S n))) with
    (match get_block_by_index s h with Some b => {[validator b]} ∪ builders s (h + 1) (S n)
     | None => builders s (h + 1) (S n) end).
  rewrite IH. replace (h + 1 + Z.of_nat n) with (h + Z.of_nat (S n)) by lia. cbn [builders].
  destruct (get_block_by_index s h), (get_block_by_index s (h + Z.of_nat (S n))); set_solver.
Qed.

(** The validators of the blocks [h .. top], with those already seen *)
Definition seen_from (s : Chain) (h top : Z) (seen : gset string) : gset string :=
  builders s h (Z.to_nat (top - h + 1)) ∪ seen.
Lemma seen_from_top s h top seen b :
  h <= top → get_block_by_index s top = Some b →
  seen_from s h top seen = seen_from s h (top - 1) ({[validator b]} ∪ seen).
Proof.
  intros Hle Hb. unfold seen_from. replace (Z.to_nat (top - h + 1)) with (S (Z.to_nat (top - h))) by lia.
  rewrite builders_snoc. replace (h + Z.of_nat (Z.to_nat (top - h))) with top by lia. rewrite Hb.
  replace (top - 1 - h + 1) with (top - h) by lia. set_solver.
Qed.
Lemma seen_from_end s top seen : seen_from s (top + 1) top seen = seen.
Proof. unfold seen_from. replace (top - (top + 1) + 1) with 0 by lia. cbn. set_solver. Qed.

Definition reaches (s : Chain) (total : Z) (X : gset string) : Prop := total * 2 < set_stake s X * 3.
Definition blocks_exist (s : Chain) (h top : Z) : Prop :=
  ∀ j, h <= j <= top → is_Some (get_block_by_index s j).

Lemma finality_walk_spec s total fuel bi seen :
  match finality_walk s total fuel bi seen (set_stake s seen) with
  | Some h => bi - Z.of_nat fuel < h <= bi ∧ blocks_exist s h bi ∧ reaches s total (seen_from s h bi seen) ∧
      ∀ j, h < j <= bi → ¬ reaches s total (seen_from s j bi seen)
  | None => ∀ h, bi - Z.of_nat fuel < h <= bi → blocks_exist s h bi →
      ¬ reaches s total (seen_from s h bi seen)
  end.
Proof.
  revert bi seen. induction fuel as [|fuel IH]; intros bi seen; cbn [finality_walk]; [intros; lia|].
  destruct (get_block_by_index s bi) as [b|] eqn:Eb.
  2:{ intros h Hh Hex. destruct (Hex bi ltac:(lia)) as [? ?]. congruence. }
  rewrite set_stake_cum. set (seen' := {[validator b]} ∪ seen).
  assert (∀ h, h <= bi → seen_from s h bi seen = seen_from s h (bi - 1) seen') as Hstep
    by (intros; by apply seen_from_top).
  assert (seen_from s bi bi seen = seen') as Htop.
  { rewrite Hstep by lia. replace bi with (bi - 1 + 1) at 1 by lia. apply seen_from_end. }
  destruct (Z.ltb_spec (total * 2) (set_stake s seen' * 3)) as [Hq|Hq].
  - split; [lia|]. split; [intros j Hj; replace j with bi by lia; by rewrite Eb|].
    split; [by rewrite Htop|]. intros; lia.
  - specialize (IH (bi - 1) seen'). destruct (finality_walk _ _ _ _ _ _) as [h|].
    + destruct IH as (Hr & Hex & Hre & Hno). split; [lia|]. split; [|split].
      * intros j Hj. destruct (decide (j = bi)) as [->|]; [by rewrite Eb|]. apply Hex. lia.
      * rewrite Hstep by lia. done.
      * intros j Hj. destruct (decide (j = bi)) as [->|].
        -- rewrite Htop. unfold reaches. lia.
        -- rewrite Hstep by lia. apply Hno. lia.
    + intros h Hh Hex. destruct (decide (h = bi)) as [->|].
      * rewrite Htop. unfold reaches. lia.
      * rewrite Hstep by lia. apply IH; [lia|]. intros j Hj. apply Hex. lia.
Qed.

(** ** Properties *)


(** Three validators with one unit each; two of them built the last blocks. *)
Definition finality_state : Chain :=
  let blk i v := mkBlock i EmptyString [] v i EmptyString 0 EmptyString EmptyString in
  empty_Chain <| chain_list := [blk 0 "a"; blk 1 "b"; blk 2 "c"; blk 3 "a"] |> <| height := 3 |>
    <| ledger := empty_Ledger <| financial_active := true |> |>
    <| staking := empty_Staking <| total_stake := <["a" := 1]> (<["b" := 1]> (<["c" := 1]> ∅)) |> |>.

