(* ===== verification/Apply.v ===== *)
(** * Applying a block

    [Blockchain._append_block_inner] of [core/blockchain.py], one definition
    per part: the fee, the value moved, the effect of each transaction type,
    receipts and events, the reward, the roots, and pruning.  A raised
    exception leaves the mutations made so far, as in the code. *)
From S2P Require Import Prelude PyStr Json Config Crypto StateTrie Wallet Transaction Fees Block Receipt ChainState Ledger StateOps Staking Consensus ReceiptOps.
Open Scope Z_scope.

(** [m.setdefault(k, []).append(x)] *)
Definition push `{Countable K} {V} (k : K) (x : V) (m : gmap K (list V)) : gmap K (list V) :=
  <[k := get_or m k [] ++ [x]]> m.

(** ** Fees and value *)

Section Fees.
Context `{Cfg : ChainConfig}.

(** The fee of a transaction in block [i]: all to the validator under dynamic
    fees, half of it burned before.  Returns what was paid. *)
Definition charge_fee (b : Block) (i : Z) (tx : Transaction) : M Ledger Z :=
  if DYNAMIC_FEE_ACTIVATION_HEIGHT <=? i then
    let w := weight_of tx in
    if 0 <? w then
      let fee := compute_tx_fee (base_fee b) (max_fee_per_weight tx) (max_priority_fee tx) w in
      _ ← debit (sender tx) fee;
      _ ← credit (validator b) fee;
      mret fee
    else mret 0
  else
    let fee := legacy_fee tx in
    if 0 <? fee then
      _ ← debit (sender tx) fee;
      let validator_share := fee / 2 in
      _ ← credit (validator b) validator_share;
      _ ← modify (set total_burned (λ n, n + (fee - validator_share)));
      mret fee
    else mret 0.
End Fees.

(** The balance changes of a type *)
Definition move_value (tx : Transaction) : M Ledger unit :=
  match tx_type tx with
  | TRANSFER =>
      amount ← lift (jindex_int (payload tx) "amount");
      _ ← debit (sender tx) amount;
      credit (recipient tx) amount
  | STAKE | DELEGATE =>
      amount ← lift (jget_int (payload tx) "amount" 0);
      when (0 <? amount) (debit (sender tx) amount)
  | _ => mret tt
  end.

(** ** Effects of the types *)

Definition apply_notarize (tid : string) (tx : Transaction) : M Index unit :=
  doc_hash ← lift (jget_str (payload tx) "documentHash");
  _ ← when (negb (is_empty doc_hash))
        (_ ← modify (set notarizations (λ m, if decide (is_Some (m !! doc_hash)) then m else <[doc_hash := tid]> m));
         modify (set notarizations_by_hash (push doc_hash tid)));
  modify (set notarization_count (λ m, <[sender tx := get_or m (sender tx) 0 + 1]> m)).

Definition apply_register_key (tx : Transaction) : M Keys unit :=
  epk ← lift (jget_str (payload tx) "encryption_pk");
  when (negb (is_empty epk))
    (_ ← modify (set key_history (push (sender tx) epk));
     modify (set key_registry (<[sender tx := epk]>))).

(** [isinstance(commission, int) and 0 <= commission <= 100] *)
Definition commission_of (tx : Transaction) : option Z :=
  match int_val (jget (payload tx) "commission" JNull) with
  | Some c => if (0 <=? c) && (c <=? 100) then Some c else None
  | None => None
  end.
Definition set_commission (vaddr : string) (tx : Transaction) : M Chain unit :=
  match commission_of tx with
  | Some c => on ledger (modify (set validator_commission (<[vaddr := c]>)))
  | None => mret tt
  end.
Definition apply_register_validator (tx : Transaction) : M Chain unit :=
  vpk_hex ← lift (jget_str (payload tx) "validator_pubkey");
  vaddr ← lift (jget_str (payload tx) "validator_address");
  when (negb (is_empty vpk_hex) && negb (is_empty vaddr))
    (s ← get;
     if is_registered_validator s vaddr then set_commission vaddr tx
     else
       match fromhex vpk_hex with
       | None => raise (ValueError "non-hexadecimal number found in fromhex() arg")
       | Some vpk_bytes =>
           _ ← on keys (modify (set validator_registry (<[vaddr := vpk_bytes]>)));
           _ ← on cons (add_validator vaddr vpk_bytes);
           set_commission vaddr tx
       end).

(** [cnt = counts.get(t, 1) - 1; pop when <= 0] *)
Definition drop_type_count (t : Transaction) (m : gmap string Z) : gmap string Z :=
  let t_val := tt_value (tx_type t) in
  let cnt := get_or m t_val 1 - 1 in
  if cnt <=? 0 then delete t_val m else <[t_val := cnt]> m.

Section Handlers.
Context `{C : Crypto}.

(** The purge of the pool when a signing key is revoked *)
Definition purge_sender (addr : string) (p : Pool) : Pool :=
  let to_remove := filter (λ t, sender t = addr) (tx_pool p) in
  let p1 := p <| tx_pool := filter (λ t, sender t ≠ addr) (tx_pool p) |>
              <| pool_ids ::= λ ids, ids ∖ list_to_set (tx_id <$> to_remove) |>
              <| pool_type_counts ::= λ m, foldl (flip drop_type_count) m to_remove |> in
  match to_remove with
  | [] => p1
  | _ =>
      let remaining := Z.max 0 (get_or (pool_sender_count p) addr 0 - Z.of_nat (length to_remove)) in
      p1 <| pool_sender_count ::= λ m, if remaining =? 0 then delete addr m else <[addr := remaining]> m |>
         <| pending_debits_cache ::= delete addr |>
  end.

Definition apply_revoke_key (tid : string) (tx : Transaction) : M Chain unit :=
  key_type ← lift (jget_str (payload tx) "key_type");
  reason ← lift (jget_str (payload tx) "reason");
  _ ← on keys (modify (set revoked_keys
        (<[revocation_key (sender tx) key_type := mkRevocation tid (timestamp tx) reason]>)));
  if bool_decide (key_type = "validator") then
    _ ← on keys (modify (set validator_registry (delete (sender tx))));
    on cons (remove_validator (sender tx))
  else when (bool_decide (key_type = "signing")) (on pool (modify (purge_sender (sender tx)))).

(** [stakes[v][staker] = amount] on the insertion-ordered dictionaries *)
Definition put_stake (vaddr staker : string) (amount : Z) (d : dict string (dict string Z))
    : dict string (dict string Z) := dset d vaddr (dset (dget_or d vaddr []) staker amount).

Definition stake_step (vaddr staker : string) (amount : Z) (st : Staking) : Staking :=
  st <| stakes := put_stake vaddr staker (staker_info st staker vaddr + amount) (stakes st) |>
     <| total_stake ::= λ m, <[vaddr := get_or m vaddr 0 + amount]> m |>.
Definition apply_stake (tx : Transaction) : M Staking unit :=
  vaddr ← lift (jget_str (payload tx) "validator_address");
  amount ← lift (jget_int (payload tx) "amount" 0);
  when (negb (is_empty vaddr) && (0 <? amount)) (modify (stake_step vaddr (sender tx) amount)).

(** The unbonding entry carries the amount asked for, whatever was staked. *)
Definition unstake_step (i : Z) (vaddr staker : string) (amount : Z) (st : Staking) : Staking :=
  let new_amount := Z.max 0 (staker_info st staker vaddr - amount) in
  st <| stakes := match dget (stakes st) vaddr with
                  | Some d => dset (stakes st) vaddr
                      (if new_amount =? 0 then dpop d staker else dset d staker new_amount)
                  | None => stakes st
                  end |>
     <| total_stake ::= λ m, <[vaddr := Z.max 0 (get_or m vaddr 0 - amount)]> m |>
     <| unbonding ::= λ l, l ++ [mkUnbonding staker vaddr amount (i + UNBONDING_PERIOD)] |>.
Definition apply_unstake (i : Z) (tx : Transaction) : M Staking unit :=
  vaddr ← lift (jget_str (payload tx) "validator_address");
  amount ← lift (jget_int (payload tx) "amount" 0);
  when (negb (is_empty vaddr) && (0 <? amount)) (modify (unstake_step i vaddr (sender tx) amount)).

(** *** Tokens *)

(** [_update_token_index] *)
Definition discard_from (k x : string) (m : gmap string (gset string)) : gmap string (gset string) :=
  match m !! k with
  | None => m
  | Some X => let X' := X ∖ {[x]} in if decide (X' = ∅) then delete k m else <[k := X']> m
  end.
Definition update_token_index (tid a : string) (new_balance : Z) (tk : Tokens) : Tokens :=
  if 0 <? new_balance then
    tk <| holders_by_token ::= λ m, <[tid := {[a]} ∪ get_or m tid ∅]> m |>
       <| tokens_by_address ::= λ m, <[a := {[tid]} ∪ get_or m a ∅]> m |>
  else
    tk <| holders_by_token ::= discard_from tid a |>
       <| tokens_by_address ::= discard_from a tid |>.

Definition apply_issue_token (i : Z) (tid : string) (tx : Transaction) : M Tokens unit :=
  when (TOKEN_ACTIVATION_HEIGHT <=? i)
    (symbol ← lift (jindex_str (payload tx) "symbol");
     tk ← get;
     if decide (is_Some (token_by_symbol tk !! symbol)) then raise (ValueError "token symbol already exists")
     else
       let token_id := derive_token_id (sender tx) symbol (nonce tx) in
       if decide (is_Some (token_registry tk !! token_id)) then raise (ValueError "token_id collision")
       else
         name ← lift (jindex_str (payload tx) "name");
         decimals ← lift (jindex_int (payload tx) "decimals");
         max_supply ← lift (jget_int (payload tx) "max_supply" 0);
         let transferable := truthy (jget (payload tx) "transferable" (JBool true)) in
         _ ← modify (set token_registry (<[token_id :=
               mkToken (sender tx) name symbol decimals max_supply 0 transferable i tid]>));
         modify (set token_by_symbol (<[symbol := token_id]>))).

Definition MAX_TOKEN_AMOUNT : Z := 2 ^ 63 - 1.

Definition apply_mint_token (i : Z) (tx : Transaction) : M Tokens unit :=
  when (TOKEN_ACTIVATION_HEIGHT <=? i)
    (tid ← lift (jindex_str (payload tx) "token_id");
     tk ← get;
     match token_registry tk !! tid with
     | None => raise (ValueError "token does not exist")
     | Some reg =>
         if negb (bool_decide (tk_issuer reg = sender tx)) then raise (ValueError "only issuer can mint token")
         else
           amount ← lift (jindex_int (payload tx) "amount");
           if MAX_TOKEN_AMOUNT <? tk_total_minted reg + amount
           then raise (ValueError "minting would overflow total_minted")
           else if (0 <? tk_max_supply reg) && (tk_max_supply reg <? tk_total_minted reg + amount)
           then raise (ValueError "minting would exceed max_supply")
           else
             _ ← modify (set token_registry (<[tid := with_minted (Z.add amount) reg]>));
             let key := (tid, recipient tx) in
             _ ← modify (set token_balances (λ m, <[key := get_or m key 0 + amount]> m));
             modify (λ tk, update_token_index tid (recipient tx) (token_balance tk tid (recipient tx)) tk)
     end).

Definition apply_transfer_token (i : Z) (tx : Transaction) : M Tokens unit :=
  when (TOKEN_ACTIVATION_HEIGHT <=? i)
    (tid ← lift (jindex_str (payload tx) "token_id");
     tk ← get;
     match token_registry tk !! tid with
     | None => raise (ValueError "token does not exist")
     | Some reg =>
         if negb (tk_transferable reg) then raise (ValueError "token is not transferable")
         else
           amount ← lift (jindex_int (payload tx) "amount");
           let src_bal := token_balance tk tid (sender tx) in
           if src_bal <? amount then raise (ValueError "insufficient token balance")
           else
             _ ← modify (set token_balances (λ m,
                   if src_bal - amount =? 0 then delete (tid, sender tx) m
                   else <[(tid, sender tx) := src_bal - amount]> m));
             _ ← modify (λ tk, update_token_index tid (sender tx) (token_balance tk tid (sender tx)) tk);
             let dst_key := (tid, recipient tx) in
             _ ← modify (set token_balances (λ m, <[dst_key := get_or m dst_key 0 + amount]> m));
             modify (λ tk, update_token_index tid (recipient tx) (token_balance tk tid (recipient tx)) tk)
     end).

(** The branch on the type; [true] when the transaction goes to [_failed_tx_ids].
    [_process_evidence_tx] returns nothing, so evidence always does. *)
Definition apply_type (i : Z) (tx : Transaction) : M Chain bool :=
  let tid := tx_id tx in
  match tx_type tx with
  | NOTARIZE => _ ← on idx (apply_notarize tid tx); mret false
  | REGISTER_KEY => _ ← on keys (apply_register_key tx); mret false
  | REGISTER_VALIDATOR => _ ← apply_register_validator tx; mret false
  | REVOKE_KEY => _ ← apply_revoke_key tid tx; mret false
  | STAKE | DELEGATE => _ ← on staking (apply_stake tx); mret false
  | UNSTAKE => _ ← on staking (apply_unstake i tx); mret false
  | EVIDENCE => _ ← process_evidence_tx tx i; mret true
  | ISSUE_TOKEN => _ ← on tokens (apply_issue_token i tid tx); mret false
  | MINT_TOKEN => _ ← on tokens (apply_mint_token i tx); mret false
  | TRANSFER_TOKEN => _ ← on tokens (apply_transfer_token i tx); mret false
  | STORE | SHARE | TRANSFER => mret false
  end.
End Handlers.

(** ** One transaction *)

(** What the loop keeps of a transaction for its receipt *)
Record Applied := mkApplied {
  ap_index : Z; ap_tx_id : string; ap_fee : Z; ap_events : list event; ap_failed : bool }.

Section Block.
Context `{C : Crypto} `{Cfg : ChainConfig}.

Definition index_tx (i tx_idx : Z) (tx : Transaction) (ix : Index) : Index :=
  let tid := tx_id tx in
  ix <| tx_by_id ::= <[tid := (i, tx_idx)]> |>
     <| txs_by_sender ::= push (sender tx) tid |>
     <| txs_by_recipient ::= λ m, if is_empty (recipient tx) then m else push (recipient tx) tid m |>
     <| sender_nonce ::= λ m,
          if (0 <? i) && (get_or m (sender tx) (-1) <? nonce tx) then <[sender tx := nonce tx]> m else m |>.

(** The fee and the value moved; nothing at genesis or before activation *)
Definition settle (b : Block) (i : Z) (tx : Transaction) : M Ledger Z :=
  l ← get;
  if (0 <? i) && financial_active l then
    fee ← charge_fee b i tx;
    _ ← move_value tx;
    mret fee
  else mret 0.

Definition apply_tx (b : Block) (i tx_idx : Z) (tx : Transaction) : M Chain Applied :=
  _ ← on idx (modify (index_tx i tx_idx tx));
  _ ← on cons (modify (set chain_tx_ids (union {[tx_id tx]})));
  fee ← on ledger (settle b i tx);
  failed ← apply_type i tx;
  s ← get;
  events ← lift (build_tx_events s tx i);
  mret (mkApplied tx_idx (tx_id tx) fee events failed).

Fixpoint apply_txs (b : Block) (i tx_idx : Z) (txs : list Transaction) : M Chain (list Applied) :=
  match txs with
  | [] => mret []
  | tx :: rest =>
      a ← apply_tx b i tx_idx tx;
      l ← apply_txs b i (tx_idx + 1) rest;
      mret (a :: l)
  end.

(** ** Receipts *)

Definition receipt_of (i : Z) (failed : list string) (a : Applied) : result Receipt :=
  let status := if bool_decide (ap_tx_id a ∈ failed) then "failure" else "success" in
  new_receipt (ap_tx_id a) status (ap_fee a) i (ap_index a)
    (if bool_decide (status = "success") then ap_events a else []).

Definition index_event (tid : string) (m : gmap string (list string)) (e : event) : gmap string (list string) :=
  if is_empty (event_type_of e) then m else push (event_type_of e) tid m.

Fixpoint record_receipts (i : Z) (failed : list string) (l : list Applied) : M Receipts (list Receipt) :=
  match l with
  | [] => mret []
  | a :: rest =>
      r ← lift (receipt_of i failed a);
      _ ← modify (set receipts (λ d, dset d (ap_tx_id a) r));
      _ ← modify (set events_by_type (λ m, foldl (index_event (ap_tx_id a)) m (ap_events a)));
      _ ← modify (set events_by_block (push i (ap_tx_id a)));
      rs ← record_receipts i failed rest;
      mret (r :: rs)
  end.

(** ** Reward, events of the block, pruning *)

(** The reward and the event it leaves *)
Definition apply_reward (b : Block) (i : Z) : M Ledger (list event) :=
  l ← get;
  if (0 <? i) && financial_active l then
    let reward := calc_block_reward (total_minted l) i in
    if 0 <? reward then
      _ ← credit (validator b) reward;
      _ ← modify (set total_minted (λ m, m + reward));
      _ ← modify (set epoch_rewards (λ m, <[validator b := get_or m (validator b) 0 + reward]> m));
      mret [build_event "BlockReward" [("validator", JStr (validator b)); ("amount", JInt reward)]]
    else mret []
  else mret [].

Definition store_block_events (i : Z) (es : list event) (r : Receipts) : Receipts :=
  let prune_before := i - MAX_REORG_DEPTH - 1 in
  r <| block_level_events ::= λ m,
         let m := <[i := es]> m in if 0 <=? prune_before then delete prune_before m else m |>.

(** [if block.root and block.root != computed: raise] *)
Definition check_root (claimed computed msg : string) : result unit :=
  if negb (is_empty claimed) && negb (bool_decide (claimed = computed)) then Raise (ValueError msg) else Ok tt.

Definition prune_receipts (prune_before : Z) (r : Receipts) : Receipts :=
  match events_by_block r !! prune_before with
  | None => r
  | Some pruned =>
      let r := r <| events_by_block ::= delete prune_before |> in
      if bool_decide (pruned = []) then r
      else r <| events_by_type ::= λ m,
                  filter (λ kl, kl.2 ≠ []) ((λ l, filter (λ t, t ∉ pruned) l) <$> m) |>
             <| receipts ::= λ d, foldl dpop d pruned |>
  end.
Definition prune_distributions (prune_before : Z) (l : Ledger) : Ledger :=
  l <| last_epoch_distributions ::= λ m, filter (λ kd, ¬ (kd.1 < prune_before)) m |>.

(** Everything after the snapshot of the trie: what lies beyond the reorg depth goes *)
Definition prune_history (i : Z) : M Chain unit :=
  let prune_before := i - MAX_REORG_DEPTH - 1 in
  when (0 <=? prune_before)
    (_ ← on trie (modify (set state_snapshots (delete prune_before)));
     _ ← on recs (modify (prune_receipts prune_before));
     on ledger (modify (prune_distributions prune_before))).

(** ** The block *)

(** The block enters the chain's list and index. *)
Definition open_block (b : Block) : M Chain unit := modify (λ s,
  let i := height s + 1 in
  s <| chain_list ::= λ l, l ++ [b] |> <| height := i |> <| latest_block := Some b |>
    <| idx ::= set block_by_hash (<[block_hash b := i]>) |>).

(** Matured unbondings and the epoch boundary come before the transactions. *)
Definition begin_block (i : Z) : M Chain (list event) :=
  _ ← process_mature_unbondings i;
  epoch_before ← gets (λ s, current_epoch (staking s));
  _ ← check_epoch_transition i;
  epoch_after ← gets (λ s, current_epoch (staking s));
  mret (if epoch_before <? epoch_after
        then [build_event "EpochTransition" [("epoch", JInt epoch_after)]] else []).

Definition seal_receipts (b : Block) (block_receipts : list Receipt) : M Chain unit :=
  let computed := receipts_root_of block_receipts in
  _ ← on trie (modify (set last_receipts_root (λ _, Some computed)));
  lift (check_root (receipts_root b) computed "receiptsRoot mismatch").

Definition seal_state (b : Block) (i : Z) : M Chain unit :=
  _ ← rebuild_state_trie;
  t ← gets (λ s, state_trie (trie s));
  let computed_root := hex (trie_root t) in
  _ ← on trie (modify (set last_state_root (λ _, Some computed_root)));
  _ ← lift (check_root (state_root b) computed_root "state_root mismatch");
  on trie (modify (set state_snapshots (<[i := trie_snapshot t]>))).

Definition append_block_inner (b : Block) : M Chain unit :=
  i ← gets (λ s, height s + 1);
  _ ← open_block b;
  epoch_events ← begin_block i;
  applied ← apply_txs b i 0 (transactions b);
  let failed := ap_tx_id <$> filter (λ a, ap_failed a = true) applied in
  block_receipts ← on recs (record_receipts i failed applied);
  reward_events ← on ledger (apply_reward b i);
  _ ← on recs (modify (store_block_events i (epoch_events ++ reward_events)));
  _ ← seal_receipts b block_receipts;
  _ ← seal_state b i;
  _ ← prune_history i;
  update_finality i.
End Block.
