(* ===== verification/Frames.v ===== *)
(** * What a block application leaves alone

    Every part of [Apply] touches few components of the chain.  A projection
    [π] that does not see those components is the same before and after,
    whether the part returns or raises: the theorems about tokens, linkage and
    nonces use it for all the parts they are not about. *)
From S2P Require Import Prelude PyStr Json Config Crypto StateTrie Wallet Transaction Fees Block Receipt ChainState Ledger StateOps Staking Consensus ReceiptOps Apply.
Open Scope Z_scope.

(** [π] does not look at the component [ρ]. *)
Definition blind {T U} (π : Chain → T) (ρ : Chain → U) `{!Setter ρ} : Prop :=
  ∀ f s, π (set ρ f s) = π s.

Section Frames.
Context `{C : Crypto} `{Cfg : ChainConfig} {T : Type} (π : Chain → T).

Lemma fixes_blind {U A} (ρ : Chain → U) `{!Setter ρ} (m : M U A) : blind π ρ → fixes π (on ρ m).
Proof. intros H. apply fixes_on. intros u s. apply (H (λ _, u)). Qed.
#[local] Hint Resolve fixes_blind : fixes.

Lemma frame_begin_block i : blind π ledger → blind π staking → fixes π (begin_block i).
Proof.
  intros Hl Hs. unfold begin_block, process_mature_unbondings, check_epoch_transition, distribute_epoch_rewards.
  auto 20 with fixes.
Qed.
Lemma frame_evidence tx i : blind π staking → blind π cons → fixes π (process_evidence_tx tx i).
Proof.
  intros Hs Hc. unfold process_evidence_tx, fromhex_or_return, slash_validator. auto 40 with fixes.
Qed.
Lemma frame_register_validator tx : blind π keys → blind π cons → blind π ledger →
  fixes π (apply_register_validator tx).
Proof. intros Hk Hc Hl. unfold apply_register_validator, set_commission. auto 20 with fixes. Qed.
Lemma frame_revoke_key tid tx : blind π keys → blind π cons → blind π pool → fixes π (apply_revoke_key tid tx).
Proof. intros Hk Hc Hp. unfold apply_revoke_key. auto 20 with fixes. Qed.
Lemma frame_rebuild : blind π trie → fixes π rebuild_state_trie.
Proof.
  intros H. assert (∀ k v, fixes π (put_entry k v)) by (intros; unfold put_entry; auto with fixes).
  unfold rebuild_state_trie, put_balance, put_nonce, put_token_balance, put_token_supply. auto 20 with fixes.
Qed.
Lemma frame_seal_state b i : blind π trie → fixes π (seal_state b i).
Proof. intros H. pose proof (frame_rebuild H). unfold seal_state. auto 20 with fixes. Qed.
Lemma frame_seal_receipts b rs : blind π trie → fixes π (seal_receipts b rs).
Proof. intros H. unfold seal_receipts. auto 20 with fixes. Qed.
Lemma frame_prune_history i : blind π trie → blind π recs → blind π ledger → fixes π (prune_history i).
Proof. intros Ht Hr Hl. unfold prune_history. auto 20 with fixes. Qed.
Lemma frame_update_finality i : blind π recs → fixes π (update_finality i).
Proof. intros Hr. unfold update_finality. auto 20 with fixes. Qed.

(** What [apply_type] may touch besides the token ledger and the index *)
Lemma frame_apply_type i tx :
  blind π keys → blind π cons → blind π ledger → blind π pool → blind π staking →
  fixes π (on idx (apply_notarize (tx_id tx) tx)) →
  (tx_type tx = ISSUE_TOKEN → fixes π (on tokens (apply_issue_token i (tx_id tx) tx))) →
  (tx_type tx = MINT_TOKEN → fixes π (on tokens (apply_mint_token i tx))) →
  (tx_type tx = TRANSFER_TOKEN → fixes π (on tokens (apply_transfer_token i tx))) →
  fixes π (apply_type i tx).
Proof.
  intros Hk Hc Hl Hp Hs Hn Hi Hm Ht. unfold apply_type.
  pose proof (frame_evidence tx i Hs Hc). pose proof (frame_register_validator tx Hk Hc Hl).
  pose proof (frame_revoke_key (tx_id tx) tx Hk Hc Hp).
  destruct (tx_type tx); auto 10 with fixes.
Qed.

(** Everything after the transactions *)
Definition close_block (b : Block) (i : Z) (epoch_events : list event) (applied : list Applied) : M Chain unit :=
  let failed := ap_tx_id <$> filter (λ a, ap_failed a = true) applied in
  block_receipts ← on recs (record_receipts i failed applied);
  reward_events ← on ledger (apply_reward b i);
  _ ← on recs (modify (store_block_events i (epoch_events ++ reward_events)));
  _ ← seal_receipts b block_receipts;
  _ ← seal_state b i;
  _ ← prune_history i;
  update_finality i.
Lemma append_block_inner_close b :
  append_block_inner b =
  (i ← gets (λ s, height s + 1);
   _ ← open_block b;
   epoch_events ← begin_block i;
   applied ← apply_txs b i 0 (transactions b);
   close_block b i epoch_events applied).
Proof. done. Qed.
Lemma frame_close_block b i es l : blind π trie → blind π recs → blind π ledger →
  fixes π (close_block b i es l).
Proof.
  intros Ht Hr Hl. unfold close_block.
  pose proof (frame_update_finality i Hr). pose proof (frame_prune_history i Ht Hr Hl).
  pose proof (frame_seal_state b i Ht). pose proof (λ rs, frame_seal_receipts b rs Ht). auto 20 with fixes.
Qed.

(** A projection that sees none of the components, only the list of blocks,
    the tip or the height *)
Class Outer := {
  outer_pool : blind π pool; outer_idx : blind π idx; outer_keys : blind π keys;
  outer_staking : blind π staking; outer_ledger : blind π ledger; outer_tokens : blind π tokens;
  outer_trie : blind π trie; outer_recs : blind π recs; outer_cons : blind π cons }.

Lemma outer_apply_tx `{!Outer} b i n tx : fixes π (apply_tx b i n tx).
Proof.
  pose proof outer_idx. pose proof outer_cons. pose proof outer_ledger. pose proof outer_tokens.
  assert (fixes π (apply_type i tx)).
  { apply frame_apply_type; intros; (apply outer_keys || apply outer_cons || apply outer_ledger ||
      apply outer_pool || apply outer_staking || by apply fixes_blind). }
  unfold apply_tx. auto 20 with fixes.
Qed.
Lemma outer_apply_txs `{!Outer} b i n txs : fixes π (apply_txs b i n txs).
Proof.
  revert n. induction txs as [|tx txs IH]; intros n; cbn [apply_txs]; [apply fixes_ret|].
  apply fixes_bind; [apply outer_apply_tx|intros a]. apply fixes_bind; [apply IH|intros l; apply fixes_ret].
Qed.
(** Only [open_block] touches such a projection. *)
Lemma outer_append_block_inner `{!Outer} b s : π (append_block_inner b s).2 = π (open_block b s).2.
Proof.
  rewrite append_block_inner_close. unfold mbind at 1, M_bind at 1, gets. unfold mbind at 1, M_bind at 1.
  destruct (open_block b s) as [[[]|e] s0] eqn:E; [|done].
  assert (fixes π (epoch_events ← begin_block (height s + 1);
    applied ← apply_txs b (height s + 1) 0 (transactions b);
    close_block b (height s + 1) epoch_events applied)) as Hrest; [|exact (Hrest s0)].
  apply fixes_bind; [apply frame_begin_block; [apply outer_ledger|apply outer_staking]|intros es].
  apply fixes_bind; [apply outer_apply_txs|intros l].
  apply frame_close_block; [apply outer_trie|apply outer_recs|apply outer_ledger].
Qed.
End Frames.

#[export] Instance outer_chain_list : Outer chain_list.
Proof. done. Qed.
#[export] Instance outer_height : Outer height.
Proof. done. Qed.
#[export] Instance outer_latest_block : Outer latest_block.
Proof. done. Qed.
