(* ===== verification/Books.v ===== *)
(** * The books: balances, stakes and supply while a block is applied

    Invariants of [Apply] over the ledger and the stakes: every recorded
    balance is positive and the supply is bounded whatever the outcome of a
    block, and value is accounted for exactly by what each transaction type
    does to it. *)
From S2P Require Import Prelude PyStr Json Config Crypto StateTrie Wallet Transaction Fees Block Receipt ChainState Ledger StateOps Staking Consensus ReceiptOps Apply.
Open Scope Z_scope.

(** ** Invariants of the two components the books consist of *)

Record staking_ok (st : Staking) : Prop := mkStakingOk {
  so_stakes : stakes_nonneg st;
  so_total : map_Forall (λ _ n, 0 <= n) (total_stake st);
  so_unbonding : Forall (λ e, 0 < ub_amount e) (unbonding st) }.
Record ledger_ok (f : bool) (l : Ledger) : Prop := mkLedgerOk {
  lo_active : financial_active l = f;
  lo_epoch : epoch_ok l;
  lo_minted : 0 <= total_minted l <= MAX_SUPPLY;
  lo_burned : 0 <= total_burned l }.
Record books_ok (f : bool) (s : Chain) : Prop := mkBooksOk {
  bo_ledger : ledger_ok f (ledger s);
  bo_staking : staking_ok (staking s) }.

(** A predicate on the ledger and the stakes alone *)
Class Framed (I : Chain → Prop) := framed : ∀ s s', ledger s = ledger s' → staking s = staking s' → I s → I s'.
#[export] Instance books_framed f : Framed (books_ok f).
Proof. intros s s' H1 H2 []. split; congruence. Qed.

(** Operations that leave both components alone *)
Definition quiet {A} (m : M Chain A) : Prop :=
  ∀ s, ledger (m s).2 = ledger s ∧ staking (m s).2 = staking s.

Lemma quiet_wp {A} (m : M Chain A) I `{!Framed I} s : quiet m → I s → wp m (λ _ s', I s') s.
Proof.
  intros Hq Hs. unfold wp. destruct (Hq s) as [H1 H2]. destruct (m s) as [r s']. cbn in *.
  by eapply framed; [symmetry; exact H1|symmetry; exact H2|].
Qed.
Lemma quiet_ret {A} (a : A) : quiet (mret a).
Proof. done. Qed.
Lemma quiet_raise {A} e : quiet (raise (A:=A) e).
Proof. done. Qed.
Lemma quiet_lift {A} (r : result A) : quiet (lift r).
Proof. done. Qed.
Lemma quiet_get : quiet get.
Proof. done. Qed.
Lemma quiet_gets {A} (f : Chain → A) : quiet (gets f).
Proof. done. Qed.
Lemma quiet_bind {A B} (m : M Chain A) (k : A → M Chain B) : quiet m → (∀ a, quiet (k a)) → quiet (m ≫= k).
Proof.
  intros Hm Hk s. unfold mbind, M_bind. specialize (Hm s). destruct (m s) as [[a|e] s'] eqn:E; cbn in Hm.
  - specialize (Hk a s'). destruct Hm as [<- <-]. exact Hk.
  - exact Hm.
Qed.
Lemma quiet_when b (m : M Chain unit) : quiet m → quiet (when b m).
Proof. by destruct b. Qed.
Lemma quiet_mfor {A} (f : A → M Chain unit) l : (∀ x, quiet (f x)) → quiet (mfor f l).
Proof. intros Hf. induction l as [|x l IH]; [done|]. apply quiet_bind; [apply Hf|done]. Qed.

(** Components other than the two are framed by computation. *)
Lemma quiet_idx {A} (m : M Index A) : quiet (on idx m).
Proof. intros s. unfold on, zoom. by destruct (m (idx s)). Qed.
Lemma quiet_keys {A} (m : M Keys A) : quiet (on keys m).
Proof. intros s. unfold on, zoom. by destruct (m (keys s)). Qed.
Lemma quiet_cons {A} (m : M Consensus A) : quiet (on cons m).
Proof. intros s. unfold on, zoom. by destruct (m (cons s)). Qed.
Lemma quiet_pool {A} (m : M Pool A) : quiet (on pool m).
Proof. intros s. unfold on, zoom. by destruct (m (pool s)). Qed.
Lemma quiet_tokens {A} (m : M Tokens A) : quiet (on tokens m).
Proof. intros s. unfold on, zoom. by destruct (m (tokens s)). Qed.
Lemma quiet_recs {A} (m : M Receipts A) : quiet (on recs m).
Proof. intros s. unfold on, zoom. by destruct (m (recs s)). Qed.
Lemma quiet_trie {A} (m : M Trie A) : quiet (on trie m).
Proof. intros s. unfold on, zoom. by destruct (m (trie s)). Qed.

Create HintDb quiet.
#[export] Hint Resolve quiet_ret quiet_raise quiet_lift quiet_get quiet_gets quiet_when quiet_mfor
  quiet_idx quiet_keys quiet_cons quiet_pool quiet_tokens quiet_recs quiet_trie : quiet.
#[export] Hint Extern 1 (quiet (_ ≫= _)) => (apply quiet_bind; [|intros ?]) : quiet.
#[export] Hint Extern 2 (quiet (if ?b then _ else _)) => destruct b : quiet.
#[export] Hint Extern 2 (quiet (match ?x with _ => _ end)) => destruct x : quiet.

Lemma quiet_put_entry k v : quiet (put_entry k v).
Proof. unfold put_entry. auto with quiet. Qed.
Lemma quiet_rebuild : quiet rebuild_state_trie.
Proof.
  unfold rebuild_state_trie, put_balance, put_nonce, put_token_balance, put_token_supply.
  pose proof quiet_put_entry. auto 20 with quiet.
Qed.
#[export] Hint Resolve quiet_rebuild : quiet.
Lemma quiet_update_finality i : quiet (update_finality i).
Proof. 
  unfold update_finality. apply quiet_bind; [auto with quiet|]. intros s. cbv zeta.
  destruct (_ || _); [auto with quiet|]. destruct (finality_walk _ _ _ _ _ _); auto with quiet.
Qed.
#[export] Hint Resolve quiet_update_finality : quiet.

(** ** The ledger's own operations *)

Lemma ledger_credit {f} a n L : 0 <= n → ledger_ok f L → ledger_ok f (L <| balances ::= credit_map a n |>).
Proof.
  intros Hn [Ha [Hb Hr Hc] Hm Hbn]. split; [done|split|..]; try done. by apply credit_map_positive.
Qed.
Lemma ledger_debit {f} a n L : n <= bal L a → ledger_ok f L → ledger_ok f (L <| balances ::= debit_map a n |>).
Proof.
  intros Hn [Ha [Hb Hr Hc] Hm Hbn]. split; [done|split|..]; try done. by apply debit_map_positive.
Qed.

Lemma keeps_credit {f} a n : keeps (ledger_ok f) (credit a n).
Proof.
  intros L HL. unfold wp. rewrite credit_run. destruct (Z.ltb_spec n 0); [done|]. by apply ledger_credit.
Qed.
Lemma keeps_debit {f} a n : keeps (ledger_ok f) (debit a n).
Proof.
  intros L HL. unfold wp. rewrite debit_run. destruct (Z.ltb_spec n 0); [done|].
  destruct (Z.eqb_spec n 0) as [->|]; cbn [negb andb].
  - apply ledger_debit; [|done]. apply positive_get. by apply HL.
  - destruct (Z.ltb_spec (bal L a) n); [done|]. by apply ledger_debit.
Qed.
#[export] Hint Resolve keeps_credit keeps_debit : keeps.

Lemma keeps_burn {f} fee : 0 < fee → keeps (ledger_ok f) (modify (set total_burned (λ n, n + (fee - fee / 2)))).
Proof.
  intros Hf L [Ha He Hm Hb]. apply wp_modify. split; [done| |done|].
  - by destruct He as [? ? ?].
  - cbn. pose proof (Z.div_lt fee 2). lia.
Qed.

Lemma keeps_charge_fee {f} `{Cfg : ChainConfig} b i tx : keeps (ledger_ok f) (charge_fee b i tx).
Proof.
  unfold charge_fee. destruct (_ <=? i).
  - destruct (0 <? weight_of tx); auto with keeps.
  - destruct (Z.ltb_spec 0 (legacy_fee tx)); [|apply keeps_ret]. pose proof (@keeps_burn f). auto 10 with keeps.
Qed.
Lemma keeps_move_value {f} tx : keeps (ledger_ok f) (move_value tx).
Proof. unfold move_value. destruct (tx_type tx); auto 10 with keeps. Qed.

Lemma keeps_settle {f} `{Cfg : ChainConfig} b i tx : keeps (ledger_ok f) (settle b i tx).
Proof.
  unfold settle. pose proof (@keeps_charge_fee f _ b i tx). pose proof (@keeps_move_value f tx).
  apply keeps_bind; [by intros L|]. intros L. destruct (_ && _); auto 10 with keeps.
Qed.

Lemma keeps_apply_reward {f} b i : keeps (ledger_ok f) (apply_reward b i).
Proof.
  intros L HL. unfold apply_reward, get. unfold mbind at 1, M_bind at 1, wp.
  destruct (_ && _); [|done]. pose proof (reward_cap (total_minted L) i) as Hcap.
  pose proof (reward_nonneg (total_minted L) i) as Hnn.
  destruct (Z.ltb_spec 0 (calc_block_reward (total_minted L) i)) as [Hp|]; [|done].
  set (reward := calc_block_reward (total_minted L) i) in *.
  unfold mbind, M_bind, modify. rewrite credit_run. destruct (Z.ltb_spec reward 0); [lia|].
  destruct (ledger_credit (validator b) reward L Hnn HL) as [Ha [Hb Hr Hc] [Hm0 Hm] Hbn].
  split; [exact Ha|split|..]; cbn in *; try done; [|destruct HL as [_ _ Hml _]; lia].
  apply map_Forall_insert_2; [|done]. unfold get_or.
  destruct (epoch_rewards L !! validator b) as [r|] eqn:E; cbn; [apply Hr in E; lia|lia].
Qed.

(** ** Stakes *)

Section DictForall.
Context {K V : Type} `{EqDecision K} (P : V → Prop).
Lemma Forall_dset (d : dict K V) k v :
  Forall (λ e, P e.2) d → P v → Forall (λ e, P e.2) (dset d k v).
Proof.
  intros Hd Hv. induction d as [|[k0 v0] d IH]; csimpl; [by constructor|].
  apply list.Forall_cons in Hd as [Hp Hd]. case_decide; constructor; auto.
Qed.
Lemma Forall_dpop (d : dict K V) k : Forall (λ e, P e.2) d → Forall (λ e, P e.2) (dpop d k).
Proof.
  intros Hd. induction d as [|[k0 v0] d IH]; csimpl; [done|].
  apply list.Forall_cons in Hd as [Hp Hd]. case_decide; [auto|constructor; auto].
Qed.
Lemma Forall_dget (d : dict K V) k v : Forall (λ e, P e.2) d → dget d k = Some v → P v.
Proof. intros Hd Hv%dget_Some_elem. by apply (Forall_in _ _ _ Hd) in Hv. Qed.
Lemma Forall_dget_or (d : dict K V) k v : Forall (λ e, P e.2) d → P v → P (dget_or d k v).
Proof. intros Hd Hv. unfold dget_or. destruct (dget d k) eqn:E; [by eapply Forall_dget|done]. Qed.
End DictForall.

Lemma stakes_nonneg_get st v : stakes_nonneg st → Forall (λ x, 0 <= x.2) (dget_or (stakes st) v []).
Proof. intros H. by apply (Forall_dget_or (Forall (λ x, 0 <= x.2))). Qed.
Lemma staker_info_nonneg st a v : stakes_nonneg st → 0 <= staker_info st a v.
Proof. intros H. apply (Forall_dget_or (λ n, 0 <= n)); [by apply stakes_nonneg_get|cbn beta; lia]. Qed.

Lemma total_get st v : map_Forall (λ _ n, 0 <= n) (total_stake st) → 0 <= get_or (total_stake st) v 0.
Proof. intros H. unfold get_or. destruct (_ !! v) eqn:E; [by apply H in E|done]. Qed.

Lemma stake_step_ok v a n st : 0 < n → staking_ok st → staking_ok (stake_step v a n st).
Proof.
  intros Hn [Hs Ht Hu]. pose proof (staker_info_nonneg st a v Hs). pose proof (total_get st v Ht).
  split; cbn; [|apply map_Forall_insert_2; [lia|done]|done].
  unfold stakes_nonneg. cbn. apply (Forall_dset (Forall (λ x, 0 <= x.2))); [done|].
  apply (Forall_dset (λ n, 0 <= n)); [by apply stakes_nonneg_get|cbn beta; lia].
Qed.

Lemma unstake_step_ok i v a n st : 0 < n → staking_ok st → staking_ok (unstake_step i v a n st).
Proof.
  intros Hn [Hs Ht Hu]. split; cbn.
  - unfold stakes_nonneg. cbn. destruct (dget (stakes st) v) as [d|] eqn:E; [|done].
    apply (Forall_dget (Forall (λ x, 0 <= x.2))) in E as Hd; [|done].
    apply (Forall_dset (Forall (λ x, 0 <= x.2))); [done|].
    destruct (_ =? 0); [by apply (Forall_dpop (λ n, 0 <= n))|].
    apply (Forall_dset (λ n, 0 <= n)); [done|cbn beta; lia].
  - apply map_Forall_insert_2; [lia|done].
  - apply list.Forall_app. split; [done|]. repeat constructor. done.
Qed.

Lemma reduce_stakers_nonneg d : Forall (λ x, 0 <= x.2) d → Forall (λ x, 0 <= x.2) (reduce_stakers d).
Proof.
  intros Hd. unfold reduce_stakers. generalize d at 2. intros l. revert d Hd.
  induction l as [|e l IH]; intros d Hd; [done|]. apply IH. unfold reduce_staker.
  destruct (_ =? 0); [by apply (Forall_dpop (λ n, 0 <= n))|]. apply (Forall_dset (λ n, 0 <= n)); [done|cbn beta; lia].
Qed.

Lemma apply_slash_ok v ev i st : staking_ok st → staking_ok (apply_slash v ev i st).
Proof.
  intros [Hs Ht Hu]. split; cbn; [|destruct (_ <? MIN_STAKE)|done].
  - unfold stakes_nonneg. cbn. set (d1 := match dget (stakes st) v with Some _ => _ | None => _ end).
    assert (Forall (λ e, Forall (λ x, 0 <= x.2) e.2) d1) as Hd1.
    { subst d1. destruct (dget (stakes st) v) as [d|] eqn:E; [|done].
      apply (Forall_dget (Forall (λ x, 0 <= x.2))) in E as Hd; [|done].
      apply (Forall_dset (Forall (λ x, 0 <= x.2))); [done|by apply reduce_stakers_nonneg]. }
    destruct (_ <? MIN_STAKE); [by apply (Forall_dpop (Forall (λ x, 0 <= x.2)))|done].
  - by apply map_Forall_delete.
  - apply map_Forall_insert_2; [lia|done].
Qed.

(** ** The whole chain *)

Lemma keeps_on_ledger {f} {A} (m : M Ledger A) : keeps (ledger_ok f) m → keeps (books_ok f) (on ledger m).
Proof.
  intros Hm s [Hl Hs]. apply wp_on. eapply wp_mono; [by apply Hm|]. intros r L HL. by split.
Qed.
Lemma keeps_on_staking {f} {A} (m : M Staking A) : keeps staking_ok m → keeps (books_ok f) (on staking m).
Proof.
  intros Hm s [Hl Hs]. apply wp_on. eapply wp_mono; [by apply Hm|]. intros r L HL. by split.
Qed.
Lemma keeps_quiet {f} {A} (m : M Chain A) : quiet m → keeps (books_ok f) m.
Proof. intros Hq s Hs. by apply quiet_wp; [apply books_framed|..]. Qed.
#[export] Hint Resolve keeps_on_ledger keeps_on_staking : keeps.

Lemma keeps_apply_stake tx : keeps staking_ok (apply_stake tx).
Proof.
  unfold apply_stake. apply keeps_bind; [apply keeps_lift|intros v]. apply keeps_bind; [apply keeps_lift|intros n].
  destruct (negb (is_empty v)); cbn [andb]; [|apply keeps_ret].
  destruct (Z.ltb_spec 0 n); [|apply keeps_ret]. apply keeps_modify. intros st Hst. by apply stake_step_ok.
Qed.
Lemma keeps_apply_unstake i tx : keeps staking_ok (apply_unstake i tx).
Proof.
  unfold apply_unstake. apply keeps_bind; [apply keeps_lift|intros v]. apply keeps_bind; [apply keeps_lift|intros n].
  destruct (negb (is_empty v)); cbn [andb]; [|apply keeps_ret].
  destruct (Z.ltb_spec 0 n); [|apply keeps_ret]. apply keeps_modify. intros st Hst. by apply unstake_step_ok.
Qed.

Lemma keeps_process_evidence {f} `{C : Crypto} tx i : keeps (books_ok f) (process_evidence_tx tx i).
Proof.
  intros s [Hl Hs]. unfold wp. destruct (process_evidence_cases tx i s) as [Hq|(v & _ & Hrun)].
  - destruct (process_evidence_tx tx i s) as [r s']. cbn in Hq. subst. by split.
  - destruct (slash_validator_run v (tx_id tx) i s) as (s' & Hrun' & Hst & Hled & _).
    rewrite Hrun, Hrun'. split; [by rewrite Hled|rewrite Hst; by apply apply_slash_ok].
Qed.

Lemma keeps_set_commission {f} v tx : keeps (books_ok f) (set_commission v tx).
Proof.
  unfold set_commission, commission_of. destruct (int_val _) as [c|]; [|apply keeps_ret].
  destruct (Z.leb_spec 0 c); [|apply keeps_ret]. destruct (Z.leb_spec c 100); [|apply keeps_ret]. cbn [andb].
  apply keeps_on_ledger, keeps_modify. intros L [Ha [Hb Hr Hc] Hm Hbn]. split; [done|split|..]; try done.
  apply map_Forall_insert_2; [lia|done].
Qed.
Lemma keeps_register_validator {f} tx : keeps (books_ok f) (apply_register_validator tx).
Proof.
  unfold apply_register_validator. pose proof (@keeps_set_commission f).
  pose proof (λ A (m : M Keys A), @keeps_quiet f _ _ (quiet_keys m)).
  pose proof (λ A (m : M Consensus A), @keeps_quiet f _ _ (quiet_cons m)). auto 12 with keeps.
Qed.
Lemma quiet_revoke_key tid tx `{C : Crypto} : quiet (apply_revoke_key tid tx).
Proof. unfold apply_revoke_key. auto 12 with quiet. Qed.

Lemma keeps_apply_type {f} `{C : Crypto} i tx : keeps (books_ok f) (apply_type i tx).
Proof.
  unfold apply_type. pose proof (@keeps_register_validator f). pose proof keeps_apply_stake.
  pose proof keeps_apply_unstake. pose proof (@keeps_process_evidence f).
  assert (∀ B (m : M Chain B), quiet m → keeps (books_ok f) m) by apply @keeps_quiet.
  pose proof quiet_revoke_key. destruct (tx_type tx); auto 6 with keeps quiet.
Qed.

Lemma keeps_apply_tx {f} `{C : Crypto} `{Cfg : ChainConfig} b i n tx : keeps (books_ok f) (apply_tx b i n tx).
Proof.
  unfold apply_tx. pose proof (@keeps_settle f). pose proof (@keeps_apply_type f).
  assert (∀ B (m : M Chain B), quiet m → keeps (books_ok f) m) by apply @keeps_quiet.
  auto 12 with keeps quiet.
Qed.
Lemma keeps_apply_txs {f} `{C : Crypto} `{Cfg : ChainConfig} b i n txs : keeps (books_ok f) (apply_txs b i n txs).
Proof.
  revert n. induction txs as [|tx txs IH]; intros n; [apply keeps_ret|]. cbn [apply_txs].
  apply keeps_bind; [apply keeps_apply_tx|]. intros a. apply keeps_bind; [apply IH|]. intros l. apply keeps_ret.
Qed.

Lemma unbonding_nonneg st : staking_ok st → Forall (λ e, 0 <= ub_amount e) (unbonding st).
Proof. intros [_ _ Hu]. eapply list.Forall_impl; [exact Hu|]. cbn. lia. Qed.

Lemma keeps_mature {f} i : keeps (books_ok f) (process_mature_unbondings i).
Proof.
  intros s [Hl Hs]. unfold wp. destruct (process_mature_spec s i (unbonding_nonneg _ Hs)) as (bals & -> & _ & _ & Hp).
  destruct Hl as [Ha [Hb Hr Hc] Hm Hbn], Hs as [Hst Ht Hu]. split; split; try done.
  - split; try done. by apply Hp.
  - apply list.Forall_forall. intros e [_ He]%list_elem_of_filter. by apply (Forall_in _ _ _ Hu).
Qed.

Lemma snapshot_nonneg s v : positive_map (balances (ledger s)) → 0 <= get_or (balance_snapshot s) v 0.
Proof.
  intros Hb. unfold balance_snapshot, get_or. destruct (list_to_map _ !! v) as [n|] eqn:E; cbn; [|done].
  apply elem_of_list_to_map_2 in E. apply list_elem_of_fmap in E as (w & [= -> ->] & _).
  by apply positive_get.
Qed.

Lemma keeps_check_epoch {f} i : keeps (books_ok f) (check_epoch_transition i).
Proof.
  intros s Hb. pose proof Hb as [Hl Hs]. unfold check_epoch_transition, get. unfold mbind at 1, M_bind at 1.
  unfold wp. destruct (EPOCH_LENGTH <=? 0); [done|]. unfold when at 1. destruct (_ || _); [|done].
  assert (keeps (books_ok f) (on staking (modify (λ st,
    st <| current_epoch := i / EPOCH_LENGTH |> <| epoch_validators := live_validators st |>
       <| epochs ::= <[i / EPOCH_LENGTH := live_validators st]> |>)))) as Hsnap.
  { apply keeps_on_staking, keeps_modify. intros st [? ? ?]. by split. }
  apply (wp_bind (when _ _)). apply wp_when; [|intros _; by apply Hsnap].
  intros _. unfold wp at 1.
  destruct (distribute_epoch_rewards_spec s (i / EPOCH_LENGTH - 1) (Some (balance_snapshot s)))
    as (cr & db & bals & er & -> & Hm).
  { apply Hl. }
  { intros v. apply snapshot_nonneg. apply Hl. }
  { apply Hs. }
  apply Hsnap. split; [|done]. split; [apply Hl|split|apply Hl..].
  - exact (mv_positive _ _ _ _ _ Hm).
  - cbn. intros k r Hr. rewrite lookup_fmap in Hr. by destruct (er !! k); simplify_eq/=.
  - apply Hl.
Qed.

Lemma keeps_begin_block {f} i : keeps (books_ok f) (begin_block i).
Proof. unfold begin_block. pose proof (@keeps_mature f). pose proof (@keeps_check_epoch f). auto 12 with keeps. Qed.

Lemma quiet_open_block `{C : Crypto} b : quiet (open_block b).
Proof. done. Qed.
Lemma quiet_seal_receipts `{C : Crypto} b rs : quiet (seal_receipts b rs).
Proof. unfold seal_receipts. cbv zeta. auto 12 with quiet. Qed.
Lemma quiet_seal_state `{C : Crypto} b i : quiet (seal_state b i).
Proof. unfold seal_state. cbv zeta. auto 20 with quiet. Qed.
Lemma keeps_prune_history {f} i : keeps (books_ok f) (prune_history i).
Proof.
  unfold prune_history. cbv zeta. assert (∀ B (m : M Chain B), quiet m → keeps (books_ok f) m) by apply @keeps_quiet.
  assert (∀ n, keeps (ledger_ok f) (modify (prune_distributions n))).
  { intros n. apply keeps_modify. intros L [? [? ? ?] ? ?]. by split. }
  auto 12 with keeps quiet.
Qed.

Lemma keeps_append_block_inner {f} `{C : Crypto} `{Cfg : ChainConfig} b : keeps (books_ok f) (append_block_inner b).
Proof.
  unfold append_block_inner. pose proof quiet_open_block. pose proof quiet_seal_receipts.
  pose proof quiet_seal_state. pose proof (@keeps_begin_block f). pose proof (@keeps_apply_txs f).
  pose proof (@keeps_apply_reward f). pose proof (@keeps_prune_history f).
  assert (∀ B (m : M Chain B), quiet m → keeps (books_ok f) m) by apply @keeps_quiet. cbv zeta.
  auto 30 with keeps quiet.
Qed.

(** ** Where value goes *)

Definition lsum (L : Ledger) : Z := msum (balances L) + total_burned L - total_minted L.
Definition ssum (st : Staking) : Z := ub_total (unbonding st) + msum (total_stake st).
Lemma unaccounted_split s : unaccounted s = lsum (ledger s) + ssum (staking s).
Proof. unfold unaccounted, holdings, lsum, ssum. lia. Qed.

(** When [m] returns from a state satisfying [I], it has changed [g] by [d]. *)
Definition effect {S A} (I : S → Prop) (g : S → Z) (d : Z) (m : M S A) : Prop :=
  ∀ s, I s → wp m (λ r s', match r with Ok _ => g s' = g s + d | Raise _ => True end) s.

Section Effect.
Context {S : Type} (I : S → Prop) (g : S → Z).
Lemma effect_bind {A B} d1 d2 d (m : M S A) (k : A → M S B) :
  keeps I m → effect I g d1 m → (∀ a, effect I g d2 (k a)) → d = d1 + d2 → effect I g d (m ≫= k).
Proof.
  intros Hk H1 H2 -> s Hs. apply wp_bind. specialize (Hk s Hs). specialize (H1 s Hs). unfold wp in *.
  destruct (m s) as [[a|e] s']; [|done]. specialize (H2 a s' Hk). unfold wp in *.
  destruct (k a s') as [[b|e] s'']; [|done]. lia.
Qed.
Lemma effect_0 {A} (m : M S A) : (∀ s, g (m s).2 = g s) → effect I g 0 m.
Proof. intros Hm s _. unfold wp. specialize (Hm s). destruct (m s) as [[a|e] s']; cbn in *; [lia|done]. Qed.
Lemma effect_ret {A} (a : A) : effect I g 0 (mret a).
Proof. by apply effect_0. Qed.
Lemma effect_raise {A} d e : effect I g d (raise (A:=A) e).
Proof. by intros s Hs. Qed.
Lemma effect_lift {A} (r : result A) : effect I g 0 (lift r).
Proof. by apply effect_0. Qed.
Lemma effect_run {A} d (m : M S A) s a s' : effect I g d m → I s → m s = (Ok a, s') → g s' = g s + d.
Proof. intros Hm Hs Hrun. specialize (Hm s Hs). unfold wp in Hm. by rewrite Hrun in Hm. Qed.
End Effect.

Section Supply.
Context `{C : Crypto} `{Cfg : ChainConfig}.
Abbreviation book := (books_ok true).
Abbreviation led := (ledger_ok true).

Lemma effect_credit a n : effect led lsum n (credit a n).
Proof.
  intros L HL. unfold wp. rewrite credit_run. destruct (n <? 0); [done|].
  unfold lsum. chain_simpl. rewrite credit_map_sum. lia.
Qed.
Lemma effect_debit a n : effect led lsum (- n) (debit a n).
Proof.
  intros L HL. unfold wp. rewrite debit_run. destruct (n <? 0); [done|]. destruct (negb _ && _); [done|].
  unfold lsum. chain_simpl. rewrite debit_map_sum. lia.
Qed.
Lemma effect_burn n : effect led lsum n (modify (set total_burned (λ m, m + n))).
Proof. intros L HL. unfold wp, modify, lsum. cbn. lia. Qed.

Lemma effect_charge_fee b i tx : effect led lsum 0 (charge_fee b i tx).
Proof.
  unfold charge_fee. destruct (_ <=? i).
  - destruct (0 <? weight_of tx); [|apply effect_ret].
    eapply effect_bind; [apply keeps_debit|apply effect_debit|intros _|].
    2:{ apply Z.eq_sym, Z.add_opp_diag_l. }
    eapply effect_bind; [apply keeps_credit|apply effect_credit|intros _; apply effect_ret|lia].
  - destruct (Z.ltb_spec 0 (legacy_fee tx)) as [Hp|]; [|apply effect_ret]. set (fee := legacy_fee tx) in *.
    eapply effect_bind; [apply keeps_debit|apply effect_debit|intros _|].
    2:{ apply Z.eq_sym, Z.add_opp_diag_l. }
    eapply effect_bind with (d2 := fee - fee / 2); [apply keeps_credit|apply effect_credit|intros _|lia].
    eapply effect_bind; [by apply keeps_burn|apply effect_burn|intros _; apply effect_ret|lia].
Qed.

(** The amount a staking transaction names *)
Definition named_amount (tx : Transaction) : Z :=
  match jget_int (payload tx) "amount" 0 with Ok n => Z.max 0 n | Raise _ => 0 end.
Definition named_validator (tx : Transaction) : string :=
  match jget_str (payload tx) "validator_address" with Ok v => v | Raise _ => EmptyString end.
Definition is_stake (tx : Transaction) : bool := bool_decide (tx_type tx ∈ [STAKE; DELEGATE]).

Lemma effect_move_value tx :
  effect led lsum (if is_stake tx then - named_amount tx else 0) (move_value tx).
Proof.
  assert (effect led lsum (- named_amount tx) (amount ← lift (jget_int (payload tx) "amount" 0);
    when (0 <? amount) (debit (sender tx) amount))) as Hstake.
  { intros L HL. unfold named_amount, lift, wp, mbind, M_bind.
    destruct (jget_int _ _ _) as [n|]; [|done]. unfold when. destruct (Z.ltb_spec 0 n).
    - pose proof (effect_debit (sender tx) n L HL) as Hd. unfold wp in Hd.
      destruct (debit _ _ _) as [[|] ?]; [|done]. lia.
    - cbn. lia. }
  unfold move_value, is_stake. destruct (tx_type tx); try (rewrite bool_decide_false by set_solver; apply effect_ret).
  - rewrite bool_decide_true by set_solver. exact Hstake.
  - rewrite bool_decide_true by set_solver. exact Hstake.
  - rewrite bool_decide_false by set_solver.
    eapply effect_bind; [apply keeps_lift|apply effect_lift|intros n|done].
    eapply effect_bind; [apply keeps_debit|apply effect_debit|intros _; apply effect_credit|lia].
Qed.

Lemma effect_settle b i tx : 0 < i →
  effect led lsum (if is_stake tx then - named_amount tx else 0) (settle b i tx).
Proof.
  intros Hi L HL. unfold settle, get. unfold mbind at 1, M_bind at 1, wp. rewrite (lo_active _ _ HL).
  destruct (Z.ltb_spec 0 i); [|lia]. cbn [andb].
  pose proof (effect_bind led lsum 0 (if is_stake tx then - named_amount tx else 0)
    (if is_stake tx then - named_amount tx else 0) (charge_fee b i tx)
    (λ fee, _ ← move_value tx; mret fee)) as Heff.
  apply Heff; [apply keeps_charge_fee|apply effect_charge_fee| |lia|done].
  intros fee. eapply effect_bind; [apply keeps_move_value|apply effect_move_value|intros _; apply effect_ret|lia].
Qed.

Lemma effect_apply_stake tx :
  effect staking_ok ssum (if is_empty (named_validator tx) then 0 else named_amount tx) (apply_stake tx).
Proof.
  intros st Hst. unfold apply_stake, named_validator, named_amount, lift, wp, mbind, M_bind.
  destruct (jget_str _ _) as [v|]; [|done]. destruct (jget_int _ _ _) as [n|]; [|done]. unfold when.
  destruct (is_empty v); cbn [negb andb]; [cbv [mret M_ret]; lia|].
  destruct (Z.ltb_spec 0 n); [|cbv [mret M_ret]; lia].
  rewrite Z.max_r by lia. unfold modify, ssum, stake_step, set, set_stakes, set_total_stake.
  cbn [total_stake unbonding]. rewrite msum_insert. lia.
Qed.

(** What an unstaking takes out of thin air: the part of the amount the
    validator's recorded total does not cover. *)
Definition unstake_excess (st : Staking) (tx : Transaction) : Z :=
  if is_empty (named_validator tx) then 0
  else Z.max 0 (named_amount tx - get_or (total_stake st) (named_validator tx) 0).

Lemma apply_unstake_sum i tx st :
  staking_ok st →
  wp (apply_unstake i tx) (λ r st', match r with
    | Ok _ => ssum st' = ssum st + unstake_excess st tx | Raise _ => True end) st.
Proof.
  intros Hst. pose proof (λ v, total_get st v (so_total _ Hst)) as Htot.
  unfold apply_unstake, unstake_excess, named_validator, named_amount, lift, wp, mbind, M_bind.
  destruct (jget_str _ _) as [v|]; [|done]. destruct (jget_int _ _ _) as [n|]; [|done]. unfold when.
  destruct (is_empty v); cbn [negb andb]; [cbv [mret M_ret]; lia|]. specialize (Htot v).
  destruct (Z.ltb_spec 0 n); [|cbv [mret M_ret]; lia].
  rewrite (Z.max_r 0 n) by lia. set (t := get_or (total_stake st) v 0) in *.
  unfold modify, ssum, ub_total, unstake_step, set, set_stakes, set_total_stake, set_unbonding.
  cbn [total_stake unbonding]. rewrite msum_insert, fmap_app, zsum_app. fold t. csimpl. lia.
Qed.

Lemma effect_on_ledger {A} d (m : M Ledger A) : effect led lsum d m → effect book unaccounted d (on ledger m).
Proof.
  intros Hm s [Hl Hs]. apply wp_on. eapply wp_mono; [by apply Hm|]. intros [a|e] L HL; [|done].
  rewrite !unaccounted_split. cbn. lia.
Qed.
Lemma effect_on_staking {A} d (m : M Staking A) :
  effect staking_ok ssum d m → effect book unaccounted d (on staking m).
Proof.
  intros Hm s [Hl Hs]. apply wp_on. eapply wp_mono; [by apply Hm|]. intros [a|e] L HL; [|done].
  rewrite !unaccounted_split. cbn. lia.
Qed.
Lemma effect_quiet {A} (m : M Chain A) : quiet m → effect book unaccounted 0 m.
Proof.
  intros Hq. apply effect_0. intros s. destruct (Hq s) as [Hl Hs]. rewrite !unaccounted_split. congruence.
Qed.

Lemma effect_set_commission v tx : effect book unaccounted 0 (set_commission v tx).
Proof.
  unfold set_commission. destruct (commission_of tx); [|apply effect_ret].
  apply effect_on_ledger. by apply effect_0.
Qed.
Lemma effect_register_validator tx : effect book unaccounted 0 (apply_register_validator tx).
Proof.
  unfold apply_register_validator.
  eapply effect_bind; [apply keeps_lift|apply effect_lift|intros h|done].
  eapply effect_bind; [apply keeps_lift|apply effect_lift|intros v|done].
  unfold when. destruct (_ && _); [|apply effect_ret].
  eapply effect_bind; [apply keeps_get|by apply effect_0|intros s0|done].
  destruct (is_registered_validator s0 v); [apply effect_set_commission|].
  destruct (fromhex h); [|apply effect_raise].
  eapply effect_bind; [apply keeps_quiet, quiet_keys|apply effect_quiet, quiet_keys|intros _|done].
  eapply effect_bind; [apply keeps_quiet, quiet_cons|apply effect_quiet, quiet_cons|intros _|done].
  apply effect_set_commission.
Qed.

(** The types whose transactions neither create nor lose value *)
Definition plain_type (tx : Transaction) : Prop := tx_type tx ∉ [UNSTAKE; EVIDENCE].

Definition stake_effect (tx : Transaction) : Z :=
  if is_stake tx then (if is_empty (named_validator tx) then 0 else named_amount tx) else 0.

Lemma effect_apply_type i tx : plain_type tx → effect book unaccounted (stake_effect tx) (apply_type i tx).
Proof.
  intros Hp. unfold apply_type, stake_effect, is_stake.
  assert (∀ d (m : M Chain unit), keeps book m → effect book unaccounted d m →
    effect book unaccounted d (_ ← m; mret false)) as Hret.
  { intros d m Hk Hm. eapply effect_bind; [exact Hk|exact Hm|intros _; apply effect_ret|lia]. }
  assert (∀ m : M Chain unit, quiet m → effect book unaccounted 0 (_ ← m; mret false)) as Hq.
  { intros m Hm. apply Hret; [by apply keeps_quiet|by apply effect_quiet]. }
  destruct (tx_type tx) eqn:Et;
    try (rewrite bool_decide_false by set_solver;
      first [apply effect_ret | apply Hq; solve [auto with quiet | apply quiet_revoke_key]]).
  - rewrite bool_decide_false by set_solver. apply Hret; [apply keeps_register_validator|apply effect_register_validator].
  - apply Hret; [apply keeps_on_staking, keeps_apply_stake|apply effect_on_staking, effect_apply_stake].
  - apply Hret; [apply keeps_on_staking, keeps_apply_stake|apply effect_on_staking, effect_apply_stake].
  - destruct Hp. rewrite Et. set_solver.
  - destruct Hp. rewrite Et. set_solver.
Qed.

(** The part of a staking that is paid and credited to nobody *)
Definition stake_loss (tx : Transaction) : Z :=
  if is_stake tx && is_empty (named_validator tx) then named_amount tx else 0.

Lemma effect_apply_tx b i n tx : 0 < i → plain_type tx →
  effect book unaccounted (- stake_loss tx) (apply_tx b i n tx).
Proof.
  intros Hi Hp. unfold apply_tx.
  eapply effect_bind; [apply keeps_quiet, quiet_idx|apply effect_quiet, quiet_idx|intros _|done].
  eapply effect_bind; [apply keeps_quiet, quiet_cons|apply effect_quiet, quiet_cons|intros _|done].
  eapply effect_bind with (d2 := stake_effect tx);
    [apply keeps_on_ledger, keeps_settle|by apply effect_on_ledger, effect_settle|intros fee|].
  2:{ unfold stake_loss, stake_effect. destruct (is_stake tx), (is_empty _); cbv [andb]; first [lia | by rewrite Z.add_0_r]. }
  eapply effect_bind; [apply keeps_apply_type|by apply effect_apply_type|intros failed|symmetry; apply Z.add_0_r].
  eapply effect_bind; [apply keeps_get|by apply effect_0|intros s0|done].
  eapply effect_bind; [apply keeps_lift|apply effect_lift|intros ev; apply effect_ret|done].
Qed.

(** A transaction after which the books still balance *)
Definition balanced_tx (tx : Transaction) : Prop := plain_type tx ∧ stake_loss tx = 0.

Lemma effect_apply_txs b i n txs : 0 < i → Forall balanced_tx txs →
  effect book unaccounted 0 (apply_txs b i n txs).
Proof.
  intros Hi Htxs. revert n. induction Htxs as [|tx txs [Hp Hl] Htxs IH]; intros n; [apply effect_ret|].
  cbn [apply_txs]. pose proof (effect_apply_tx b i n tx Hi Hp) as Htx. rewrite Hl in Htx.
  eapply effect_bind; [apply keeps_apply_tx|exact Htx|intros a|done].
  eapply effect_bind; [apply keeps_apply_txs|apply IH|intros l; apply effect_ret|done].
Qed.

Lemma effect_mature i : effect book unaccounted 0 (process_mature_unbondings i).
Proof.
  intros s [Hl Hs]. unfold wp.
  destruct (process_mature_spec s i (unbonding_nonneg _ Hs)) as (bals & -> & _ & Hsum & _).
  rewrite (lo_active _ _ Hl) in Hsum. pose proof (ub_total_split i (unbonding (staking s))).
  rewrite !unaccounted_split. unfold lsum, ssum. chain_simpl. lia.
Qed.

Lemma effect_check_epoch i : effect book unaccounted 0 (check_epoch_transition i).
Proof.
  intros s Hb. pose proof Hb as [Hl Hs]. unfold check_epoch_transition, get. unfold mbind at 1, M_bind at 1.
  unfold wp. destruct (EPOCH_LENGTH <=? 0); [cbv [mret M_ret]; lia|]. unfold when at 1.
  destruct (_ || _); [|cbv [mret M_ret]; lia].
  set (snapshot := on staking _).
  assert (∀ s, unaccounted (snapshot s).2 = unaccounted s ∧ ∃ s', snapshot s = (Ok tt, s')) as Hsnap by eauto.
  unfold when. destruct (_ && _).
  - destruct (distribute_epoch_rewards_spec s (i / EPOCH_LENGTH - 1) (Some (balance_snapshot s)))
      as (cr & db & bals & er & Hrun & Hm).
    { apply Hl. }
    { intros v. apply snapshot_nonneg. apply Hl. }
    { apply Hs. }
    unfold mbind, M_bind. rewrite Hrun. set (s1 := s <| ledger := _ |>).
    destruct (Hsnap s1) as [H1 [s' Hs']]. rewrite Hs' in *. cbn in H1. rewrite H1.
    pose proof (mv_sum _ _ _ _ _ Hm) as Hsum.
    rewrite !unaccounted_split. unfold lsum, ssum. subst s1. chain_simpl. lia.
  - destruct (Hsnap s) as [H1 [s' Hs']]. cbn. unfold mbind, M_bind, mret, M_ret. rewrite Hs' in *. cbn in H1. lia.
Qed.

Lemma effect_begin_block i : effect book unaccounted 0 (begin_block i).
Proof.
  unfold begin_block. eapply effect_bind; [apply keeps_mature|apply effect_mature|intros _|done].
  eapply effect_bind; [apply keeps_gets|by apply effect_0|intros e0|done].
  eapply effect_bind; [apply keeps_check_epoch|apply effect_check_epoch|intros _|done].
  eapply effect_bind; [apply keeps_gets|by apply effect_0|intros e1; apply effect_ret|done].
Qed.

Lemma effect_apply_reward b i : effect led lsum 0 (apply_reward b i).
Proof.
  intros L HL. unfold apply_reward, get. unfold mbind at 1, M_bind at 1, wp.
  destruct (_ && _); [|cbv [mret M_ret]; lia].
  destruct (0 <? calc_block_reward _ _); [|cbv [mret M_ret]; lia].
  unfold mbind, M_bind, modify, mret, M_ret. rewrite credit_run. destruct (_ <? 0); [done|].
  unfold lsum. chain_simpl. rewrite credit_map_sum. lia.
Qed.

Lemma effect_prune_history i : effect book unaccounted 0 (prune_history i).
Proof.
  unfold prune_history. cbv zeta. unfold when. destruct (_ <=? _); [|apply effect_ret].
  eapply effect_bind; [apply keeps_quiet, quiet_trie|apply effect_quiet, quiet_trie|intros _|done].
  eapply effect_bind; [apply keeps_quiet, quiet_recs|apply effect_quiet, quiet_recs|intros _|done].
  apply effect_on_ledger. by apply effect_0.
Qed.

Lemma append_supply b s s' :
  book s → 0 <= height s → Forall balanced_tx (transactions b) →
  append_block_inner b s = (Ok tt, s') → unaccounted s' = unaccounted s.
Proof.
  intros Hs Hh Htxs Hrun. set (i := height s + 1).
  assert (append_block_inner b s = (_ ← open_block b; epoch_events ← begin_block i;
    applied ← apply_txs b i 0 (transactions b);
    block_receipts ← on recs (record_receipts i (ap_tx_id <$> filter (λ a, ap_failed a = true) applied) applied);
    reward_events ← on ledger (apply_reward b i);
    _ ← on recs (modify (store_block_events i (epoch_events ++ reward_events)));
    _ ← seal_receipts b block_receipts; _ ← seal_state b i; _ ← prune_history i; update_finality i) s) as Heq by done.
  rewrite Heq in Hrun. rewrite <-(Z.add_0_r (unaccounted s)).
  refine (effect_run book unaccounted 0 _ s tt s' _ Hs Hrun).
  eapply effect_bind; [apply keeps_quiet, quiet_open_block|apply effect_quiet, quiet_open_block|intros _|done].
  eapply effect_bind; [apply keeps_begin_block|apply effect_begin_block|intros ee|done].
  eapply effect_bind; [apply keeps_apply_txs|apply effect_apply_txs; [lia|done]|intros ap|done].
  eapply effect_bind; [apply keeps_quiet, quiet_recs|apply effect_quiet, quiet_recs|intros rs|done].
  eapply effect_bind; [apply keeps_on_ledger, keeps_apply_reward|apply effect_on_ledger, effect_apply_reward|intros re|done].
  eapply effect_bind; [apply keeps_quiet, quiet_recs|apply effect_quiet, quiet_recs|intros _|done].
  eapply effect_bind; [apply keeps_quiet, quiet_seal_receipts|apply effect_quiet, quiet_seal_receipts|intros _|done].
  eapply effect_bind; [apply keeps_quiet, quiet_seal_state|apply effect_quiet, quiet_seal_state|intros _|done].
  eapply effect_bind; [apply keeps_prune_history|apply effect_prune_history|intros _|done].
  apply effect_quiet, quiet_update_finality.
Qed.

(** *** Unstaking and evidence *)

Lemma apply_tx_split b i n tx s a s' :
  0 < i → book s → apply_tx b i n tx s = (Ok a, s') →
  ∃ s1 r s2, book s1 ∧ staking s1 = staking s ∧ keys s1 = keys s ∧
    unaccounted s1 = unaccounted s + (if is_stake tx then - named_amount tx else 0) ∧
    apply_type i tx s1 = (Ok r, s2) ∧ s' = s2.
Proof.
  intros Hi [Hl Hs]. unfold apply_tx. unfold mbind, M_bind. unfold on at 1, zoom at 1, modify at 1.
  cbv beta iota. unfold on at 1, zoom at 1, modify at 1. cbv beta iota. unfold on at 1, zoom at 1.
  set (s0 := set cons _ _). change (ledger s0) with (ledger s).
  pose proof (keeps_settle b i tx (ledger s) Hl) as Hk.
  pose proof (effect_settle b i tx Hi (ledger s) Hl) as He. unfold wp in Hk, He.
  destruct (settle b i tx (ledger s)) as [[fee|e] L]; [|done]. set (s1 := set ledger _ s0).
  destruct (apply_type i tx s1) as [[r|e] s2] eqn:Hrun; [|done].
  unfold get, lift. destruct (build_tx_events s2 tx i); [|done]. intros [= _ <-].
  exists s1, r, s2. split_and!; try done.
  rewrite !unaccounted_split. subst s1 s0. chain_simpl. lia.
Qed.

Lemma apply_tx_unstake b i n tx s a s' :
  0 < i → book s → tx_type tx = UNSTAKE → apply_tx b i n tx s = (Ok a, s') →
  unaccounted s' = unaccounted s + unstake_excess (staking s) tx.
Proof.
  intros Hi Hs Ht Hrun. destruct (apply_tx_split b i n tx s a s' Hi Hs Hrun)
    as (s1 & r & s2 & [Hl1 Hs1] & Hst & _ & Hu & Htype & ->).
  unfold is_stake in Hu. rewrite Ht, bool_decide_false in Hu by set_solver.
  unfold apply_type in Htype. rewrite Ht in Htype. unfold mbind, M_bind, on, zoom in Htype.
  pose proof (apply_unstake_sum i tx (staking s1) Hs1) as Hun. unfold wp in Hun.
  destruct (apply_unstake i tx (staking s1)) as [[[]|e] st]; [|done]. injection Htype as _ <-.
  rewrite <-Hst. rewrite !unaccounted_split in Hu |- *. chain_simpl. lia.
Qed.

Lemma apply_tx_evidence b i n tx s a s' :
  0 < i → book s → tx_type tx = EVIDENCE → apply_tx b i n tx s = (Ok a, s') →
  unaccounted s' = unaccounted s ∨
  ∃ v, jget (payload tx) "validator_address" (JStr EmptyString) = JStr v ∧
    unaccounted s' = unaccounted s - slash_of (get_validator_stake s v).
Proof.
  intros Hi Hs Ht Hrun. destruct (apply_tx_split b i n tx s a s' Hi Hs Hrun)
    as (s1 & r & s2 & [Hl1 Hs1] & Hst & _ & Hu & Htype & ->).
  unfold is_stake in Hu. rewrite Ht, bool_decide_false in Hu by set_solver.
  unfold apply_type in Htype. rewrite Ht in Htype. unfold mbind, M_bind in Htype.
  destruct (process_evidence_cases tx i s1) as [Hq|(v & Hds & Heq)].
  - left. destruct (process_evidence_tx tx i s1) as [[[]|e] s3]; [|done]. injection Htype as _ <-.
    cbn in Hq. subst s3. lia.
  - right. destruct Hds as (? & ? & ? & ? & ? & Hv & _). exists v. split; [done|].
    rewrite Heq in Htype. destruct (slash_validator_run v (tx_id tx) i s1) as (s3 & Hrun3 & Hst3 & Hl3 & _).
    rewrite Hrun3 in Htype. injection Htype as _ <-. unfold get_validator_stake. rewrite <-Hst.
    pose proof (apply_slash_sum v (tx_id tx) i (staking s1) (total_get _ v (so_total _ Hs1))) as Hsum.
    rewrite !unaccounted_split in Hu |- *. rewrite Hl3, Hst3.
    assert (unbonding (apply_slash v (tx_id tx) i (staking s1)) = unbonding (staking s1)) as Hub by done.
    unfold ssum in *. rewrite Hub, Hsum. lia.
Qed.

Lemma apply_tx_plain b i n tx s a s' :
  0 < i → book s → plain_type tx → apply_tx b i n tx s = (Ok a, s') →
  unaccounted s' = unaccounted s - stake_loss tx.
Proof.
  intros Hi Hs Hp Hrun. pose proof (effect_run _ _ _ _ _ _ _ (effect_apply_tx b i n tx Hi Hp) Hs Hrun). lia.
Qed.
End Supply.

(** ** Properties *)


(** C2 Supply conservation: applying a block whose transactions neither
    unstake nor carry evidence keeps the difference between what is held
    (balances, burns, unbonding entries, stakes) and what was minted, through
    fees, transfers, stakings, the reward, matured unbondings and the epoch's
    distribution. *)
Theorem append_conserves_supply `{C : Crypto} `{Cfg : ChainConfig} (b : Block) (s s' : Chain)
  (Hs : books_ok true s) (Hh : 0 <= height s) (Htx : Forall balanced_tx (transactions b))
  (Hrun : append_block_inner b s = (Ok tt, s')) :
  unaccounted s' = unaccounted s.
Proof. by apply (append_supply b). Qed.

(** What one applied transaction does to the supply: nothing for every type
    but three.  Unstaking more than is recorded for the validator creates the
    excess, evidence that slashes destroys the slashed amount without
    recording a burn, and a staking that names no validator loses its amount. *)
Lemma apply_tx_supply_effect `{C : Crypto} `{Cfg : ChainConfig} (b : Block) (i n : Z)
  (tx : Transaction) (s s' : Chain) (a : Applied)
  (Hi : 0 < i) (Hs : books_ok true s) (Hrun : apply_tx b i n tx s = (Ok a, s')) :
  match tx_type tx with
  | UNSTAKE => unaccounted s' = unaccounted s + unstake_excess (staking s) tx
  | EVIDENCE => unaccounted s' = unaccounted s ∨
      ∃ v, jget (payload tx) "validator_address" (JStr EmptyString) = JStr v ∧
        unaccounted s' = unaccounted s - slash_of (get_validator_stake s v)
  | STAKE | DELEGATE => unaccounted s' = unaccounted s -
      (if is_empty (named_validator tx) then named_amount tx else 0)
  | _ => unaccounted s' = unaccounted s
  end.
Proof.
  destruct (tx_type tx) eqn:Ht.
  9: by apply (apply_tx_unstake b i n tx s a).
  9: by apply (apply_tx_evidence b i n tx s a).
  all: rewrite (apply_tx_plain b i n tx s a s' Hi Hs ltac:(unfold plain_type; rewrite Ht; set_solver) Hrun).
  all: unfold stake_loss, is_stake; rewrite Ht.
  all: match goal with |- context [bool_decide ?P] =>
         let x := eval vm_compute in (bool_decide P) in change (bool_decide P) with x end.
  all: cbv [andb]; try destruct (is_empty _); lia.
Qed.

(** *** Witnesses: a block on a funded, staked chain *)
Module Funded.
#[local] Existing Instance Toy.crypto.
#[local] Existing Instance legacy_config.
Definition alice : string := "qv1alice".
Definition tx (t : TxType) (n : Z) (p : dict string JVal) : Transaction :=
  mkTx t alice "qv1bob" 5 p EmptyString EmptyString n CHAIN_ID 0 0.
Definition transfer : Transaction := tx TRANSFER 0 [("amount", JInt 300)].
Definition stake : Transaction := tx STAKE 1 [("amount", JInt 40); ("validator_address", JStr "v")].
Definition unstake : Transaction := tx UNSTAKE 2 [("amount", JInt 90); ("validator_address", JStr "v")].
Definition blk (txs : list Transaction) : Block :=
  mkBlock 1 EmptyString txs "v" 10 EmptyString 0 EmptyString EmptyString.
Definition chain : Chain :=
  empty_Chain <| height := 0 |> <| chain_list := [blk []] |>
    <| ledger := empty_Ledger <| balances := <[alice := 50000000]> ∅ |> <| total_minted := 50000007 |>
                   <| financial_active := true |> |>
    <| staking := empty_Staking <| total_stake := <["v" := 7]> ∅ |> <| stakes := [("v", [("v", 7)])] |> |>.

Lemma chain_books : books_ok true chain.
Proof.
  split; split; cbn.
  - done.
  - split; cbn; [|done..]. apply map_Forall_insert_2; done.
  - by vm_compute.
  - done.
  - repeat constructor. done.
  - apply map_Forall_insert_2; done.
  - constructor.
Qed.
End Funded.


Lemma append_conserves_supply_witness :
  let s' := (append_block_inner (C := Toy.crypto) (Cfg := legacy_config)
    (Funded.blk [Funded.transfer; Funded.stake]) Funded.chain).2 in
  bal (ledger s') "qv1bob" = 300 ∧ unaccounted s' = unaccounted Funded.chain.
Proof.
  intros s'. split; [vm_compute; reflexivity|].
  apply (append_conserves_supply (C := Toy.crypto) (Cfg := legacy_config)
    (Funded.blk [Funded.transfer; Funded.stake])).
  - exact Funded.chain_books.
  - vm_compute. discriminate.
  - apply list.Forall_cons. split; [|apply list.Forall_cons; split; [|done]].
    all: split; [apply (bool_decide_unpack (tx_type _ ∉ _)); vm_compute; exact I|vm_compute; reflexivity].
  - vm_compute. reflexivity.
Defined.

