(* ===== verification/TokenLaws.v ===== *)
(** * The token ledger

    Conservation and consistency of the multi-asset state while [Apply]
    issues, mints and transfers tokens: the balances of a token add up to
    what was minted of it, supplies stay within their caps, and the two
    holder indices and the symbol table agree with the balances and the
    registry. *)
From S2P Require Import Prelude PyStr Json Config Crypto StateTrie Wallet Transaction Fees Block Receipt ChainState Ledger StateOps Staking Consensus ReceiptOps Apply Frames.
Open Scope Z_scope.

(** ** Sums per token *)

Definition of_token (tid : string) (kv : (string * string) * Z) : Prop := kv.1.1 = tid.
#[export] Instance of_token_dec tid kv : Decision (of_token tid kv).
Proof. unfold of_token. apply _. Defined.
Definition token_sum (tid : string) (m : gmap (string * string) Z) : Z := msum (filter (of_token tid) m).

Lemma token_sum_delete tid t a m :
  token_sum tid (delete (t, a) m) = token_sum tid m - (if decide (t = tid) then get_or m (t, a) 0 else 0).
Proof.
  unfold token_sum. rewrite map_filter_delete, msum_delete. f_equal. f_equal. unfold get_or.
  destruct (filter (of_token tid) m !! (t, a)) as [v|] eqn:E.
  - apply map_lookup_filter_Some in E as [E Ht]. unfold of_token in Ht. cbn in Ht. by rewrite decide_True, E.
  - apply map_lookup_filter_None in E. case_decide as Ht; [|done].
    destruct (m !! (t, a)) as [v|] eqn:Ev; [|done].
    destruct E as [E|E]; [congruence|]. by destruct (E v eq_refl).
Qed.
Lemma token_sum_insert tid t a v m :
  token_sum tid (<[(t, a) := v]> m) =
  token_sum tid m + (if decide (t = tid) then v - get_or m (t, a) 0 else 0).
Proof.
  rewrite <-insert_delete_eq. unfold token_sum at 1. rewrite map_filter_insert.
  destruct (decide (of_token tid ((t, a), v))) as [Ht|Ht]; unfold of_token in Ht; cbn in Ht.
  - rewrite decide_True by done. rewrite msum_insert. fold (token_sum tid (delete (t, a) m)).
    assert (get_or (filter (of_token tid) (delete (t, a) m)) (t, a) 0 = 0) as ->.
    { unfold get_or. rewrite (proj2 (map_lookup_filter_None _ _ _)); [done|]. left. apply lookup_delete_eq. }
    rewrite token_sum_delete, decide_True by done. lia.
  - rewrite decide_False by done. rewrite delete_id by apply lookup_delete_eq.
    fold (token_sum tid (delete (t, a) m)). rewrite token_sum_delete, decide_False by done. lia.
Qed.

(** ** The invariant *)

Definition minted_of (tk : Tokens) (tid : string) : Z :=
  match token_registry tk !! tid with Some t => tk_total_minted t | None => 0 end.

(** The indices list exactly the holders. *)
Record index_ok (tk : Tokens) : Prop := mkIndexOk {
  io_holders : ∀ tid a, a ∈ get_or (holders_by_token tk) tid ∅ ↔ is_Some (token_balances tk !! (tid, a));
  io_tokens : ∀ tid a, tid ∈ get_or (tokens_by_address tk) a ∅ ↔ is_Some (token_balances tk !! (tid, a));
  io_holders_ne : map_Forall (λ _ X, X ≠ ∅) (holders_by_token tk);
  io_tokens_ne : map_Forall (λ _ X, X ≠ ∅) (tokens_by_address tk) }.
Record supply_ok (t : Token) : Prop := mkSupplyOk {
  su_bounds : 0 <= tk_total_minted t <= MAX_TOKEN_AMOUNT;
  su_cap : 0 < tk_max_supply t → tk_total_minted t <= tk_max_supply t }.
(** The balances of each token exceed what was minted of it by [D]. *)
Record tokens_at (D : string → Z) (tk : Tokens) : Prop := mkTokensAt {
  to_sum : ∀ tid, token_sum tid (token_balances tk) = minted_of tk tid + D tid;
  to_positive : map_Forall (λ _ n, 0 < n) (token_balances tk);
  to_supply : map_Forall (λ _ t, supply_ok t) (token_registry tk);
  to_index : index_ok tk;
  to_symbols : ∀ symbol tid, token_by_symbol tk !! symbol = Some tid →
    ∃ t, token_registry tk !! tid = Some t ∧ tk_symbol t = symbol;
  to_registry : ∀ tid t, token_registry tk !! tid = Some t → token_by_symbol tk !! tk_symbol t = Some tid }.
Definition tokens_ok : Tokens → Prop := tokens_at (λ _, 0).

(** ** The two holder indices *)

Lemma get_or_set_insert (m : gmap string (gset string)) k x k' y :
  y ∈ get_or (<[k := {[x]} ∪ get_or m k ∅]> m) k' ∅ ↔ (k' = k ∧ y = x) ∨ y ∈ get_or m k' ∅.
Proof. rewrite get_or_insert. case_decide; subst; set_solver. Qed.
Lemma discard_elem m k x k' y :
  y ∈ get_or (discard_from k x m) k' ∅ ↔ y ∈ get_or m k' ∅ ∧ ¬ (k' = k ∧ y = x).
Proof.
  unfold discard_from. destruct (m !! k) as [X|] eqn:E.
  - destruct (decide (X ∖ {[x]} = ∅)).
    + rewrite get_or_delete. case_decide; subst; [|set_solver]. unfold get_or. rewrite E. cbn. set_solver.
    + rewrite get_or_insert. case_decide; subst; [|set_solver]. unfold get_or. rewrite E. cbn. set_solver.
  - split; [|tauto]. intros Hy. split; [done|]. intros [-> ->]. unfold get_or in Hy. rewrite E in Hy. set_solver.
Qed.
Lemma discard_nonempty m k x :
  map_Forall (λ _ X, X ≠ ∅) m → map_Forall (λ _ (X : gset string), X ≠ ∅) (discard_from k x m).
Proof.
  intros Hm. unfold discard_from. destruct (m !! k) as [X|]; [|done].
  case_decide; [by apply map_Forall_delete|by apply map_Forall_insert_2].
Qed.

(** Write a balance, zero meaning no entry *)
Definition put_balance_of (tid a : string) (v : Z) (m : gmap (string * string) Z) : gmap (string * string) Z :=
  if v =? 0 then delete (tid, a) m else <[(tid, a) := v]> m.

Lemma put_balance_of_is_Some tid a v m t b :
  is_Some (put_balance_of tid a v m !! (t, b)) ↔
  if decide ((t, b) = (tid, a)) then v ≠ 0 else is_Some (m !! (t, b)).
Proof.
  unfold put_balance_of. destruct (Z.eqb_spec v 0) as [->|Hv].
  - rewrite lookup_delete. case_decide as H1; destruct (decide ((t, b) = (tid, a))) as [H2|H2]; try congruence; [|done].
    split; [intros []; done|done].
  - rewrite lookup_insert. case_decide as H1; destruct (decide ((t, b) = (tid, a))) as [H2|H2]; try congruence; [|done].
    split; eauto.
Qed.

(** After a balance changed to [v], the index update restores the agreement. *)
Lemma update_token_index_ok tid a v tk :
  0 <= v → index_ok tk →
  index_ok (update_token_index tid a v (tk <| token_balances ::= put_balance_of tid a v |>)).
Proof.
  intros Hv [Hh Ht Hhn Htn]. unfold update_token_index. destruct (Z.ltb_spec 0 v); split; chain_simpl.
  - intros t b. rewrite get_or_set_insert, put_balance_of_is_Some, Hh.
    destruct (decide ((t, b) = (tid, a))) as [[= -> ->]|Hne]; [split; [lia|by left]|naive_solver].
  - intros t b. rewrite get_or_set_insert, put_balance_of_is_Some, Ht.
    destruct (decide ((t, b) = (tid, a))) as [[= -> ->]|Hne]; [split; [lia|by left]|naive_solver].
  - apply map_Forall_insert_2; [set_solver|done].
  - apply map_Forall_insert_2; [set_solver|done].
  - intros t b. rewrite discard_elem, put_balance_of_is_Some, Hh.
    destruct (decide ((t, b) = (tid, a))) as [[= -> ->]|Hne]; [split; [tauto|lia]|naive_solver].
  - intros t b. rewrite discard_elem, put_balance_of_is_Some, Ht.
    destruct (decide ((t, b) = (tid, a))) as [[= -> ->]|Hne]; [split; [tauto|lia]|naive_solver].
  - by apply discard_nonempty.
  - by apply discard_nonempty.
Qed.

Lemma tokens_at_ext D D' tk : (∀ t, D t = D' t) → tokens_at D tk → tokens_at D' tk.
Proof. intros HD [H1 ? ? ? ? ?]. split; try done. intros tid. by rewrite H1, HD. Qed.

(** Writing a balance shifts the difference of its token. *)
Lemma put_step D tid a v tk :
  0 <= v → tokens_at D tk →
  tokens_at (λ t, D t + (if decide (t = tid) then v - token_balance tk tid a else 0))
    (update_token_index tid a v (tk <| token_balances ::= put_balance_of tid a v |>)).
Proof.
  intros Hv [Hsum Hpos Hsup Hidx Hsym Hreg].
  pose proof (update_token_index_ok tid a v tk Hv Hidx) as Hidx'.
  assert (∀ tk, token_balances (update_token_index tid a v tk) = token_balances tk ∧
    token_registry (update_token_index tid a v tk) = token_registry tk ∧
    token_by_symbol (update_token_index tid a v tk) = token_by_symbol tk) as Hsame.
  { intros tk'. unfold update_token_index. by destruct (0 <? v). }
  destruct (Hsame (tk <| token_balances ::= put_balance_of tid a v |>)) as (Hb & Hr & Hs).
  split; rewrite ?Hb, ?Hr, ?Hs; try done; chain_simpl.
  - intros t. replace (minted_of (update_token_index tid a v (tk <| token_balances ::= put_balance_of tid a v |>)) t)
      with (minted_of tk t) by (unfold minted_of; by rewrite Hr). unfold put_balance_of, token_balance. destruct (Z.eqb_spec v 0) as [->|].
    + rewrite token_sum_delete, Hsum. repeat case_decide; subst; try done; lia.
    + rewrite token_sum_insert, Hsum. repeat case_decide; subst; try done; lia.
  - unfold put_balance_of. destruct (Z.eqb_spec v 0); [by apply map_Forall_delete|].
    apply map_Forall_insert_2; [lia|done].
Qed.

Lemma token_balance_nonneg D tk tid a : tokens_at D tk → 0 <= token_balance tk tid a.
Proof.
  intros Ht. unfold token_balance, get_or. destruct (_ !! _) as [v|] eqn:E; cbn; [|done].
  apply (to_positive _ _ Ht) in E. lia.
Qed.

(** ** The three operations *)

Lemma put_balance_insert tid a v tk : v ≠ 0 →
  tk <| token_balances ::= λ m, <[(tid, a) := v]> m |> = tk <| token_balances ::= put_balance_of tid a v |>.
Proof.
  intros Hv. unfold put_balance_of. destruct (Z.eqb_spec v 0); [done|]. by destruct tk.
Qed.

Lemma token_balance_put tid a v tk :
  token_balance (tk <| token_balances ::= put_balance_of tid a v |>) tid a = v.
Proof.
  unfold token_balance, put_balance_of. chain_simpl. destruct (Z.eqb_spec v 0) as [->|].
  - by rewrite get_or_delete, decide_True.
  - by rewrite get_or_insert, decide_True.
Qed.

Definition amount_positive (tx : Transaction) : Prop :=
  ∀ n, jindex_int (payload tx) "amount" = Ok n → 0 < n.

Section Ops.
Context `{C : Crypto}.

Lemma issue_token_ok i tid tx : keeps tokens_ok (apply_issue_token i tid tx).
Proof.
  unfold apply_issue_token. apply keeps_when. apply keeps_bind; [apply keeps_lift|intros symbol].
  intros tk Htk. unfold get. unfold mbind at 1, M_bind at 1, wp. cbv beta iota zeta.
  destruct (decide (is_Some (token_by_symbol tk !! symbol))) as [|Hsym]; [done|].
  destruct (decide (is_Some (token_registry tk !! _))) as [|Hid]; [done|].
  apply eq_None_not_Some in Hsym, Hid. set (id := derive_token_id _ _ _) in *.
  unfold lift, mbind, M_bind. destruct (jindex_str _ "name") as [name|]; [|done].
  destruct (jindex_int _ "decimals") as [dec|]; [|done]. destruct (jget_int _ _ _) as [cap|]; [|done].
  unfold modify. destruct Htk as [Hsum Hpos Hsup [Hh Ht Hhn Htn] Hs Hr]. split; chain_simpl; try done.
  - intros t. unfold minted_of. chain_simpl. rewrite Hsum. unfold minted_of. rewrite lookup_insert.
    case_decide; subst; [by rewrite Hid|done].
  - apply map_Forall_insert_2; [|done]. split; cbn; [split; [done|]|]; [by vm_compute|lia].
  - intros sym t. rewrite lookup_insert_Some. intros [[<- <-]|[Hne Hl]].
    + rewrite lookup_insert_eq. eauto.
    + destruct (Hs _ _ Hl) as (t' & Ht' & Hsy). exists t'. rewrite lookup_insert_ne; [done|]. congruence.
  - intros t tok. rewrite lookup_insert_Some. intros [[<- <-]|[Hne Hl]].
    + by rewrite lookup_insert_eq.
    + apply Hr in Hl as Hl'. rewrite lookup_insert_ne; [done|]. congruence.
Qed.

Lemma mint_token_ok i tx : amount_positive tx → keeps tokens_ok (apply_mint_token i tx).
Proof.
  intros Ham. unfold apply_mint_token. apply keeps_when. apply keeps_bind; [apply keeps_lift|intros tid].
  intros tk Htk. unfold get. unfold mbind at 1, M_bind at 1, wp. cbv beta iota zeta.
  destruct (token_registry tk !! tid) as [reg|] eqn:Hreg; [|done].
  destruct (negb (bool_decide (tk_issuer reg = sender tx))); [done|].
  unfold lift, mbind, M_bind. unfold amount_positive in Ham.
  destruct (jindex_int (payload tx) "amount") as [n|]; [|done]. specialize (Ham n eq_refl).
  destruct (Z.ltb_spec MAX_TOKEN_AMOUNT (tk_total_minted reg + n)) as [|Hmax]; [done|].
  destruct ((0 <? tk_max_supply reg) && _) eqn:Hcap; [done|]. unfold modify.
  set (rcp := recipient tx). set (v := token_balance tk tid rcp + n).
  pose proof (token_balance_nonneg _ tk tid rcp Htk) as Hnn.
  set (tk1 := tk <| token_registry ::= <[tid := with_minted (Z.add n) reg]> |>).
  assert (tokens_at (λ t, if decide (t = tid) then - n else 0) tk1) as H1.
  { destruct Htk as [Hsum Hpos Hsup Hidx Hs Hr]. split; subst tk1; chain_simpl; try done.
    - intros t. unfold minted_of. chain_simpl. rewrite Hsum. unfold minted_of. rewrite lookup_insert.
      case_decide as E1; destruct (decide (t = tid)) as [E2|E2]; subst; try done; try lia.
      rewrite Hreg. cbn. lia.
    - apply map_Forall_insert_2; [|done]. apply Hsup in Hreg as [[Hb1 Hb2] Hc].
      split; unfold with_minted; cbn; [lia|]. apply andb_false_iff in Hcap as [Hcap|Hcap].
      + apply Z.ltb_ge in Hcap. lia.
      + apply Z.ltb_ge in Hcap. lia.
    - destruct Hidx. by split.
    - intros sym t Hl. rewrite lookup_insert. destruct (Hs _ _ Hl) as (t' & Ht' & Hsy). case_decide; [|eauto].
      subst. rewrite Hreg in Ht'. simplify_eq. eexists. split; [done|]. by destruct t'.
    - intros t tok. rewrite lookup_insert_Some. intros [[<- <-]|[Hne Hl]]; [|by apply Hr].
      apply Hr in Hreg. by destruct reg. }
  assert (0 <= v) as Hv by (subst v; lia).
  apply (put_step _ tid rcp v) in H1; [|done].
  change (tk1 <| token_balances ::= _ |>) with (tk1 <| token_balances ::= λ m, <[(tid, rcp) := v]> m |>).
  assert (token_balance (tk1 <| token_balances ::= λ m, <[(tid, rcp) := v]> m |>) tid rcp = v) as ->.
  { unfold token_balance. chain_simpl. by rewrite get_or_insert, decide_True. }
  rewrite put_balance_insert by (subst v; lia).
  eapply tokens_at_ext; [|exact H1]. intros t. cbn. change (token_balance tk1 tid rcp) with (token_balance tk tid rcp).
  subst v. case_decide; lia.
Qed.

Lemma transfer_token_ok i tx : amount_positive tx → keeps tokens_ok (apply_transfer_token i tx).
Proof.
  intros Ham. unfold apply_transfer_token. apply keeps_when. apply keeps_bind; [apply keeps_lift|intros tid].
  intros tk Htk. unfold get. unfold mbind at 1, M_bind at 1, wp. cbv beta iota zeta.
  destruct (token_registry tk !! tid) as [reg|] eqn:Hreg; [|done].
  destruct (negb (tk_transferable reg)); [done|].
  unfold lift, mbind, M_bind. unfold amount_positive in Ham.
  destruct (jindex_int (payload tx) "amount") as [n|]; [|done]. specialize (Ham n eq_refl).
  set (src := sender tx). set (rcp := recipient tx). set (v := token_balance tk tid src - n).
  destruct (Z.ltb_spec (token_balance tk tid src) n); [done|]. unfold modify.
  change (set token_balances _ tk) with (tk <| token_balances ::= put_balance_of tid src v |>).
  rewrite token_balance_put. assert (0 <= v) as Hv by (subst v; lia).
  pose proof (put_step _ tid src v tk Hv Htk) as H1.
  set (tk1 := update_token_index tid src v _) in *.
  pose proof (token_balance_nonneg _ tk1 tid rcp H1) as Hnn. set (w := token_balance tk1 tid rcp + n).
  change (tk1 <| token_balances ::= _ |>) with (tk1 <| token_balances ::= λ m, <[(tid, rcp) := w]> m |>).
  rewrite put_balance_insert by (subst w; lia). rewrite token_balance_put.
  eapply tokens_at_ext; [|apply (put_step _ tid rcp w tk1 ltac:(subst w; lia) H1)].
  intros t. cbn beta. subst w v. case_decide; lia.
Qed.
End Ops.

(** ** The chain *)

Section Chain.
Context `{C : Crypto} `{Cfg : ChainConfig}.
Abbreviation chain_tokens_ok := (λ s, tokens_ok (tokens s)).

Lemma valid_amount_positive tx : validate_payload tx = accept →
  tx_type tx = MINT_TOKEN ∨ tx_type tx = TRANSFER_TOKEN → amount_positive tx.
Proof.
  intros Hv Ht n Hn. destruct (validate_payload_amount tx MAX_SUPPLY Hv) as (z & Hz & Hb).
  { by destruct Ht as [-> | ->]. }
  rewrite (jindex_int_get _ _ _ Hz) in Hn. injection Hn as ->. lia.
Qed.

Lemma keeps_on_tokens {A} (m : M Tokens A) : keeps tokens_ok m → keeps chain_tokens_ok (on tokens m).
Proof. intros Hm s Hs. apply wp_on. eapply wp_mono; [by apply Hm|]. done. Qed.

Lemma keeps_tokens_apply_type i tx : validate_payload tx = accept → keeps chain_tokens_ok (apply_type i tx).
Proof.
  intros Hv. pose proof (valid_amount_positive tx Hv) as Ha.
  destruct (decide (tx_type tx ∈ [ISSUE_TOKEN; MINT_TOKEN; TRANSFER_TOKEN])) as [Hin|Hout].
  - unfold apply_type. apply list_elem_of_In in Hin. destruct Hin as [E|[E|[E|[]]]]; rewrite <-E;
      (apply keeps_bind; [apply keeps_on_tokens|intros; apply keeps_ret]).
    + apply issue_token_ok.
    + apply mint_token_ok; auto.
    + apply transfer_token_ok; auto.
  - apply fixes_keeps, frame_apply_type; try done; [by apply fixes_on|..];
      intros Ht; destruct Hout; rewrite Ht; apply (bool_decide_unpack _); by vm_compute.
Qed.

Lemma keeps_tokens_apply_txs b i n txs : Forall (λ tx, validate_payload tx = accept) txs →
  keeps chain_tokens_ok (apply_txs b i n txs).
Proof.
  intros Hv. revert n. induction Hv as [|tx txs Hv Hvs IH]; intros n; cbn [apply_txs]; [apply keeps_ret|].
  apply keeps_bind; [|intros a; apply keeps_bind; [apply IH|intros; apply keeps_ret]].
  unfold apply_tx.
  do 3 (apply keeps_bind; [apply fixes_keeps; by apply fixes_on|intros ?]).
  apply keeps_bind; [by apply keeps_tokens_apply_type|intros failed].
  apply keeps_bind; [apply keeps_get|intros s0]. apply keeps_bind; [apply keeps_lift|intros; apply keeps_ret].
Qed.

Lemma keeps_tokens_append b : Forall (λ tx, validate_payload tx = accept) (transactions b) →
  keeps chain_tokens_ok (append_block_inner b).
Proof.
  intros Hv. rewrite append_block_inner_close.
  apply keeps_bind; [apply keeps_gets|intros i].
  apply keeps_bind; [by apply fixes_keeps|intros _].
  apply keeps_bind; [by apply fixes_keeps, frame_begin_block|intros es].
  apply keeps_bind; [by apply keeps_tokens_apply_txs|intros l].
  by apply fixes_keeps, frame_close_block.
Qed.
End Chain.

(** ** Property *)

(** C22 Token conservation: on a chain whose token ledger is consistent (per
    token the balances add up to the amount minted, every balance is
    positive, minted amounts respect their caps, both holder indices list
    exactly the holders, symbols and registry agree), applying any block
    whose transactions pass [validate_payload] leaves it consistent, whether
    the application returns or raises half-way. *)
Theorem append_keeps_tokens `{C : Crypto} `{Cfg : ChainConfig} (b : Block) (s : Chain)
  (Hs : tokens_ok (tokens s))
  (Hv : Forall (λ tx, validate_payload tx = accept) (transactions b)) :
  tokens_ok (tokens (append_block_inner b s).2).
Proof.
  pose proof (keeps_tokens_append b Hv s Hs) as H. unfold wp in H. by destruct (append_block_inner b s).
Qed.

(** Issue, mint and transfer in one block *)
Module TokenBlock.
#[local] Existing Instance Toy.crypto.
#[local] Existing Instance legacy_config.
Definition issuer : string := Sample.addr.
Definition holder : string := sample_address "h".
Definition tid : string := derive_token_id issuer "GEM" 0.
Definition blk : Block :=
  mkBlock 1 EmptyString
    [mk_issue_token 1000 issuer 0 0 0 "Gem" "GEM" 2 500 true;
     mk_mint_token 1000 issuer 1 0 0 issuer tid 300;
     mk_transfer_token 1000 issuer 2 0 0 holder tid 120 ""]
    issuer 10 EmptyString 0 EmptyString EmptyString.
Definition chain : Chain := empty_Chain <| height := TOKEN_ACTIVATION_HEIGHT |>.
End TokenBlock.

Lemma fresh_tokens_ok : tokens_ok (tokens TokenBlock.chain).
Proof.
  split; [intros tid; by vm_compute|apply map_Forall_empty..| |done|done].
  split; [| |apply map_Forall_empty..]; intros; (split; [|intros []; done]); intros H; by apply not_elem_of_empty in H.
Qed.

Lemma append_keeps_tokens_witness :
  let s' := (append_block_inner (C := Toy.crypto) (Cfg := legacy_config) TokenBlock.blk TokenBlock.chain).2 in
  tokens_ok (tokens s') ∧ token_balance (tokens s') TokenBlock.tid TokenBlock.holder = 120.
Proof.
  intros s'. split; [|vm_compute; reflexivity].
  apply (append_keeps_tokens (C := Toy.crypto) (Cfg := legacy_config)).
  - apply fresh_tokens_ok.
  - apply (bool_decide_unpack _). vm_compute. exact I.
Defined.
