(* ===== verification/TxPool.v ===== *)
(** * The transaction pool

    [core/tx_pool.py]: admission of a signed transaction ([submit_tx]) and the
    base fee of the next block; [_drain_pool] of [core/blockchain.py].  A
    refusal is [Some] of its reason, without the values the message inserts;
    [now] is [int(time.time())]. *)
From S2P Require Import Prelude PyStr Json Config Crypto StateTrie Wallet Transaction Fees Block Receipt ChainState Ledger Staking Consensus.
Open Scope Z_scope.

(** Compute the closed tests of the goal *)
Ltac decide_now :=
  repeat match goal with |- context [bool_decide ?P] =>
    let x := eval vm_compute in (bool_decide P) in
    first [constr_eq x true | constr_eq x false]; change (bool_decide P) with x; cbv iota end.

Section Admission.
Context `{C : Crypto} `{Cfg : ChainConfig}.

(** [_current_base_fee]; without a block it raises on [parent.index]. *)
Definition current_base_fee (s : Chain) : result Z :=
  if height s <? 0 then Ok INITIAL_BASE_FEE
  else match latest_block s with
       | None => Raise AttributeError
       | Some parent => Ok (expected_base_fee (height s + 1) parent)
       end.

Definition next_is_dynamic (s : Chain) : bool :=
  (DYNAMIC_FEE_ACTIVATION_HEIGHT <=? height s + 1) && (0 <=? height s).

(** [sum(ptx.payload.get("amount", 0) for ptx in ...)] *)
Fixpoint sum_amounts (txs : list Transaction) : result Z :=
  match txs with
  | [] => Ok 0
  | tx :: rest =>
      a ← jget_int (payload tx) "amount" 0;
      n ← sum_amounts rest;
      Ok (a + n)
  end.
Definition pooled (s : Chain) (t : TxType) (tid : string) : list Transaction :=
  filter (λ tx, tx_type tx = t ∧ jget (payload tx) "token_id" JNull = JStr tid) (tx_pool (pool s)).

(** Origin, signature, payload and freshness *)
Definition admit_identity (s : Chain) (tx : Transaction) : verdict :=
  refuse_if (MAX_TX_POOL_SIZE <=? Z.of_nat (length (tx_pool (pool s)))) "tx pool full" (
  refuse_if (negb (bool_decide (chain_id tx = CHAIN_ID))) "wrong chain_id" (
  refuse_if (is_key_revoked s (sender tx) "signing") "sender signing key has been revoked" (
  refuse_if (negb (tx_verify tx)) "invalid signature" (
  and_then (validate_payload tx) (
  refuse_if (bool_decide (is_Some (tx_by_id (idx s) !! tx_id tx))) "duplicate (already in chain)" (
  refuse_if (bool_decide (tx_id tx ∈ pool_ids (pool s))) "duplicate (already in pool)" accept)))))).

(** The caps, the recipient of a SHARE, and the staking targets *)
Definition admit_target (s : Chain) (tx : Transaction) : verdict :=
  let t := tx_type tx in
  and_then (if bool_decide (t ∈ [TRANSFER; STAKE; DELEGATE; MINT_TOKEN])
            then amount ← jget_int (payload tx) "amount" 0;
                 refuse_if (MAX_SUPPLY <? amount) "amount exceeds MAX_SUPPLY" accept
            else accept) (
  refuse_if (bool_decide (t = SHARE) && is_empty (recipient tx)) "SHARE tx requires recipient" (
  and_then (if bool_decide (t ∈ [STAKE; DELEGATE])
            then vaddr ← jget_str (payload tx) "validator_address";
                 refuse_if (negb (is_registered_validator s vaddr)) "validator not registered" (
                 refuse_if (is_slashed s vaddr) "cannot stake to slashed validator" accept)
            else accept) (
  if bool_decide (t = UNSTAKE)
  then vaddr ← jget_str (payload tx) "validator_address";
       refuse_if (negb (is_registered_validator s vaddr)) "validator not registered" (
       amount ← jget_int (payload tx) "amount" 0;
       refuse_if (get_staker_info s (sender tx) vaddr <? amount) "insufficient stake" accept)
  else accept))).

(** The offer must reach the base fee of the next block. *)
Definition admit_offer (s : Chain) (tx : Transaction) : verdict :=
  if next_is_dynamic s && (0 <? weight_of tx) then
    current_bf ← current_base_fee s;
    refuse_if (max_fee_per_weight tx <? current_bf) "max_fee_per_weight below current base_fee" accept
  else accept.

(** [available = balance - pending]; refuse when it does not cover [need]. *)
Definition covers (s : Chain) (tx : Transaction) (need : Z) : verdict :=
  refuse_if (get_balance s (sender tx) - pending_debits s (sender tx) <? need) "insufficient balance" accept.
Definition stake_amount (tx : Transaction) : result Z :=
  if bool_decide (tx_type tx ∈ [STAKE; DELEGATE]) then jget_int (payload tx) "amount" 0 else Ok 0.

Definition admit_funds_dynamic (s : Chain) (tx : Transaction) : verdict :=
  let w := weight_of tx in
  if 0 <? w then
    let worst_case_fee := max_fee_per_weight tx * w in
    if bool_decide (tx_type tx = TRANSFER) then
      refuse_if (is_empty (recipient tx)) "TRANSFER requires a recipient" (
      extra_debit ← jget_int (payload tx) "amount" 0; covers s tx (worst_case_fee + extra_debit))
    else extra_debit ← stake_amount tx; covers s tx (worst_case_fee + extra_debit)
  else if bool_decide (tx_type tx = TRANSFER) then
    refuse_if (is_empty (recipient tx)) "TRANSFER requires a recipient" (
    amount ← jget_int (payload tx) "amount" 0; covers s tx amount)
  else accept.
Definition admit_funds_legacy (s : Chain) (tx : Transaction) : verdict :=
  let fee := legacy_fee tx in
  if bool_decide (tx_type tx = TRANSFER) then
    refuse_if (is_empty (recipient tx)) "TRANSFER requires a recipient" (
    amount ← jget_int (payload tx) "amount" 0; covers s tx (amount + fee))
  else if 0 <? fee then extra_debit ← stake_amount tx; covers s tx (fee + extra_debit)
  else accept.
Definition admit_funds (s : Chain) (tx : Transaction) : verdict :=
  if financial_active (ledger s) then
    if next_is_dynamic s then admit_funds_dynamic s tx else admit_funds_legacy s tx
  else accept.

(** Evidence against a registered, unslashed validator; revocations once, and
    never of the genesis validator's keys *)
Definition admit_registry (s : Chain) (tx : Transaction) : verdict :=
  and_then (if bool_decide (tx_type tx = EVIDENCE)
            then vaddr ← jget_str (payload tx) "validator_address";
                 refuse_if (negb (is_registered_validator s vaddr)) "evidence target not a registered validator" (
                 refuse_if (bool_decide (vaddr ∈ processed_evidence (staking s))) "validator already slashed" accept)
            else accept) (
  if bool_decide (tx_type tx = REVOKE_KEY)
  then key_type ← jget_str (payload tx) "key_type";
       refuse_if (is_key_revoked s (sender tx) key_type) "key already revoked for this address" (
       refuse_if (bool_decide (key_type ∈ ["validator"; "signing"]) && (0 <=? height s) &&
                  match get_block_by_index s 0 with
                  | Some g => bool_decide (sender tx = validator g)
                  | None => false
                  end) "cannot revoke genesis validator keys" accept)
  else accept).

Definition admit_issue (s : Chain) (tx : Transaction) : verdict :=
  symbol ← jget_str (payload tx) "symbol";
  refuse_if (bool_decide (is_Some (token_by_symbol (tokens s) !! symbol))) "token symbol already exists" (
  refuse_if (existsb (λ p, bool_decide (tx_type p = ISSUE_TOKEN) &&
                           bool_decide (jget (payload p) "symbol" JNull = JStr symbol)) (tx_pool (pool s)))
    "token symbol already pending in pool" accept).
Definition admit_mint (s : Chain) (tx : Transaction) : verdict :=
  tid ← jget_str (payload tx) "token_id";
  match token_registry (tokens s) !! tid with
  | None => reject "token does not exist"
  | Some reg =>
      refuse_if (negb (bool_decide (tk_issuer reg = sender tx))) "only the token issuer can mint" (
      if 0 <? tk_max_supply reg then
        amount ← jget_int (payload tx) "amount" 0;
        pending_mint ← sum_amounts (pooled s MINT_TOKEN tid);
        refuse_if (tk_max_supply reg <? tk_total_minted reg + pending_mint + amount)
          "minting would exceed max_supply" accept
      else accept)
  end.
Definition admit_transfer_token (s : Chain) (tx : Transaction) : verdict :=
  tid ← jget_str (payload tx) "token_id";
  match token_registry (tokens s) !! tid with
  | None => reject "token does not exist"
  | Some reg =>
      refuse_if (negb (tk_transferable reg)) "token is not transferable" (
      amount ← jget_int (payload tx) "amount" 0;
      pending_debit ← sum_amounts (filter (λ p, sender p = sender tx) (pooled s TRANSFER_TOKEN tid));
      refuse_if (get_token_balance s tid (sender tx) - pending_debit <? amount)
        "insufficient token balance" accept)
  end.
Definition admit_token (s : Chain) (tx : Transaction) : verdict :=
  refuse_if (bool_decide (tx_type tx ∈ [ISSUE_TOKEN; MINT_TOKEN; TRANSFER_TOKEN]) &&
             (height s + 1 <? TOKEN_ACTIVATION_HEIGHT)) "token operations not yet active" (
  match tx_type tx with
  | ISSUE_TOKEN => admit_issue s tx
  | MINT_TOKEN => admit_mint s tx
  | TRANSFER_TOKEN => admit_transfer_token s tx
  | _ => accept
  end).

Definition pending_from (s : Chain) (a : string) : Z := get_or (pool_sender_count (pool s)) a 0.
Definition admit_order (now : Z) (s : Chain) (tx : Transaction) : verdict :=
  refuse_if (negb (nonce tx =? get_next_nonce s (sender tx) + pending_from s (sender tx))) "invalid nonce" (
  refuse_if (now + 300 <? timestamp tx) "tx timestamp too far in future" (
  refuse_if (timestamp tx <? now - 86400) "tx timestamp too old (>24h)" accept)).

Definition admission (now : Z) (s : Chain) (tx : Transaction) : verdict :=
  and_then (admit_identity s tx) (
  and_then (admit_target s tx) (
  and_then (admit_offer s tx) (
  and_then (admit_funds s tx) (
  and_then (admit_registry s tx) (
  and_then (admit_token s tx) (admit_order now s tx)))))).

(** [counts[t] = counts.get(t, 0) + 1] *)
Definition count_type (m : gmap string Z) (tx : Transaction) : gmap string Z :=
  let t_val := tt_value (tx_type tx) in <[t_val := get_or m t_val 0 + 1]> m.

Definition submit_tx (now : Z) (tx : Transaction) : M Chain (option string) :=
  s ← get;
  refusal ← lift (admission now s tx);
  match refusal with
  | Some msg => mret (Some msg)
  | None =>
      let a := sender tx in
      let pending_from_sender := pending_from s a in
      _ ← on pool (modify (λ p,
            p <| tx_pool ::= λ l, l ++ [tx] |> <| pool_ids ::= union {[tx_id tx]} |>
              <| pool_sender_count ::= <[a := pending_from_sender + 1]> |>));
      debit ← lift (calc_tx_debit (height s) (height s + 1) tx);
      _ ← on pool (modify (λ p,
            p <| pending_debits_cache ::= λ m, <[a := get_or m a 0 + debit]> m |>
              <| pool_type_counts ::= λ m, count_type m tx |>));
      mret None
  end.

(** [_drain_pool]; the counts of the senders in the block are dictionaries in
    the order of the block. *)
Definition senders_of (txs : list Transaction) : dict string Z :=
  foldl (λ d tx, dset d (sender tx) (dget_or d (sender tx) 0 + 1)) [] txs.
Definition settle_count (m : gmap string Z) (e : string * Z) : gmap string Z :=
  let remaining := get_or m e.1 e.2 - e.2 in
  if remaining <=? 0 then delete e.1 m else <[e.1 := remaining]> m.
Definition drain_step (b : Block) (p : Pool) : Pool :=
  let mined_ids : gset string := list_to_set (tx_id <$> transactions b) in
  let rest := filter (λ tx, tx_id tx ∉ mined_ids) (tx_pool p) in
  p <| tx_pool := rest |> <| pool_ids ::= λ ids, ids ∖ mined_ids |>
    <| pool_sender_count ::= λ m, foldl settle_count m (senders_of (transactions b)) |>
    <| pool_type_counts := foldl count_type ∅ rest |>.
Definition drain_pool (b : Block) : M Chain unit :=
  _ ← on pool (modify (drain_step b));
  rebuild_pending_debits_cache.
End Admission.

(** ** The invariant of the pool *)

Definition of_sender (a : string) (txs : list Transaction) : list Transaction := filter (λ tx, sender tx = a) txs.
Definition count_sender (a : string) (txs : list Transaction) : Z := Z.of_nat (length (of_sender a txs)).
Definition count_value (t : string) (txs : list Transaction) : Z :=
  Z.of_nat (length (filter (λ tx, tt_value (tx_type tx) = t) txs)).

Section Invariant.
Context `{C : Crypto} `{Cfg : ChainConfig}.

(** The indices and caches say what the list says, and the transactions of
    each sender carry consecutive nonces from [next] on. *)
Record pool_at (next : string → Z) (p : Pool) : Prop := mkPoolAt {
  po_unique : NoDup (tx_id <$> tx_pool p);
  po_ids : pool_ids p = list_to_set (tx_id <$> tx_pool p);
  po_count : ∀ a, get_or (pool_sender_count p) a 0 = count_sender a (tx_pool p);
  po_types : ∀ t, get_or (pool_type_counts p) t 0 = count_value t (tx_pool p);
  po_nonces : ∀ a, nonce <$> of_sender a (tx_pool p) = seqZ (next a) (count_sender a (tx_pool p));
  po_valid : Forall (λ tx, validate_payload tx = accept) (tx_pool p);
  po_size : Z.of_nat (length (tx_pool p)) <= MAX_TX_POOL_SIZE }.
Definition debits_exact (s : Chain) : Prop :=
  debits_cache (height s) (height s + 1) (tx_pool (pool s)) ∅ = Ok (pending_debits_cache (pool s)).
Definition pool_ok (s : Chain) : Prop := pool_at (get_next_nonce s) (pool s) ∧ debits_exact s.
(** Nobody has promised more than is on the balance. *)
Definition solvent (s : Chain) : Prop := ∀ a, pending_debits s a <= get_balance s a.

(** *** Counting *)

Lemma of_sender_snoc a txs tx :
  of_sender a (txs ++ [tx]) = of_sender a txs ++ (if decide (sender tx = a) then [tx] else []).
Proof. unfold of_sender. by rewrite list.filter_app. Qed.
Lemma count_sender_snoc a txs tx :
  count_sender a (txs ++ [tx]) = count_sender a txs + (if decide (sender tx = a) then 1 else 0).
Proof. unfold count_sender. rewrite of_sender_snoc, length_app. case_decide; cbn; lia. Qed.
Lemma count_value_snoc t txs tx :
  count_value t (txs ++ [tx]) = count_value t txs + (if decide (tt_value (tx_type tx) = t) then 1 else 0).
Proof. unfold count_value. rewrite list.filter_app, length_app, filter_cons. case_decide; cbn; lia. Qed.
Lemma count_type_get m tx t :
  get_or (count_type m tx) t 0 = get_or m t 0 + (if decide (tt_value (tx_type tx) = t) then 1 else 0).
Proof. unfold count_type. rewrite get_or_insert. case_decide; subst; lia. Qed.
Lemma count_types_get txs t : get_or (foldl count_type ∅ txs) t 0 = count_value t txs.
Proof.
  induction txs as [|tx txs IH] using rev_ind; [done|].
  rewrite foldl_app. cbn [foldl]. by rewrite count_type_get, IH, count_value_snoc.
Qed.

(** *** Debits *)

Lemma calc_tx_debit_valid h next tx : validate_payload tx = accept → ∃ d, calc_tx_debit h next tx = Ok d.
Proof.
  intros Hv. unfold calc_tx_debit. assert (∃ a, moved_amount tx = Ok a) as [a ->]; [|eauto].
  unfold moved_amount. destruct (tx_type tx) eqn:Et; try by eauto.
  all: destruct (validate_payload_amount tx _ Hv ltac:(by rewrite Et)) as (z & Hz & _); exists z; by apply jget_int_default.
Qed.
Lemma debits_cache_snoc h next txs tx m :
  debits_cache h next (txs ++ [tx]) m =
  (m' ← debits_cache h next txs m; d ← calc_tx_debit h next tx;
   Ok (<[sender tx := get_or m' (sender tx) 0 + d]> m')).
Proof.
  revert m. induction txs as [|t txs IH]; intros m; cbn [app debits_cache].
  - unfold mbind, result_bind. by destruct (calc_tx_debit h next tx).
  - unfold mbind, result_bind in *. destruct (calc_tx_debit h next t); [apply IH|done].
Qed.
Lemma debits_cache_valid h next txs m : Forall (λ tx, validate_payload tx = accept) txs →
  ∃ m', debits_cache h next txs m = Ok m'.
Proof.
  intros Hv. revert m. induction Hv as [|tx txs Hv Hvs IH]; intros m; [by eexists|].
  cbn [debits_cache]. destruct (calc_tx_debit_valid h next tx Hv) as [d ->]. apply IH.
Qed.

(** *** Admission *)

(** What the identity and ordering checks establish of an admitted transaction *)
Record admissible (now : Z) (s : Chain) (tx : Transaction) : Prop := mkAdmissible {
  ad_room : Z.of_nat (length (tx_pool (pool s))) < MAX_TX_POOL_SIZE;
  ad_chain : chain_id tx = CHAIN_ID;
  ad_key : is_key_revoked s (sender tx) "signing" = false;
  ad_signed : tx_verify tx = true;
  ad_payload : validate_payload tx = accept;
  ad_new : tx_by_id (idx s) !! tx_id tx = None;
  ad_fresh : tx_id tx ∉ pool_ids (pool s);
  ad_nonce : nonce tx = get_next_nonce s (sender tx) + pending_from s (sender tx);
  ad_time : now - 86400 <= timestamp tx <= now + 300 }.

Lemma admit_admissible now s tx : admission now s tx = accept → admissible now s tx.
Proof.
  unfold admission. rewrite !and_then_accept. intros (H1 & _ & _ & _ & _ & _ & H2).
  unfold admit_identity in H1. rewrite !refuse_if_accept, and_then_accept, !refuse_if_accept in H1.
  unfold admit_order in H2. rewrite !refuse_if_accept in H2.
  destruct H1 as (Hl & Hc & Hk & Hs & Hp & Hn & Hf & _), H2 as (Hno & Ht1 & Ht2 & _).
  apply Z.leb_gt in Hl. apply negb_false_iff in Hc, Hs, Hno. apply bool_decide_eq_true in Hc.
  apply bool_decide_eq_false in Hn, Hf. apply Z.eqb_eq in Hno. apply Z.ltb_ge in Ht1, Ht2.
  apply eq_None_not_Some in Hn. by split.
Qed.

(** A transaction that takes something is covered by what the sender has left. *)
Lemma covers_accept s tx need :
  covers s tx need = accept → pending_debits s (sender tx) + need <= get_balance s (sender tx).
Proof. unfold covers. rewrite refuse_if_accept. intros [H%Z.ltb_ge _]. lia. Qed.
Lemma bind_accept {A} (r : result A) (k : A → verdict) :
  (x ← r; k x) = accept → ∃ a, r = Ok a ∧ k a = accept.
Proof. destruct r as [a|e]; [by eauto|done]. Qed.

Lemma bind_ok {A B} (r : result A) (k : A → result B) b :
  (x ← r; k x) = Ok b → ∃ a, r = Ok a ∧ k a = Ok b.
Proof. destruct r as [a|e]; [by eauto|done]. Qed.

Ltac settle_funds Ha :=
  let H := fresh in let x := fresh in let Hx := fresh in let Hc := fresh in
  intros H; lazymatch type of H with refuse_if _ _ _ = _ => apply refuse_if_accept in H as [_ H] | _ => idtac end;
  apply bind_accept in H as (x & Hx & Hc%covers_accept); rewrite ?Hx in Ha; simplify_eq; right; lia.

Lemma admit_funds_covered s tx d :
  financial_active (ledger s) = true → admit_funds s tx = accept →
  calc_tx_debit (height s) (height s + 1) tx = Ok d →
  d = 0 ∨ pending_debits s (sender tx) + d <= get_balance s (sender tx).
Proof.
  intros Hf. unfold admit_funds, calc_tx_debit. rewrite Hf.
  change ((DYNAMIC_FEE_ACTIVATION_HEIGHT <=? height s + 1) && (0 <=? height s)) with (next_is_dynamic s).
  unfold moved_amount. intros Hfunds (a & Ha & [= <-])%bind_ok. revert Hfunds.
  destruct (next_is_dynamic s).
  - unfold admit_funds_dynamic, stake_amount. pose proof (weight_of_nonneg tx) as Hw.
    destruct (Z.ltb_spec 0 (weight_of tx)) as [Hpos|Hz].
    + destruct (tx_type tx); decide_now; settle_funds Ha.
    + replace (weight_of tx) with 0 by lia. rewrite Z.mul_0_r.
      destruct (tx_type tx) eqn:Et; decide_now; try (simplify_eq; by left).
      1,2: exfalso; revert Hz; unfold weight_of; rewrite Et; by vm_compute.
      settle_funds Ha.
  - unfold admit_funds_legacy, stake_amount, legacy_fee.
    destruct (tx_type tx) eqn:Et; decide_now; cbv [tt_value];
      match goal with |- context [dget_or TX_FEES ?k 0] =>
        let f := eval vm_compute in (dget_or TX_FEES k 0) in change (dget_or TX_FEES k 0) with f end;
      cbn [Z.ltb Z.compare]; try settle_funds Ha; simplify_eq; by left.
Qed.

(** The pool after an admission *)
Definition admitted (tx : Transaction) (d : Z) (p : Pool) : Pool :=
  let a := sender tx in
  mkPool (tx_pool p ++ [tx]) ({[tx_id tx]} ∪ pool_ids p)
    (<[a := get_or (pool_sender_count p) a 0 + 1]> (pool_sender_count p))
    (<[a := get_or (pending_debits_cache p) a 0 + d]> (pending_debits_cache p))
    (count_type (pool_type_counts p) tx).

Lemma submit_run now tx s : admission now s tx = accept →
  ∃ d, calc_tx_debit (height s) (height s + 1) tx = Ok d ∧
    submit_tx now tx s = (Ok None, s <| pool ::= admitted tx d |>).
Proof.
  intros Ha. pose proof (ad_payload _ _ _ (admit_admissible _ _ _ Ha)) as Hp.
  destruct (calc_tx_debit_valid (height s) (height s + 1) tx Hp) as [d Hd]. exists d. split; [done|].
  unfold submit_tx, get, lift. unfold mbind, M_bind. rewrite Ha, Hd. destruct s as [? ? ? []]. done.
Qed.
Lemma submit_refused now tx s : admission now s tx ≠ accept → (submit_tx now tx s).2 = s.
Proof.
  intros Ha. unfold submit_tx, get, lift. unfold mbind, M_bind.
  destruct (admission now s tx) as [[m|]|e] eqn:E; [done|by destruct Ha|done].
Qed.

Lemma pool_at_admitted next tx d p :
  pool_at next p → validate_payload tx = accept → tx_id tx ∉ pool_ids p →
  Z.of_nat (length (tx_pool p)) < MAX_TX_POOL_SIZE →
  nonce tx = next (sender tx) + get_or (pool_sender_count p) (sender tx) 0 →
  pool_at next (admitted tx d p).
Proof.
  intros [Hu Hi Hc Ht Hn Hv Hs] Hp Hf Hr Hno. unfold admitted. split; cbn [tx_pool pool_ids pool_sender_count pool_type_counts].
  - rewrite fmap_app. apply list.NoDup_app. split_and!; [done| |apply NoDup_singleton].
    intros x Hx ->%list_elem_of_singleton. apply Hf. rewrite Hi. by apply elem_of_list_to_set.
  - rewrite fmap_app, list_to_set_app_L, Hi. cbn. set_solver.
  - intros a. rewrite get_or_insert, count_sender_snoc. case_decide; subst; rewrite Hc; lia.
  - intros t. by rewrite count_type_get, count_value_snoc, Ht.
  - intros a. rewrite of_sender_snoc, count_sender_snoc, fmap_app, Hn. case_decide as Ha; subst; cbn.
    + rewrite seqZ_app by (unfold count_sender; lia). f_equal. by rewrite Hno, Hc.
    + by rewrite app_nil_r, Z.add_0_r.
  - apply list.Forall_app. split; [done|by repeat constructor].
  - rewrite length_app. cbn. lia.
Qed.

Lemma submit_pool_ok now tx s : pool_ok s → pool_ok (submit_tx now tx s).2.
Proof.
  intros [Hp Hd]. destruct (decide (admission now s tx = accept)) as [Ha|Ha]; [|rewrite submit_refused; done].
  destruct (submit_run now tx s Ha) as (d & Hdeb & ->). apply admit_admissible in Ha as [].
  split.
  - by apply pool_at_admitted.
  - unfold debits_exact in *. cbn. by rewrite debits_cache_snoc, Hd, Hdeb.
Qed.
Lemma submit_solvent now tx s :
  financial_active (ledger s) = true → solvent s → solvent (submit_tx now tx s).2.
Proof.
  intros Hf Hs. destruct (decide (admission now s tx = accept)) as [Ha|Ha]; [|rewrite submit_refused; done].
  destruct (submit_run now tx s Ha) as (d & Hdeb & ->).
  unfold admission in Ha. rewrite !and_then_accept in Ha. destruct Ha as (_ & _ & _ & Ha & _).
  pose proof (admit_funds_covered s tx d Hf Ha Hdeb) as Hcov.
  intros a. specialize (Hs a) as Hsa. specialize (Hs (sender tx)).
  unfold pending_debits, get_balance, admitted in *. cbn. rewrite get_or_insert.
  case_decide; subst; lia.
Qed.

(** *** Draining *)

Lemma NoDup_fmap_eq {A B} (f : A → B) l x y : NoDup (f <$> l) → x ∈ l → y ∈ l → f x = f y → x = y.
Proof.
  induction l as [|z l IH]; csimpl; [set_solver|]. intros [Hz Hl]%list.NoDup_cons Hx Hy Hf.
  apply elem_of_cons in Hx as [->|Hx], Hy as [->|Hy]; [done|..|by apply IH].
  - destruct Hz. rewrite Hf. by apply list_elem_of_fmap_2.
  - destruct Hz. rewrite <-Hf. by apply list_elem_of_fmap_2.
Qed.
Lemma Forall_filter_sub {A} (Q P : A → Prop) `{∀ x, Decision (P x)} l : Forall Q l → Forall Q (filter P l).
Proof. intros Hl. apply Forall_intro. intros x [_ Hx]%list_elem_of_filter. by apply (Forall_in Q l). Qed.
Lemma of_sender_cons a tx txs :
  of_sender a (tx :: txs) = if decide (sender tx = a) then tx :: of_sender a txs else of_sender a txs.
Proof. unfold of_sender. by rewrite filter_cons. Qed.
Lemma elem_of_sender a txs tx : tx ∈ of_sender a txs ↔ sender tx = a ∧ tx ∈ txs.
Proof. unfold of_sender. by rewrite list_elem_of_filter. Qed.

Lemma senders_of_snoc txs tx :
  senders_of (txs ++ [tx]) = dset (senders_of txs) (sender tx) (dget_or (senders_of txs) (sender tx) 0 + 1).
Proof. unfold senders_of. by rewrite foldl_app. Qed.
Lemma senders_of_get txs a :
  dget (senders_of txs) a = if decide (count_sender a txs = 0) then None else Some (count_sender a txs).
Proof.
  induction txs as [|tx txs IH] using rev_ind; [done|].
  rewrite senders_of_snoc, count_sender_snoc, dget_dset.
  assert (dget_or (senders_of txs) a 0 = count_sender a txs) as Hor.
  { unfold dget_or. rewrite IH. by destruct (decide (count_sender a txs = 0)). }
  assert (0 <= count_sender a txs) by (unfold count_sender; lia).
  destruct (decide (a = sender tx)) as [->|Hne].
  - rewrite Hor, !(decide_True (P := sender tx = sender tx)) by done. by rewrite decide_False by lia.
  - rewrite IH, !(decide_False (P := sender tx = a)) by congruence. by rewrite Z.add_0_r.
Qed.
Lemma senders_of_NoDup txs : NoDup (senders_of txs).*1.
Proof.
  induction txs as [|tx txs IH] using rev_ind; [constructor|]. rewrite senders_of_snoc. by apply dset_NoDup.
Qed.
Lemma settle_counts_get (d : dict string Z) m a : NoDup d.*1 → (∀ a n, dget d a = Some n → 0 < n) →
  get_or (foldl settle_count m d) a 0 =
  match dget d a with Some n => Z.max 0 (get_or m a n - n) | None => get_or m a 0 end.
Proof.
  revert m. induction d as [|[k n] d IH]; intros m Hn Hd; [done|].
  csimpl in Hn. apply list.NoDup_cons in Hn as [Hk Hn]. cbn [foldl].
  pose proof (Hd k n) as Hkn. cbn [dget] in Hkn. rewrite decide_True in Hkn by done. specialize (Hkn eq_refl).
  assert (∀ b, get_or (settle_count m (k, n)) b 0 =
    if decide (k = b) then Z.max 0 (get_or m k n - n) else get_or m b 0) as Hstep.
  { intros b. unfold settle_count. cbn [fst snd]. destruct (Z.leb_spec (get_or m k n - n) 0).
    - rewrite get_or_delete. case_decide; [lia|done].
    - rewrite get_or_insert. case_decide; [lia|done]. }
  assert (∀ b x, b ≠ k → get_or (settle_count m (k, n)) b x = get_or m b x) as Hother.
  { intros b x Hb. unfold settle_count. cbn [fst snd].
    destruct (_ <=? 0); [rewrite get_or_delete|rewrite get_or_insert]; by rewrite decide_False. }
  rewrite IH; [|done|].
  2:{ intros b x Hb. apply (Hd b). cbn [dget]. case_decide; [|done]. subst. apply dget_None in Hk. congruence. }
  cbn [dget]. destruct (decide (a = k)) as [->|Hak].
  - rewrite (proj2 (dget_None d k) Hk), Hstep. by rewrite decide_True.
  - destruct (dget d a); [by rewrite Hother|]. rewrite Hstep. by rewrite decide_False.
Qed.

(** The nonces of a sender in a list that follows [next] *)
Lemma nonces_follow_seq next txs a :
  nonces_follow next txs → nonce <$> of_sender a txs = seqZ (next a) (count_sender a txs).
Proof.
  revert next. induction txs as [|tx txs IH]; intros next; [done|]. cbn [nonces_follow]. intros [Hn Hr].
  specialize (IH _ Hr). unfold count_sender in *. rewrite of_sender_cons. cbn beta in IH.
  destruct (decide (sender tx = a)) as [<-|Hne].
  - rewrite decide_True in IH by done. csimpl. rewrite seqZ_cons by lia. rewrite Hn, IH.
    f_equal. f_equal; lia.
  - rewrite decide_False in IH by done. done.
Qed.
Lemma filter_seqZ_ge m n k : 0 <= k <= n → filter (λ x, m + k <= x) (seqZ m n) = seqZ (m + k) (n - k).
Proof.
  intros Hk. replace n with (k + (n - k)) at 1 by lia. rewrite seqZ_app by lia.
  rewrite list.filter_app, filter_none, filter_all; [done|..]; intros x Hx%elem_of_seqZ; lia.
Qed.
Lemma filter_fmap_nonce c (txs : list Transaction) :
  nonce <$> filter (λ tx, c <= nonce tx) txs = filter (λ x, c <= x) (nonce <$> txs).
Proof. induction txs as [|tx txs IH]; [done|]. csimpl. rewrite !filter_cons. case_decide; csimpl; by rewrite IH. Qed.

Section Drain.
Context (next : string → Z) (p : Pool) (b : Block).
Context (Hp : pool_at next p) (Hn : nonces_follow next (transactions b)).
Context (Hin : ∀ tx, tx ∈ transactions b →
  tx ∈ tx_pool p ∨ (of_sender (sender tx) (tx_pool p) = [] ∧ (tx_id tx ∉ tx_id <$> tx_pool p))).

Lemma pool_nonce_eq tx tx' : tx ∈ tx_pool p → tx' ∈ tx_pool p → sender tx = sender tx' → nonce tx = nonce tx' → tx = tx'.
Proof using Hp.
  intros H1 H2 Hs He. apply (NoDup_fmap_eq nonce (of_sender (sender tx) (tx_pool p))); [|by apply elem_of_sender..|done].
  rewrite (po_nonces _ _ Hp). apply NoDup_seqZ.
Qed.
Lemma mined_in_pool tx : tx ∈ transactions b → of_sender (sender tx) (tx_pool p) ≠ [] → tx ∈ tx_pool p.
Proof using Hin. intros Htx Hne. by destruct (Hin tx Htx) as [|[]]. Qed.
Lemma mined_count_le a : of_sender a (tx_pool p) ≠ [] → count_sender a (transactions b) <= count_sender a (tx_pool p).
Proof using Hp Hin Hn.
  intros Hne. unfold count_sender. apply Nat2Z.inj_le, submseteq_length. apply NoDup_submseteq.
  - apply (list.NoDup_fmap_1 nonce). rewrite (nonces_follow_seq _ _ a Hn). apply NoDup_seqZ.
  - intros tx [Hs Ht]%elem_of_sender. apply elem_of_sender. split; [done|]. apply mined_in_pool; [done|by rewrite Hs].
Qed.
(** Whether a pooled transaction was mined is told by its nonce. *)
Lemma mined_iff tx : tx ∈ tx_pool p →
  tx_id tx ∈ (list_to_set (tx_id <$> transactions b) : gset string) ↔
  nonce tx < next (sender tx) + count_sender (sender tx) (transactions b).
Proof using Hp Hin Hn.
  intros Htx. rewrite elem_of_list_to_set.
  assert (∀ n, n ∈ nonce <$> of_sender (sender tx) (transactions b) ↔
    next (sender tx) <= n < next (sender tx) + count_sender (sender tx) (transactions b)) as Hseq.
  { intros n. rewrite (nonces_follow_seq _ _ _ Hn). apply elem_of_seqZ. }
  assert (∀ t, t ∈ tx_pool p → of_sender (sender t) (tx_pool p) ≠ []) as Hne.
  { intros t Ht Hnil. pose proof (proj2 (elem_of_sender (sender t) (tx_pool p) t) (conj eq_refl Ht)) as Hel.
    rewrite Hnil in Hel. by apply elem_of_nil in Hel. }
  split.
  - intros (t & Hid & Ht)%list_elem_of_fmap. destruct (Hin t Ht) as [Htp|[_ Hnot]].
    + assert (tx = t) as <- by (eapply (NoDup_fmap_eq tx_id); [exact (po_unique _ _ Hp)|done..]).
      apply Hseq. apply list_elem_of_fmap. exists tx. by rewrite elem_of_sender.
    + destruct Hnot. rewrite <-Hid. by apply list_elem_of_fmap_2.
  - intros Hlt. assert (nonce tx ∈ nonce <$> of_sender (sender tx) (tx_pool p)) as Hb.
    { apply list_elem_of_fmap. exists tx. by rewrite elem_of_sender. }
    rewrite (po_nonces _ _ Hp), elem_of_seqZ in Hb.
    pose proof (proj2 (Hseq (nonce tx)) ltac:(lia)) as (t & Hnt & [Hst Ht]%elem_of_sender)%list_elem_of_fmap.
    assert (tx = t) as -> by (apply pool_nonce_eq; [done|apply mined_in_pool; [done|rewrite Hst; by apply Hne]|done..]).
    by apply list_elem_of_fmap_2.
Qed.
Lemma of_sender_rest a :
  of_sender a (tx_pool (drain_step b p)) =
  filter (λ tx, next a + count_sender a (transactions b) <= nonce tx) (of_sender a (tx_pool p)).
Proof using Hp Hin Hn.
  unfold drain_step, of_sender. chain_simpl. rewrite !list_filter_filter. apply filter_ext_in. intros tx Htx.
  rewrite mined_iff by done. split; intros [H1 H2]; subst; split; try done; lia.
Qed.
Lemma nonces_rest a :
  nonce <$> of_sender a (tx_pool (drain_step b p)) =
  seqZ (next a + count_sender a (transactions b)) (count_sender a (tx_pool p) - count_sender a (transactions b)).
Proof using Hp Hin Hn.
  rewrite of_sender_rest, filter_fmap_nonce, (po_nonces _ _ Hp).
  assert (0 <= count_sender a (transactions b)) by (unfold count_sender; lia).
  destruct (decide (of_sender a (tx_pool p) = [])) as [E|E].
  - assert (count_sender a (tx_pool p) = 0) as -> by (unfold count_sender; by rewrite E).
    by rewrite !seqZ_nil by lia.
  - apply filter_seqZ_ge. pose proof (mined_count_le a E). lia.
Qed.
Lemma count_sender_rest a :
  count_sender a (tx_pool (drain_step b p)) = Z.max 0 (count_sender a (tx_pool p) - count_sender a (transactions b)).
Proof using Hp Hin Hn.
  unfold count_sender at 1. rewrite <-(length_fmap nonce), nonces_rest, length_seqZ. lia.
Qed.
Lemma drain_pool_at : pool_at (λ a, next a + count_sender a (transactions b)) (drain_step b p).
Proof using Hp Hin Hn.
  pose proof count_sender_rest as Hcr.
  split.
  - unfold drain_step. chain_simpl. apply NoDup_fmap_filter, (po_unique _ _ Hp).
  - unfold drain_step. chain_simpl. rewrite (po_ids _ _ Hp). apply set_eq. intros x.
    rewrite elem_of_difference, !elem_of_list_to_set, !list_elem_of_fmap.
    setoid_rewrite list_elem_of_filter. setoid_rewrite elem_of_list_to_set. setoid_rewrite list_elem_of_fmap. naive_solver.
  - intros a. rewrite Hcr. unfold drain_step. chain_simpl.
    rewrite settle_counts_get; [|apply senders_of_NoDup|].
    + rewrite senders_of_get. pose proof (po_count _ _ Hp a) as Hc.
      assert (0 <= count_sender a (transactions b)) by (unfold count_sender; lia).
      assert (0 <= count_sender a (tx_pool p)) by (unfold count_sender; lia).
      case_decide as Hz; [lia|]. unfold get_or in *. destruct (_ !! a); cbn in Hc |- *; lia.
    + intros b' n. rewrite senders_of_get. case_decide; [done|]. intros [= <-]. unfold count_sender in *. lia.
  - intros t. unfold drain_step. chain_simpl. apply count_types_get.
  - intros a. rewrite Hcr, nonces_rest.
    destruct (Z.le_ge_cases (count_sender a (transactions b)) (count_sender a (tx_pool p))).
    + by rewrite Z.max_r by lia.
    + rewrite Z.max_l by lia. by rewrite seqZ_nil by lia.
  - unfold drain_step. chain_simpl. apply Forall_filter_sub, (po_valid _ _ Hp).
  - unfold drain_step. chain_simpl. pose proof (po_size _ _ Hp). pose proof (length_filter (λ tx, tx_id tx ∉ (list_to_set (tx_id <$> transactions b) : gset string)) (tx_pool p)). lia.
Qed.
End Drain.

Lemma drain_run s b : Forall (λ tx, validate_payload tx = accept) (tx_pool (pool s)) →
  ∃ cache, drain_pool b s =
    (Ok tt, s <| pool ::= λ p, drain_step b p <| pending_debits_cache := cache |> |>) ∧
    debits_cache (height s) (height s + 1) (tx_pool (drain_step b (pool s))) ∅ = Ok cache.
Proof.
  intros Hv. destruct (debits_cache_valid (height s) (height s + 1) (tx_pool (drain_step b (pool s))) ∅) as [cache Hc].
  { unfold drain_step. chain_simpl. by apply Forall_filter_sub. }
  exists cache. split; [|done]. unfold drain_pool, rebuild_pending_debits_cache, mbind, M_bind, get, lift, on, zoom, modify.
  chain_simpl. rewrite Hc. by destruct s.
Qed.
End Invariant.

(** ** Property *)

(** C21 Pool admission: submitting any transaction to a consistent pool leaves a
    consistent pool (its identifier set, its counts per sender and per type
    and its cache of pending debits describe exactly the pooled transactions,
    each sender's nonces are consecutive from the next one of the chain), and
    with the financial layer active no sender's pending debits ever exceed the
    balance.  What is admitted is appended at the end, carries a valid
    signature and payload, and is in neither the chain nor the pool; anything
    else changes nothing. *)
Theorem submit_tx_keeps_pool `{C : Crypto} `{Cfg : ChainConfig} (now : Z) (tx : Transaction) (s : Chain)
  (Hs : pool_ok s) :
  let r := submit_tx now tx s in
  pool_ok r.2 ∧
  (financial_active (ledger s) = true → solvent s → solvent r.2) ∧
  (if decide (r.1 = Ok None)
   then admissible now s tx ∧ tx_pool (pool r.2) = tx_pool (pool s) ++ [tx]
   else r.2 = s).
Proof.
  intros r. subst r. split; [by apply submit_pool_ok|]. split; [intros; by apply submit_solvent|].
  destruct (decide (admission now s tx = accept)) as [Ha|Ha].
  - destruct (submit_run now tx s Ha) as (d & _ & ->). cbn [fst snd]. rewrite decide_True by done.
    split; [by apply admit_admissible|done].
  - rewrite submit_refused by done. rewrite decide_False; [done|]. intros Hr.
    unfold submit_tx, get, lift in Hr. unfold mbind, M_bind in Hr.
    by destruct (admission now s tx) as [[m|]|e].
Qed.

(** A funded account and two transactions of its *)
Module PoolSample.
#[local] Existing Instance Toy.crypto.
#[local] Existing Instance legacy_config.
Definition state : Chain :=
  Sample.state <| ledger := empty_Ledger <| balances := <[Sample.addr := 25000000]> ∅ |>
                                         <| financial_active := true |> |>.
Lemma state_ok : pool_ok state.
Proof.
  split; [|by vm_compute]. split; try done; try constructor; by vm_compute.
Qed.
End PoolSample.

Lemma submit_tx_keeps_pool_witness :
  let submit := submit_tx (C := Toy.crypto) (Cfg := legacy_config) 1000 in
  let r0 := submit (Sample.tx 0) PoolSample.state in
  let r1 := submit (Sample.tx 1) r0.2 in
  r0.1 = Ok None ∧ r1.1 = Ok None ∧ (submit (Sample.tx 2) r1.2).1 = Ok (Some "insufficient balance") ∧
  pool_ok (C := Toy.crypto) (Cfg := legacy_config) r1.2.
Proof.
  intros submit r0 r1. split; [vm_compute; reflexivity|]. split; [vm_compute; reflexivity|].
  split; [vm_compute; reflexivity|].
  destruct (submit_tx_keeps_pool (C := Toy.crypto) (Cfg := legacy_config) 1000 (Sample.tx 0)
    PoolSample.state PoolSample.state_ok) as [H0 _].
  destruct (submit_tx_keeps_pool (C := Toy.crypto) (Cfg := legacy_config) 1000 (Sample.tx 1) r0.2 H0) as [H1 _].
  exact H1.
Defined.
