(* ===== verification/Rollback.v ===== *)
(** * Undoing blocks

    [core/rollback.py] in memory mode: the reversal of one block, of the tip
    down to a height, and the lookups they use.  A block is undone from its
    contents alone: nothing of what its application did is recorded, except
    the distributions of an epoch and the snapshots of the trie. *)
From S2P Require Import Prelude PyStr Json Config Crypto StateTrie Wallet Transaction Fees Block Receipt ChainState Ledger StateOps Staking Consensus ReceiptOps Apply Frames Books.
Open Scope Z_scope.

(** [if x in l: l.remove(x)] *)
Fixpoint remove_first (x : string) (l : list string) : list string :=
  match l with
  | [] => []
  | y :: l' => if decide (y = x) then l' else y :: remove_first x l'
  end.

(** ** Receipts and events *)

Definition unindex_event (tid : string) (m : gmap string (list string)) (e : event) : gmap string (list string) :=
  if is_empty (event_type_of e) then m else alter (remove_first tid) (event_type_of e) m.
Definition undo_receipt (r : Receipts) (tid : string) : Receipts :=
  match dget (receipts r) tid with
  | None => r
  | Some rc =>
      r <| receipts ::= λ d, dpop d tid |>
        <| events_by_type ::= λ m, foldl (unindex_event tid) m (r_events rc) |>
  end.
Definition undo_receipts `{C : Crypto} (b : Block) (r : Receipts) : Receipts :=
  let i := index b in
  let r := foldl undo_receipt r (tx_id <$> transactions b) in
  r <| events_by_block ::= delete i |> <| block_level_events ::= delete i |>
    <| finalized_height ::= λ f, if i <=? f then i - 1 else f |>.

(** ** Balances *)

Section Balances.
Context `{Cfg : ChainConfig}.

(** The reward is computed again, from the supply the block has left. *)
Definition undo_reward (b : Block) : M Ledger unit :=
  l ← get;
  let reward := calc_block_reward (total_minted l) (index b) in
  when (0 <? reward)
    (_ ← rollback_debit (validator b) reward;
     _ ← modify (set total_minted (λ m, m - reward));
     modify (set epoch_rewards (λ m, <[validator b := Z.max 0 (get_or m (validator b) 0 - reward)]> m))).

Definition undo_value (tx : Transaction) : M Ledger unit :=
  match tx_type tx with
  | STAKE | DELEGATE =>
      amount ← lift (jget_int (payload tx) "amount" 0);
      when (0 <? amount) (credit (sender tx) amount)
  | TRANSFER =>
      amount ← lift (jindex_int (payload tx) "amount");
      _ ← rollback_debit (recipient tx) amount;
      credit (sender tx) amount
  | _ => mret tt
  end.
Definition undo_fee (b : Block) (tx : Transaction) : M Ledger unit :=
  if DYNAMIC_FEE_ACTIVATION_HEIGHT <=? index b then
    let w := weight_of tx in
    when (0 <? w)
      (let fee := compute_tx_fee (base_fee b) (max_fee_per_weight tx) (max_priority_fee tx) w in
       _ ← rollback_debit (validator b) fee;
       credit (sender tx) fee)
  else
    let fee := legacy_fee tx in
    when (0 <? fee)
      (let validator_share := fee / 2 in
       let burn := fee - validator_share in
       _ ← rollback_debit (validator b) validator_share;
       _ ← modify (set total_burned (λ n, n - burn));
       credit (sender tx) fee).
Definition undo_settle (b : Block) (tx : Transaction) : M Ledger unit :=
  _ ← undo_value tx; undo_fee b tx.
Definition undo_balances (b : Block) : M Ledger unit :=
  l ← get;
  when ((0 <? index b) && financial_active l)
    (_ ← undo_reward b; mfor (undo_settle b) (reverse (transactions b))).
End Balances.

(** ** Indices and registries *)

Definition unindex_tx (tid : string) (tx : Transaction) (ix : Index) : Index :=
  ix <| tx_by_id ::= delete tid |>
     <| txs_by_sender ::= alter (remove_first tid) (sender tx) |>
     <| txs_by_recipient ::= λ m, if is_empty (recipient tx) then m else alter (remove_first tid) (recipient tx) m |>.

Definition undo_notarize (tid : string) (tx : Transaction) : M Index unit :=
  dh ← lift (jget_str (payload tx) "documentHash");
  _ ← when (negb (is_empty dh))
        (modify (λ ix,
           let ix := ix <| notarizations ::= λ m, if decide (m !! dh = Some tid) then delete dh m else m |>
                        <| notarizations_by_hash ::= alter (remove_first tid) dh |> in
           match notarizations ix !! dh, get_or (notarizations_by_hash ix) dh [] with
           | None, first :: _ => ix <| notarizations ::= <[dh := first]> |>
           | _, _ => ix
           end));
  modify (set notarization_count (λ m,
    let cnt := get_or m (sender tx) 1 - 1 in
    if cnt <=? 0 then delete (sender tx) m else <[sender tx := cnt]> m)).

Definition undo_register_key (tx : Transaction) : M Keys unit :=
  epk ← lift (jget_str (payload tx) "encryption_pk");
  when (negb (is_empty epk))
    (modify (λ k,
       let k := k <| key_history ::= alter (remove_first epk) (sender tx) |> in
       match list.last (get_or (key_history k) (sender tx) []) with
       | Some previous => k <| key_registry ::= <[sender tx := previous]> |>
       | None => k <| key_registry ::= delete (sender tx) |>
       end)).

Definition undo_register_validator (tx : Transaction) : M Chain unit :=
  vaddr ← lift (jget_str (payload tx) "validator_address");
  when (negb (is_empty vaddr))
    (_ ← on keys (modify (set validator_registry (delete vaddr)));
     on cons (remove_validator vaddr)).

(** [_find_validator_pk_in_chain]: the registry, then the blocks in order *)
Fixpoint find_registration (a : string) (txs : list Transaction) : result (option string) :=
  match txs with
  | [] => Ok None
  | tx :: rest =>
      if bool_decide (tx_type tx = REGISTER_VALIDATOR) &&
         bool_decide (jget (payload tx) "validator_address" JNull = JStr a) then
        pk_hex ← jget_str (payload tx) "validator_pubkey";
        match (if is_empty pk_hex then None else fromhex pk_hex) with
        | Some pk => Ok (Some pk)
        | None => find_registration a rest
        end
      else find_registration a rest
  end.
Definition find_validator_pk_in_chain (s : Chain) (a : string) : result (option string) :=
  match validator_registry (keys s) !! a with
  | Some pk => Ok (Some pk)
  | None => find_registration a (mjoin (transactions <$> chain_list s))
  end.

Definition undo_revoke_key (tx : Transaction) : M Chain unit :=
  key_type ← lift (jget_str (payload tx) "key_type");
  let rev_key := revocation_key (sender tx) key_type in
  s ← get;
  _ ← on keys (modify (set revoked_keys (delete rev_key)));
  when (bool_decide (is_Some (revoked_keys (keys s) !! rev_key)) && bool_decide (key_type = "validator"))
    (s ← get;
     vpk ← lift (find_validator_pk_in_chain s (sender tx));
     match vpk with
     | None => mret tt
     | Some pk =>
         when (negb (is_empty pk))
           (_ ← on keys (modify (set validator_registry (<[sender tx := pk]>)));
            on cons (add_validator (sender tx) pk))
     end).

(** ** Stakes, evidence *)

Definition unstake_of_stake (vaddr staker : string) (amount : Z) (st : Staking) : Staking :=
  st <| stakes ::= λ d,
          match dget d vaddr with
          | None => d
          | Some e =>
              match dget e staker with
              | None => d
              | Some n => dset d vaddr (if n - amount <=? 0 then dpop e staker else dset e staker (n - amount))
              end
          end |>
     <| total_stake ::= λ m,
          let t := Z.max 0 (get_or m vaddr 0 - amount) in
          if t =? 0 then delete vaddr m else <[vaddr := t]> m |>.
Definition undo_stake (tx : Transaction) : M Staking unit :=
  vaddr ← lift (jget_str (payload tx) "validator_address");
  amount ← lift (jget_int (payload tx) "amount" 0);
  when (negb (is_empty vaddr) && (0 <? amount)) (modify (unstake_of_stake vaddr (sender tx) amount)).

Definition restake (i : Z) (vaddr staker : string) (amount : Z) (st : Staking) : Staking :=
  st <| stakes ::= put_stake vaddr staker (staker_info st staker vaddr + amount) |>
     <| total_stake ::= λ m, <[vaddr := get_or m vaddr 0 + amount]> m |>
     <| unbonding ::= filter (λ e, ¬ (ub_staker e = staker ∧ ub_validator e = vaddr ∧
                                      ub_amount e = amount ∧ ub_release e = i + UNBONDING_PERIOD)) |>.
Definition undo_unstake (i : Z) (tx : Transaction) : M Staking unit :=
  vaddr ← lift (jget_str (payload tx) "validator_address");
  amount ← lift (jget_int (payload tx) "amount" 0);
  when (negb (is_empty vaddr) && (0 <? amount)) (modify (restake i vaddr (sender tx) amount)).

(** The slashed stake itself stays slashed. *)
Definition undo_evidence (tid : string) (tx : Transaction) : M Staking unit :=
  vaddr ← lift (jget_str (payload tx) "validator_address");
  when (negb (is_empty vaddr))
    (modify (λ st,
       st <| slashed_validators ::= λ X, X ∖ {[vaddr]} |>
          <| processed_evidence ::= λ X, X ∖ {[vaddr]} |>
          <| slashing_events ::= filter (λ e, sl_tx_id e ≠ tid) |>)).

(** ** Tokens *)

Section Block.
Context `{C : Crypto} `{Cfg : ChainConfig}.

Definition undo_issue (tx : Transaction) : M Tokens unit :=
  symbol ← lift (jget_str (payload tx) "symbol");
  let token_id := derive_token_id (sender tx) symbol (nonce tx) in
  _ ← modify (set token_registry (delete token_id));
  _ ← modify (set token_by_symbol (delete symbol));
  tk ← get;
  mfor (λ k, modify (λ tk, update_token_index token_id k.2 0 (tk <| token_balances ::= delete k |>)))
       (filter (λ k, k.1 = token_id) (map_to_list (token_balances tk)).*1).

(** A balance that falls to zero or below is forgotten. *)
Definition take_tokens (tid a : string) (amount : Z) (tk : Tokens) : Tokens :=
  let new_bal := token_balance tk tid a - amount in
  update_token_index tid a (Z.max 0 new_bal)
    (tk <| token_balances ::= if new_bal <=? 0 then delete (tid, a) else <[(tid, a) := new_bal]> |>).
Definition undo_mint (tx : Transaction) : M Tokens unit :=
  tid ← lift (jget_str (payload tx) "token_id");
  amount ← lift (jget_int (payload tx) "amount" 0);
  _ ← modify (set token_registry (alter (with_minted (λ n, Z.max 0 (n - amount))) tid));
  modify (take_tokens tid (recipient tx) amount).
Definition undo_transfer_token (tx : Transaction) : M Tokens unit :=
  tid ← lift (jget_str (payload tx) "token_id");
  amount ← lift (jget_int (payload tx) "amount" 0);
  _ ← modify (take_tokens tid (recipient tx) amount);
  let src_key := (tid, sender tx) in
  _ ← modify (set token_balances (λ m, <[src_key := get_or m src_key 0 + amount]> m));
  modify (λ tk, update_token_index tid (sender tx) (token_balance tk tid (sender tx)) tk).

(** ** One transaction, one block *)

Definition undo_type (i : Z) (tx : Transaction) : M Chain unit :=
  let tid := tx_id tx in
  match tx_type tx with
  | NOTARIZE => on idx (undo_notarize tid tx)
  | REGISTER_KEY => on keys (undo_register_key tx)
  | REGISTER_VALIDATOR => undo_register_validator tx
  | REVOKE_KEY => undo_revoke_key tx
  | STAKE | DELEGATE => on staking (undo_stake tx)
  | UNSTAKE => on staking (undo_unstake i tx)
  | EVIDENCE => on staking (undo_evidence tid tx)
  | ISSUE_TOKEN => on tokens (undo_issue tx)
  | MINT_TOKEN => on tokens (undo_mint tx)
  | TRANSFER_TOKEN => on tokens (undo_transfer_token tx)
  | STORE | SHARE | TRANSFER => mret tt
  end.
Definition undo_tx (i : Z) (tx : Transaction) : M Chain unit :=
  _ ← on idx (modify (unindex_tx (tx_id tx) tx));
  _ ← on cons (modify (set chain_tx_ids (λ X, X ∖ {[tx_id tx]})));
  undo_type i tx.

(** The largest nonce among the transactions left, [-1] when none counts *)
Definition counted_nonce (s : Chain) (tid : string) : option Z :=
  match get_tx s tid, get_tx_block s tid with
  | Some tx, Some bi => if bi =? 0 then None else Some (nonce tx)
  | _, _ => None
  end.
Definition max_nonce (s : Chain) (tids : list string) : Z :=
  match omap (counted_nonce s) tids with [] => -1 | n :: l => foldl Z.max n l end.
Definition recount_nonce (tx : Transaction) : M Chain unit :=
  modify (λ s,
    match get_txs_by_sender s (sender tx) with
    | [] => s <| idx ::= set sender_nonce (delete (sender tx)) |>
    | remaining => s <| idx ::= set sender_nonce (<[sender tx := max_nonce s remaining]>) |>
    end).

(** Crossing an epoch boundary backwards *)
Definition undo_distribution (d : Distribution) : M Ledger unit :=
  _ ← mfor (λ c, rollback_debit c.1 c.2) (d_credits d);
  mfor (λ c, credit c.1 c.2) (d_debits d).
Definition undo_epoch (i : Z) : M Chain unit :=
  when ((0 <? EPOCH_LENGTH) && (i mod EPOCH_LENGTH =? 0))
    (let epoch_to_remove := i / EPOCH_LENGTH in
     s ← get;
     _ ← when ((0 <? epoch_to_remove) && financial_active (ledger s))
           (let record := last_epoch_distributions (ledger s) !! (epoch_to_remove - 1) in
            _ ← on ledger (modify (set last_epoch_distributions (delete (epoch_to_remove - 1))));
            match record with None => mret tt | Some d => on ledger (undo_distribution d) end);
     on staking (modify (λ st,
       let st := st <| epochs ::= delete epoch_to_remove |> in
       if 0 <? epoch_to_remove then
         st <| current_epoch := epoch_to_remove - 1 |>
            <| epoch_validators := get_or (epochs st) (epoch_to_remove - 1) [] |>
       else st <| current_epoch := 0 |> <| epoch_validators := [] |>))).

Definition undo_trie (i : Z) : M Chain unit :=
  _ ← on trie (modify (set state_snapshots (delete i)));
  s ← get;
  match (if 0 <=? i - 1 then state_snapshots (trie s) !! (i - 1) else None) with
  | Some snap => on trie (modify (set state_trie (λ t, trie_restore t snap)))
  | None => rebuild_state_trie
  end.

(** [self._height -= 1], and the block now last *)
Definition undo_tip : M Chain unit :=
  _ ← modify (set height (λ h, h - 1));
  s ← get;
  if 0 <=? height s then
    match list.last (chain_list s) with
    | Some b => modify (set latest_block (λ _, Some b))
    | None => raise IndexError
    end
  else modify (set latest_block (λ _, None)).

(** [_rollback_block]; the transactions displaced are those of the block. *)
Definition rollback_block (b : Block) : M Chain unit :=
  _ ← on recs (modify (undo_receipts b));
  _ ← on ledger (undo_balances b);
  _ ← modify (λ s, s <| idx ::= set block_by_hash (delete (block_hash b)) |>);
  _ ← mfor (undo_tx (index b)) (transactions b);
  _ ← mfor recount_nonce (transactions b);
  _ ← undo_epoch (index b);
  _ ← undo_trie (index b);
  undo_tip.

(** ** Down to a height *)

(** The supply figure both checks compare *)
Definition supply_invariant (s : Chain) : Z :=
  msum (balances (ledger s)) + msum (total_stake (staking s)) + total_burned (ledger s)
  + zsum (ub_amount <$> unbonding (staking s)) - total_minted (ledger s).

(** [while len(chain) > target: rollback(chain.pop())] *)
Fixpoint rollback_blocks (n : nat) : M Chain (list Transaction) :=
  match n with
  | O => mret []
  | S n' =>
      s ← get;
      match list.last (chain_list s) with
      | None => raise IndexError
      | Some b =>
          _ ← modify (set chain_list (λ l, take (length l - 1) l));
          _ ← rollback_block b;
          displaced ← rollback_blocks n';
          mret (transactions b ++ displaced)
      end
  end.
Definition rollback_to (target_index : Z) : M Chain (list Transaction) :=
  before ← get;
  displaced ← rollback_blocks (Z.to_nat (Z.of_nat (length (chain_list before)) - target_index));
  after ← get;
  if bool_decide (map_Forall (λ _ v, 0 <= v) (balances (ledger after))) then
    if financial_active (ledger before) && negb (supply_invariant after =? supply_invariant before)
    then raise (ValueError "Supply conservation violation after rollback")
    else mret displaced
  else raise (ValueError "Balance conservation violation after rollback").

(** [_append_block_inner_safe]: a [ValueError] of the application rolls the
    block back, whatever part of it was applied, and goes on. *)
Definition append_block (b : Block) : M Chain unit := λ s,
  match append_block_inner b s with
  | (Raise (ValueError msg), s') =>
      (_ ← rollback_block b;
       _ ← modify (set chain_list (λ l, if bool_decide (list.last l = Some b) then take (length l - 1) l else l));
       _ ← modify (λ s, s <| latest_block := if 0 <=? height s then get_block_by_index s (height s) else None |>);
       raise (ValueError msg)) s'
  | r => r
  end.
End Block.

(** ** Undoing the ledger *)

(** [l'] is [l] with the balances moved by [d], the burned supply by [db] and
    the minted supply by [dm]. *)
Record shift (d : string → Z) (db dm : Z) (l l' : Ledger) : Prop := mkShift {
  sh_bal : ∀ a, bal l' a = bal l a + d a;
  sh_burned : total_burned l' = total_burned l + db;
  sh_minted : total_minted l' = total_minted l + dm;
  sh_active : financial_active l' = financial_active l }.

Lemma shift_id l : shift (λ _, 0) 0 0 l l.
Proof. split; intros; lia || done. Qed.
Lemma shift_trans d1 b1 m1 d2 b2 m2 d b m l1 l2 l3 :
  shift d1 b1 m1 l1 l2 → shift d2 b2 m2 l2 l3 →
  (∀ a, d a = d1 a + d2 a) → b = b1 + b2 → m = m1 + m2 → shift d b m l1 l3.
Proof.
  intros [H1 H2 H3 H4] [G1 G2 G3 G4] Hd Hb Hm. split; [|lia|lia|congruence].
  intros a. rewrite G1, H1, Hd. lia.
Qed.
Lemma shift_credit a n l : shift (λ x, if decide (a = x) then n else 0) 0 0 l (l <| balances ::= credit_map a n |>).
Proof. split; cbn; try lia; [|done]. intros x. unfold bal. chain_simpl. apply credit_map_get. Qed.
Lemma shift_debit a n l :
  shift (λ x, - (if decide (a = x) then n else 0)) 0 0 l (l <| balances ::= debit_map a n |>).
Proof. split; cbn; try lia; [|done]. intros x. unfold bal. chain_simpl. rewrite debit_map_get. lia. Qed.

Lemma shift_rollback a n l : 0 <= n →
  shift (λ x, - (if decide (a = x) then n else 0)) 0 0 l (if n <=? 0 then l else l <| balances ::= debit_map a n |>).
Proof.
  intros Hn. destruct (Z.leb_spec n 0); [|apply shift_debit]. replace n with 0 by lia.
  split; [|lia..|done]. intros x. case_decide; lia.
Qed.
Lemma shift_burn n l : shift (λ _, 0) n 0 l (l <| total_burned ::= λ m, m + n |>).
Proof. split; cbn; try lia; [|done]. intros x. unfold bal. chain_simpl. lia. Qed.

(** Whatever [m] did when it returned, [u] takes back, from any ledger. *)
Definition undone_by {A} (m : M Ledger A) (u : M Ledger unit) : Prop :=
  ∀ l x l', m l = (Ok x, l') → ∃ d db,
    shift d db 0 l l' ∧ ∀ k, ∃ k', u k = (Ok tt, k') ∧ shift (λ a, - d a) (- db) 0 k k'.

Lemma undone_ret {A} (x : A) : undone_by (mret x) (mret tt).
Proof.
  intros l y l' [= _ <-]. exists (λ _, 0), 0. split; [apply shift_id|].
  intros k. exists k. split; [done|apply shift_id].
Qed.
Lemma undone_bind {A B} (m : M Ledger A) (f : A → M Ledger B) u1 u2 :
  undone_by m u1 → (∀ x, undone_by (f x) u2) → undone_by (m ≫= f) (_ ← u2; u1).
Proof.
  intros H1 H2 l y l'. unfold mbind, M_bind. destruct (m l) as [[x|e] l1] eqn:Em; [|done]. intros Ef.
  destruct (H1 _ _ _ Em) as (d1 & b1 & Hs1 & Hu1). destruct (H2 x _ _ _ Ef) as (d2 & b2 & Hs2 & Hu2).
  exists (λ a, d1 a + d2 a), (b1 + b2). split; [by eapply shift_trans|].
  intros k. destruct (Hu2 k) as (k1 & -> & Hk1). destruct (Hu1 k1) as (k2 & Hr & Hk2). exists k2. split; [exact Hr|].
  eapply shift_trans; [exact Hk1|exact Hk2|intros; cbn beta; lia|lia|lia].
Qed.
Lemma undone_mono {A} (m : M Ledger A) u u' : undone_by m u → (∀ k, u k = u' k) → undone_by m u'.
Proof.
  intros Hm Hu l x l' Hrun. destruct (Hm l x l' Hrun) as (d & db & Hs & Hk). exists d, db. split; [done|].
  intros k. rewrite <-Hu. apply Hk.
Qed.

Section Ledger.
Context `{C : Crypto} `{Cfg : ChainConfig}.

(** A payment from one account to another *)
Lemma undone_pay a b n k (x : Z) :
  undone_by (_ ← debit a n; _ ← credit b k; mret x) (_ ← rollback_debit b k; credit a n).
Proof.
  intros l y l'. unfold mbind at 1, M_bind at 1. rewrite debit_run. destruct (Z.ltb_spec n 0); [done|].
  destruct (_ && _); [done|]. unfold mbind, M_bind. rewrite credit_run. destruct (Z.ltb_spec k 0); [done|].
  intros [= _ <-]. eexists _, _. split; [eapply shift_trans; [apply shift_debit|apply shift_credit|done..]|].
  intros q. rewrite rollback_debit_run, credit_run. destruct (Z.ltb_spec n 0); [lia|]. eexists. split; [done|].
  eapply shift_trans; [by apply (shift_rollback b k)|apply shift_credit|..]; cbn beta; intros; lia.
Qed.

Lemma undone_fee b i tx : index b = i → undone_by (charge_fee b i tx) (undo_fee b tx).
Proof.
  intros <-. unfold charge_fee, undo_fee. destruct (_ <=? index b).
  - destruct (0 <? weight_of tx); [apply undone_pay|apply undone_ret].
  - destruct (Z.ltb_spec 0 (legacy_fee tx)) as [Hf|]; [|apply undone_ret]. set (fee := legacy_fee tx) in *.
    pose proof (Z.div_pos fee 2 ltac:(lia) ltac:(lia)) as Hh.
    intros l y l'. unfold mbind at 1, M_bind at 1. rewrite debit_run. destruct (Z.ltb_spec fee 0); [lia|].
    destruct (_ && _); [done|]. unfold mbind, M_bind, modify. rewrite credit_run.
    destruct (Z.ltb_spec (fee / 2) 0); [lia|]. intros [= _ <-]. eexists _, _. split.
    + eapply shift_trans; [eapply shift_trans; [apply shift_debit|apply shift_credit|done..]|apply shift_burn|done..].
    + intros k. unfold when, mbind, M_bind, modify. rewrite rollback_debit_run, credit_run.
      destruct (Z.ltb_spec fee 0); [lia|]. eexists. split; [done|].
      eapply shift_trans; [eapply shift_trans; [by apply (shift_rollback (validator b) (fee / 2))|apply (shift_burn (- (fee - fee / 2)))|done..]
        |apply shift_credit|..]; cbn beta; intros; lia.
Qed.

Lemma undone_value tx : undone_by (move_value tx) (undo_value tx).
Proof.
  assert (undone_by (amount ← lift (jget_int (payload tx) "amount" 0); when (0 <? amount) (debit (sender tx) amount))
            (amount ← lift (jget_int (payload tx) "amount" 0); when (0 <? amount) (credit (sender tx) amount))) as Hstake.
  { intros l y l'. unfold mbind, M_bind, lift. destruct (jget_int _ _ _) as [n|]; [|done].
    unfold when. destruct (Z.ltb_spec 0 n); [|apply undone_ret]. rewrite debit_run. destruct (Z.ltb_spec n 0); [lia|].
    destruct (_ && _); [done|]. intros [= _ <-]. eexists _, _. split; [apply shift_debit|].
    intros k. rewrite credit_run. destruct (Z.ltb_spec n 0); [lia|]. eexists. split; [done|].
    eapply shift_trans; [apply shift_id|apply shift_credit|..]; cbn beta; intros; lia. }
  unfold move_value, undo_value. destruct (tx_type tx); try apply undone_ret; try exact Hstake.
  intros l y l'. unfold mbind at 1, M_bind at 1, lift. destruct (jindex_int _ _) as [n|] eqn:En; [|done].
  unfold mbind, M_bind. rewrite debit_run. destruct (Z.ltb_spec n 0); [done|]. destruct (_ && _); [done|].
  rewrite credit_run. destruct (Z.ltb_spec n 0); [done|]. intros [= _ <-]. eexists _, _. split.
  - eapply shift_trans; [apply shift_debit|apply shift_credit|done..].
  - intros k. unfold lift. rewrite rollback_debit_run, credit_run. destruct (Z.ltb_spec n 0); [lia|].
    eexists. split; [done|].
    eapply shift_trans; [by apply (shift_rollback (recipient tx) n)|apply shift_credit|..]; cbn beta; intros; lia.
Qed.

Lemma settle_undone b tx l fee l' : settle b (index b) tx l = (Ok fee, l') →
  if (0 <? index b) && financial_active l
  then ∃ d db, shift d db 0 l l' ∧ ∀ k, ∃ k', undo_settle b tx k = (Ok tt, k') ∧ shift (λ a, - d a) (- db) 0 k k'
  else l' = l.
Proof.
  unfold settle, get. unfold mbind at 1, M_bind at 1. destruct (_ && _); [|by intros [= _ <-]].
  intros Hrun. refine (undone_bind (charge_fee b (index b) tx) (λ fee, _ ← move_value tx; mret fee) (undo_fee b tx) (undo_value tx) _ _ l fee l' Hrun).
  - by apply undone_fee.
  - intros x. eapply undone_mono; [apply (undone_bind (move_value tx) (λ _, mret x) (undo_value tx) (mret tt))|].
    + apply undone_value.
    + intros _. apply undone_ret.
    + intros k. unfold mbind, M_bind, mret, M_ret. reflexivity.
Qed.

(** The figures the ledger's checks look at *)
Definition core (s : Chain) : gmap string Z * Z * Z * bool :=
  (balances (ledger s), total_burned (ledger s), total_minted (ledger s), financial_active (ledger s)).
Lemma core_shift s s' : core s = core s' → shift (λ _, 0) 0 0 (ledger s) (ledger s').
Proof. intros [= H1 H2 H3 H4]. split; unfold bal; rewrite ?H1, ?H2, ?H3, ?H4; intros; lia || done. Qed.

Lemma core_commission f : fixes core (on ledger (modify (set validator_commission f))).
Proof. done. Qed.
Lemma core_distributions f : fixes core (on ledger (modify (set last_epoch_distributions f))).
Proof. done. Qed.
#[local] Hint Resolve core_commission core_distributions : fixes.
Lemma core_apply_type i tx : fixes core (apply_type i tx).
Proof.
  pose proof (frame_evidence core tx i ltac:(done) ltac:(done)).
  pose proof (frame_revoke_key core (tx_id tx) tx ltac:(done) ltac:(done) ltac:(done)).
  unfold apply_type, apply_register_validator, set_commission. destruct (tx_type tx); auto 20 with fixes.
Qed.

Lemma apply_tx_core b i n tx s a s' : apply_tx b i n tx s = (Ok a, s') →
  ∃ fee L, settle b i tx (ledger s) = (Ok fee, L) ∧ shift (λ _, 0) 0 0 L (ledger s').
Proof.
  unfold apply_tx. unfold mbind, M_bind. unfold on at 1, zoom at 1, modify at 1.
  cbv beta iota. unfold on at 1, zoom at 1, modify at 1. cbv beta iota. unfold on at 1, zoom at 1.
  set (s0 := set cons _ _). change (ledger s0) with (ledger s).
  destruct (settle b i tx (ledger s)) as [[fee|e] L]; [|done]. set (s1 := set ledger _ s0).
  pose proof (core_apply_type i tx s1) as Hc. destruct (apply_type i tx s1) as [[r|e] s2]; [|done].
  unfold get, lift. destruct (build_tx_events s2 tx i); [|done]. intros [= _ <-].
  exists fee, L. split; [done|]. change L with (ledger s1). apply core_shift. by rewrite <-Hc.
Qed.

(** What applying the transactions did to the ledger, undoing them in the
    reverse order takes back from any ledger. *)
Lemma apply_txs_undone b n txs s l s' :
  (0 <? index b) && financial_active (ledger s) = true →
  apply_txs b (index b) n txs s = (Ok l, s') →
  ∃ d db, shift d db 0 (ledger s) (ledger s') ∧
    ∀ k, ∃ k', mfor (undo_settle b) (reverse txs) k = (Ok tt, k') ∧ shift (λ a, - d a) (- db) 0 k k'.
Proof.
  revert n s l s'. induction txs as [|tx txs IH]; intros n s l s' Hact; cbn [apply_txs].
  { intros [= _ <-]. exists (λ _, 0), 0. split; [apply shift_id|]. intros k. exists k. split; [done|apply shift_id]. }
  unfold mbind at 1, M_bind at 1. destruct (apply_tx b (index b) n tx s) as [[a|e] s1] eqn:E1; [|done].
  unfold mbind, M_bind. destruct (apply_txs b (index b) (n + 1) txs s1) as [[l1|e] s2] eqn:E2; [|done].
  intros [= _ <-]. apply apply_tx_core in E1 as (fee & L & Hset & Hsh).
  apply settle_undone in Hset. rewrite Hact in Hset. destruct Hset as (d1 & b1 & Hs1 & Hu1).
  destruct (IH (n + 1) s1 l1 s2) as (d2 & b2 & Hs2 & Hu2); [|done|].
  { by rewrite (sh_active _ _ _ _ _ Hsh), (sh_active _ _ _ _ _ Hs1). }
  exists (λ a, d1 a + d2 a), (b1 + b2). split.
  - eapply shift_trans; [eapply shift_trans; [exact Hs1|exact Hsh|done..]|exact Hs2|..]; cbn beta; intros; lia.
  - intros k. destruct (Hu2 k) as (k1 & Hr1 & Hk1). destruct (Hu1 k1) as (k2 & Hr2 & Hk2). exists k2. split.
    + rewrite reverse_cons, mfor_app. unfold mbind, M_bind. rewrite Hr1. cbn [mfor]. unfold mbind, M_bind. by rewrite Hr2.
    + eapply shift_trans; [exact Hk1|exact Hk2|..]; cbn beta; intros; lia.
Qed.

(** ** The block *)

(** The part of [append_block_inner] that changes balances: up to the reward *)
Definition settle_block (b : Block) : M Chain (list Receipt * list event) :=
  i ← gets (λ s, height s + 1);
  _ ← open_block b;
  epoch_events ← begin_block i;
  applied ← apply_txs b i 0 (transactions b);
  let failed := ap_tx_id <$> filter (λ a, ap_failed a = true) applied in
  block_receipts ← on recs (record_receipts i failed applied);
  reward_events ← on ledger (apply_reward b i);
  mret (block_receipts, epoch_events ++ reward_events).
(** The rest only stores, checks the roots and prunes. *)
Definition finish_block (b : Block) (i : Z) (x : list Receipt * list event) : M Chain unit :=
  _ ← on recs (modify (store_block_events i x.2));
  _ ← seal_receipts b x.1;
  _ ← seal_state b i;
  _ ← prune_history i;
  update_finality i.
Lemma append_block_inner_settle b s :
  append_block_inner b s = (i ← gets (λ s, height s + 1); x ← settle_block b; finish_block b i x) s.
Proof.
  unfold append_block_inner, settle_block, finish_block, mbind, M_bind, gets, mret, M_ret. cbv beta iota.
  repeat (match goal with |- context [match ?m with (_, _) => _ end] => destruct m as [[?|?] ?] end; [|done]; cbv beta iota).
  done.
Qed.
Lemma core_finish_block b i x : fixes core (finish_block b i x).
Proof.
  unfold finish_block, prune_history. pose proof (frame_update_finality core i ltac:(done)).
  pose proof (frame_seal_state core b i ltac:(done)). pose proof (λ rs, frame_seal_receipts core b rs ltac:(done)).
  assert (∀ n, fixes core (on ledger (modify (prune_distributions n)))) by done. auto 20 with fixes.
Qed.

(** No epoch ends and no stake matures at height [i]. *)
Record calm (s : Chain) (i : Z) : Prop := mkCalm {
  cm_positive : 0 < i;
  cm_inside : i mod EPOCH_LENGTH ≠ 0;
  cm_epoch : current_epoch (staking s) = i / EPOCH_LENGTH;
  cm_mature : Forall (λ e, i < ub_release e) (unbonding (staking s)) }.

Lemma release_none fin i l L : Forall (λ e, i < ub_release e) l → release_matured fin i l L = (Ok l, L).
Proof.
  intros Hl. induction Hl as [|e l He Hl IH]; [done|]. cbn [release_matured].
  destruct (Z.leb_spec (ub_release e) i); [lia|]. unfold mbind, M_bind. by rewrite IH.
Qed.
Lemma begin_block_calm s i : calm s i → begin_block i s = (Ok [], s).
Proof.
  intros [Hp Hin Hep Hm]. assert (process_mature_unbondings i s = (Ok tt, s)) as Hmat.
  { unfold process_mature_unbondings, get, on, zoom, mbind, M_bind. rewrite release_none by done.
    by destruct s as [? ? ? ? ? ? [] ? ? ? ? ?]. }
  assert (check_epoch_transition i s = (Ok tt, s)) as Hep'.
  { unfold check_epoch_transition, get, mbind, M_bind. rewrite Hep, Z.ltb_irrefl.
    destruct (Z.eqb_spec i 0); [lia|]. done. }
  unfold begin_block, mbind, M_bind. rewrite Hmat. cbv beta iota. unfold gets. rewrite Hep'. cbv beta iota.
  by rewrite Z.ltb_irrefl.
Qed.

Lemma reward_again m i : m + 2 * INITIAL_BLOCK_REWARD <= MAX_SUPPLY →
  calc_block_reward (m + calc_block_reward m i) i = calc_block_reward m i.
Proof.
  intros Hm. unfold calc_block_reward. destruct (Z.leb_spec i 0) as [|Hi]; [done|].
  assert (Z.shiftr INITIAL_BLOCK_REWARD (i / HALVING_INTERVAL) <= INITIAL_BLOCK_REWARD) as Hle; [|lia].
  assert (0 <= i / HALVING_INTERVAL) as Hk by (apply Z.div_pos; [lia|by vm_compute]).
  rewrite Z.shiftr_div_pow2 by done. assert (0 < 2 ^ (i / HALVING_INTERVAL)) by lia.
  apply Z.div_le_upper_bound; [done|]. assert (0 < INITIAL_BLOCK_REWARD) by by vm_compute. nia.
Qed.

(** The reward, done and undone *)
Lemma reward_undone b L es L' : 0 < index b → financial_active L = true →
  total_minted L + 2 * INITIAL_BLOCK_REWARD <= MAX_SUPPLY →
  apply_reward b (index b) L = (Ok es, L') →
  ∃ d r, shift d 0 r L L' ∧
    ∀ k, total_minted k = total_minted L' → ∃ k', undo_reward b k = (Ok tt, k') ∧ shift (λ a, - d a) 0 (- r) k k'.
Proof.
  intros Hi Hact Hm. pose proof (reward_again (total_minted L) (index b) Hm) as Hag.
  unfold apply_reward, undo_reward, get. unfold mbind at 1, M_bind at 1. rewrite Hact, (proj2 (Z.ltb_lt 0 _) Hi).
  cbn [andb]. set (r := calc_block_reward (total_minted L) (index b)) in *.
  destruct (Z.ltb_spec 0 r) as [Hr|Hr].
  - unfold mbind, M_bind, modify, mret, M_ret. rewrite credit_run. destruct (Z.ltb_spec r 0); [lia|]. intros [= _ <-].
    eexists _, r. split.
    + eapply shift_trans; [apply (shift_credit (validator b) r)| |..].
      * split; cbn; intros; [symmetry; apply Z.add_0_r|symmetry; apply Z.add_0_r|reflexivity|done].
      * intros. symmetry. apply Z.add_0_r.
      * done.
      * done.
    + intros k Hk. cbn in Hk. unfold mbind, M_bind. rewrite Hk, Hag. unfold when. rewrite (proj2 (Z.ltb_lt 0 r) Hr).
      rewrite rollback_debit_run. eexists. split; [done|].
      eapply shift_trans; [apply (shift_rollback (validator b) r); lia| |..].
      * split; cbn; intros; [symmetry; apply Z.add_0_r|symmetry; apply Z.add_0_r|reflexivity|done].
      * intros. symmetry. apply Z.add_0_r.
      * done.
      * done.
  - intros [= _ <-]. exists (λ _, 0), 0. split; [apply shift_id|].
    intros k Hk. exists k. unfold mbind, M_bind. rewrite Hk. fold r. unfold when. destruct (Z.ltb_spec 0 r); [lia|].
    split; [done|apply shift_id].
Qed.

Lemma apply_txs_idle b n txs s l s' :
  (0 <? index b) && financial_active (ledger s) = false →
  apply_txs b (index b) n txs s = (Ok l, s') → shift (λ _, 0) 0 0 (ledger s) (ledger s').
Proof.
  revert n s l s'. induction txs as [|tx txs IH]; intros n s l s' Hact; cbn [apply_txs].
  { intros [= _ <-]. apply shift_id. }
  unfold mbind at 1, M_bind at 1. destruct (apply_tx b (index b) n tx s) as [[a|e] s1] eqn:E1; [|done].
  unfold mbind, M_bind. destruct (apply_txs b (index b) (n + 1) txs s1) as [[l1|e] s2] eqn:E2; [|done].
  intros [= _ <-]. apply apply_tx_core in E1 as (fee & L & Hset & Hsh).
  apply settle_undone in Hset. rewrite Hact in Hset. subst L.
  eapply shift_trans; [exact Hsh|eapply IH; [|exact E2]|done..]. by rewrite (sh_active _ _ _ _ _ Hsh).
Qed.

(** What [settle_block] did to the ledger is what [undo_balances] takes back. *)
Lemma settle_block_undone b s x s1 :
  index b = height s + 1 → calm s (index b) → total_minted (ledger s) + 2 * INITIAL_BLOCK_REWARD <= MAX_SUPPLY →
  settle_block b s = (Ok x, s1) →
  ∀ k, core k = core s1 → ∃ L, undo_balances b (ledger k) = (Ok tt, L) ∧ shift (λ _, 0) 0 0 (ledger s) L.
Proof.
  intros Hidx Hcalm Hm Hrun k Hk. apply core_shift in Hk. pose proof (cm_positive _ _ Hcalm) as Hpos.
  unfold settle_block in Hrun. unfold mbind at 1, M_bind at 1, gets in Hrun. rewrite <-Hidx in Hrun.
  unfold mbind at 1, M_bind at 1 in Hrun. unfold open_block, modify in Hrun. set (s0 := set idx _ _) in Hrun.
  unfold mbind at 1, M_bind at 1 in Hrun. rewrite (begin_block_calm s0) in Hrun by (destruct Hcalm; by split).
  unfold mbind at 1, M_bind at 1 in Hrun.
  destruct (apply_txs b (index b) 0 (transactions b) s0) as [[applied|e] s2] eqn:Etxs; [|done].
  unfold mbind, M_bind, on, zoom in Hrun. destruct (record_receipts _ _ _ _) as [[rs|e] R]; [|done]. cbv beta iota in Hrun.
  change (ledger (set recs _ s2)) with (ledger s2) in Hrun.
  destruct (apply_reward b (index b) (ledger s2)) as [[es|e] L3] eqn:Erew; [|done]. injection Hrun as _ <-.
  change (ledger (set ledger _ _)) with L3 in Hk. unfold undo_balances, get. unfold mbind at 1, M_bind at 1.
  destruct ((0 <? index b) && financial_active (ledger s0)) eqn:Hact.
  - apply andb_prop in Hact as Hact'. destruct Hact' as [Hb Hfa].
    destruct (apply_txs_undone b 0 (transactions b) s0 applied s2 Hact Etxs) as (d & db & Hs & Hu).
    destruct (reward_undone b (ledger s2) es L3) as (d' & r & Hs' & Hu'); [done|by rewrite (sh_active _ _ _ _ _ Hs)| |done|].
    { rewrite (sh_minted _ _ _ _ _ Hs). change (ledger s0) with (ledger s). lia. }
    rewrite <-(sh_active _ _ _ _ _ Hk), (sh_active _ _ _ _ _ Hs'), (sh_active _ _ _ _ _ Hs), Hact.
    unfold when. destruct (Hu' (ledger k)) as (k1 & Hr1 & Hk1).
    { pose proof (sh_minted _ _ _ _ _ Hk). lia. }
    destruct (Hu k1) as (k2 & Hr2 & Hk2). exists k2. split; [unfold mbind, M_bind; by rewrite Hr1|].
    change (ledger s) with (ledger s0).
    destruct Hk as [A1 A2 A3 A4], Hs as [B1 B2 B3 B4], Hs' as [C1 C2 C3 C4], Hk1 as [D1 D2 D3 D4], Hk2 as [E1 E2 E3 E4].
    split; [|lia|lia|congruence].
    intros a. specialize (A1 a). specialize (B1 a). specialize (C1 a). specialize (D1 a). specialize (E1 a). cbn beta in *. lia.
  - pose proof (apply_txs_idle b 0 (transactions b) s0 applied s2 Hact Etxs) as Hs.
    assert (L3 = ledger s2) as ->.
    { unfold apply_reward, get in Erew. unfold mbind at 1, M_bind at 1 in Erew.
      rewrite (sh_active _ _ _ _ _ Hs), Hact in Erew. by injection Erew as _ ->. }
    rewrite <-(sh_active _ _ _ _ _ Hk), (sh_active _ _ _ _ _ Hs), Hact. exists (ledger k). split; [done|].
    change (ledger s) with (ledger s0).
    destruct Hk as [A1 A2 A3 A4], Hs as [B1 B2 B3 B4]. split; [|lia|lia|congruence].
    intros a. specialize (A1 a). specialize (B1 a). cbn beta in *. lia.
Qed.

#[local] Hint Extern 1 (fixes _ (modify _)) => (apply fixes_modify; intros; reflexivity) : fixes.
Lemma core_undo_tx i tx : fixes core (undo_tx i tx).
Proof.
  unfold undo_tx, undo_type, undo_register_validator, undo_revoke_key. destruct (tx_type tx); auto 20 with fixes.
Qed.
Lemma core_recount tx : fixes core (recount_nonce tx).
Proof. intros s. unfold recount_nonce, modify. by destruct (get_txs_by_sender s (sender tx)). Qed.
Lemma core_undo_trie i : fixes core (undo_trie i).
Proof. pose proof (frame_rebuild core ltac:(done)). unfold undo_trie. auto 20 with fixes. Qed.
Lemma core_undo_tip : fixes core undo_tip.
Proof. unfold undo_tip. auto 20 with fixes. Qed.
#[local] Hint Resolve core_undo_tx core_recount core_undo_trie core_undo_tip : fixes.

(** After the balances a reversal inside an epoch leaves the ledger alone. *)
Lemma rollback_block_core b s L :
  index b mod EPOCH_LENGTH ≠ 0 → undo_balances b (ledger s) = (Ok tt, L) →
  shift (λ _, 0) 0 0 L (ledger (rollback_block b s).2).
Proof.
  intros Hi HL. unfold rollback_block. unfold mbind at 1, M_bind at 1, on at 1, zoom at 1, modify at 1.
  cbv beta iota. unfold mbind at 1, M_bind at 1, on at 1, zoom at 1.
  change (ledger (set recs _ s)) with (ledger s). rewrite HL. set (s1 := set ledger _ _).
  change L with (ledger s1) at 1. apply core_shift. symmetry.
  set (rest := mbind (M := M Chain) _ _). assert (fixes core rest) as Hr; [|apply Hr].
  subst rest. unfold undo_epoch. destruct (Z.eqb_spec (index b mod EPOCH_LENGTH) 0); [done|]. rewrite andb_false_r.
  unfold when. auto 20 with fixes.
Qed.

(** A block that got as far as the reward is taken back exactly, from any
    state with the same figures. *)
Lemma rollback_settled b s x s1 k :
  index b = height s + 1 → calm s (index b) → total_minted (ledger s) + 2 * INITIAL_BLOCK_REWARD <= MAX_SUPPLY →
  settle_block b s = (Ok x, s1) → core k = core s1 →
  shift (λ _, 0) 0 0 (ledger s) (ledger (rollback_block b k).2).
Proof.
  intros Hi Hc Hm Hrun Hk. destruct (settle_block_undone b s x s1 Hi Hc Hm Hrun k Hk) as (L & HL & Hs).
  eapply shift_trans; [exact Hs|by apply rollback_block_core; [apply Hc|]|done..].
Qed.
End Ledger.

(** *** Rolling back what was never applied *)

Section Rejected.
Context `{C : Crypto} `{Cfg : ChainConfig}.
Context (b : Block) (s : Chain) (tx : Transaction) (fee n : Z) (L1 : Ledger).
Context (Hi : index b = height s + 1) (Hc : calm s (index b)) (Htx : transactions b = [tx]).
Context (Hty : tx_type tx = TRANSFER) (Hn : jindex_int (payload tx) "amount" = Ok n) (Hpos : 0 < n).
Context (Hact : financial_active (ledger s) = true).
Context (Hfee : charge_fee b (index b) tx (ledger s) = (Ok fee, L1)) (Hpoor : bal L1 (sender tx) < n).

(** The application stops at the debit, with the fee taken. *)
Lemma overdrawn_stops :
  ∃ s1, append_block_inner b s = (Raise (ValueError "insufficient balance"), s1) ∧ ledger s1 = L1.
Proof using Hi Hc Htx Hty Hn Hpos Hact Hfee Hpoor.
  pose proof (cm_positive _ _ Hc) as Hi0. unfold append_block_inner.
  unfold mbind at 1, M_bind at 1, gets. rewrite <-Hi. unfold mbind at 1, M_bind at 1, open_block, modify.
  set (s0 := set idx _ _). unfold mbind at 1, M_bind at 1. rewrite (begin_block_calm s0) by (destruct Hc; by split).
  unfold mbind at 1, M_bind at 1. rewrite Htx. cbn [apply_txs].
  assert (settle b (index b) tx (ledger s) = (Raise (ValueError "insufficient balance"), L1)) as Hset.
  { unfold settle, get. unfold mbind at 1, M_bind at 1. rewrite Hact, (proj2 (Z.ltb_lt 0 _) Hi0). cbn [andb].
    unfold mbind at 1, M_bind at 1. rewrite Hfee. unfold move_value. rewrite Hty.
    unfold mbind, M_bind, lift. rewrite Hn, debit_run. destruct (Z.ltb_spec n 0); [lia|].
    destruct (Z.eqb_spec n 0); [lia|]. destruct (Z.ltb_spec (bal L1 (sender tx)) n); [done|lia]. }
  unfold apply_tx. unfold mbind, M_bind, on, zoom, modify. cbv beta iota.
  change (ledger (set cons _ (set idx _ s0))) with (ledger s). rewrite Hset. eexists. split; [done|]. done.
Qed.

(** The reversal takes back the reward and the transfer as well. *)
Lemma overdrawn_undone : total_minted (ledger s) <= MAX_SUPPLY → 
  let r := calc_block_reward (total_minted (ledger s)) (index b) in
  ∃ L, undo_balances b L1 = (Ok tt, L) ∧
    shift (λ a, (if decide (sender tx = a) then n else 0) - (if decide (recipient tx = a) then n else 0)
                - (if decide (validator b = a) then r else 0)) 0 (- r) (ledger s) L.
Proof using Hi Hc Htx Hty Hn Hpos Hact Hfee.
  intros Hmax r. pose proof (cm_positive _ _ Hc) as Hi0. pose proof (reward_nonneg (total_minted (ledger s)) (index b)) as Hr.
  fold r in Hr. destruct (undone_fee b (index b) tx eq_refl _ _ _ Hfee) as (d & db & Hs & Hu).
  unfold undo_balances, get. unfold mbind at 1, M_bind at 1. rewrite (sh_active _ _ _ _ _ Hs), Hact, (proj2 (Z.ltb_lt 0 _) Hi0).
  cbn [andb]. unfold when. rewrite Htx.
  assert (∃ k, undo_reward b L1 = (Ok tt, k) ∧
    shift (λ a, - (if decide (validator b = a) then r else 0)) 0 (- r) L1 k) as (k1 & Hk1 & Hs1).
  { unfold undo_reward, get. unfold mbind at 1, M_bind at 1. rewrite (sh_minted _ _ _ _ _ Hs), Z.add_0_r. fold r.
    unfold when. destruct (Z.ltb_spec 0 r).
    - unfold mbind, M_bind, modify. rewrite rollback_debit_run. eexists. split; [done|].
      eapply shift_trans; [by apply (shift_rollback (validator b) r)| |..].
      + split; cbn; intros; [symmetry; apply Z.add_0_r|symmetry; apply Z.add_0_r|reflexivity|done].
      + intros. symmetry. apply Z.add_0_r.
      + done.
      + done.
    - replace r with 0 by lia. exists L1. split; [done|]. split; [|lia..|done]. intros a. case_decide; lia. }
  assert (∃ k', undo_settle b tx k1 = (Ok tt, k') ∧
    shift (λ a, (if decide (sender tx = a) then n else 0) - (if decide (recipient tx = a) then n else 0) - d a)
      (- db) 0 k1 k') as (k2 & Hk2 & Hs2).
  { unfold undo_settle, undo_value. rewrite Hty. unfold mbind, M_bind, lift.
    rewrite Hn, rollback_debit_run, credit_run. destruct (Z.ltb_spec n 0); [lia|].
    match goal with |- context [undo_fee b tx ?k] => destruct (Hu k) as (k3 & -> & Hs3) end.
    exists k3. split; [done|]. eapply shift_trans; [eapply shift_trans;
      [apply (shift_rollback (recipient tx) n); lia|apply (shift_credit (sender tx) n)|done..]|exact Hs3|..];
      cbn beta; intros; lia. }
  exists k2. split.
  - unfold mbind at 1, M_bind at 1. rewrite Hk1. change (reverse [tx]) with [tx]. cbn [mfor].
    unfold mbind, M_bind. by rewrite Hk2.
  - eapply shift_trans; [eapply shift_trans; [exact Hs|exact Hs1|done..]|exact Hs2|..]; cbn beta; intros; lia.
Qed.
End Rejected.

(** ** Properties *)


(** A block with a transfer its sender cannot pay is refused, but refusing
    it changes the balances: the reversal assumes the whole block was applied.
    The sender gains the amount it never paid, the recipient loses it, and the
    validator loses a reward it never got, which also leaves the minted supply. *)
Lemma rejected_transfer_corrupts `{C : Crypto} `{Cfg : ChainConfig} (b : Block) (s : Chain)
  (tx : Transaction) (fee n : Z) (L1 : Ledger)
  (Hi : index b = height s + 1) (Hc : calm s (index b)) (Hm : total_minted (ledger s) <= MAX_SUPPLY)
  (Htx : transactions b = [tx]) (Hty : tx_type tx = TRANSFER)
  (Hn : jindex_int (payload tx) "amount" = Ok n) (Hpos : 0 < n)
  (Hact : financial_active (ledger s) = true)
  (Hfee : charge_fee b (index b) tx (ledger s) = (Ok fee, L1)) (Hpoor : bal L1 (sender tx) < n) :
  let s' := (append_block b s).2 in
  let reward := calc_block_reward (total_minted (ledger s)) (index b) in
  (∃ e, (append_block b s).1 = Raise e) ∧
  (∀ a, get_balance s' a = get_balance s a
     + (if decide (sender tx = a) then n else 0) - (if decide (recipient tx = a) then n else 0)
     - (if decide (validator b = a) then reward else 0)) ∧
  total_minted (ledger s') = total_minted (ledger s) - reward.
Proof.
  destruct (overdrawn_stops b s tx fee n L1) as (s1 & Hrun & HL); [done..|].
  destruct (overdrawn_undone b s tx fee n L1) as (L & HL' & Hs); [done..|].
  rewrite <-HL in HL'. pose proof (rollback_block_core b s1 L ltac:(apply Hc) HL') as Hb.
  unfold append_block. rewrite Hrun. set (rest := mbind _ (rollback_block b)).
  assert ((∃ e, (rest s1).1 = Raise e) ∧ core (rest s1).2 = core (rollback_block b s1).2) as [He Hcore].
  { subst rest. unfold mbind, M_bind. destruct (rollback_block b s1) as [[[]|e'] s2]; (split; [eexists; reflexivity|reflexivity]). }
  split; [done|]. apply core_shift in Hcore. destruct Hs as [A1 A2 A3 A4], Hb as [B1 B2 B3 B4], Hcore as [C1 C2 C3 C4].
  split; [|lia]. intros a. specialize (A1 a). specialize (B1 a). specialize (C1 a). unfold get_balance, bal in *. cbn beta in *. lia.
Qed.

(** *** Witnesses *)

Lemma calm_funded : calm Funded.chain 1.
Proof. split; [lia|by vm_compute|by vm_compute|constructor]. Qed.


