(* ===== verification/Persist.v ===== *)
(** * Saving and loading a chain

    [core/persistence.py], with [migrate_json_to_sqlite] of [core/store.py],
    [_persist_balances_after_block] of [core/ledger.py] and [prune] of
    [core/blockchain.py].  Loading fills the in-memory state of a chain from
    the tables of the store; the blocks stay in the database, so the list of
    blocks in memory is empty.

    The statements by which loading indexes a transaction are those of block
    application ([Apply.v]), except for validators, revocations and unstakes. *)
From S2P Require Import Store Prelude PyStr Json JsonText Config Crypto StateTrie Wallet Transaction Fees Block Receipt ChainState Ledger StateOps Staking Consensus ReceiptOps Apply Rollback.
Open Scope Z_scope.

Section Persist.
Context `{C : Crypto} `{Cfg : ChainConfig} `{F : PyFloat}.

(** ** Signatures of loaded blocks *)

(** The validators known so far, against which the next block is checked *)
Definition learn_tx (vals : gmap string string) (tx : Transaction) : result (gmap string string) :=
  match tx_type tx with
  | REGISTER_VALIDATOR =>
      vpk_hex ← jget_str (payload tx) "validator_pubkey";
      vaddr ← jget_str (payload tx) "validator_address";
      if is_empty vpk_hex || is_empty vaddr then Ok vals
      else pk ← fromhex_val (JStr vpk_hex); Ok (<[vaddr := pk]> vals)
  | REVOKE_KEY =>
      Ok (if bool_decide (jget (payload tx) "key_type" JNull = JStr "validator") then delete (sender tx) vals else vals)
  | _ => Ok vals
  end.
Definition learn_validators (vals : gmap string string) (b : Block) : result (gmap string string) :=
  foldl_result learn_tx vals (transactions b).
Definition check_loaded (vals : gmap string string) (b : Block) : result unit :=
  guard (negb (forallb tx_verify (transactions b))) "tx with invalid signature" (
  let pk := get_or vals (validator b) EmptyString in
  guard (negb (is_empty (validator b)) && negb (is_empty pk) && negb (verify_signature b pk))
    "invalid validator signature" (Ok tt)).

(** ** chain.json *)

(** The blocks of the file, each checked against the one before *)
Fixpoint read_json_blocks (l : list JVal) (prev : option Block) (vals : gmap string string) : result (list Block) :=
  match l with
  | [] => Ok []
  | v :: rest =>
      d ← as_dict v;
      b ← block_from_dict d;
      _ ← match prev with
          | None => guard (negb (index b =? 0)) "Genesis block has wrong index" (Ok tt)
          | Some parent =>
              guard (negb (bool_decide (prev_hash b = block_hash parent))) "prev_hash mismatch" (
              guard (negb (index b =? index parent + 1)) "Block index gap" (Ok tt))
          end;
      _ ← check_loaded vals b;
      vals ← learn_validators vals b;
      bs ← read_json_blocks rest (Some b) vals;
      Ok (b :: bs)
  end.
(** [load] without a database: [text] is the content of the file *)
Definition load_json (text : option string) : M Chain bool :=
  match text ≫= loads with
  | Some (JList (v :: l)) =>
      s ← get;
      bs ← lift (read_json_blocks (v :: l) None (validators (cons s)));
      _ ← mfor append_block bs;
      mret true
  | _ => mret false
  end.

(** ** The blocks of the database *)

Definition load_register_validator (tx : Transaction) : M Chain unit :=
  vpk_hex ← lift (jget_str (payload tx) "validator_pubkey");
  vaddr ← lift (jget_str (payload tx) "validator_address");
  when (negb (is_empty vpk_hex) && negb (is_empty vaddr))
    (vpk_bytes ← lift (fromhex_val (JStr vpk_hex));
     _ ← on keys (modify (set validator_registry (<[vaddr := vpk_bytes]>)));
     _ ← on cons (add_validator vaddr vpk_bytes);
     set_commission vaddr tx).
Definition load_revoke_key (tx : Transaction) : M Chain unit :=
  key_type ← lift (jget_str (payload tx) "key_type");
  reason ← lift (jget_str (payload tx) "reason");
  _ ← on keys (modify (set revoked_keys
        (<[revocation_key (sender tx) key_type := mkRevocation (tx_id tx) (timestamp tx) reason]>)));
  when (bool_decide (key_type = "validator"))
    (_ ← on keys (modify (set validator_registry (delete (sender tx))));
     on cons (remove_validator (sender tx))).
(** Only unbondings that are still to be released are kept. *)
Definition load_unstake (store_height i : Z) (tx : Transaction) : M Staking unit :=
  vaddr ← lift (jget_str (payload tx) "validator_address");
  amount ← lift (jget_int (payload tx) "amount" 0);
  when (negb (is_empty vaddr) && (0 <? amount)) (modify (λ st,
    let st' := unstake_step i vaddr (sender tx) amount st in
    if store_height <? i + UNBONDING_PERIOD then st' else st' <| unbonding := unbonding st |>)).
Definition load_tx (store_height i tx_idx : Z) (tx : Transaction) : M Chain unit :=
  _ ← on idx (modify (index_tx i tx_idx tx));
  _ ← on cons (modify (set chain_tx_ids (union {[tx_id tx]})));
  match tx_type tx with
  | NOTARIZE => on idx (apply_notarize (tx_id tx) tx)
  | REGISTER_KEY => on keys (apply_register_key tx)
  | REGISTER_VALIDATOR => load_register_validator tx
  | REVOKE_KEY => load_revoke_key tx
  | STAKE | DELEGATE => on staking (apply_stake tx)
  | UNSTAKE => on staking (load_unstake store_height i tx)
  | _ => mret tt
  end.
Fixpoint load_txs (store_height i tx_idx : Z) (txs : list Transaction) : M Chain unit :=
  match txs with
  | [] => mret tt
  | tx :: rest => _ ← load_tx store_height i tx_idx tx; load_txs store_height i (tx_idx + 1) rest
  end.
Definition load_block (store_height i : Z) (b : Block) : M Chain unit :=
  _ ← modify (λ s, s <| height := i |> <| latest_block := Some b |> <| idx ::= set block_by_hash (<[block_hash b := i]>) |>);
  load_txs store_height i 0 (transactions b).

(** The loop over the indices; [false] when a block is missing or not linked.
    [vals] is [None] when signatures are not verified. *)
Fixpoint load_blocks (st : Store) (store_height : Z) (todo : list Z) (prev : option string) (vals : option (gmap string string))
    : M Chain bool :=
  match todo with
  | [] => mret true
  | i :: rest =>
      b ← lift (Store.get_block st i);
      match b with
      | None => mret false
      | Some b =>
          if match prev with None => negb (index b =? 0) | Some h => negb (bool_decide (prev_hash b = h)) end then mret false
          else
            vals ← match vals with
                   | None => mret None
                   | Some vs => _ ← lift (check_loaded vs b); vs ← lift (learn_validators vs b); mret (Some vs)
                   end;
            _ ← load_block store_height i b;
            load_blocks st store_height rest (Some (block_hash b)) vals
      end
  end.

(** ** The other tables *)

Definition load_registry (st : Store) : M Chain unit :=
  mfor (λ r : string * string,
    s ← get;
    if is_registered_validator s r.1 then mret tt
    else pk ← lift (fromhex_val (JStr r.2));
         _ ← on keys (modify (set validator_registry (<[r.1 := pk]>)));
         on cons (add_validator r.1 pk)) (get_all_validators st).
(** The table of stakes replaces what the blocks gave. *)
Definition add_stake_row (s : Staking) (r : (string * string) * Z) : Staking :=
  s <| stakes := put_stake r.1.2 r.1.1 r.2 (stakes s) |> <| total_stake ::= λ m, <[r.1.2 := get_or m r.1.2 0 + r.2]> m |>.
Definition load_stakes (st : Store) : M Staking unit :=
  modify (λ s, foldl add_stake_row (s <| stakes := [] |> <| total_stake := ∅ |>) (get_all_stakes st)).
(** [[(v[0], v[1]) for v in json.loads(validators_json)]] *)
Definition read_epoch_validators (text : string) : result (list (string * Z)) :=
  match loads text with
  | None => Raise (ValueError "json")
  | Some v =>
      l ← iter_val v;
      mmap (λ v, e ← iter_val v; a ← py_index e 0; n ← py_index e 1; a ← as_str a; n ← as_Z n; Ok (a, n)) l
  end.
Definition load_epoch (r : Z * (Z * string)) : M Staking unit :=
  vs ← lift (read_epoch_validators r.2.2);
  modify (λ s,
    let s := s <| epochs ::= <[r.1 := vs]> |> in
    if current_epoch s <=? r.1 then s <| current_epoch := r.1 |> <| epoch_validators := vs |> else s).
Definition load_slash (e : SlashEvent) : M Staking unit := modify (λ s,
  s <| slashing_events ::= λ l, l ++ [e] |> <| slashed_validators ::= union {[sl_validator e]} |>
    <| processed_evidence ::= union {[sl_validator e]} |>).
(** A slashed validator leaves the consensus or keeps what it has left. *)
Definition reconcile_slashed (v : string) : M Chain unit :=
  s ← get;
  let remaining := get_validator_stake s v in
  if remaining <? MIN_STAKE then
    _ ← on cons (remove_validator v);
    on staking (modify (set epoch_validators (filter (λ e, e.1 ≠ v))))
  else on staking (modify (set epoch_validators (fmap (λ e, if decide (e.1 = v) then (e.1, remaining) else e)))).
Definition load_balances (st : Store) : M Ledger unit :=
  _ ← mfor (λ r : string * Z, modify (set balances (<[r.1 := r.2]>))) (get_all_balances st);
  _ ← modify (λ l, l <| total_minted := get_supply st "total_minted" |> <| total_burned := get_supply st "total_burned" |>);
  modify (λ l, if 0 <? total_minted l then l <| financial_active := true |> else l).

Definition load_receipt (i : Z) (r : Receipt) : M Receipts unit := modify (λ rs,
  rs <| receipts ::= λ d, dset d (r_tx_id r) r |>
     <| events_by_type ::= λ m, foldl (index_event (r_tx_id r)) m (r_events r) |>
     <| events_by_block ::= push i (r_tx_id r) |>).
Definition load_receipts (st : Store) (store_height : Z) : M Receipts unit :=
  mfor (λ i, rs ← lift (get_receipts_for_block st i); mfor (load_receipt i) rs) (zrange 0 (store_height + 1)).
Definition load_holder (tid : string) (e : string * Z) (t : Tokens) : Tokens :=
  update_token_index tid e.1 e.2 (t <| token_balances ::= <[(tid, e.1) := e.2]> |>).
Definition load_token (st : Store) (r : string * Token) : M Tokens unit := modify (λ t,
  foldl (λ t e, load_holder r.1 e t)
    (t <| token_registry ::= <[r.1 := r.2]> |> <| token_by_symbol ::= <[tk_symbol r.2 := r.1]> |>)
    (get_token_holders st r.1)).

(** The root of the rebuilt trie against the one the last block claims *)
Definition check_state_root : M Chain unit :=
  _ ← rebuild_state_trie;
  s ← get;
  match latest_block s with
  | Some b => lift (guard (negb (is_empty (state_root b)) && negb (bool_decide (get_state_root s = state_root b)))
                     "SQLite state integrity check failed: state root mismatch" (Ok tt))
  | None => mret tt
  end.

Definition load_tables (st : Store) (store_height : Z) : M Chain unit :=
  _ ← load_registry st;
  _ ← on staking (load_stakes st);
  _ ← on staking (mfor load_epoch (get_all_epochs st));
  _ ← on staking (mfor load_slash (Store.get_slashing_events st EmptyString));
  slashed ← gets (λ s, slashed_validators (staking s));
  _ ← mfor reconcile_slashed (elements slashed);
  _ ← on ledger (load_balances st);
  _ ← on recs (load_receipts st store_height);
  _ ← on tokens (mfor (load_token st) (get_all_tokens st));
  check_state_root.
Definition load_from_sqlite (st : Store) (verify_signatures : bool) : M Chain bool :=
  _ ← modify (set chain_list (λ _, []));
  let store_height := s_height st in
  if store_height <? 0 then mret false
  else
    s ← get;
    found ← load_blocks st store_height (zrange 0 (store_height + 1)) None
              (if verify_signatures then Some (validators (cons s)) else None);
    if found : bool then _ ← load_tables st store_height; mret true else mret false.

(** ** Writing what a block changed *)

(** The addresses whose balances are written after block [i] *)
Definition affected (s : Chain) (b : Block) (i : Z) (matured_stakers : gset string) : gset string :=
  {[validator b]} ∪ list_to_set (sender <$> transactions b) ∪
  list_to_set (filter (λ a, is_empty a = false) (recipient <$> transactions b)) ∪ matured_stakers ∪
  (if (0 <? EPOCH_LENGTH) && (0 <? i) && (i mod EPOCH_LENGTH =? 0)
   then list_to_set (concat ((λ e, filter (λ a, a ≠ e.1) e.2.*1) <$> stakes (staking s))) else ∅).
Definition persist_balances_after_block (s : Chain) (b : Block) (i : Z) (matured_stakers : gset string) : M Store unit :=
  _ ← mfor (λ a, Store.put_balance a (get_balance s a) true) (elements (affected s b i matured_stakers));
  _ ← put_supply "total_minted" (total_minted (ledger s)) true;
  put_supply "total_burned" (total_burned (ledger s)) true.
(** The end of [_append_block_inner]: receipts and events in one commit *)
Definition persist_receipts (i : Z) (block_receipts : list Receipt) (events : list event) : M Store unit :=
  _ ← mfor (λ r, put_receipt r false) block_receipts;
  _ ← when (negb (bool_decide (events = []))) (put_block_level_events i events false);
  commit.

(** [prune(retention)] of a chain with a store *)
Definition prune (s : Chain) (retention : JVal) : M Store Z :=
  match int_val retention with
  | None => mret 0
  | Some n =>
      if n <? 1 then mret 0
      else if height s <? n then mret 0
      else
        let before_index := height s - n + 1 in
        if before_index <=? 0 then mret 0 else prune_blocks before_index
  end.

(** ** Files *)

(** A data directory: [chain.json], [chain.db] and [chain.json.migrated] *)
Record Disk := mkDisk { f_json : option string; f_db : option Db; f_migrated : option string }.
(** [Blockchain(data_dir)] opens the database, which creates the file. *)
Definition open_data_dir (d : Disk) : Disk := mkDisk (f_json d) (Some (default empty_Db (f_db d))) (f_migrated d).

Definition migrate_block (v : JVal) : M Store unit :=
  d ← lift (as_dict v); b ← lift (block_from_dict d); Store.append_block b.
(** What was committed before an exception stays in the new file. *)
Definition migrate_json_to_sqlite : M Disk unit := λ d,
  match f_json d, f_db d with
  | Some text, None =>
      match loads text with
      | Some (JList (v :: l)) =>
          match mfor migrate_block (v :: l) new_store with
          | (Ok _, st) => (Ok tt, mkDisk None (Some (Store.committed st)) (Some text))
          | (Raise e, st) => (Raise e, mkDisk (Some text) (Some (Store.committed st)) (f_migrated d))
          end
      | _ => (Ok tt, d)
      end
  | _, _ => (Ok tt, d)
  end.
(** [save]: [store] and [chain_list] are those of the object. *)
Definition save (store data_dir : bool) (chain_list : option (list Block)) (d : Disk) : Disk :=
  match chain_list with
  | Some bs => if store || negb data_dir then d
               else mkDisk (Some (print_spaced (JList ((λ b, JObj (block_to_dict b)) <$> bs)))) (f_db d) (f_migrated d)
  | None => d
  end.
(** The object with and without a data directory: [_store is not None], [_chain_list] *)
Definition has_store (data_dir : bool) : bool := data_dir.
Definition memory_list (data_dir : bool) (s : Chain) : option (list Block) := if data_dir then None else Some (chain_list s).

Definition load (data_dir verify_signatures : bool) (d : Disk) (s : Chain) : result bool * (Disk * Chain) :=
  if 0 <=? height s then (Ok true, (d, s))
  else if negb data_dir then (Ok false, (d, s))
  else
    match migrate_json_to_sqlite d with
    | (Raise e, d) => (Raise e, (d, s))
    | (Ok _, d) =>
        let (r, s) := match f_db d with
                      | Some db => load_from_sqlite (mkStore db db (max_idx db)) verify_signatures s
                      | None => load_json (f_json d) s
                      end in (r, (d, s))
    end.
End Persist.
