(* ===== verification/Chain.v ===== *)
(** * The chain: genesis, production, receipt and reorganisation of blocks

    The public operations of [Blockchain] ([core/blockchain.py]) in memory
    mode.  [now] is [int(time.time())], read once per call.  The block object
    [append_block] stores is the one its producer goes on to stamp and sign
    again, so the stamp changes the stored block: [replace_tip] writes it.

    Not represented: after [try_reorg] gave up on a root mismatch, the
    consensus object keeps the dictionary of nonces it had, which the restored
    chain no longer shares. *)
From S2P Require Import Prelude PyStr Json Config Crypto StateTrie Wallet Transaction Fees Block Receipt ChainState Ledger StateOps Staking Consensus ReceiptOps Apply Frames Books TxPool Rollback.
Open Scope Z_scope.

(** [sorted] is stable: an element goes before the first that is not below it. *)
Section Sort.
Context {A : Type} (leb : A → A → bool).
Fixpoint insert_by (x : A) (l : list A) : list A :=
  match l with
  | [] => [x]
  | y :: l' => if leb x y then x :: l else y :: insert_by x l'
  end.
Definition sort_by (l : list A) : list A := foldr insert_by [] l.
End Sort.

(** ** Selecting transactions *)

Section Select.

(** [sender_queues], in the order in which the senders first occur *)
Definition queues (txs : list Transaction) : dict string (list Transaction) :=
  foldl (λ d tx, dset d (sender tx) (dget_or d (sender tx) [] ++ [tx])) [] txs.
Definition nonce_leb (t u : Transaction) : bool := nonce t <=? nonce u.
Definition sorted_queues (txs : list Transaction) : dict string (list Transaction) :=
  (λ q, (q.1, sort_by nonce_leb q.2)) <$> queues txs.

(** [_sender_priority]: the best effective priority of the queue, at least 0 *)
Definition sender_priority (base_fee : Z) (q : list Transaction) : Z :=
  foldl (λ best t,
    if 0 <? weight_of t
    then Z.max best (Z.max 0 (Z.min (max_priority_fee t) (max_fee_per_weight t - base_fee)))
    else best) 0 q.

(** One sender: the loop ends at the first transaction that does not fit. *)
Fixpoint take_fitting (q : list Transaction) (txs : list Transaction) (total_weight : Z)
    : list Transaction * Z :=
  match q with
  | [] => (txs, total_weight)
  | tx :: q' =>
      if MAX_TX_PER_BLOCK <=? Z.of_nat (length txs) then (txs, total_weight)
      else if MAX_BLOCK_WEIGHT <? total_weight + weight_of tx then (txs, total_weight)
      else take_fitting q' (txs ++ [tx]) (total_weight + weight_of tx)
  end.
Definition select_dynamic (base_fee : Z) (pool : list Transaction) : list Transaction :=
  let eligible := filter (λ tx, weight_of tx = 0 ∨ base_fee <= max_fee_per_weight tx) pool in
  let by_priority := sort_by (λ p q, sender_priority base_fee q.2 <=? sender_priority base_fee p.2)
                             (sorted_queues eligible) in
  (foldl (λ acc q, take_fitting q.2 acc.1 acc.2) ([], 0) by_priority).1.
End Select.

Section Chain.
Context `{C : Crypto} `{Cfg : ChainConfig}.

(** What the stored block object has become *)
Definition replace_tip (b : Block) : M Chain unit := modify (λ s,
  s <| chain_list ::= <[Z.to_nat (index b) := b]> |> <| latest_block := Some b |>).
Definition reindex (old_hash new_hash : string) (i : Z) : M Chain unit := modify (λ s,
  s <| idx ::= set block_by_hash (λ m, <[new_hash := i]> (delete old_hash m)) |>).

(** Stamp the roots just computed and sign again. *)
Definition stamp_and_sign (b : Block) (sr rr sk : string) : M Chain Block :=
  let stamped := stamp_roots b sr rr in
  _ ← replace_tip stamped;
  signed ← lift (block_sign stamped sk);
  _ ← reindex (block_hash b) (block_hash signed) (index b);
  _ ← replace_tip signed;
  mret signed.

(** ** Genesis *)

Definition auto_stake (v : string) (st : Staking) : Staking :=
  st <| stakes := put_stake v v MIN_STAKE (stakes st) |> <| total_stake ::= <[v := MIN_STAKE]> |>.
Definition init_chain (now : Z) (validator_address validator_sk validator_pk : string) : M Chain unit :=
  s ← get;
  when (height s <? 0)
    (let pk := if is_empty validator_pk then get_or (validators (cons s)) validator_address EmptyString
               else validator_pk in
     genesis_txs ← lift (if is_empty pk then Ok []
       else reg ← tx_sign (mk_register_validator now validator_address 0 0 0 pk validator_address) validator_sk pk;
            Ok [reg]);
     genesis ← lift (block_sign (block_genesis now validator_address genesis_txs) validator_sk);
     _ ← append_block genesis;
     _ ← when (negb (is_empty validator_pk)) (on staking (modify (auto_stake validator_address)));
     s ← get;
     signed ← stamp_and_sign genesis (hex (trie_root (state_trie (trie s))))
                (default EmptyString (last_receipts_root (trie s))) validator_sk;
     on cons (set_the_genesis_hash (block_hash signed))).

(** ** Production *)

(** The transactions and the base fee of the next block *)
Definition select_txs (s : Chain) (parent : Block) : list Transaction * Z :=
  let next_idx := index parent + 1 in
  if dynamic_active next_idx then
    let base_fee := expected_base_fee next_idx parent in
    (select_dynamic base_fee (tx_pool (pool s)), base_fee)
  else (take (Z.to_nat MAX_TX_PER_BLOCK) (tx_pool (pool s)), 0).

(** The unsigned block, [None] when there is nothing to produce *)
Definition draft_block (now : Z) (s : Chain) (parent : Block) (validator_address : string) : option Block :=
  let (txs, base_fee) := select_txs s parent in
  if bool_decide (txs = []) && negb (dynamic_active (index parent + 1)) then None
  else Some (mkBlock (index parent + 1) (block_hash parent) txs validator_address
               (Z.max now (blk_timestamp parent + 1)) EmptyString base_fee EmptyString EmptyString).

Definition produce_block (now : Z) (validator_address validator_sk : string) : M Chain (option Block) :=
  s ← get;
  if height s <? 0 then mret None
  else match latest_block s with
  | None => raise AttributeError
  | Some parent =>
      expected ← lift (select_validator now s (index parent + 1) None (block_hash parent) None);
      if match expected with
         | Some e => negb (is_empty e) && negb (bool_decide (e = validator_address))
         | None => false
         end then mret None
      else if is_key_revoked s validator_address "signing" then mret None
      else match draft_block now s parent validator_address with
      | None => mret None
      | Some draft =>
          block ← lift (block_sign draft validator_sk);
          verdict ← lift (validate_block now s block (Some parent));
          match verdict with
          | Some _ => mret None
          | None =>
              _ ← append_block block;
              s ← get;
              signed ← stamp_and_sign block
                (default (hex (trie_root (state_trie (trie s)))) (last_state_root (trie s)))
                (default EmptyString (last_receipts_root (trie s))) validator_sk;
              _ ← drain_pool signed;
              mret (Some signed)
          end
      end
  end.

(** ** Blocks from the network *)

(** [except ValueError as exc: return False, str(exc)] *)
Definition refused_on_value_error (m : M Chain unit) (k : M Chain (option string)) : M Chain (option string) :=
  λ s, match m s with
       | (Ok _, s') => k s'
       | (Raise (ValueError msg), s') => (Ok (Some msg), s')
       | (Raise e, s') => (Raise e, s')
       end.

Definition add_block (now : Z) (b : Block) : M Chain (option string) :=
  s ← get;
  if bool_decide (is_Some (block_by_hash (idx s) !! block_hash b)) then mret (Some "already have this block")
  else
    let expected_index := height s + 1 in
    if index b =? expected_index then
      verdict ← lift (validate_block now s b (if 0 <? index b then latest_block s else None));
      match verdict with
      | Some err => mret (Some err)
      | None =>
          if (0 <? index b) && is_empty (state_root b)
          then mret (Some "missing state_root: received blocks must include state_root")
          else refused_on_value_error (append_block b) (_ ← drain_pool b; mret None)
      end
    else if (0 <? index b) && (index b <? expected_index)
    then mret (Some "first-seen wins")
    else mret (Some "out-of-order block").

(** ** Reorganisation *)

(** [chain[start:end]] *)
Definition blocks_range (s : Chain) (start stop : Z) : list Block :=
  take (Z.to_nat (stop - start)) (drop (Z.to_nat start) (chain_list s)).

(** The state saved before the rollback, written back *)
Definition restore_saved (saved : Chain) (fork_start : Z) (saved_chain : list Block) : M Chain unit := modify (λ s,
  s <| ledger := ledger s <| balances := balances (ledger saved) |>
                          <| total_minted := total_minted (ledger saved) |>
                          <| total_burned := total_burned (ledger saved) |> |>
    <| idx := idx s <| sender_nonce := sender_nonce (idx saved) |> |>
    <| staking := staking s <| stakes := stakes (staking saved) |>
                            <| total_stake := total_stake (staking saved) |>
                            <| unbonding := unbonding (staking saved) |> |>
    <| trie := trie s <| state_trie := trie_restore (state_trie (trie s)) (state_trie (trie saved)) |>
                      <| state_snapshots := state_snapshots (trie saved) |> |>
    <| height := height saved |> <| latest_block := latest_block saved |>
    <| tokens := tokens saved |>
    <| chain_list ::= λ l, take (Z.to_nat fork_start) l ++ saved_chain |>).

(** Give a fork up: drop what was applied of it, apply the saved blocks again. *)
Definition give_back (fork_start : Z) (some_applied : bool) (saved_chain : list Block) (msg : string)
    : M Chain (option string) :=
  _ ← when some_applied (_ ← rollback_to fork_start; mret tt);
  _ ← mfor append_block saved_chain;
  mret (Some msg).

Fixpoint apply_fork (now fork_start : Z) (saved_chain : list Block) (parent : option Block) (some_applied : bool)
    (fork : list Block) : M Chain (option string) :=
  match fork with
  | [] => mret None
  | fb :: rest =>
      if (0 <? index fb) && is_empty (state_root fb)
      then give_back fork_start some_applied saved_chain "fork block missing state_root"
      else
        s ← get;
        verdict ← lift (validate_block now s fb parent);
        match verdict with
        | Some err => give_back fork_start some_applied saved_chain "fork block invalid"
        | None => λ s,
            match append_block fb s with
            | (Ok _, s') => apply_fork now fork_start saved_chain (Some fb) true rest s'
            | (Raise (ValueError msg), s') => give_back fork_start some_applied saved_chain "fork block rejected" s'
            | (Raise e, s') => (Raise e, s')
            end
        end
  end.

(** A displaced transaction goes back to the pool when it is its sender's next.
    The counts per type are not updated. *)
Definition tx_leb (t u : Transaction) : bool :=
  String.ltb (sender t) (sender u) || (String.eqb (sender t) (sender u) && (nonce t <=? nonce u)).
Definition return_to_pool (mined : gset string) (tx : Transaction) : M Chain unit :=
  s ← get;
  if bool_decide (tx_id tx ∈ mined) || bool_decide (is_Some (tx_by_id (idx s) !! tx_id tx)) then mret tt
  else when (nonce tx =? get_next_nonce s (sender tx) + pending_from s (sender tx))
    (_ ← on pool (modify (λ p,
           p <| tx_pool ::= λ l, l ++ [tx] |> <| pool_ids ::= union {[tx_id tx]} |>
             <| pool_sender_count ::= λ m, <[sender tx := get_or m (sender tx) 0 + 1]> m |>));
     debit ← lift (calc_tx_debit (height s) (height s + 1) tx);
     on pool (modify (set pending_debits_cache (λ m, <[sender tx := get_or m (sender tx) 0 + debit]> m)))).

Definition roots_agree (s : Chain) (ancestor_idx : Z) : bool :=
  match state_snapshots (trie s) !! ancestor_idx with
  | None => true
  | Some snap => bool_decide (trie_root (state_trie (trie s)) = trie_root (trie_restore ∅ snap))
  end.

Definition try_reorg (now : Z) (fork_blocks : list Block) : M Chain (option string) :=
  match fork_blocks with
  | [] => mret (Some "empty fork")
  | first :: _ =>
      saved ← get;
      let fork_start := index first in
      let chain_len := height saved + 1 in
      let depth := chain_len - fork_start in
      if (fork_start =? 0) || (chain_len <? fork_start) then mret (Some "invalid fork start")
      else if MAX_REORG_DEPTH <? depth then mret (Some "reorg too deep")
      else match get_block_by_index saved (fork_start - 1) with
      | None => mret (Some "common ancestor not found")
      | Some common_ancestor =>
          if negb (bool_decide (prev_hash first = block_hash common_ancestor))
          then mret (Some "fork doesn't connect to our chain")
          else if Z.of_nat (length fork_blocks) <=? depth then mret (Some "fork not longer")
          else
            let saved_chain := blocks_range saved fork_start chain_len in
            displaced ← rollback_to fork_start;
            s ← get;
            if negb (roots_agree s (fork_start - 1)) then
              _ ← restore_saved saved fork_start saved_chain;
              mret (Some "state root mismatch after rollback")
            else
              outcome ← apply_fork now fork_start saved_chain (latest_block s) false fork_blocks;
              match outcome with
              | Some msg => mret (Some msg)
              | None =>
                  let mined := list_to_set (tx_id <$> mjoin (transactions <$> fork_blocks)) in
                  _ ← mfor (return_to_pool mined) (sort_by tx_leb displaced);
                  _ ← rebuild_pending_debits_cache;
                  mret None
              end
      end
  end.
End Chain.
