(* ===== verification/Stored.v ===== *)
(** * A chain with a database

    The block application of [core/blockchain.py] when [self._store] is set:
    what [Apply.v] and [Chain.v] do in memory, with the writes of
    [_append_block_inner], [init_chain], [produce_block] ([core/blockchain.py]),
    [_process_evidence_tx], [_check_epoch_transition],
    [_process_mature_unbondings] ([core/staking.py]) and
    [activate_financial_layer] ([core/ledger.py]) to the tables of [Store.v],
    in the order of the code.  [_chain_list] is [None], here an empty list:
    blocks are read from the database.

    Within a branch of the type of a transaction the writes follow the changes
    in memory, so they are a definition of their own, [persist_type]. *)
From S2P Require Import Store StoreLaws Prelude PyStr Json JsonText Config Crypto StateTrie Wallet Transaction Fees Block Receipt ChainState Ledger StateOps Staking Consensus ReceiptOps Apply TxPool Rollback Persist Chain.
Open Scope Z_scope.

(** The state in memory and the database *)
Record SChain := mkSChain { mem : Chain; sql : Store }.
#[export] Instance set_mem : Setter mem := λ f x, mkSChain (f (mem x)) (sql x).
#[export] Instance set_sql : Setter sql := λ f x, mkSChain (mem x) (f (sql x)).

Section Stored.
Context `{C : Crypto} `{Cfg : ChainConfig} `{F : PyFloat}.

(** ** Before the transactions *)

Fixpoint release_stored (financial : bool) (i : Z) (l : list Unbonding) : M SChain (list Unbonding) :=
  match l with
  | [] => mret []
  | e :: rest =>
      if ub_release e <=? i then
        _ ← on mem (on ledger (when financial (credit (ub_staker e) (ub_amount e))));
        _ ← on sql (delete_unbonding (ub_staker e) (ub_validator e) (ub_amount e) (ub_release e) true);
        release_stored financial i rest
      else
        remaining ← release_stored financial i rest;
        mret (e :: remaining)
  end.
Definition stored_unbondings (i : Z) : M SChain unit :=
  s ← gets mem;
  remaining ← release_stored (financial_active (ledger s)) i (unbonding (staking s));
  on mem (on staking (modify (set unbonding (λ _, remaining)))).

(** [json.dumps(live)] *)
Definition epoch_text (live : list (string * Z)) : string :=
  print_spaced (JList ((λ e, JList [JStr e.1; JInt e.2]) <$> live)).
(** The condition of [_check_epoch_transition] *)
Definition rotates (s : Chain) (i : Z) : bool :=
  negb (EPOCH_LENGTH <=? 0) &&
  ((current_epoch (staking s) <? i / EPOCH_LENGTH) || ((i =? 0) && bool_decide (epochs (staking s) = ∅))).
Definition stored_epoch_transition (i : Z) : M SChain unit :=
  before ← gets mem;
  _ ← on mem (check_epoch_transition i);
  after ← gets mem;
  let new_epoch := i / EPOCH_LENGTH in
  when (rotates before i)
    (on sql (put_epoch new_epoch (new_epoch * EPOCH_LENGTH) (epoch_text (epoch_validators (staking after))) true)).
Definition stored_begin (i : Z) : M SChain (list event) :=
  _ ← stored_unbondings i;
  epoch_before ← gets (λ x, current_epoch (staking (mem x)));
  _ ← stored_epoch_transition i;
  epoch_after ← gets (λ x, current_epoch (staking (mem x)));
  mret (if epoch_before <? epoch_after
        then [build_event "EpochTransition" [("epoch", JInt epoch_after)]] else []).

(** ** The writes of a transaction *)

(** The rows of the stakers a slash reduces, those that leave with the
    validator, and the event *)
Definition persist_slash (vaddr evidence_id : string) (i : Z) (before : Staking) : M Store unit :=
  let total := get_or (total_stake before) vaddr 0 in
  let stakers := dget_or (stakes before) vaddr [] in
  _ ← mfor (λ e : string * Z,
        let new_amount := Z.max 0 (e.2 - slash_of e.2) in
        if new_amount =? 0 then delete_stake e.1 vaddr true else Store.put_stake e.1 vaddr new_amount true) stakers;
  _ ← when (Z.max 0 (total - slash_of total) <? MIN_STAKE)
        (mfor (λ e : string * Z, delete_stake e.1 vaddr true) (reduce_stakers stakers));
  put_slashing_event (mkSlash vaddr evidence_id (slash_of total) i) true.
Definition write_token (s : Chain) (tid : string) : M Store unit :=
  match token_registry (tokens s) !! tid with Some t => put_token tid t true | None => mret tt end.
Definition write_token_balance (s : Chain) (tid a : string) : M Store unit :=
  Store.put_token_balance tid a (token_balance (tokens s) tid a) true.

(** [before] and [s] are the states before and after the effect of [tx], which
    has read the fields of the payload. *)
Definition persist_type (before s : Chain) (i : Z) (tx : Transaction) : M Store unit :=
  let vaddr := payload_str tx "validator_address" in
  let amount := payload_int tx "amount" in
  let tid := payload_str tx "token_id" in
  match tx_type tx with
  | REGISTER_VALIDATOR =>
      let vpk_hex := payload_str tx "validator_pubkey" in
      when (negb (is_empty vpk_hex) && negb (is_empty vaddr) && negb (is_registered_validator before vaddr))
        (put_validator vaddr vpk_hex true)
  | REVOKE_KEY =>
      let key_type := payload_str tx "key_type" in
      _ ← when (bool_decide (key_type = "validator")) (delete_validator (sender tx) true);
      put_revocation (sender tx) key_type (mkRevocation (tx_id tx) (timestamp tx) (payload_str tx "reason")) true
  | STAKE | DELEGATE =>
      when (negb (is_empty vaddr) && (0 <? amount))
        (Store.put_stake (sender tx) vaddr (get_staker_info s (sender tx) vaddr) true)
  | UNSTAKE =>
      let new_amount := Z.max 0 (get_staker_info before (sender tx) vaddr - amount) in
      when (negb (is_empty vaddr) && (0 <? amount))
        (_ ← (if new_amount =? 0 then delete_stake (sender tx) vaddr true
              else Store.put_stake (sender tx) vaddr new_amount true);
         put_unbonding (sender tx) vaddr amount (i + UNBONDING_PERIOD) true)
  | EVIDENCE =>
      when (bool_decide (vaddr ∈ processed_evidence (staking s)) &&
            negb (bool_decide (vaddr ∈ processed_evidence (staking before))))
        (persist_slash vaddr (tx_id tx) i (staking before))
  | ISSUE_TOKEN =>
      when (TOKEN_ACTIVATION_HEIGHT <=? i)
        (write_token s (derive_token_id (sender tx) (payload_str tx "symbol") (nonce tx)))
  | MINT_TOKEN =>
      when (TOKEN_ACTIVATION_HEIGHT <=? i)
        (_ ← write_token s tid; write_token_balance s tid (recipient tx))
  | TRANSFER_TOKEN =>
      when (TOKEN_ACTIVATION_HEIGHT <=? i)
        (_ ← write_token_balance s tid (sender tx); write_token_balance s tid (recipient tx))
  | NOTARIZE | REGISTER_KEY | STORE | SHARE | TRANSFER => mret tt
  end.

Definition stored_tx (b : Block) (i tx_idx : Z) (tx : Transaction) : M SChain Applied :=
  _ ← on mem (on idx (modify (index_tx i tx_idx tx)));
  _ ← on mem (on cons (modify (set chain_tx_ids (union {[tx_id tx]}))));
  fee ← on mem (on ledger (settle b i tx));
  before ← gets mem;
  failed ← on mem (apply_type i tx);
  after ← gets mem;
  _ ← on sql (persist_type before after i tx);
  events ← lift (build_tx_events after tx i);
  mret (mkApplied tx_idx (tx_id tx) fee events failed).
Fixpoint stored_txs (b : Block) (i tx_idx : Z) (txs : list Transaction) : M SChain (list Applied) :=
  match txs with
  | [] => mret []
  | tx :: rest =>
      a ← stored_tx b i tx_idx tx;
      l ← stored_txs b i (tx_idx + 1) rest;
      mret (a :: l)
  end.

(** ** After the transactions *)

(** [x] leaves the list at [k]; an empty list goes. *)
Definition unlist (k x : string) (m : gmap string (list string)) : gmap string (list string) :=
  let l := remove_first x (get_or m k []) in
  if bool_decide (l = []) then delete k m else <[k := l]> m.
Definition prune_tx (ix : Index) (tx : Transaction) : Index :=
  ix <| txs_by_sender ::= unlist (sender tx) (tx_id tx) |>
     <| txs_by_recipient ::= λ m, if is_empty (recipient tx) then m else unlist (recipient tx) (tx_id tx) m |>.
Definition prune_lists (old_block : option Block) (ix : Index) : Index :=
  match old_block with Some b => foldl prune_tx ix (transactions b) | None => ix end.
(** What lies beyond the reorg depth, the lists of transactions too *)
Definition stored_prune_history (i : Z) : M SChain unit :=
  let prune_before := i - MAX_REORG_DEPTH - 1 in
  when (0 <=? prune_before)
    (_ ← on mem (on trie (modify (set state_snapshots (delete prune_before))));
     _ ← on mem (on recs (modify (prune_receipts prune_before)));
     st ← gets sql;
     old_block ← lift (Store.get_block st prune_before);
     _ ← on mem (on idx (modify (prune_lists old_block)));
     on mem (on ledger (modify (prune_distributions prune_before)))).

(** [finality_walk] over the blocks of the database *)
Fixpoint stored_walk (st : Store) (s : Chain) (total : Z) (fuel : nat) (bi : Z) (seen : gset string) (cumulative : Z)
    : result (option Z) :=
  match fuel with
  | O => Ok None
  | S fuel' =>
      block ← Store.get_block st bi;
      match block with
      | None => Ok None
      | Some b =>
          let v := validator b in
          let cumulative := if decide (v ∈ seen) then cumulative else cumulative + stake_of s v in
          if total * 2 <? cumulative * 3 then Ok (Some bi)
          else stored_walk st s total fuel' (bi - 1) ({[v]} ∪ seen) cumulative
      end
  end.
Definition stored_finality (new_block_index : Z) : M SChain unit :=
  x ← get;
  let s := mem x in
  let total := msum (total_stake (staking s)) in
  if negb (financial_active (ledger s)) || (total =? 0) then mret tt
  else
    let stop := Z.max (finalized_height (recs s)) (-1) in
    found ← lift (stored_walk (sql x) s total (Z.to_nat (new_block_index - stop)) new_block_index ∅ 0);
    match found with
    | Some h => when (finalized_height (recs s) <? h) (on mem (on recs (modify (set finalized_height (λ _, h)))))
    | None => mret tt
    end.

(** The block enters the index; the database holds it already. *)
Definition open_stored (b : Block) : M Chain unit := modify (λ s,
  let i := height s + 1 in
  s <| height := i |> <| latest_block := Some b |> <| idx ::= set block_by_hash (<[block_hash b := i]>) |>).
(** The stakers whose unbondings mature at [i] *)
Definition matured_stakers (s : Chain) (i : Z) : gset string :=
  list_to_set (ub_staker <$> matured i (unbonding (staking s))).

(** [_append_block_inner] with a store *)
Definition stored_append (b : Block) : M SChain unit :=
  i ← gets (λ x, height (mem x) + 1);
  _ ← on sql (Store.append_block b);
  _ ← on mem (open_stored b);
  stakers ← gets (λ x, matured_stakers (mem x) i);
  epoch_events ← stored_begin i;
  applied ← stored_txs b i 0 (transactions b);
  let failed := ap_tx_id <$> filter (λ a, ap_failed a = true) applied in
  block_receipts ← on mem (on recs (record_receipts i failed applied));
  reward_events ← on mem (on ledger (apply_reward b i));
  let events := epoch_events ++ reward_events in
  _ ← on mem (on recs (modify (store_block_events i events)));
  _ ← on mem (seal_receipts b block_receipts);
  _ ← on mem (seal_state b i);
  _ ← stored_prune_history i;
  s ← gets mem;
  _ ← on sql (when (financial_active (ledger s)) (persist_balances_after_block s b i stakers));
  _ ← on sql (persist_receipts i block_receipts events);
  stored_finality i.

(** ** Genesis, activation, production *)

(** The block object, also [_latest_block], gets the roots, a new signature
    and its row. *)
Definition stored_tip (b : Block) : M Chain unit := modify (λ s, s <| latest_block := Some b |>).
Definition stored_stamp (b : Block) (sr rr sk : string) : M SChain Block :=
  let stamped := stamp_roots b sr rr in
  _ ← on mem (stored_tip stamped);
  signed ← lift (block_sign stamped sk);
  _ ← on mem (reindex (block_hash b) (block_hash signed) (index b));
  _ ← on mem (stored_tip signed);
  _ ← on sql (update_block signed);
  mret signed.

Definition stored_auto_stake (v : string) : M SChain unit :=
  _ ← on mem (on staking (modify (auto_stake v)));
  on sql (Store.put_stake v v MIN_STAKE true).
(** The genesis block as it is appended, before it is stamped *)
Definition genesis_block (now : Z) (validator_address validator_sk validator_pk : string) (s : Chain) : result Block :=
  let pk := if is_empty validator_pk then get_or (validators (cons s)) validator_address EmptyString
            else validator_pk in
  genesis_txs ← (if is_empty pk then Ok []
    else reg ← tx_sign (mk_register_validator now validator_address 0 0 0 pk validator_address) validator_sk pk;
         Ok [reg]);
  block_sign (block_genesis now validator_address genesis_txs) validator_sk.
Definition stored_init_chain (now : Z) (validator_address validator_sk validator_pk : string) : M SChain unit :=
  s ← gets mem;
  when (height s <? 0)
    (genesis ← lift (genesis_block now validator_address validator_sk validator_pk s);
     _ ← stored_append genesis;
     _ ← when (negb (is_empty validator_pk)) (stored_auto_stake validator_address);
     s ← gets mem;
     signed ← stored_stamp genesis (hex (trie_root (state_trie (trie s))))
                (default EmptyString (last_receipts_root (trie s))) validator_sk;
     on mem (on cons (set_the_genesis_hash (block_hash signed)))).

(** The genesis allocation is written when it is made, before the trie is rebuilt. *)
Definition stored_activate (validator_address : string) : M SChain unit :=
  s ← gets mem;
  if financial_active (ledger s) then mret tt
  else
    _ ← on mem (on ledger (modify (set financial_active (λ _, true))));
    _ ← when (negb (is_empty validator_address) && (get_balance s validator_address =? 0))
          (let genesis_balance := GENESIS_BALANCE_QBIT * QUBIT_PER_QBIT in
           _ ← on mem (on ledger (credit validator_address genesis_balance));
           _ ← on mem (on ledger (modify (set total_minted (λ m, m + genesis_balance))));
           s ← gets mem;
           _ ← on sql (Store.put_balance validator_address (get_balance s validator_address) true);
           _ ← on sql (put_supply "total_minted" (total_minted (ledger s)) true);
           on sql (put_supply "total_burned" (total_burned (ledger s)) true));
    _ ← on mem rebuild_state_trie;
    s ← gets mem;
    when (0 <=? height s) (on mem (on trie (modify (set state_snapshots (<[height s := trie_snapshot (state_trie (trie s))]>))))).

(** [submit_tx]: of the blocks, admission reads the first. *)
Definition stored_submit (now : Z) (tx : Transaction) : M SChain (option string) :=
  x ← get;
  genesis ← lift (Store.get_block (sql x) 0);
  let s := mem x in
  refusal ← lift (admission now (s <| chain_list := match genesis with Some g => [g] | None => [] end |>) tx);
  match refusal with
  | Some msg => mret (Some msg)
  | None => on mem (
      let a := sender tx in
      let pending_from_sender := pending_from s a in
      _ ← on pool (modify (λ p,
            p <| tx_pool ::= λ l, l ++ [tx] |> <| pool_ids ::= union {[tx_id tx]} |>
              <| pool_sender_count ::= <[a := pending_from_sender + 1]> |>));
      debit ← lift (calc_tx_debit (height s) (height s + 1) tx);
      _ ← on pool (modify (λ p,
            p <| pending_debits_cache ::= λ m, <[a := get_or m a 0 + debit]> m |>
              <| pool_type_counts ::= λ m, count_type m tx |>));
      mret None)
  end.

(** [produce_block] and [add_block].  The roll-back of memory after a
    [ValueError] of the application is not part of them. *)
Definition stored_produce (now : Z) (validator_address validator_sk : string) : M SChain (option Block) :=
  s ← gets mem;
  if height s <? 0 then mret None
  else match latest_block s with
  | None => raise AttributeError
  | Some parent =>
      expected ← lift (select_validator now s (index parent + 1) None (block_hash parent) None);
      if match expected with
         | Some e => negb (is_empty e) && negb (bool_decide (e = validator_address))
         | None => false
         end then mret None
      else if is_key_revoked s validator_address "signing" then mret None
      else match draft_block now s parent validator_address with
      | None => mret None
      | Some draft =>
          block ← lift (block_sign draft validator_sk);
          verdict ← lift (validate_block now s block (Some parent));
          match verdict with
          | Some _ => mret None
          | None =>
              _ ← stored_append block;
              s ← gets mem;
              signed ← stored_stamp block
                (default (hex (trie_root (state_trie (trie s)))) (last_state_root (trie s)))
                (default EmptyString (last_receipts_root (trie s))) validator_sk;
              _ ← on mem (drain_pool signed);
              mret (Some signed)
          end
      end
  end.
Definition stored_accept (now : Z) (b : Block) : M SChain (option string) :=
  s ← gets mem;
  if bool_decide (is_Some (block_by_hash (idx s) !! block_hash b)) then mret (Some "already have this block")
  else
    let expected_index := height s + 1 in
    if index b =? expected_index then
      verdict ← lift (validate_block now s b (if 0 <? index b then latest_block s else None));
      match verdict with
      | Some err => mret (Some err)
      | None =>
          if (0 <? index b) && is_empty (state_root b)
          then mret (Some "missing state_root: received blocks must include state_root")
          else (_ ← stored_append b; _ ← on mem (drain_pool b); mret None)
      end
    else if (0 <? index b) && (index b <? expected_index)
    then mret (Some "first-seen wins")
    else mret (Some "out-of-order block").
End Stored.
