(* ===== verification/ChainLaws.v ===== *)
(** * The chain grows by linked blocks and applies each transaction once

    Theorems about [Chain]: accepted and produced blocks extend the chain by
    one linked block, the pool stays consistent with it, no transaction
    identifier occurs twice, and the nonces of every sender on the chain are
    0, 1, 2, ... in order. *)
From S2P Require Import Prelude PyStr Json Config Crypto StateTrie Wallet Transaction Fees Block Receipt ChainState Ledger StateOps Staking Consensus ReceiptOps Apply Frames Books TxPool Rollback Chain.
Open Scope Z_scope.

(** ** What the application of a block does to the spine of the chain *)

Record Spine := mkSpine {
  sp_list : list Block; sp_tip : option Block; sp_height : Z;
  sp_hashes : gmap string Z; sp_nonces : gmap string Z; sp_ids : gset string }.
Definition spine (s : Chain) : Spine :=
  mkSpine (chain_list s) (latest_block s) (height s) (block_by_hash (idx s)) (sender_nonce (idx s)) (chain_tx_ids (cons s)).

Definition nonce_step (i : Z) (m : gmap string Z) (tx : Transaction) : gmap string Z :=
  if (0 <? i) && (get_or m (sender tx) (-1) <? nonce tx) then <[sender tx := nonce tx]> m else m.

Section Spine.
Context `{C : Crypto} `{Cfg : ChainConfig}.

Lemma spine_validators f : fixes spine (on cons (modify (set validators f))).
Proof. done. Qed.
Lemma spine_notarize tid tx : fixes spine (on idx (apply_notarize tid tx)).
Proof.
  intros s. unfold on, zoom, apply_notarize, mbind, M_bind, lift. destruct (jget_str _ _) as [dh|]; [|by destruct s].
  by destruct (negb (is_empty dh)).
Qed.
#[local] Hint Resolve spine_validators spine_notarize : fixes.
#[local] Hint Extern 1 (fixes spine (on cons (add_validator _ _))) => reflexivity : fixes.

Lemma spine_apply_type i tx : fixes spine (apply_type i tx).
Proof.
  unfold apply_type, apply_register_validator, set_commission, apply_revoke_key, process_evidence_tx,
    fromhex_or_return, slash_validator, remove_validator, add_validator. destruct (tx_type tx); auto 40 with fixes.
Qed.
Lemma spine_begin_block i : fixes spine (begin_block i).
Proof. by apply frame_begin_block. Qed.
Lemma spine_close_block b i es l : fixes spine (close_block b i es l).
Proof. by apply frame_close_block. Qed.

Lemma apply_tx_spine b i n tx s a s' : apply_tx b i n tx s = (Ok a, s') →
  spine s' = mkSpine (chain_list s) (latest_block s) (height s) (block_by_hash (idx s))
               (nonce_step i (sender_nonce (idx s)) tx) ({[tx_id tx]} ∪ chain_tx_ids (cons s)).
Proof.
  unfold apply_tx. unfold mbind, M_bind. unfold on at 1, zoom at 1, modify at 1. cbv beta iota.
  unfold on at 1, zoom at 1, modify at 1. cbv beta iota. unfold on at 1, zoom at 1. set (s0 := set cons _ _).
  destruct (settle b i tx (ledger s0)) as [[fee|e] L]; [|done]. set (s1 := set ledger _ s0).
  pose proof (spine_apply_type i tx s1) as Hsp. destruct (apply_type i tx s1) as [[r|e] s2]; [|done].
  unfold get, lift. destruct (build_tx_events s2 tx i); [|done]. intros [= _ <-]. cbn in Hsp. rewrite Hsp.
  reflexivity.
Qed.
Lemma apply_txs_spine b i n txs s l s' : apply_txs b i n txs s = (Ok l, s') →
  spine s' = mkSpine (chain_list s) (latest_block s) (height s) (block_by_hash (idx s))
               (foldl (nonce_step i) (sender_nonce (idx s)) txs) (list_to_set (tx_id <$> txs) ∪ chain_tx_ids (cons s)).
Proof.
  revert n s l. induction txs as [|tx txs IH]; intros n s l; cbn [apply_txs].
  { intros [= _ <-]. unfold spine. f_equal. csimpl. set_solver. }
  unfold mbind at 1, M_bind at 1. destruct (apply_tx b i n tx s) as [[a|e] s1] eqn:E1; [|done].
  unfold mbind, M_bind. destruct (apply_txs b i (n + 1) txs s1) as [[l1|e] s2] eqn:E2; [|done].
  intros [= _ <-]. apply apply_tx_spine in E1. apply IH in E2. rewrite E2.
  unfold spine in E1. injection E1 as -> -> -> -> -> ->. cbn [foldl]. f_equal. csimpl. set_solver.
Qed.

(** An applied block is the new tip and its transactions are recorded. *)
Lemma append_spine b s s' : append_block_inner b s = (Ok tt, s') →
  spine s' = mkSpine (chain_list s ++ [b]) (Some b) (height s + 1)
    (<[block_hash b := height s + 1]> (block_by_hash (idx s)))
    (foldl (nonce_step (height s + 1)) (sender_nonce (idx s)) (transactions b))
    (list_to_set (tx_id <$> transactions b) ∪ chain_tx_ids (cons s)).
Proof.
  rewrite append_block_inner_close. unfold mbind at 1, M_bind at 1, gets. unfold mbind at 1, M_bind at 1.
  unfold open_block, modify. set (i := height s + 1). set (s0 := set idx _ _). intros Hrun.
  unfold mbind at 1, M_bind at 1 in Hrun. pose proof (spine_begin_block i s0) as H1.
  destruct (begin_block i s0) as [[es|e] s1]; [|done]. cbn in H1.
  unfold mbind at 1, M_bind at 1 in Hrun. destruct (apply_txs b i 0 (transactions b) s1) as [[l|e] s2] eqn:E2; [|done].
  apply apply_txs_spine in E2. pose proof (spine_close_block b i es l s2) as H3. rewrite Hrun in H3. cbn in H3.
  rewrite H3, E2. unfold spine in H1. injection H1 as -> -> -> -> -> ->. reflexivity.
Qed.

Lemma append_block_ok b s s' : append_block b s = (Ok tt, s') → append_block_inner b s = (Ok tt, s').
Proof.
  unfold append_block. destruct (append_block_inner b s) as [[[]|e] s2] eqn:E; [congruence|].
  destruct e; try done. unfold mbind, M_bind, raise. by destruct (rollback_block b s2) as [[[]|e'] s3].
Qed.

(** The next nonces after transactions that follow them *)
Lemma nonce_steps i m txs : 0 < i → nonces_follow (λ a, get_or m a (-1) + 1) txs →
  ∀ a, get_or (foldl (nonce_step i) m txs) a (-1) + 1 = get_or m a (-1) + 1 + count_sender a txs.
Proof.
  intros Hi. revert m. induction txs as [|tx txs IH]; intros m; cbn [nonces_follow foldl].
  { intros _ a. unfold count_sender. cbn. lia. }
  intros [Hn Hf] a. assert (nonce_step i m tx = <[sender tx := nonce tx]> m) as ->.
  { unfold nonce_step. rewrite (proj2 (Z.ltb_lt 0 i) Hi). by destruct (Z.ltb_spec (get_or m (sender tx) (-1)) (nonce tx)); [|lia]. }
  rewrite IH.
  - rewrite get_or_insert. unfold count_sender. rewrite of_sender_cons. case_decide; subst; cbn [length]; lia.
  - eapply nonces_follow_ext; [|exact Hf]. intros x. cbn beta. rewrite get_or_insert.
    destruct (decide (x = sender tx)) as [->|Hx]; [rewrite decide_True by done; lia|by rewrite decide_False by congruence].
Qed.
End Spine.

(** ** The invariant *)

Section Invariant.
Context `{C : Crypto} `{Cfg : ChainConfig}.

Definition all_txs (l : list Block) : list Transaction := mjoin (transactions <$> l).

Record chain_ok (s : Chain) : Prop := mkChainOk {
  ck_height : height s = Z.of_nat (length (chain_list s)) - 1;
  ck_tip : latest_block s = list.last (chain_list s);
  ck_index : ∀ i b, chain_list s !! i = Some b → index b = Z.of_nat i;
  ck_links : ∀ i p b, chain_list s !! i = Some p → chain_list s !! S i = Some b →
    prev_hash b = block_hash p ∧ blk_timestamp p < blk_timestamp b;
  ck_ids : chain_tx_ids (cons s) = list_to_set (tx_id <$> all_txs (chain_list s));
  ck_once : NoDup (tx_id <$> all_txs (chain_list s));
  ck_nonneg : ∀ a, 0 <= get_next_nonce s a;
  ck_nonces : ∀ a, nonce <$> of_sender a (all_txs (tail (chain_list s))) = seqZ 0 (get_next_nonce s a) }.

Lemma all_txs_app l1 l2 : all_txs (l1 ++ l2) = all_txs l1 ++ all_txs l2.
Proof. unfold all_txs. by rewrite fmap_app, join_app. Qed.
Lemma of_sender_app a l1 l2 : of_sender a (l1 ++ l2) = of_sender a l1 ++ of_sender a l2.
Proof. unfold of_sender. by rewrite list.filter_app. Qed.

Lemma chain_ok_tip s p : chain_ok s → latest_block s = Some p →
  ∃ l, chain_list s = l ++ [p] ∧ index p = height s ∧ 0 <= height s.
Proof.
  intros H Hp. rewrite (ck_tip _ H) in Hp. apply last_Some in Hp as [l Hl]. exists l. split; [done|].
  pose proof (ck_height _ H) as Hh. pose proof (ck_index _ H (length l) p) as Hi.
  rewrite Hl, length_app in *. cbn in *. rewrite Hi; [lia|]. by rewrite list_lookup_middle.
Qed.

(** The state after a valid successor [b] of the tip was appended *)
Lemma chain_ok_grow now s b p s' :
  chain_ok s → latest_block s = Some p → valid_successor now s b p → 
  append_block_inner b s = (Ok tt, s') → chain_ok s' ∧
  (∀ a, get_next_nonce s' a = get_next_nonce s a + count_sender a (transactions b)).
Proof.
  intros H Hp Hv Hrun. destruct (chain_ok_tip s p H Hp) as (l & Hl & Hip & Hh).
  apply append_spine in Hrun. injection Hrun as Es1 Es2 Es3 _ Es5 Es6.
  assert (∀ a, get_next_nonce s' a = get_next_nonce s a + count_sender a (transactions b)) as Hnext.
  { intros a. unfold get_next_nonce. rewrite Es5. apply nonce_steps; [lia|]. apply (vs_nonces _ _ _ _ Hv). }
  split; [|done]. split; rewrite ?Es1, ?Es2, ?Es3, ?Es6.
  - rewrite length_app. cbn. pose proof (ck_height _ H). lia.
  - by rewrite list.last_snoc.
  - intros i b' Hb. apply lookup_snoc_Some in Hb as [[Hi Hb]|[-> <-]]; [by apply (ck_index _ H)|].
    rewrite (vs_index _ _ _ _ Hv), Hip, (ck_height _ H). lia.
  - intros i p' b' Hp' Hb'. apply lookup_snoc_Some in Hb' as [[Hi Hb]|[Hi <-]].
    + apply (ck_links _ H i); [|done]. rewrite lookup_app_l in Hp' by lia. done.
    + rewrite lookup_app_l in Hp' by lia. rewrite Hl in Hp', Hi. rewrite length_app in Hi. cbn in Hi.
      replace i with (length l) in Hp' by lia. rewrite list_lookup_middle in Hp' by done. injection Hp' as <-.
      split; [apply (vs_prev _ _ _ _ Hv)|apply (vs_time _ _ _ _ Hv)].
  - rewrite (ck_ids _ H), all_txs_app, fmap_app, list_to_set_app_L. unfold all_txs at 3. csimpl.
    rewrite app_nil_r. set_solver.
  - rewrite all_txs_app, fmap_app. unfold all_txs at 2. csimpl. rewrite app_nil_r. apply list.NoDup_app.
    split_and!; [apply (ck_once _ H)| |apply (vs_unique _ _ _ _ Hv)].
    intros x Hx (tx & -> & Htx)%list_elem_of_fmap. pose proof (vs_txs _ _ _ _ Hv) as Hvt.
    apply (Forall_in _ _ _ Hvt) in Htx. destruct Htx. destruct vt_fresh. rewrite (ck_ids _ H). by apply elem_of_list_to_set.
  - intros a. rewrite Hnext. pose proof (ck_nonneg _ H a). unfold count_sender. lia.
  - intros a. assert (tail (chain_list s ++ [b]) = tail (chain_list s) ++ [b]) as -> by (rewrite Hl; by destruct l).
    rewrite all_txs_app, of_sender_app, fmap_app, (ck_nonces _ H), Hnext.
    unfold all_txs. csimpl. rewrite app_nil_r.
    rewrite (nonces_follow_seq _ _ a (vs_nonces _ _ _ _ Hv)).
    rewrite seqZ_app; [done|apply (ck_nonneg _ H)|unfold count_sender; lia].
Qed.

(** Restamping the tip *)
Definition same_body (b b' : Block) : Prop :=
  index b' = index b ∧ prev_hash b' = prev_hash b ∧ blk_timestamp b' = blk_timestamp b ∧ transactions b' = transactions b.
Lemma chain_ok_restamp s l b b' :
  chain_ok s → chain_list s = l ++ [b] → same_body b b' →
  ∀ s', chain_list s' = l ++ [b'] → latest_block s' = Some b' → height s' = height s →
  sender_nonce (idx s') = sender_nonce (idx s) → chain_tx_ids (cons s') = chain_tx_ids (cons s) → chain_ok s'.
Proof.
  intros H Hl (Hi & Hp & Ht & Htx) s' Hl' Htip Hh Hn Hids.
  assert (transactions <$> chain_list s' = transactions <$> chain_list s) as Htxs.
  { by rewrite Hl, Hl', !fmap_app; csimpl; rewrite Htx. }
  assert (∀ i x, chain_list s' !! i = Some x → ∃ y, chain_list s !! i = Some y ∧ same_body y x ∧ (x = y ∨ x = b' ∧ S i = length (chain_list s'))) as Hlook.
  { intros i x. rewrite Hl, Hl'. intros [[Hlt Hx]|[-> <-]]%lookup_snoc_Some.
    - exists x. rewrite lookup_app_l by lia. by repeat split; [|left].
    - exists b. rewrite list_lookup_middle by done. split; [done|]. split; [done|]. right. split; [done|].
      rewrite length_app. cbn. lia. }
  split.
  - rewrite Hh, (ck_height _ H), Hl, Hl', !length_app. done.
  - by rewrite Htip, Hl', list.last_snoc.
  - intros i x Hx. destruct (Hlook i x Hx) as (y & Hy & (Hiy & _) & _). rewrite Hiy. by apply (ck_index _ H).
  - intros i p x Hpx Hx. destruct (Hlook _ _ Hpx) as (p0 & Hp0 & (_ & _ & Htp & _) & Hor).
    destruct (Hlook _ _ Hx) as (y & Hy & (_ & Hpy & Hty & _) & _).
    destruct (ck_links _ H i p0 y Hp0 Hy) as [H1 H2]. rewrite Hpy, Hty, Htp. split; [|done].
    destruct Hor as [->|[_ Hlen]]; [done|]. apply lookup_lt_Some in Hx. lia.
  - unfold all_txs. by rewrite Hids, Htxs, (ck_ids _ H).
  - unfold all_txs. rewrite Htxs. apply (ck_once _ H).
  - intros a. unfold get_next_nonce. rewrite Hn. apply (ck_nonneg _ H).
  - intros a. unfold all_txs, get_next_nonce. rewrite Hn.
    assert (∀ l : list Block, transactions <$> tail l = tail (transactions <$> l)) as Htail by (by intros []).
    rewrite Htail, Htxs, <-Htail. apply (ck_nonces _ H).
Qed.
End Invariant.

(** ** The pool while a block is applied *)

Lemma drop_type_get m t v :
  get_or (drop_type_count t m) v 0 =
  if decide (v = tt_value (tx_type t)) then Z.max 0 (get_or m v 1 - 1) else get_or m v 0.
Proof.
  unfold drop_type_count. destruct (Z.leb_spec (get_or m (tt_value (tx_type t)) 1 - 1) 0).
  - rewrite get_or_delete. destruct (decide (v = _)) as [->|]; [rewrite decide_True by done; lia|by rewrite decide_False by congruence].
  - rewrite get_or_insert. destruct (decide (v = _)) as [->|]; [rewrite decide_True by done; lia|by rewrite decide_False by congruence].
Qed.
Lemma count_value_cons v t l :
  count_value v (t :: l) = (if decide (tt_value (tx_type t) = v) then 1 else 0) + count_value v l.
Proof. unfold count_value. rewrite filter_cons. case_decide; cbn [length]; lia. Qed.
Lemma drop_types_get l m v : (∀ v, count_value v l <= get_or m v 0) →
  get_or (foldl (flip drop_type_count) m l) v 0 = get_or m v 0 - count_value v l.
Proof.
  revert m. induction l as [|t l IH]; intros m Hm; [unfold count_value; cbn; lia|]. cbn [foldl].
  assert (∀ w, get_or (flip drop_type_count m t) w 0 = get_or m w 0 - (if decide (tt_value (tx_type t) = w) then 1 else 0)) as Hd.
  { intros w. unfold flip. rewrite drop_type_get. specialize (Hm w). rewrite count_value_cons in Hm.
    assert (0 <= count_value w l) by (unfold count_value; lia).
    destruct (decide (w = tt_value (tx_type t))) as [->|]; [rewrite decide_True in * by done|rewrite decide_False in * by congruence; lia].
    unfold get_or in *. destruct (m !! _); cbn in *; lia. }
  rewrite IH.
  - rewrite Hd, count_value_cons. lia.
  - intros w. rewrite Hd. specialize (Hm w). rewrite count_value_cons in Hm. lia.
Qed.
Lemma count_value_nonneg v l : 0 <= count_value v l.
Proof. unfold count_value. lia. Qed.
Lemma count_value_split (P : Transaction → Prop) `{∀ t, Decision (P t)} v l :
  count_value v l = count_value v (filter P l) + count_value v (filter (λ t, ¬ P t) l).
Proof.
  induction l as [|t l IH]; [done|]. rewrite count_value_cons, IH, !filter_cons.
  destruct (decide (P t)); [rewrite (decide_False (P := ¬ P t)) by tauto|rewrite (decide_True (P := ¬ P t)) by done];
    rewrite count_value_cons; lia.
Qed.
Lemma of_sender_others a x l : of_sender x (filter (λ t, sender t ≠ a) l) = if decide (x = a) then [] else of_sender x l.
Proof.
  unfold of_sender. rewrite list_filter_filter. destruct (decide (x = a)) as [->|Hx].
  - apply filter_none. naive_solver.
  - apply filter_ext_in. naive_solver.
Qed.

Section PoolLaws.
Context `{C : Crypto} `{Cfg : ChainConfig}.

Lemma pool_at_purge next a p : pool_at next p → pool_at next (purge_sender a p) ∧
  tx_pool (purge_sender a p) = filter (λ t, sender t ≠ a) (tx_pool p).
Proof.
  intros [Hu Hi Hc Ht Hn Hv Hs].
  assert (∀ x, count_sender x (filter (λ t, sender t ≠ a) (tx_pool p)) = if decide (x = a) then 0 else count_sender x (tx_pool p)) as Hcs.
  { intros x. unfold count_sender. rewrite of_sender_others. by case_decide. }
  assert (∀ v, count_value v (filter (λ t, sender t = a) (tx_pool p)) <= get_or (pool_type_counts p) v 0) as Hle.
  { intros v. rewrite Ht, (count_value_split (λ t, sender t = a) v (tx_pool p)).
    pose proof (count_value_nonneg v (filter (λ t, ¬ sender t = a) (tx_pool p))). lia. }
  unfold purge_sender. set (removed := filter (λ t, sender t = a) (tx_pool p)) in *.
  set (kept := filter (λ t, sender t ≠ a) (tx_pool p)) in *.
  set (ids' := pool_ids p ∖ list_to_set (tx_id <$> removed)).
  assert (ids' = list_to_set (tx_id <$> kept)) as Hids.
  { subst ids'. rewrite Hi. apply set_eq. intros x. rewrite elem_of_difference, !elem_of_list_to_set, !list_elem_of_fmap.
    split.
    - intros [(t & -> & Hin) Hno]. exists t. split; [done|]. apply list_elem_of_filter. split; [|done].
      intros Hsa. apply Hno. exists t. split; [done|]. by apply list_elem_of_filter.
    - intros (t & -> & [Hsa Hin]%list_elem_of_filter). split; [eauto|].
      intros (t' & Hid & [Hsa' Hin']%list_elem_of_filter). destruct Hsa.
      by rewrite (NoDup_fmap_eq tx_id (tx_pool p) t t'). }
  assert (∀ v, get_or (foldl (flip drop_type_count) (pool_type_counts p) removed) v 0 = count_value v kept) as Htypes.
  { intros v. rewrite drop_types_get by done. rewrite Ht, (count_value_split (λ t, sender t = a) v (tx_pool p)). subst removed kept. lia. }
  assert (∀ m, (∀ x, get_or m x 0 = if decide (x = a) then 0 else get_or (pool_sender_count p) x 0) → ∀ c,
    pool_at next (mkPool kept ids' m c (foldl (flip drop_type_count) (pool_type_counts p) removed))) as Hall.
  { intros m Hm c. split; chain_simpl.
    - by apply NoDup_fmap_filter.
    - done.
    - intros x. rewrite Hm, Hcs. case_decide; [done|]. by rewrite Hc.
    - done.
    - intros x. rewrite Hcs. subst kept. rewrite of_sender_others. case_decide; [done|apply Hn].
    - by apply Forall_filter_sub.
    - assert (length kept <= length (tx_pool p))%nat by apply length_filter. lia. }
  assert (count_sender a (tx_pool p) = Z.of_nat (length removed)) as Hcnt by done.
  destruct removed as [|t0 rest] eqn:Er.
  - split; [|done]. destruct p. cbn in *. apply Hall. intros x. case_decide; subst; [|done]. by rewrite Hc.
  - split; [|done]. destruct p as [P1 P2 P3 P4 P5]. cbn in *. rewrite Hc, Hcnt. rewrite Z.max_l by lia.
    apply Hall. intros x. change (get_or (delete a P3) x 0 = if decide (x = a) then 0 else get_or P3 x 0).
    rewrite get_or_delete.
    destruct (decide (x = a)) as [->|]; [by rewrite decide_True|by rewrite decide_False by congruence].
Qed.

Lemma pool_at_ext f g p : (∀ a, f a = g a) → pool_at f p → pool_at g p.
Proof. intros Hfg [? ? ? ? H5 ? ?]. split; try done. intros a. by rewrite <-Hfg. Qed.

(** The pool is the old one without the transactions of some senders. *)
Definition shrunk (next : string → Z) (l0 : list Transaction) (p : Pool) : Prop :=
  pool_at next p ∧ ∃ R : gset string, tx_pool p = filter (λ t, sender t ∉ R) l0.
Lemma shrunk_purge next l0 a p : shrunk next l0 p → shrunk next l0 (purge_sender a p).
Proof.
  intros [Hp [R HR]]. destruct (pool_at_purge next a p Hp) as [Hp' Heq]. split; [done|].
  exists ({[a]} ∪ R). rewrite Heq, HR, list_filter_filter. apply filter_ext_in. intros t _. set_solver.
Qed.
Lemma shrunk_start next p : pool_at next p → shrunk next (tx_pool p) p.
Proof. intros Hp. split; [done|]. exists ∅. symmetry. apply filter_all. set_solver. Qed.

(** Only the revocation of a key touches the pool. *)
Lemma pool_apply_type i tx : tx_type tx ≠ REVOKE_KEY → fixes pool (apply_type i tx).
Proof.
  intros Ht. unfold apply_type, apply_register_validator, set_commission.
  pose proof (frame_evidence pool tx i ltac:(done) ltac:(done)).
  destruct (tx_type tx); try done; auto 20 with fixes.
Qed.
Lemma pool_append b : Forall (λ tx, tx_type tx ≠ REVOKE_KEY) (transactions b) → fixes pool (append_block_inner b).
Proof.
  intros Hb. assert (∀ i n, fixes pool (apply_txs b i n (transactions b))) as Htxs.
  { intros i. induction Hb as [|tx txs Ht Hts IH]; intros n; cbn [apply_txs]; [apply fixes_ret|].
    apply fixes_bind; [|intros a; apply fixes_bind; [apply IH|intros; apply fixes_ret]].
    unfold apply_tx. do 3 (apply fixes_bind; [by apply fixes_blind|intros ?]).
    apply fixes_bind; [by apply pool_apply_type|intros failed]. auto 10 with fixes. }
  rewrite append_block_inner_close. apply fixes_bind; [apply fixes_gets|intros i].
  apply fixes_bind; [done|intros _]. apply fixes_bind; [by apply frame_begin_block|intros es].
  apply fixes_bind; [apply Htxs|intros l]. by apply frame_close_block.
Qed.

Section Keep.
Context (next : string → Z) (l0 : list Transaction).
Abbreviation kept := (λ s, shrunk next l0 (pool s)).
Lemma kept_fixes {A} (m : M Chain A) : fixes pool m → keeps kept m.
Proof. apply (fixes_keeps pool (shrunk next l0)). Qed.
Lemma kept_revoke_key tid tx : keeps kept (apply_revoke_key tid tx).
Proof.
  unfold apply_revoke_key.
  do 2 (apply keeps_bind; [apply keeps_lift|intros ?]).
  apply keeps_bind; [by apply kept_fixes, fixes_blind|intros _]. destruct (bool_decide _).
  - apply kept_fixes. apply fixes_bind; [by apply fixes_blind|intros _]. by apply fixes_blind.
  - apply keeps_when. intros s Hs. apply wp_on, wp_modify. by apply shrunk_purge.
Qed.
Lemma kept_apply_type i tx : keeps kept (apply_type i tx).
Proof.
  destruct (decide (tx_type tx = REVOKE_KEY)) as [Ht|Ht].
  - unfold apply_type. rewrite Ht. apply keeps_bind; [apply kept_revoke_key|intros; apply keeps_ret].
  - by apply kept_fixes, pool_apply_type.
Qed.
Lemma kept_apply_txs b i n txs : keeps kept (apply_txs b i n txs).
Proof.
  revert n. induction txs as [|tx txs IH]; intros n; cbn [apply_txs]; [apply keeps_ret|].
  apply keeps_bind; [|intros a; apply keeps_bind; [apply IH|intros; apply keeps_ret]].
  unfold apply_tx. do 3 (apply keeps_bind; [by apply kept_fixes, fixes_blind|intros ?]).
  apply keeps_bind; [apply kept_apply_type|intros failed].
  apply keeps_bind; [apply keeps_get|intros s0]. apply keeps_bind; [apply keeps_lift|intros; apply keeps_ret].
Qed.
Lemma kept_append b : keeps kept (append_block_inner b).
Proof.
  rewrite append_block_inner_close. apply keeps_bind; [apply keeps_gets|intros i].
  apply keeps_bind; [by apply kept_fixes|intros _].
  apply keeps_bind; [by apply kept_fixes, frame_begin_block|intros es].
  apply keeps_bind; [apply kept_apply_txs|intros l].
  by apply kept_fixes, frame_close_block.
Qed.
End Keep.

(** Draining the applied block from what is left of the pool it was drawn from *)
Lemma drain_after_append s s' b :
  pool_at (get_next_nonce s) (pool s) → nonces_follow (get_next_nonce s) (transactions b) →
  (∀ tx, tx ∈ transactions b → tx ∈ tx_pool (pool s)) →
  append_block_inner b s = (Ok tt, s') →
  (∀ a, get_next_nonce s' a = get_next_nonce s a + count_sender a (transactions b)) →
  pool_at (get_next_nonce s') (drain_step b (pool s')).
Proof.
  intros Hp Hn Hin Hrun Hnext.
  pose proof (kept_append (get_next_nonce s) (tx_pool (pool s)) b s (shrunk_start _ _ Hp)) as Hk.
  unfold wp in Hk. rewrite Hrun in Hk. destruct Hk as [Hp' [R HR]].
  eapply pool_at_ext; [intros a; symmetry; apply Hnext|]. apply drain_pool_at; [done|done|].
  intros tx Htx. rewrite HR. destruct (decide (sender tx ∈ R)) as [Hr|Hr].
  - right. split.
    + unfold of_sender. rewrite list_filter_filter. apply filter_none. intros t _ [Hst Hnr]. by rewrite Hst in Hnr.
    + intros (t & Hid & [Hnr Ht]%list_elem_of_filter)%list_elem_of_fmap.
      by rewrite (NoDup_fmap_eq tx_id (tx_pool (pool s)) tx t (po_unique _ _ Hp) (Hin _ Htx) Ht Hid) in Hr.
  - left. apply list_elem_of_filter. split; [done|by apply Hin].
Qed.
End PoolLaws.

(** ** What production selects *)

Lemma elem_of_sort_by {A} (leb : A → A → bool) l x : x ∈ sort_by leb l ↔ x ∈ l.
Proof.
  assert (∀ y l, x ∈ insert_by leb y l ↔ x = y ∨ x ∈ l) as Hins.
  { intros y l'. induction l' as [|z l' IH]; cbn [insert_by]; [set_solver|]. destruct (leb y z); set_solver. }
  unfold sort_by. induction l as [|y l IH]; cbn [foldr]; [set_solver|]. rewrite Hins, IH. set_solver.
Qed.
Lemma queues_sub txs : Forall (λ q, Forall (λ t, t ∈ txs) q.2) (queues txs).
Proof.
  unfold queues. induction txs as [|tx txs IH] using rev_ind; [constructor|]. rewrite foldl_app. cbn [foldl].
  assert (Forall (λ q : string * list Transaction, Forall (λ t, t ∈ txs ++ [tx]) q.2)
    (foldl (λ d tx, dset d (sender tx) (dget_or d (sender tx) [] ++ [tx])) [] txs)) as Hall.
  { eapply list.Forall_impl; [exact IH|]. intros q Hq. eapply list.Forall_impl; [exact Hq|]. cbn. set_solver. }
  apply (Forall_dset (λ q, Forall (λ t, t ∈ txs ++ [tx]) q)); [done|]. apply list.Forall_app. split.
  - by apply (Forall_dget_or (λ q, Forall (λ t, t ∈ txs ++ [tx]) q)).
  - repeat constructor. set_solver.
Qed.
Lemma take_fitting_sub q txs w t : t ∈ (take_fitting q txs w).1 → t ∈ txs ∨ t ∈ q.
Proof.
  revert txs w. induction q as [|x q IH]; intros txs w; cbn [take_fitting]; [by left|].
  destruct (_ <=? _); [by left|]. destruct (_ <? _); [by left|]. intros [Ht|Ht]%IH; set_solver.
Qed.
Lemma select_dynamic_sub bf pool t : t ∈ select_dynamic bf pool → t ∈ pool.
Proof.
  unfold select_dynamic. set (eligible := filter _ pool). intros Ht.
  assert (t ∈ eligible) as Hel; [|by apply list_elem_of_filter in Hel as [_ Hel]]. revert Ht.
  set (qs := sort_by _ _). assert (∀ q, q ∈ qs → ∀ u, u ∈ q.2 → u ∈ eligible) as Hqs.
  { intros q Hq u Hu. apply elem_of_sort_by in Hq. apply list_elem_of_fmap in Hq as (q0 & -> & Hq0).
    cbn in Hu. apply elem_of_sort_by in Hu. pose proof (Forall_in _ _ _ (queues_sub eligible) Hq0) as Hf.
    by apply (Forall_in _ _ _ Hf). }
  assert (∀ u, u ∈ (@nil Transaction, 0).1 → u ∈ eligible) as Hacc by (cbn; set_solver).
  generalize dependent (@nil Transaction, 0). clearbody qs. induction qs as [|q qs IH]; intros acc Hacc Ht; cbn [foldl] in Ht.
  - by apply Hacc.
  - apply (IH ltac:(intros; eapply Hqs; [by right|done]) (take_fitting q.2 acc.1 acc.2)); [|done].
    intros u [Hu|Hu]%take_fitting_sub; [by apply Hacc|]. eapply Hqs; [by left|done].
Qed.

Section Produce.
Context `{C : Crypto} `{Cfg : ChainConfig}.

Lemma draft_block_sub now s p v d : draft_block now s p v = Some d →
  index d = index p + 1 ∧ prev_hash d = block_hash p ∧ validator d = v ∧
  ∀ t, t ∈ transactions d → t ∈ tx_pool (pool s).
Proof.
  unfold draft_block. destruct (select_txs s p) as [txs bf] eqn:E. destruct (_ && _); [done|]. intros [= <-].
  split_and!; [done..|]. cbn. intros t Ht. unfold select_txs in E. destruct (dynamic_active _); injection E as <- <-.
  - by apply select_dynamic_sub in Ht.
  - by apply elem_of_take in Ht as (i & Hl & _); apply list_elem_of_lookup; eauto.
Qed.

(** Stamping touches the tip, its hash and nothing else. *)
Lemma stamp_run b sr rr sk s signed s' : stamp_and_sign b sr rr sk s = (Ok signed, s') →
  (∃ sig, signed = set_signature (stamp_roots b sr rr) sig) ∧
  s' = s <| chain_list ::= <[Z.to_nat (index b) := signed]> |> <| latest_block := Some signed |>
         <| idx ::= set block_by_hash (λ m, <[block_hash signed := index b]> (delete (block_hash b) m)) |>.
Proof.
  unfold stamp_and_sign, replace_tip, reindex. unfold mbind, M_bind, modify, lift, mret, M_ret.
  unfold block_sign. destruct (MLDSA_sign sk _) as [sig|]; [|done]. cbn. intros [= <- <-].
  split; [by eexists|]. destruct s as [a1 a2 a3 a4 a5 a6 a7 a8 a9 a10 a11 a12]. unfold set, set_chain_list, set_latest_block, set_idx. cbn. f_equal. apply list_insert_insert_eq.
Qed.

Lemma drain_pool_run b s : ∃ r p, drain_pool b s = (r, s <| pool := p |>).
Proof.
  unfold drain_pool, rebuild_pending_debits_cache, mbind, M_bind, get, lift, on, zoom, modify.
  destruct (debits_cache _ _ _ _) as [c|e]; eexists _, _; by destruct s.
Qed.
Lemma chain_ok_pool s p : chain_ok s → chain_ok (s <| pool := p |>).
Proof. by intros []. Qed.

(** *** The state root of the tip *)

Lemma seal_state_root b i s s' : seal_state b i s = (Ok tt, s') →
  last_state_root (trie s') = Some (hex (trie_root (state_trie (trie s')))) ∧
  (state_root b ≠ EmptyString → state_root b = hex (trie_root (state_trie (trie s')))).
Proof.
  unfold seal_state. unfold mbind at 1, M_bind at 1. destruct (rebuild_state_trie s) as [[[]|e] s1]; [|done].
  unfold mbind, M_bind, gets, on, zoom, modify, lift, check_root.
  set (root := hex (trie_root (state_trie (trie s1)))). destruct (state_root b) as [|c t] eqn:Eb; cbn [is_empty negb andb].
  - intros [= <-]. split; [done|by intros []].
  - destruct (bool_decide (String c t = root)) eqn:Er; cbn [negb]; [|done]. apply bool_decide_eq_true in Er.
    intros [= <-]. split; [done|by intros _].
Qed.
Lemma append_state_root b s s' : append_block_inner b s = (Ok tt, s') →
  last_state_root (trie s') = Some (hex (trie_root (state_trie (trie s')))) ∧
  (state_root b ≠ EmptyString → state_root b = hex (trie_root (state_trie (trie s')))).
Proof.
  set (π := λ s : Chain, (last_state_root (trie s), state_trie (trie s))).
  rewrite append_block_inner_settle. unfold mbind at 1, M_bind at 1, gets. unfold mbind at 1, M_bind at 1.
  destruct (settle_block b s) as [[x|e] s1]; [|done]. unfold finish_block. set (i := height s + 1).
  unfold mbind at 1, M_bind at 1, on at 1, zoom at 1, modify at 1. cbv beta iota. set (s2 := set recs _ _).
  unfold mbind at 1, M_bind at 1. destruct (seal_receipts b x.1 s2) as [[[]|e] s3]; [|done].
  unfold mbind at 1, M_bind at 1. destruct (seal_state b i s3) as [[[]|e] s4] eqn:E4; [|done].
  intros Hrun. apply seal_state_root in E4.
  assert (fixes π (_ ← prune_history i; update_finality i)) as Hf.
  { apply fixes_bind; [|intros _; by apply frame_update_finality]. unfold prune_history.
    assert (∀ f, fixes π (on trie (modify (set state_snapshots f)))) by done.
    assert (∀ m : M Receipts unit, fixes π (on recs m)) by (intros; by apply fixes_on).
    assert (∀ m : M Ledger unit, fixes π (on ledger m)) by (intros; by apply fixes_on). auto 10 with fixes. }
  specialize (Hf s4). rewrite Hrun in Hf. injection Hf as -> ->. exact E4.
Qed.

(** *** Accepted and produced blocks *)

Lemma add_block_run now b s s' : chain_ok s → 0 <= height s → add_block now b s = (Ok None, s') →
  ∃ p s1, latest_block s = Some p ∧ valid_successor now s b p ∧ state_root b ≠ EmptyString ∧
    append_block_inner b s = (Ok tt, s1) ∧ drain_pool b s1 = (Ok tt, s').
Proof.
  intros Hs Hh. unfold add_block, get. unfold mbind at 1, M_bind at 1. destruct (bool_decide _); [done|].
  destruct (Z.eqb_spec (index b) (height s + 1)) as [Hi|]; [|by destruct (_ && _)].
  rewrite (proj2 (Z.ltb_lt 0 (index b))) by lia. unfold mbind at 1, M_bind at 1, lift.
  destruct (validate_block now s b (latest_block s)) as [[m|]|e] eqn:Ev; [done| |done]. cbn [andb].
  destruct (is_empty (state_root b)) eqn:Er; [done|]. unfold refused_on_value_error.
  destruct (append_block b s) as [[[]|e] s1] eqn:Ea; [|by destruct e]. unfold mbind, M_bind.
  destruct (drain_pool b s1) as [[[]|e] s2] eqn:Ed; [|done]. intros [= <-].
  rewrite (ck_tip _ Hs) in *. destruct (list.last (chain_list s)) as [p|] eqn:El.
  2:{ apply last_None in El. rewrite (ck_height _ Hs), El in Hh. cbn in Hh. lia. }
  exists p, s1. split; [done|]. split; [by apply validate_block_accept; [lia|]|]. split; [intros Hr; by rewrite Hr in Er|].
  split; [by apply append_block_ok|done].
Qed.

Lemma produce_block_run now v sk s b s' : produce_block now v sk s = (Ok (Some b), s') →
  0 <= height s ∧ ∃ p d blk s1 s2, latest_block s = Some p ∧ draft_block now s p v = Some d ∧ block_sign d sk = Ok blk ∧
    validate_block now s blk (Some p) = accept ∧ append_block_inner blk s = (Ok tt, s1) ∧
    stamp_and_sign blk (default (hex (trie_root (state_trie (trie s1)))) (last_state_root (trie s1)))
      (default EmptyString (last_receipts_root (trie s1))) sk s1 = (Ok b, s2) ∧
    drain_pool b s2 = (Ok tt, s').
Proof.
  unfold produce_block, get. unfold mbind at 1, M_bind at 1. destruct (Z.ltb_spec (height s) 0); [done|].
  destruct (latest_block s) as [p|] eqn:Ep; [|done]. unfold mbind at 1, M_bind at 1, lift.
  destruct (select_validator _ _ _ _ _ _) as [e|]; [|done]. destruct (match e with Some _ => _ | None => _ end); [done|].
  destruct (is_key_revoked _ _ _); [done|]. destruct (draft_block now s p v) as [d|] eqn:Ed; [|done].
  unfold mbind at 1, M_bind at 1. destruct (block_sign d sk) as [blk|] eqn:Eb; [|done].
  unfold mbind at 1, M_bind at 1. destruct (validate_block now s blk (Some p)) as [[m|]|] eqn:Ev; [done| |done].
  unfold mbind at 1, M_bind at 1. destruct (append_block blk s) as [[[]|] s1] eqn:Ea; [|done].
  unfold mbind at 1, M_bind at 1. unfold mbind at 1, M_bind at 1.
  destruct (stamp_and_sign _ _ _ _ s1) as [[b'|] s2] eqn:Es; [|done]. unfold mbind, M_bind.
  destruct (drain_pool b' s2) as [[[]|] s3] eqn:Edr; [|done]. intros [= <- <-]. split; [done|].
  exists p, d, blk, s1, s2. split_and!; try done. by apply append_block_ok.
Qed.
End Produce.

(** ** Reachable chains *)

Section Reachable.
Context `{C : Crypto} `{Cfg : ChainConfig}.

Lemma accepted_extends now b s s' : chain_ok s → 0 <= height s → add_block now b s = (Ok None, s') →
  chain_ok s' ∧ chain_list s' = chain_list s ++ [b] ∧ height s' = height s + 1.
Proof.
  intros Hs Hh Hrun. destruct (add_block_run now b s s' Hs Hh Hrun) as (p & s1 & Hp & Hv & _ & Happ & Hdr).
  destruct (chain_ok_grow now s b p s1 Hs Hp Hv Happ) as [H1 _]. destruct (drain_pool_run b s1) as (r & q & Hq).
  rewrite Hq in Hdr. injection Hdr as _ <-. apply append_spine in Happ. injection Happ as E1 _ E3 _ _ _.
  split; [by apply chain_ok_pool|]. done.
Qed.

Lemma produced_extends now v sk s b s' : chain_ok s → produce_block now v sk s = (Ok (Some b), s') →
  chain_ok s' ∧ chain_list s' = chain_list s ++ [b] ∧ height s' = height s + 1 ∧
  state_root b = hex (trie_root (state_trie (trie s'))) ∧ validator b = v ∧
  (pool_ok s → pool_ok s').
Proof.
  intros Hs Hrun. destruct (produce_block_run now v sk s b s' Hrun)
    as (Hh & p & d & blk & s1 & s2 & Hp & Hd & Hb & Hv & Happ & Hst & Hdr).
  destruct (chain_ok_tip s p Hs Hp) as (l & Hl & Hip & _).
  destruct (draft_block_sub _ _ _ _ _ Hd) as (Hdi & Hdp & Hdv & Hsub).
  unfold block_sign in Hb. destruct (MLDSA_sign sk _) as [sig|]; [|done]. injection Hb as <-.
  set (blk := set_signature d sig) in *. assert (index blk = height s + 1) as Hbi by (cbn; lia).
  apply (validate_block_accept now s blk p ltac:(lia)) in Hv.
  destruct (chain_ok_grow now s blk p s1 Hs Hp Hv Happ) as [H1 Hnext].
  destruct (append_state_root blk s s1 Happ) as [Hroot _]. rewrite Hroot in Hst. cbn [default] in Hst.
  pose proof Happ as Hsp. apply append_spine in Hsp. injection Hsp as E1 E2 E3 _ E5 E6.
  destruct (stamp_run _ _ _ _ _ _ _ Hst) as ((sig' & Hsig) & Hs2). set (sr := hex _) in *. set (rr := default EmptyString _) in *.
  assert (chain_list s2 = chain_list s ++ [b]) as Hcl.
  { rewrite Hs2. change (<[Z.to_nat (index d) := b]> (chain_list s1) = chain_list s ++ [b]).
    rewrite E1, Hdi, Hip, (ck_height _ Hs). replace (Z.to_nat _) with (length (chain_list s) + 0)%nat by lia.
    by rewrite insert_app_r. }
  assert (chain_ok s2) as H2.
  { eapply (chain_ok_restamp s1 (chain_list s) blk b); [done|done| |exact Hcl|by rewrite Hs2..]. by rewrite Hsig. }
  destruct (drain_pool_run b s2) as (r & q & Hq). rewrite Hdr in Hq. injection Hq as _ Hq.
  split; [rewrite Hq; by apply chain_ok_pool|]. split; [by rewrite Hq|]. split; [rewrite Hq, Hs2; cbn; lia|].
  split; [rewrite Hq, Hs2, Hsig; done|]. split; [rewrite Hsig; done|].
  intros [Hpool Hdebt].
  assert (transactions b = transactions blk) as Htxs by by rewrite Hsig.
  pose proof (drain_after_append s s1 blk Hpool (vs_nonces _ _ _ _ Hv) Hsub Happ Hnext) as Hdrained.
  assert (pool s2 = pool s1) as Hp2 by by rewrite Hs2.
  assert (drain_step b (pool s2) = drain_step blk (pool s1)) as Hds.
  { unfold drain_step. by rewrite Hp2, Htxs. }
  assert (∀ a, get_next_nonce s2 a = get_next_nonce s1 a) as Hnn by (intros a; by rewrite Hs2).
  destruct (drain_run s2 b) as (cache & Hrun2 & Hc).
  { pose proof (kept_append (get_next_nonce s) (tx_pool (pool s)) blk s (shrunk_start _ _ Hpool)) as Hk.
    unfold wp in Hk. rewrite Happ in Hk. rewrite Hp2. apply (po_valid _ _ (proj1 Hk)). }
  rewrite Hdr in Hrun2. injection Hrun2 as ->. split.
  - rewrite <-Hds in Hdrained. eapply pool_at_ext; [intros a; symmetry; apply Hnn|].
    by destruct Hdrained.
  - exact Hc.
Qed.

Lemma foldl_nonce_step_genesis m txs : foldl (nonce_step 0) m txs = m.
Proof. induction txs as [|tx txs IH]; [done|]. cbn [foldl]. exact IH. Qed.

(** How a chain starts: one signed block with at most one transaction *)
Lemma init_run now v sk pk s : init_chain now v sk pk empty_Chain = (Ok tt, s) →
  ∃ txs sig s1 st sr rr signed s3,
    let g := set_signature (block_genesis now v txs) sig in
    (length txs <= 1)%nat ∧ Forall (λ tx, tx_type tx ≠ REVOKE_KEY) txs ∧
    append_block_inner g empty_Chain = (Ok tt, s1) ∧
    stamp_and_sign g sr rr sk (s1 <| staking := st |>) = (Ok signed, s3) ∧
    s = s3 <| cons ::= set genesis_hash (λ _, block_hash signed) |>.
Proof.
  unfold init_chain, get. unfold mbind at 1, M_bind at 1, when at 1. cbn [height empty_Chain Z.ltb Z.compare].
  unfold mbind at 1, M_bind at 1, lift at 1. set (r := if is_empty _ then Ok [] else _).
  assert (∀ txs, r = Ok txs → (length txs <= 1)%nat ∧ Forall (λ tx, tx_type tx ≠ REVOKE_KEY) txs) as Hlen.
  { intros txs. subst r. destruct (is_empty (if is_empty pk then _ else _)); [intros [= <-]; split; [cbn; lia|constructor]|].
    unfold mbind, result_bind, tx_sign. destruct (MLDSA_sign _ _); [|done]. intros [= <-]. split; [cbn; lia|].
    by repeat constructor. }
  destruct r as [txs|e]; [|done]. destruct (Hlen txs eq_refl) as [Hlen1 Htypes].
  unfold mbind at 1, M_bind at 1, lift at 1. unfold block_sign at 1. destruct (MLDSA_sign sk _) as [sig|]; [|done].
  cbn [mbind result_bind]. set (g := set_signature _ sig). unfold mbind at 1, M_bind at 1.
  destruct (append_block g empty_Chain) as [[[]|e] s1] eqn:Ha; [|done]. apply append_block_ok in Ha.
  unfold mbind at 1, M_bind at 1. set (m := when _ _). assert (∃ st, m s1 = (Ok tt, s1 <| staking := st |>)) as [st ->].
  { subst m. unfold when, on, zoom, modify. destruct (negb _); [by eexists|].
    exists (staking s1). by destruct s1. }
  unfold mbind at 1, M_bind at 1, get. unfold mbind at 1, M_bind at 1. set (s2 := s1 <| staking := st |>).
  destruct (stamp_and_sign g _ _ sk s2) as [[signed|e] s3] eqn:Est; [|done]. unfold on, zoom, set_the_genesis_hash, modify.
  intros [= <-]. eexists txs, sig, s1, st, _, _, signed, s3. split; [done|]. split; [done|]. split; [done|]. split; [exact Est|done].
Qed.

Lemma genesis_ok now v sk pk s : init_chain now v sk pk empty_Chain = (Ok tt, s) →
  chain_ok s ∧ height s = 0 ∧ pool_ok s.
Proof.
  intros Hrun. destruct (init_run now v sk pk s Hrun) as (txs & sig & s1 & st & sr & rr & signed & s3 & Hlen1 & Htypes & Ha & Est & ->).
  set (g := set_signature _ sig) in *. pose proof Ha as Hsp. apply append_spine in Hsp.
  cbn [chain_list height idx cons empty_Chain block_by_hash sender_nonce chain_tx_ids empty_Index empty_Consensus app] in Hsp.
  change (-1 + 1) with 0 in Hsp. rewrite foldl_nonce_step_genesis in Hsp. injection Hsp as E1 E2 E3 _ E5 E6.
  assert (pool_at (λ _, 0) empty_Pool) as Hempty.
  { split; try done; try constructor; by vm_compute. }
  pose proof (pool_append g Htypes empty_Chain) as Hp1. rewrite Ha in Hp1. cbn in Hp1.
  assert (chain_ok s1) as H1.
  { split; rewrite ?E1, ?E2, ?E3, ?E6; [done|done|..].
    - intros i b Hb. apply list_lookup_singleton_Some in Hb as [-> <-]. done.
    - intros i p b _ Hb. by apply list_lookup_singleton_Some in Hb as [??].
    - unfold all_txs. csimpl. rewrite app_nil_r. cbn. set_solver.
    - unfold all_txs. csimpl. rewrite app_nil_r. cbn. destruct txs as [|t [|]]; [constructor|apply NoDup_singleton|cbn in Hlen1; lia].
    - intros a. unfold get_next_nonce. rewrite E5. done.
    - intros a. unfold get_next_nonce. by rewrite E5. }
  destruct (stamp_run _ _ _ _ _ _ _ Est) as ((sig' & Hsig) & Hs3). assert (chain_list s3 = [signed]) as Hl3.
  { rewrite Hs3. change (<[Z.to_nat 0 := signed]> (chain_list s1) = [signed]). by rewrite E1. }
  split; [|split; [by rewrite Hs3; cbn|]].
  - eapply (chain_ok_restamp s1 [] g signed); [done|by rewrite E1| |..]; try (by rewrite Hs3).
    + by rewrite Hsig.
    + exact Hl3.
  - assert (pool s3 = pool s1) as Hp3 by by rewrite Hs3. split.
    + rewrite Hs3 at 2. cbn. rewrite Hp1. eapply pool_at_ext; [|exact Hempty]. intros a. unfold get_next_nonce.
      rewrite Hs3. cbn. by rewrite E5.
    + unfold debits_exact. cbn. by rewrite Hp3, Hp1.
Qed.

(** The operations that return, as steps of a running node.  A block refused by
    an exception is not a step: [rejected_transfer_corrupts] shows what the
    refusal leaves behind. *)
Inductive step (s : Chain) : Chain → Prop :=
  | step_submit now tx r s' : submit_tx now tx s = (r, s') → step s s'
  | step_accept now b s' : add_block now b s = (Ok None, s') → step s s'
  | step_produce now v sk o s' : produce_block now v sk s = (Ok o, s') → step s s'
  | step_activate v s' : activate_financial_layer v s = (Ok tt, s') → step s s'.
Inductive reachable : Chain → Prop :=
  | reach_genesis now v sk pk s : init_chain now v sk pk empty_Chain = (Ok tt, s) → reachable s
  | reach_step s s' : reachable s → step s s' → reachable s'.

Lemma spine_activate v : fixes spine (activate_financial_layer v).
Proof.
  pose proof (frame_rebuild spine ltac:(done)). unfold activate_financial_layer. auto 20 with fixes.
Qed.
Lemma chain_ok_spine s s' : spine s' = spine s → chain_ok s → chain_ok s'.
Proof.
  intros [= E1 E2 E3 _ E5 E6] []. split; unfold get_next_nonce in *; rewrite ?E1, ?E2, ?E3, ?E5, ?E6; done.
Qed.
Lemma produce_none now v sk s s' : produce_block now v sk s = (Ok None, s') → s' = s.
Proof.
  unfold produce_block, get. unfold mbind at 1, M_bind at 1. destruct (_ <? 0); [by intros [= <-]|].
  destruct (latest_block s) as [p|]; [|done]. unfold mbind at 1, M_bind at 1, lift.
  destruct (select_validator _ _ _ _ _ _) as [e|]; [|done].
  destruct (match e with Some _ => _ | None => _ end); [by intros [= <-]|].
  destruct (is_key_revoked _ _ _); [by intros [= <-]|]. destruct (draft_block now s p v) as [d|]; [|by intros [= <-]].
  unfold mbind at 1, M_bind at 1. destruct (block_sign d sk) as [blk|]; [|done].
  unfold mbind at 1, M_bind at 1. destruct (validate_block now s blk (Some p)) as [[m|]|]; [by intros [= <-]| |done].
  unfold mbind at 1, M_bind at 1. destruct (append_block blk s) as [[[]|] s1]; [|done].
  unfold mbind at 1, M_bind at 1. unfold mbind at 1, M_bind at 1.
  destruct (stamp_and_sign _ _ _ _ s1) as [[b'|] s2]; [|done]. unfold mbind, M_bind.
  by destruct (drain_pool b' s2) as [[[]|] s3].
Qed.
Lemma submit_spine now tx s : spine (submit_tx now tx s).2 = spine s.
Proof.
  unfold submit_tx, get, lift. unfold mbind, M_bind. destruct (admission now s tx) as [[m|]|e]; [done| |done].
  by destruct (calc_tx_debit _ _ tx).
Qed.

Lemma step_ok s s' : step s s' → chain_ok s → 0 <= height s → chain_ok s' ∧ 0 <= height s'.
Proof.
  intros Hst Hs Hh. destruct Hst as [now tx r s' Hrun|now b s' Hrun|now v sk [b|] s' Hrun|v s' Hrun].
  - pose proof (submit_spine now tx s) as Hsp. rewrite Hrun in Hsp. cbn in Hsp.
    split; [by eapply chain_ok_spine|]. injection Hsp as _ _ -> _ _ _. done.
  - destruct (accepted_extends now b s s' Hs Hh Hrun) as (H1 & _ & ->). split; [done|lia].
  - destruct (produced_extends now v sk s b s' Hs Hrun) as (H1 & _ & -> & _). split; [done|lia].
  - apply produce_none in Hrun as ->. done.
  - pose proof (spine_activate v s) as Hsp. rewrite Hrun in Hsp. cbn in Hsp.
    split; [by eapply chain_ok_spine|]. injection Hsp as _ _ -> _ _ _. done.
Qed.
Lemma reachable_ok s : reachable s → chain_ok s ∧ 0 <= height s.
Proof.
  induction 1 as [now v sk pk s Hrun|s s' _ [Hs Hh] Hst]; [|by eapply step_ok].
  destruct (genesis_ok now v sk pk s Hrun) as (H1 & -> & _). split; [done|lia].
Qed.

(** Nonces that follow never go back. *)
Lemma nonces_follow_ge next txs tx : nonces_follow next txs → tx ∈ txs → next (sender tx) <= nonce tx.
Proof.
  revert next. induction txs as [|t txs IH]; intros next; cbn [nonces_follow]; [set_solver|].
  intros [Hn Hf] [->|Hin]%elem_of_cons; [lia|]. specialize (IH _ Hf Hin). cbn beta in IH. case_decide; lia.
Qed.
End Reachable.

(** ** Properties *)

(** C1 Exactly once, in order: on every chain a node reaches from genesis by
    submitting transactions, accepting blocks, producing blocks and activating
    the balance ledger, no transaction identifier occurs twice, the nonces of
    each sender after genesis are 0, 1, 2, ... up to the next expected one,
    every block carries its height and the hash of the block before it, and
    timestamps increase. *)
Theorem chain_applies_once_in_order `{C : Crypto} `{Cfg : ChainConfig} (s : Chain) (Hs : reachable s) :
  NoDup (tx_id <$> all_txs (chain_list s)) ∧
  (∀ a, nonce <$> of_sender a (all_txs (tail (chain_list s))) = seqZ 0 (get_next_nonce s a)) ∧
  (∀ i b, chain_list s !! i = Some b → index b = Z.of_nat i) ∧
  (∀ i p b, chain_list s !! i = Some p → chain_list s !! S i = Some b →
     prev_hash b = block_hash p ∧ blk_timestamp p < blk_timestamp b) ∧
  latest_block s = list.last (chain_list s) ∧ height s = Z.of_nat (length (chain_list s)) - 1.
Proof. by destruct (reachable_ok s Hs) as [[] _]. Qed.

(** A block accepted from the network is a valid successor of the tip and
    becomes the new tip, and the state root in its header is the root of the
    receiver's own state after applying it. *)
Lemma accepted_block_commits_state `{C : Crypto} `{Cfg : ChainConfig} (now : Z) (b : Block) (s s' : Chain)
  (Hs : reachable s) (Hrun : add_block now b s = (Ok None, s')) :
  (∃ p, latest_block s = Some p ∧ valid_successor now s b p) ∧
  chain_list s' = chain_list s ++ [b] ∧
  state_root b = hex (trie_root (state_trie (trie s'))).
Proof.
  destruct (reachable_ok s Hs) as [Hok Hh].
  destruct (add_block_run now b s s' Hok Hh Hrun) as (p & s1 & Hp & Hv & Hne & Happ & Hdr).
  destruct (accepted_extends now b s s' Hok Hh Hrun) as (_ & Hl & _). destruct (append_state_root b s s1 Happ) as [_ Hroot].
  destruct (drain_pool_run b s1) as (r & q & Hq). rewrite Hdr in Hq. injection Hq as _ ->.
  split; [by exists p|]. split; [done|]. by apply Hroot.
Qed.

(** Production: the block [produce_block] returns was valid when drafted,
    extends the chain by one, carries the validator's address and the root of
    the state it leads to, and leaves the pool consistent with the new chain:
    what was mined is gone, every sender's remaining transactions continue
    from the new next nonce, all counts and cached debits are exact. *)
Lemma produced_block_extends `{C : Crypto} `{Cfg : ChainConfig} (now : Z) (v sk : string) (s s' : Chain) (b : Block)
  (Hs : reachable s) (Hrun : produce_block now v sk s = (Ok (Some b), s')) :
  chain_list s' = chain_list s ++ [b] ∧ validator b = v ∧
  state_root b = hex (trie_root (state_trie (trie s'))) ∧
  (pool_ok s → pool_ok s').
Proof.
  destruct (reachable_ok s Hs) as [Hok Hh].
  by destruct (produced_extends now v sk s b s' Hok Hrun) as (_ & Hl & _ & Hr & Hv & Hp).
Qed.

(** C39 A stale transaction stops a producer: once a transaction among the first
    200 of the pool has a nonce its sender has already used on the chain (its
    twin was mined elsewhere), no block is produced before dynamic fees,
    whatever else is pooled; nothing in production or admission removes it. *)
Theorem stale_pool_stops_production `{C : Crypto} `{Cfg : ChainConfig} (now : Z) (v sk : string) (s : Chain) (tx : Transaction)
  (Hs : reachable s) (Hdyn : height s + 1 < DYNAMIC_FEE_ACTIVATION_HEIGHT)
  (Hin : tx ∈ take 200 (tx_pool (pool s))) (Hstale : nonce tx < get_next_nonce s (sender tx)) :
  (∀ b, (produce_block now v sk s).1 ≠ Ok (Some b)) ∧
  (∀ now' t, tx ∈ take 200 (tx_pool (pool (submit_tx now' t s).2))).
Proof.
  destruct (reachable_ok s Hs) as [Hok Hh]. split.
  - intros b. destruct (produce_block now v sk s) as [r s'] eqn:Hrun. cbn. intros ->.
    destruct (produce_block_run now v sk s b s' Hrun) as (_ & p & d & blk & s1 & s2 & Hp & Hd & Hb & Hv & _).
    destruct (chain_ok_tip s p Hok Hp) as (l & _ & Hip & _).
    destruct (draft_block_sub _ _ _ _ _ Hd) as (Hdi & _).
    unfold block_sign in Hb. destruct (MLDSA_sign sk _) as [sig|]; [|done]. injection Hb as <-.
    assert (index (set_signature d sig) ≠ 0) as Hnz by (cbn; lia).
    apply (validate_block_accept now s _ p Hnz) in Hv. pose proof (vs_nonces _ _ _ _ Hv) as Hn.
    assert (tx ∈ transactions (set_signature d sig)) as Htx.
    { unfold draft_block, select_txs, dynamic_active in Hd. rewrite Hip in Hd.
      destruct (Z.leb_spec DYNAMIC_FEE_ACTIVATION_HEIGHT (height s + 1)); [lia|]. cbn [andb] in Hd.
      destruct (bool_decide _ && _); [done|]. injection Hd as <-. exact Hin. }
    pose proof (nonces_follow_ge _ _ tx Hn Htx). lia.
  - intros now' t. destruct (decide (admission now' s t = accept)) as [Ha|Ha]; [|by rewrite submit_refused].
    destruct (submit_run now' t s Ha) as (dd & _ & ->). cbn. rewrite take_app.
    apply elem_of_app. by left.
Qed.

(** *** Witnesses: two nodes from the same genesis, a transaction and its twin *)

(** The block a call of [produce_block] returned, and that it returned one *)
Definition block_of (r : result (option Block) * Chain) : Block :=
  match r.1 with Ok (Some b) => b | _ => mkBlock 0 EmptyString [] EmptyString 0 EmptyString 0 EmptyString EmptyString end.
Definition returned_block (r : result (option Block) * Chain) : bool :=
  match r.1 with Ok (Some _) => true | _ => false end.
Definition returned_none {A} (r : result (option A) * Chain) : bool :=
  match r.1 with Ok None => true | _ => false end.
Lemma block_of_run r : returned_block r = true → r = (Ok (Some (block_of r)), r.2).
Proof. by destruct r as [[[b|]|e] s]. Qed.
Lemma none_run {A} (r : result (option A) * Chain) : returned_none r = true → r = (Ok None, r.2).
Proof. by destruct r as [[[b|]|e] s]. Qed.
Lemma unit_run (r : result unit * Chain) : bool_decide (r.1 = Ok tt) = true → r = (Ok tt, r.2).
Proof. destruct r as [[[]|e] s]; [done|]. rewrite bool_decide_eq_true. by intros [=]. Qed.

#[local] Existing Instance Toy.crypto.
#[local] Existing Instance legacy_config.
Module Run.
Abbreviation genesis := (init_chain 900 Sample.addr "k" "k" empty_Chain).2.
Definition twin : Transaction := Sample.signed (mk_notarize 1000 Sample.addr 0 0 0 "cd" "") "k".
(** Node A pools the transaction, node B its twin, which B mines. *)
Abbreviation node_a := (submit_tx 1000 (Sample.tx 0) genesis).2.
Abbreviation node_b := (submit_tx 1000 twin genesis).2.
Abbreviation produced := (produce_block 1000 Sample.addr "k" node_b).
Abbreviation accepted := (add_block 1000 (block_of produced) node_a).
Abbreviation node_a' := (accepted.2).

Lemma produced_run : produced = (Ok (Some (block_of produced)), produced.2).
Proof. apply block_of_run. vm_compute. reflexivity. Qed.
Lemma accepted_run : accepted = (Ok None, node_a').
Proof. apply none_run. vm_compute. reflexivity. Qed.
Lemma reachable_genesis : reachable genesis.
Proof. apply (reach_genesis 900 Sample.addr "k" "k"), unit_run. vm_compute. reflexivity. Qed.
Lemma reachable_submit now tx s : reachable s → reachable (submit_tx now tx s).2.
Proof. intros Hs. eapply reach_step; [exact Hs|]. eapply step_submit, surjective_pairing. Qed.
Lemma reachable_a' : reachable node_a'.
Proof. eapply reach_step; [apply (reachable_submit 1000 (Sample.tx 0)), reachable_genesis|]. eapply step_accept, accepted_run. Qed.
End Run.

Lemma chain_applies_once_in_order_witness :
  length (chain_list Run.node_a') = 2%nat ∧
  nonce <$> of_sender Sample.addr (all_txs (tail (chain_list Run.node_a'))) = [0].
Proof.
  split; [vm_compute; reflexivity|].
  destruct (chain_applies_once_in_order (C := Toy.crypto) (Cfg := legacy_config) Run.node_a' Run.reachable_a') as (_ & H & _).
  rewrite H. vm_compute. reflexivity.
Defined.

Lemma stale_pool_stops_production_witness :
  tx_pool (pool Run.node_a') = [Sample.tx 0] ∧
  ∀ b, (produce_block (C := Toy.crypto) (Cfg := legacy_config) 2000 Sample.addr "k" Run.node_a').1 ≠ Ok (Some b).
Proof.
  split; [vm_compute; reflexivity|].
  apply (proj1 (stale_pool_stops_production (C := Toy.crypto) (Cfg := legacy_config) 2000 Sample.addr "k"
    Run.node_a' (Sample.tx 0) Run.reachable_a' ltac:(vm_compute; reflexivity)
    ltac:(apply (bool_decide_unpack _); vm_compute; exact I) ltac:(vm_compute; reflexivity))).
Defined.
