(* ===== verification/StoredLaws.v ===== *)
(** * A node with a database behaves as one without

    Every step of [Stored.v] is simulated by the step of [Apply.v] on a chain
    that keeps its blocks in a list: the same result, and a state in memory
    that differs only in that list and in the lists of transactions per
    address, which a node with a database prunes. *)
From S2P Require Import Store StoreLaws Prelude PyStr Json JsonText Config Crypto StateTrie Wallet Transaction Fees Block Receipt ChainState Ledger StateOps Staking Consensus ReceiptOps Apply Frames TxPool Rollback Persist Chain Stored ChainLaws.
Open Scope Z_scope.

(** ** What the two states may differ in *)

Definition other_lists (a b : gmap string (list string)) (ix : Index) : Index :=
  ix <| txs_by_sender := a |> <| txs_by_recipient := b |>.
Definition other (l : list Block) (a b : gmap string (list string)) (s : Chain) : Chain :=
  s <| chain_list := l |> <| idx ::= other_lists a b |>.

(** [m] does not depend on them, and leaves the list of blocks alone. *)
Definition respects {A} (m : M Chain A) : Prop := ∀ l a b s, ∃ a' b',
  m (other l a b s) = ((m s).1, other l a' b' (m s).2).

Section Respects.
Lemma respects_ret {A} (x : A) : respects (mret x).
Proof. intros l a b s. by exists a, b. Qed.
Lemma respects_raise {A} e : respects (raise (A:=A) e).
Proof. intros l a b s. by exists a, b. Qed.
Lemma respects_lift {A} (r : result A) : respects (lift r).
Proof. intros l a b s. by exists a, b. Qed.
Lemma respects_bind {A B} (m : M Chain A) (k : A → M Chain B) :
  respects m → (∀ x, respects (k x)) → respects (m ≫= k).
Proof.
  intros Hm Hk l a b s. destruct (Hm l a b s) as (a1 & b1 & E). unfold mbind, M_bind. rewrite E.
  destruct (m s) as [[x|e] s1]; cbn; [|by exists a1, b1]. apply Hk.
Qed.
Lemma respects_get {B} (k : Chain → M Chain B) :
  (∀ l a b s, k (other l a b s) = k s) → (∀ s, respects (k s)) → respects (get ≫= k).
Proof. intros H Hk l a b s. unfold get, mbind, M_bind. rewrite H. apply Hk. Qed.
Lemma respects_gets {A} (f : Chain → A) : (∀ l a b s, f (other l a b s) = f s) → respects (gets f).
Proof. intros H l a b s. exists a, b. unfold gets. by rewrite H. Qed.
Lemma respects_modify (f : Chain → Chain) : (∀ l a b s, f (other l a b s) = other l a b (f s)) → respects (modify f).
Proof. intros H l a b s. exists a, b. unfold modify. by rewrite H. Qed.
Lemma respects_when c m : respects m → respects (when c m).
Proof. destruct c; [done|intros _; apply respects_ret]. Qed.
Lemma respects_mfor {A} (f : A → M Chain unit) l : (∀ x, respects (f x)) → respects (mfor f l).
Proof. intros Hf. induction l as [|x l IH]; [apply respects_ret|]. apply respects_bind; [apply Hf|done]. Qed.
Lemma respects_on {T A} (ρ : Chain → T) `{!Setter ρ} (m : M T A) :
  (∀ l a b s, ρ (other l a b s) = ρ s) →
  (∀ l a b s t, set ρ (λ _, t) (other l a b s) = other l a b (set ρ (λ _, t) s)) → respects (on ρ m).
Proof. intros H1 H2 l a b s. exists a, b. unfold on, zoom. rewrite H1. destruct (m (ρ s)) as [r t]. by rewrite H2. Qed.
(** Operations on the index may extend the lists. *)
Lemma respects_idx {A} (m : M Index A) :
  (∀ a b ix, ∃ a' b', m (other_lists a b ix) = ((m ix).1, other_lists a' b' (m ix).2)) → respects (on idx m).
Proof.
  intros H l a b s. destruct (H a b (idx s)) as (a' & b' & E). exists a', b'. unfold on, zoom.
  change (idx (other l a b s)) with (other_lists a b (idx s)). rewrite E. by destruct (m (idx s)).
Qed.
End Respects.

Create HintDb respects.
#[export] Hint Resolve respects_ret respects_raise respects_lift respects_when respects_mfor : respects.
#[export] Hint Extern 1 (respects (get ≫= _)) => (apply respects_get; [intros; reflexivity|intros ?]) : respects.
#[export] Hint Extern 2 (respects (_ ≫= _)) => (apply respects_bind; [|intros ?]) : respects.
#[export] Hint Extern 1 (respects (gets _)) => (apply respects_gets; intros; reflexivity) : respects.
#[export] Hint Extern 1 (respects (modify _)) => (apply respects_modify; intros; reflexivity) : respects.
#[export] Hint Extern 1 (respects (on _ _)) => (apply respects_on; intros; reflexivity) : respects.
#[export] Hint Extern 3 (respects (if ?b then _ else _)) => destruct b : respects.
#[export] Hint Extern 3 (respects (match ?x with _ => _ end)) => destruct x : respects.

Section Parts.
Context `{C : Crypto} `{Cfg : ChainConfig} `{F : PyFloat}.

Lemma respects_epoch i : respects (check_epoch_transition i).
Proof. unfold check_epoch_transition, distribute_epoch_rewards. auto 20 with respects. Qed.
Lemma respects_evidence tx i : respects (process_evidence_tx tx i).
Proof. unfold process_evidence_tx, fromhex_or_return, slash_validator. auto 40 with respects. Qed.
Lemma respects_register_validator tx : respects (apply_register_validator tx).
Proof. unfold apply_register_validator, set_commission. auto 20 with respects. Qed.
Lemma respects_revoke_key tid tx : respects (apply_revoke_key tid tx).
Proof. unfold apply_revoke_key. auto 20 with respects. Qed.
Lemma respects_notarize tid tx : respects (on idx (apply_notarize tid tx)).
Proof.
  apply respects_idx. intros a b ix. exists a, b. unfold apply_notarize, lift, mbind, M_bind, modify, when.
  destruct (jget_str _ _) as [dh|e]; [|done]. by destruct (is_empty dh).
Qed.
Lemma respects_index i n tx : respects (on idx (modify (index_tx i n tx))).
Proof. apply respects_idx. intros a b ix. unfold modify. cbn. eexists _, _. reflexivity. Qed.
Lemma respects_rebuild : respects rebuild_state_trie.
Proof.
  assert (∀ k v, respects (put_entry k v)) by (intros; unfold put_entry; auto with respects).
  unfold rebuild_state_trie, put_balance, put_nonce, put_token_balance, put_token_supply. auto 20 with respects.
Qed.
#[local] Hint Resolve respects_epoch respects_evidence respects_register_validator respects_revoke_key
  respects_notarize respects_index respects_rebuild : respects.
Lemma respects_apply_type i tx : respects (apply_type i tx).
Proof. unfold apply_type. destruct (tx_type tx); auto 10 with respects. Qed.
Lemma respects_seal_receipts b rs : respects (seal_receipts b rs).
Proof. unfold seal_receipts. auto 10 with respects. Qed.
Lemma respects_seal_state b i : respects (seal_state b i).
Proof. unfold seal_state. auto 20 with respects. Qed.
End Parts.

(** ** Writes beside the blocks

    [n] leaves the tables of the log alone, and the only exception it raises is
    SQLite's refusal of a number of more than 64 bits. *)
Definition log_view (st : Store) : list (Z * (string * string)) * dict string TxRow * dict (string * string) bool * Z :=
  (t_blocks (db st), t_txs (db st), t_notarizations (db st), s_height st).
Definition writes (n : M Store unit) : Prop := ∀ st,
  match n st with (Ok _, st') => log_view st' = log_view st | (Raise e, _) => e = OverflowError end.

Section Writes.
Lemma writes_ret : writes (mret tt).
Proof. done. Qed.
Lemma writes_seq (n n' : M Store unit) : writes n → writes n' → writes (_ ← n; n').
Proof.
  intros H H' st. unfold mbind, M_bind. specialize (H st). destruct (n st) as [[[]|e] st1]; [|done].
  specialize (H' st1). destruct (n' st1) as [[[]|e] st2]; [congruence|done].
Qed.
Lemma writes_when c n : writes n → writes (when c n).
Proof. by destruct c. Qed.
Lemma writes_mfor {A} (f : A → M Store unit) l : (∀ x, writes (f x)) → writes (mfor f l).
Proof. intros Hf. induction l as [|x l IH]; [done|]. by apply writes_seq. Qed.
Lemma writes_exec f : (∀ d, (t_blocks (f d), t_txs (f d), t_notarizations (f d)) = (t_blocks d, t_txs d, t_notarizations d)) →
  writes (exec f).
Proof. intros H [c d h]. cbn. specialize (H d). unfold log_view. cbn. congruence. Qed.
Lemma writes_commit : writes commit.
Proof. done. Qed.
Lemma writes_bind64 z (k : Z → M Store unit) : (∀ x, writes (k x)) → writes (x ← lift (bind64 z); k x).
Proof. intros H st. unfold lift, mbind, M_bind, bind64. destruct (_ && _); [apply H|done]. Qed.
Lemma writes_atomic n : writes n → writes (atomic n).
Proof. intros H st. unfold atomic. specialize (H st). by destruct (n st) as [[[]|e] st1]. Qed.
End Writes.

Create HintDb writes.
#[export] Hint Resolve writes_ret writes_when writes_mfor writes_commit writes_atomic : writes.
#[export] Hint Extern 1 (writes (exec _)) => (apply writes_exec; intros; reflexivity) : writes.
#[export] Hint Extern 1 (writes (lift (bind64 _) ≫= _)) => (apply writes_bind64; intros ?) : writes.
#[export] Hint Extern 2 (writes (_ ≫= λ _, _)) => apply writes_seq : writes.
#[export] Hint Extern 3 (writes (if ?b then _ else _)) => destruct b : writes.
#[export] Hint Extern 3 (writes (match ?x with _ => _ end)) => destruct x : writes.

Section Sim.
Context `{C : Crypto} `{Cfg : ChainConfig} `{F : PyFloat}.

Lemma writes_persist_type before s i tx : writes (persist_type before s i tx).
Proof.
  unfold persist_type, persist_slash, write_token, write_token_balance, put_validator, delete_validator, put_revocation,
    Store.put_stake, delete_stake, put_unbonding, put_slashing_event, put_token, Store.put_token_balance, commit_if.
  destruct (tx_type tx); cbv zeta; auto 30 with writes.
Qed.
Lemma writes_balances s b i m : writes (persist_balances_after_block s b i m).
Proof. unfold persist_balances_after_block, Store.put_balance, put_supply, commit_if. auto 30 with writes. Qed.
Lemma writes_receipts i rs es : writes (persist_receipts i rs es).
Proof.
  unfold persist_receipts, put_receipt, put_block_level_events, insert_event, commit_if. auto 40 with writes.
Qed.

(** ** The simulation *)

Section Log.
Variable bs : list Block.

Definition view_of : list (Z * (string * string)) * dict string TxRow * dict (string * string) bool * Z :=
  (imap block_row bs, txs_of (placed bs), notarizations_of (placed bs), Z.of_nat (length bs) - 1).
(** The database holds the log, and the chain without one has it as its list. *)
Definition same (x : SChain) (s : Chain) : Prop := log_view (sql x) = view_of ∧ ∃ a b, s = other bs a b (mem x).
Definition sims {A} (m' : M SChain A) (m : M Chain A) : Prop := ∀ x s, same x s →
  match m' x with
  | (Ok v, x') => ∃ s', m s = (Ok v, s') ∧ same x' s'
  | (Raise e, _) => (m s).1 = Raise e ∨ e = OverflowError
  end.

Lemma sims_ret {A} (v : A) : sims (mret v) (mret v).
Proof. intros x s H. by exists s. Qed.
Lemma sims_lift {A} (r : result A) : sims (lift r) (lift r).
Proof. intros x s H. cbn. destruct r; [by exists s|by left]. Qed.
Lemma sims_bind {A B} (m' : M SChain A) m (k' : A → M SChain B) k :
  sims m' m → (∀ v, sims (k' v) (k v)) → sims (m' ≫= k') (m ≫= k).
Proof.
  intros Hm Hk x s H. specialize (Hm x s H). unfold mbind, M_bind. destruct (m' x) as [[v|e] x1].
  - destruct Hm as (s1 & -> & H1). by apply Hk.
  - destruct Hm as [Hm| ->]; [|by right]. left. destruct (m s) as [[?|?] ?]; [done|]. cbn in *. congruence.
Qed.
Lemma sims_mem {A} (m : M Chain A) : respects m → sims (on mem m) m.
Proof.
  intros Hm x s [Hv (a & b & ->)]. destruct (Hm bs a b (mem x)) as (a' & b' & E). rewrite E. unfold on, zoom.
  destruct (m (mem x)) as [[v|e] s']; cbn [fst snd]; [|by left]. eexists. split; [done|]. split; [done|]. by exists a', b'.
Qed.
Lemma sims_sql (n : M Store unit) : writes n → sims (on sql n) (mret tt).
Proof.
  intros Hn x s [Hv Hs]. specialize (Hn (sql x)). unfold on, zoom. destruct (n (sql x)) as [[[]|e] st]; [|by right].
  exists s. split; [done|]. split; [cbn; congruence|done].
Qed.
Lemma sims_skip {B} n (k' : M SChain B) k : writes n → sims k' k → sims (on sql n ≫= λ _, k') k.
Proof. intros Hn Hk. change k with (@mret (M Chain) _ _ tt ≫= λ _ : unit, k). by apply sims_bind; [apply sims_sql|intros []]. Qed.
Lemma sims_get {B} (k' : Chain → M SChain B) k :
  (∀ s a b, sims (k' s) (k (other bs a b s))) → sims (gets mem ≫= k') (get ≫= k).
Proof. intros Hk x s Hx. pose proof Hx as [_ (a & b & ->)]. exact (Hk (mem x) a b x _ Hx). Qed.
Lemma sims_peek {B} (k' : Chain → M SChain B) k : (∀ s, sims (k' s) k) → sims (gets mem ≫= k') k.
Proof. intros Hk x s Hx. exact (Hk (mem x) x s Hx). Qed.
Lemma sims_peek_at {B V} (f : Chain → V) (k' : V → M SChain B) k : (∀ v, sims (k' v) k) → sims (gets (λ x, f (mem x)) ≫= k') k.
Proof. intros Hk x s Hx. exact (Hk (f (mem x)) x s Hx). Qed.
Lemma sims_when c m' m : sims m' m → sims (when c m') (when c m).
Proof. destruct c; [done|intros _; apply sims_ret]. Qed.

(** *** The parts *)

Lemma sims_ext {A} (m' : M SChain A) m m2 : (∀ s, m s = m2 s) → sims m' m → sims m' m2.
Proof. intros E Hm x s H. specialize (Hm x s H). by rewrite <-E. Qed.
Lemma on_ledger_bind {A B} (m : M Ledger A) (k : A → M Ledger B) (s : Chain) :
  (v ← on ledger m; on ledger (k v)) s = on ledger (m ≫= k) s.
Proof.
  unfold on, zoom, mbind, M_bind. destruct (m (ledger s)) as [[v|e] t]; [|done]. cbn. by destruct (k v t) as [r t'].
Qed.
Lemma sims_release fin i l : sims (release_stored fin i l) (on ledger (release_matured fin i l)).
Proof.
  induction l as [|e l IH]; cbn [release_stored release_matured].
  { eapply sims_ext; [|apply sims_ret]. by intros []. }
  destruct (_ <=? _).
  - eapply sims_ext; [apply on_ledger_bind|]. apply sims_bind; [apply sims_mem; auto with respects|intros []].
    apply sims_skip; [unfold delete_unbonding, commit_if; auto 10 with writes|exact IH].
  - eapply sims_ext; [apply on_ledger_bind|]. apply sims_bind; [exact IH|intros l'].
    eapply sims_ext; [|apply sims_ret]. by intros [].
Qed.
Lemma sims_unbondings i : sims (stored_unbondings i) (process_mature_unbondings i).
Proof.
  apply sims_get. intros s a b. apply sims_bind; [apply sims_release|intros l]. apply sims_mem. auto with respects.
Qed.
(** What follows only writes. *)
Lemma sims_then (m' : M SChain unit) (m : M Chain unit) k' : sims m' m → sims k' (mret tt) → sims (_ ← m'; k') m.
Proof.
  intros Hm Hk. apply sims_ext with (_ ← m; mret tt).
  { intros s. unfold mbind, M_bind. by destruct (m s) as [[[]|?] ?]. }
  by apply sims_bind; [|intros _].
Qed.
Lemma sims_epoch_transition i : sims (stored_epoch_transition i) (check_epoch_transition i).
Proof.
  apply sims_peek. intros s. apply sims_then; [apply sims_mem, respects_epoch|]. apply sims_peek. intros s'. cbv zeta.
  destruct (rotates s i); [|apply sims_ret]. apply sims_sql. unfold put_epoch, commit_if. auto 10 with writes.
Qed.
Lemma sims_gets {A} (f : Chain → A) : (∀ a b s, f (other bs a b s) = f s) → sims (gets (λ x, f (mem x))) (gets f).
Proof. intros Hf x s Hx. exists s. split; [|done]. destruct Hx as [_ (a & b & ->)]. unfold gets. by rewrite Hf. Qed.
Lemma sims_begin i : sims (stored_begin i) (begin_block i).
Proof.
  apply sims_bind; [apply sims_unbondings|intros _]. apply sims_bind; [by apply sims_gets|intros e1].
  apply sims_bind; [apply sims_epoch_transition|intros _]. apply sims_bind; [by apply sims_gets|intros e2]. apply sims_ret.
Qed.
Lemma sims_tx b i n tx : sims (stored_tx b i n tx) (apply_tx b i n tx).
Proof.
  apply sims_bind; [apply sims_mem, respects_index|intros _]. apply sims_bind; [apply sims_mem; auto with respects|intros _].
  apply sims_bind; [apply sims_mem; auto with respects|intros fee]. apply sims_peek. intros before.
  apply sims_bind; [apply sims_mem, respects_apply_type|intros failed]. apply sims_get. intros s a b'.
  apply sims_skip; [apply writes_persist_type|]. apply sims_bind; [apply sims_lift|intros es; apply sims_ret].
Qed.
Lemma sims_txs b i n txs : sims (stored_txs b i n txs) (apply_txs b i n txs).
Proof.
  revert n. induction txs as [|tx txs IH]; intros n; [apply sims_ret|]. apply sims_bind; [apply sims_tx|intros v].
  apply sims_bind; [apply IH|intros l; apply sims_ret].
Qed.

(** *** Reading the log back *)

Lemma get_block_by_index_list s i : chain_list s = bs → get_block_by_index s i = if 0 <=? i then bs !! Z.to_nat i else None.
Proof.
  intros <-. unfold get_block_by_index. destruct (Z.leb_spec 0 i); [|done]. destruct (Z.ltb_spec i (Z.of_nat (length (chain_list s)))); [done|].
  cbn. rewrite lookup_ge_None_2; [done|lia].
Qed.
Context (Hs : Forall (λ b, storable b = true) bs).

Lemma view_block st i : log_view st = view_of → Store.get_block st i = Ok (if 0 <=? i then bs !! Z.to_nat i else None).
Proof using Hs.
  intros [= V1 V2 V3 V4]. rewrite <-(get_block_log bs (mkStore (db st) (db st) (s_height st))); [done|by split|done].
Qed.
Lemma stored_walk_log st s t total fuel : log_view st = view_of → chain_list t = bs → (∀ v, stake_of s v = stake_of t v) →
  ∀ bi seen c, stored_walk st s total fuel bi seen c = Ok (finality_walk t total fuel bi seen c).
Proof using Hs.
  intros Hv Hl Hst. induction fuel as [|fuel IH]; intros bi seen c; [done|]. cbn [stored_walk finality_walk].
  rewrite view_block by done. rewrite get_block_by_index_list by done. cbn [mbind result_bind].
  destruct (if 0 <=? bi then _ else _) as [b|]; [|done]. rewrite Hst. destruct (_ <? _); [done|]. apply IH.
Qed.
Lemma sims_finality i : sims (stored_finality i) (update_finality i).
Proof using Hs.
  intros x s Hx. pose proof Hx as [Hv (a & b & ->)]. unfold stored_finality, update_finality, get, lift, mbind, M_bind.
  change (staking (other bs a b (mem x))) with (staking (mem x)). change (ledger (other bs a b (mem x))) with (ledger (mem x)).
  change (recs (other bs a b (mem x))) with (recs (mem x)).
  destruct (_ || _); [by eexists|]. rewrite (stored_walk_log (sql x) (mem x) (other bs a b (mem x))) by done.
  destruct (finality_walk _ _ _ _ _ _) as [h|]; [|by eexists].
  destruct (_ <? h); [|by eexists]. eexists. split; [done|]. split; [done|]. by exists a, b.
Qed.
Lemma prune_lists_other o ix : ∃ a b, prune_lists o ix = other_lists a b ix.
Proof.
  assert (∀ ix, ix = other_lists (txs_by_sender ix) (txs_by_recipient ix) ix) as E by (by intros []). cbn zeta in E.
  destruct o as [b|]; cbn [prune_lists]; [|by eexists _, _].
  revert ix. induction (transactions b) as [|tx txs IH]; intros ix; cbn [foldl]; [by eexists _, _|].
  destruct (IH (prune_tx ix tx)) as (a & b' & ->). by exists a, b'.
Qed.
Lemma sims_prune_lists i (k' : M SChain unit) k : sims k' k →
  sims (st ← gets sql; old_block ← lift (Store.get_block st i); _ ← on mem (on idx (modify (prune_lists old_block))); k') k.
Proof using Hs.
  intros Hk x s [Hv (a & b & ->)]. unfold gets, lift, mbind, M_bind. rewrite view_block by done.
  apply Hk. split; [done|]. cbn. set (o := if 0 <=? i then _ else _). destruct (prune_lists_other o (idx (mem x))) as (a' & b' & E).
  exists a, b. unfold other. cbn. by rewrite E.
Qed.
Lemma sims_prune_history i : sims (stored_prune_history i) (prune_history i).
Proof using Hs.
  unfold stored_prune_history, prune_history. apply sims_when. apply sims_bind; [apply sims_mem; auto with respects|intros _].
  apply sims_bind; [apply sims_mem; auto with respects|intros _]. apply sims_prune_lists, sims_mem. auto with respects.
Qed.

(** Everything after the block is in the index *)
Definition stored_rest (b : Block) (i : Z) : M SChain unit :=
  stakers ← gets (λ x, matured_stakers (mem x) i);
  epoch_events ← stored_begin i;
  applied ← stored_txs b i 0 (transactions b);
  let failed := ap_tx_id <$> filter (λ a, ap_failed a = true) applied in
  block_receipts ← on mem (on recs (record_receipts i failed applied));
  reward_events ← on mem (on ledger (apply_reward b i));
  let events := epoch_events ++ reward_events in
  _ ← on mem (on recs (modify (store_block_events i events)));
  _ ← on mem (seal_receipts b block_receipts);
  _ ← on mem (seal_state b i);
  _ ← stored_prune_history i;
  s ← gets mem;
  _ ← on sql (when (financial_active (ledger s)) (persist_balances_after_block s b i stakers));
  _ ← on sql (persist_receipts i block_receipts events);
  stored_finality i.
Definition memory_rest (b : Block) (i : Z) : M Chain unit :=
  epoch_events ← begin_block i;
  applied ← apply_txs b i 0 (transactions b);
  close_block b i epoch_events applied.
Lemma sims_rest b i : sims (stored_rest b i) (memory_rest b i).
Proof using Hs.
  unfold stored_rest, memory_rest, close_block. apply (sims_peek_at (λ s, matured_stakers s i)). intros stakers.
  apply sims_bind; [apply sims_begin|intros es]. apply sims_bind; [apply sims_txs|intros applied]. cbv zeta.
  apply sims_bind; [apply sims_mem; auto with respects|intros rs]. apply sims_bind; [apply sims_mem; auto with respects|intros res].
  apply sims_bind; [apply sims_mem; auto with respects|intros _].
  apply sims_bind; [apply sims_mem, respects_seal_receipts|intros _]. apply sims_bind; [apply sims_mem, respects_seal_state|intros _].
  apply sims_bind; [apply sims_prune_history|intros _]. apply sims_peek. intros s.
  apply sims_skip; [apply writes_when, writes_balances|]. apply sims_skip; [apply writes_receipts|]. apply sims_finality.
Qed.
End Log.

(** ** A block *)

(** [m] ends with nothing uncommitted. *)
Definition settles {A} (m : M SChain A) : Prop := ∀ x v x', m x = (Ok v, x') → Store.committed (sql x') = db (sql x').
Lemma settles_bind {A B} (m : M SChain A) (k : A → M SChain B) : (∀ v, settles (k v)) → settles (m ≫= k).
Proof. intros Hk x v x'. unfold mbind, M_bind. destruct (m x) as [[w|e] x1]; [apply Hk|done]. Qed.
Lemma settles_fixes {A B} (m : M SChain A) (k : A → M SChain B) : settles m → (∀ v, fixes sql (k v)) → settles (m ≫= k).
Proof.
  intros Hm Hk x v x'. unfold mbind, M_bind. destruct (m x) as [[w|e] x1] eqn:E; [|done]. apply Hm in E.
  intros H. pose proof (Hk w x1) as Hf. rewrite H in Hf. cbn in Hf. by rewrite Hf.
Qed.
Lemma stored_rest_settles b i : settles (stored_rest b i).
Proof.
  unfold stored_rest. do 11 (apply settles_bind; intros ?; cbv zeta). apply settles_fixes.
  - intros x u x'. unfold on, zoom, persist_receipts, mbind, M_bind. destruct (mfor _ _ _) as [[[]|?] ?]; [|done].
    destruct (when _ _ _) as [[[]|?] ?]; [|done]. by intros [= <- <-].
  - intros []. unfold stored_finality. auto 20 with fixes.
Qed.

(** The relation at the end of a block: nothing pending *)
Definition mirrors (bs : list Block) (x : SChain) (s : Chain) : Prop :=
  represents bs (sql x) ∧ ∃ a b, s = other bs a b (mem x).
Lemma mirrors_same bs x s : mirrors bs x s ↔ same bs x s ∧ Store.committed (sql x) = db (sql x).
Proof.
  unfold mirrors, same, log_view, view_of. split.
  - intros [[R1 R2 R3 R4 R5] Ho]. split_and!; [|done|done]. by rewrite R1, R2, R3, R4.
  - intros [[[= V1 V2 V3 V4] Ho] Hc]. by split.
Qed.

Lemma stored_append_simulates bs b x s : mirrors bs x s → log_ok (bs ++ [b]) →
  match stored_append b x with
  | (Ok _, x') => ∃ s', append_block_inner b s = (Ok tt, s') ∧ mirrors (bs ++ [b]) x' s'
  | (Raise e, _) => (append_block_inner b s).1 = Raise e ∨ e = OverflowError
  end.
Proof.
  intros [R (a & b0 & ->)] (Hs & Hh & _ & _ & Hl). rewrite append_block_inner_close.
  unfold stored_append. unfold mbind at 1, M_bind at 1, gets. set (i := height (mem x) + 1).
  destruct (insert_block_ok bs b (sql x) R) as (st & E & R').
  { apply list.Forall_app in Hs as [_ Hs]. by apply storable_txs, (Forall_inv Hs). }
  { rewrite fmap_app in Hh. apply list.NoDup_app in Hh as (_ & Hh & _). intros Hb. apply (Hh _ Hb). by left. }
  { rewrite length_app in Hl. cbn in Hl. lia. }
  unfold mbind at 1, M_bind at 1, on at 1, zoom at 1. rewrite E. cbn match.
  match goal with |- match (_ ← on mem (open_stored b); ?k) ?x0 with _ => _ end =>
    change ((_ ← on mem (open_stored b); k) x0) with (stored_rest b i (set mem (λ _, (open_stored b (mem x0)).2) x0)) end.
  set (x1 := set mem _ _). set (s0 := other bs a b0 (mem x)).
  change ((i0 ← λ s, (Ok (height s + 1), s); _ ← open_block b; epoch_events ← begin_block i0;
    applied ← apply_txs b i0 0 (transactions b); close_block b i0 epoch_events applied) s0)
    with (memory_rest b i (open_block b s0).2).
  assert (same (bs ++ [b]) x1 (open_block b s0).2) as Hsame.
  { split; [|by exists a, b0]. subst x1. cbn. destruct R' as [R1 R2 R3 R4 R5]. unfold log_view, view_of. congruence. }
  pose proof (sims_rest (bs ++ [b]) Hs b i x1 _ Hsame) as Hsim. destruct (stored_rest b i x1) as [[[]|e] x'] eqn:Er; [|done].
  destruct Hsim as (s' & -> & Hs'). exists s'. split; [done|]. apply mirrors_same. split; [done|]. by eapply stored_rest_settles.
Qed.

(** ** The node *)

Lemma append_block_ok_inner b s s' : append_block_inner b s = (Ok tt, s') → append_block b s = (Ok tt, s').
Proof. unfold append_block. by intros ->. Qed.

Section Node.
Context (bs : list Block) (Hs : Forall (λ b, storable b = true) bs).
#[local] Abbreviation same := (same bs).
#[local] Abbreviation sims := (sims bs).

Lemma admission_other now s tx l a b :
  get_block_by_index (other l a b s) 0 = get_block_by_index s 0 → admission now (other l a b s) tx = admission now s tx.
Proof. intros H. unfold admission, admit_registry. rewrite H. reflexivity. Qed.
Lemma sims_submit now tx : sims (stored_submit now tx) (submit_tx now tx).
Proof using Hs.
  intros x s Hx. pose proof Hx as [Hv (a & b & ->)]. unfold stored_submit, submit_tx, get. unfold mbind at 1, M_bind at 1.
  unfold mbind at 1, M_bind at 1, lift at 1. rewrite (view_block bs Hs) by done. cbn match. cbv zeta.
  set (g := if 0 <=? 0 then _ else _). change (bs !! Z.to_nat 0) with (bs !! 0%nat) in g.
  assert (admission now (mem x <| chain_list := match g with Some g => [g] | None => [] end |>) tx =
    admission now (other bs a b (mem x)) tx) as ->.
  { set (l := match g with Some _ => _ | None => _ end).
    assert (mem x <| chain_list := l |> = other l (txs_by_sender (idx (mem x))) (txs_by_recipient (idx (mem x))) (mem x)) as ->
      by by destruct (mem x) as [???? [] ???????].
    unfold admission, admit_registry. set (s0 := other l _ _ _). set (s1 := other bs _ _ _).
    assert (get_block_by_index s0 0 = get_block_by_index s1 0) as E; [|rewrite E; reflexivity].
    rewrite (get_block_by_index_list l s0 0 eq_refl), (get_block_by_index_list bs s1 0 eq_refl). subst l g. by destruct bs. }
  set (verdict := admission now (other bs a b (mem x)) tx).
  refine (sims_bind bs (lift verdict) (lift verdict) _ _ (sims_lift bs _) _ x _ Hx). intros [msg|]; [apply sims_ret|].
  apply sims_mem. auto 10 with respects.
Qed.
Lemma sims_drain b : sims (on mem (drain_pool b)) (drain_pool b).
Proof. apply sims_mem. unfold drain_pool, rebuild_pending_debits_cache. auto 10 with respects. Qed.
Lemma sims_activate v : sims (stored_activate v) (activate_financial_layer v).
Proof.
  pose proof respects_rebuild.
  apply sims_get. intros s a b. change (ledger (other bs a b s)) with (ledger s). destruct (financial_active _); [apply sims_ret|].
  apply sims_bind; [apply sims_mem; auto with respects|intros _]. apply sims_bind.
  - apply sims_when. cbv zeta. apply sims_bind; [apply sims_mem; auto with respects|intros _].
    apply sims_then; [apply sims_mem; auto with respects|]. apply sims_peek. intros s1. unfold Store.put_balance, put_supply, commit_if.
    apply sims_skip; [auto 10 with writes|]. apply sims_skip; [auto 10 with writes|]. apply sims_sql. auto 10 with writes.
  - intros _. apply sims_bind; [by apply sims_mem|intros _].
    intros x t Hx. pose proof Hx as [Hv (a1 & b1 & ->)]. unfold gets, mbind, M_bind.
    set (m := on trie (modify (set state_snapshots (<[height (mem x) := trie_snapshot (state_trie (trie (mem x)))]>)))).
    refine (sims_when bs (0 <=? height (mem x)) (on mem m) m (sims_mem bs m _) x _ Hx). unfold m. auto with respects.
Qed.
End Node.

(** *** Stamping the tip *)

Lemma dset_last (bs : list Block) b v :
  dset (imap block_row (bs ++ [b])) (Z.of_nat (length bs)) v = imap block_row bs ++ [(Z.of_nat (length bs), v)].
Proof.
  rewrite imap_block_row_app. unfold block_row at 2. remember (Z.of_nat (length bs)) as n eqn:Hz.
  assert (n ∉ (imap block_row bs).*1) as Hn.
  { intros ([i r] & -> & H)%list_elem_of_fmap. apply elem_of_lookup_imap in H as (k & b' & [= -> _] & Hk).
    apply lookup_lt_Some in Hk. cbn in Hz. lia. }
  clear Hz. induction (imap block_row bs) as [|[i r] l IH]; cbn [app dset fst]; [by rewrite decide_True|].
  cbn in Hn. rewrite decide_False by set_solver. f_equal. apply IH. set_solver.
Qed.
Lemma update_block_ok bs b b' st : represents (bs ++ [b]) st → transactions b' = transactions b → index b' = Z.of_nat (length bs) →
  log_ok (bs ++ [b']) → ∃ st', update_block b' st = (Ok tt, st') ∧ represents (bs ++ [b']) st'.
Proof.
  intros [R1 R2 R3 R4 R5] Ht Hi (_ & Hh & _ & _ & Hl). rewrite length_app in *. cbn in Hl.
  unfold update_block, lift, gets, mbind, M_bind. rewrite Hi, bind64_ok by lia. rewrite R1, block_rows_index, length_app. cbn [length].
  destruct (Z.leb_spec 0 (Z.of_nat (length bs))); [|lia]. destruct (Z.ltb_spec (Z.of_nat (length bs)) (Z.of_nat (length bs + 1))); [|lia].
  cbn [andb negb]. destruct (existsb _ _) eqn:E.
  { exfalso. apply existsb_exists in E as ([i [h d]] & Hin & [Hne He]%bool_decide_eq_true). cbn in Hne, He. subst h.
    apply list_elem_of_In, elem_of_lookup_imap in Hin as (k & c & [= -> Hc _] & Hk).
    rewrite fmap_app in Hh. apply list.NoDup_app in Hh as (_ & Hh & _).
    apply lookup_app_Some in Hk as [Hk|[Hlt Hk]].
    - apply (Hh (block_hash c)); [apply list_elem_of_fmap; exists c; split; [done|by eapply list_elem_of_lookup_2]|]. rewrite <-Hc. by left.
    - apply list_lookup_singleton_Some in Hk as [Hk _]. apply Hne. lia. }
  unfold exec, modify, commit. eexists. split; [reflexivity|]. destruct st as [c d h]. cbn in *. split; cbn; try done.
  - rewrite R1, dset_last, imap_block_row_app. unfold block_row at 3. by f_equal.
  - rewrite R2, !placed_app. cbn [placed_from]. by rewrite Ht.
  - rewrite R3, !placed_app. cbn [placed_from]. by rewrite Ht.
  - rewrite R4, !length_app. done.
Qed.
Lemma stored_stamp_simulates bs b sr rr sk x s b' x' : mirrors (bs ++ [b]) x s → index b = Z.of_nat (length bs) →
  stored_stamp b sr rr sk x = (Ok b', x') → log_ok (bs ++ [b']) →
  ∃ s', stamp_and_sign b sr rr sk s = (Ok b', s') ∧ mirrors (bs ++ [b']) x' s'.
Proof.
  intros [R (a & b0 & ->)] Hi. unfold stored_stamp, stamp_and_sign, stored_tip, replace_tip, reindex, on, zoom, mbind, M_bind, modify, lift.
  unfold block_sign. destruct (MLDSA_sign sk _) as [sig|]; [|done]. cbn -[update_block block_hash stamp_roots].
  set (signed := set_signature (stamp_roots b sr rr) sig). intros Hrun Hok.
  destruct (update_block signed (sql x)) as [[[]|e] st] eqn:Eu; [|done]. injection Hrun as <- <-.
  destruct (update_block_ok bs b signed (sql x) R) as (st' & Eu' & R'); [done|done|done|]. rewrite Eu in Eu'. injection Eu' as <-.
  eexists. split; [reflexivity|]. split; [done|]. exists a, b0. unfold other. cbn -[block_hash stamp_roots signed].
  assert (<[Z.to_nat (index b) := signed]> (<[Z.to_nat (index b) := stamp_roots b sr rr]> (bs ++ [b])) = bs ++ [signed]) as E.
  { rewrite list_insert_insert_eq, Hi, Nat2Z.id, insert_app_r_alt by done. by rewrite Nat.sub_diag. }
  rewrite <-E. reflexivity.
Qed.

(** *** Runs *)

(** What a node with a database reaches from an empty one, and its log; the
    blocks it writes are ones a database can hold. *)
Inductive stored_step (bs : list Block) (x : SChain) : list Block → SChain → Prop :=
  | stored_submits now tx r x' : stored_submit now tx x = (Ok r, x') → stored_step bs x bs x'
  | stored_accepts now b x' : log_ok (bs ++ [b]) → stored_accept now b x = (Ok None, x') → stored_step bs x (bs ++ [b]) x'
  | stored_produces now v sk b x' :
      (∀ p d b', latest_block (mem x) = Some p → draft_block now (mem x) p v = Some d → block_sign d sk = Ok b' → log_ok (bs ++ [b'])) →
      log_ok (bs ++ [b]) → stored_produce now v sk x = (Ok (Some b), x') → stored_step bs x (bs ++ [b]) x'
  | stored_activates v x' : stored_activate v x = (Ok tt, x') → stored_step bs x bs x'.
Inductive stored_reachable : list Block → SChain → Prop :=
  | stored_genesis now v sk pk b g x : genesis_block now v sk pk empty_Chain = Ok b → log_ok [b] →
      stored_init_chain now v sk pk (mkSChain empty_Chain new_store) = (Ok tt, x) →
      latest_block (mem x) = Some g → log_ok [g] → stored_reachable [g] x
  | stored_next bs x bs' x' : stored_reachable bs x → stored_step bs x bs' x' → stored_reachable bs' x'.

(** What commits its writes *)
Definition tidy {A} (m : M SChain A) : Prop := ∀ x v x', Store.committed (sql x) = db (sql x) → m x = (Ok v, x') →
  Store.committed (sql x') = db (sql x').
Lemma tidy_bind {A B} (m : M SChain A) (k : A → M SChain B) : tidy m → (∀ v, tidy (k v)) → tidy (m ≫= k).
Proof.
  intros Hm Hk x v x' Hx. unfold mbind, M_bind. destruct (m x) as [[w|e] x1] eqn:E; [|done]. apply Hk. by eapply Hm.
Qed.
Lemma tidy_fixes {A} (m : M SChain A) : fixes sql m → tidy m.
Proof. intros H x v x' Hx E. specialize (H x). rewrite E in H. cbn in H. by rewrite H. Qed.
Lemma tidy_when c m : tidy m → tidy (when c m).
Proof. destruct c; [done|intros _; apply tidy_fixes, fixes_ret]. Qed.
Lemma sims_mirrors {A} bs (m' : M SChain A) m x s v x' : sims bs m' m → tidy m' → mirrors bs x s →
  m' x = (Ok v, x') → ∃ s', m s = (Ok v, s') ∧ mirrors bs x' s'.
Proof.
  intros Hm Hc Hx Hrun. apply mirrors_same in Hx as [Hx Hcl]. pose proof (Hm x s Hx) as H. rewrite Hrun in H.
  destruct H as (s' & Hs' & Hx'). exists s'. split; [done|]. apply mirrors_same. split; [done|]. by eapply Hc.
Qed.
Lemma tidy_put_balance a n : tidy (on sql (Store.put_balance a n true)).
Proof.
  intros x v x' _. unfold on, zoom, Store.put_balance, lift, mbind, M_bind. destruct (bind64 n); [|done]. by intros [= <- <-].
Qed.
Lemma tidy_put_supply k n : tidy (on sql (put_supply k n true)).
Proof. intros x v x' _. unfold on, zoom, put_supply, lift, mbind, M_bind. destruct (bind64 n); [|done]. by intros [= <- <-]. Qed.
Lemma tidy_activate v : tidy (stored_activate v).
Proof.
  unfold stored_activate. apply tidy_bind; [apply tidy_fixes; auto with fixes|intros s]. destruct (financial_active _).
  { apply tidy_fixes; auto with fixes. }
  apply tidy_bind; [apply tidy_fixes; auto with fixes|intros _]. apply tidy_bind; [|intros _; apply tidy_fixes; auto 10 with fixes].
  apply tidy_when. cbv zeta. apply tidy_bind; [apply tidy_fixes; auto with fixes|intros _].
  apply tidy_bind; [apply tidy_fixes; auto with fixes|intros _]. apply tidy_bind; [apply tidy_fixes; auto with fixes|intros s'].
  apply tidy_bind; [apply tidy_put_balance|intros _]. apply tidy_bind; [apply tidy_put_supply|intros _]. apply tidy_put_supply.
Qed.
Lemma tidy_submit now tx : tidy (stored_submit now tx).
Proof. apply tidy_fixes. unfold stored_submit. auto 20 with fixes. Qed.

Lemma append_mirrors bs b x s x' : mirrors bs x s → log_ok (bs ++ [b]) → stored_append b x = (Ok tt, x') →
  ∃ s', append_block_inner b s = (Ok tt, s') ∧ append_block b s = (Ok tt, s') ∧ mirrors (bs ++ [b]) x' s'.
Proof.
  intros Hx Hok E. pose proof (stored_append_simulates bs b x s Hx Hok) as H. rewrite E in H.
  destruct H as (s' & H1 & H2). exists s'. split_and!; [done|by apply append_block_ok_inner|done].
Qed.
Lemma drain_mirrors bs b x s x' : mirrors bs x s → on mem (drain_pool b) x = (Ok tt, x') →
  ∃ s', drain_pool b s = (Ok tt, s') ∧ mirrors bs x' s'.
Proof. intros Hx. eapply sims_mirrors; [apply sims_drain|apply tidy_fixes; auto with fixes|exact Hx]. Qed.

Lemma check_txs_other l a b s blk txs : ∀ seen nonces first,
  check_txs (other l a b s) blk txs seen nonces first = check_txs s blk txs seen nonces first.
Proof.
  induction txs as [|tx txs IH]; intros seen nonces first; cbn [check_txs]; [reflexivity|].
  rewrite IH. reflexivity.
Qed.
Lemma validate_block_other l a b s now blk p : validate_block now (other l a b s) blk p = validate_block now s blk p.
Proof. unfold validate_block. destruct (index blk =? 0); [reflexivity|]. destruct p as [p|]; [|done]. rewrite check_txs_other. reflexivity. Qed.
Lemma accept_mirrors bs now b x s x' : mirrors bs x s → log_ok (bs ++ [b]) → stored_accept now b x = (Ok None, x') →
  ∃ s', add_block now b s = (Ok None, s') ∧ mirrors (bs ++ [b]) x' s'.
Proof.
  intros Hx Hok Hrun. unfold stored_accept, gets in Hrun. unfold mbind at 1, M_bind at 1 in Hrun.
  pose proof Hx as [R (a & b0 & E)].
  assert (idx s = other_lists a b0 (idx (mem x)) ∧ height s = height (mem x) ∧ latest_block s = latest_block (mem x) ∧
    ∀ o, validate_block now s b o = validate_block now (mem x) b o) as (Ei & Eh & El & Ev).
  { rewrite E. split_and!; [done..|]. intros o. apply validate_block_other. }
  unfold add_block, get. unfold mbind at 1, M_bind at 1.
  rewrite Ei, Eh, El, Ev. change (block_by_hash (other_lists a b0 (idx (mem x)))) with (block_by_hash (idx (mem x))).
  destruct (bool_decide _); [done|]. destruct (_ =? _); [|by destruct (_ && _)]. revert Hrun.
  unfold mbind at 1, M_bind at 1, lift at 1. intros Hrun. unfold mbind at 1, M_bind at 1, lift at 1.
  destruct (validate_block _ _ _ _) as [[m|]|]; [done| |done]. destruct (_ && _); [done|]. revert Hrun.
  unfold mbind at 1, M_bind at 1. destruct (stored_append b x) as [[[]|e] x1] eqn:Ea; [|done].
  destruct (append_mirrors bs b x s x1 Hx Hok Ea) as (s1 & _ & Es & H1). unfold refused_on_value_error. rewrite Es.
  unfold mbind, M_bind. destruct (on mem (drain_pool b) x1) as [[[]|e] x2] eqn:Ed; [|done].
  destruct (drain_mirrors _ b x1 s1 x2 H1 Ed) as (s2 & -> & H2). intros [= <-]. by exists s2.
Qed.

Lemma produce_mirrors bs now v sk x s b x' : mirrors bs x s → chain_ok s → chain_list s = bs →
  (∀ p d b', latest_block (mem x) = Some p → draft_block now (mem x) p v = Some d → block_sign d sk = Ok b' → log_ok (bs ++ [b'])) →
  log_ok (bs ++ [b]) → stored_produce now v sk x = (Ok (Some b), x') →
  ∃ s', produce_block now v sk s = (Ok (Some b), s') ∧ mirrors (bs ++ [b]) x' s'.
Proof.
  intros Hx Hck Hl Hd Hok Hrun. unfold stored_produce, gets in Hrun. unfold mbind at 1, M_bind at 1 in Hrun.
  pose proof Hx as [R (a & b0 & E)]. unfold produce_block, get. unfold mbind at 1, M_bind at 1.
  assert (height s = height (mem x) ∧ latest_block s = latest_block (mem x) ∧ is_key_revoked s v "signing" = is_key_revoked (mem x) v "signing" ∧
    (∀ p, select_validator now s (index p + 1) None (block_hash p) None = select_validator now (mem x) (index p + 1) None (block_hash p) None) ∧
    (∀ p, draft_block now s p v = draft_block now (mem x) p v) ∧
    ∀ blk o, validate_block now s blk o = validate_block now (mem x) blk o) as (Eh & El & Ek & Es & Ed & Ev).
  { rewrite E. split_and!; [done|done|reflexivity|reflexivity|reflexivity|]. intros blk o. apply validate_block_other. }
  rewrite Eh, El. destruct (height (mem x) <? 0); [done|]. destruct (latest_block (mem x)) as [p|] eqn:Ep; [|done].
  rewrite Es, Ek, Ed. revert Hrun. unfold mbind at 1, M_bind at 1, lift at 1. intros Hrun. unfold mbind at 1, M_bind at 1, lift at 1.
  destruct (select_validator _ _ _ _ _ _) as [e|]; [|done]. destruct (match e with Some _ => _ | None => _ end); [done|].
  clear Ek. destruct (is_key_revoked (mem x) v "signing"); [discriminate Hrun|]. destruct (draft_block now (mem x) p v) as [d|] eqn:Edr; [|done].
  revert Hrun. unfold mbind at 1, M_bind at 1, lift at 1. intros Hrun. unfold mbind at 1, M_bind at 1, lift at 1.
  destruct (block_sign d sk) as [blk|] eqn:Eb; [|done]. pose proof (Hd p d blk eq_refl Edr Eb) as Hblk.
  revert Hrun. unfold mbind at 1, M_bind at 1, lift at 1. intros Hrun. unfold mbind at 1, M_bind at 1, lift at 1.
  rewrite Ev. destruct (validate_block _ _ _ _) as [[m|]|]; [done| |done]. revert Hrun.
  unfold mbind at 1, M_bind at 1. destruct (stored_append blk x) as [[[]|e'] x1] eqn:Ea; [|done].
  destruct (append_mirrors bs blk x s x1 Hx Hblk Ea) as (s1 & Esi & Es1 & H1). intros Hrun. unfold mbind at 1, M_bind at 1. rewrite Es1.
  assert (trie s1 = trie (mem x1)) as Et by (destruct H1 as [_ (a1 & b1 & ->)]; done).
  unfold gets in Hrun. unfold mbind at 1, M_bind at 1 in Hrun. unfold mbind at 1, M_bind at 1. rewrite Et.
  unfold mbind at 1, M_bind at 1 in Hrun. unfold mbind at 1, M_bind at 1.
  destruct (stored_stamp _ _ _ _ x1) as [[b1|] x2] eqn:Est; [|done].
  unfold mbind, M_bind in Hrun. destruct (on mem (drain_pool b1) x2) as [[[]|] x3] eqn:Edp; [|done]. injection Hrun as -> ->.
  assert (index blk = Z.of_nat (length bs)) as Hi.
  { unfold block_sign in Eb. destruct (MLDSA_sign sk _); [|done]. injection Eb as <-. cbn.
    destruct (draft_block_sub now (mem x) p v d Edr) as (-> & _).
    destruct (chain_ok_tip s p Hck El) as (l & _ & -> & _). rewrite (ck_height _ Hck), Hl. lia. }
  destruct (stored_stamp_simulates bs blk _ _ sk x1 s1 b x2 H1 Hi Est Hok) as (s2 & -> & H2).
  unfold mbind, M_bind. destruct (drain_mirrors _ b x2 s2 x' H2 Edp) as (s3 & -> & H3). by exists s3.
Qed.

Lemma auto_stake_mirrors bs v c x s x' : mirrors bs x s → when c (stored_auto_stake v) x = (Ok tt, x') →
  ∃ s', when c (on staking (modify (auto_stake v))) s = (Ok tt, s') ∧ mirrors bs x' s'.
Proof.
  intros Hx. apply (sims_mirrors bs); [|apply tidy_when|done].
  - apply sims_when. apply sims_then; [apply sims_mem; auto with respects|]. apply sims_sql. unfold Store.put_stake, commit_if.
    auto 10 with writes.
  - apply tidy_bind; [apply tidy_fixes; auto with fixes|intros _]. intros y u y' _. unfold on, zoom, Store.put_stake, lift, mbind, M_bind.
    destruct (bind64 MIN_STAKE); [|done]. by intros [= <- <-].
Qed.
Lemma stored_stamp_tip b sr rr sk x b' x' : stored_stamp b sr rr sk x = (Ok b', x') → latest_block (mem x') = Some b'.
Proof.
  unfold stored_stamp, stored_tip, reindex, on, zoom, mbind, M_bind, modify, lift. destruct (block_sign _ _) as [c|]; [|done].
  cbn -[update_block]. destruct (update_block c (sql x)) as [[[]|] st]; [|done]. by intros [= <- <-].
Qed.
Lemma genesis_mirrors now v sk pk b g x : genesis_block now v sk pk empty_Chain = Ok b → log_ok [b] →
  stored_init_chain now v sk pk (mkSChain empty_Chain new_store) = (Ok tt, x) → latest_block (mem x) = Some g → log_ok [g] →
  ∃ s, init_chain now v sk pk empty_Chain = (Ok tt, s) ∧ mirrors [g] x s.
Proof.
  intros Hb Hokb Hrun Hg Hokg. set (x0 := mkSChain empty_Chain new_store) in *.
  assert (mirrors [] x0 empty_Chain) as H0 by (split; [apply represents_new|by exists ∅, ∅]).
  unfold stored_init_chain, gets in Hrun. unfold mbind at 1, M_bind at 1 in Hrun. change (height (mem x0) <? 0) with true in Hrun.
  cbn [when mem x0] in Hrun. unfold mbind at 1, M_bind at 1, lift at 1 in Hrun. rewrite Hb in Hrun.
  unfold mbind at 1, M_bind at 1 in Hrun. destruct (stored_append b x0) as [[[]|e] x1] eqn:Ea; [|done].
  destruct (append_mirrors [] b x0 _ x1 H0 Hokb Ea) as (s1 & _ & Es1 & H1).
  unfold mbind at 1, M_bind at 1 in Hrun. destruct (when _ _ x1) as [[[]|e] x2] eqn:Ew; [|done].
  destruct (auto_stake_mirrors _ _ _ x1 s1 x2 H1 Ew) as (s2 & Es2 & H2).
  unfold mbind at 1, M_bind at 1 in Hrun. cbv beta in Hrun. unfold mbind at 1, M_bind at 1 in Hrun.
  destruct (stored_stamp _ _ _ _ x2) as [[b'|] x3] eqn:Est; [|done]. injection Hrun as <-.
  assert (b' = g) as ->.
  { apply stored_stamp_tip in Est. cbn in Hg. congruence. }
  assert (index b = 0) as Hi.
  { unfold genesis_block in Hb. destruct (if is_empty _ then _ else _) as [txs|]; [|done]. cbn in Hb.
    unfold block_sign in Hb. destruct (MLDSA_sign sk _); [|done]. by injection Hb as <-. }
  destruct (stored_stamp_simulates [] b _ _ sk x2 s2 g x3 H2 Hi Est Hokg) as (s3 & Es3 & H3).
  exists (s3 <| cons ::= λ c, ((set_the_genesis_hash (block_hash g)) c).2 |>). split.
  - unfold init_chain, get. unfold mbind at 1, M_bind at 1. change (height empty_Chain <? 0) with true. cbn [when]. cbv zeta.
    unfold genesis_block in Hb. destruct (if is_empty _ then _ else _) as [txs|]; [|done]. cbn [mbind result_bind] in Hb.
    unfold mbind at 1, M_bind at 1, lift at 1. unfold mbind at 1, M_bind at 1, lift at 1. rewrite Hb.
    unfold mbind at 1, M_bind at 1. rewrite Es1. unfold mbind at 1, M_bind at 1. rewrite Es2.
    unfold mbind at 1, M_bind at 1. unfold mbind at 1, M_bind at 1.
    assert (trie s2 = trie (mem x2)) as -> by (destruct H2 as [_ (a & b2 & ->)]; done). rewrite Es3. done.
  - destruct H3 as [R (a & b2 & ->)]. split; [done|]. by exists a, b2.
Qed.

Lemma stored_reachable_log bs x : stored_reachable bs x → log_ok bs.
Proof. induction 1 as [|bs x bs' x' _ IH Hst]; [done|]. by destruct Hst. Qed.
Lemma stored_reachable_mirrors bs x : stored_reachable bs x → ∃ s, reachable s ∧ mirrors bs x s.
Proof.
  induction 1 as [now v sk pk b g x Hb Hokb Hrun Hg Hokg|bs x bs' x' Hr (s & Hs & Hx) Hst].
  - destruct (genesis_mirrors _ _ _ _ _ _ _ Hb Hokb Hrun Hg Hokg) as (s & Hi & Hx). exists s. split; [by eapply reach_genesis|done].
  - pose proof (proj1 (reachable_ok s Hs)) as Hck.
    assert (chain_list s = bs) as Hl by (destruct Hx as [_ (a & b & ->)]; done).
    assert (Forall (λ b, storable b = true) bs) as Hst' by (by apply stored_reachable_log in Hr as [? _]).
    destruct Hst as [now tx r x' Hrun|now b x' Hok Hrun|now v sk b x' Hd Hok Hrun|v x' Hrun].
    + destruct (sims_mirrors bs _ _ x s r x' (sims_submit bs Hst' now tx) (tidy_submit now tx) Hx Hrun) as (s' & E & H').
      exists s'. split; [|done]. eapply reach_step; [done|]. by eapply step_submit.
    + destruct (accept_mirrors bs now b x s x' Hx Hok Hrun) as (s' & E & H').
      exists s'. split; [|done]. eapply reach_step; [done|]. by eapply step_accept.
    + destruct (produce_mirrors bs now v sk x s b x' Hx Hck Hl Hd Hok Hrun) as (s' & E & H').
      exists s'. split; [|done]. eapply reach_step; [done|]. by eapply step_produce.
    + destruct (sims_mirrors bs _ _ x s tt x' (sims_activate bs v) (tidy_activate v) Hx Hrun) as (s' & E & H').
      exists s'. split; [|done]. eapply reach_step; [done|]. by eapply step_activate.
Qed.
End Sim.
