(* ===== verification/Restart.v ===== *)
(** * Restarting a node

    What [_load_from_sqlite] rebuilds from the blocks and the tables, against
    what the node held in memory when it stopped. *)
From S2P Require Import Store StoreLaws Prelude PyStr Json JsonText Config Crypto StateTrie Wallet Transaction Fees Block Receipt ChainState Ledger StateOps Staking Consensus ReceiptOps Apply Frames TxPool Rollback Persist Chain Stored ChainLaws StoredLaws.
Open Scope Z_scope.

(** ** What the blocks alone determine *)

Section Memo.
Context `{C : Crypto} `{Cfg : ChainConfig} `{F : PyFloat}.

(** The part of the state both the application and the loading of a
    transaction derive from it: the index without the lists of transactions
    per address (pruned when a block is applied) and the hashes of blocks, the
    keys without the validators, the identifiers *)
Record Memo := mkMemo {
  mm_idx : Index; mm_keys : gmap string string * gmap string (list string) * gmap string Revocation; mm_ids : gset string }.
Definition strip (ix : Index) : Index :=
  ix <| txs_by_sender := ∅ |> <| txs_by_recipient := ∅ |> <| block_by_hash := ∅ |>.
Definition memo (s : Chain) : Memo :=
  mkMemo (strip (idx s)) (key_registry (keys s), key_history (keys s), revoked_keys (keys s)) (chain_tx_ids (cons s)).

Definition notarize_log (tx : Transaction) (ix : Index) : Index :=
  let dh := payload_str tx "documentHash" in
  let tid := tx_id tx in
  let ix := if is_empty dh then ix
            else ix <| notarizations ::= λ m, if decide (is_Some (m !! dh)) then m else <[dh := tid]> m |>
                    <| notarizations_by_hash ::= push dh tid |> in
  ix <| notarization_count ::= λ m, <[sender tx := get_or m (sender tx) 0 + 1]> m |>.
Definition memo_index (m : Memo) (p : Placed) : Memo :=
  mkMemo (strip (index_tx (pl_block p) (pl_idx p) (pl_tx p) (mm_idx m))) (mm_keys m) ({[tx_id (pl_tx p)]} ∪ mm_ids m).
Definition memo_type (m : Memo) (tx : Transaction) : Memo :=
  let '(reg, hist, rev) := mm_keys m in
  match tx_type tx with
  | NOTARIZE => mkMemo (strip (notarize_log tx (mm_idx m))) (mm_keys m) (mm_ids m)
  | REGISTER_KEY =>
      let epk := payload_str tx "encryption_pk" in
      if is_empty epk then m else mkMemo (mm_idx m) (<[sender tx := epk]> reg, push (sender tx) epk hist, rev) (mm_ids m)
  | REVOKE_KEY =>
      mkMemo (mm_idx m) (reg, hist, <[revocation_key (sender tx) (payload_str tx "key_type") :=
        mkRevocation (tx_id tx) (timestamp tx) (payload_str tx "reason")]> rev) (mm_ids m)
  | _ => m
  end.
Definition memo_step (m : Memo) (p : Placed) : Memo := memo_type (memo_index m p) (pl_tx p).

(** [m] changes the memo by [f] whenever it returns. *)
Definition memoes {A} (f : Memo → Memo) (m : M Chain A) : Prop := ∀ s a s', m s = (Ok a, s') → memo s' = f (memo s).
Lemma memoes_bind {A B} f g (m : M Chain A) (k : A → M Chain B) : memoes f m → (∀ a, memoes g (k a)) → memoes (λ x, g (f x)) (m ≫= k).
Proof.
  intros Hm Hk s b s'. unfold mbind, M_bind. destruct (m s) as [[a|e] s1] eqn:E; [|done]. intros H.
  by rewrite (Hk a s1 b s' H), (Hm s a s1 E).
Qed.
Lemma memoes_fixes {A} (m : M Chain A) : fixes memo m → memoes (λ x, x) m.
Proof. intros H s a s' E. specialize (H s). by rewrite E in H. Qed.
Lemma memoes_skip {A B} f (m : M Chain A) (k : A → M Chain B) : fixes memo m → (∀ a, memoes f (k a)) → memoes f (m ≫= k).
Proof. intros Hm. apply (memoes_bind (λ x, x)). by apply memoes_fixes. Qed.
Lemma memoes_then {A B} f (m : M Chain A) (k : A → M Chain B) : memoes f m → (∀ a, fixes memo (k a)) → memoes f (m ≫= k).
Proof. intros Hm Hk. apply (memoes_bind f (λ x, x)); [done|]. intros a. by apply memoes_fixes. Qed.

(** Changes a memo does not see *)
Lemma fixes_keys (f : Keys → Keys) :
  (∀ k, (key_registry (f k), key_history (f k), revoked_keys (f k)) = (key_registry k, key_history k, revoked_keys k)) →
  fixes memo (on keys (modify f)).
Proof. intros H s. specialize (H (keys s)). unfold memo. cbn. congruence. Qed.
Lemma fixes_cons (f : Consensus → Consensus) : (∀ c, chain_tx_ids (f c) = chain_tx_ids c) → fixes memo (on cons (modify f)).
Proof. intros H s. specialize (H (cons s)). unfold memo. cbn. congruence. Qed.
#[local] Hint Extern 1 (fixes memo (on keys (modify _))) => (apply fixes_keys; intros []; reflexivity) : fixes.
#[local] Hint Extern 1 (fixes memo (on cons _)) => (apply fixes_cons; intros []; reflexivity) : fixes.

Lemma memo_register_validator tx : fixes memo (apply_register_validator tx).
Proof. unfold apply_register_validator, set_commission, add_validator. auto 20 with fixes. Qed.
Lemma memo_evidence tx i : fixes memo (process_evidence_tx tx i).
Proof. unfold process_evidence_tx, fromhex_or_return, slash_validator, remove_validator. auto 40 with fixes. Qed.
Lemma memo_begin i : fixes memo (begin_block i).
Proof. by apply frame_begin_block. Qed.
Lemma memo_close b i es l : fixes memo (close_block b i es l).
Proof. by apply frame_close_block. Qed.

Lemma memoes_index i n tx :
  memoes (λ m, memo_index m (mkPlaced i n tx))
    (_ ← on idx (modify (index_tx i n tx)); on cons (modify (set chain_tx_ids (union {[tx_id tx]})))).
Proof. intros s a s' [= _ <-]. reflexivity. Qed.
Lemma memoes_notarize tx : tx_type tx = NOTARIZE → memoes (λ m, memo_type m tx) (on idx (apply_notarize (tx_id tx) tx)).
Proof.
  intros Ht s a s'. unfold memo_type. rewrite Ht. unfold on, zoom, apply_notarize, lift, mbind, M_bind, modify, when, notarize_log, payload_str.
  destruct (jget_str _ _) as [dh|e]; [|done]. destruct (is_empty dh); intros [= _ <-]; reflexivity.
Qed.
Lemma memoes_register_key tx : tx_type tx = REGISTER_KEY → memoes (λ m, memo_type m tx) (on keys (apply_register_key tx)).
Proof.
  intros Ht s a s'. unfold memo_type. rewrite Ht. unfold on, zoom, apply_register_key, lift, mbind, M_bind, modify, when, payload_str.
  destruct (jget_str _ _) as [epk|e]; [|done]. destruct (is_empty epk); intros [= _ <-]; [|reflexivity]. by destruct s as [????? []].
Qed.
(** The revocation is recorded first; what follows touches no part of a memo. *)
Lemma memoes_revoke_key tx (k : string → M Chain unit) : tx_type tx = REVOKE_KEY → (∀ t, fixes memo (k t)) →
  memoes (λ m, memo_type m tx)
    (key_type ← lift (jget_str (payload tx) "key_type");
     reason ← lift (jget_str (payload tx) "reason");
     _ ← on keys (modify (set revoked_keys
        (<[revocation_key (sender tx) key_type := mkRevocation (tx_id tx) (timestamp tx) reason]>)));
     k key_type).
Proof.
  intros Ht Hk s a s'. unfold memo_type. rewrite Ht. unfold payload_str, lift. unfold mbind at 1, M_bind at 1.
  destruct (jget_str _ "key_type") as [kt|e]; [|done]. unfold mbind at 1, M_bind at 1.
  destruct (jget_str _ "reason") as [rs|e]; [|done]. unfold mbind, M_bind, on at 1, zoom at 1, modify at 1. intros E.
  specialize (Hk kt). unfold fixes in Hk. pose proof (Hk (s <| keys ::= set revoked_keys
    (<[revocation_key (sender tx) kt := mkRevocation (tx_id tx) (timestamp tx) rs]>) |>)) as H.
  change ((k kt (s <| keys ::= set revoked_keys (<[revocation_key (sender tx) kt := mkRevocation (tx_id tx) (timestamp tx) rs]>) |>))
    = (Ok a, s')) in E. rewrite E in H. cbn in H. rewrite H. reflexivity.
Qed.
Lemma memoes_other {A} tx (m : M Chain A) : tx_type tx ∉ [NOTARIZE; REGISTER_KEY; REVOKE_KEY] → fixes memo m →
  memoes (λ x, memo_type x tx) m.
Proof.
  intros Ht Hm s a s' E. rewrite (memoes_fixes m Hm s a s' E). unfold memo_type. destruct (mm_keys _) as [[??]?].
  destruct (tx_type tx); set_solver.
Qed.
Lemma memoes_apply_type i tx : memoes (λ m, memo_type m tx) (apply_type i tx).
Proof.
  pose proof (memo_register_validator tx). pose proof (memo_evidence tx i).
  unfold apply_type. destruct (tx_type tx) eqn:Ht; try (apply memoes_other; [rewrite Ht; set_solver|auto 10 with fixes]).
  - apply memoes_then; [by apply memoes_register_key|intros _; apply fixes_ret].
  - apply memoes_then; [|intros _; apply fixes_ret]. unfold apply_revoke_key. apply memoes_revoke_key; [done|].
    intros kt. unfold remove_validator. auto 20 with fixes.
  - apply memoes_then; [by apply memoes_notarize|intros _; apply fixes_ret].
Qed.
Lemma memoes_apply_txs b i n txs : memoes (λ m, foldl memo_step m (placed_txs i n txs)) (apply_txs b i n txs).
Proof.
  revert n. induction txs as [|tx txs IH]; intros n; cbn [apply_txs placed_txs foldl]; [apply memoes_fixes, fixes_ret|].
  apply (memoes_bind (λ m, memo_step m (mkPlaced i n tx)) (λ m, foldl memo_step m (placed_txs i (n + 1) txs))).
  - unfold apply_tx, memo_step. intros s a s' E.
    apply (memoes_bind (λ m, memo_index m (mkPlaced i n tx)) (λ m, memo_type m tx)
      (_ ← on idx (modify (index_tx i n tx)); on cons (modify (set chain_tx_ids (union {[tx_id tx]}))))
      (λ _, fee ← on ledger (settle b i tx); failed ← apply_type i tx; s ← get; events ← lift (build_tx_events s tx i);
            mret (mkApplied n (tx_id tx) fee events failed)) (memoes_index i n tx)) with (a := a); [|exact E].
    intros _. apply memoes_skip; [auto with fixes|intros fee]. apply memoes_then; [apply memoes_apply_type|intros failed]. auto 10 with fixes.
  - intros a. apply memoes_then; [apply IH|intros l; apply fixes_ret].
Qed.

(** The memo of a log *)
Definition empty_memo : Memo := memo empty_Chain.
Definition memo_of (bs : list Block) : Memo := foldl memo_step empty_memo (placed bs).
Lemma memo_of_app bs b : memo_of (bs ++ [b]) = foldl memo_step (memo_of bs) (placed_txs (Z.of_nat (length bs)) 0 (transactions b)).
Proof. unfold memo_of. rewrite placed_app, foldl_app. cbn [placed_from]. by rewrite app_nil_r. Qed.
Lemma memo_append b s s' : append_block_inner b s = (Ok tt, s') →
  memo s' = foldl memo_step (memo s) (placed_txs (height s + 1) 0 (transactions b)).
Proof.
  rewrite append_block_inner_close. unfold mbind at 1, M_bind at 1, gets. unfold mbind at 1, M_bind at 1, open_block, modify.
  set (i := height s + 1). set (s0 := set idx _ _). change (memo s) with (memo s0). revert s'.
  assert (memoes (λ m, foldl memo_step m (placed_txs i 0 (transactions b))) (epoch_events ← begin_block i;
    applied ← apply_txs b i 0 (transactions b); close_block b i epoch_events applied)) as H; [|intros s' E; exact (H s0 tt s' E)].
  apply memoes_skip; [apply memo_begin|intros es]. apply memoes_then; [apply memoes_apply_txs|intros l; apply memo_close].
Qed.

(** *** Every reachable chain *)

(** A reachable chain is made of applications, of stamps of the tip and of
    changes beside the blocks. *)
Lemma reachable_parts (P : Chain → Prop) :
  P empty_Chain →
  (∀ b s s', P s → height s = Z.of_nat (length (chain_list s)) - 1 → append_block_inner b s = (Ok tt, s') →
     chain_list s' = chain_list s ++ [b] → P s') →
  (∀ b sr rr sk s signed s' l, P s → chain_list s = l ++ [b] → index b = Z.of_nat (length l) →
     stamp_and_sign b sr rr sk s = (Ok signed, s') → P s') →
  (∀ s st, P s → P (s <| staking := st |>)) → (∀ s p, P s → P (s <| pool := p |>)) →
  (∀ s h, P s → P (s <| cons ::= set genesis_hash (λ _, h) |>)) →
  (∀ v s s', P s → activate_financial_layer v s = (Ok tt, s') → P s') →
  ∀ s, reachable s → P s.
Proof.
  intros P0 Pappend Pstamp Pstaking Ppool Phash Pactivate.
  assert (∀ b s s', P s → append_block_inner b s = (Ok tt, s') → height s = Z.of_nat (length (chain_list s)) - 1 →
    P s' ∧ chain_list s' = chain_list s ++ [b]) as Happ.
  { intros b s s' Hs E Hh. pose proof (append_spine b s s' E) as [= H1 _ _ _ _ _]. split; [by eapply Pappend|done]. }
  assert (∀ b s s', P s → drain_pool b s = (Ok tt, s') → P s') as Hdrain.
  { intros b s s' Hs E. destruct (drain_pool_run b s) as (r & p & E'). rewrite E' in E. injection E as _ <-. by apply Ppool. }
  induction 1 as [now v sk pk s Hrun|s s' Hs IH Hst].
  - destruct (init_run now v sk pk s Hrun) as (txs & sig & s1 & st & sr & rr & signed & s3 & _ & _ & Ha & Est & ->).
    destruct (Happ _ _ _ P0 Ha) as [P1 L1]; [done|]. apply Phash.
    eapply (Pstamp _ sr rr sk (s1 <| staking := st |>) signed s3 []); [by apply Pstaking|exact L1|done|exact Est].
  - destruct (reachable_ok s Hs) as [Hok Hh]. destruct Hst as [now tx r s' Hrun|now b s' Hrun|now v sk [b|] s' Hrun|v s' Hrun].
    + destruct (decide (admission now s tx = accept)) as [Ha|Ha].
      * destruct (submit_run now tx s Ha) as (d & _ & E). rewrite E in Hrun. injection Hrun as _ <-.
        pose proof (Ppool s (admitted tx d (pool s)) IH) as H. by destruct s.
      * apply (submit_refused now) in Ha. rewrite Hrun in Ha. cbn in Ha. by subst.
    + destruct (add_block_run now b s s' Hok Hh Hrun) as (p & s1 & _ & _ & _ & Ha & Hd).
      eapply Hdrain; [|exact Hd]. by eapply Happ, ck_height.
    + destruct (produce_block_run now v sk s b s' Hrun) as (_ & p & d & blk & s1 & s2 & Hp & Hd & Hb & _ & Ha & Hst & Hdr).
      destruct (Happ _ _ _ IH Ha (ck_height _ Hok)) as [P1 L1]. eapply Hdrain; [|exact Hdr].
      eapply (Pstamp blk _ _ sk s1 b s2 (chain_list s)); [done|done| |exact Hst].
      destruct (chain_ok_tip s p Hok Hp) as (l & _ & Hip & _). destruct (draft_block_sub _ _ _ _ _ Hd) as (Hdi & _).
      unfold block_sign in Hb. destruct (MLDSA_sign sk _); [|done]. injection Hb as <-. cbn. rewrite Hdi, Hip, (ck_height _ Hok). lia.
    + by apply produce_none in Hrun as ->.
    + by eapply Pactivate.
Qed.

Lemma placed_stamp l b b' : transactions b' = transactions b → placed (l ++ [b']) = placed (l ++ [b]).
Proof. intros E. rewrite !placed_app. cbn [placed_from]. by rewrite E. Qed.
Lemma stamp_list b sr rr sk s signed s' l : chain_list s = l ++ [b] → index b = Z.of_nat (length l) →
  stamp_and_sign b sr rr sk s = (Ok signed, s') → chain_list s' = l ++ [signed] ∧ transactions signed = transactions b.
Proof.
  intros Hl Hi E. destruct (stamp_run _ _ _ _ _ _ _ E) as [[sig ->] ->]. split; [|done]. cbn.
  rewrite Hl, Hi, Nat2Z.id, insert_app_r_alt by done. by rewrite Nat.sub_diag.
Qed.
Lemma memo_activate v : fixes memo (activate_financial_layer v).
Proof.
  pose proof (frame_rebuild memo ltac:(done)). unfold activate_financial_layer. auto 20 with fixes.
Qed.
Lemma reachable_memo s : reachable s → memo s = memo_of (chain_list s).
Proof.
  apply (reachable_parts (λ s, memo s = memo_of (chain_list s))); [done|..].
  - intros b s0 s' IH Hh E ->. rewrite (memo_append b s0 s' E), IH, memo_of_app. do 2 f_equal. lia.
  - intros b sr rr sk s0 signed s' l IH Hl Hi E. destruct (stamp_list b sr rr sk s0 signed s' l Hl Hi E) as [-> Ht].
    unfold memo_of. rewrite (placed_stamp l b signed Ht), <-Hl. fold (memo_of (chain_list s0)). rewrite <-IH.
    destruct (stamp_run _ _ _ _ _ _ _ E) as [_ ->]. done.
  - done.
  - done.
  - done.
  - intros v s0 s' IH E. pose proof (memo_activate v s0) as H. rewrite E in H. cbn in H. rewrite H, IH.
    pose proof (spine_activate v s0) as Hsp. rewrite E in Hsp. by injection Hsp as -> _ _ _ _ _.
Qed.

(** ** What the trie holds *)

(** The parts of the state the trie commits to *)
Definition books (s : Chain) : gmap string Z * gmap string Z * gmap (string * string) Z * gmap string Token :=
  (balances (ledger s), sender_nonce (idx s), token_balances (tokens s), token_registry (tokens s)).
Lemma committed_books s s' k v : books s = books s' → committed s k v → committed s' k v.
Proof. intros [= E1 E2 E3 E4] H. destruct H; constructor; congruence. Qed.
(** The trie holds the state. *)
Definition rooted (s : Chain) : Prop :=
  (∀ k v, state_trie (trie s) !! k = Some v ↔ committed s k v) ∧ ∀ e, Raise e ∉ plan_of s.
Lemma plan_books s s' : books s = books s' → plan_of s = plan_of s'.
Proof. unfold plan_of. by intros [= -> -> -> ->]. Qed.
Definition root_view (s : Chain) := (state_trie (trie s), books s).
Lemma rooted_view s s' : root_view s = root_view s' → rooted s → rooted s'.
Proof.
  intros [= E1 E] [Hr Hp]. assert (books s = books s') as Hb by (unfold books in *; congruence).
  split; [|by rewrite <-(plan_books s s' Hb)]. intros k v. rewrite <-E1, (Hr k v). split; by apply committed_books.
Qed.

Definition roots {A} (m : M Chain A) : Prop := ∀ s a s', m s = (Ok a, s') → rooted s'.
Lemma roots_bind {A B} (m : M Chain A) (k : A → M Chain B) : (∀ a, roots (k a)) → roots (m ≫= k).
Proof. intros Hk s b s'. unfold mbind, M_bind. destruct (m s) as [[a|e] s1]; [apply Hk|done]. Qed.
Lemma roots_then {A B} (m : M Chain A) (k : A → M Chain B) : roots m → (∀ a, fixes root_view (k a)) → roots (m ≫= k).
Proof.
  intros Hm Hk s b s'. unfold mbind, M_bind. destruct (m s) as [[a|e] s1] eqn:E; [|done]. intros E2. specialize (Hk a s1).
  rewrite E2 in Hk. eapply rooted_view; [symmetry; exact Hk|by eapply Hm].
Qed.
Lemma roots_rebuild : roots rebuild_state_trie.
Proof.
  intros s [] s' E. pose proof E as E'. apply rebuild_spec in E as [E H]. assert (books s = books s') as Hb by (by rewrite E). split.
  - intros k v. rewrite H. split; by apply committed_books.
  - rewrite <-(plan_books s s' Hb). rewrite rebuild_run in E'. by apply run_plan_spec in E' as [? _].
Qed.
Lemma fixes_trie (f : Trie → Trie) : (∀ t, state_trie (f t) = state_trie t) → fixes root_view (on trie (modify f)).
Proof. intros H s. specialize (H (trie s)). unfold root_view. cbn. by rewrite H. Qed.
Lemma fixes_ledger (f : Ledger → Ledger) : (∀ l, balances (f l) = balances l) → fixes root_view (on ledger (modify f)).
Proof. intros H s. specialize (H (ledger s)). unfold root_view, books. cbn. by rewrite H. Qed.
#[local] Hint Extern 1 (fixes root_view (on trie _)) => (apply fixes_trie; intros []; reflexivity) : fixes.
#[local] Hint Extern 1 (fixes root_view (on ledger _)) => (apply fixes_ledger; intros []; reflexivity) : fixes.

Lemma roots_append b : roots (append_block_inner b).
Proof.
  rewrite append_block_inner_close. do 4 (apply roots_bind; intros ?). unfold close_block.
  do 4 (apply roots_bind; intros ?). apply roots_then.
  - unfold seal_state. apply roots_then; [apply roots_rebuild|intros _]. auto 20 with fixes.
  - intros _. unfold prune_history, update_finality. auto 20 with fixes.
Qed.
Lemma rooted_activate v s s' : rooted s → activate_financial_layer v s = (Ok tt, s') → rooted s'.
Proof.
  intros Hs. unfold activate_financial_layer, get. unfold mbind at 1, M_bind at 1. destruct (financial_active _); [by intros [= <-]|].
  revert s' Hs. assert (∀ v' s0, roots (_ ← on ledger (modify (set financial_active (λ _, true)));
    _ ← when (negb (is_empty v') && (get_balance s0 v' =? 0))
          (let genesis_balance := GENESIS_BALANCE_QBIT * QUBIT_PER_QBIT in
           _ ← on ledger (credit v' genesis_balance); on ledger (modify (set total_minted (λ m, m + genesis_balance))));
    _ ← rebuild_state_trie; h ← gets height; t ← gets (λ s, state_trie (trie s));
    when (0 <=? h) (on trie (modify (set state_snapshots (<[h := trie_snapshot t]>)))))) as H.
  { intros v' s0. do 2 (apply roots_bind; intros ?). apply roots_then; [apply roots_rebuild|intros _]. auto 20 with fixes. }
  intros s' _ E. by eapply H.
Qed.
Lemma reachable_rooted s : reachable s → rooted s.
Proof.
  apply reachable_parts; try done.
  - split; [|vm_compute; intros e H; by apply elem_of_nil in H]. intros k v. split; [done|]. intros H. by destruct H.
  - intros b s0 s' _ _ E _. by eapply roots_append.
  - intros b sr rr sk s0 signed s' l H _ _ E. destruct (stamp_run _ _ _ _ _ _ _ E) as [_ ->]. eapply rooted_view; [|exact H]; done.
  - intros s0 st H. eapply rooted_view; [|exact H]; done.
  - intros s0 p H. eapply rooted_view; [|exact H]; done.
  - intros s0 h H. eapply rooted_view; [|exact H]; done.
  - intros v s0 s'. apply rooted_activate.
Qed.
End Memo.

(** ** Loading the blocks *)

Section Load.
Context `{C : Crypto} `{Cfg : ChainConfig} `{F : PyFloat}.

(** What loading reads of a transaction, beyond what the database asked for *)
Definition loadable_tx (tx : Transaction) : bool :=
  match tx_type tx with
  | REGISTER_VALIDATOR =>
      match jget_str (payload tx) "validator_pubkey" with
      | Ok t => match fromhex t with Some _ => true | None => false end
      | Raise _ => false
      end
  | REVOKE_KEY => match jget_str (payload tx) "reason" with Ok _ => true | Raise _ => false end
  | _ => true
  end.

(** [m] returns. *)
Definition returns {S A} (m : M S A) : Prop := ∀ s, ∃ a s', m s = (Ok a, s').
Lemma returns_bind {S A B} (m : M S A) (k : A → M S B) : returns m → (∀ a, returns (k a)) → returns (m ≫= k).
Proof. intros Hm Hk s. destruct (Hm s) as (a & s1 & E). unfold mbind, M_bind. rewrite E. apply Hk. Qed.
Lemma returns_ret {S A} (a : A) : returns (S := S) (mret a).
Proof. intros s. by exists a, s. Qed.
Lemma returns_modify {S} (f : S → S) : returns (modify f).
Proof. intros s. by eexists _, _. Qed.
Lemma returns_lift {S A} (a : A) : returns (S := S) (lift (Ok a)).
Proof. intros s. by eexists _, _. Qed.
Lemma returns_when {S} c (m : M S unit) : returns m → returns (when c m).
Proof. destruct c; [done|intros _; apply returns_ret]. Qed.
Lemma returns_on {S T A} (π : S → T) `{!Setter π} (m : M T A) : returns m → returns (on π m).
Proof. intros H s. destruct (H (π s)) as (a & t & E). unfold on, zoom. rewrite E. by eexists _, _. Qed.
Lemma returns_get {S} : returns (S := S) get.
Proof. intros s. by eexists _, _. Qed.
Lemma returns_gets {S A} (f : S → A) : returns (gets f).
Proof. intros s. by eexists _, _. Qed.
Lemma returns_mfor {S A} (f : A → M S unit) l : (∀ x, returns (f x)) → returns (mfor f l).
Proof. intros Hf. induction l as [|x l IH]; [apply returns_ret|]. apply returns_bind; [apply Hf|done]. Qed.
Create HintDb returns.
#[local] Hint Resolve returns_ret returns_modify returns_lift returns_when returns_on returns_get returns_gets returns_mfor : returns.
#[local] Hint Extern 1 (returns (_ ≫= _)) => (apply returns_bind; [|intros ?]) : returns.
#[local] Hint Extern 2 (returns (if ?b then _ else _)) => destruct b : returns.
#[local] Hint Extern 2 (returns (match ?x with _ => _ end)) => destruct x : returns.

Lemma load_register_returns tx vpk a pk : jget_str (payload tx) "validator_pubkey" = Ok vpk →
  jget_str (payload tx) "validator_address" = Ok a → fromhex vpk = Some pk → returns (load_register_validator tx).
Proof.
  intros E1 E2 E3 s. unfold load_register_validator, set_commission, fromhex_val, lift. unfold mbind at 1, M_bind at 1. rewrite E1.
  unfold mbind at 1, M_bind at 1. rewrite E2. unfold when. destruct (_ && _); [|by eexists _, _]. unfold mbind at 1, M_bind at 1.
  cbn [as_str mbind result_bind]. rewrite E3. destruct (commission_of tx); by eexists _, _.
Qed.
Lemma load_tx_returns h i n tx : storable_tx tx = true → loadable_tx tx = true → returns (load_tx h i n tx).
Proof.
  unfold storable_tx, loadable_tx. rewrite !andb_true_iff. intros [_ Hst] Hl. unfold load_tx.
  apply returns_bind; [auto with returns|intros _]. apply returns_bind; [auto with returns|intros _].
  unfold load_revoke_key, apply_notarize, apply_register_key, apply_stake, load_unstake, remove_validator.
  destruct (tx_type tx); try (repeat (destruct (jget_str _ _); [|done]); try (destruct (jget_int _ _ _); [|done]); auto 30 with returns; fail).
  destruct (jget_str _ "validator_address") as [a|] eqn:E1; [|done]. destruct (jget_str _ "validator_pubkey") as [vpk|] eqn:E2; [|done].
  destruct (fromhex vpk) as [pk|] eqn:E3; [|done]. by eapply load_register_returns.
Qed.

(** *** What loading a block changes *)

#[local] Hint Extern 1 (fixes memo (on keys (modify _))) => (apply fixes_keys; intros []; reflexivity) : fixes.
#[local] Hint Extern 1 (fixes memo (on cons _)) => (apply fixes_cons; intros []; reflexivity) : fixes.
Lemma memoes_load_tx h i n tx : memoes (λ m, memo_step m (mkPlaced i n tx)) (load_tx h i n tx).
Proof.
  apply (memoes_bind (λ m, memo_index m (mkPlaced i n tx)) (λ m, memo_type m tx)
    (_ ← on idx (modify (index_tx i n tx)); on cons (modify (set chain_tx_ids (union {[tx_id tx]})))) (λ _,
    match tx_type tx with
    | NOTARIZE => on idx (apply_notarize (tx_id tx) tx) | REGISTER_KEY => on keys (apply_register_key tx)
    | REGISTER_VALIDATOR => load_register_validator tx | REVOKE_KEY => load_revoke_key tx
    | STAKE | DELEGATE => on staking (apply_stake tx) | UNSTAKE => on staking (load_unstake h i tx) | _ => mret tt end)
    (memoes_index i n tx)).
  intros _. unfold load_register_validator, set_commission, add_validator, load_revoke_key, remove_validator.
  destruct (tx_type tx) eqn:Ht; try (apply memoes_other; [rewrite Ht; set_solver|auto 20 with fixes]; fail).
  - by apply memoes_register_key.
  - apply memoes_revoke_key; [done|]. intros kt. auto 20 with fixes.
  - by apply memoes_notarize.
Qed.
Lemma memoes_load_txs h i n txs : memoes (λ m, foldl memo_step m (placed_txs i n txs)) (load_txs h i n txs).
Proof.
  revert n. induction txs as [|tx txs IH]; intros n; cbn [load_txs placed_txs foldl]; [apply memoes_fixes, fixes_ret|].
  apply (memoes_bind (λ m, memo_step m (mkPlaced i n tx)) (λ m, foldl memo_step m (placed_txs i (n + 1) txs))); [apply memoes_load_tx|].
  intros _. apply IH.
Qed.

(** What the transactions of a block leave alone while they are loaded *)
Definition around (s : Chain) :=
  (height s, latest_block s, block_by_hash (idx s),
   (balances (ledger s), total_minted (ledger s), total_burned (ledger s), financial_active (ledger s)), tokens s).
Lemma fixes_idx_around (m : M Index unit) : fixes block_by_hash m → fixes around (on idx m).
Proof. intros H s. specialize (H (idx s)). unfold around, on, zoom. destruct (m (idx s)) as [r ix]. cbn in *. by rewrite H. Qed.
Lemma fixes_commission (f : gmap string Z → gmap string Z) : fixes around (on ledger (modify (set validator_commission f))).
Proof. by intros s. Qed.
Lemma around_load_tx h i n tx : fixes around (load_tx h i n tx).
Proof.
  pose proof fixes_commission. assert (fixes around (on idx (modify (index_tx i n tx)))) by (by apply fixes_idx_around).
  assert (fixes around (on idx (apply_notarize (tx_id tx) tx))).
  { apply fixes_idx_around. intros ix. unfold apply_notarize, lift, mbind, M_bind, when. destruct (jget_str _ _) as [dh|]; [|done].
    by destruct (is_empty dh). }
  unfold load_tx, load_register_validator, set_commission, add_validator, load_revoke_key, remove_validator. auto 20 with fixes.
Qed.
Lemma around_load_txs h i n txs : fixes around (load_txs h i n txs).
Proof.
  revert n. induction txs as [|tx txs IH]; intros n; cbn [load_txs]; [apply fixes_ret|].
  apply fixes_bind; [apply around_load_tx|intros _; apply IH].
Qed.
Definition loadable (b : Block) : bool := forallb loadable_tx (transactions b).
Lemma load_txs_returns h i n txs : forallb storable_tx txs = true → forallb loadable_tx txs = true → returns (load_txs h i n txs).
Proof.
  revert n. induction txs as [|tx txs IH]; intros n; cbn [forallb load_txs]; [intros; apply returns_ret|].
  intros [H1 H2]%andb_prop [H3 H4]%andb_prop. apply returns_bind; [by apply load_tx_returns|intros _; by apply IH].
Qed.
Lemma load_block_spec h i b s : storable b = true → loadable b = true → ∃ s', load_block h i b s = (Ok tt, s') ∧
  memo s' = foldl memo_step (memo s) (placed_txs i 0 (transactions b)) ∧
  around s' = around (s <| height := i |> <| latest_block := Some b |> <| idx ::= set block_by_hash (<[block_hash b := i]>) |>).
Proof.
  intros Hs%storable_txs Hl. unfold load_block. unfold mbind, M_bind, modify. set (s1 := set idx _ _).
  destruct (load_txs_returns h i 0 (transactions b) Hs Hl s1) as ([] & s' & E). exists s'. split; [done|]. split.
  - by apply memoes_load_txs in E.
  - pose proof (around_load_txs h i 0 (transactions b) s1) as H. rewrite E in H. exact H.
Qed.

(** *** The loop over the blocks *)

(** Every signature of the log verifies against the validators known so far. *)
Fixpoint signed_log (vals : gmap string string) (bs : list Block) : Prop :=
  match bs with
  | [] => True
  | b :: rest => check_loaded vals b = Ok tt ∧ ∃ vals', learn_validators vals b = Ok vals' ∧ signed_log vals' rest
  end.
Definition signed_if (vals : option (gmap string string)) (bs : list Block) : Prop :=
  match vals with Some v => signed_log v bs | None => True end.
(** Blocks carry their place and the hash of the one before. *)
Definition linked_log (bs : list Block) : Prop :=
  (∀ i b, bs !! i = Some b → index b = Z.of_nat i) ∧
  (∀ i p b, bs !! i = Some p → bs !! S i = Some b → prev_hash b = block_hash p).

(** The place of a block in the state, block after block *)
Fixpoint opened (i : Z) (bs : list Block) (s : Chain) : Chain :=
  match bs with
  | [] => s
  | b :: rest => opened (i + 1) rest (s <| height := i |> <| latest_block := Some b |> <| idx ::= set block_by_hash (<[block_hash b := i]>) |>)
  end.
Lemma opened_around i bs s s' : around s = around s' → around (opened i bs s) = around (opened i bs s').
Proof.
  revert i s s'. induction bs as [|b bs IH]; intros i s s' H; [done|]. cbn [opened]. apply IH. unfold around in *. cbn. congruence.
Qed.
Lemma load_blocks_log st h bs : (∀ i, Store.get_block st i = Ok (if 0 <=? i then bs !! Z.to_nat i else None)) →
  Forall (λ b, storable b = true ∧ loadable b = true) bs → linked_log bs →
  ∀ rest k prev vals s, drop k bs = rest → prev = (match k with O => None | S j => block_hash <$> bs !! j end) →
  (0 < k → prev ≠ None)%nat → signed_if vals rest →
  ∃ s', load_blocks st h ((λ k, 0 + Z.of_nat k) <$> seq k (length rest)) prev vals s = (Ok true, s') ∧
    memo s' = foldl memo_step (memo s) (placed_from (Z.of_nat k) rest) ∧ around s' = around (opened (Z.of_nat k) rest s).
Proof.
  intros Hget Hok [Hi Hp]. induction rest as [|b rest IH]; intros k prev vals s Hd Hprev Hne Hsig; [by exists s|].
  assert (bs !! k = Some b) as Hb by (rewrite <-(Nat.add_0_r k), <-lookup_drop, Hd; done).
  assert (drop (S k) bs = rest) as Hd'.
  { rewrite <-Nat.add_1_r, <-drop_drop, Hd. done. }
  cbn [seq fmap list_fmap length load_blocks]. unfold mbind at 1, M_bind at 1, lift at 1. rewrite Hget.
  destruct (Z.leb_spec 0 (0 + Z.of_nat k)); [|lia]. replace (Z.to_nat (0 + Z.of_nat k)) with k by lia. rewrite Hb.
  assert (match prev with None => negb (index b =? 0) | Some h0 => negb (bool_decide (prev_hash b = h0)) end = false) as ->.
  { destruct k as [|j]; subst prev.
    - rewrite (Hi _ _ Hb). done.
    - destruct (bs !! j) as [p|] eqn:Ej; [|exfalso; apply Hne; [lia|done]]. cbn. rewrite (Hp j p b Ej Hb). by rewrite bool_decide_eq_true_2. }
  assert (∃ vals', (match vals with None => mret None | Some vs => _ ← lift (check_loaded vs b); vs ← lift (learn_validators vs b); mret (Some vs) end
    : M Chain _) s = (Ok vals', s) ∧ signed_if vals' rest) as (vals' & Ev & Hsig').
  { destruct vals as [v|]; [|by exists None]. destruct Hsig as (H1 & v' & H2 & H3). exists (Some v'). split; [|done].
    unfold lift, mbind, M_bind. by rewrite H1, H2. }
  unfold mbind at 1, M_bind at 1. rewrite Ev. replace (0 + Z.of_nat k) with (Z.of_nat k) by lia.
  rewrite list.Forall_forall in Hok. destruct (Hok b) as [Hst Hl]; [by eapply list_elem_of_lookup_2|].
  destruct (load_block_spec h (Z.of_nat k) b s Hst Hl) as (s1 & E1 & M1 & A1). unfold mbind at 1, M_bind at 1. rewrite E1.
  destruct (IH (S k) (Some (block_hash b)) vals' s1 Hd') as (s' & E & M & A); [by rewrite Hb|done|done|].
  exists s'. split; [exact E|]. replace (Z.of_nat k + 1) with (Z.of_nat (S k)) by lia. cbn [placed_from opened]. split.
  - rewrite M, M1, foldl_app. by replace (Z.of_nat k + 1) with (Z.of_nat (S k)) by lia.
  - rewrite A. replace (Z.of_nat k + 1) with (Z.of_nat (S k)) by lia. by apply opened_around.
Qed.

(** ** Loading the tables *)

(** What the tables must be for a start to read them *)
Record readable (st : Store) (h : Z) : Prop := mkReadable {
  rd_validators : Forall (λ r : string * string, is_Some (fromhex r.2)) (get_all_validators st);
  rd_epochs : Forall (λ r : Z * (Z * string), ∃ vs, read_epoch_validators r.2.2 = Ok vs) (get_all_epochs st);
  rd_receipts : ∀ i, 0 <= i <= h → ∃ rs, get_receipts_for_block st i = Ok rs }.

Lemma returns_mfor_in {S A} (f : A → M S unit) l : (∀ x, x ∈ l → returns (f x)) → returns (mfor f l).
Proof.
  induction l as [|x l IH]; intros Hf; [apply returns_ret|]. apply returns_bind; [apply Hf; by left|]. intros _. apply IH.
  intros y Hy. apply Hf. by right.
Qed.
(** What happens to the registry, the stakes, the epochs and the slashed *)
Definition load_validators (st : Store) : M Chain unit :=
  _ ← load_registry st;
  _ ← on staking (load_stakes st);
  _ ← on staking (mfor load_epoch (get_all_epochs st));
  _ ← on staking (mfor load_slash (Store.get_slashing_events st EmptyString));
  slashed ← gets (λ s, slashed_validators (staking s));
  mfor reconcile_slashed (elements slashed).
Definition stakes_of (s : Chain) : dict string (dict string Z) := stakes (staking s).
Lemma fixes_staking_stakes (m : M Staking unit) : fixes stakes m → fixes stakes_of (on staking m).
Proof. intros H s. specialize (H (staking s)). unfold stakes_of, on, zoom. destruct (m (staking s)). exact H. Qed.

Definition rows_stakes (rows : list ((string * string) * Z)) : dict string (dict string Z) :=
  foldl (λ d r, put_stake r.1.2 r.1.1 r.2 d) [] rows.
Lemma add_stake_rows s rows : stakes s = [] → stakes (foldl add_stake_row s rows) = rows_stakes rows.
Proof.
  unfold rows_stakes. intros <-. revert s. induction rows as [|r rows IH]; intros s; [done|]. cbn [foldl]. by rewrite IH.
Qed.

(** [m] returns and keeps what the blocks and the balances determine. *)
Definition aside (m : M Chain unit) : Prop := returns m ∧ fixes memo m ∧ fixes around m.
Lemma aside_bind m (k : M Chain unit) : aside m → aside k → aside (_ ← m; k).
Proof. intros (H1 & H2 & H3) (K1 & K2 & K3). split_and!; [by apply returns_bind|by apply fixes_bind|by apply fixes_bind]. Qed.
Lemma aside_mfor {A} (f : A → M Chain unit) l : (∀ x, x ∈ l → aside (f x)) → aside (mfor f l).
Proof.
  induction l as [|x l IH]; intros Hf; [split_and!; [apply returns_ret|apply fixes_ret|apply fixes_ret]|].
  apply aside_bind; [apply Hf; by left|]. apply IH. intros y Hy. apply Hf. by right.
Qed.
Lemma aside_staking (m : M Staking unit) : returns m → aside (on staking m).
Proof. intros H. split_and!; [by apply returns_on|auto with fixes|auto with fixes]. Qed.
Lemma aside_registry st h : readable st h → aside (load_registry st).
Proof.
  intros [Hv _ _]. apply aside_mfor. intros r Hr. rewrite list.Forall_forall in Hv. destruct (Hv r Hr) as [pk Epk].
  unfold add_validator, fromhex_val. cbn [as_str mbind result_bind]. rewrite Epk.
  split_and!; [auto 20 with returns|auto 20 with fixes|auto 20 with fixes].
Qed.
Lemma returns_epochs st h : readable st h → returns (mfor load_epoch (get_all_epochs st)).
Proof.
  intros [_ He _]. apply returns_mfor_in. intros r Hr. rewrite list.Forall_forall in He. destruct (He r Hr) as [vs E].
  unfold load_epoch. rewrite E. auto with returns.
Qed.
Lemma aside_reconcile v : aside (reconcile_slashed v).
Proof. unfold reconcile_slashed, remove_validator. split_and!; [auto 20 with returns|auto 20 with fixes|auto 20 with fixes]. Qed.
Definition after_stakes (st : Store) : M Chain unit :=
  _ ← on staking (mfor load_epoch (get_all_epochs st));
  _ ← on staking (mfor load_slash (Store.get_slashing_events st EmptyString));
  slashed ← gets (λ s, slashed_validators (staking s));
  mfor reconcile_slashed (elements slashed).
Lemma after_stakes_aside st h : readable st h → aside (after_stakes st) ∧ fixes stakes_of (after_stakes st).
Proof.
  intros Hr. unfold after_stakes. split.
  - apply aside_bind; [by eapply aside_staking, returns_epochs|]. apply aside_bind; [apply aside_staking; unfold load_slash; auto with returns|].
    split_and!; [apply returns_bind; [apply returns_gets|]|apply fixes_bind; [apply fixes_gets|]|apply fixes_bind; [apply fixes_gets|]];
      intros X; apply (aside_mfor _ (elements X)); intros v _; apply aside_reconcile.
  - apply fixes_bind; [|intros _]; [|apply fixes_bind; [|intros _]].
    + apply fixes_staking_stakes, fixes_mfor. intros r. unfold load_epoch. apply fixes_bind; [apply fixes_lift|intros vs].
      apply fixes_modify. intros s. cbn. by destruct (_ <=? _).
    + apply fixes_staking_stakes, fixes_mfor. intros e. by apply fixes_modify.
    + apply fixes_bind; [apply fixes_gets|intros X]. apply fixes_mfor. intros v. unfold reconcile_slashed, remove_validator.
      apply fixes_bind; [apply fixes_get|intros s]. destruct (_ <? _).
      * apply fixes_bind; [auto with fixes|intros _]. apply fixes_staking_stakes. by apply fixes_modify.
      * apply fixes_staking_stakes. by apply fixes_modify.
Qed.
Lemma load_validators_spec st h s : readable st h → ∃ s', load_validators st s = (Ok tt, s') ∧ memo s' = memo s ∧ around s' = around s ∧
  stakes_of s' = rows_stakes (get_all_stakes st).
Proof.
  intros Hr. destruct (aside_registry st h Hr) as (R1 & M1 & A1). destruct (after_stakes_aside st h Hr) as ((R3 & M3 & A3) & S3).
  unfold load_validators. destruct (R1 s) as ([] & s1 & E1). specialize (M1 s). specialize (A1 s). rewrite E1 in M1, A1.
  set (s2 := (on staking (load_stakes st) s1).2). destruct (R3 s2) as ([] & s3 & E3). specialize (M3 s2). specialize (A3 s2). specialize (S3 s2).
  rewrite E3 in M3, A3, S3. exists s3. split_and!.
  - unfold mbind at 1, M_bind at 1. rewrite E1. exact E3.
  - cbn in *. by rewrite M3, <-M1.
  - cbn in *. by rewrite A3, <-A1.
  - cbn in S3. rewrite S3. unfold s2, stakes_of. cbn. by apply add_stake_rows.
Qed.

(** *** Rows into maps *)

Definition rows_map `{Countable K} {V} (rows : list (K * V)) (m : gmap K V) : gmap K V := foldl (λ m r, <[r.1 := r.2]> m) m rows.
Lemma rows_map_lookup `{Countable K} {V} (rows : list (K * V)) (m : gmap K V) k v : NoDup (rows.*1) →
  (rows_map rows m !! k = Some v) ↔ ((k, v) ∈ rows ∨ ((k ∉ (rows.*1)) ∧ m !! k = Some v)).
Proof.
  unfold rows_map. revert m. induction rows as [|[k0 v0] rows IH]; intros m Hn; cbn [foldl fmap list_fmap fst snd].
  { rewrite !elem_of_nil. tauto. }
  apply list.NoDup_cons in Hn as [Hk Hn]. rewrite IH by done. rewrite !elem_of_cons, lookup_insert_Some. cbn.
  split; [(intros [H1|(H1 & [[<- <-]|[Hne Hm]])])|(intros [[[= <- <-]|H1]|[H1 Hm]])].
  - left. by right.
  - left. by left.
  - right. split; [|done]. intros [->|?]; done.
  - right. split; [done|]. by left.
  - by left.
  - right. split; [tauto|]. right. split; [|done]. intros ->. apply H1. by left.
Qed.
Lemma load_balances_run st l : ∃ f, load_balances st l = (Ok tt, l <| balances := rows_map (get_all_balances st) (balances l) |>
  <| total_minted := get_supply st "total_minted" |> <| total_burned := get_supply st "total_burned" |> <| financial_active := f |>).
Proof.
  assert (∀ rows l, mfor (λ r : string * Z, modify (set balances (<[r.1 := r.2]>))) rows l =
    (Ok tt, l <| balances := rows_map rows (balances l) |>)) as H.
  { induction rows as [|r rows IH]; intros l0; [by destruct l0|]. cbn [mfor]. unfold mbind, M_bind, modify. rewrite IH. done. }
  unfold load_balances. unfold mbind at 1, M_bind at 1. rewrite H. unfold mbind, M_bind, modify. cbn.
  destruct (0 <? _); eexists; reflexivity.
Qed.
Definition token_rows_map (st : Store) (toks : list (string * Token)) (m : gmap (string * string) Z) : gmap (string * string) Z :=
  foldl (λ m r, rows_map ((λ e : string * Z, ((r.1, e.1), e.2)) <$> get_token_holders st r.1) m) m toks.
Lemma load_tokens_run st toks t : ∃ t', mfor (load_token st) toks t = (Ok tt, t') ∧
  token_registry t' = rows_map toks (token_registry t) ∧ token_balances t' = token_rows_map st toks (token_balances t).
Proof.
  revert t. induction toks as [|r toks IH]; intros t; [by exists t|]. cbn [mfor]. unfold mbind at 1, M_bind at 1, load_token at 1, modify at 1.
  set (t1 := foldl _ _ _).
  assert (token_registry t1 = <[r.1 := r.2]> (token_registry t) ∧
    token_balances t1 = rows_map ((λ e : string * Z, ((r.1, e.1), e.2)) <$> get_token_holders st r.1) (token_balances t)) as [E1 E2].
  { subst t1. set (t0 := t <| token_registry ::= _ |> <| token_by_symbol ::= _ |>).
    change (<[r.1 := r.2]> (token_registry t)) with (token_registry t0). change (token_balances t) with (token_balances t0). generalize t0. clear t0.
    unfold rows_map. induction (get_token_holders st r.1) as [|e l IHl]; intros t0; [done|]. cbn [foldl fmap list_fmap fst snd].
    destruct (IHl (load_holder r.1 e t0)) as [-> ->]. unfold load_holder, update_token_index. destruct (0 <? e.2); done. }
  destruct (IH t1) as (t' & E & R1 & R2). exists t'. split; [exact E|]. rewrite R1, R2, E1, E2. done.
Qed.
Lemma holder_rows_back st tid : (λ e : string * Z, ((tid, e.1), e.2)) <$> get_token_holders st tid =
  select_where (λ r : (string * string) * Z, bool_decide (r.1.1 = tid) && (0 <? r.2)) (t_token_balances (db st)).
Proof.
  unfold get_token_holders, holder_rows. rewrite <-list_fmap_compose. unfold select_where.
  rewrite <-(list_fmap_id (filter _ _)) at 2. apply list_fmap_ext. intros i [[t a] n] H. apply list_elem_of_lookup_2, list_elem_of_filter in H as [H _].
  cbn in *. apply andb_prop in H as [->%bool_decide_eq_true _]. done.
Qed.
Lemma token_rows_lookup st toks tid a n : NoDup (toks.*1) → NoDup ((t_token_balances (db st)).*1) →
  token_rows_map st toks ∅ !! (tid, a) = Some n ↔ (tid ∈ toks.*1) ∧ (((tid, a), n) ∈ t_token_balances (db st)) ∧ 0 < n.
Proof.
  intros Ht Hb. unfold token_rows_map. induction toks as [|r toks IH] using rev_ind; [split; [done|by intros [?%elem_of_nil _]]|].
  rewrite foldl_app. cbn [foldl]. rewrite fmap_app in Ht. apply list.NoDup_app in Ht as (Ht & Hr & _). rewrite holder_rows_back.
  set (sel := select_where _ _). assert (∀ k m, (k, m) ∈ sel ↔ ((k, m) ∈ t_token_balances (db st)) ∧ k.1 = r.1 ∧ 0 < m) as Hsel.
  { intros k m. unfold sel, select_where. rewrite list_elem_of_filter. cbn. rewrite andb_true_iff, bool_decide_eq_true, Z.ltb_lt. tauto. }
  rewrite rows_map_lookup.
  - rewrite Hsel, IH by done. cbn. rewrite fmap_app, elem_of_app. cbn. rewrite list_elem_of_singleton. split.
    + intros [(H1 & <- & H2)|(_ & H1 & H2 & H3)]; tauto.
    + intros ([H1| ->] & H2 & H3); [|by left]. right. split_and!; [|done..].
      intros ([k m] & Ek & (H4 & H5 & _)%Hsel)%list_elem_of_fmap. cbn in *. subst k. apply (Hr tid H1). cbn in H5. rewrite <-H5. by left.
  - unfold sel, select_where. by apply NoDup_fmap_filter.
Qed.
Lemma rows_stakes_get rows a v : NoDup (rows.*1) → dget_or (dget_or (rows_stakes rows) v []) a 0 = dget_or rows (a, v) 0.
Proof.
  unfold rows_stakes. induction rows as [|r rows IH] using rev_ind; [done|]. rewrite fmap_app. intros (Hn & Hr & _)%list.NoDup_app.
  rewrite foldl_app. cbn [foldl]. unfold put_stake at 1. destruct r as [[b w] n]. cbn [fst snd]. unfold dget_or in *.
  assert (dget (rows ++ [((b, w), n)]) (a, v) = match dget rows (a, v) with Some x => Some x | None => if decide ((a, v) = (b, w)) then Some n else None end) as ->.
  { clear. induction rows as [|[k x] rows IH]; cbn [app dget]; [done|]. destruct (decide ((a, v) = k)); [done|apply IH]. }
  destruct (decide (w = v)) as [->|Hw].
  - rewrite dget_dset_eq. cbn. destruct (decide (b = a)) as [->|Hb].
    + rewrite dget_dset_eq. cbn. rewrite decide_True by done. destruct (dget rows (a, v)) as [x|] eqn:E; [|done].
      exfalso. apply dget_Some_elem in E. apply (Hr (a, v)); [by apply (list_elem_of_fmap_2 fst) in E|by left].
    + rewrite dget_dset_ne by done. rewrite IH by done. rewrite decide_False by congruence. by destruct (dget rows (a, v)).
  - rewrite dget_dset_ne by done. rewrite IH by done. rewrite decide_False by congruence. by destruct (dget rows (a, v)).
Qed.

(** *** The whole start *)

Definition rest_tables (st : Store) (h : Z) : M Chain unit :=
  _ ← on ledger (load_balances st);
  _ ← on recs (load_receipts st h);
  _ ← on tokens (mfor (load_token st) (get_all_tokens st));
  check_state_root.
Lemma load_tables_eq st h s : load_tables st h s = (_ ← load_validators st; rest_tables st h) s.
Proof.
  unfold load_tables, load_validators, rest_tables, mbind, M_bind, gets. destruct (load_registry st s) as [[[]|] s1]; [|done].
  destruct (on staking (load_stakes st) s1) as [[[]|] s2]; [|done].
  destruct (on staking (mfor load_epoch (get_all_epochs st)) s2) as [[[]|] s3]; [|done].
  destruct (on staking (mfor load_slash _) s3) as [[[]|] s4]; [|done]. reflexivity.
Qed.

(** The tables hold what the chain holds. *)
Record tables_hold (s : Chain) (st : Store) : Prop := mkTablesHold {
  th_balances : NoDup ((get_all_balances st).*1) ∧ ∀ a n, ((a, n) ∈ get_all_balances st) ↔ balances (ledger s) !! a = Some n;
  th_supply : get_supply st "total_minted" = total_minted (ledger s) ∧ get_supply st "total_burned" = total_burned (ledger s);
  th_tokens : NoDup ((get_all_tokens st).*1) ∧ ∀ tid t, ((tid, t) ∈ get_all_tokens st) ↔ token_registry (tokens s) !! tid = Some t;
  th_holders : NoDup ((t_token_balances (db st)).*1) ∧ ∀ k n, ((k, n) ∈ t_token_balances (db st)) ↔ token_balances (tokens s) !! k = Some n;
  th_stakes : NoDup ((get_all_stakes st).*1) ∧ ∀ a v, Store.get_stake st a v = get_staker_info s a v }.
(** Every token balance is positive and of a registered token. *)
Definition held_tokens (s : Chain) : Prop :=
  ∀ tid a n, token_balances (tokens s) !! (tid, a) = Some n → 0 < n ∧ is_Some (token_registry (tokens s) !! tid).

Lemma rest_tables_spec st h s s1 : readable st h → tables_hold s st → held_tokens s → rooted s →
  sender_nonce (idx s1) = sender_nonce (idx s) → latest_block s1 = latest_block s →
  balances (ledger s1) = ∅ → token_registry (tokens s1) = ∅ → token_balances (tokens s1) = ∅ →
  (∀ g, latest_block s = Some g → state_root g = EmptyString ∨ state_root g = get_state_root s) →
  ∃ s', rest_tables st h s1 = (Ok tt, s') ∧ books s' = books s ∧ memo s' = memo s1 ∧ stakes_of s' = stakes_of s1 ∧
    (height s', latest_block s', block_by_hash (idx s')) = (height s1, latest_block s1, block_by_hash (idx s1)) ∧
    total_minted (ledger s') = total_minted (ledger s) ∧ total_burned (ledger s') = total_burned (ledger s) ∧
    get_state_root s' = get_state_root s.
Proof.
  intros Hr [[Nb Hb] [Hm Hbu] [Nt Ht] [Nh Hh] _] Hheld [Hroot Hplan] En El Eb Er Et Htip. unfold rest_tables.
  destruct (load_balances_run st (ledger s1)) as [f Ef]. unfold mbind at 1, M_bind at 1, on at 1, zoom at 1. rewrite Ef.
  set (s2 := set ledger _ s1).
  assert (returns (load_receipts st h)) as Hrec.
  { destruct Hr as [_ _ Hr]. apply returns_mfor_in. intros i Hi. destruct (Hr i) as [rs Ers].
    { unfold zrange in Hi. apply list_elem_of_fmap in Hi as (k & -> & Hk%elem_of_seq). lia. }
    rewrite Ers. unfold load_receipt. auto with returns. }
  destruct (Hrec (recs s2)) as ([] & rs & Ers). unfold mbind at 1, M_bind at 1, on at 1, zoom at 1. rewrite Ers.
  destruct (load_tokens_run st (get_all_tokens st) (tokens s2)) as (tk & Etk & R1 & R2).
  unfold mbind at 1, M_bind at 1, on at 1, zoom at 1. change (tokens (set recs _ s2)) with (tokens s2). rewrite Etk.
  set (s3 := set tokens _ _). assert (books s3 = books s) as Hbooks.
  { unfold books. subst s3 s2. cbn. rewrite En, R1, R2. cbn. rewrite Eb, Er, Et. repeat f_equal.
    - apply map_eq. intros a. apply option_eq. intros n. rewrite rows_map_lookup by done. rewrite <-Hb, lookup_empty. naive_solver.
    - apply map_eq. intros [tid a]. apply option_eq. intros n. rewrite token_rows_lookup by done. rewrite Hh. split; [tauto|].
      intros H. destruct (Hheld _ _ _ H) as [Hp [t Htid]]. split_and!; [|done|done].
      apply list_elem_of_fmap. exists (tid, t). split; [done|]. by apply Ht.
    - apply map_eq. intros tid. apply option_eq. intros t. rewrite rows_map_lookup by done. rewrite <-Ht, lookup_empty. naive_solver. }
  destruct (run_plan_total (plan_of s3) (clear_trie s3)) as [s4 E4]; [by rewrite (plan_books s3 s Hbooks)|]. rewrite <-rebuild_run in E4.
  pose proof (rebuild_spec _ _ E4) as [F4 H4].
  assert (get_state_root s4 = get_state_root s) as Hsame.
  { unfold get_state_root. do 2 f_equal. apply map_eq. intros k. apply option_eq. intros v. rewrite H4, Hroot. split; by apply committed_books. }
  exists s4. split_and!.
  - unfold check_state_root. unfold mbind at 1, M_bind at 1. rewrite E4. unfold get. unfold mbind at 1, M_bind at 1.
    assert (latest_block s4 = latest_block s) as -> by (rewrite F4; exact El). destruct (latest_block s) as [g|] eqn:Eg; [|done].
    unfold lift. rewrite Hsame. destruct (Htip g eq_refl) as [-> | ->]; [done|]. rewrite bool_decide_eq_true_2 by done. by rewrite andb_false_r.
  - rewrite F4. exact Hbooks.
  - rewrite F4. done.
  - rewrite F4. done.
  - rewrite F4. done.
  - rewrite F4. exact Hm.
  - rewrite F4. exact Hbu.
  - done.
Qed.
Lemma opened_keeps i bs s h : h ∉ block_hash <$> bs → block_by_hash (idx (opened i bs s)) !! h = block_by_hash (idx s) !! h.
Proof.
  revert i s. induction bs as [|b bs IH]; intros i s Hh; [done|]. cbn [opened]. cbn in Hh. apply not_elem_of_cons in Hh as [H1 H2].
  rewrite IH by done. cbn. by rewrite lookup_insert_ne.
Qed.
Lemma opened_spec i bs s : NoDup (block_hash <$> bs) → bs ≠ [] →
  height (opened i bs s) = i + Z.of_nat (length bs) - 1 ∧ latest_block (opened i bs s) = list.last bs ∧
  (∀ j b, bs !! j = Some b → block_by_hash (idx (opened i bs s)) !! block_hash b = Some (i + Z.of_nat j)) ∧
  (balances (ledger (opened i bs s)), tokens (opened i bs s)) = (balances (ledger s), tokens s).
Proof.
  revert i s. induction bs as [|b bs IH]; intros i s Hn Hne; [done|]. cbn [fmap list_fmap] in Hn. apply list.NoDup_cons in Hn as [Hb Hn].
  cbn [opened]. set (s1 := set idx _ _). destruct bs as [|c bs].
  - split_and!; [cbn; lia|done| |done]. intros [|j] b'; [|done]. intros [= <-]. cbn. rewrite lookup_insert_eq. f_equal. lia.
  - destruct (IH (i + 1) s1 Hn) as (H1 & H2 & H3 & H4); [done|]. split_and!.
    + rewrite H1. cbn. lia.
    + rewrite H2. done.
    + intros [|j] b' Hj; cbn in Hj.
      * injection Hj as <-. rewrite opened_keeps by done. subst s1. cbn. rewrite lookup_insert_eq. f_equal. lia.
      * rewrite (H3 j b' Hj). f_equal. lia.
    + exact H4.
Qed.
Lemma chain_ok_linked s : chain_ok s → linked_log (chain_list s).
Proof. intros H. split; [apply (ck_index _ H)|]. intros i p b Hp Hb. by destruct (ck_links _ H i p b Hp Hb). Qed.

(** What a start needs: signatures that verify when they are asked for,
    registrations it can read, and the root of the state in the tip *)
Record restartable (bs : list Block) (x : SChain) (vs : gmap string string) (verify : bool) : Prop := mkRestartable {
  rs_tables : tables_hold (mem x) (sql x);
  rs_held : held_tokens (mem x);
  rs_readable : readable (sql x) (height (mem x));
  rs_loadable : Forall (λ b, loadable b = true) bs;
  rs_signed : verify = true → signed_log vs bs;
  rs_tip : ∀ g, latest_block (mem x) = Some g → state_root g = EmptyString ∨ state_root g = get_state_root (mem x) }.
Definition start_state (vs : gmap string string) : Chain := empty_Chain <| cons ::= set validators (λ _, vs) |>.

Lemma restart_spec bs x vs verify : stored_reachable bs x → restartable bs x vs verify →
  ∃ s', load_from_sqlite (reopen (sql x)) verify (start_state vs) = (Ok true, s') ∧
    height s' = height (mem x) ∧ latest_block s' = latest_block (mem x) ∧
    (∀ i b, bs !! i = Some b → block_by_hash (idx s') !! block_hash b = Some (Z.of_nat i)) ∧
    memo s' = memo (mem x) ∧ books s' = books (mem x) ∧
    total_minted (ledger s') = total_minted (ledger (mem x)) ∧ total_burned (ledger s') = total_burned (ledger (mem x)) ∧
    (∀ a v, get_staker_info s' a v = get_staker_info (mem x) a v) ∧ get_state_root s' = get_state_root (mem x).
Proof.
  intros Hreach [Htab Hheld Hread Hload Hsig Htip]. pose proof (stored_reachable_log _ _ Hreach) as (Hst & Hh & _).
  destruct (stored_reachable_mirrors _ _ Hreach) as (s & Hs & R & a & b & Es).
  destruct (reachable_ok s Hs) as [Hck Hpos]. assert (chain_list s = bs) as Hl by (by rewrite Es).
  pose proof (reachable_memo s Hs) as Hmemo. pose proof (reachable_rooted s Hs) as Hroot.
  assert (memo s = memo (mem x)) as Em by (by rewrite Es). assert (height s = height (mem x)) as Eh by (by rewrite Es).
  assert (rooted (mem x)) as Hrx by (eapply rooted_view; [|exact Hroot]; by rewrite Es).
  assert (latest_block s = latest_block (mem x)) as El by (by rewrite Es).
  rewrite (reopen_log bs (sql x) R). unfold load_from_sqlite, mbind at 1, M_bind at 1, modify at 1. set (s0 := set chain_list _ _).
  assert (s_height (sql x) = height (mem x)) as Esh by (rewrite (rp_height _ _ R), <-Eh, (ck_height _ Hck), Hl; done).
  rewrite Esh. destruct (Z.ltb_spec (height (mem x)) 0); [lia|]. unfold mbind at 1, M_bind at 1, get at 1.
  assert (bs ≠ []) as Hne. { intros ->. pose proof (ck_height _ Hck) as H1. rewrite Hl in H1. cbn in H1. lia. }
  assert (zrange 0 (height (mem x) + 1) = (λ k, 0 + Z.of_nat k) <$> seq 0 (length bs)) as ->.
  { unfold zrange. do 2 f_equal. rewrite <-Eh, (ck_height _ Hck), Hl. lia. }
  assert (Forall (λ b, storable b = true ∧ loadable b = true) bs) as Hall by (by apply Forall_and).
  assert (linked_log bs) as Hlink by (rewrite <-Hl; by apply chain_ok_linked).
  assert (signed_if (if verify then Some (validators (cons s0)) else None) bs) as Hsig' by (destruct verify; [by apply Hsig|done]).
  destruct (load_blocks_log (sql x) (height (mem x)) bs (get_block_log bs (sql x) R Hst) Hall Hlink bs 0%nat None _ s0 eq_refl eq_refl
    ltac:(lia) Hsig') as (s1 & E1 & M1 & A1).
  unfold mbind at 1, M_bind at 1. rewrite E1. destruct (opened_spec 0 bs s0 Hh Hne) as (O1 & O2 & O3 & O4).
  change (Z.of_nat 0) with 0 in A1, M1. unfold around in A1. injection A1 as A1 A2 A3 A4 A5 A6 A7 A8.
  destruct (load_validators_spec (sql x) (height (mem x)) s1 Hread) as (s2 & E2 & M2 & A2' & S2).
  unfold around in A2'. injection A2' as B1 B2 B3 B4 B5 B6 B7 B8.
  assert (memo s2 = memo (mem x)) as Emx.
  { rewrite M2, M1, <-Em, Hmemo, Hl. done. }
  injection O4 as O4 O5.
  destruct (rest_tables_spec (sql x) (height (mem x)) (mem x) s2 Hread Htab Hheld Hrx) as (s' & E' & K1 & K2 & K3 & K4 & K5 & K6 & K7).
  - apply (f_equal (λ m, sender_nonce (mm_idx m)) Emx).
  - rewrite B2, A2, O2, <-El, (ck_tip _ Hck), Hl. done.
  - rewrite B4, A4. exact O4.
  - rewrite B8, A8, O5. done.
  - rewrite B8, A8, O5. done.
  - exact Htip.
  - injection K4 as K4 K8 K9. exists s'. split_and!; try done.
    + unfold mbind at 1, M_bind at 1. rewrite load_tables_eq. unfold mbind at 1, M_bind at 1. rewrite E2, E'. done.
    + rewrite K4, B1, A1, O1, <-Eh, (ck_height _ Hck), Hl. lia.
    + rewrite K8, B2, A2, O2, <-El, (ck_tip _ Hck), Hl. done.
    + intros i c Hc. rewrite K9, B3, A3, (O3 i c Hc). done.
    + by rewrite K2.
    + intros a' v. destruct Htab as [_ _ _ _ [Nst Hstk]]. rewrite <-Hstk. unfold get_staker_info, staker_info.
      change (stakes (staking s')) with (stakes_of s'). rewrite K3, S2. by apply rows_stakes_get.
Qed.
End Load.
