(* ===== verification/Tables.v ===== *)
(** * The tables beside the blocks

    What the rows of the token tables, of [stakes], of [supply] and of
    [validators] hold while a chain with a database runs: the token registry,
    the token balances, the stakes and the supply of the chain in memory, row
    by row.  The table of balances is not among them: rows of drained accounts
    stay with a zero in them, and the debits of an epoch are not written. *)
From S2P Require Import Store StoreLaws Prelude PyStr Json JsonText Config Crypto StateTrie Wallet Transaction Fees Block Receipt ChainState Ledger StateOps Staking Consensus ReceiptOps Apply Frames Books TokenLaws TxPool Rollback Persist Chain Stored ChainLaws StoredLaws Restart.
Open Scope Z_scope.

(** ** Rows *)

Section Rows.
Context {K V : Type} `{EqDecision K}.
Implicit Types (r : dict K V) (k : K) (v : V).

Lemma dget_app r r' k : dget (r ++ r') k = match dget r k with Some v => Some v | None => dget r' k end.
Proof. induction r as [|[k' v] r IH]; [done|]. cbn [dget app]. by case_decide. Qed.
Lemma replace_get r k v k' : dget (insert_replace k v r) k' = if decide (k' = k) then Some v else dget r k'.
Proof.
  unfold insert_replace. rewrite dget_app, dget_dpop. cbn [dget]. destruct (decide (k' = k)) as [->|]; [by rewrite ?decide_True|].
  by destruct (dget r k').
Qed.
Lemma dget_or_dset r k v k' x : dget_or (dset r k v) k' x = if decide (k' = k) then v else dget_or r k' x.
Proof. unfold dget_or. rewrite dget_dset. by destruct (decide _). Qed.
Lemma dget_or_dpop r k k' x : dget_or (dpop r k) k' x = if decide (k' = k) then x else dget_or r k' x.
Proof. unfold dget_or. rewrite dget_dpop. by destruct (decide _). Qed.
Lemma dget_or_replace r k v k' x : dget_or (insert_replace k v r) k' x = if decide (k' = k) then v else dget_or r k' x.
Proof. unfold dget_or. rewrite replace_get. by destruct (decide _). Qed.
Lemma replace_NoDup r k v : NoDup (r.*1) → NoDup ((insert_replace k v r).*1).
Proof.
  intros Hr. unfold insert_replace. rewrite fmap_app. apply list.NoDup_app. split_and!; [by apply dpop_NoDup| |repeat constructor; set_solver].
  intros x Hx ->%list_elem_of_singleton. cbn in Hx. apply (dget_None (dpop r k) k); [apply dget_dpop_eq|done].
Qed.
(** Rows that leave *)
Lemma filter_get (P : K * V → Prop) `{∀ x, Decision (P x)} r k : NoDup (r.*1) →
  dget (filter P r) k = match dget r k with Some v => if decide (P (k, v)) then Some v else None | None => None end.
Proof.
  induction r as [|[k' v] r IH]; intros Hr; [done|]. apply list.NoDup_cons in Hr as [Hk Hr]. rewrite filter_cons. cbn [dget].
  destruct (decide (P (k', v))) as [Hp|Hp]; cbn [dget]; destruct (decide (k = k')) as [->|Hne]; rewrite ?IH by done; try done.
  - by rewrite decide_True.
  - cbn in Hk. apply dget_None in Hk. by rewrite Hk, decide_False.
Qed.
Lemma filter_NoDup (P : K * V → Prop) `{∀ x, Decision (P x)} r : NoDup (r.*1) → NoDup ((filter P r).*1).
Proof.
  induction r as [|[k v] r IH]; intros Hr; [done|]. apply list.NoDup_cons in Hr as [Hk Hr]. rewrite filter_cons.
  destruct (decide _); [|by apply IH]. apply list.NoDup_cons. split; [|by apply IH]. cbn in *. intros ([k' v'] & E & Hin)%list_elem_of_fmap.
  cbn in E. subst. apply list_elem_of_filter in Hin as [_ Hin]. apply Hk. apply list_elem_of_fmap. by eexists (_, _).
Qed.
Lemma NoDup_rows_elem r k v : NoDup (r.*1) → ((k, v) ∈ r) ↔ dget r k = Some v.
Proof. intros Hr. split; [by apply dget_elem|apply dget_Some_elem]. Qed.
End Rows.
Create HintDb rows.
#[local] Hint Resolve replace_NoDup dpop_NoDup : rows.

(** ** One write *)

Section Writes.
Context `{C : Crypto} `{Cfg : ChainConfig} `{F : PyFloat}.

(** The tables that follow the chain *)
Definition rows_view (st : Store) : dict string Token * dict (string * string) Z * dict (string * string) Z * dict string string :=
  (t_tokens (db st), t_token_balances (db st), t_stakes (db st), t_validators (db st)).

Lemma bind64_inv {A} z (k : Z → M Store A) st v st' : (x ← lift (bind64 z); k x) st = (Ok v, st') → k z st = (Ok v, st').
Proof. unfold lift, mbind, M_bind, bind64. by destruct (_ && _). Qed.

Lemma put_stake_run a v n st st' : Store.put_stake a v n true st = (Ok tt, st') →
  db st' = set t_stakes (insert_replace (a, v) n) (db st).
Proof. unfold Store.put_stake. intros H%bind64_inv. by injection H as <-. Qed.
Lemma put_token_run tid t st st' : put_token tid t true st = (Ok tt, st') →
  db st' = set t_tokens (λ rows,
    delete_where (λ r, bool_decide (r.1 = tid ∨ tk_symbol r.2 = tk_symbol t)) rows ++ [(tid, t)]) (db st).
Proof. unfold put_token. intros H%bind64_inv%bind64_inv%bind64_inv%bind64_inv. by injection H as <-. Qed.
Lemma put_token_balance_run tid a n st st' : Store.put_token_balance tid a n true st = (Ok tt, st') →
  db st' = set t_token_balances (λ rows, if n <=? 0 then dpop rows (tid, a) else insert_replace (tid, a) n rows) (db st).
Proof.
  unfold Store.put_token_balance. destruct (n <=? 0); [intros H; by injection H as <-|].
  unfold lift, mbind, M_bind, bind64. destruct (_ && _); [|done]. intros H. by injection H as <-.
Qed.

Lemma put_token_rows tid t (rows : dict string Token) tid' : NoDup (rows.*1) →
  (∀ i u, dget rows i = Some u → tk_symbol u = tk_symbol t → i = tid) →
  let rows' := delete_where (λ r, bool_decide (r.1 = tid ∨ tk_symbol r.2 = tk_symbol t)) rows ++ [(tid, t)] in
  NoDup (rows'.*1) ∧ dget rows' tid' = if decide (tid' = tid) then Some t else dget rows tid'.
Proof.
  intros Hn Hu. cbn zeta. set (P := λ r : string * Token, bool_decide (r.1 = tid ∨ tk_symbol r.2 = tk_symbol t) = false).
  change (delete_where _ rows) with (filter P rows). split.
  - rewrite fmap_app. apply list.NoDup_app. split_and!; [by apply filter_NoDup| |repeat constructor; set_solver].
    intros x (r & -> & [Hp _]%list_elem_of_filter)%list_elem_of_fmap Hx%list_elem_of_singleton. cbn in Hx.
    unfold P in Hp. apply bool_decide_eq_false in Hp. tauto.
  - rewrite dget_app, filter_get by done. cbn [dget]. destruct (decide (tid' = tid)) as [->|Hne].
    + destruct (dget rows tid) as [u|]; [|done]. rewrite decide_False; [done|]. unfold P. rewrite bool_decide_eq_false. cbn. tauto.
    + destruct (dget rows tid') as [u|] eqn:E; [|done]. rewrite decide_True; [done|]. unfold P. rewrite bool_decide_eq_false. cbn.
      intros [?|Hs]; [done|]. by apply Hne, (Hu tid' u).
Qed.
End Writes.

(** ** What holds after what returns *)

(** [P] depends on what [f] shows of the chain and [g] of the database. *)
Class Views (P : SChain → Prop) {T U} (f : Chain → T) (g : Store → U) : Prop :=
  views : ∀ x x', f (mem x) = f (mem x') → g (sql x) = g (sql x') → P x → P x'.
Definition leads (P Q : SChain → Prop) {A} (m : M SChain A) : Prop := ∀ x v x', P x → m x = (Ok v, x') → Q x'.
Abbreviation stays P := (leads P P).
(** [m] leaves the view [g] alone when it returns. *)
Definition leaves {U} (g : Store → U) {A} (m : M Store A) : Prop := ∀ st v st', m st = (Ok v, st') → g st' = g st.

Section Leads.
Context {P Q : SChain → Prop}.
Lemma on_run {S T A} (π : S → T) `{!Setter π} (m : M T A) s v s' : on π m s = (Ok v, s') →
  ∃ t, m (π s) = (Ok v, t) ∧ s' = set π (λ _, t) s.
Proof. unfold on, zoom. destruct (m (π s)) as [r t]. intros [= -> <-]. by exists t. Qed.
Lemma bind_run {S A B} (m : M S A) (k : A → M S B) s v s' : (m ≫= k) s = (Ok v, s') →
  ∃ a s1, m s = (Ok a, s1) ∧ k a s1 = (Ok v, s').
Proof. unfold mbind, M_bind. destruct (m s) as [[a|e] s1]; [|done]. intros H. by exists a, s1. Qed.
Lemma then_ret_run {S A B} (m : M S A) (c : B) s v s' : (_ ← m; mret c) s = (Ok v, s') → ∃ a, m s = (Ok a, s').
Proof. unfold mbind, M_bind. destruct (m s) as [[a|e] s1]; [|done]. intros [= _ <-]. by exists a. Qed.

Lemma stays_ret {A} (a : A) : stays P (mret a).
Proof. by intros x v x' Hx [= _ <-]. Qed.
Lemma stays_lift {A} (r : result A) : stays P (lift r).
Proof. by intros x v x' Hx [= _ <-]. Qed.
Lemma stays_gets {A} (f : SChain → A) : stays P (gets f).
Proof. by intros x v x' Hx [= _ <-]. Qed.
Lemma stays_get : stays P get.
Proof. by intros x v x' Hx [= _ <-]. Qed.
Lemma stays_bind {A B} (m : M SChain A) (k : A → M SChain B) : stays P m → (∀ a, leads P Q (k a)) → leads P Q (m ≫= k).
Proof. intros Hm Hk x v x' Hx (a & x1 & E1 & E2)%bind_run. eapply Hk; [|exact E2]. by eapply Hm. Qed.
(** The step that establishes [Q] *)
Lemma leads_bind {A B} (m : M SChain A) (k : A → M SChain B) : leads P Q m → (∀ a, stays Q (k a)) → leads P Q (m ≫= k).
Proof. intros Hm Hk x v x' Hx (a & x1 & E1 & E2)%bind_run. eapply Hk; [|exact E2]. by eapply Hm. Qed.
Lemma stays_when c m : stays P m → stays P (when c m).
Proof. destruct c; [done|intros _; apply stays_ret]. Qed.
Lemma stays_mem {T U A} {f : Chain → T} {g : Store → U} (HP : Views P f g) (m : M Chain A) : fixes f m → stays P (on mem m).
Proof.
  intros Hm x v x' Hx (s & Hs & ->)%on_run. specialize (Hm (mem x)). rewrite Hs in Hm.
  refine (HP x (set mem (λ _, s) x) _ _ Hx); [by symmetry|done].
Qed.
Lemma stays_leaves {T U A} {f : Chain → T} {g : Store → U} (HP : Views P f g) (m : M Store A) : leaves g m → stays P (on sql m).
Proof. intros Hm x v x' Hx (s & Hs & ->)%on_run. apply Hm in Hs. refine (HP x (set sql (λ _, s) x) _ _ Hx); [done|by symmetry]. Qed.
Lemma leaves_fixes {U A} (g : Store → U) (m : M Store A) : fixes g m → leaves g m.
Proof. intros Hm st v st' E. specialize (Hm st). by rewrite E in Hm. Qed.
Lemma stays_sql {T U A} {f : Chain → T} {g : Store → U} (HP : Views P f g) (m : M Store A) : fixes g m → stays P (on sql m).
Proof. intros Hm. by apply (stays_leaves HP), leaves_fixes. Qed.
Lemma leaves_atomic {U A} (g : Store → U) (m : M Store A) : leaves g m → leaves g (atomic m).
Proof. intros Hm st v st'. unfold atomic. destruct (m st) as [[a|e] st1] eqn:E; [|done]. intros [= _ <-]. by eapply Hm. Qed.
Lemma leaves_bind {U A B} (g : Store → U) (m : M Store A) (k : A → M Store B) : leaves g m → (∀ a, leaves g (k a)) → leaves g (m ≫= k).
Proof. intros Hm Hk st v st' (a & st1 & E1 & E2)%bind_run. etransitivity; [by eapply Hk|by eapply Hm]. Qed.
Lemma leaves_mfor {U A} (g : Store → U) (f : A → M Store unit) l : (∀ x, leaves g (f x)) → leaves g (mfor f l).
Proof. intros Hf. induction l as [|x l IH]; [by apply leaves_fixes, fixes_ret|]. by apply leaves_bind. Qed.
End Leads.

Create HintDb stays.
#[export] Hint Resolve stays_ret stays_lift stays_gets stays_get stays_when : stays.
#[export] Hint Extern 1 (leads _ _ (_ ≫= _)) => (apply stays_bind; [|intros ?]) : stays.
#[export] Hint Extern 1 (leads _ _ (on mem _)) => (eapply stays_mem; [typeclasses eauto|auto 20 with fixes]) : stays.
#[export] Hint Extern 1 (leads _ _ (on sql _)) => (eapply stays_sql; [typeclasses eauto|auto 20 with fixes]) : stays.
#[export] Hint Extern 2 (leads _ _ (if ?b then _ else _)) => destruct b : stays.
#[export] Hint Extern 2 (leads _ _ (match ?x with _ => _ end)) => destruct x : stays.
#[export] Hint Extern 2 (fixes _ (modify _)) => (apply fixes_modify; intros; reflexivity) : fixes.

(** ** The invariant *)

Section Kept.
Context `{C : Crypto} `{Cfg : ChainConfig} `{F : PyFloat}.

Record kept (s : Chain) (st : Store) : Prop := mkKept {
  kp_ok : tokens_ok (tokens s);
  kp_tokens : NoDup ((t_tokens (db st)).*1) ∧ ∀ tid, dget (t_tokens (db st)) tid = token_registry (tokens s) !! tid;
  kp_holders : NoDup ((t_token_balances (db st)).*1) ∧ ∀ k, dget (t_token_balances (db st)) k = token_balances (tokens s) !! k;
  kp_stakes : NoDup ((t_stakes (db st)).*1) ∧ ∀ a v, dget_or (t_stakes (db st)) (a, v) 0 = get_staker_info s a v;
  kp_validators : Forall (λ r : string * string, is_Some (fromhex r.2)) (t_validators (db st)) }.

Definition kept_view (s : Chain) : Tokens * dict string (dict string Z) := (tokens s, stakes (staking s)).
Lemma kept_eq s st s' st' : kept_view s = kept_view s' → rows_view st = rows_view st' → kept s st → kept s' st'.
Proof.
  intros [= E1 E2] [= E3 E4 E5 E6] [H1 H2 H3 H4 H5]. split; [by rewrite <-E1|by rewrite <-E1, <-E3|by rewrite <-E1, <-E4| |by rewrite <-E6].
  unfold get_staker_info, staker_info in *. by rewrite <-E2, <-E5.
Qed.

(** *** Tokens *)

Lemma write_token_kept s st tid st' : write_token s tid st = (Ok tt, st') →
  tokens_ok (tokens s) → NoDup ((t_tokens (db st)).*1) →
  (∀ i, i ≠ tid → dget (t_tokens (db st)) i = token_registry (tokens s) !! i) →
  (token_registry (tokens s) !! tid = None → dget (t_tokens (db st)) tid = None) →
  (∀ u, dget (t_tokens (db st)) tid = Some u → ∃ u', token_registry (tokens s) !! tid = Some u' ∧ tk_symbol u' = tk_symbol u) →
  NoDup ((t_tokens (db st')).*1) ∧ (∀ i, dget (t_tokens (db st')) i = token_registry (tokens s) !! i) ∧
  (t_token_balances (db st'), t_stakes (db st'), t_validators (db st')) = (t_token_balances (db st), t_stakes (db st), t_validators (db st)).
Proof.
  unfold write_token. intros Hrun Hok Hn Ho Hnone Hsame. destruct (token_registry (tokens s) !! tid) as [t|] eqn:Et.
  - apply put_token_run in Hrun. rewrite Hrun. cbn.
    assert (∀ i u, dget (t_tokens (db st)) i = Some u → tk_symbol u = tk_symbol t → i = tid) as Hu.
    { intros i u Hi Hs. destruct (decide (i = tid)) as [|Hne]; [done|]. rewrite Ho in Hi by done.
      apply (to_registry _ _ Hok) in Hi, Et. congruence. }
    split_and!; [apply (put_token_rows tid t _ tid Hn Hu)| |done]. intros i. rewrite (proj2 (put_token_rows tid t _ i Hn Hu)).
    destruct (decide (i = tid)) as [->|]; [done|by apply Ho].
  - injection Hrun as <-. split_and!; [done| |done]. intros i. destruct (decide (i = tid)) as [->|]; [rewrite Et; auto|by apply Ho].
Qed.
Lemma write_token_balance_kept s st tid a st' : write_token_balance s tid a st = (Ok tt, st') →
  map_Forall (λ _ n, 0 < n) (token_balances (tokens s)) → NoDup ((t_token_balances (db st)).*1) →
  NoDup ((t_token_balances (db st')).*1) ∧
  (∀ k, dget (t_token_balances (db st')) k = if decide (k = (tid, a)) then token_balances (tokens s) !! k else dget (t_token_balances (db st)) k) ∧
  (t_tokens (db st'), t_stakes (db st'), t_validators (db st')) = (t_tokens (db st), t_stakes (db st), t_validators (db st)).
Proof.
  unfold write_token_balance. intros Hrun%put_token_balance_run Hp Hn. rewrite Hrun. cbn. set (n := token_balance _ _ _).
  assert (token_balances (tokens s) !! (tid, a) = if n <=? 0 then None else Some n) as En.
  { subst n. unfold token_balance, get_or. destruct (token_balances (tokens s) !! (tid, a)) as [m|] eqn:E; [|done]. cbn.
    apply Hp in E. by destruct (Z.leb_spec m 0); [lia|]. }
  split_and!; [destruct (n <=? 0); auto with rows| |done]. intros k.
  destruct (n <=? 0); [rewrite dget_dpop|rewrite replace_get]; destruct (decide (k = (tid, a))) as [->|]; congruence.
Qed.

Lemma payload_str_index tx k t : jindex_str (payload tx) k = Ok t → payload_str tx k = t.
Proof.
  unfold jindex_str, jindex, payload_str, jget_str, jget, dget_or. destruct (dget (payload tx) k) as [v|]; [|done]. cbn. by intros ->.
Qed.
Lemma update_index_tokens tid a n tk : token_registry (update_token_index tid a n tk) = token_registry tk ∧
  token_balances (update_token_index tid a n tk) = token_balances tk.
Proof. unfold update_token_index. by destruct (0 <? n). Qed.

Lemma issue_run i tid tx tk tk' : apply_issue_token i tid tx tk = (Ok tt, tk') → (TOKEN_ACTIVATION_HEIGHT <=? i) = true →
  let id := derive_token_id (sender tx) (payload_str tx "symbol") (nonce tx) in
  token_registry tk !! id = None ∧ ∃ t, token_registry tk' = <[id := t]> (token_registry tk) ∧ token_balances tk' = token_balances tk.
Proof.
  intros Hrun Hi. unfold apply_issue_token in Hrun. rewrite Hi in Hrun. cbn [when] in Hrun. unfold lift, get, mbind, M_bind in Hrun.
  destruct (jindex_str (payload tx) "symbol") as [sym|] eqn:Es; [|done]. apply payload_str_index in Es. rewrite Es. cbn zeta.
  destruct (decide (is_Some (token_by_symbol tk !! sym))); [done|]. destruct (decide _) as [|Hid]; [done|].
  destruct (jindex_str (payload tx) "name"); [|done]. destruct (jindex_int _ _); [|done]. destruct (jget_int _ _ _); [|done].
  injection Hrun as <-. split; [by apply eq_None_not_Some|]. by eexists.
Qed.
Lemma mint_run i tx tk tk' : apply_mint_token i tx tk = (Ok tt, tk') → (TOKEN_ACTIVATION_HEIGHT <=? i) = true →
  let tid := payload_str tx "token_id" in
  ∃ t t', token_registry tk !! tid = Some t ∧ tk_symbol t' = tk_symbol t ∧ token_registry tk' = <[tid := t']> (token_registry tk) ∧
    ∀ k, k ≠ (tid, recipient tx) → token_balances tk' !! k = token_balances tk !! k.
Proof.
  intros Hrun Hi. unfold apply_mint_token in Hrun. rewrite Hi in Hrun. cbn [when] in Hrun. unfold lift, get, mbind, M_bind in Hrun.
  destruct (jindex_str (payload tx) "token_id") as [tid|] eqn:Es; [|done]. apply payload_str_index in Es. rewrite Es. cbn zeta.
  destruct (token_registry tk !! tid) as [t|] eqn:Et; [|done]. destruct (negb _); [done|]. destruct (jindex_int _ _) as [n|]; [|done].
  destruct (_ <? _); [done|]. destruct (_ && _); [done|]. injection Hrun as <-. destruct (update_index_tokens tid (recipient tx)
    (token_balance (tk <| token_registry ::= <[tid := with_minted (Z.add n) t]> |>
      <| token_balances ::= λ m, <[(tid, recipient tx) := get_or m (tid, recipient tx) 0 + n]> m |>) tid (recipient tx))
    (tk <| token_registry ::= <[tid := with_minted (Z.add n) t]> |>
      <| token_balances ::= λ m, <[(tid, recipient tx) := get_or m (tid, recipient tx) 0 + n]> m |>)) as [E1 E2].
  exists t, (with_minted (Z.add n) t). split_and!; [done|by destruct t|exact E1|]. intros k Hk. etransitivity; [by rewrite E2|].
  cbn. by rewrite lookup_insert_ne.
Qed.
Lemma transfer_run i tx tk tk' : apply_transfer_token i tx tk = (Ok tt, tk') → (TOKEN_ACTIVATION_HEIGHT <=? i) = true →
  let tid := payload_str tx "token_id" in
  token_registry tk' = token_registry tk ∧
  ∀ k, k ≠ (tid, sender tx) → k ≠ (tid, recipient tx) → token_balances tk' !! k = token_balances tk !! k.
Proof.
  intros Hrun Hi. unfold apply_transfer_token in Hrun. rewrite Hi in Hrun. cbn [when] in Hrun. unfold lift, get, mbind, M_bind in Hrun.
  destruct (jindex_str (payload tx) "token_id") as [tid|] eqn:Es; [|done]. apply payload_str_index in Es. rewrite Es. cbn zeta.
  destruct (token_registry tk !! tid) as [t|] eqn:Et; [|done]. destruct (negb _); [done|]. destruct (jindex_int _ _) as [n|]; [|done].
  destruct (_ <? n); [done|]. unfold modify in Hrun. set (tk1 := set token_balances _ tk) in Hrun.
  set (v1 := token_balance tk1 tid (sender tx)) in Hrun. destruct (update_index_tokens tid (sender tx) v1 tk1) as [E1 E2].
  set (tk2 := update_token_index tid (sender tx) v1 tk1) in *. set (tk3 := set token_balances _ tk2) in Hrun. injection Hrun as <-.
  destruct (update_index_tokens tid (recipient tx) (token_balance tk3 tid (recipient tx)) tk3) as [-> ->].
  split; [exact E1|]. intros k H1 H2. subst tk3. cbn -[tk2]. rewrite lookup_insert_ne by done. rewrite E2. subst tk1. cbn.
  destruct (_ =? 0); [by rewrite lookup_delete_ne|by rewrite lookup_insert_ne].
Qed.

Lemma kept_issue i tx s tk' st st' : kept s st → apply_issue_token i (tx_id tx) tx (tokens s) = (Ok tt, tk') →
  let s' := set tokens (λ _, tk') s in
  when (TOKEN_ACTIVATION_HEIGHT <=? i)
    (write_token s' (derive_token_id (sender tx) (payload_str tx "symbol") (nonce tx))) st = (Ok tt, st') → kept s' st'.
Proof.
  intros [Hok [Hn Ht] Hh Hs Hv] Hrun s' Hw. pose proof (issue_token_ok i (tx_id tx) tx _ Hok) as Hok'. unfold wp in Hok'. rewrite Hrun in Hok'.
  destruct (TOKEN_ACTIVATION_HEIGHT <=? i) eqn:Hi.
  - destruct (issue_run _ _ _ _ _ Hrun Hi) as (Hnew & t & Er & Eb). cbn [when] in Hw.
    set (id := derive_token_id _ _ _) in *.
    destruct (write_token_kept s' st id st' Hw) as (Hn' & Ht' & [= E1 E2 E3]); [done|done|..].
    + intros j Hj. rewrite Ht. cbn. by rewrite Er, lookup_insert_ne.
    + cbn. by rewrite Er, lookup_insert_eq.
    + intros u. rewrite Ht, Hnew. done.
    + split; [done|done|by rewrite E1; cbn; rewrite Eb|by rewrite E2|by rewrite E3].
  - injection Hw as <-. unfold apply_issue_token in Hrun. rewrite Hi in Hrun. injection Hrun as <-. by split.
Qed.
Lemma kept_mint i tx s tk' st st' : amount_positive tx → kept s st → apply_mint_token i tx (tokens s) = (Ok tt, tk') →
  let s' := set tokens (λ _, tk') s in let tid := payload_str tx "token_id" in
  when (TOKEN_ACTIVATION_HEIGHT <=? i) (_ ← write_token s' tid; write_token_balance s' tid (recipient tx)) st = (Ok tt, st') →
  kept s' st'.
Proof.
  intros Ha [Hok [Hn Ht] [Hhn Hh] Hs Hv] Hrun s' tid Hw. pose proof (mint_token_ok i tx Ha _ Hok) as Hok'. unfold wp in Hok'. rewrite Hrun in Hok'.
  destruct (TOKEN_ACTIVATION_HEIGHT <=? i) eqn:Hi.
  - destruct (mint_run _ _ _ _ Hrun Hi) as (t & t' & Et & Esym & Er & Eb). fold tid in Et, Er, Eb. cbn [when] in Hw.
    unfold mbind, M_bind in Hw. destruct (write_token s' tid st) as [[[]|] st1] eqn:E1; [|done].
    destruct (write_token_kept s' st tid st1 E1) as (Hn' & Ht' & [= F1 F2 F3]); [done|done|..].
    + intros j Hj. rewrite Ht. cbn. by rewrite Er, lookup_insert_ne.
    + cbn. by rewrite Er, lookup_insert_eq.
    + intros u. rewrite Ht, Et. intros [= <-]. exists t'. cbn. by rewrite Er, lookup_insert_eq.
    + destruct (write_token_balance_kept s' st1 tid (recipient tx) st' Hw) as (Hn2 & Hh2 & [= G1 G2 G3]).
      { apply Hok'. } { by rewrite F1. }
      split; [done|by rewrite G1| |by rewrite G2, F2|by rewrite G3, F3]. split; [done|]. intros k. rewrite Hh2, F1, Hh.
      destruct (decide (k = _)) as [->|Hk]; [done|]. symmetry. by apply Eb.
  - injection Hw as <-. unfold apply_mint_token in Hrun. rewrite Hi in Hrun. injection Hrun as <-. by split.
Qed.
Lemma kept_transfer i tx s tk' st st' : amount_positive tx → kept s st → apply_transfer_token i tx (tokens s) = (Ok tt, tk') →
  let s' := set tokens (λ _, tk') s in let tid := payload_str tx "token_id" in
  when (TOKEN_ACTIVATION_HEIGHT <=? i) (_ ← write_token_balance s' tid (sender tx); write_token_balance s' tid (recipient tx)) st = (Ok tt, st') →
  kept s' st'.
Proof.
  intros Ha [Hok [Hn Ht] [Hhn Hh] Hs Hv] Hrun s' tid Hw. pose proof (transfer_token_ok i tx Ha _ Hok) as Hok'. unfold wp in Hok'. rewrite Hrun in Hok'.
  destruct (TOKEN_ACTIVATION_HEIGHT <=? i) eqn:Hi.
  - destruct (transfer_run _ _ _ _ Hrun Hi) as (Er & Eb). fold tid in Eb. cbn [when] in Hw.
    unfold mbind, M_bind in Hw. destruct (write_token_balance s' tid (sender tx) st) as [[[]|] st1] eqn:E1; [|done].
    destruct (write_token_balance_kept s' st tid (sender tx) st1 E1) as (Hn1 & Hh1 & [= F1 F2 F3]); [apply Hok'|done|].
    destruct (write_token_balance_kept s' st1 tid (recipient tx) st' Hw) as (Hn2 & Hh2 & [= G1 G2 G3]); [apply Hok'|done|].
    split; [done|rewrite G1, F1; split; [done|intros j; by rewrite Ht; cbn; rewrite Er]| |by rewrite G2, F2|by rewrite G3, F3].
    split; [done|]. intros k. rewrite Hh2, Hh1, Hh. destruct (decide (k = (tid, recipient tx))) as [->|H1]; [done|].
    destruct (decide (k = (tid, sender tx))) as [->|H2]; [done|]. symmetry. by apply Eb.
  - injection Hw as <-. unfold apply_transfer_token in Hrun. rewrite Hi in Hrun. injection Hrun as <-. by split.
Qed.

(** *** Stakes *)

Lemma payload_str_get tx k t : jget_str (payload tx) k = Ok t → payload_str tx k = t.
Proof. unfold payload_str. by intros ->. Qed.
Lemma payload_int_get tx k n : jget_int (payload tx) k 0 = Ok n → payload_int tx k = n.
Proof. unfold payload_int. by intros ->. Qed.

(** One row of [stakes] is written or leaves. *)
Lemma write_stake_row a v n st st' :
  (if n =? 0 then delete_stake a v true else Store.put_stake a v n true) st = (Ok tt, st') →
  (NoDup ((t_stakes (db st)).*1) → NoDup ((t_stakes (db st')).*1)) ∧
  (∀ a' v', dget_or (t_stakes (db st')) (a', v') 0 = if decide ((a', v') = (a, v)) then n else dget_or (t_stakes (db st)) (a', v') 0) ∧
  (t_tokens (db st'), t_token_balances (db st'), t_validators (db st')) = (t_tokens (db st), t_token_balances (db st), t_validators (db st)).
Proof.
  destruct (Z.eqb_spec n 0) as [->|Hn].
  - intros [= <-]. cbn. split_and!; [apply dpop_NoDup| |done]. intros a' v'. apply dget_or_dpop.
  - intros ->%put_stake_run. cbn. split_and!; [apply replace_NoDup| |done]. intros a' v'. apply dget_or_replace.
Qed.
Lemma put_stake_row a v n st st' : Store.put_stake a v n true st = (Ok tt, st') →
  (NoDup ((t_stakes (db st)).*1) → NoDup ((t_stakes (db st')).*1)) ∧
  (∀ a' v', dget_or (t_stakes (db st')) (a', v') 0 = if decide ((a', v') = (a, v)) then n else dget_or (t_stakes (db st)) (a', v') 0) ∧
  (t_tokens (db st'), t_token_balances (db st'), t_validators (db st')) = (t_tokens (db st), t_token_balances (db st), t_validators (db st)).
Proof.
  intros ->%put_stake_run. cbn. split_and!; [apply replace_NoDup| |done]. intros a' v'. apply dget_or_replace.
Qed.
Lemma put_stake_get d v a n a' v' :
  dget_or (dget_or (put_stake v a n d) v' []) a' 0 = if decide ((a', v') = (a, v)) then n else dget_or (dget_or d v' []) a' 0.
Proof.
  unfold put_stake. rewrite dget_or_dset. destruct (decide (v' = v)) as [->|Hv].
  - rewrite dget_or_dset. destruct (decide (a' = a)) as [->|Ha]; [by rewrite decide_True|].
    rewrite decide_False by congruence. done.
  - rewrite decide_False by congruence. done.
Qed.
(** The state and the rows change in the same place. *)
Lemma kept_row s st sg st' a v n : kept s st →
  (∀ a' v', staker_info sg a' v' = if decide ((a', v') = (a, v)) then n else staker_info (staking s) a' v') →
  (NoDup ((t_stakes (db st)).*1) → NoDup ((t_stakes (db st')).*1)) →
  (∀ a' v', dget_or (t_stakes (db st')) (a', v') 0 = if decide ((a', v') = (a, v)) then n else dget_or (t_stakes (db st)) (a', v') 0) →
  (t_tokens (db st'), t_token_balances (db st'), t_validators (db st')) = (t_tokens (db st), t_token_balances (db st), t_validators (db st)) →
  kept (set staking (λ _, sg) s) st'.
Proof.
  intros [Hok Ht Hh [Hn Hs] Hv] Hsg Hn' Hr [= E1 E2 E3]. split; [done|by rewrite E1|by rewrite E2| |by rewrite E3]. split; [auto|].
  intros a' v'. rewrite Hr. unfold get_staker_info. cbn. rewrite Hsg. destruct (decide _); [done|]. apply Hs.
Qed.

Lemma kept_stake tx s sg st st' : kept s st → apply_stake tx (staking s) = (Ok tt, sg) →
  let s' := set staking (λ _, sg) s in let v := payload_str tx "validator_address" in
  when (negb (is_empty v) && (0 <? payload_int tx "amount"))
    (Store.put_stake (sender tx) v (get_staker_info s' (sender tx) v) true) st = (Ok tt, st') → kept s' st'.
Proof.
  intros Hk Hrun s' v Hw. unfold apply_stake, lift, mbind, M_bind in Hrun.
  destruct (jget_str _ _) as [v'|] eqn:Ev; [|done]. destruct (jget_int _ _ _) as [n|] eqn:En; [|done].
  apply payload_str_get in Ev. apply payload_int_get in En. rewrite En in Hw. subst v. rewrite Ev in Hw.
  destruct (negb _ && _); cbn [when] in *.
  - injection Hrun as <-. destruct (put_stake_row _ _ _ _ _ Hw) as (H1 & H2 & H3).
    eapply kept_row; [exact Hk| |exact H1|exact H2|exact H3]. intros a' w. unfold get_staker_info, staker_info. cbn -[put_stake dget_or].
    rewrite !put_stake_get. rewrite (decide_True _ _ (eq_refl _)). done.
  - injection Hrun as <-. injection Hw as <-. by destruct s.
Qed.
Lemma kept_unstake i tx s sg st st' : kept s st → apply_unstake i tx (staking s) = (Ok tt, sg) →
  let v := payload_str tx "validator_address" in let amount := payload_int tx "amount" in
  let new_amount := Z.max 0 (get_staker_info s (sender tx) v - amount) in
  when (negb (is_empty v) && (0 <? amount))
    (_ ← (if new_amount =? 0 then delete_stake (sender tx) v true else Store.put_stake (sender tx) v new_amount true);
     put_unbonding (sender tx) v amount (i + UNBONDING_PERIOD) true) st = (Ok tt, st') → kept (set staking (λ _, sg) s) st'.
Proof.
  cbv zeta. intros Hk Hrun. unfold apply_unstake, lift, mbind, M_bind in Hrun.
  destruct (jget_str _ _) as [v'|] eqn:Ev; [|done]. destruct (jget_int _ _ _) as [n|] eqn:En; [|done].
  apply payload_str_get in Ev. apply payload_int_get in En. rewrite Ev, En.
  destruct (negb _ && (0 <? n)) eqn:Hc; cbn [when]; injection Hrun as <-; [|intros [= <-]; by destruct s].
  set (new_amount := Z.max 0 _). unfold mbind, M_bind.
  set (m := if new_amount =? 0 then _ else _). destruct (m st) as [[[]|] st1] eqn:E1; [|done]. intros Hw. subst m.
  destruct (write_stake_row _ _ _ _ _ E1) as (H1 & H2 & H3). unfold put_unbonding in Hw. apply bind64_inv, bind64_inv in Hw.
  injection Hw as <-. eapply kept_row; [exact Hk| |exact H1|exact H2|exact H3]. intros a' w. unfold staker_info at 1. cbn -[dget_or].
  fold (get_staker_info s (sender tx) v') new_amount.
  destruct (dget (stakes (staking s)) v') as [d|] eqn:Ed.
  - rewrite dget_or_dset. destruct (decide (w = v')) as [->|Hne]; [|by rewrite decide_False by congruence].
    unfold staker_info. replace (dget_or (stakes (staking s)) v' []) with d by (unfold dget_or; by rewrite Ed).
    destruct (Z.eqb_spec new_amount 0) as [E0|E0]; [rewrite dget_or_dpop|rewrite dget_or_dset];
      (destruct (decide (a' = sender tx)) as [->|Ha]; [by rewrite decide_True|by rewrite decide_False by congruence]).
  - destruct (decide _) as [[= -> ->]|]; [|done]. unfold new_amount, get_staker_info, staker_info, dget_or. rewrite Ed. cbn.
    apply andb_prop in Hc as [_ Hc%Z.ltb_lt]. lia.
Qed.

(** *** A slash *)

(** What only touches the stakes of [v] *)
Definition only_stakes (v : string) (st st' : Store) : Prop :=
  (NoDup ((t_stakes (db st)).*1) → NoDup ((t_stakes (db st')).*1)) ∧
  (∀ a v', v' ≠ v → dget_or (t_stakes (db st')) (a, v') 0 = dget_or (t_stakes (db st)) (a, v') 0) ∧
  (t_tokens (db st'), t_token_balances (db st'), t_validators (db st')) = (t_tokens (db st), t_token_balances (db st), t_validators (db st)).
Lemma only_stakes_trans v st1 st2 st3 : only_stakes v st1 st2 → only_stakes v st2 st3 → only_stakes v st1 st3.
Proof. intros (A1 & A2 & A3) (B1 & B2 & B3). split_and!; [tauto| |congruence]. intros a w Hw. by rewrite B2, A2. Qed.
Lemma write_row_only a v n st st' : (if n =? 0 then delete_stake a v true else Store.put_stake a v n true) st = (Ok tt, st') →
  only_stakes v st st' ∧ ∀ a', dget_or (t_stakes (db st')) (a', v) 0 = if decide (a' = a) then n else dget_or (t_stakes (db st)) (a', v) 0.
Proof.
  intros (H1 & H2 & H3)%write_stake_row. split; [split_and!; [done| |done]|].
  - intros a' w Hw. rewrite H2. by rewrite decide_False by congruence.
  - intros a'. rewrite H2. destruct (decide (a' = a)) as [->|]; [by rewrite decide_True|by rewrite decide_False by congruence].
Qed.
Lemma reduce_rows v l : ∀ d st st',
  mfor (λ e : string * Z, let new_amount := Z.max 0 (e.2 - slash_of e.2) in
    if new_amount =? 0 then delete_stake e.1 v true else Store.put_stake e.1 v new_amount true) l st = (Ok tt, st') →
  (∀ a, dget_or (t_stakes (db st)) (a, v) 0 = dget_or d a 0) →
  only_stakes v st st' ∧ ∀ a, dget_or (t_stakes (db st')) (a, v) 0 = dget_or (foldl reduce_staker d l) a 0.
Proof.
  induction l as [|e l IH]; intros d st st' Hrun Hd; [injection Hrun as <-; split; [by split_and!|exact Hd]|].
  cbn [mfor foldl] in *. unfold mbind, M_bind in Hrun. set (n := Z.max 0 (e.2 - slash_of e.2)) in *.
  set (m := if n =? 0 then delete_stake e.1 v true else Store.put_stake e.1 v n true) in *.
  destruct (m st) as [[[]|] st1] eqn:E1; [|done]. destruct (write_row_only _ _ _ _ _ E1) as [O1 R1].
  destruct (IH (reduce_staker d e) st1 st' Hrun) as [O2 R2]; [|split; [by eapply only_stakes_trans|done]].
  intros a. rewrite R1. unfold reduce_staker. fold n. destruct (Z.eqb_spec n 0) as [E0|E0];
    [rewrite dget_or_dpop|rewrite dget_or_dset]; destruct (decide (a = e.1)); congruence.
Qed.
Lemma delete_rows v l : ∀ st st', mfor (λ e : string * Z, delete_stake e.1 v true) l st = (Ok tt, st') →
  only_stakes v st st' ∧ ∀ a, dget_or (t_stakes (db st')) (a, v) 0 = if decide (a ∈ l.*1) then 0 else dget_or (t_stakes (db st)) (a, v) 0.
Proof.
  induction l as [|e l IH]; intros st st' Hrun.
  { injection Hrun as <-. split; [by split_and!|]. intros a. by rewrite decide_False by apply not_elem_of_nil. }
  cbn [mfor] in Hrun. unfold mbind, M_bind in Hrun. destruct (delete_stake e.1 v true st) as [[[]|] st1] eqn:E1; [|done].
  destruct (write_row_only e.1 v 0 st st1 E1) as [O1 R1]. destruct (IH st1 st' Hrun) as [O2 R2].
  split; [by eapply only_stakes_trans|]. intros a. rewrite R2, R1. cbn.
  destruct (decide (a ∈ l.*1)) as [Ha|Ha]; [by rewrite decide_True by (by right)|].
  destruct (decide (a = e.1)) as [->|Hne]; [by rewrite decide_True by (by left)|].
  rewrite decide_False; [done|]. intros [?|?]%elem_of_cons; done.
Qed.
Lemma kept_slash v ev i s st st' : kept s st → persist_slash v ev i (staking s) st = (Ok tt, st') →
  kept (set staking (apply_slash v ev i) s) st'.
Proof.
  intros [Hok Ht Hh [Hn Hs] Hv]. unfold persist_slash. set (total := get_or _ _ _). set (d := dget_or _ v []).
  unfold mbind at 1, M_bind at 1. set (m := mfor _ _). destruct (m st) as [[[]|] st1] eqn:E1; [|done].
  destruct (reduce_rows v d d st st1 E1) as [O1 R1]; [intros a; apply (Hs a v)|]. fold (reduce_stakers d) in R1.
  unfold mbind, M_bind. set (below := Z.max 0 (total - slash_of total) <? MIN_STAKE).
  set (m2 := when below _). destruct (m2 st1) as [[[]|] st2] eqn:E2; [|done]. intros Hw.
  unfold put_slashing_event in Hw. apply bind64_inv, bind64_inv in Hw. injection Hw as <-.
  assert (only_stakes v st1 st2 ∧ ∀ a, dget_or (t_stakes (db st2)) (a, v) 0 = if below then 0 else dget_or (reduce_stakers d) a 0) as [O2 R2].
  { subst m2. destruct below; cbn [when] in E2; [|injection E2 as <-; split; [by split_and!|exact R1]].
    destruct (delete_rows _ _ _ _ E2) as [O2 R2]. split; [done|]. intros a. rewrite R2, R1.
    destruct (decide _) as [|Ha]; [done|]. unfold dget_or. apply dget_None in Ha. by rewrite Ha. }
  destruct (only_stakes_trans _ _ _ _ O1 O2) as (Hn2 & Hother & [= F1 F2 F3]).
  split; [done|by cbn; rewrite F1|by cbn; rewrite F2| |by cbn; rewrite F3]. split; [by apply Hn2|]. intros a w. cbn -[apply_slash dget_or].
  unfold get_staker_info, staker_info. change (staking (set staking (apply_slash v ev i) s)) with (apply_slash v ev i (staking s)).
  unfold apply_slash. cbn -[dget_or]. fold total below. destruct (decide (w = v)) as [->|Hw].
  - rewrite R2. destruct below; [by rewrite dget_or_dpop, decide_True|].
    destruct (dget (stakes (staking s)) v) as [d'|] eqn:Ed.
    + rewrite dget_or_dset, decide_True by done. subst d. unfold dget_or at 2. by rewrite Ed.
    + subst d. unfold dget_or at 2 4. by rewrite Ed.
  - rewrite Hother by done. rewrite Hs. unfold get_staker_info, staker_info.
    destruct below; rewrite ?dget_or_dpop, ?decide_False by done; destruct (dget (stakes (staking s)) v); by rewrite ?dget_or_dset, ?decide_False by done.
Qed.

(** *** Any transaction *)

Definition token_amount (tx : Transaction) : Prop := tx_type tx = MINT_TOKEN ∨ tx_type tx = TRANSFER_TOKEN → amount_positive tx.

Lemma evidence_run tx i s s' : process_evidence_tx tx i s = (Ok tt, s') →
  s' = s ∨ let v := payload_str tx "validator_address" in
    (v ∉ processed_evidence (staking s)) ∧ slash_validator v (tx_id tx) i s = (Ok tt, s').
Proof.
  unfold process_evidence_tx, fromhex_or_return, lift, get. unfold mbind, M_bind.
  destruct (jget_str _ _) as [v|] eqn:Ev; [|done]. apply payload_str_get in Ev. rewrite Ev. cbn zeta.
  destruct (is_empty v); cbn [orb]; [intros [= <-]; by left|]. destruct (bool_decide _) eqn:Hp; [intros [= <-]; by left|].
  apply bool_decide_eq_false in Hp. destruct (validator_registry _ !! v); [|intros [= <-]; by left].
  repeat (match goal with |- context [as_str ?x] => destruct (as_str x); [|done] end;
    match goal with |- context [fromhex ?x] => destruct (fromhex x); [|intros [= <-]; by left] end).
  destruct (negb _); [intros [= <-]; by left|]. destruct (negb _); [intros [= <-]; by left|]. intros H. by right.
Qed.
Lemma kept_evidence tx i s s' st st' : kept s st → process_evidence_tx tx i s = (Ok tt, s') →
  let v := payload_str tx "validator_address" in
  when (bool_decide (v ∈ processed_evidence (staking s')) && negb (bool_decide (v ∈ processed_evidence (staking s))))
    (persist_slash v (tx_id tx) i (staking s)) st = (Ok tt, st') → kept s' st'.
Proof.
  intros Hk [->|[Hv Hrun]]%evidence_run v Hw.
  { rewrite andb_negb_r in Hw. by injection Hw as <-. }
  fold v in Hv, Hrun. unfold slash_validator, gets, on, zoom, modify in Hrun. unfold mbind, M_bind in Hrun.
  set (s1 := set staking (λ _, apply_slash v (tx_id tx) i (staking s)) s) in Hrun.
  assert (kept_view s1 = kept_view s' ∧ staking s' = apply_slash v (tx_id tx) i (staking s)) as [Ek Es].
  { unfold when in Hrun. destruct (_ <? MIN_STAKE); by injection Hrun as <-. }
  rewrite Es in Hw. rewrite bool_decide_true in Hw by (cbn; set_solver). rewrite bool_decide_false in Hw by done.
  apply (kept_slash v (tx_id tx) i s st st' Hk) in Hw. eapply kept_eq; [exact Ek|reflexivity|]. exact Hw.
Qed.
Lemma kept_register tx s s' st st' : kept s st → apply_register_validator tx s = (Ok tt, s') →
  let vpk_hex := payload_str tx "validator_pubkey" in let v := payload_str tx "validator_address" in
  when (negb (is_empty vpk_hex) && negb (is_empty v) && negb (is_registered_validator s v)) (put_validator v vpk_hex true) st = (Ok tt, st') →
  kept s' st'.
Proof.
  intros Hk Hrun vpk_hex v Hw.
  assert (kept_view s = kept_view s') as Ek.
  { assert (fixes kept_view (apply_register_validator tx)) as Hf by (by apply frame_register_validator). specialize (Hf s). by rewrite Hrun in Hf. }
  apply (kept_eq s st s' st Ek eq_refl) in Hk. destruct (negb _ && _ && _) eqn:Hc; cbn [when] in Hw; [|by injection Hw as <-].
  injection Hw as <-. destruct Hk as [H1 H2 H3 H4 H5]. split; [done..|]. cbn. unfold insert_replace. apply Forall_app. split.
  - apply Forall_forall. intros r [Hr _]%list_elem_of_In%dpop_sub. by apply (Forall_in _ _ _ H5).
  - repeat constructor. cbn. apply andb_prop in Hc as [Hc1 Hc2]. unfold apply_register_validator, lift, get in Hrun. unfold mbind, M_bind in Hrun.
    destruct (jget_str _ "validator_pubkey") as [h|] eqn:Eh; [|done]. destruct (jget_str _ "validator_address") as [a|] eqn:Ea; [|done].
    apply payload_str_get in Eh, Ea. subst vpk_hex v. rewrite Eh, Ea in *. rewrite Hc1 in Hrun. cbn [when] in Hrun.
    apply negb_true_iff in Hc2. rewrite Hc2 in Hrun. destruct (fromhex h); [done|discriminate Hrun].
Qed.

Lemma kept_same i tx s s' f st st' : fixes kept_view (apply_type i tx) → apply_type i tx s = (Ok f, s') →
  rows_view st = rows_view st' → kept s st → kept s' st'.
Proof. intros Hf Hrun Hr. apply kept_eq; [|done]. specialize (Hf s). by rewrite Hrun in Hf. Qed.

Lemma kept_revoke tx s s' st st' rev : kept s st → apply_revoke_key (tx_id tx) tx s = (Ok tt, s') →
  (_ ← when (bool_decide (payload_str tx "key_type" = "validator")) (delete_validator (sender tx) true);
   put_revocation (sender tx) (payload_str tx "key_type") rev true) st = (Ok tt, st') → kept s' st'.
Proof.
  intros Hk Hrun Hw.
  assert (fixes kept_view (apply_revoke_key (tx_id tx) tx)) as Hf by (by apply frame_revoke_key). specialize (Hf s). rewrite Hrun in Hf.
  apply (kept_eq s st s' st (eq_sym Hf) eq_refl) in Hk. destruct Hk as [H1 H2 H3 H4 H5].
  destruct (bool_decide _); injection Hw as <-; split; try done. cbn. apply Forall_forall.
  intros r [Hr _]%list_elem_of_In%dpop_sub. by apply (Forall_in _ _ _ H5).
Qed.
Lemma kept_type i tx s s' f st st' : token_amount tx → kept s st → apply_type i tx s = (Ok f, s') →
  persist_type s s' i tx st = (Ok tt, st') → kept s' st'.
Proof.
  intros Ha Hk Hrun Hw. unfold persist_type in Hw.
  assert (tx_type tx ∉ [ISSUE_TOKEN; MINT_TOKEN; TRANSFER_TOKEN; STAKE; DELEGATE; UNSTAKE; EVIDENCE; REGISTER_VALIDATOR; REVOKE_KEY] →
    fixes kept_view (apply_type i tx)) as Hfix.
  { intros Hn. unfold apply_type. destruct (tx_type tx); try (exfalso; apply Hn; set_solver); auto 20 with fixes. }
  destruct (tx_type tx) eqn:Et; try (eapply kept_same; [apply Hfix; apply (bool_decide_unpack _); by vm_compute|exact Hrun| |exact Hk];
    by injection Hw as <-);
  unfold apply_type in Hrun; rewrite Et in Hrun; apply then_ret_run in Hrun as [[] Hrun];
  try (apply on_run in Hrun as (t & Hrun & ->)).
  - eapply kept_register; [exact Hk|exact Hrun|exact Hw].
  - eapply kept_revoke; [exact Hk|exact Hrun|exact Hw].
  - eapply kept_stake; [exact Hk|exact Hrun|exact Hw].
  - eapply kept_stake; [exact Hk|exact Hrun|exact Hw].
  - eapply kept_unstake; [exact Hk|exact Hrun|exact Hw].
  - eapply kept_evidence; [exact Hk|exact Hrun|exact Hw].
  - eapply kept_issue; [exact Hk|exact Hrun|exact Hw].
  - eapply kept_mint; [apply Ha; by left|exact Hk|exact Hrun|exact Hw].
  - eapply kept_transfer; [apply Ha; by right|exact Hk|exact Hrun|exact Hw].
Qed.

(** ** Every operation *)

Definition kept_at (x : SChain) : Prop := kept (mem x) (sql x).
#[global] Instance kept_views : Views kept_at kept_view rows_view.
Proof. intros x x'. apply kept_eq. Qed.
End Kept.

Section Steps.
Context `{C : Crypto} `{Cfg : ChainConfig} `{F : PyFloat}.

Lemma fixes_rows_commit : fixes rows_view commit.
Proof. done. Qed.
Lemma fixes_rows_exec f : (∀ d, (t_tokens (f d), t_token_balances (f d), t_stakes (f d), t_validators (f d)) =
  (t_tokens d, t_token_balances d, t_stakes d, t_validators d)) → fixes rows_view (exec f).
Proof. intros H st. apply H. Qed.
Lemma fixes_rows_commit_if c : fixes rows_view (commit_if c).
Proof. by destruct c. Qed.
#[local] Hint Resolve fixes_rows_commit fixes_rows_commit_if : fixes.
#[local] Hint Extern 1 (fixes rows_view (exec _)) => (apply fixes_rows_exec; intros; reflexivity) : fixes.

Lemma stays_release fin i l : stays kept_at (release_stored fin i l).
Proof. induction l as [|e l IH]; cbn [release_stored]; unfold delete_unbonding; auto 10 with stays. Qed.
Lemma fixes_kept_staking (m : M Staking unit) : fixes stakes m → fixes kept_view (on staking m).
Proof. intros Hm s. specialize (Hm (staking s)). unfold on, zoom. destruct (m (staking s)) as [r t]. cbn in *. unfold kept_view. cbn. congruence. Qed.
Lemma fixes_kept_epoch i : fixes kept_view (check_epoch_transition i).
Proof.
  unfold check_epoch_transition, distribute_epoch_rewards. apply fixes_bind; [apply fixes_get|intros s]. cbv zeta.
  destruct (_ <=? 0); [apply fixes_ret|]. apply fixes_when, fixes_bind; [auto 10 with fixes|intros _].
  apply fixes_kept_staking. by apply fixes_modify.
Qed.
Lemma stays_begin i : stays kept_at (stored_begin i).
Proof.
  unfold stored_begin, stored_unbondings, stored_epoch_transition. apply stays_bind; [|intros _].
  - apply stays_bind; [apply stays_gets|intros s]. apply stays_bind; [apply stays_release|intros l].
    apply (stays_mem kept_views), fixes_kept_staking. by apply fixes_modify.
  - apply stays_bind; [apply stays_gets|intros e]. apply stays_bind; [|intros _; auto with stays].
    pose proof (fixes_kept_epoch i). unfold put_epoch. cbv zeta. auto 20 with stays.
Qed.
Lemma stays_tx b i n tx : token_amount tx → stays kept_at (stored_tx b i n tx).
Proof.
  intros Ha. unfold stored_tx. do 2 (apply stays_bind; [auto with stays|intros _]). apply stays_bind; [auto with stays|intros fee].
  intros x v x' Hx (before & ? & [= <- <-] & H)%bind_run. apply bind_run in H as (f & x1 & (s1 & E1 & ->)%on_run & H).
  apply bind_run in H as (after & ? & [= <- <-] & H). apply bind_run in H as ([] & x2 & (st & E2 & ->)%on_run & H). revert H.
  assert (stays kept_at (events ← lift (build_tx_events s1 tx i); mret (mkApplied n (tx_id tx) fee events f))) as Hk by auto with stays.
  eapply Hk. exact (kept_type i tx (mem x) s1 f (sql x) st Ha Hx E1 E2).
Qed.
Lemma stays_txs b i n txs : Forall token_amount txs → stays kept_at (stored_txs b i n txs).
Proof.
  intros Ha. revert n. induction Ha as [|tx txs H _ IH]; intros n; cbn [stored_txs]; [apply stays_ret|].
  apply stays_bind; [by apply stays_tx|intros a]. apply stays_bind; [apply IH|auto with stays].
Qed.
Lemma leaves_append b : leaves rows_view (Store.append_block b).
Proof.
  assert (∀ txs i n, fixes rows_view (store_txs i n txs)) as Htxs.
  { induction txs as [|tx txs IH]; intros i n; cbn [store_txs]; [apply fixes_ret|]. apply fixes_bind; [|intros _; apply IH].
    unfold store_tx, insert_tx, insert_notarization, insert_key. auto 20 with fixes. }
  unfold Store.append_block. apply leaves_bind; [apply leaves_fixes, fixes_gets|intros i]. apply leaves_atomic, leaves_fixes.
  apply fixes_bind; [|intros _; apply fixes_bind; [apply Htxs|intros _; apply fixes_bind; [done|intros _; by apply fixes_modify]]].
  unfold insert_block. auto 20 with fixes.
Qed.
Lemma leaves_receipts i rs es : leaves rows_view (persist_receipts i rs es).
Proof.
  unfold persist_receipts. apply leaves_bind; [apply leaves_mfor|intros _; apply leaves_fixes].
  - intros r. unfold put_receipt, insert_event. apply leaves_atomic, leaves_fixes. auto 20 with fixes.
  - unfold put_block_level_events. auto 20 with fixes.
Qed.
Lemma stays_append b : Forall token_amount (transactions b) → stays kept_at (stored_append b).
Proof.
  intros Ha. unfold stored_append, open_stored. cbv zeta. apply stays_bind; [apply stays_gets|intros i].
  apply stays_bind; [apply (stays_leaves kept_views), leaves_append|intros _].
  apply stays_bind; [by apply (stays_mem kept_views), fixes_modify|intros _]. apply stays_bind; [apply stays_gets|intros stakers].
  apply stays_bind; [apply stays_begin|intros es]. apply stays_bind; [by apply stays_txs|intros l].
  do 3 (apply stays_bind; [auto with stays|intros ?]). apply stays_bind; [by apply (stays_mem kept_views), frame_seal_receipts|intros _].
  apply stays_bind; [by apply (stays_mem kept_views), frame_seal_state|intros _].
  apply stays_bind; [unfold stored_prune_history; auto 20 with stays|intros _]. apply stays_bind; [apply stays_gets|intros s].
  apply stays_bind; [|intros _].
  { unfold persist_balances_after_block, Store.put_balance, put_supply. auto 20 with stays. }
  apply stays_bind; [apply (stays_leaves kept_views), leaves_receipts|intros _].
  unfold stored_finality. intros x v x' Hx. assert (stays kept_at (stored_finality i)) as H'; [|by eapply H'].
  unfold stored_finality. apply stays_bind; [apply stays_get|intros y]. cbv zeta. auto 20 with stays.
Qed.

(** *** The other operations *)

Lemma stays_stamp b sr rr sk : stays kept_at (stored_stamp b sr rr sk).
Proof.
  unfold stored_stamp, stored_tip, reindex. cbv zeta. apply stays_bind; [by apply (stays_mem kept_views), fixes_modify|intros _]. apply stays_bind; [apply stays_lift|intros g].
  do 2 (apply stays_bind; [by apply (stays_mem kept_views), fixes_modify|intros _]). apply stays_bind; [|intros _; apply stays_ret].
  apply (stays_sql kept_views). unfold update_block. auto 20 with fixes.
Qed.
Lemma stays_auto_stake v : stays kept_at (stored_auto_stake v).
Proof.
  intros x [] x' Hx ([] & x1 & (sg & E1 & ->)%on_run & (st & E2 & ->)%on_run)%bind_run. injection E1 as <-.
  destruct (put_stake_row v v MIN_STAKE _ _ E2) as (H1 & H2 & H3). refine (kept_row (mem x) (sql x) _ st v v MIN_STAKE Hx _ H1 H2 H3).
  intros a w. unfold staker_info, auto_stake. cbn -[put_stake dget_or]. apply put_stake_get.
Qed.
Lemma stays_activate v : stays kept_at (stored_activate v).
Proof.
  pose proof (frame_rebuild kept_view ltac:(done)). unfold stored_activate, Store.put_balance, put_supply. cbv zeta. auto 30 with stays.
Qed.
Lemma fixes_kept_drain b : fixes kept_view (drain_pool b).
Proof. unfold drain_pool, rebuild_pending_debits_cache. auto 10 with fixes. Qed.
Lemma stays_submit now tx : stays kept_at (stored_submit now tx).
Proof.
  unfold stored_submit. apply stays_bind; [apply stays_get|intros x]. auto 20 with stays.
Qed.
Lemma valid_token_amount s b tx : valid_tx s b tx → token_amount tx.
Proof. intros [_ _ _ Hv]. exact (valid_amount_positive tx Hv). Qed.
Lemma valid_successor_amounts now s b p : valid_successor now s b p → Forall token_amount (transactions b).
Proof. intros Hv. eapply list.Forall_impl; [apply (vs_txs _ _ _ _ Hv)|]. intros tx. apply valid_token_amount. Qed.

(** What holds of every chain that has its genesis block *)
Definition tipped (s : Chain) : Prop := 0 <= height s ∧ ∀ p, latest_block s = Some p → 0 <= index p.

Lemma accept_kept now b x x' : tipped (mem x) → kept_at x → stored_accept now b x = (Ok None, x') → kept_at x'.
Proof.
  intros [Hh Hp] Hx (s & ? & [= <- <-] & H)%bind_run. destruct (bool_decide _); [done|]. cbv zeta in H.
  destruct (Z.eqb_spec (index b) (height (mem x) + 1)) as [Hi|]; [|revert H; by destruct (_ && _)].
  apply bind_run in H as (verdict & ? & Hv & H). destruct verdict as [err|]; [done|]. destruct (_ && _); [done|].
  unfold lift in Hv. injection Hv as Hv <-. apply bind_run in H as ([] & x1 & Ha & H). apply bind_run in H as ([] & x2 & Hd & [= <-]).
  assert (Forall token_amount (transactions b)) as Hok.
  { destruct (Z.ltb_spec 0 (index b)); [|lia]. destruct (latest_block (mem x)) as [p|] eqn:E.
    - apply validate_block_accept in Hv; [|lia]. by eapply valid_successor_amounts.
    - unfold validate_block in Hv. destruct (Z.eqb_spec (index b) 0); [lia|done]. }
  eapply (stays_mem kept_views _ (fixes_kept_drain b)); [|exact Hd]. by eapply (stays_append b Hok).
Qed.
Lemma produce_kept now v sk b x x' : tipped (mem x) → kept_at x → stored_produce now v sk x = (Ok (Some b), x') → kept_at x'.
Proof.
  intros [Hh Hp] Hx (s & ? & [= <- <-] & H)%bind_run. destruct (height (mem x) <? 0); [done|].
  destruct (latest_block (mem x)) as [p|] eqn:Ep; [|done]. apply bind_run in H as (e & ? & He & H). injection He as _ <-.
  destruct (match e with Some _ => _ | None => _ end); [done|]. destruct (is_key_revoked _ _ _); [done|].
  destruct (draft_block _ _ _ _) as [d|] eqn:Ed; [|done]. apply bind_run in H as (blk & ? & Hb & H). injection Hb as Hb <-.
  apply bind_run in H as (verdict & ? & Hv & H). injection Hv as Hv <-. destruct verdict; [done|].
  apply bind_run in H as ([] & x1 & Ha & H). apply bind_run in H as (s1 & ? & [= <- <-] & H).
  apply bind_run in H as (signed & x2 & Hs & H). apply bind_run in H as ([] & x3 & Hd & [= <- <-]).
  assert (index blk ≠ 0) as Hi.
  { unfold block_sign in Hb. destruct (MLDSA_sign sk _); [|done]. injection Hb as <-. cbn.
    destruct (draft_block_sub _ _ _ _ _ Ed) as (-> & _). specialize (Hp p eq_refl). lia. }
  apply (validate_block_accept _ _ _ _ Hi), valid_successor_amounts in Hv.
  eapply (stays_mem kept_views _ (fixes_kept_drain signed)); [|exact Hd]. eapply (stays_stamp blk); [|exact Hs]. by eapply (stays_append blk Hv).
Qed.
Lemma genesis_amounts now v sk pk s b : genesis_block now v sk pk s = Ok b → Forall token_amount (transactions b).
Proof.
  unfold genesis_block. set (key := if is_empty pk then _ else _). destruct (is_empty key); cbn [mbind result_bind].
  - unfold block_sign. destruct (MLDSA_sign sk _); [|done]. intros [= <-]. constructor.
  - unfold tx_sign. destruct (MLDSA_sign sk _) as [sig|]; [|done]. cbn [mbind result_bind]. unfold block_sign.
    destruct (MLDSA_sign sk _); [|done]. intros [= <-]. repeat constructor. by intros [?|?].
Qed.
Lemma genesis_kept now v sk pk x : stored_init_chain now v sk pk (mkSChain empty_Chain new_store) = (Ok tt, x) → kept_at x.
Proof.
  set (x0 := mkSChain empty_Chain new_store). intros (s & ? & [= <- <-] & H)%bind_run. cbn [when] in H. change (height (mem x0) <? 0) with true in H.
  cbn [when] in H. apply bind_run in H as (g & ? & Hg & H). injection Hg as Hg <-. apply genesis_amounts in Hg.
  assert (kept_at x0) as H0.
  { split; [exact fresh_tokens_ok|split; [constructor|done]..|constructor]. }
  revert H. match goal with |- ?m x0 = _ → _ => enough (stays kept_at m) as Hs by (by apply Hs) end.
  apply stays_bind; [by apply stays_append|intros _]. apply stays_bind; [apply stays_when, stays_auto_stake|intros _].
  apply stays_bind; [apply stays_gets|intros s]. apply stays_bind; [apply stays_stamp|intros c]. auto with stays.
Qed.
End Steps.

(** ** Supply *)

Section Supply.
Context `{C : Crypto} `{Cfg : ChainConfig} `{F : PyFloat}.

Definition supplied_rows (s : Chain) (st : Store) : Prop :=
  get_supply st "total_minted" = total_minted (ledger s) ∧ get_supply st "total_burned" = total_burned (ledger s).
Definition supplied (x : SChain) : Prop := supplied_rows (mem x) (sql x).

Definition supply_view (s : Chain) : Z * Z := (total_minted (ledger s), total_burned (ledger s)).
Definition supply_rows (st : Store) : dict string Z := t_supply (db st).
#[global] Instance supplied_views : Views supplied supply_view supply_rows.
Proof.
  intros x x' [= E1 E2] E3. unfold supplied, supplied_rows, get_supply. unfold supply_rows in E3. by rewrite E1, E2, E3.
Qed.

(** Inside a block the rows lag behind the supply, but only once the
    financial layer is active. *)
Definition lagging (x : SChain) : Prop := financial_active (ledger (mem x)) = false → supplied x.
Definition idle_supply (l : Ledger) : option (Z * Z) :=
  if financial_active l then None else Some (total_minted l, total_burned l).
Definition idle_view (s : Chain) : option (Z * Z) := idle_supply (ledger s).
#[global] Instance lagging_views : Views lagging idle_view supply_rows.
Proof.
  intros x x' Ev Er Hx Hf. unfold idle_view, idle_supply in Ev. rewrite Hf in Ev.
  destruct (financial_active (ledger (mem x))) eqn:E; [done|]. eapply (supplied_views x x'); [|exact Er|by apply Hx]. unfold supply_view. congruence.
Qed.

Lemma fixes_idle {A} (m : M Ledger A) : fixes idle_supply m → fixes idle_view (on ledger m).
Proof. intros Hm s. specialize (Hm (ledger s)). unfold on, zoom. by destruct (m (ledger s)). Qed.
#[local] Hint Resolve fixes_idle : fixes.
Lemma idle_flag {A} (m : M Ledger A) : fixes financial_active m → (∀ l, financial_active l = false → (m l).2 = l) → fixes idle_supply m.
Proof.
  intros Hf Hm l. unfold idle_supply. rewrite Hf. destruct (financial_active l) eqn:E; [done|]. by rewrite Hm.
Qed.
Lemma fixes_idle_settle b i tx : fixes idle_supply (settle b i tx).
Proof.
  apply idle_flag.
  - unfold settle, charge_fee, move_value, debit, credit. cbv zeta. auto 40 with fixes.
  - intros l Hl. unfold settle, get, mbind, M_bind. by rewrite Hl, andb_false_r.
Qed.
Lemma fixes_idle_reward b i : fixes idle_supply (apply_reward b i).
Proof.
  apply idle_flag.
  - unfold apply_reward, credit. cbv zeta. auto 40 with fixes.
  - intros l Hl. unfold apply_reward, get, mbind, M_bind. by rewrite Hl, andb_false_r.
Qed.
Lemma fixes_idle_shares v p t l : fixes idle_supply (distribute_shares v p t l).
Proof. induction l as [|e l IH]; cbn [distribute_shares]; unfold credit; auto 20 with fixes. Qed.
Lemma fixes_idle_all snap l : fixes idle_supply (distribute_all snap l).
Proof.
  induction l as [|[v d] l IH]; cbn [distribute_all]; [apply fixes_ret|]. apply fixes_bind; [|auto with fixes].
  pose proof fixes_idle_shares. unfold distribute_to, debit. cbv zeta. auto 40 with fixes.
Qed.
Lemma fixes_idle_epoch i : fixes idle_view (check_epoch_transition i).
Proof.
  pose proof fixes_idle_all. unfold check_epoch_transition, distribute_epoch_rewards. cbv zeta. auto 40 with fixes.
Qed.
#[local] Hint Resolve fixes_idle_settle fixes_idle_reward fixes_idle_epoch : fixes.
Lemma fixes_idle_type i tx : fixes idle_view (apply_type i tx).
Proof.
  unfold apply_type, apply_register_validator, set_commission. destruct (tx_type tx); cbv zeta; auto 40 with fixes.
  - unfold apply_revoke_key. auto 20 with fixes.
  - unfold process_evidence_tx, fromhex_or_return, slash_validator. auto 40 with fixes.
Qed.
#[local] Hint Resolve fixes_idle_type : fixes.

(** Writes to other tables *)
Lemma fixes_supply_exec f : (∀ d, t_supply (f d) = t_supply d) → fixes supply_rows (exec f).
Proof. intros H st. apply H. Qed.
Lemma fixes_supply_commit c : fixes supply_rows (commit_if c) ∧ fixes supply_rows commit.
Proof. by destruct c. Qed.
#[local] Hint Extern 1 (fixes supply_rows (exec _)) => (apply fixes_supply_exec; intros; reflexivity) : fixes.
#[local] Hint Extern 1 (fixes supply_rows (commit_if ?c)) => apply (fixes_supply_commit c) : fixes.
#[local] Hint Extern 1 (fixes supply_rows commit) => apply (fixes_supply_commit true) : fixes.

Lemma supply_append b : leaves supply_rows (Store.append_block b).
Proof.
  assert (∀ txs i n, fixes supply_rows (store_txs i n txs)) as Htxs.
  { induction txs as [|tx txs IH]; intros i n; cbn [store_txs]; [apply fixes_ret|]. apply fixes_bind; [|intros _; apply IH].
    unfold store_tx, insert_tx, insert_notarization, insert_key. auto 20 with fixes. }
  unfold Store.append_block, insert_block. apply leaves_bind; [apply leaves_fixes, fixes_gets|intros i]. apply leaves_atomic, leaves_fixes.
  auto 30 with fixes.
Qed.
Lemma supply_receipts i rs es : leaves supply_rows (persist_receipts i rs es).
Proof.
  unfold persist_receipts, put_receipt, insert_event, put_block_level_events. apply leaves_bind; [apply leaves_mfor|intros _; apply leaves_fixes].
  - intros r. apply leaves_atomic, leaves_fixes. auto 20 with fixes.
  - auto 20 with fixes.
Qed.
Lemma supply_type before s i tx : fixes supply_rows (persist_type before s i tx).
Proof.
  unfold persist_type, persist_slash, write_token, write_token_balance, put_validator, delete_validator, put_revocation,
    Store.put_stake, delete_stake, put_unbonding, put_slashing_event, put_token, Store.put_token_balance.
  destruct (tx_type tx); cbv zeta; auto 40 with fixes.
Qed.
#[local] Hint Resolve supply_type : fixes.

Lemma lagging_txs b i n txs : stays lagging (stored_txs b i n txs).
Proof.
  revert n. induction txs as [|tx txs IH]; intros n; cbn [stored_txs]; [apply stays_ret|]. unfold stored_tx. auto 20 with stays.
Qed.
Lemma lagging_begin i : stays lagging (stored_begin i).
Proof.
  assert (∀ fin l, stays lagging (release_stored fin i l)) as H.
  { intros fin l. induction l as [|e l IH]; cbn [release_stored]; unfold delete_unbonding, credit; auto 20 with stays. }
  unfold stored_begin, stored_unbondings, stored_epoch_transition, put_epoch. cbv zeta. auto 30 with stays.
Qed.
(** The rows are written again. *)
Lemma put_supply_run k n st st' : put_supply k n true st = (Ok tt, st') → t_supply (db st') = insert_replace k n (t_supply (db st)).
Proof. unfold put_supply. intros H%bind64_inv. by injection H as <-. Qed.
Lemma put_both_supplied s st st' : (_ ← put_supply "total_minted" (total_minted (ledger s)) true;
  put_supply "total_burned" (total_burned (ledger s)) true) st = (Ok tt, st') → supplied_rows s st'.
Proof.
  intros ([] & st1 & H1%put_supply_run & H2%put_supply_run)%bind_run. unfold supplied_rows, get_supply. rewrite H2, !dget_or_replace, H1, dget_or_replace.
  by split.
Qed.
Lemma append_supplied b : leads lagging supplied (stored_append b).
Proof.
  unfold stored_append, open_stored. cbv zeta. apply stays_bind; [apply stays_gets|intros i].
  apply stays_bind; [apply (stays_leaves lagging_views), supply_append|intros _]. apply stays_bind; [auto with stays|intros _].
  apply stays_bind; [apply stays_gets|intros stakers]. apply stays_bind; [apply lagging_begin|intros es].
  apply stays_bind; [apply lagging_txs|intros l]. do 3 (apply stays_bind; [auto with stays|intros ?]).
  apply stays_bind; [by apply (stays_mem lagging_views), frame_seal_receipts|intros _].
  apply stays_bind; [by apply (stays_mem lagging_views), frame_seal_state|intros _].
  apply stays_bind; [unfold stored_prune_history; auto 20 with stays|intros _].
  intros x v x' Hx (s & ? & [= <- <-] & H)%bind_run. revert H. apply (leads_bind (P := λ y, lagging y ∧ mem y = mem x)); [| |done].
  - intros y [] y' [Hy Hm] (st & E & ->)%on_run. rewrite <-Hm in E. unfold supplied. cbn.
    destruct (financial_active (ledger (mem y))) eqn:Hf; cbn [when] in E; [|injection E as <-; by apply Hy].
    apply bind_run in E as ([] & st1 & _ & E). by eapply put_both_supplied.
  - intros _. apply stays_bind; [apply (stays_leaves supplied_views), supply_receipts|intros _]. unfold stored_finality. auto 20 with stays.
Qed.
Lemma append_keeps_supplied b : stays supplied (stored_append b).
Proof. intros x v x' Hx. apply (append_supplied b). by intros _. Qed.

Lemma supplied_stamp b sr rr sk : stays supplied (stored_stamp b sr rr sk).
Proof. unfold stored_stamp, stored_tip, reindex, update_block. cbv zeta. auto 20 with stays. Qed.
Lemma supplied_auto_stake v : stays supplied (stored_auto_stake v).
Proof. unfold stored_auto_stake, Store.put_stake. auto 20 with stays. Qed.
Lemma supplied_submit now tx : stays supplied (stored_submit now tx).
Proof. unfold stored_submit. cbv zeta. auto 20 with stays. Qed.
Lemma supplied_drain b : stays supplied (on mem (drain_pool b)).
Proof. unfold drain_pool, rebuild_pending_debits_cache. auto 20 with stays. Qed.
Lemma supplied_activate v : stays supplied (stored_activate v).
Proof.
  pose proof (frame_rebuild supply_view ltac:(done)) as Hroot. unfold stored_activate. apply stays_bind; [apply stays_gets|intros s].
  destruct (financial_active _); [apply stays_ret|]. apply stays_bind; [intros x v' x' Hx (s' & [= _ <-] & ->)%on_run; exact Hx|intros _].
  apply stays_bind; [|auto 20 with stays]. destruct (_ && _); cbn [when]; [|apply stays_ret]. cbv zeta.
  intros x [] x' Hx (u1 & x1 & _ & H)%bind_run. apply bind_run in H as (u2 & x2 & _ & H).
  apply bind_run in H as (s2 & ? & [= <- <-] & H). apply bind_run in H as (u3 & x3 & (st3 & _ & ->)%on_run & H).
  apply bind_run in H as ([] & x4 & (st4 & E4 & ->)%on_run & (st5 & E5 & ->)%on_run).
  apply (put_both_supplied (mem x2) st3 st5). unfold mbind, M_bind. cbn in E4. by rewrite E4.
Qed.
Lemma accept_supplied now b x x' : supplied x → stored_accept now b x = (Ok None, x') → supplied x'.
Proof.
  pose proof append_keeps_supplied. pose proof supplied_drain. enough (stays supplied (stored_accept now b)) as Hs by (intros Hx Hr; by eapply Hs).
  unfold stored_accept. cbv zeta. auto 20 with stays.
Qed.
Lemma produce_supplied now v sk b x x' : supplied x → stored_produce now v sk x = (Ok (Some b), x') → supplied x'.
Proof.
  pose proof append_keeps_supplied. pose proof supplied_stamp. pose proof supplied_drain.
  enough (stays supplied (stored_produce now v sk)) as Hs by (intros Hx Hr; by eapply Hs). unfold stored_produce.
  apply stays_bind; [apply stays_gets|intros s]. destruct (_ <? 0); [apply stays_ret|]. destruct (latest_block s) as [p|]; [|done].
  apply stays_bind; [apply stays_lift|intros e]. destruct (match e with Some _ => _ | None => _ end); [apply stays_ret|].
  destruct (is_key_revoked _ _ _); [apply stays_ret|]. destruct (draft_block _ _ _ _); [|apply stays_ret]. auto 20 with stays.
Qed.
Lemma genesis_supplied now v sk pk x : stored_init_chain now v sk pk (mkSChain empty_Chain new_store) = (Ok tt, x) → supplied x.
Proof.
  pose proof append_keeps_supplied. pose proof supplied_stamp. pose proof supplied_auto_stake.
  enough (stays supplied (stored_init_chain now v sk pk)) as Hs by (intros Hr; eapply Hs; [|exact Hr]; by split). unfold stored_init_chain. auto 40 with stays.
Qed.
End Supply.

(** ** Every reachable node *)

Section Reachable.
Context `{C : Crypto} `{Cfg : ChainConfig} `{F : PyFloat}.

Lemma stored_tipped bs x : stored_reachable bs x → tipped (mem x).
Proof.
  intros (s & Hs & R & a & b & E)%stored_reachable_mirrors. destruct (reachable_ok s Hs) as [Hck Hh].
  assert (height s = height (mem x) ∧ latest_block s = latest_block (mem x)) as [Eh El] by by rewrite E.
  split; [lia|]. intros p Hp. rewrite <-El in Hp. destruct (chain_ok_tip s p Hck Hp) as (l & _ & -> & _). lia.
Qed.
Lemma stored_reachable_kept bs x : stored_reachable bs x → kept_at x ∧ supplied x.
Proof.
  induction 1 as [now v sk pk b g x Hb Hokb Hrun Hg Hokg|bs x bs' x' Hr [Hk Hs] Hst].
  - split; [by eapply genesis_kept|by eapply genesis_supplied].
  - apply stored_tipped in Hr. destruct Hst as [now tx r x' Hrun|now b x' Hok Hrun|now v sk b x' Hd Hok Hrun|v x' Hrun].
    + split; [by eapply stays_submit|by eapply supplied_submit].
    + split; [by eapply accept_kept|by eapply accept_supplied].
    + split; [by eapply produce_kept|by eapply produce_supplied].
    + split; [by eapply stays_activate|by eapply supplied_activate].
Qed.
End Reachable.

(** ** The rows of balances *)

Section Balances.
Lemma put_balances_run (f : string → Z) l : ∀ st st', mfor (λ a, Store.put_balance a (f a) true) l st = (Ok tt, st') →
  ∀ a, dget (t_balances (db st')) a = if decide (a ∈ l) then Some (f a) else dget (t_balances (db st)) a.
Proof.
  induction l as [|x l IH]; intros st st' Hrun a.
  { injection Hrun as <-. by rewrite decide_False by apply not_elem_of_nil. }
  cbn [mfor] in Hrun. apply bind_run in Hrun as ([] & st1 & H1 & H2). unfold Store.put_balance in H1. apply bind64_inv in H1. injection H1 as <-.
  rewrite (IH _ _ H2). cbn. rewrite replace_get. destruct (decide (a ∈ l)) as [Ha|Ha]; [by rewrite decide_True by (by right)|].
  destruct (decide (a = x)) as [->|Hne]; [by rewrite decide_True by (by left)|]. rewrite decide_False; [done|]. by intros [?|?]%elem_of_cons.
Qed.
(** After a block the rows of the addresses it touched hold their balances, and
    an account without a balance gets a row with zero in it, which a start
    reads back as a balance of zero. *)
Lemma drained_row_stays s b i m st st' a l : persist_balances_after_block s b i m st = (Ok tt, st') → a ∈ affected s b i m →
  dget (get_all_balances st') a = Some (get_balance s a) ∧
  (balances (ledger s) !! a = None → NoDup ((get_all_balances st').*1) → ∃ l', load_balances st' l = (Ok tt, l') ∧ balances l' !! a = Some 0).
Proof.
  intros ([] & st1 & H1 & H2)%bind_run Ha. apply bind_run in H2 as ([] & st2 & H2 & H3). unfold put_supply in H2, H3.
  apply bind64_inv in H2, H3. injection H2 as <-. injection H3 as <-.
  assert (dget (t_balances (db st1)) a = Some (get_balance s a)) as E.
  { rewrite (put_balances_run _ _ _ _ H1). by rewrite decide_True by (by apply elem_of_elements). }
  split; [exact E|]. intros Hn Hd. cbn in Hd. set (st3 := set Store.committed _ _). destruct (load_balances_run st3 l) as [f Ef].
  eexists. split; [exact Ef|]. cbn. apply rows_map_lookup; [exact Hd|]. left. apply dget_Some_elem.
  unfold get_balance, bal, get_or in E. by rewrite Hn in E.
Qed.
End Balances.

(** ** A restart *)

Section Start.
Context `{C : Crypto} `{Cfg : ChainConfig} `{F : PyFloat}.

(** What a start still needs: balance rows that are exact, epochs, receipts
    and registrations it can read, signatures that verify when they are asked
    for, and the root of the state in the tip *)
Record startable (bs : list Block) (x : SChain) (vs : gmap string string) (verify : bool) : Prop := mkStartable {
  sa_balances : NoDup ((get_all_balances (sql x)).*1) ∧ ∀ a n, ((a, n) ∈ get_all_balances (sql x)) ↔ balances (ledger (mem x)) !! a = Some n;
  sa_epochs : Forall (λ r : Z * (Z * string), ∃ l, read_epoch_validators r.2.2 = Ok l) (get_all_epochs (sql x));
  sa_receipts : ∀ i, 0 <= i <= height (mem x) → ∃ rs, get_receipts_for_block (sql x) i = Ok rs;
  sa_loadable : Forall (λ b, loadable b = true) bs;
  sa_signed : verify = true → signed_log vs bs;
  sa_tip : ∀ g, latest_block (mem x) = Some g → state_root g = EmptyString ∨ state_root g = get_state_root (mem x) }.

Lemma msum_nonneg `{Countable K} (m : gmap K Z) : map_Forall (λ _ n, 0 <= n) m → 0 <= msum m.
Proof.
  induction m as [|k n m Hk IH] using map_ind; [done|]. intros Hm. rewrite msum_insert_new by done.
  apply map_Forall_insert in Hm as [? Hm]; [|done]. specialize (IH Hm). lia.
Qed.
(** A balance is of a registered token: what is not minted has no holders. *)
Lemma registered_holder tk tid a n : tokens_ok tk → token_balances tk !! (tid, a) = Some n → is_Some (token_registry tk !! tid).
Proof.
  intros Hok Hn. destruct (token_registry tk !! tid) eqn:E; [by eexists|exfalso].
  pose proof (to_positive _ _ Hok) as Hp. pose proof (to_sum _ _ Hok tid) as Hs. unfold minted_of in Hs. rewrite E in Hs.
  assert (0 <= token_sum tid (delete (tid, a) (token_balances tk))) as H0.
  { unfold token_sum. apply msum_nonneg. intros k m [Hm _]%map_lookup_filter_Some. apply lookup_delete_Some in Hm as [_ Hm]. apply Hp in Hm. lia. }
  rewrite token_sum_delete, decide_True in H0 by done. unfold get_or in H0. rewrite Hn in H0. cbn in H0. apply Hp in Hn. lia.
Qed.

Lemma startable_restartable bs x vs verify : stored_reachable bs x → startable bs x vs verify → restartable bs x vs verify.
Proof.
  intros Hr [Hb He Hrec Hl Hs Htip]. destruct (stored_reachable_kept bs x Hr) as [[Hok [Nt Kt] [Nh Kh] [Ns Ks] Kv] Hsup].
  split; [|intros tid a n Hn|by split|done..].
  - split; [done|exact Hsup|..]; split; try done; intros; by rewrite NoDup_rows_elem, ?Kt, ?Kh by done.
  - pose proof (to_positive _ _ Hok _ _ Hn) as Hp. split; [done|]. destruct (token_registry (tokens (mem x)) !! tid) eqn:E; [by eexists|].
    apply (registered_holder _ _ _ _ Hok) in Hn as [t Ht]. congruence.
Qed.

(** The same by computation *)
Definition answers {A} (r : result A) : bool := match r with Ok _ => true | Raise _ => false end.
Lemma answers_ok {A} (r : result A) : answers r = true → ∃ a, r = Ok a.
Proof. destruct r as [a|]; [by exists a|done]. Qed.
Fixpoint check_signed_log (vals : gmap string string) (bs : list Block) : bool :=
  match bs with
  | [] => true
  | b :: rest => answers (check_loaded vals b) &&
      match learn_validators vals b with Ok vals' => check_signed_log vals' rest | Raise _ => false end
  end.
Lemma check_signed_log_ok bs : ∀ vals, check_signed_log vals bs = true → signed_log vals bs.
Proof.
  induction bs as [|b bs IH]; intros vals; cbn [check_signed_log signed_log]; [done|]. intros [([] & H1)%answers_ok H2]%andb_prop.
  split; [done|]. destruct (learn_validators vals b) as [vals'|]; [|done]. exists vals'. split; [done|by apply IH].
Qed.
Definition check_startable (bs : list Block) (x : SChain) (vs : gmap string string) : bool :=
  bool_decide (NoDup ((get_all_balances (sql x)).*1)) && bool_decide (list_to_map (get_all_balances (sql x)) = balances (ledger (mem x))) &&
  forallb (λ r, answers (read_epoch_validators r.2.2)) (get_all_epochs (sql x)) &&
  forallb (λ i, answers (get_receipts_for_block (sql x) i)) (zrange 0 (height (mem x) + 1)) &&
  forallb loadable bs && check_signed_log vs bs &&
  match latest_block (mem x) with
  | Some g => is_empty (state_root g) || bool_decide (state_root g = get_state_root (mem x))
  | None => true
  end.
Lemma check_startable_ok bs x vs : check_startable bs x vs = true → startable bs x vs true.
Proof.
  unfold check_startable. intros [[[[[[H1 H2]%andb_prop H3]%andb_prop H4]%andb_prop H5]%andb_prop H6]%andb_prop H7]%andb_prop.
  apply bool_decide_eq_true in H1, H2. split.
  - split; [done|]. intros a n. rewrite <-H2. by apply elem_of_list_to_map.
  - apply Forall_forall. intros r Hr. rewrite forallb_forall in H3. by apply answers_ok, H3.
  - intros i Hi. rewrite forallb_forall in H4. apply answers_ok, H4. apply list_elem_of_In. unfold zrange.
    apply list_elem_of_fmap. exists (Z.to_nat i). split; [lia|]. apply elem_of_seq. lia.
  - apply Forall_forall. by apply forallb_forall.
  - intros _. by apply check_signed_log_ok.
  - intros g Hg. rewrite Hg in H7. apply orb_prop in H7 as [H7|H7]; [left; by destruct (state_root g)|right; by apply bool_decide_eq_true in H7].
Qed.
End Start.

(** ** A run *)

Section Check.
Context `{C : Crypto} `{Cfg : ChainConfig} `{F : PyFloat}.

Definition check_log (bs : list Block) : bool :=
  bool_decide (Forall (λ b, storable b = true) bs ∧ NoDup (block_hash <$> bs) ∧ NoDup (log_ids bs) ∧
    total_staked (concat (transactions <$> bs)) < 2 ^ 63 ∧ Z.of_nat (length bs) < 2 ^ 63).
Definition genesis_run (now : Z) (v sk pk : string) : result unit * SChain := stored_init_chain now v sk pk (mkSChain empty_Chain new_store).
Definition tip_of (x : SChain) : Block := default (block_genesis 0 EmptyString []) (latest_block (mem x)).
Definition check_run (now : Z) (v sk pk : string) : bool :=
  match genesis_block now v sk pk empty_Chain, genesis_run now v sk pk with
  | Ok b, (Ok _, x) => bool_decide (is_Some (latest_block (mem x))) && check_log [b] && check_log [tip_of x] && check_startable [tip_of x] x ∅
  | _, _ => false
  end.
Lemma check_run_ok now v sk pk : check_run now v sk pk = true →
  let x := (genesis_run now v sk pk).2 in stored_reachable [tip_of x] x ∧ startable [tip_of x] x ∅ true.
Proof.
  unfold check_run. destruct (genesis_block now v sk pk empty_Chain) as [b|] eqn:Eb; [|done].
  destruct (genesis_run now v sk pk) as [[[]|] x] eqn:Er; [|done]. intros [[[[g Hg]%bool_decide_eq_true H1]%andb_prop H2]%andb_prop H3]%andb_prop.
  apply bool_decide_eq_true in H1, H2. apply check_startable_ok in H3. split; [|exact H3].
  unfold tip_of in *. cbn [snd]. rewrite Hg in *. by eapply (stored_genesis now v sk pk b).
Qed.
End Check.

Module StoredRun.
(** A hash of the first bytes, and signatures without a key *)
Fixpoint firsts (n : nat) (s : string) : string :=
  match n, s with S n', String c s' => String c (firsts n' s') | _, _ => EmptyString end.
Definition hash (s : string) : string := Toy.hash (firsts 300 s).
Definition crypto : Crypto :=
  {| sha3_256 := hash; oqs_sign := λ _ m, Some (hash m); oqs_verify := λ m s _, bool_decide (s = hash m) |}.
#[local] Existing Instance crypto.
#[local] Existing Instance legacy_config.
#[local] Existing Instance StoreRun.float.

(** A key of the length ML-DSA keys have *)
Definition key : string := Nat.iter 1952 (String "k") EmptyString.
Definition addr : string := derive_address key.
Definition node : SChain := (genesis_run 900 addr key key).2.

Lemma node_checked : check_run 900 addr key key = true.
Proof. vm_compute. reflexivity. Qed.
Lemma node_ok : stored_reachable [tip_of node] node ∧ startable [tip_of node] node ∅ true.
Proof. exact (check_run_ok 900 addr key key node_checked). Qed.
End StoredRun.

(** ** Properties *)




#[local] Existing Instance StoredRun.crypto.
#[local] Existing Instance legacy_config.
#[local] Existing Instance StoreRun.float.
