(* ===== verification/Notarization.v ===== *)
(** * Notarization proofs

    [core/proof.py]: the self-contained document exported for a notarized
    transaction and its offline verification.  Error texts keep the constant
    part of the message.  A [version] that is a float is outside the model. *)
From S2P Require Import Prelude PyStr Json Config Crypto Transaction Block.
Open Scope Z_scope.

Definition PROOF_VERSION : Z := 1.
Definition PROOF_TYPE : string := "qbit-notarization-proof".

Section Proof.
Context `{C : Crypto}.

Definition wire_tx_hash (v : JVal) : result string := x ← index_val v "id"; fromhex_val x.

Definition export_proof (block_dict : dict string JVal) (tx_index : Z)
    (tid document_hash notarizer validator_pubkey : string) : result (dict string JVal) :=
  txs_v ← jindex block_dict "transactions";
  txs ← as_list txs_v;
  hashes ← mmap wire_tx_hash txs;
  let proof_path := merkle_proof hashes tx_index in
  let proof_serialized :=
    (λ p : string * bool, JObj [("hash", JStr (hex p.1)); ("is_left", JBool p.2)]) <$> proof_path in
  tx_v ← py_index txs tx_index;
  tx_dict ← as_dict tx_v;
  idx ← jindex block_dict "index";
  ts ← jindex block_dict "timestamp";
  h ← jindex block_dict "hash";
  prev ← jindex block_dict "prevHash";
  mr ← jindex block_dict "merkleRoot";
  v ← jindex block_dict "validator";
  sig ← jindex block_dict "signature";
  Ok ([("version", JInt PROOF_VERSION); ("type", JStr PROOF_TYPE); ("chain_id", JStr CHAIN_ID);
       ("document_hash", JStr document_hash); ("tx_id", JStr tid);
       ("block", JObj
         [("index", idx); ("timestamp", ts); ("hash", h); ("prevHash", prev); ("merkleRoot", mr);
          ("baseFee", jget block_dict "baseFee" (JInt 0));
          ("stateRoot", jget block_dict "stateRoot" (JStr EmptyString));
          ("receiptsRoot", jget block_dict "receiptsRoot" (JStr EmptyString));
          ("validator", v); ("signature", sig); ("txCount", JInt (Z.of_nat (length txs)))]);
       ("merkle_proof", JList proof_serialized); ("notarizer", JStr notarizer);
       ("notarizer_pubkey", jget tx_dict "sender_pubkey" (JStr EmptyString))]
      ++ (if is_empty validator_pubkey then [] else [("validator_pubkey", JStr validator_pubkey)])).

(** [(bytes.fromhex(p["hash"]), p["is_left"])]; the flag is tested for truth. *)
Definition proof_tuple (v : JVal) : result (string * bool) :=
  hv ← index_val v "hash"; b ← fromhex_val hv; l ← index_val v "is_left"; Ok (b, truthy l).

(** [block.get(k)] copied into the header when it is truthy *)
Definition optional_root (k : string) (block : dict string JVal) : dict string JVal :=
  if truthy (jget block k JNull) then [(k, jget block k JNull)] else [].

Definition proof_header (block : dict string JVal) : result JVal :=
  idx ← jindex block "index";
  mr ← jindex block "merkleRoot";
  prev ← jindex block "prevHash";
  ts ← jindex block "timestamp";
  v ← jindex block "validator";
  Ok (JObj ([("baseFee", jget block "baseFee" (JInt 0)); ("index", idx); ("merkleRoot", mr);
             ("prevHash", prev); ("timestamp", ts); ("txCount", jget block "txCount" (JInt 0));
             ("validator", v)]
            ++ optional_root "receiptsRoot" block ++ optional_root "stateRoot" block)).

(** [x[:16]] in an error text: only strings and lists have slices. *)
Definition sliceable (v : JVal) : bool :=
  match v with JStr _ | JList _ => true | _ => false end.

Definition error_if (cond : bool) (msg : string) : list string := if cond then [msg] else [].

(** The signature step; its ValueError and TypeError are caught. *)
Definition signature_errors (pk_v sig_v : JVal) (header_text : string) : list string :=
  if truthy pk_v && truthy sig_v then
    match (vpk ← fromhex_val pk_v; sig ← fromhex_val sig_v; Ok (MLDSA_verify vpk header_text sig)) with
    | Ok ok => error_if (negb ok) "block signature invalid: ML-DSA verification failed"
    | Raise _ => ["block signature verification error"]
    end
  else [].

Definition verify_notarization (proof : dict string JVal) : result (bool * list string) :=
  if negb (bool_decide (jget proof "type" JNull = JStr PROOF_TYPE))
  then Ok (false, ["not a valid QBit notarization proof"])
  else
    version ← as_Z (jget proof "version" (JInt 0));
    if version <? 1 then Ok (false, ["unsupported proof version"])
    else
      let chain_v := jget proof "chain_id" JNull in
      let e0 := error_if (negb (is_none chain_v) && negb (bool_decide (chain_v = JStr CHAIN_ID)))
                  "chain_id mismatch" in
      path ← iter_val (jget proof "merkle_proof" (JList []));
      tuples ← mmap proof_tuple path;
      block ← as_dict (jget proof "block" (JObj []));
      let root_v := jget block "merkleRoot" (JStr EmptyString) in
      leaf ← fromhex_val (jget proof "tx_id" (JStr EmptyString));
      root ← fromhex_val root_v;
      let e1 := error_if (negb (verify_merkle_proof leaf tuples root))
                  "Merkle proof invalid - transaction not in block" in
      header ← proof_header block;
      let header_text := dumps header in
      let claimed := jget block "hash" (JStr EmptyString) in
      let differs := negb (bool_decide (JStr (hex (sha3_256 header_text)) = claimed)) in
      if differs && negb (sliceable claimed) then Raise TypeError
      else
        let e2 := error_if differs "block hash mismatch" in
        let e3 := signature_errors (jget proof "validator_pubkey" (JStr EmptyString))
                    (jget block "signature" (JStr EmptyString)) header_text in
        let errors := e0 ++ e1 ++ e2 ++ e3 in
        Ok (bool_decide (errors = []), errors).
End Proof.

(** ** Lemmas *)

Lemma error_if_nil c m : error_if c m = [] ↔ c = false.
Proof. by destruct c. Qed.

Section Lemmas.
Context `{C : Crypto}.

Lemma wire_hashes b : mmap wire_tx_hash ((λ tx, JObj (tx_to_dict tx)) <$> transactions b)
  = Ok (tx_hashes b).
Proof. apply mmap_fmap. intros tx. unfold wire_tx_hash. cbn [index_val]. apply fromhex_val_hex. Qed.

Lemma proof_tuples_ok (path : list (string * bool)) :
  mmap proof_tuple ((λ p : string * bool, JObj [("hash", JStr (hex p.1)); ("is_left", JBool p.2)]) <$> path)
  = Ok path.
Proof.
  rewrite (mmap_fmap _ _ id), list_fmap_id; [done|]. intros [h l]. unfold proof_tuple.
  cbn [index_val]. change (jindex _ "hash") with (@Ok JVal (JStr (hex h))).
  change (jindex _ "is_left") with (@Ok JVal (JBool l)). cbn [mbind result_bind].
  by rewrite fromhex_val_hex.
Qed.

(** What the exported document says, field by field *)
Definition exported (b : Block) (n : nat) (tx : Transaction) (dh nz pk : string) : dict string JVal :=
  [("version", JInt PROOF_VERSION); ("type", JStr PROOF_TYPE); ("chain_id", JStr CHAIN_ID);
   ("document_hash", JStr dh); ("tx_id", JStr (tx_id tx));
   ("block", JObj
     [("index", JInt (index b)); ("timestamp", JInt (blk_timestamp b)); ("hash", JStr (block_hash b));
      ("prevHash", JStr (prev_hash b)); ("merkleRoot", JStr (blk_merkle_root b));
      ("baseFee", JInt (base_fee b)); ("stateRoot", JStr (state_root b));
      ("receiptsRoot", JStr (receipts_root b)); ("validator", JStr (validator b));
      ("signature", JStr (hex (blk_signature b)));
      ("txCount", JInt (Z.of_nat (length (transactions b))))]);
   ("merkle_proof", JList ((λ p : string * bool, JObj [("hash", JStr (hex p.1)); ("is_left", JBool p.2)])
      <$> merkle_proof (tx_hashes b) (Z.of_nat n)));
   ("notarizer", JStr nz); ("notarizer_pubkey", JStr (hex (sender_pubkey tx)))]
  ++ (if is_empty pk then [] else [("validator_pubkey", JStr pk)]).

Lemma export_run b n tx dh nz pk : transactions b !! n = Some tx →
  export_proof (block_to_dict b) (Z.of_nat n) (tx_id tx) dh nz pk = Ok (exported b n tx dh nz pk).
Proof.
  intros Hn. unfold export_proof. set (d := block_to_dict b).
  replace (jindex d "transactions")
    with (@Ok JVal (JList ((λ tx, JObj (tx_to_dict tx)) <$> transactions b))) by reflexivity.
  cbn [mbind result_bind as_list]. rewrite wire_hashes. cbn [mbind result_bind].
  rewrite (py_index_nat _ n (JObj (tx_to_dict tx))) by by rewrite list_lookup_fmap, Hn.
  cbn [mbind result_bind as_dict]. rewrite length_fmap. reflexivity.
Qed.

Lemma proof_header_exported b blk :
  blk = [("index", JInt (index b)); ("timestamp", JInt (blk_timestamp b)); ("hash", JStr (block_hash b));
      ("prevHash", JStr (prev_hash b)); ("merkleRoot", JStr (blk_merkle_root b));
      ("baseFee", JInt (base_fee b)); ("stateRoot", JStr (state_root b));
      ("receiptsRoot", JStr (receipts_root b)); ("validator", JStr (validator b));
      ("signature", JStr (hex (blk_signature b)));
      ("txCount", JInt (Z.of_nat (length (transactions b))))] →
  proof_header blk = Ok (header_obj b).
Proof.
  intros ->. unfold proof_header, header_obj.
  generalize (blk_merkle_root b) (block_hash b) (hex (blk_signature b)) (JInt (Z.of_nat (length (transactions b)))).
  intros mr h sg n. destruct (receipts_root b), (state_root b); reflexivity.
Qed.
End Lemmas.

Section Checks.
Context `{C : Crypto}.

(** The four steps after the type and the version *)
Lemma verify_run p ver block path leaf root header :
  jget p "type" JNull = JStr PROOF_TYPE → as_Z (jget p "version" (JInt 0)) = Ok ver → 1 <= ver →
  (l ← iter_val (jget p "merkle_proof" (JList [])); mmap proof_tuple l) = Ok path →
  jget p "block" (JObj []) = JObj block → fromhex_val (jget p "tx_id" (JStr EmptyString)) = Ok leaf →
  fromhex_val (jget block "merkleRoot" (JStr EmptyString)) = Ok root → proof_header block = Ok header →
  sliceable (jget block "hash" (JStr EmptyString)) = true →
  let chain_v := jget p "chain_id" JNull in
  let errors :=
    error_if (negb (is_none chain_v) && negb (bool_decide (chain_v = JStr CHAIN_ID))) "chain_id mismatch" ++
    error_if (negb (verify_merkle_proof leaf path root)) "Merkle proof invalid - transaction not in block" ++
    error_if (negb (bool_decide (JStr (hex (sha3_256 (dumps header))) = jget block "hash" (JStr EmptyString))))
      "block hash mismatch" ++
    signature_errors (jget p "validator_pubkey" (JStr EmptyString)) (jget block "signature" (JStr EmptyString))
      (dumps header) in
  verify_notarization p = Ok (bool_decide (errors = []), errors).
Proof.
  intros Ht Hv Hver Hpath Hb Hl Hr Hh Hs. unfold verify_notarization.
  rewrite Ht, Hv, Hb, Hl. cbn [mbind result_bind as_dict]. rewrite bool_decide_eq_true_2 by done. cbn [negb].
  destruct (Z.ltb_spec ver 1); [lia|].
  destruct (iter_val _) as [l|e]; [|done]. cbn [mbind result_bind] in Hpath |- *. rewrite Hpath.
  cbn [mbind result_bind]. rewrite Hr, Hh. cbn [mbind result_bind]. rewrite Hs, andb_false_r. done.
Qed.

(** Acceptance: the run got to its end and no step complained. *)
Lemma verify_accept p : verify_notarization p = Ok (true, []) →
  ∃ block path leaf root header,
    (l ← iter_val (jget p "merkle_proof" (JList [])); mmap proof_tuple l) = Ok path ∧
    jget p "block" (JObj []) = JObj block ∧ fromhex_val (jget p "tx_id" (JStr EmptyString)) = Ok leaf ∧
    fromhex_val (jget block "merkleRoot" (JStr EmptyString)) = Ok root ∧ proof_header block = Ok header ∧
    verify_merkle_proof leaf path root = true ∧
    jget block "hash" (JStr EmptyString) = JStr (hex (sha3_256 (dumps header))).
Proof.
  unfold verify_notarization. case_bool_decide; [|done]. cbn [negb].
  destruct (as_Z _) as [ver|]; [|done]. cbn [mbind result_bind]. destruct (ver <? 1); [done|].
  destruct (iter_val _) as [l|]; [|done]. cbn [mbind result_bind].
  destruct (mmap proof_tuple l) as [path|] eqn:Ep; [|done]. cbn [mbind result_bind].
  destruct (jget p "block" _) as [| | | | | |block]; try done. cbn [as_dict mbind result_bind].
  destruct (fromhex_val (jget p "tx_id" _)) as [leaf|]; [|done]. cbn [mbind result_bind].
  destruct (fromhex_val (jget block "merkleRoot" _)) as [root|] eqn:Er; [|done]. cbn [mbind result_bind].
  destruct (proof_header block) as [header|] eqn:Eh; [|done]. cbn [mbind result_bind].
  destruct (_ && negb (sliceable _)); [done|]. intros [= Hok Hnil].
  apply app_nil in Hnil as [_ Hnil]. apply app_nil in Hnil as [H1 Hnil]. apply app_nil in Hnil as [H2 _].
  apply error_if_nil, negb_false_iff in H1, H2. apply bool_decide_eq_true in H2.
  by exists block, path, leaf, root, header.
Qed.

Lemma jget_wf d k v : wf v = true → wf (JObj d) = true → wf (jget d k v) = true.
Proof.
  intros Hv Hd. unfold jget, dget_or. destruct (dget d k) as [x|] eqn:E; [|done].
  apply dget_Some_elem in E. cbn in Hd. apply andb_true_iff in Hd as [_ Hd]. apply forallb_True_iff in Hd.
  exact (Forall_in _ _ _ Hd E).
Qed.

Lemma jindex_wf d k v : jindex d k = Ok v → wf (JObj d) = true → wf v = true.
Proof.
  unfold jindex. destruct (dget d k) as [x|] eqn:E; [|done]. intros [= <-] Hd.
  pose proof (jget_wf d k JNull eq_refl Hd) as Hx. unfold jget, dget_or in Hx. by rewrite E in Hx.
Qed.

(** The header a verifier rebuilds, in key order *)
Lemma proof_header_norm block header : proof_header block = Ok header →
  ∃ idx mr prev ts v rr sr,
    jindex block "merkleRoot" = Ok mr ∧
    norm header = JObj (sorted_header (norm (jget block "baseFee" (JInt 0))) idx (norm mr) prev ts
      (norm (jget block "txCount" (JInt 0))) v rr sr).
Proof.
  unfold proof_header. destruct (jindex block "index") as [idx|]; [|done]. cbn [mbind result_bind].
  destruct (jindex block "merkleRoot") as [mr|]; [|done]. cbn [mbind result_bind].
  destruct (jindex block "prevHash") as [prev|]; [|done]. cbn [mbind result_bind].
  destruct (jindex block "timestamp") as [ts|]; [|done]. cbn [mbind result_bind].
  destruct (jindex block "validator") as [v|]; [|done]. cbn [mbind result_bind]. intros [= <-].
  exists (norm idx), mr, (norm prev), (norm ts), (norm v),
    ((λ kv, (kv.1, norm kv.2)) <$> optional_root "receiptsRoot" block),
    ((λ kv, (kv.1, norm kv.2)) <$> optional_root "stateRoot" block).
  split; [done|]. rewrite norm_obj. unfold optional_root.
  generalize (jget block "baseFee" (JInt 0)) (jget block "txCount" (JInt 0)). intros bf n.
  destruct (truthy (jget block "receiptsRoot" JNull)), (truthy (jget block "stateRoot" JNull));
    generalize (jget block "receiptsRoot" JNull) (jget block "stateRoot" JNull); intros; 
    cbn [List.map app fst snd]; 
    generalize (norm bf) (norm idx) (norm mr) (norm prev) (norm ts) (norm n) (norm v); intros; reflexivity.
Qed.

Lemma proof_header_wf block header :
  wf (JObj block) = true → proof_header block = Ok header → wf header = true.
Proof.
  intros Hw. unfold proof_header, optional_root.
  destruct (jindex block "index") as [idx|] eqn:E1; [|done]. cbn [mbind result_bind].
  destruct (jindex block "merkleRoot") as [mr|] eqn:E2; [|done]. cbn [mbind result_bind].
  destruct (jindex block "prevHash") as [prev|] eqn:E3; [|done]. cbn [mbind result_bind].
  destruct (jindex block "timestamp") as [ts|] eqn:E4; [|done]. cbn [mbind result_bind].
  destruct (jindex block "validator") as [v|] eqn:E5; [|done]. cbn [mbind result_bind]. intros [= <-].
  apply (λ H, jindex_wf _ _ _ H Hw) in E1, E2, E3, E4, E5.
  assert (Hg : ∀ k x, wf x = true → wf (jget block k x) = true) by (intros; by apply jget_wf).
  destruct (truthy (jget block "receiptsRoot" JNull)), (truthy (jget block "stateRoot" JNull));
    cbn [app wf forallb fst snd]; rewrite !Hg, E1, E2, E3, E4, E5 by done; reflexivity.
Qed.

(** A rebuilt header with the text of a real block's names its Merkle root. *)
Lemma proof_header_commits b block header :
  wf (JObj block) = true → proof_header block = Ok header → dumps header = header_bytes b →
  jindex block "merkleRoot" = Ok (JStr (blk_merkle_root b)).
Proof.
  intros Hw Hh Ht. apply dumps_inj in Ht; [|by eapply proof_header_wf|apply header_wf].
  apply proof_header_norm in Hh as (idx & mr & prev & ts & v & rr & sr & -> & Hn).
  rewrite Hn, header_sorted in Ht. injection Ht as _ _ Hm _ _.
  destruct mr as [| | | | | |]; try done. by injection Hm as ->.
Qed.
End Checks.

(** ** Properties *)

(** A proof exported from any block of the chain, for the transaction at any
    position, passes the offline verifier; with a validator key, exactly when
    the block's signature is one of that key (a block without a signature is
    not checked). *)
Lemma exported_proof_verifies `{C : Crypto} (b : Block) (n : nat) (tx : Transaction)
  (dh nz pk : string) (Hn : transactions b !! n = Some tx) :
  ∃ p, export_proof (block_to_dict b) (Z.of_nat n) (tx_id tx) dh nz (hex pk) = Ok p ∧
    let signed := is_empty pk || is_empty (blk_signature b) || verify_signature b pk in
    verify_notarization p =
      Ok (signed, error_if (negb signed) "block signature invalid: ML-DSA verification failed").
Proof.
  exists (exported b n tx dh nz (hex pk)). split; [by apply export_run|].
  erewrite (verify_run _ 1 _ (merkle_proof (tx_hashes b) (Z.of_nat n)) (sha3_256 (signable_bytes tx))
    (merkle_root (tx_hashes b)) (header_obj b));
    [|reflexivity|reflexivity|lia|exact (proof_tuples_ok _)|reflexivity| | | |reflexivity].
  2: exact (fromhex_val_hex _).
  2: exact (fromhex_val_hex _).
  2: by apply proof_header_exported.
  change (jget (exported b n tx dh nz (hex pk)) "chain_id" JNull) with (JStr CHAIN_ID).
  rewrite merkle_proof_complete by (unfold tx_hashes; by rewrite list_lookup_fmap, Hn).
  change (jget _ "hash" (JStr EmptyString)) with (JStr (block_hash b)).
  change (jget _ "signature" (JStr EmptyString)) with (JStr (hex (blk_signature b))).
  change (hex (sha3_256 (dumps (header_obj b)))) with (block_hash b).
  rewrite (bool_decide_eq_true_2 (JStr CHAIN_ID = _)), (bool_decide_eq_true_2 (JStr (block_hash b) = _)) by done.
  cbn [negb andb is_none error_if app].
  assert (signature_errors (jget (exported b n tx dh nz (hex pk)) "validator_pubkey" (JStr EmptyString))
            (JStr (hex (blk_signature b))) (dumps (header_obj b))
          = error_if (negb (is_empty pk || is_empty (blk_signature b) || verify_signature b pk))
              "block signature invalid: ML-DSA verification failed") as ->.
  { destruct pk as [|c pk]; [done|]. unfold signature_errors.
    change (jget _ "validator_pubkey" _) with (JStr (hex (String c pk))).
    destruct (blk_signature b) as [|d sg] eqn:Esg; [done|]. cbn [hex truthy is_empty negb andb orb].
    change (String (hex_digit (ord c / 16)) _) with (hex (String c pk)).
    change (String (hex_digit (ord d / 16)) _) with (hex (String d sg)).
    rewrite !fromhex_val_hex. cbn [mbind result_bind]. unfold verify_signature. by rewrite Esg. }
  by destruct (is_empty pk || is_empty (blk_signature b) || verify_signature b pk).
Qed.



(** The verifier never looks at what the document claims to prove: whatever
    document hash and notarizer are written into a proof, the verdict and the
    errors are the same, so a proof of one notarization verifies as a proof of
    any document by anybody. *)
Lemma proof_not_bound_to_document `{C : Crypto} (p : dict string JVal) (dh nz : JVal) :
  verify_notarization (dset (dset p "document_hash" dh) "notarizer" nz) = verify_notarization p.
Proof.
  unfold verify_notarization.
  assert (H : ∀ k x, k ≠ "document_hash" → k ≠ "notarizer" →
    jget (dset (dset p "document_hash" dh) "notarizer" nz) k x = jget p k x).
  { intros k x Hk1 Hk2. unfold jget, dget_or. by rewrite !dget_dset_ne by done. }
  by rewrite !H by done.
Qed.
