(* ===== verification/Sdk.v ===== *)
(** * The client SDK

    [sdk/qbit_sdk/signer.py]: the fluent builder of transactions, the key pair
    that signs them offline and the dictionary posted to a node;
    [sdk/qbit_sdk/models.py]: the records a client reads back from the REST
    API.  A builder is passed on by value; its payload dictionary is
    replaced, never changed, by the methods.  Error texts keep the constant part. *)
From S2P Require Import Prelude PyStr Json Config Crypto Wallet Transaction Block Receipt.
Open Scope Z_scope.

Definition MLDSA_SK_SIZE : Z := 4032.
Definition MLDSA_PK_SIZE : Z := 1952.

Record UnsignedTransaction := mkUnsigned {
  u_type : string; u_sender : string; u_recipient : string; u_timestamp : Z; u_nonce : Z;
  u_chain_id : string; u_max_fee_per_weight : Z; u_max_priority_fee : Z;
  u_payload : dict string JVal;
}.
Record SignedTransaction := mkSigned {
  s_unsigned : UnsignedTransaction; s_signature : string; s_sender_pubkey : string;
}.

(** [signable_bytes] of both records *)
Definition sdk_signable (u : UnsignedTransaction) : string :=
  dumps (JObj [("chainId", JStr (u_chain_id u)); ("from", JStr (u_sender u));
               ("maxFeePerWeight", JInt (u_max_fee_per_weight u));
               ("maxPriorityFee", JInt (u_max_priority_fee u)); ("nonce", JInt (u_nonce u));
               ("payload", JObj (u_payload u)); ("timestamp", JInt (u_timestamp u));
               ("to", JStr (u_recipient u)); ("type", JStr (u_type u))]).

Definition signed_to_dict (s : SignedTransaction) : dict string JVal :=
  let u := s_unsigned s in
  [("type", JStr (u_type u)); ("from", JStr (u_sender u)); ("to", JStr (u_recipient u));
   ("timestamp", JInt (u_timestamp u)); ("nonce", JInt (u_nonce u));
   ("chainId", JStr (u_chain_id u)); ("maxFeePerWeight", JInt (u_max_fee_per_weight u));
   ("maxPriorityFee", JInt (u_max_priority_fee u)); ("payload", JObj (u_payload u));
   ("signature", JStr (hex (s_signature s))); ("sender_pubkey", JStr (hex (s_sender_pubkey s)))].

Record KeyPair := mkKeyPair { kp_sk : string; kp_pk : string; kp_address : string }.

Section Signer.
Context `{C : Crypto}.

Definition sdk_derive_address (pk : string) : string := "qv1" +:+ hex (sha3_256 pk).
Definition sdk_tx_id (u : UnsignedTransaction) : string := hex (sha3_256 (sdk_signable u)).

(** [KeyPair.__init__] and [KeyPair.from_secret_key] *)
Definition new_keypair (sk pk : string) : result KeyPair :=
  guard (negb (str_len pk =? MLDSA_PK_SIZE)) "public key must be 1952 bytes" (
  guard (negb (str_len sk =? MLDSA_SK_SIZE)) "secret key must be 4032 bytes" (
  Ok (mkKeyPair sk pk (sdk_derive_address pk)))).
Definition from_secret_key (sk pk : string) : result KeyPair :=
  guard (negb (str_len sk =? MLDSA_SK_SIZE)) "secret key must be 4032 bytes" (
  guard (negb (str_len pk =? MLDSA_PK_SIZE)) "public key must be 1952 bytes" (
  new_keypair sk pk)).

(** [KeyPair.sign_tx]; liboqs raises when it cannot sign. *)
Definition sign_tx (kp : KeyPair) (u : UnsignedTransaction) : result SignedTransaction :=
  guard (negb (bool_decide (u_sender u = kp_address kp))) "transaction sender does not match keypair address" (
  match oqs_sign (kp_sk kp) (sdk_signable u) with
  | None => Raise RuntimeError
  | Some sig => Ok (mkSigned u sig (kp_pk kp))
  end).

(** [SignedTransaction.verify] *)
Definition signed_verify (s : SignedTransaction) : bool :=
  bool_decide (sdk_derive_address (s_sender_pubkey s) = u_sender (s_unsigned s)) &&
  oqs_verify (sdk_signable (s_unsigned s)) (s_signature s) (s_sender_pubkey s).
End Signer.

(** ** The builder *)

Record TransactionBuilder := mkBuilder {
  b_chain_id : string; b_type : option string; b_sender : string; b_recipient : string;
  b_nonce : option Z; b_timestamp : option Z; b_max_fee_per_weight : Z; b_max_priority_fee : Z;
  b_payload : dict string JVal;
}.
Definition new_builder (chain_id : string) : TransactionBuilder :=
  mkBuilder chain_id None EmptyString EmptyString None None 0 0 [].

(** [if x: payload[k] = x] *)
Definition with_text (k s : string) (p : dict string JVal) : dict string JVal :=
  if is_empty s then p else p ++ [(k, JStr s)].
Definition with_int (k : string) (z : Z) (p : dict string JVal) : dict string JVal :=
  if z =? 0 then p else p ++ [(k, JInt z)].

(** The methods of the builder.  [fill] sets the type and the payload and
    leaves the recipient as it is; [fill_to] sets the recipient too. *)
Definition fill (t : string) (p : dict string JVal) (b : TransactionBuilder) : TransactionBuilder :=
  mkBuilder (b_chain_id b) (Some t) (b_sender b) (b_recipient b) (b_nonce b) (b_timestamp b)
            (b_max_fee_per_weight b) (b_max_priority_fee b) p.
Definition fill_to (t rcp : string) (p : dict string JVal) (b : TransactionBuilder) : TransactionBuilder :=
  mkBuilder (b_chain_id b) (Some t) (b_sender b) rcp (b_nonce b) (b_timestamp b)
            (b_max_fee_per_weight b) (b_max_priority_fee b) p.

Inductive call :=
  | Transfer (rcp : string) (amount : Z) (memo : string)
  | Notarize (document_hash metadata : string)
  | Store (document_hash cid metadata : string)
  | Share (rcp cid encapsulated_key : string) (expires : Z)
  | Stake (validator : string) (amount : Z)
  | Delegate (validator : string) (amount : Z)
  | Unstake (validator : string) (amount : Z)
  | RegisterKey (encryption_pk : string)
  | RegisterValidator (validator_pubkey validator_address : string) (commission : Z)
  | RevokeKey (key_type reason : string)
  | IssueToken (name symbol : string) (decimals max_supply : Z) (transferable : bool)
  | MintToken (rcp token_id : string) (amount : Z)
  | TransferToken (rcp token_id : string) (amount : Z) (memo : string)
  | SetSender (address : string)
  | SetNonce (n : Z)
  | SetFee (max_fee_per_weight max_priority_fee : Z)
  | SetTimestamp (ts : Z).

Definition run_call (c : call) (b : TransactionBuilder) : TransactionBuilder :=
  match c with
  | Transfer rcp amount memo => fill_to "TRANSFER" rcp (with_text "memo" memo [("amount", JInt amount)]) b
  | Notarize dh meta => fill "NOTARIZE" (with_text "metadata" meta [("documentHash", JStr dh)]) b
  | Store dh cid meta =>
      fill "STORE" (with_text "metadata" meta [("documentHash", JStr dh); ("cid", JStr cid)]) b
  | Share rcp cid ek expires =>
      fill_to "SHARE" rcp (with_int "expires" expires [("cid", JStr cid); ("encapsulatedKey", JStr ek)]) b
  | Stake v amount => fill "STAKE" [("amount", JInt amount); ("validator_address", JStr v)] b
  | Delegate v amount => fill "DELEGATE" [("amount", JInt amount); ("validator_address", JStr v)] b
  | Unstake v amount => fill "UNSTAKE" [("amount", JInt amount); ("validator_address", JStr v)] b
  | RegisterKey epk => fill "REGISTER_KEY" [("encryption_pk", JStr epk)] b
  | RegisterValidator vpk va commission =>
      fill "REGISTER_VALIDATOR" [("validator_pubkey", JStr vpk); ("validator_address", JStr va);
                                 ("commission", JInt commission)] b
  | RevokeKey kt reason => fill "REVOKE_KEY" [("key_type", JStr kt); ("reason", JStr reason)] b
  | IssueToken name symbol decimals ms tr =>
      fill "ISSUE_TOKEN" [("name", JStr name); ("symbol", JStr symbol); ("decimals", JInt decimals);
                          ("max_supply", JInt ms); ("transferable", JBool tr)] b
  | MintToken rcp tid amount => fill_to "MINT_TOKEN" rcp [("token_id", JStr tid); ("amount", JInt amount)] b
  | TransferToken rcp tid amount memo =>
      fill_to "TRANSFER_TOKEN" rcp (with_text "memo" memo [("token_id", JStr tid); ("amount", JInt amount)]) b
  | SetSender a =>
      mkBuilder (b_chain_id b) (b_type b) a (b_recipient b) (b_nonce b) (b_timestamp b)
                (b_max_fee_per_weight b) (b_max_priority_fee b) (b_payload b)
  | SetNonce n =>
      mkBuilder (b_chain_id b) (b_type b) (b_sender b) (b_recipient b) (Some n) (b_timestamp b)
                (b_max_fee_per_weight b) (b_max_priority_fee b) (b_payload b)
  | SetFee mf mp =>
      mkBuilder (b_chain_id b) (b_type b) (b_sender b) (b_recipient b) (b_nonce b) (b_timestamp b)
                mf mp (b_payload b)
  | SetTimestamp ts =>
      mkBuilder (b_chain_id b) (b_type b) (b_sender b) (b_recipient b) (b_nonce b) (Some ts)
                (b_max_fee_per_weight b) (b_max_priority_fee b) (b_payload b)
  end.
(** [TransactionBuilder(chain_id).m1(...).m2(...)...] *)
Definition run_calls (chain_id : string) (cs : list call) : TransactionBuilder :=
  foldl (λ b c, run_call c b) (new_builder chain_id) cs.

Definition sdk_address_ok (a : string) : bool := String.prefix "qv1" a && (str_len a =? 67).
Definition recipient_required : list string := ["TRANSFER"; "SHARE"; "MINT_TOKEN"; "TRANSFER_TOKEN"].

(** [build]; [now] is [int(time.time())]. *)
Definition build (now : Z) (b : TransactionBuilder) : result UnsignedTransaction :=
  match b_type b with
  | None => Raise (ValueError "transaction type not set")
  | Some t =>
      guard (is_empty (b_sender b)) "sender address not set" (
      guard (negb (sdk_address_ok (b_sender b))) "invalid sender address format" (
      match b_nonce b with
      | None => Raise (ValueError "nonce not set")
      | Some n =>
          guard (n <? 0) "nonce must be non-negative" (
          guard (bool_decide (t ∈ recipient_required) && is_empty (b_recipient b)) "requires a recipient" (
          guard (negb (is_empty (b_recipient b)) && negb (sdk_address_ok (b_recipient b)))
            "invalid recipient address format" (
          guard ((b_max_fee_per_weight b <? 0) || (b_max_priority_fee b <? 0))
            "fee parameters must be non-negative" (
          Ok (mkUnsigned t (b_sender b) (b_recipient b) (default now (b_timestamp b)) n (b_chain_id b)
                (b_max_fee_per_weight b) (b_max_priority_fee b) (b_payload b))))))
      end))
  end.

(** ** The records read back from the REST API *)

Record SdkTransaction := mkSdkTx {
  st_tx_id : JVal; st_tx_type : JVal; st_sender : JVal; st_recipient : JVal; st_nonce : JVal;
  st_timestamp : JVal; st_payload : JVal; st_signature : JVal; st_public_key : JVal;
  st_max_fee_per_weight : JVal; st_max_priority_fee : JVal; st_block_index : JVal;
}.
Record SdkBlock := mkSdkBlock {
  sb_index : JVal; sb_timestamp : JVal; sb_previous_hash : JVal; sb_merkle_root : JVal;
  sb_state_root : JVal; sb_receipts_root : JVal; sb_base_fee : JVal; sb_validator : JVal;
  sb_signature : JVal; sb_block_hash : JVal; sb_transactions : list SdkTransaction;
}.
Record SdkEvent := mkSdkEvent { se_type : JVal; se_data : JVal }.
Record SdkReceipt := mkSdkReceipt {
  sr_tx_id : JVal; sr_status : JVal; sr_fee_paid : JVal; sr_block_index : JVal; sr_tx_index : JVal;
  sr_events : list SdkEvent;
}.

Definition sdk_tx_from_dict (v : JVal) : result SdkTransaction :=
  d ← as_dict v;
  Ok (mkSdkTx (jget d "tx_id" (JStr EmptyString)) (jget d "tx_type" (JStr EmptyString))
        (jget d "sender" (JStr EmptyString)) (jget d "recipient" (JStr EmptyString))
        (jget d "nonce" (JInt 0)) (jget d "timestamp" (JFloat "0.0")) (jget d "payload" (JObj []))
        (jget d "signature" (JStr EmptyString)) (jget d "public_key" (JStr EmptyString))
        (jget d "max_fee_per_weight" (JInt 0)) (jget d "max_priority_fee" (JInt 0))
        (jget d "block_index" JNull)).
Definition sdk_block_from_dict (d : dict string JVal) : result SdkBlock :=
  l ← iter_val (jget d "transactions" (JList []));
  txs ← mmap sdk_tx_from_dict l;
  Ok (mkSdkBlock (jget d "index" (JInt 0)) (jget d "timestamp" (JFloat "0.0"))
        (jget d "previous_hash" (JStr EmptyString)) (jget d "merkle_root" (JStr EmptyString))
        (jget d "state_root" (JStr EmptyString)) (jget d "receipts_root" (JStr EmptyString))
        (jget d "base_fee" (JInt 0)) (jget d "validator" (JStr EmptyString))
        (jget d "signature" (JStr EmptyString)) (jget d "block_hash" (JStr EmptyString)) txs).
Definition sdk_event_from_dict (v : JVal) : result SdkEvent :=
  d ← as_dict v; Ok (mkSdkEvent (jget d "type" (JStr EmptyString)) (jget d "data" (JObj []))).
Definition sdk_receipt_from_dict (d : dict string JVal) : result SdkReceipt :=
  l ← iter_val (jget d "events" (JList []));
  es ← mmap sdk_event_from_dict l;
  Ok (mkSdkReceipt (jget d "tx_id" (JStr EmptyString)) (jget d "status" (JStr EmptyString))
        (jget d "fee_paid" (JInt 0)) (jget d "block_index" (JInt 0)) (jget d "tx_index" (JInt 0)) es).

(** ** Lemmas *)

(** The node's transaction with the fields of a signed one *)
Definition node_tx (t : TxType) (s : SignedTransaction) : Transaction :=
  let u := s_unsigned s in
  mkTx t (u_sender u) (u_recipient u) (u_timestamp u) (u_payload u) (s_signature s) (s_sender_pubkey s)
       (u_nonce u) (u_chain_id u) (u_max_fee_per_weight u) (u_max_priority_fee u).

Lemma run_call_type c b t :
  b_type (run_call c b) = Some t → b_type b = Some t ∨ ∃ tt, t = tt_value tt.
Proof.
  destruct c; cbn; try (intros H; by left); intros [= <-]; right.
  - by exists TRANSFER. - by exists NOTARIZE. - by exists STORE. - by exists SHARE. - by exists STAKE.
  - by exists DELEGATE. - by exists UNSTAKE. - by exists REGISTER_KEY. - by exists REGISTER_VALIDATOR.
  - by exists REVOKE_KEY. - by exists ISSUE_TOKEN. - by exists MINT_TOKEN. - by exists TRANSFER_TOKEN.
Qed.

Lemma run_calls_type cid cs t : b_type (run_calls cid cs) = Some t → ∃ tt, t = tt_value tt.
Proof.
  unfold run_calls. induction cs as [|c cs IH] using rev_ind; [done|].
  rewrite foldl_app. cbn. intros [H|H]%run_call_type; [by apply IH|done].
Qed.

Lemma build_inv now b u : build now b = Ok u →
  b_type b = Some (u_type u) ∧ sdk_address_ok (u_sender u) = true ∧ 0 <= u_nonce u ∧
  0 <= u_max_fee_per_weight u ∧ 0 <= u_max_priority_fee u ∧
  (u_type u ∈ recipient_required → sdk_address_ok (u_recipient u) = true) ∧
  u_payload u = b_payload b ∧ u_recipient u = b_recipient b ∧ u_chain_id u = b_chain_id b.
Proof.
  unfold build. destruct (b_type b) as [t|]; [|done]. unfold guard.
  destruct (is_empty (b_sender b)); [done|]. destruct (sdk_address_ok (b_sender b)) eqn:Es; [|done].
  cbn [negb]. destruct (b_nonce b) as [n|]; [|done]. destruct (Z.ltb_spec n 0); [done|].
  destruct (bool_decide (t ∈ recipient_required)) eqn:Et, (is_empty (b_recipient b)) eqn:Er; try done; cbn [andb negb].
  all: destruct (sdk_address_ok (b_recipient b)) eqn:Ea; cbn [negb]; try done.
  all: destruct (Z.ltb_spec (b_max_fee_per_weight b) 0), (Z.ltb_spec (b_max_priority_fee b) 0); try done.
  all: cbn [orb]; intros [= <-]; cbn; split_and!; try done.
  all: intros Hin; by rewrite bool_decide_eq_false in Et.
Qed.

Lemma sign_inv `{C : Crypto} kp u s : sign_tx kp u = Ok s →
  s_unsigned s = u ∧ s_sender_pubkey s = kp_pk kp ∧ u_sender u = kp_address kp ∧
  oqs_sign (kp_sk kp) (sdk_signable u) = Some (s_signature s).
Proof.
  unfold sign_tx, guard. case_bool_decide; [|done]. cbn [negb].
  destruct (oqs_sign _ _) as [sig|]; [|done]. by intros [= <-].
Qed.

Lemma new_keypair_inv `{C : Crypto} sk pk kp : new_keypair sk pk = Ok kp →
  kp = mkKeyPair sk pk (derive_address pk) ∧ str_len pk = 1952 ∧ str_len sk = 4032.
Proof.
  unfold new_keypair, guard, MLDSA_PK_SIZE, MLDSA_SK_SIZE. destruct (Z.eqb_spec (str_len pk) 1952); [|done].
  destruct (Z.eqb_spec (str_len sk) 4032); [|done]. by intros [= <-].
Qed.

Lemma node_reads `{C : Crypto} t s :
  u_type (s_unsigned s) = tt_value t → wire_ok (node_tx t s) = true →
  tx_from_dict (signed_to_dict s) = Ok (node_tx t s).
Proof.
  intros Ht Hw. rewrite <-(tx_wire_ok (node_tx t s)) by done.
  destruct s as [u sg pk]. destruct u. cbn in Ht. subst. reflexivity.
Qed.

(** ** Properties *)


Module Run.
#[local] Existing Instance Toy.crypto.
Definition pk : string := String.string_of_list_ascii (replicate 1952 "p"%char).
Definition sk : string := String.string_of_list_ascii (replicate 4032 "p"%char).
Definition calls : list call :=
  [Transfer (derive_address "other") 1000 "hi"; SetSender (derive_address pk); SetNonce 0].
End Run.


(** What the SDK reads of a transaction and of a block the node sends *)
Definition sdk_view_tx (tx : Transaction) : SdkTransaction :=
  let nothing := JStr EmptyString in
  mkSdkTx nothing nothing nothing nothing (JInt (nonce tx)) (JInt (timestamp tx)) (JObj (payload tx))
          (JStr (hex (signature tx))) nothing (JInt 0) (JInt 0) JNull.

(** The records of the SDK do not match the dictionaries of the node: of
    any block the node serves, the client reads an empty hash, an empty
    parent hash, empty roots and base fee 0, and of its transactions neither
    identifier, type, sender, recipient nor fees; of an event it reads the
    type and a [data] entry, which the node's events do not have. *)
Lemma sdk_block_reads_defaults `{C : Crypto} (b : Block) (r : Receipt) :
  sdk_block_from_dict (block_to_dict b) =
    Ok (mkSdkBlock (JInt (index b)) (JInt (blk_timestamp b)) (JStr EmptyString) (JStr EmptyString)
          (JStr EmptyString) (JStr EmptyString) (JInt 0) (JStr (validator b))
          (JStr (hex (blk_signature b))) (JStr EmptyString) (sdk_view_tx <$> transactions b)) ∧
  sdk_receipt_from_dict (receipt_to_dict r) =
    Ok (mkSdkReceipt (JStr (r_tx_id r)) (JStr (r_status r)) (JInt (r_fee_paid r))
          (JInt (r_block_index r)) (JInt (r_tx_index r))
          ((λ e, mkSdkEvent (jget e "type" (JStr EmptyString)) (jget e "data" (JObj []))) <$> r_events r)).
Proof.
  split.
  - unfold sdk_block_from_dict. set (d := block_to_dict b).
    change (jget d "transactions" (JList [])) with (JList ((λ tx, JObj (tx_to_dict tx)) <$> transactions b)).
    cbn [iter_val mbind result_bind]. by rewrite (mmap_fmap _ _ sdk_view_tx).
  - unfold sdk_receipt_from_dict. set (d := receipt_to_dict r).
    change (jget d "events" (JList [])) with (JList (JObj <$> r_events r)).
    cbn [iter_val mbind result_bind].
    by rewrite (mmap_fmap _ _ (λ e, mkSdkEvent (jget e "type" (JStr EmptyString)) (jget e "data" (JObj [])))).
Qed.

(** A builder that was used for a transfer keeps the recipient: the
    notarization built from it next is addressed to that recipient. *)
Lemma builder_keeps_recipient cid rcp amount memo a n dh meta now u :
  build now (run_calls cid [Transfer rcp amount memo; SetSender a; SetNonce n; Notarize dh meta]) = Ok u →
  u_type u = "NOTARIZE" ∧ u_recipient u = rcp.
Proof. intros H. apply build_inv in H as (Ht & _ & _ & _ & _ & _ & _ & Hr & _). by injection Ht as <-. Qed.
