(* ===== verification/WalletFile.v ===== *)
(** * Wallets and key files

    [crypto/secure_bytes.py], [crypto/aes.py], [core/wallet.py] and the key
    file of the SDK ([KeyPair.save] and [load] of [sdk/qbit_sdk/signer.py]).
    Files are represented by the dictionary [json.dump] writes and
    [json.load] returns.  scrypt (hashlib) and AES-256-GCM (the cryptography
    package) are operations of the class [Cipher]; random salts and nonces are
    arguments.  Error texts keep the constant part; scrypt parameters that
    are floats are outside the model. *)
From S2P Require Import Prelude PyStr Json Config Crypto Wallet Sdk.
Open Scope Z_scope.

Class Cipher := {
  (** [hashlib.scrypt(password, salt=, n=, r=, p=, dklen=)] *)
  scrypt : string → string → Z → Z → Z → Z → result string;
  (** [AESGCM(key).encrypt(nonce, data, aad)]: the ciphertext followed by the tag *)
  gcm_encrypt : string → string → string → string → string;
  (** [AESGCM(key).decrypt(nonce, data, aad)]: [None] when it raises [InvalidTag] *)
  gcm_decrypt : string → string → string → string → option string;
}.
Class CipherLaws (G : Cipher) := {
  gcm_decrypt_encrypt : ∀ k n m a, gcm_decrypt k n (gcm_encrypt k n m a) a = Some m;
  gcm_encrypt_length : ∀ k n m a, str_len (gcm_encrypt k n m a) = str_len m + 16;
}.

(** ** SecureBytes *)

Record SecureBytes := mkSecure { sb_buf : string; sb_zeroed : bool }.
Definition secure (data : string) : SecureBytes := mkSecure data false.
Definition sb_bytes (s : SecureBytes) : result string :=
  guard (sb_zeroed s) "SecureBytes has been zeroed" (Ok (sb_buf s)).
Definition sb_len (s : SecureBytes) : Z := str_len (sb_buf s).
Definition sb_hex (s : SecureBytes) : result string := b ← sb_bytes s; Ok (hex b).
Definition sb_eq (s t : SecureBytes) : bool :=
  if sb_zeroed s then false else if sb_zeroed t then false else bool_decide (sb_buf s = sb_buf t).
Definition sb_bool (s : SecureBytes) : bool := (0 <? sb_len s) && negb (sb_zeroed s).
Definition zeros (n : nat) : string := String.string_of_list_ascii (replicate n (chr 0)).
Definition sb_zero (s : SecureBytes) : SecureBytes :=
  if sb_zeroed s then s else mkSecure (zeros (String.length (sb_buf s))) true.

(** ** AES-256-GCM *)

Section Aes.
Context `{G : Cipher}.
Definition aes_encrypt (key iv plaintext aad : string) : string := iv +:+ gcm_encrypt key iv plaintext aad.
Definition aes_decrypt (key data aad : string) : result string :=
  guard (str_len data <? 28) "ciphertext too short" (
  match gcm_decrypt key (str_slice data 0 12) (str_slice data 12 (str_len data)) aad with
  | Some m => Ok m
  | None => Raise RuntimeError
  end).
End Aes.

(** [min(max(params.get(k, lo), lo), hi)] *)
Definition clamped (params : dict string JVal) (k : string) (lo hi : Z) : result Z :=
  v ← jget_int params k lo; Ok (Z.min (Z.max v lo) hi).

Definition SCRYPT_N : Z := 2 ^ 14.
Definition SCRYPT_R : Z := 8.
Definition SCRYPT_P : Z := 1.
Definition SCRYPT_DKLEN : Z := 32.
Definition MLKEM_SK_SIZE : Z := 2400.

(** One length-prefixed key of the plaintext: the key and the offset after it *)
Definition read_key (size : Z) (plaintext : string) (offset : Z) : result (string * Z) :=
  guard (str_len plaintext <? offset + 4) "truncated plaintext: missing length" (
  let len := from_bytes (str_slice plaintext offset (offset + 4)) in
  guard (negb (len =? size)) "unexpected key length" (
  let offset := offset + 4 in
  guard (str_len plaintext <? offset + len) "truncated plaintext: key incomplete" (
  Ok (str_slice plaintext offset (offset + len), offset + len)))).
(** [len(key).to_bytes(4, 'big') + key] *)
Definition write_key (key : string) : result string :=
  l ← to_bytes 4 (str_len key); Ok (l +:+ key).

(** ** The wallet of the node *)

Record Wallet := mkWallet {
  w_signing_sk : SecureBytes; w_signing_pk : string;
  w_encryption_sk : SecureBytes; w_encryption_pk : string; w_address : string;
}.

Section NodeWallet.
Context `{C : Crypto} `{G : Cipher}.

Definition new_wallet (signing_sk signing_pk encryption_sk encryption_pk : string) : Wallet :=
  mkWallet (secure signing_sk) signing_pk (secure encryption_sk) encryption_pk (derive_address signing_pk).
(** [Wallet.generate] with the pairs the two [keygen] return *)
Definition generate (signing encryption : string * string) : Wallet :=
  new_wallet signing.1 signing.2 encryption.1 encryption.2.
Definition close_wallet (w : Wallet) : Wallet :=
  mkWallet (sb_zero (w_signing_sk w)) (w_signing_pk w) (sb_zero (w_encryption_sk w)) (w_encryption_pk w)
           (w_address w).
(** [bytes(secret_key)] fails before liboqs is asked. *)
Definition wallet_sign (w : Wallet) (message : string) : result string :=
  sk ← sb_bytes (w_signing_sk w); MLDSA_sign sk message.

Definition wallet_to_dict (w : Wallet) : result (dict string JVal) :=
  ssk ← sb_hex (w_signing_sk w);
  esk ← sb_hex (w_encryption_sk w);
  Ok [("address", JStr (w_address w)); ("signing_sk", JStr ssk); ("signing_pk", JStr (hex (w_signing_pk w)));
      ("encryption_sk", JStr esk); ("encryption_pk", JStr (hex (w_encryption_pk w)))].
(** [bytes.fromhex(data[k])] *)
Definition hex_field (data : dict string JVal) (k : string) : result string :=
  v ← jindex data k; fromhex_val v.
Definition wallet_from_dict (data : dict string JVal) : result Wallet :=
  ssk ← hex_field data "signing_sk";
  spk ← hex_field data "signing_pk";
  esk ← hex_field data "encryption_sk";
  epk ← hex_field data "encryption_pk";
  Ok (new_wallet ssk spk esk epk).

Definition encrypt_wallet (salt iv password : string) (w : Wallet) : result (dict string JVal) :=
  dk ← scrypt (utf8 password) salt SCRYPT_N SCRYPT_R SCRYPT_P SCRYPT_DKLEN;
  ssk ← sb_bytes (w_signing_sk w);
  esk ← sb_bytes (w_encryption_sk w);
  k1 ← write_key ssk;
  k2 ← write_key esk;
  let ciphertext := aes_encrypt dk iv (k1 +:+ k2) (utf8 (w_address w)) in
  Ok [("encrypted", JBool true); ("version", JInt 1); ("address", JStr (w_address w));
      ("signing_pk", JStr (hex (w_signing_pk w))); ("encryption_pk", JStr (hex (w_encryption_pk w)));
      ("salt", JStr (hex salt)); ("ciphertext", JStr (hex ciphertext));
      ("scrypt", JObj [("n", JInt SCRYPT_N); ("r", JInt SCRYPT_R); ("p", JInt SCRYPT_P)])].

(** Any exception of the decryption, or of [address.encode()], becomes one ValueError. *)
Definition open_box (dk ciphertext : string) (address : JVal) : result string :=
  match (a ← as_str address; aes_decrypt dk ciphertext (utf8 a)) with
  | Ok plaintext => Ok plaintext
  | Raise _ => Raise (ValueError "decryption failed: wrong password or tampered file")
  end.

Definition decrypt_wallet (data : dict string JVal) (password : string) : result Wallet :=
  salt ← hex_field data "salt";
  params ← as_dict (jget data "scrypt" (JObj []));
  n ← clamped params "n" SCRYPT_N (2 ^ 20);
  r ← clamped params "r" SCRYPT_R 16;
  p ← clamped params "p" SCRYPT_P 4;
  dk ← scrypt (utf8 password) salt n r p SCRYPT_DKLEN;
  address ← jindex data "address";
  ciphertext ← hex_field data "ciphertext";
  plaintext ← open_box dk ciphertext address;
  k1 ← read_key MLDSA_SK_SIZE plaintext 0;
  k2 ← read_key MLKEM_SK_SIZE plaintext k1.2;
  guard (negb (k2.2 =? str_len plaintext)) "trailing data after keys" (
  spk ← hex_field data "signing_pk";
  epk ← hex_field data "encryption_pk";
  let wallet := new_wallet k1.1 spk k2.1 epk in
  guard (negb (bool_decide (JStr (w_address wallet) = address))) "address mismatch after decryption (tampered file?)"
    (Ok wallet)).

(** [Wallet.save]: what is written; [Wallet.load]: what a file yields *)
Definition save_wallet (salt iv password : string) (w : Wallet) : result (dict string JVal) :=
  if is_empty password then d ← wallet_to_dict w; Ok (("encrypted", JBool false) :: d)
  else encrypt_wallet salt iv password w.
Definition load_wallet (data : dict string JVal) (password : string) : result Wallet :=
  if truthy (jget data "encrypted" JNull) then
    guard (is_empty password) "wallet is encrypted, password required" (decrypt_wallet data password)
  else wallet_from_dict data.

(** ** The key file of the SDK *)

Definition save_keypair (salt iv password : string) (kp : KeyPair) : result (dict string JVal) :=
  guard (is_empty password) "password is required for saving keypairs" (
  dk ← scrypt (utf8 password) salt SCRYPT_N SCRYPT_R SCRYPT_P SCRYPT_DKLEN;
  plaintext ← write_key (kp_sk kp);
  let ciphertext := gcm_encrypt dk iv plaintext (utf8 (kp_address kp)) in
  Ok [("version", JInt 1); ("address", JStr (kp_address kp)); ("signing_pk", JStr (hex (kp_pk kp)));
      ("crypto", JObj
        [("cipher", JStr "aes-256-gcm"); ("kdf", JStr "scrypt");
         ("kdfparams", JObj [("n", JInt SCRYPT_N); ("r", JInt SCRYPT_R); ("p", JInt SCRYPT_P);
                             ("dklen", JInt SCRYPT_DKLEN); ("salt", JStr (hex salt))]);
         ("ciphertext", JStr (hex ciphertext)); ("nonce", JStr (hex iv))])]).

Definition load_keypair (data : dict string JVal) (password : string) : result KeyPair :=
  guard (is_empty password) "password is required" (
  match jget data "crypto" JNull with
  | JNull => sk ← hex_field data "signing_sk"; pk ← hex_field data "signing_pk"; new_keypair sk pk
  | crypto_v =>
      kdf_v ← index_val crypto_v "kdfparams";
      salt_v ← index_val kdf_v "salt";
      salt ← fromhex_val salt_v;
      kdfparams ← as_dict kdf_v;
      n ← clamped kdfparams "n" SCRYPT_N (2 ^ 20);
      r ← clamped kdfparams "r" SCRYPT_R 16;
      p ← clamped kdfparams "p" SCRYPT_P 4;
      dk ← scrypt (utf8 password) salt n r p SCRYPT_DKLEN;
      crypto ← as_dict crypto_v;
      iv ← hex_field crypto "nonce";
      ciphertext ← hex_field crypto "ciphertext";
      address ← jindex data "address";
      plaintext ← match (a ← as_str address;
                         match gcm_decrypt dk iv ciphertext (utf8 a) with
                         | Some m => Ok m | None => Raise RuntimeError end) with
                  | Ok m => Ok m
                  | Raise _ => Raise (ValueError "decryption failed: wrong password or tampered file")
                  end;
      k ← read_key MLDSA_SK_SIZE plaintext 0;
      pk ← hex_field data "signing_pk";
      kp ← new_keypair k.1 pk;
      guard (negb (bool_decide (JStr (kp_address kp) = address))) "address mismatch after decryption" (Ok kp)
  end).
End NodeWallet.

(** ** A cipher that evaluates *)

Module ToyCipher.
Definition tag (k n m a : string) : string := be_bytes 16 (Toy.roll 11 (k +:+ n +:+ m +:+ a)).
Definition encrypt (k n m a : string) : string := m +:+ tag k n m a.
Definition decrypt (k n d a : string) : option string :=
  let len := str_len d - 16 in
  let m := str_slice d 0 len in
  if bool_decide (d = encrypt k n m a) then Some m else None.
#[export] Instance cipher : Cipher :=
  {| scrypt := λ pw salt n r p dklen, Ok (Toy.hash (pw +:+ salt)); gcm_encrypt := encrypt; gcm_decrypt := decrypt |}.
Lemma tag_length k n m a : str_len (tag k n m a) = 16.
Proof. unfold tag, str_len. by rewrite be_bytes_length. Qed.
#[export] Instance laws : CipherLaws cipher.
Proof.
  split; intros k n m a; cbn.
  - unfold decrypt. assert (str_slice (encrypt k n m a) 0 (str_len (encrypt k n m a) - 16) = m) as ->.
    { unfold encrypt. rewrite str_len_app, tag_length.
      apply (str_slice_mid EmptyString m (tag k n m a)); [done|lia]. }
    by rewrite bool_decide_eq_true_2.
  - unfold encrypt. by rewrite str_len_app, tag_length.
Qed.
End ToyCipher.

(** ** Lemmas *)

Lemma hex_field_hex data k b : dget data k = Some (JStr (hex b)) → hex_field data k = Ok b.
Proof. intros H. unfold hex_field, jindex. rewrite H. apply fromhex_val_hex. Qed.

Lemma write_key_ok key : str_len key < 2 ^ 32 → write_key key = Ok (be_bytes 4 (str_len key) +:+ key).
Proof.
  intros H. unfold write_key. destruct (to_bytes_ok 4 (str_len key)) as [-> _]; [|done].
  change (256 ^ Z.of_nat 4) with (2 ^ 32). unfold str_len in *. lia.
Qed.
Lemma read_key_ok size before key after offset :
  str_len before = offset → str_len key = size → size < 2 ^ 32 →
  read_key size (before +:+ (be_bytes 4 (str_len key) +:+ key) +:+ after) offset = Ok (key, offset + 4 + size).
Proof.
  intros Ho Hk Hs. unfold read_key, guard. set (len := be_bytes 4 (str_len key)).
  assert (Hlen : str_len len = 4) by (unfold len, str_len; by rewrite be_bytes_length).
  assert (0 <= str_len key) by (unfold str_len; lia). assert (0 <= str_len after) by (unfold str_len; lia).
  rewrite !str_len_app, Hlen, Ho. destruct (Z.ltb_spec (offset + (4 + str_len key + str_len after)) (offset + 4)); [lia|].
  rewrite string_app_assoc, (str_slice_mid before len (key +:+ after)) by (done || lia).
  unfold len. rewrite from_be_bytes by (change (256 ^ Z.of_nat 4) with (2 ^ 32); lia).
  rewrite Hk, Z.eqb_refl. cbn [negb].
  destruct (Z.ltb_spec (offset + (4 + size + str_len after)) (offset + 4 + size)); [lia|].
  rewrite <-(string_app_assoc before), (str_slice_mid (before +:+ _) key after); [done| |lia].
  rewrite str_len_app. unfold str_len at 2. rewrite be_bytes_length. lia.
Qed.
Lemma read_key_inv size plaintext offset key off : 0 <= offset → 0 <= size →
  read_key size plaintext offset = Ok (key, off) → str_len key = size ∧ off = offset + 4 + size.
Proof.
  intros Ho Hs. unfold read_key, guard. destruct (Z.ltb_spec (str_len plaintext) (offset + 4)); [done|].
  destruct (Z.eqb_spec (from_bytes (str_slice plaintext offset (offset + 4))) size) as [->|]; [|done]. cbn [negb].
  destruct (Z.ltb_spec (str_len plaintext) (offset + 4 + size)); [done|]. intros [= <- <-].
  split; [|done]. rewrite str_slice_len; lia.
Qed.

Lemma read_key_bytes size plaintext offset key off : 0 <= offset → 0 <= size →
  read_key size plaintext offset = Ok (key, off) → str_slice plaintext offset off = be_bytes 4 size +:+ key.
Proof.
  intros Ho Hs H. pose proof (read_key_inv _ _ _ _ _ Ho Hs H) as [_ ->]. revert H. unfold read_key, guard.
  destruct (Z.ltb_spec (str_len plaintext) (offset + 4)); [done|].
  destruct (Z.eqb_spec (from_bytes (str_slice plaintext offset (offset + 4))) size) as [E|]; [|done]. cbn [negb].
  destruct (Z.ltb_spec (str_len plaintext) (offset + 4 + from_bytes (str_slice plaintext offset (offset + 4)))); [done|].
  rewrite E. intros [= <-]. rewrite <-(str_slice_app _ offset (offset + 4)) by lia. f_equal.
  rewrite <-E, <-(be_from_bytes (str_slice plaintext offset (offset + 4))) at 1. f_equal.
  apply Nat2Z.inj. change (str_len (str_slice plaintext offset (offset + 4)) = 4). rewrite str_slice_len; lia.
Qed.

Lemma clamped_bounds params k lo hi v : lo <= hi → clamped params k lo hi = Ok v → lo <= v <= hi.
Proof. intros H. unfold clamped. destruct (jget_int _ _ _); [|done]. intros [= <-]. lia. Qed.

Section Lemmas.
Context `{G : Cipher} `{!CipherLaws G}.

Lemma aes_roundtrip key iv m aad : str_len iv = 12 → aes_decrypt key (aes_encrypt key iv m aad) aad = Ok m.
Proof using CipherLaws0.
  intros Hiv. unfold aes_decrypt, aes_encrypt, guard. set (ct := gcm_encrypt key iv m aad).
  assert (Hct : str_len ct = str_len m + 16) by apply gcm_encrypt_length.
  assert (0 <= str_len m) by (unfold str_len; lia).
  rewrite str_len_app, Hiv. destruct (Z.ltb_spec (12 + str_len ct) 28); [lia|].
  rewrite (str_slice_mid EmptyString iv ct) by (done || lia).
  rewrite <-(string_app_nil ct) at 1. rewrite (str_slice_mid iv ct EmptyString) by (done || lia).
  unfold ct. by rewrite gcm_decrypt_encrypt.
Qed.
End Lemmas.

Section Files.
Context `{C : Crypto} `{G : Cipher}.

(** What [encrypt_wallet] writes for a wallet in good order *)
Definition wallet_file (dk salt iv ssk spk esk epk : string) : dict string JVal :=
  let w := new_wallet ssk spk esk epk in
  let plaintext := (be_bytes 4 (str_len ssk) +:+ ssk) +:+ (be_bytes 4 (str_len esk) +:+ esk) in
  [("encrypted", JBool true); ("version", JInt 1); ("address", JStr (w_address w));
   ("signing_pk", JStr (hex spk)); ("encryption_pk", JStr (hex epk)); ("salt", JStr (hex salt));
   ("ciphertext", JStr (hex (aes_encrypt dk iv plaintext (utf8 (w_address w)))));
   ("scrypt", JObj [("n", JInt SCRYPT_N); ("r", JInt SCRYPT_R); ("p", JInt SCRYPT_P)])].
Lemma encrypt_run dk salt iv pw ssk spk esk epk :
  scrypt (utf8 pw) salt SCRYPT_N SCRYPT_R SCRYPT_P SCRYPT_DKLEN = Ok dk →
  str_len ssk < 2 ^ 32 → str_len esk < 2 ^ 32 →
  encrypt_wallet salt iv pw (new_wallet ssk spk esk epk) = Ok (wallet_file dk salt iv ssk spk esk epk).
Proof.
  intros Hdk Hs He. unfold encrypt_wallet. rewrite Hdk. cbn [mbind result_bind new_wallet w_signing_sk w_encryption_sk].
  unfold sb_bytes, guard, secure. cbn [sb_zeroed sb_buf mbind result_bind].
  rewrite !write_key_ok by done. done.
Qed.

(** A successful decryption, step by step *)
Lemma decrypt_inv data pw w : decrypt_wallet data pw = Ok w →
  ∃ salt params n r p dk ciphertext plaintext k1 k2 spk epk,
    hex_field data "salt" = Ok salt ∧ as_dict (jget data "scrypt" (JObj [])) = Ok params ∧
    clamped params "n" SCRYPT_N (2 ^ 20) = Ok n ∧ clamped params "r" SCRYPT_R 16 = Ok r ∧
    clamped params "p" SCRYPT_P 4 = Ok p ∧ scrypt (utf8 pw) salt n r p SCRYPT_DKLEN = Ok dk ∧
    hex_field data "ciphertext" = Ok ciphertext ∧
    open_box dk ciphertext (JStr (w_address w)) = Ok plaintext ∧ jindex data "address" = Ok (JStr (w_address w)) ∧
    read_key MLDSA_SK_SIZE plaintext 0 = Ok k1 ∧ read_key MLKEM_SK_SIZE plaintext k1.2 = Ok k2 ∧
    k2.2 = str_len plaintext ∧ hex_field data "signing_pk" = Ok spk ∧ hex_field data "encryption_pk" = Ok epk ∧
    w = new_wallet k1.1 spk k2.1 epk.
Proof.
  unfold decrypt_wallet. destruct (hex_field data "salt") as [salt|]; [|done]. cbn [mbind result_bind].
  destruct (as_dict _) as [params|] eqn:Hp; [|done]. cbn [mbind result_bind].
  destruct (clamped params "n" _ _) as [n|] eqn:En; [|done]. destruct (clamped params "r" _ _) as [r|] eqn:Er; [|done].
  destruct (clamped params "p" _ _) as [p|] eqn:Ep; [|done]. cbn [mbind result_bind].
  destruct (scrypt _ _ _ _ _ _) as [dk|] eqn:Ed; [|done]. cbn [mbind result_bind].
  destruct (jindex data "address") as [a|]; [|done]. destruct (hex_field data "ciphertext") as [ct|]; [|done].
  cbn [mbind result_bind]. destruct (open_box dk ct a) as [m|] eqn:Em; [|done]. cbn [mbind result_bind].
  destruct (read_key _ m 0) as [k1|] eqn:E1; [|done]. cbn [mbind result_bind].
  destruct (read_key _ m k1.2) as [k2|] eqn:E2; [|done]. cbn [mbind result_bind]. unfold guard.
  destruct (Z.eqb_spec k2.2 (str_len m)); [|done]. cbn [negb].
  destruct (hex_field data "signing_pk") as [spk|]; [|done]. destruct (hex_field data "encryption_pk") as [epk|]; [|done].
  cbn [mbind result_bind]. case_bool_decide as Ha; [|done]. cbn [negb]. intros [= <-].
  exists salt, params, n, r, p, dk, ct, m, k1, k2, spk, epk. subst a. by split_and!.
Qed.
End Files.

Section Roundtrip.
Context `{C : Crypto} `{G : Cipher} `{!CipherLaws G}.
Context (dk salt iv pw : string) (Hiv : str_len iv = 12).
Context (Hdk : scrypt (utf8 pw) salt SCRYPT_N SCRYPT_R SCRYPT_P SCRYPT_DKLEN = Ok dk).

Lemma decrypt_run ssk spk esk epk : str_len ssk = MLDSA_SK_SIZE → str_len esk = MLKEM_SK_SIZE →
  decrypt_wallet (wallet_file dk salt iv ssk spk esk epk) pw = Ok (new_wallet ssk spk esk epk).
Proof using CipherLaws0 Hiv Hdk.
  intros Hs He. unfold decrypt_wallet. set (w := new_wallet ssk spk esk epk).
  set (data := wallet_file dk salt iv ssk spk esk epk).
  rewrite (hex_field_hex data "salt" salt) by reflexivity.
  change (as_dict (jget data "scrypt" (JObj []))) with
    (@Ok (dict string JVal) [("n", JInt SCRYPT_N); ("r", JInt SCRYPT_R); ("p", JInt SCRYPT_P)]).
  cbn [mbind result_bind]. change (clamped _ "n" _ _) with (@Ok Z SCRYPT_N). change (clamped _ "r" _ _) with (@Ok Z SCRYPT_R).
  change (clamped _ "p" _ _) with (@Ok Z SCRYPT_P). cbn [mbind result_bind]. rewrite Hdk. cbn [mbind result_bind].
  change (jindex data "address") with (@Ok JVal (JStr (w_address w))). cbn [mbind result_bind].
  set (plaintext := (be_bytes 4 (str_len ssk) +:+ ssk) +:+ (be_bytes 4 (str_len esk) +:+ esk)).
  rewrite (hex_field_hex data "ciphertext" (aes_encrypt dk iv plaintext (utf8 (w_address w)))) by reflexivity.
  cbn [mbind result_bind]. unfold open_box. cbn [as_str mbind result_bind]. rewrite aes_roundtrip by done.
  cbn [mbind result_bind].
  pose proof (read_key_ok MLDSA_SK_SIZE EmptyString ssk (be_bytes 4 (str_len esk) +:+ esk) 0 eq_refl Hs eq_refl) as H1.
  rewrite string_app_nil_l in H1. fold plaintext in H1. rewrite H1. cbn [mbind result_bind fst snd].
  pose proof (read_key_ok MLKEM_SK_SIZE (be_bytes 4 (str_len ssk) +:+ ssk) esk EmptyString (0 + 4 + MLDSA_SK_SIZE)) as H2.
  rewrite string_app_nil in H2. fold plaintext in H2. rewrite H2; [|rewrite str_len_app, Hs; unfold str_len; by rewrite be_bytes_length|done|done].
  cbn [mbind result_bind fst snd]. unfold guard.
  assert (Hlen : 0 + 4 + MLDSA_SK_SIZE + 4 + MLKEM_SK_SIZE = str_len plaintext).
  { unfold plaintext. rewrite !str_len_app, Hs, He. unfold str_len. by rewrite !be_bytes_length. }
  rewrite Hlen, Z.eqb_refl. cbn [negb].
  rewrite (hex_field_hex data "signing_pk" spk) by reflexivity.
  rewrite (hex_field_hex data "encryption_pk" epk) by reflexivity. cbn [mbind result_bind].
  by rewrite bool_decide_eq_true_2.
Qed.

Lemma keypair_roundtrip sk pk kp : new_keypair sk pk = Ok kp → is_empty pw = false →
  ∃ data, save_keypair salt iv pw kp = Ok data ∧ load_keypair data pw = Ok kp.
Proof using CipherLaws0 Hdk.
  intros Hkp Hpw. pose proof (new_keypair_inv _ _ _ Hkp) as (-> & Hpk & Hsk). unfold save_keypair, guard.
  rewrite Hpw, Hdk. cbn [mbind result_bind kp_sk kp_pk kp_address]. rewrite write_key_ok by (rewrite Hsk; done).
  eexists. split; [reflexivity|]. unfold load_keypair, guard. rewrite Hpw.
  match goal with |- match jget ?d _ _ with _ => _ end = _ => set (data := d) end.
  change (jget data "crypto" JNull) with (JObj
    [("cipher", JStr "aes-256-gcm"); ("kdf", JStr "scrypt");
     ("kdfparams", JObj [("n", JInt SCRYPT_N); ("r", JInt SCRYPT_R); ("p", JInt SCRYPT_P);
                         ("dklen", JInt SCRYPT_DKLEN); ("salt", JStr (hex salt))]);
     ("ciphertext", JStr (hex (gcm_encrypt dk iv (be_bytes 4 (str_len sk) +:+ sk) (utf8 (derive_address pk)))));
     ("nonce", JStr (hex iv))]).
  cbv iota. match goal with |- context [index_val (JObj ?d) "kdfparams"] => set (crypto := d) end.
  set (kdf := [("n", JInt SCRYPT_N); ("r", JInt SCRYPT_R); ("p", JInt SCRYPT_P);
                         ("dklen", JInt SCRYPT_DKLEN); ("salt", JStr (hex salt))]) in crypto.
  change (index_val (JObj crypto) "kdfparams") with (@Ok JVal (JObj kdf)). cbn [mbind result_bind].
  change (index_val (JObj kdf) "salt") with (@Ok JVal (JStr (hex salt))). cbn [mbind result_bind].
  rewrite fromhex_val_hex. cbn [mbind result_bind as_dict].
  change (clamped kdf "n" _ _) with (@Ok Z SCRYPT_N). change (clamped kdf "r" _ _) with (@Ok Z SCRYPT_R).
  change (clamped kdf "p" _ _) with (@Ok Z SCRYPT_P). cbn [mbind result_bind]. rewrite Hdk. cbn [mbind result_bind].
  rewrite (hex_field_hex crypto "nonce" iv) by reflexivity.
  rewrite (hex_field_hex crypto "ciphertext" (gcm_encrypt dk iv (be_bytes 4 (str_len sk) +:+ sk) (utf8 (derive_address pk)))) by reflexivity.
  change (jindex data "address") with (@Ok JVal (JStr (derive_address pk))).
  cbn [mbind result_bind as_str]. rewrite gcm_decrypt_encrypt. cbn [mbind result_bind].
  pose proof (read_key_ok MLDSA_SK_SIZE EmptyString sk EmptyString 0 eq_refl Hsk eq_refl) as H1.
  rewrite string_app_nil_l, string_app_nil in H1. rewrite H1. cbn [mbind result_bind fst].
  rewrite (hex_field_hex data "signing_pk" pk) by reflexivity. cbn [mbind result_bind]. rewrite Hkp.
  cbn [mbind result_bind kp_address]. by rewrite bool_decide_eq_true_2.
Qed.
End Roundtrip.

(** ** Properties *)

(** What [Wallet.save] writes, encrypted under a password or in plain,
    [Wallet.load] with the same password reads back as the same wallet. *)
Lemma wallet_file_roundtrip `{C : Crypto} `{G : Cipher} `{!CipherLaws G}
  (salt iv pw dk ssk spk esk epk : string)
  (Hiv : str_len iv = 12) (Hs : str_len ssk = MLDSA_SK_SIZE) (He : str_len esk = MLKEM_SK_SIZE)
  (Hdk : scrypt (utf8 pw) salt SCRYPT_N SCRYPT_R SCRYPT_P SCRYPT_DKLEN = Ok dk) :
  let w := new_wallet ssk spk esk epk in
  ∃ data, save_wallet salt iv pw w = Ok data ∧ load_wallet data pw = Ok w.
Proof.
  intros w. unfold save_wallet, load_wallet. destruct (is_empty pw) eqn:Ep.
  - eexists. split; [reflexivity|]. cbn [negb truthy]. unfold wallet_from_dict.
    match goal with |- context [hex_field ?d "signing_sk"] => set (data := d) end.
    change (truthy (jget data "encrypted" JNull)) with false. cbv iota.
    rewrite (hex_field_hex data "signing_sk" ssk), (hex_field_hex data "signing_pk" spk),
      (hex_field_hex data "encryption_sk" esk), (hex_field_hex data "encryption_pk" epk) by reflexivity.
    done.
  - exists (wallet_file dk salt iv ssk spk esk epk). split.
    + apply encrypt_run; [done|rewrite Hs; done|rewrite He; done].
    + change (truthy _) with true. cbv iota. unfold guard. by apply decrypt_run.
Qed.

(** C36 What a decrypted wallet is: whatever file is offered and whatever
    password, the wallet that comes out holds live secrets of 4032 and 2400
    octets that are exactly the plaintext AES-GCM authenticated for the
    address, its address is the one in the file and the one its signing key
    derives, and the key was derived by scrypt with costs inside the fixed
    bounds, whatever parameters the file asks for. *)
Theorem decrypted_wallet_typed `{C : Crypto} `{G : Cipher} (data : dict string JVal) (pw : string) (w : Wallet)
  (Hw : decrypt_wallet data pw = Ok w) :
  ∃ salt n r p dk sealed ssk esk,
    w_signing_sk w = secure ssk ∧ str_len ssk = 4032 ∧ w_encryption_sk w = secure esk ∧ str_len esk = 2400 ∧
    w_address w = derive_address (w_signing_pk w) ∧ jindex data "address" = Ok (JStr (w_address w)) ∧
    2 ^ 14 <= n <= 2 ^ 20 ∧ 8 <= r <= 16 ∧ 1 <= p <= 4 ∧ scrypt (utf8 pw) salt n r p 32 = Ok dk ∧
    gcm_decrypt dk (str_slice sealed 0 12) (str_slice sealed 12 (str_len sealed)) (utf8 (w_address w))
      = Some ((be_bytes 4 4032 +:+ ssk) +:+ (be_bytes 4 2400 +:+ esk)).
Proof.
  destruct (decrypt_inv data pw w Hw) as (salt & params & n & r & p & dk & ct & m & k1 & k2 & spk & epk & _ & _ &
    Hn & Hr & Hp & Hdk & _ & Hm & Ha & H1 & H2 & Hend & _ & _ & ->).
  apply clamped_bounds in Hn, Hr, Hp; [|done..].
  destruct k1 as [ssk o1], k2 as [esk o2]. cbn [fst snd] in *.
  exists salt, n, r, p, dk, ct, ssk, esk.
  apply read_key_bytes in H1 as Hb1; [|done..]. destruct (read_key_inv MLDSA_SK_SIZE m 0 ssk o1 ltac:(done) ltac:(done) H1) as [Hl1 ->].
  apply read_key_bytes in H2 as Hb2; [|done..]. destruct (read_key_inv MLKEM_SK_SIZE m (0 + 4 + MLDSA_SK_SIZE) esk o2 ltac:(done) ltac:(done) H2) as [Hl2 ->].
  split_and!; try done; try apply Hn; try apply Hr; try apply Hp.
  unfold open_box in Hm. cbn [as_str mbind result_bind] in Hm. unfold aes_decrypt, guard in Hm.
  destruct (str_len ct <? 28); [done|]. destruct (gcm_decrypt _ _ _ _) as [m'|]; [|done]. injection Hm as ->.
  change (Some m = Some ((be_bytes 4 MLDSA_SK_SIZE +:+ ssk) +:+ (be_bytes 4 MLKEM_SK_SIZE +:+ esk))).
  rewrite <-Hb1, <-Hb2, str_slice_app, Hend by done. by rewrite str_slice_all.
Qed.

(** A file whose parameters are downgraded *)
Module WalletRun.
Definition data : dict string JVal :=
  dset (wallet_file (C := Toy.crypto) (G := ToyCipher.cipher) (Toy.hash "pwsalt") "salt" "twelve bytes"
          (zeros 4032) "pk" (zeros 2400) "epk")
    "scrypt" (JObj [("n", JInt 1); ("r", JInt 1); ("p", JInt 1000)]).
Definition w : Wallet := new_wallet (C := Toy.crypto) (zeros 4032) "pk" (zeros 2400) "epk".
End WalletRun.

Lemma decrypted_wallet_typed_witness :
  decrypt_wallet (C := Toy.crypto) (G := ToyCipher.cipher) WalletRun.data "pw" = Ok WalletRun.w ∧
  ∃ salt n r p dk sealed ssk esk,
    w_signing_sk WalletRun.w = secure ssk ∧ str_len ssk = 4032 ∧ w_encryption_sk WalletRun.w = secure esk ∧ str_len esk = 2400 ∧
    w_address WalletRun.w = derive_address (C := Toy.crypto) (w_signing_pk WalletRun.w) ∧
    jindex WalletRun.data "address" = Ok (JStr (w_address WalletRun.w)) ∧
    2 ^ 14 <= n <= 2 ^ 20 ∧ 8 <= r <= 16 ∧ 1 <= p <= 4 ∧
    scrypt (Cipher := ToyCipher.cipher) (utf8 "pw") salt n r p 32 = Ok dk ∧
    gcm_decrypt (Cipher := ToyCipher.cipher) dk (str_slice sealed 0 12) (str_slice sealed 12 (str_len sealed))
      (utf8 (w_address WalletRun.w)) = Some ((be_bytes 4 4032 +:+ ssk) +:+ (be_bytes 4 2400 +:+ esk)).
Proof.
  assert (H : decrypt_wallet (C := Toy.crypto) (G := ToyCipher.cipher) WalletRun.data "pw" = Ok WalletRun.w)
    by (vm_compute; reflexivity).
  split; [exact H|]. exact (decrypted_wallet_typed (C := Toy.crypto) (G := ToyCipher.cipher) WalletRun.data "pw" WalletRun.w H).
Defined.

(** The file does not authenticate the encryption public key: replace it by
    any other, and the wallet is loaded without an error, holding the foreign
    key next to its own secret key. *)
Lemma encryption_pk_unauthenticated `{C : Crypto} `{G : Cipher} (data : dict string JVal) (pw epk' : string) (w : Wallet)
  (Hw : decrypt_wallet data pw = Ok w) :
  decrypt_wallet (dset data "encryption_pk" (JStr (hex epk'))) pw =
    Ok (mkWallet (w_signing_sk w) (w_signing_pk w) (w_encryption_sk w) epk' (w_address w)).
Proof.
  destruct (decrypt_inv data pw w Hw) as (salt & params & n & r & p & dk & ct & m & k1 & k2 & spk & epk & Hsalt & Hparams &
    Hn & Hr & Hp & Hdk & Hct & Hm & Ha & H1 & H2 & Hend & Hspk & _ & ->).
  set (data' := dset data "encryption_pk" (JStr (hex epk'))).
  assert (Hf : ∀ k, k ≠ "encryption_pk" → dget data' k = dget data k) by (intros k Hk; by apply dget_dset_ne).
  assert (Hh : ∀ k, k ≠ "encryption_pk" → hex_field data' k = hex_field data k).
  { intros k Hk. unfold hex_field, jindex. by rewrite Hf. }
  unfold decrypt_wallet. unfold jget, dget_or, jindex in Hparams, Ha |- *. rewrite (Hf "scrypt"), (Hf "address") by done.
  rewrite (Hh "salt"), (Hh "ciphertext"), (Hh "signing_pk") by done.
  rewrite Hsalt. cbn [mbind result_bind]. rewrite Hparams. cbn [mbind result_bind].
  rewrite Hn, Hr, Hp. cbn [mbind result_bind]. rewrite Hdk. cbn [mbind result_bind]. rewrite Ha, Hct.
  cbn [mbind result_bind]. rewrite Hm. cbn [mbind result_bind]. rewrite H1. cbn [mbind result_bind].
  rewrite H2. cbn [mbind result_bind]. unfold guard. rewrite Hend, Z.eqb_refl. cbn [negb]. rewrite Hspk.
  rewrite (hex_field_hex data' "encryption_pk" epk') by apply dget_dset_eq. cbn [mbind result_bind].
  by rewrite bool_decide_eq_true_2.
Qed.

(** The two key files are not compatible: neither side reads the file of the
    other, encrypted as both are. *)
Lemma key_files_incompatible `{C : Crypto} `{G : Cipher} salt iv pw pw' w kp data data' :
  is_empty pw = false → is_empty pw' = false →
  save_wallet salt iv pw w = Ok data → save_keypair salt iv pw kp = Ok data' →
  load_keypair data pw' = Raise KeyError ∧ load_wallet data' pw' = Raise KeyError.
Proof.
  intros Hpw Hpw'. unfold save_wallet, save_keypair, guard. rewrite Hpw. unfold encrypt_wallet.
  destruct (scrypt _ _ _ _ _ _) as [dk|]; [|done]. cbn [mbind result_bind].
  destruct (sb_bytes (w_signing_sk w)) as [ssk|]; [|done]. destruct (sb_bytes (w_encryption_sk w)) as [esk|]; [|done].
  cbn [mbind result_bind]. destruct (write_key ssk) as [k1|]; [|done]. destruct (write_key esk) as [k2|]; [|done].
  cbn [mbind result_bind]. destruct (write_key (kp_sk kp)) as [k|]; [|done]. cbn [mbind result_bind].
  intros [= <-] [= <-]. unfold load_keypair, load_wallet, guard. rewrite Hpw'. done.
Qed.
