(* ===== verification/Mlkem.v ===== *)
(** * Key encapsulation

    [crypto/mlkem.py]: ML-KEM-768 with its length checks around the liboqs
    routines, which are the operations of the class [Kem]; [coins] is the
    randomness of an encapsulation. *)
From S2P Require Import Prelude PyStr Json Config Crypto Wallet Sdk WalletFile.
Open Scope Z_scope.

Class Kem := {
  (** liboqs [encap_secret(public_key)]: ciphertext and shared secret; [None] when it raises *)
  oqs_encap : string → string → option (string * string);
  (** liboqs [decap_secret(ciphertext)] with a secret key *)
  oqs_decap : string → string → option string;
}.
Definition MLKEM_PK_SIZE : Z := 1184.
Definition MLKEM_CT_SIZE : Z := 1088.

Section Kem.
Context `{K : Kem}.
Definition encapsulate (coins public_key : string) : result (string * string) :=
  guard (negb (str_len public_key =? MLKEM_PK_SIZE)) "invalid ML-KEM public key length" (
  match oqs_encap coins public_key with
  | Some p => Ok p
  | None => Raise (ValueError "ML-KEM encapsulation failed")
  end).
Definition decapsulate (secret_key : SecureBytes) (ciphertext : string) : result string :=
  sk ← sb_bytes secret_key;
  guard (negb (str_len sk =? MLKEM_SK_SIZE)) "invalid ML-KEM secret key length" (
  guard (negb (str_len ciphertext =? MLKEM_CT_SIZE)) "invalid ML-KEM ciphertext length" (
  match oqs_decap sk ciphertext with
  | Some ss => Ok ss
  | None => Raise (ValueError "ML-KEM decapsulation failed")
  end)).
End Kem.

(** A key pair of ML-KEM: the secret key opens what was made for the public one. *)
Definition kem_pair `{K : Kem} (sk pk : string) : Prop :=
  ∀ coins ct ss, oqs_encap coins pk = Some (ct, ss) → oqs_decap sk ct = Some ss.
(** liboqs returns ciphertexts of the fixed size and secrets that are not empty. *)
Class KemLaws `(K : Kem) : Prop := {
  encap_sizes coins pk ct ss : oqs_encap coins pk = Some (ct, ss) → str_len ct = MLKEM_CT_SIZE ∧ ss ≠ EmptyString }.

Lemma encapsulate_inv `{K : Kem} coins pk ct ss : encapsulate coins pk = Ok (ct, ss) → oqs_encap coins pk = Some (ct, ss).
Proof. unfold encapsulate, guard. case_match; [done|]. destruct (oqs_encap _ _); [|done]. by intros [= ->]. Qed.
(** The toy encapsulation sends nonce bytes along, and both sides hash them with the public key. *)
Module ToyKem.
Definition pk_of (sk : string) : string := be_bytes 1184 (Toy.roll 3 sk).
Definition box (coins : string) : string := be_bytes 1088 (Toy.roll 5 coins).
Definition secret (pk ct : string) : string := Toy.hash (pk +:+ ct).
#[export] Instance kem : Kem :=
  {| oqs_encap := λ coins pk, Some (box coins, secret pk (box coins)); oqs_decap := λ sk ct, Some (secret (pk_of sk) ct) |}.
Lemma some_pair {A B} (a a' : A) (b b' : B) : Some (a, b) = Some (a', b') → a' = a ∧ b' = b.
Proof. by intros [= -> ->]. Qed.
Lemma box_length coins : str_len (box coins) = MLKEM_CT_SIZE.
Proof. unfold box, str_len. rewrite be_bytes_length. reflexivity. Qed.
Lemma secret_full pk ct : secret pk ct ≠ EmptyString.
Proof. intros E%(f_equal String.length). unfold secret, Toy.hash in E. by rewrite be_bytes_length in E. Qed.
#[export] Instance laws : KemLaws kem.
Proof. split. intros coins pk ct ss [-> ->]%some_pair. split; [apply box_length|apply secret_full]. Qed.
Lemma pair sk : kem_pair sk (pk_of sk).
Proof. intros coins ct ss [-> ->]%some_pair. reflexivity. Qed.
End ToyKem.
