(* ===== verification/Limits.v ===== *)
(** * Rate limits and reputation of peers

    [network/rate_limiter.py] and [network/reputation.py].  Times, tokens and
    scores are Python floats, kept as IEEE binary64 with the specification of
    the Standard Library ([SpecFloat]); a score the code keeps as an [int] until
    its first decay is the float of the same value.  [now] is
    [time.monotonic()]. *)
From Stdlib Require Import Floats.SpecFloat.
From S2P Require Import Prelude PyStr Json.
Open Scope Z_scope.

(** ** Floats *)

Abbreviation float := spec_float (only parsing).
Definition fadd : float → float → float := SFadd 53 1024.
Definition fsub : float → float → float := SFsub 53 1024.
Definition fmul : float → float → float := SFmul 53 1024.
Definition flt : float → float → bool := SFltb.
Definition fle : float → float → bool := SFleb.
Definition float_of_Z (z : Z) : float := binary_normalize 53 1024 z 0 false.
(** [min(a, b)] *)
Definition fmin (a b : float) : float := if flt b a then b else a.

(** ** The token bucket *)

Definition MAX_TRACKED : Z := 10000.
Definition STALE_TTL : float := float_of_Z 300.

Record Bucket := mkBucket { tokens : float; last_refill : float; violations : Z }.
Record RateLimiter := mkRateLimiter {
  rate : float; burst : float; buckets : dict string Bucket; logged_keys : gset string }.
Definition new_limiter (rate burst : float) : RateLimiter := mkRateLimiter rate burst [] ∅.
#[export] Instance set_buckets : Setter buckets :=
  λ f x, mkRateLimiter (rate x) (burst x) (f (buckets x)) (logged_keys x).
#[export] Instance set_logged_keys : Setter logged_keys :=
  λ f x, mkRateLimiter (rate x) (burst x) (buckets x) (f (logged_keys x)).

(** The key that makes room: the oldest without violations, else the oldest *)
Definition victim (d : dict string Bucket) : option string :=
  match list_find (λ kb : string * Bucket, violations kb.2 = 0) d with
  | Some (_, kb) => Some kb.1
  | None => head d.*1
  end.
Definition evict_one (l : RateLimiter) : RateLimiter :=
  match victim (buckets l) with
  | Some k => l <| buckets ::= λ d, dpop d k |> <| logged_keys ::= λ s, s ∖ {[k]} |>
  | None => l
  end.
Definition refill (l : RateLimiter) (now : float) (b : Bucket) : Bucket :=
  let elapsed := fsub now (last_refill b) in
  if flt (float_of_Z 0) elapsed
  then mkBucket (fmin (burst l) (fadd (tokens b) (fmul elapsed (rate l)))) now (violations b)
  else b.
(** [check]: whether the message is allowed.  The bucket goes to the end of
    the order before it is refilled and drawn from. *)
Definition limiter_check (now : float) (key : string) (l : RateLimiter) : bool * RateLimiter :=
  let '(l, b) := match dget (buckets l) key with
                 | None =>
                     let l := if MAX_TRACKED <=? Z.of_nat (length (buckets l)) then evict_one l else l in
                     (l, mkBucket (burst l) now 0)
                 | Some b => (l <| buckets ::= λ d, dpop d key |>, b)
                 end in
  let b := refill l now b in
  let put b := l <| buckets ::= λ d, d ++ [(key, b)] |> in
  if fle (float_of_Z 1) (tokens b)
  then (true, put (mkBucket (fsub (tokens b) (float_of_Z 1)) (last_refill b) (violations b)))
  else (false, put (mkBucket (tokens b) (last_refill b) (violations b + 1)) <| logged_keys ::= λ s, {[key]} ∪ s |>).
Definition limiter_violations (l : RateLimiter) (key : string) : Z :=
  match dget (buckets l) key with Some b => violations b | None => 0 end.
Definition limiter_reset (key : string) (l : RateLimiter) : RateLimiter :=
  l <| buckets ::= λ d, dpop d key |> <| logged_keys ::= λ s, s ∖ {[key]} |>.
Definition stale_keys (now : float) (l : RateLimiter) : list string :=
  (filter (λ kb : string * Bucket, flt (last_refill kb.2) (fsub now STALE_TTL) = true) (buckets l)).*1.
Definition limiter_cleanup (now : float) (l : RateLimiter) : Z * RateLimiter :=
  let stale := stale_keys now l in
  (Z.of_nat (length stale), foldl (λ l k, limiter_reset k l) l stale).

(** ** Reputation *)

Definition EVENTS : dict string Z :=
  [("valid_block", 10); ("valid_tx", 1); ("invalid_block", -50); ("invalid_tx", -10); ("state_root_mismatch", -100);
   ("auth_failed", -100); ("timeout", -5); ("rate_limited", -20); ("protocol_error", -30)].
Definition DEFAULT_SCORE : float := float_of_Z 100.
Definition BAN_THRESHOLD : float := float_of_Z (-100).
(** The floats nearest to 0.99 and 0.01 *)
Definition DECAY_RATE : float := S754_finite false 8917127262193582 (-53).
Definition CLOSE_ENOUGH : float := S754_finite false 5764607523034235 (-59).

Record PeerReputation := mkReputation { scores : dict string float; banned : gset string; last_event : dict string float }.
Definition new_reputation : PeerReputation := mkReputation [] ∅ [].

Definition get_score (r : PeerReputation) (peer_id : string) : float :=
  if is_empty peer_id then DEFAULT_SCORE else dget_or (scores r) peer_id DEFAULT_SCORE.
Definition is_banned (r : PeerReputation) (peer_id : string) : bool :=
  negb (is_empty peer_id) && bool_decide (peer_id ∈ banned r).
Definition record_event (now : float) (peer_id event : string) (r : PeerReputation) : result PeerReputation :=
  if is_empty peer_id then Ok r
  else match dget EVENTS event with
       | None => Raise (ValueError "unknown reputation event")
       | Some delta =>
           let new_score := fadd (dget_or (scores r) peer_id DEFAULT_SCORE) (float_of_Z delta) in
           Ok (mkReputation (dset (scores r) peer_id new_score)
                 (if fle new_score BAN_THRESHOLD then {[peer_id]} ∪ banned r else banned r)
                 (dset (last_event r) peer_id now))
       end.
Definition unban (peer_id : string) (r : PeerReputation) : PeerReputation :=
  if is_empty peer_id then r
  else mkReputation (dset (scores r) peer_id DEFAULT_SCORE) (banned r ∖ {[peer_id]}) (last_event r).
(** The decayed score, or [None] when the entry is dropped *)
Definition decayed (r : PeerReputation) (peer_id : string) (score : float) : option float :=
  let new_score := fadd DEFAULT_SCORE (fmul (fsub score DEFAULT_SCORE) DECAY_RATE) in
  if flt (SFabs (fsub new_score DEFAULT_SCORE)) CLOSE_ENOUGH && negb (bool_decide (peer_id ∈ banned r))
  then None else Some new_score.
Definition decay (r : PeerReputation) : PeerReputation :=
  mkReputation (omap (λ ks, (λ v, (ks.1, v)) <$> decayed r ks.1 ks.2) (scores r)) (banned r)
    (filter (λ kt : string * float, dget (scores r) kt.1 ≫= decayed r kt.1 ≠ None ∨ dget (scores r) kt.1 = None) (last_event r)).

(** ** Laws *)

Record limiter_ok (l : RateLimiter) : Prop := mkLimiterOk {
  lo_keys : NoDup (buckets l).*1;
  lo_size : Z.of_nat (length (buckets l)) <= MAX_TRACKED;
  lo_logged : ∀ k, k ∈ logged_keys l → k ∈ (buckets l).*1 }.

Lemma dpop_keys_other {V} (d : dict string V) k k' : k' ∈ d.*1 → k' ≠ k → k' ∈ (dpop d k).*1.
Proof.
  intros Hin Hne. destruct (dget d k') as [v|] eqn:E; [|by apply dget_None in E].
  rewrite <-(dget_dpop_ne d k k' Hne) in E. apply dget_Some_elem in E. by apply (list_elem_of_fmap_2 fst) in E.
Qed.
Lemma dpop_length_le {V} (d : dict string V) k : (length (dpop d k) ≤ length d)%nat.
Proof. induction d as [|[k' v] d IH]; cbn [dpop length]; [done|]. case_decide; cbn [length]; lia. Qed.
Lemma reset_ok key l : limiter_ok l → limiter_ok (limiter_reset key l).
Proof.
  intros [Hk Hs Hl]. split; cbn.
  - by apply dpop_NoDup. - pose proof (dpop_length_le (buckets l) key). lia.
  - intros k [Hin Hne]%elem_of_difference. apply dpop_keys_other; [by apply Hl|set_solver].
Qed.
Lemma victim_in d k : victim d = Some k → k ∈ d.*1.
Proof.
  unfold victim. destruct (list_find _ d) as [[i kb]|] eqn:E.
  - apply list_find_Some in E as (Hi & _ & _). intros [= <-]. apply list_elem_of_fmap_2. by eapply list_elem_of_lookup_2.
  - destruct d as [|[k' b] d]; [done|]. intros [= ->]. by left.
Qed.
Lemma victim_some d : d ≠ [] → is_Some (victim d).
Proof. unfold victim. destruct d as [|kb d]; [done|]. by destruct (list_find _ _) as [[]|]. Qed.
Lemma evict_ok l : limiter_ok l → limiter_ok (evict_one l).
Proof. intros H. unfold evict_one. destruct (victim _) as [k|]; [by apply (reset_ok k)|done]. Qed.
Lemma evict_smaller l : limiter_ok l → buckets l ≠ [] → (length (buckets (evict_one l)) < length (buckets l))%nat.
Proof.
  intros H Hne. unfold evict_one. destruct (victim_some _ Hne) as [k Hk]. rewrite Hk. cbn. by apply dpop_length, victim_in.
Qed.
(** The bucket of [key] is put last; nothing else lost its bucket. *)
Lemma put_ok l key b logged : NoDup (buckets l).*1 → key ∉ (buckets l).*1 → Z.of_nat (length (buckets l)) < MAX_TRACKED →
  (∀ k, k ∈ logged → k = key ∨ k ∈ (buckets l).*1) →
  limiter_ok (mkRateLimiter (rate l) (burst l) (buckets l ++ [(key, b)]) logged).
Proof.
  intros Hk Hni Hlt Hlog. split; cbn.
  - rewrite fmap_app. apply list.NoDup_app. split_and!; [done| |apply NoDup_singleton]. set_solver.
  - rewrite length_app. cbn. lia.
  - intros k Hin%Hlog. rewrite fmap_app. set_solver.
Qed.
Lemma check_ok now key l : limiter_ok l → limiter_ok (limiter_check now key l).2.
Proof.
  intros Hok. unfold limiter_check.
  assert (Hput : ∀ l' b, NoDup (buckets l').*1 → key ∉ (buckets l').*1 → Z.of_nat (length (buckets l')) < MAX_TRACKED →
    (∀ k, k ∈ logged_keys l' → k = key ∨ k ∈ (buckets l').*1) →
    limiter_ok (let b := refill l' now b in
      let put b := l' <| buckets ::= λ d, d ++ [(key, b)] |> in
      if fle (float_of_Z 1) (tokens b)
      then (true, put (mkBucket (fsub (tokens b) (float_of_Z 1)) (last_refill b) (violations b)))
      else (false, put (mkBucket (tokens b) (last_refill b) (violations b + 1)) <| logged_keys ::= λ s, {[key]} ∪ s |>)).2).
  { intros l' b H1 H2 H3 H4. cbn zeta. destruct (fle _ _); cbn; apply (put_ok l'); set_solver. }
  destruct (dget (buckets l) key) as [b|] eqn:E.
  - destruct Hok as [Hk Hs Hl]. apply Hput; cbn.
    + by apply dpop_NoDup.
    + intros (kb & -> & [_ Hne]%dpop_sub)%list_elem_of_fmap. done.
    + apply dget_Some_elem, (list_elem_of_fmap_2 fst) in E. pose proof (dpop_length (buckets l) key E). lia.
    + intros k Hin%Hl. destruct (decide (k = key)); [by left|right]. by apply dpop_keys_other.
  - apply dget_None in E. destruct (Z.leb_spec MAX_TRACKED (Z.of_nat (length (buckets l)))) as [Hfull|].
    + assert (Hne : buckets l ≠ []) by (intros Hnil; rewrite Hnil in Hfull; done).
      pose proof (evict_smaller l Hok Hne). pose proof (lo_size _ Hok). destruct (evict_ok l Hok) as [Hk Hs Hl].
      apply Hput; [done| |lia|by auto]. intros Hin. apply E. unfold evict_one in Hin.
      destruct (victim _); [by apply dpop_keys_sub in Hin|done].
    + destruct Hok as [Hk Hs Hl]. apply Hput; [done|done|done|by auto].
Qed.
Lemma cleanup_ok now l : limiter_ok l → limiter_ok (limiter_cleanup now l).2.
Proof.
  unfold limiter_cleanup. cbn. generalize (stale_keys now l). intros ks. revert l.
  induction ks as [|k ks IH]; intros l Hok; [done|]. apply IH. by apply reset_ok.
Qed.

(** A key with violations makes room only when every key has some. *)
Lemma victim_clean d k : NoDup d.*1 → victim d = Some k →
  (∃ b, dget d k = Some b ∧ violations b = 0) ∨ Forall (λ kb : string * Bucket, violations kb.2 ≠ 0) d.
Proof.
  intros Hd. unfold victim. destruct (list_find _ d) as [[i [k' b]]|] eqn:E.
  - apply list_find_Some in E as (Hi & Hv & _). intros [= <-]. left. exists b. split; [|done].
    apply dget_elem; [done|]. by eapply list_elem_of_lookup_2.
  - intros _. right. by apply list_find_None in E.
Qed.

(** A ban outlives everything but [unban]. *)
Lemma record_keeps_ban now p e r r' q : record_event now p e r = Ok r' → is_banned r q = true → is_banned r' q = true.
Proof.
  unfold record_event, is_banned. destruct (is_empty p); [by intros [= <-]|]. destruct (dget EVENTS e); [|done].
  intros [= <-]. destruct (is_empty q); [done|]. cbn. rewrite !bool_decide_eq_true. destruct (fle _ _); set_solver.
Qed.
Lemma decay_keeps_ban r q : is_banned (decay r) q = is_banned r q.
Proof. done. Qed.
(** The score that bans, and what it bans: the key the event was recorded for *)
Lemma record_bans now p e r r' delta : is_empty p = false → dget EVENTS e = Some delta → record_event now p e r = Ok r' →
  fle (fadd (dget_or (scores r) p DEFAULT_SCORE) (float_of_Z delta)) BAN_THRESHOLD = true → is_banned r' p = true.
Proof.
  intros Hp He Hr Hs. unfold record_event in Hr. rewrite Hp, He, Hs in Hr. injection Hr as <-. unfold is_banned. rewrite Hp. cbn.
  rewrite bool_decide_eq_true. set_solver.
Qed.
