(* ===== verification/Metrics.v ===== *)
(** * Metrics

    [network/metrics.py]: counters, gauges and histograms, their text in the
    exposition format of Prometheus, and the registry of a node.  A counter is
    incremented by integers only.  The [repr] of a float is an argument; the
    locks are left out, each method is one step. *)
From Stdlib Require Import Floats.SpecFloat.
From S2P Require Import Prelude PyStr Json Limits.
Open Scope Z_scope.

(** ** Labels *)

Abbreviation label_key := (list string) (only parsing).
(** [tuple(labels.get(l, "") for l in self._labels)] *)
Definition key_of (names : list string) (labels : dict string string) : label_key :=
  (λ l, dget_or labels l EmptyString) <$> names.
(** The order of tuples of texts *)
Fixpoint key_leb (x y : label_key) : bool :=
  match x, y with
  | [], _ => true
  | _ :: _, [] => false
  | a :: x, b :: y => if bool_decide (a = b) then key_leb x y else bool_decide (String.le a b)
  end.
Definition item_le {A} (x y : label_key * A) : Prop := key_leb x.1 y.1 = true.
#[global] Instance item_le_dec {A} : ∀ x y : label_key * A, Decision (item_le x y).
Proof. intros x y. unfold item_le. apply _. Defined.
Definition sorted_items {A} (d : dict label_key A) : list (label_key * A) := merge_sort item_le d.
Definition label_text (names : list string) (key : label_key) : string :=
  String.concat "," (zip_with (λ n v, n +:+ "=" +:+ String DQUOTE (v +:+ String DQUOTE EmptyString)) names key).
Definition braces (s : string) : string := "{" +:+ s +:+ "}".
Definition head_lines (name help kind : string) : list string :=
  ["# HELP " +:+ name +:+ " " +:+ help; "# TYPE " +:+ name +:+ " " +:+ kind].

(** ** Counters and gauges *)

Record Counter := mkCounter { ct_name : string; ct_help : string; ct_labels : list string; ct_values : dict label_key Z }.
Definition new_counter (name help : string) (labels : list string) : Counter := mkCounter name help labels [].
Definition counter_inc (amount : Z) (labels : dict string string) (c : Counter) : Counter :=
  let key := key_of (ct_labels c) labels in
  mkCounter (ct_name c) (ct_help c) (ct_labels c) (dset (ct_values c) key (dget_or (ct_values c) key 0 + amount)).
Definition counter_collect (c : Counter) : list string :=
  head_lines (ct_name c) (ct_help c) "counter" ++
  match ct_labels c with
  | [] => [ct_name c +:+ " " +:+ str_of_Z (dget_or (ct_values c) [] 0)]
  | names => (λ kv : label_key * Z, ct_name c +:+ braces (label_text names kv.1) +:+ " " +:+ str_of_Z kv.2) <$> sorted_items (ct_values c)
  end.
Definition gauge_collect (name help : string) (val : Z) : list string :=
  head_lines name help "gauge" ++ [name +:+ " " +:+ str_of_Z val].

(** ** Histograms *)

Record Entry := mkEntry { en_buckets : list Z; en_sum : float; en_count : Z }.
Record Histogram := mkHistogram {
  hg_name : string; hg_help : string; hg_labels : list string; hg_bounds : list float; hg_data : dict label_key Entry }.
(** 0.005, 0.01, 0.025, 0.05, 0.1, 0.25, 0.5, 1, 2.5, 5 and 10 as floats *)
Definition DEFAULT_BUCKETS : list float :=
  [S754_finite false 5764607523034235 (-60); S754_finite false 5764607523034235 (-59); S754_finite false 7205759403792794 (-58);
   S754_finite false 7205759403792794 (-57); S754_finite false 7205759403792794 (-56); S754_finite false 4503599627370496 (-54);
   S754_finite false 4503599627370496 (-53); S754_finite false 4503599627370496 (-52); S754_finite false 5629499534213120 (-51);
   S754_finite false 5629499534213120 (-50); S754_finite false 5629499534213120 (-49)].
Definition new_histogram (name help : string) (labels : list string) : Histogram := mkHistogram name help labels DEFAULT_BUCKETS [].
Definition init_entry (h : Histogram) : Entry := mkEntry (replicate (length (hg_bounds h)) 0) (float_of_Z 0) 0.
(** One more in the first bucket the value fits into *)
Fixpoint bump (value : float) (bounds : list float) (counts : list Z) : list Z :=
  match bounds, counts with
  | b :: bounds, c :: counts => if fle value b then c + 1 :: counts else c :: bump value bounds counts
  | _, _ => counts
  end.
Definition observe_entry (value : float) (bounds : list float) (e : Entry) : Entry :=
  mkEntry (bump value bounds (en_buckets e)) (fadd (en_sum e) value) (en_count e + 1).
Definition observe (value : float) (labels : dict string string) (h : Histogram) : Histogram :=
  let key := key_of (hg_labels h) labels in
  let entry := dget_or (hg_data h) key (init_entry h) in
  mkHistogram (hg_name h) (hg_help h) (hg_labels h) (hg_bounds h) (dset (hg_data h) key (observe_entry value (hg_bounds h) entry)).
(** The counts added up *)
Fixpoint cumulative (acc : Z) (counts : list Z) : list Z :=
  match counts with [] => [] | c :: counts => acc + c :: cumulative (acc + c) counts end.
Definition histogram_collect (show : float → string) (h : Histogram) : list string :=
  head_lines (hg_name h) (hg_help h) "histogram" ++
  mjoin ((λ ke : label_key * Entry,
    let labels := match hg_labels h with [] => EmptyString | names => label_text names ke.1 end in
    let le bound := "le=" +:+ String DQUOTE (bound +:+ String DQUOTE EmptyString) in
    let bucket bound (n : Z) := hg_name h +:+ "_bucket" +:+
      braces (if is_empty labels then le bound else labels +:+ "," +:+ le bound) +:+ " " +:+ str_of_Z n in
    let suffix := if is_empty labels then EmptyString else braces labels in
    zip_with (λ b n, bucket (show b) n) (hg_bounds h) (cumulative 0 (en_buckets ke.2)) ++
    [bucket "+Inf" (en_count ke.2); hg_name h +:+ "_sum" +:+ suffix +:+ " " +:+ show (en_sum ke.2);
     hg_name h +:+ "_count" +:+ suffix +:+ " " +:+ str_of_Z (en_count ke.2)]) <$> sorted_items (hg_data h)).

(** ** The registry *)

Record MetricsRegistry := mkRegistry {
  blocks_produced_total : Counter; tx_processed_total : Counter; p2p_messages_total : Counter; rpc_requests_total : Counter;
  rpc_request_duration : Histogram; bound_to_node : bool }.
Definition new_registry : MetricsRegistry := mkRegistry
  (new_counter "qbit_blocks_produced_total" "Total blocks produced by this node" [])
  (new_counter "qbit_tx_processed_total" "Total transactions processed" [])
  (new_counter "qbit_p2p_messages_total" "P2P messages by type" ["type"])
  (new_counter "qbit_rpc_requests_total" "RPC requests by method" ["method"])
  (new_histogram "qbit_rpc_request_duration_seconds" "RPC request duration in seconds" ["method"]) false.
(** The attribute of that name, when it is a counter *)
Definition counter_named (r : MetricsRegistry) (name : string) : option Counter :=
  dget [("blocks_produced_total", blocks_produced_total r); ("tx_processed_total", tx_processed_total r);
        ("p2p_messages_total", p2p_messages_total r); ("rpc_requests_total", rpc_requests_total r)] name.
Definition bind_node (r : MetricsRegistry) : MetricsRegistry :=
  mkRegistry (blocks_produced_total r) (tx_processed_total r) (p2p_messages_total r) (rpc_requests_total r) (rpc_request_duration r) true.
(** [generate_text], with what the gauges read of the node *)
Definition generate_text (show : float → string) (r : MetricsRegistry) (chain_height peers pool_size : Z) : string :=
  let nl := String NL EmptyString in
  String.concat nl (String.concat nl <$>
    [counter_collect (blocks_produced_total r); counter_collect (tx_processed_total r); counter_collect (p2p_messages_total r);
     counter_collect (rpc_requests_total r); histogram_collect show (rpc_request_duration r)] ++
    (if bound_to_node r then
       [gauge_collect "qbit_chain_height" "Current chain height" chain_height;
        gauge_collect "qbit_peers_connected" "Number of connected peers" peers;
        gauge_collect "qbit_tx_pool_size" "Pending transactions in mempool" pool_size]
     else [])) +:+ nl.

(** ** Lemmas *)

(** Floats are ordered by exponent, then by mantissa. *)
Lemma fle_finite m1 e1 m2 e2 : fle (S754_finite false m1 e1) (S754_finite false m2 e2) = true ↔ e1 < e2 ∨ e1 = e2 ∧ Zpos m1 <= Zpos m2.
Proof.
  unfold fle, SFleb, SFcompare. destruct (Z.compare_spec e1 e2); [|intuition lia..].
  change (Pos.compare_cont Eq m1 m2) with (Pos.compare m1 m2). destruct (Pos.compare_spec m1 m2); intuition lia.
Qed.
Lemma fle_negative m1 e1 m2 e2 : fle (S754_finite true m1 e1) (S754_finite true m2 e2) = true ↔ e2 < e1 ∨ e1 = e2 ∧ Zpos m2 <= Zpos m1.
Proof.
  unfold fle, SFleb, SFcompare. destruct (Z.compare_spec e1 e2); [|intuition lia..].
  change (Pos.compare_cont Eq m1 m2) with (Pos.compare m1 m2). destruct (Pos.compare_spec m1 m2); cbn; intuition lia.
Qed.
Lemma fle_trans x y z : fle x y = true → fle y z = true → fle x z = true.
Proof.
  destruct x as [[]|[]| |[] m1 e1], y as [[]|[]| |[] m2 e2], z as [[]|[]| |[] m3 e3]; try done;
    rewrite ?fle_finite, ?fle_negative; lia.
Qed.

(** The number of observations up to a bound *)
Definition at_most (b : float) (values : list float) : Z := Z.of_nat (length (filter (λ v, fle v b = true) values)).
Fixpoint ascending (bounds : list float) : Prop :=
  match bounds with b :: ((b' :: _) as rest) => fle b b' = true ∧ ascending rest | _ => True end.
Lemma default_ascending : ascending DEFAULT_BUCKETS.
Proof. repeat split. Qed.
Lemma ascending_all b bounds : ascending (b :: bounds) → Forall (λ b', fle b b' = true) bounds ∧ ascending bounds.
Proof.
  revert b. induction bounds as [|b' bounds IH]; intros b; [done|]. intros [Hb Hr]. split; [|done]. constructor; [done|].
  destruct (IH b' Hr) as [Hall _]. eapply list.Forall_impl; [exact Hall|]. intros x Hx. by eapply fle_trans.
Qed.
Lemma cumulative_length acc counts : length (cumulative acc counts) = length counts.
Proof. revert acc. induction counts; intros; cbn; auto. Qed.
Lemma cumulative_shift acc d counts : cumulative (acc + d) counts = (λ c, c + d) <$> cumulative acc counts.
Proof.
  revert acc. induction counts as [|c counts IH]; intros acc; [done|]. cbn. f_equal; [lia|].
  by replace (acc + d + c) with (acc + c + d) by lia.
Qed.
Lemma bump_length v bounds counts : length (bump v bounds counts) = length counts.
Proof. revert counts. induction bounds; intros [|c counts]; cbn; try done. case_match; cbn; auto. Qed.
(** An observation counts, added up, in every bucket whose bound it is up to. *)
Lemma cumulative_bump v bounds counts acc : ascending bounds → length counts = length bounds →
  cumulative acc (bump v bounds counts) =
  zip_with (λ b c, if fle v b then c + 1 else c) bounds (cumulative acc counts).
Proof.
  revert counts acc. induction bounds as [|b bounds IH]; intros [|c counts] acc Hb Hl; try done. cbn [bump cumulative zip_with].
  destruct (ascending_all _ _ Hb) as [Hall Hr]. destruct (fle v b) eqn:Ev; cbn [cumulative]; f_equal; [lia| |apply IH; [done|by injection Hl]].
  replace (acc + (c + 1)) with (acc + c + 1) by lia. rewrite cumulative_shift. injection Hl as Hl.
  assert (Hlen : length (cumulative (acc + c) counts) = length bounds) by by rewrite cumulative_length.
  revert Hlen. generalize (cumulative (acc + c) counts). clear -Hall Ev. intros l. revert bounds Hall.
  induction l as [|x l IH]; intros [|b' bounds] Hall Hl; try done. apply list.Forall_cons_1 in Hall as [Hb Hall].
  cbn. rewrite (fle_trans v b b' Ev Hb). f_equal. apply IH; [done|by injection Hl].
Qed.

Definition entry_ok (bounds values : list float) (e : Entry) : Prop :=
  length (en_buckets e) = length bounds ∧ cumulative 0 (en_buckets e) = (λ b, at_most b values) <$> bounds ∧
  en_count e = Z.of_nat (length values).
Lemma init_ok h : entry_ok (hg_bounds h) [] (init_entry h).
Proof.
  split_and!; cbn; [apply length_replicate| |done]. induction (hg_bounds h) as [|b l IH]; [done|]. cbn. f_equal. exact IH.
Qed.
Lemma observe_ok v bounds values e : ascending bounds → entry_ok bounds values e → entry_ok bounds (values ++ [v]) (observe_entry v bounds e).
Proof.
  intros Hb (Hl & Hc & Hn). split_and!; cbn; [by rewrite bump_length| |rewrite length_app; cbn; lia].
  rewrite cumulative_bump, Hc by done. clear. induction bounds as [|b l IH]; [done|]. cbn. f_equal; [|done].
  unfold at_most. rewrite list.filter_app, length_app, list.filter_cons, list.filter_nil.
  case_decide as Ev; destruct (fle v b); try done; cbn [length]; lia.
Qed.
(** Any observations, one after the other *)
Definition observe_all (h : Histogram) (obs : list (float * dict string string)) : Histogram :=
  foldl (λ h o, observe o.1 o.2 h) h obs.
(** Those under a key *)
Definition values_of (names : list string) (key : label_key) (obs : list (float * dict string string)) : list float :=
  (filter (λ o, key_of names o.2 = key) obs).*1.
Lemma observe_all_ok h obs0 obs : ascending (hg_bounds h) →
  (∀ key e, dget (hg_data h) key = Some e → entry_ok (hg_bounds h) (values_of (hg_labels h) key obs0) e) →
  (∀ key, dget (hg_data h) key = None → values_of (hg_labels h) key obs0 = []) →
  let h' := observe_all h obs in
  hg_bounds h' = hg_bounds h ∧ hg_labels h' = hg_labels h ∧
  (∀ key e, dget (hg_data h') key = Some e → entry_ok (hg_bounds h) (values_of (hg_labels h) key (obs0 ++ obs)) e).
Proof.
  revert h obs0. induction obs as [|[v ls] obs IH]; intros h obs0 Hb Hs Hn; cbn zeta.
  { split_and!; [done..|]. intros key e. rewrite app_nil_r. apply Hs. }
  change (observe_all h ((v, ls) :: obs)) with (observe_all (observe v ls h) obs).
  assert (Hvals : ∀ key, values_of (hg_labels h) key (obs0 ++ [(v, ls)]) =
    values_of (hg_labels h) key obs0 ++ if decide (key_of (hg_labels h) ls = key) then [v] else []).
  { intros key. unfold values_of. rewrite list.filter_app, fmap_app, list.filter_cons, list.filter_nil. cbn [snd].
    by case_decide. }
  destruct (IH (observe v ls h) (obs0 ++ [(v, ls)])) as (H1 & H2 & H3); [done| | |].
  - intros key e. cbn [observe hg_data hg_bounds hg_labels]. rewrite dget_dset, Hvals.
    destruct (decide _) as [E|E]; case_decide as E'; try congruence; [|rewrite app_nil_r; apply Hs].
    intros [= <-]. apply observe_ok; [done|]. subst key. unfold dget_or.
    destruct (dget (hg_data h) _) as [e|] eqn:Ee; [by apply Hs|]. rewrite Hn by done. apply init_ok.
  - intros key. cbn [observe hg_data hg_labels]. rewrite dget_dset, Hvals.
    destruct (decide _) as [E|E]; case_decide as E'; try congruence. rewrite app_nil_r. apply Hn.
  - split_and!; [done..|]. intros key e He. specialize (H3 key e He). by rewrite <-app_assoc in H3.
Qed.

(** ** Properties *)

(** The histogram counts as a count of the observations would: whatever
    was observed under whatever labels, for each combination of labels the line
    of every bound gives the number of observations up to that bound and the
    last line the number of all of them. *)
Theorem histogram_buckets_exact (name help : string) (labels : list string) (obs : list (float * dict string string))
  (key : label_key) (e : Entry) (He : dget (hg_data (observe_all (new_histogram name help labels) obs)) key = Some e) :
  cumulative 0 (en_buckets e) = (λ b, at_most b (values_of labels key obs)) <$> DEFAULT_BUCKETS ∧
  en_count e = Z.of_nat (length (values_of labels key obs)).
Proof.
  destruct (observe_all_ok (new_histogram name help labels) [] obs default_ascending) as (_ & _ & H); [done|done|].
  by destruct (H key e He) as (_ & H1 & H2).
Qed.
(** The registry has no counter of refused blocks, which the node increments. *)
Lemma no_refusal_counter : counter_named new_registry "block_validation_errors_total" = None.
Proof. reflexivity. Qed.

Definition sample_observations : list (float * dict string string) :=
  [(float_of_Z 1, [("method", "qv_getBlock")]); (float_of_Z 3, [("method", "qv_getBlock")]); (float_of_Z 20, [("method", "qv_stake")])].
Lemma histogram_buckets_exact_witness : ∃ e,
  dget (hg_data (observe_all (new_histogram "t" "seconds" ["method"]) sample_observations)) ["qv_getBlock"] = Some e ∧
  cumulative 0 (en_buckets e) = (λ b, at_most b (values_of ["method"] ["qv_getBlock"] sample_observations)) <$> DEFAULT_BUCKETS ∧
  en_count e = Z.of_nat (length (values_of ["method"] ["qv_getBlock"] sample_observations)).
Proof.
  eexists. split; [vm_compute; reflexivity|].
  exact (histogram_buckets_exact "t" "seconds" ["method"] sample_observations ["qv_getBlock"] _ eq_refl).
Defined.
