(* ===== verification/Codec.v ===== *)
(** * The wire format of peer messages

    [network/codec.py] and the two ends of a connection in [network/p2p.py]
    that use it: [Peer.send] and [P2PNode._read_message].  A message is a type
    and a dictionary.  In JSON it travels as a line; in msgpack as a frame, a
    four byte length and a payload, in which the hexadecimal fields of
    [_BINARY_FIELDS] are raw bytes.

    msgpack itself, [bytes.decode] and the text of a float are the class
    [Wire]; what reading a message back needs of them is [WireLaws]. *)
From S2P Require Import Prelude PyStr Json JsonText.
Open Scope Z_scope.

(** What msgpack carries: the values of JSON and byte strings *)
Inductive WVal :=
  | WNull
  | WBool (b : bool)
  | WInt (z : Z)
  | WFloat (repr : string)
  | WStr (s : string)
  | WBytes (b : string)
  | WList (l : list WVal)
  | WObj (d : list (string * WVal)).

Fixpoint wire_val (v : JVal) : WVal :=
  match v with
  | JNull => WNull | JBool b => WBool b | JInt z => WInt z | JFloat r => WFloat r | JStr s => WStr s
  | JList l => WList (List.map wire_val l)
  | JObj d => WObj (List.map (λ kv, (kv.1, wire_val kv.2)) d)
  end.
(** The other way, when no bytes are left *)
Fixpoint plain_val (v : WVal) : option JVal :=
  match v with
  | WNull => Some JNull | WBool b => Some (JBool b) | WInt z => Some (JInt z) | WFloat r => Some (JFloat r)
  | WStr s => Some (JStr s) | WBytes _ => None
  | WList l => JList <$> foldr (λ o acc, x ← o; y ← acc; Some (x :: y)) (Some []) (List.map plain_val l)
  | WObj d => JObj <$> foldr (λ o acc, x ← o.2; y ← acc; Some ((o.1, x) :: y)) (Some [])
                         (List.map (λ kv, (kv.1, plain_val kv.2)) d)
  end.

Class Wire := {
  (** whether msgpack is installed *)
  HAS_MSGPACK : bool;
  (** [msgpack.packb(v, use_bin_type=True)] *)
  packb : WVal → result string;
  (** [msgpack.unpackb(raw, raw=False)] *)
  unpackb : string → option WVal;
  (** [bytes.decode('utf-8')] *)
  decode_utf8 : string → option string;
  wire_float : PyFloat;
}.
#[export] Existing Instance wire_float.
Class WireLaws (W : Wire) : Prop := {
  unpack_pack v raw : packb v = Ok raw → unpackb raw = Some v ∧ raw ≠ EmptyString;
  decode_ascii s : all_chars (in_range 0 127) s = true → decode_utf8 s = Some s }.

Definition BINARY_FIELDS : list string :=
  ["signature"; "sender_pubkey"; "signing_pk"; "encryption_pk"; "challenge"; "challenge_sig"; "counter_challenge";
   "ciphertext"; "validator_pubkey"].
Definition MAX_FRAME_SIZE : Z := 10 * 1024 * 1024.
Definition is_binary (k : string) : bool := bool_decide (k ∈ BINARY_FIELDS).

(** *** Hexadecimal fields and bytes *)

(** What becomes of a field by its name and type, when that decides it *)
Definition packed_field (k : string) (v : WVal) : option WVal :=
  match v with
  | WStr s => if is_binary k then Some (match fromhex s with Some b => WBytes b | None => WStr s end) else None
  | _ => None
  end.
Fixpoint hex_to_bytes (depth : Z) (v : WVal) : WVal :=
  if 10 <? depth then v
  else match v with
       | WObj d => WObj (List.map (λ kv, (kv.1, match packed_field kv.1 kv.2 with
                                                  | Some w => w
                                                  | None => hex_to_bytes (depth + 1) kv.2
                                                  end)) d)
       | WList l => WList (List.map (hex_to_bytes (depth + 1)) l)
       | _ => v
       end.
Definition unpacked_field (k : string) (v : WVal) : option WVal :=
  match v with WBytes b => if is_binary k then Some (WStr (hex b)) else None | _ => None end.

Section Codec.
Context `{W : Wire}.

Fixpoint bytes_to_hex (depth : Z) (v : WVal) : WVal :=
  if 10 <? depth then v
  else match v with
       | WObj d => WObj (List.map (λ kv, (kv.1, match unpacked_field kv.1 kv.2 with
                                                  | Some w => w
                                                  | None => bytes_to_hex (depth + 1) kv.2
                                                  end)) d)
       | WList l => WList (List.map (bytes_to_hex (depth + 1)) l)
       | WBytes b => WStr (match decode_utf8 b with Some s => s | None => hex b end)
       | _ => v
       end.

(** ** Encoding and decoding *)

(** [MessageCodec(wire_format)]: the format it works in *)
Definition new_codec (wire : string) : result string :=
  guard (negb (bool_decide (wire ∈ ["json"; "msgpack"]))) "unknown wire_format" (
  Ok (if bool_decide (wire = "msgpack") && negb HAS_MSGPACK then "json" else wire)).
Definition msg_obj (mt : string) (data : dict string JVal) : JVal := JObj [("type", JStr mt); ("data", JObj data)].
Definition LINE_END : string := String NL EmptyString.
Definition encode (wire mt : string) (data : dict string JVal) : result string :=
  if bool_decide (wire = "msgpack") then
    payload ← packb (hex_to_bytes 0 (wire_val (msg_obj mt data)));
    guard (MAX_FRAME_SIZE <? str_len payload) "frame too large" (
    Ok (be_bytes 4 (str_len payload) +:+ payload))
  else Ok (print (msg_obj mt data) +:+ LINE_END).
(** [obj.get("type", ""), obj.get("data", {})] *)
Definition type_and_data (v : WVal) : option (WVal * WVal) :=
  match v with
  | WObj d => Some (dget_or d "type" (WStr EmptyString), dget_or d "data" (WObj []))
  | _ => None
  end.
(** [json.loads(raw.decode('utf-8').strip())] *)
Definition json_loads (raw : string) : option JVal := s ← decode_utf8 raw; loads (strip s).
Definition decode (wire raw : string) : option (WVal * WVal) :=
  if bool_decide (wire = "msgpack") then v ← unpackb raw; type_and_data (bytes_to_hex 0 v)
  else v ← json_loads raw; type_and_data (wire_val v).
Definition negotiate (local_version remote_version : Z) (local_wire : string) (remote_wire : JVal) : string :=
  if (4 <=? local_version) && (4 <=? remote_version) && bool_decide (local_wire = "msgpack")
     && bool_decide (remote_wire = JStr "msgpack") && HAS_MSGPACK
  then "msgpack" else "json".
Definition preferred_wire_format : string := if HAS_MSGPACK then "msgpack" else "json".

(** ** The two ends of a connection *)

(** [Peer.send]: the bytes written to a peer whose format is [wire] *)
Definition sent_bytes (wire mt : string) (data : dict string JVal) : result string :=
  if bool_decide (wire = "msgpack") then format ← new_codec "msgpack"; encode format mt data
  else Ok (print_spaced (msg_obj mt data) +:+ LINE_END).

(** [reader.readline()]: a line with its end, and what follows *)
Fixpoint readline (stream : string) : string * string :=
  match stream with
  | EmptyString => (EmptyString, EmptyString)
  | String c rest => if bool_decide (c = NL) then (String c EmptyString, rest)
                     else let (line, rest) := readline rest in (String c line, rest)
  end.
(** [reader.readexactly(n)] *)
Definition readexactly (n : Z) (stream : string) : option (string * string) :=
  if str_len stream <? n then None else Some (str_take (Z.to_nat n) stream, str_drop (Z.to_nat n) stream).
(** The next message and the rest of the stream; [None] ends the connection. *)
Definition read_message (wire stream : string) : option ((WVal * WVal) * string) :=
  if bool_decide (wire = "msgpack") then
    '(header, rest) ← readexactly 4 stream;
    let length := from_bytes header in
    if (length =? 0) || (MAX_FRAME_SIZE <? length) then None
    else
      '(payload, rest) ← readexactly length rest;
      match new_codec "msgpack" with
      | Ok format => msg ← decode format payload; Some (msg, rest)
      | Raise _ => None
      end
  else
    let (line, rest) := readline stream in
    if is_empty line then None
    else v ← json_loads line; msg ← type_and_data (wire_val v); Some (msg, rest).
End Codec.

(** ** Laws *)

(** Every hexadecimal field the codec converts is in the form [bytes.hex] gives. *)
Definition canonical_field (k : string) (v : JVal) : option bool :=
  match v with
  | JStr s => if is_binary k then Some (match fromhex s with Some b => bool_decide (hex b = s) | None => true end) else None
  | _ => None
  end.
Fixpoint canonical (depth : Z) (v : JVal) : bool :=
  if 10 <? depth then true
  else match v with
       | JObj d => forallb (λ kv, match canonical_field kv.1 kv.2 with
                                  | Some ok => ok
                                  | None => canonical (depth + 1) kv.2
                                  end) d
       | JList l => forallb (canonical (depth + 1)) l
       | _ => true
       end.

Section Laws.
Context `{W : Wire}.
Lemma field_back depth k v : canonical_field k v = Some true →
  ∃ w, packed_field k (wire_val v) = Some w ∧
  (unpacked_field k w = Some (wire_val v) ∨ (unpacked_field k w = None ∧ bytes_to_hex depth w = wire_val v)).
Proof.
  destruct v as [| | | |s| |]; try done. unfold canonical_field, packed_field. cbn [wire_val].
  destruct (is_binary k) eqn:Hk; [|done]. intros Hs. exists (match fromhex s with Some b => WBytes b | None => WStr s end).
  split; [done|]. destruct (fromhex s) as [b|].
  - left. cbn. rewrite Hk. injection Hs as Hs%bool_decide_eq_true. by rewrite Hs.
  - right. split; [done|]. cbn. by destruct (10 <? depth).
Qed.
Lemma field_left k v : canonical_field k v = None → packed_field k (wire_val v) = None.
Proof. destruct v; try done. cbn. by destruct (is_binary k). Qed.
Lemma unpacked_plain k v depth : packed_field k (wire_val v) = None →
  unpacked_field k (hex_to_bytes depth (wire_val v)) = None.
Proof. by destruct v; cbn; destruct (10 <? depth). Qed.
Lemma map_id_in {A} (f : A → A) l : Forall (λ x, f x = x) l → List.map f l = l.
Proof. induction 1 as [|x l Hx _ IH]; [done|]. cbn. by rewrite Hx, IH. Qed.

(** Converting there and back changes nothing in a canonical message. *)
Lemma bytes_and_back v : ∀ depth, canonical depth v = true → bytes_to_hex depth (hex_to_bytes depth (wire_val v)) = wire_val v.
Proof.
  induction v as [| | | | |l IH|d IH] using JVal_nested_ind; intros depth Hc;
    cbn [wire_val hex_to_bytes] in *; destruct (10 <? depth) eqn:Hd; try (cbn; by rewrite ?Hd).
  - cbn [bytes_to_hex]. rewrite Hd. f_equal. rewrite !List.map_map. cbn [canonical] in Hc. rewrite Hd in Hc.
    apply List.map_ext_in. intros v Hv. rewrite forallb_forall in Hc. rewrite List.Forall_forall in IH. by apply IH, Hc.
  - cbn [bytes_to_hex]. rewrite Hd. f_equal. rewrite !List.map_map. cbn [canonical] in Hc. rewrite Hd in Hc.
    apply List.map_ext_in. intros [k v] Hv. rewrite forallb_forall in Hc. rewrite List.Forall_forall in IH.
    specialize (Hc _ Hv). specialize (IH _ Hv). cbn [fst snd] in *. f_equal.
    destruct (canonical_field k v) as [ok|] eqn:Hf.
    + subst ok. destruct (field_back (depth + 1) k v Hf) as (w & -> & [->|[-> ->]]); done.
    + rewrite (field_left k v Hf), unpacked_plain by (by apply field_left). by apply IH.
Qed.

Lemma readexactly_app n s rest : str_len s = n → readexactly n (s +:+ rest) = Some (s, rest).
Proof.
  intros <-. unfold readexactly. rewrite str_len_app.
  assert (0 <= str_len rest) by (unfold str_len; lia). destruct (Z.ltb_spec (str_len s + str_len rest) (str_len s)); [lia|].
  unfold str_len. by rewrite Nat2Z.id, str_take_app, str_drop_app.
Qed.

(** A line of JSON read as a frame: its first four bytes are no length. *)
Definition line_head : string := str_take 4 (print_spaced (msg_obj EmptyString [])).
Lemma line_starts mt data : ∃ s, print_spaced (msg_obj mt data) = line_head +:+ s.
Proof. eexists (str_drop 4 _). symmetry. apply (str_take_drop 4 (print_spaced (msg_obj mt data))). Qed.
Lemma json_line_no_frame mt data rest : read_message "msgpack" (print_spaced (msg_obj mt data) +:+ rest) = None.
Proof.
  destruct (line_starts mt data) as [s ->]. rewrite string_app_assoc. unfold read_message. cbn [bool_decide decide_rel].
  rewrite bool_decide_eq_true_2 by done. by rewrite readexactly_app.
Qed.
Lemma codec_msgpack : HAS_MSGPACK = true → new_codec "msgpack" = Ok "msgpack".
Proof. unfold new_codec. intros ->. reflexivity. Qed.
(** What is written to a peer in msgpack is one frame. *)
Lemma sent_frame mt data raw : HAS_MSGPACK = true → sent_bytes "msgpack" mt data = Ok raw →
  ∃ payload, packb (hex_to_bytes 0 (wire_val (msg_obj mt data))) = Ok payload ∧ str_len payload <= MAX_FRAME_SIZE ∧
    raw = be_bytes 4 (str_len payload) +:+ payload.
Proof.
  intros Hm. unfold sent_bytes. rewrite codec_msgpack by done. rewrite bool_decide_eq_true_2 by done.
  cbn [mbind result_bind]. unfold encode. rewrite bool_decide_eq_true_2 by done. destruct (packb _) as [payload|]; [|done].
  cbn [mbind result_bind]. unfold guard. destruct (Z.ltb_spec MAX_FRAME_SIZE (str_len payload)); [done|].
  intros [= <-]. by exists payload.
Qed.
Lemma frame_read `{!WireLaws W} mt data raw rest : HAS_MSGPACK = true → canonical 0 (msg_obj mt data) = true →
  sent_bytes "msgpack" mt data = Ok raw →
  read_message "msgpack" (raw +:+ rest) = Some ((WStr mt, wire_val (JObj data)), rest).
Proof.
  intros Hm Hc Hraw. destruct (sent_frame mt data raw Hm Hraw) as (payload & Hp & Hmax & ->).
  destruct (unpack_pack _ _ Hp) as [Hu Hne]. unfold read_message. rewrite string_app_assoc, bool_decide_eq_true_2 by done.
  rewrite readexactly_app by (unfold str_len; by rewrite be_bytes_length). cbn [mbind option_bind].
  assert (0 < str_len payload) by (destruct payload; [done|]; unfold str_len; cbn [String.length]; lia).
  rewrite from_be_bytes by (unfold MAX_FRAME_SIZE in Hmax; lia).
  destruct (Z.eqb_spec (str_len payload) 0); [lia|]. destruct (Z.ltb_spec MAX_FRAME_SIZE (str_len payload)); [lia|].
  cbn [orb]. rewrite readexactly_app by done. cbn [mbind option_bind]. rewrite codec_msgpack by done.
  unfold decode. rewrite bool_decide_eq_true_2 by done. rewrite Hu. cbn [mbind option_bind].
  by rewrite (bytes_and_back (msg_obj mt data) 0 Hc).
Qed.
(** A JSON line is read up to its end. *)
Lemma printable_line : ∀ c : ascii, implb (printable c) (in_range 0 127 c && negb (bool_decide (c = NL))) = true.
Proof. by_chars. Qed.
Lemma readline_app s rest : all_chars printable s = true → readline (s +:+ LINE_END +:+ rest) = (s +:+ LINE_END, rest).
Proof.
  induction s as [|c s IH]; [done|]. cbn [all_chars]. intros [Hc Hs]%andb_prop. rewrite !string_app_cons. cbn [readline].
  pose proof (printable_line c) as P. rewrite Hc in P. apply andb_prop in P as [_ P%negb_true_iff]. rewrite P. by rewrite IH.
Qed.
Lemma line_read `{!WireLaws W} wire mt data raw rest : bool_decide (wire = "msgpack") = false → text_ok (msg_obj mt data) = true →
  sent_bytes wire mt data = Ok raw → read_message wire (raw +:+ rest) = Some ((WStr mt, wire_val (JObj data)), rest).
Proof.
  intros Hw Hok. unfold sent_bytes, read_message. rewrite Hw. intros [= <-].
  pose proof (print_sep_printable " " _ eq_refl Hok) as P. fold print_spaced in P.
  rewrite string_app_assoc, readline_app by done. destruct (is_empty _) eqn:E.
  { destruct (print_spaced (msg_obj mt data)); discriminate E. }
  unfold json_loads. rewrite decode_ascii.
  - cbn [mbind option_bind]. unfold LINE_END. rewrite strip_line by done.
    pose proof (loads_text (msg_obj mt data) EmptyString Hok eq_refl) as [_ R]. rewrite string_app_nil in R. by rewrite R.
  - rewrite all_chars_app, andb_true_iff. split; [|done]. eapply implb_all; [|exact P].
    intros c. pose proof (printable_line c). destruct (printable c); [|done]. cbn in *. by apply andb_prop in H as [-> _].
Qed.
End Laws.

(** ** Properties *)


(** ** A concrete wire *)

(** Values as trees of labels, trees as the bits of a number *)
Module ToyWire.
Section Ind.
Context (P : WVal → Prop) (Hnull : P WNull) (Hbool : ∀ b, P (WBool b)) (Hint : ∀ z, P (WInt z)) (Hfloat : ∀ r, P (WFloat r))
  (Hstr : ∀ s, P (WStr s)) (Hbytes : ∀ b, P (WBytes b)) (Hlist : ∀ l, Forall P l → P (WList l))
  (Hobj : ∀ d, Forall (λ kv, P kv.2) d → P (WObj d)).
Fixpoint WVal_nested_ind (v : WVal) : P v :=
  match v with
  | WNull => Hnull | WBool b => Hbool b | WInt z => Hint z | WFloat r => Hfloat r | WStr s => Hstr s | WBytes b => Hbytes b
  | WList l => Hlist l ((fix go l := match l return Forall P l with
      | [] => @Forall_nil _ P
      | x :: l' => @Forall_cons _ P x l' (WVal_nested_ind x) (go l') end) l)
  | WObj d => Hobj d ((fix go d := match d return Forall (λ kv, P kv.2) d with
      | [] => @Forall_nil _ (λ kv, P kv.2)
      | kv :: d' => @Forall_cons _ (λ kv, P kv.2) kv d' (WVal_nested_ind kv.2) (go d') end) d)
  end.
End Ind.
Abbreviation tree := (gen_tree (nat * Z * string)).
Fixpoint to_tree (v : WVal) : tree :=
  match v with
  | WNull => GenLeaf (0%nat, 0, EmptyString)
  | WBool b => GenLeaf (1%nat, if b then 1 else 0, EmptyString)
  | WInt z => GenLeaf (2%nat, z, EmptyString)
  | WFloat r => GenLeaf (3%nat, 0, r)
  | WStr s => GenLeaf (4%nat, 0, s)
  | WBytes b => GenLeaf (5%nat, 0, b)
  | WList l => GenNode 0 (List.map to_tree l)
  | WObj d => GenNode 1 (List.map (λ kv, GenNode 2 [GenLeaf (6%nat, 0, kv.1); to_tree kv.2]) d)
  end.
Fixpoint of_tree (t : tree) : WVal :=
  match t with
  | GenLeaf (0%nat, _, _) => WNull
  | GenLeaf (1%nat, z, _) => WBool (z =? 1)
  | GenLeaf (2%nat, z, _) => WInt z
  | GenLeaf (3%nat, _, s) => WFloat s
  | GenLeaf (4%nat, _, s) => WStr s
  | GenLeaf (_, _, s) => WBytes s
  | GenNode 0 l => WList (List.map of_tree l)
  | GenNode _ l => WObj (List.map (λ n, match n with
                                        | GenNode _ [GenLeaf (_, _, k); t] => (k, of_tree t)
                                        | _ => (EmptyString, WNull)
                                        end) l)
  end.
Lemma of_to_tree v : of_tree (to_tree v) = v.
Proof.
  induction v as [| [] | | | | |l IH|d IH] using WVal_nested_ind; try done; cbn [to_tree of_tree]; f_equal; rewrite List.map_map.
  - by apply map_id_in.
  - apply map_id_in. apply (list.Forall_impl _ _ _ IH). intros [k v] Hv. cbn in *. by rewrite Hv.
Qed.
Fixpoint bits (p : positive) : string :=
  match p with xH => "." | xO p => String "0" (bits p) | xI p => String "1" (bits p) end.
Fixpoint of_bits (s : string) : positive :=
  match s with
  | String c s => if bool_decide (c = "0"%char) then xO (of_bits s) else if bool_decide (c = "1"%char) then xI (of_bits s) else xH
  | EmptyString => xH
  end.
Lemma of_to_bits p : of_bits (bits p) = p.
Proof. induction p as [p IH|p IH|]; cbn; by rewrite ?IH. Qed.
Definition pack (v : WVal) : string := bits (countable.encode (to_tree v)).
Definition unpack (s : string) : option WVal := of_tree <$> countable.decode (of_bits s).
#[export] Instance wire : Wire :=
  {| HAS_MSGPACK := true; packb := λ v, Ok (pack v); unpackb := unpack; decode_utf8 := λ b, Some b; wire_float := λ r, r |}.
#[export] Instance laws : WireLaws wire.
Proof.
  split; [|done]. intros v raw [= <-]. split.
  - cbn. unfold unpack, pack. rewrite of_to_bits, decode_encode. cbn. by rewrite of_to_tree.
  - unfold pack. by destruct (countable.encode (to_tree v)).
Qed.
Definition data : dict string JVal := [("height", JInt 7); ("signature", JStr "0aff"); ("items", JList [JNull; JBool true])].
Abbreviation frame := (match sent_bytes "msgpack" "new_tx" data with Ok raw => raw | Raise _ => EmptyString end).
Abbreviation line := (match sent_bytes "json" "new_tx" data with Ok raw => raw | Raise _ => EmptyString end).
End ToyWire.

#[local] Existing Instance ToyWire.wire.
#[local] Existing Instance ToyWire.laws.
