(* ===== verification/P2P.v ===== *)
(** * Peer connections

    [network/p2p.py]: the authenticated handshake between two validators, the
    encrypted channel, the removal of duplicate connections, the limits, and
    the message loops of inbound and outbound connections up to the dispatch of
    a message to its handler.  [Peer] objects live in a store and the peer table
    maps keys to them, since a connection is reached through both.  What is
    sent to a peer, with the format it is sent in, and what is dispatched is
    collected in order.  A node is run as a list of events, each one handler
    from its start to its end.

    Parameters: the address checks of the [ipaddress] module, and those of
    [Wire].  Random bytes and clock readings are arguments.  A message whose
    type is not a string or whose data is not a dictionary, and a handshake
    whose timestamp is a float, are refused here. *)
From Stdlib Require Import Floats.SpecFloat.
From S2P Require Import Prelude PyStr Json JsonText Config Crypto Wallet Transaction Sdk WalletFile Mlkem Limits Codec.
Open Scope Z_scope.

Class P2PEnv := {
  (** [_is_safe_inbound_ip], a test of the [ipaddress] module *)
  safe_inbound_ip : string → bool;
}.

Definition PROTOCOL_VERSION : Z := 4.
Definition MAX_PEERS : Z := 50.
Definition P2P_RATE_VIOLATIONS_MAX : Z := 3.
Definition AUTH_DOMAIN : string := "QBIT_AUTH_v2:".
Definition AUTH_TIMEOUT : float := float_of_Z 10.
Definition CHALLENGE_LEN : Z := 32.
Definition AUTH_RATE_MAX : Z := 5.
Definition AUTH_RATE_WINDOW : float := float_of_Z 60.
Definition AUTH_ATTEMPTS_CAP : Z := 10000.
Definition BLOCKED_PORTS : list Z := [22; 23; 25; 53; 80; 443; 445; 3306; 5432; 6379; 8080; 8443].
Definition RATE_EXEMPT : list string :=
  ["hello"; "hello_auth"; "auth_response"; "auth_confirm"; "session_key"; "encrypted"].
Definition AUTH_REQUIRED_MSGS : list string :=
  ["new_block"; "new_tx"; "get_blocks"; "blocks"; "get_chain_info"; "chain_info"; "get_headers"; "headers";
   "get_block_bodies"; "block_bodies"].

(** ** State *)

Record Peer := mkPeer {
  host : string;
  port : Z;
  node_id : JVal;
  connected : bool;
  height : Z;
  authenticated : bool;
  protocol_version : Z;
  challenge : string;
  remote_pubkey : string;
  auth_deadline : float;
  is_validator : bool;
  session_key : option string;
  encrypted : bool;
  encryption_pk : option string;
  wire_format : string;
  pending_wire_format : JVal;
  is_initiator : bool;
  remote_address : string;
}.
#[export] Instance set_host : Setter host := λ f x, mkPeer (f (host x)) (port x) (node_id x) (connected x) (height x)
  (authenticated x) (protocol_version x) (challenge x) (remote_pubkey x) (auth_deadline x) (is_validator x)
  (session_key x) (encrypted x) (encryption_pk x) (wire_format x) (pending_wire_format x) (is_initiator x)
  (remote_address x).
#[export] Instance set_port : Setter port := λ f x, mkPeer (host x) (f (port x)) (node_id x) (connected x) (height x)
  (authenticated x) (protocol_version x) (challenge x) (remote_pubkey x) (auth_deadline x) (is_validator x)
  (session_key x) (encrypted x) (encryption_pk x) (wire_format x) (pending_wire_format x) (is_initiator x)
  (remote_address x).
#[export] Instance set_node_id : Setter node_id := λ f x, mkPeer (host x) (port x) (f (node_id x)) (connected x)
  (height x) (authenticated x) (protocol_version x) (challenge x) (remote_pubkey x) (auth_deadline x) (is_validator x)
  (session_key x) (encrypted x) (encryption_pk x) (wire_format x) (pending_wire_format x) (is_initiator x)
  (remote_address x).
#[export] Instance set_connected : Setter connected := λ f x, mkPeer (host x) (port x) (node_id x) (f (connected x))
  (height x) (authenticated x) (protocol_version x) (challenge x) (remote_pubkey x) (auth_deadline x) (is_validator x)
  (session_key x) (encrypted x) (encryption_pk x) (wire_format x) (pending_wire_format x) (is_initiator x)
  (remote_address x).
#[export] Instance set_height : Setter height := λ f x, mkPeer (host x) (port x) (node_id x) (connected x)
  (f (height x)) (authenticated x) (protocol_version x) (challenge x) (remote_pubkey x) (auth_deadline x)
  (is_validator x) (session_key x) (encrypted x) (encryption_pk x) (wire_format x) (pending_wire_format x)
  (is_initiator x) (remote_address x).
#[export] Instance set_authenticated : Setter authenticated := λ f x, mkPeer (host x) (port x) (node_id x)
  (connected x) (height x) (f (authenticated x)) (protocol_version x) (challenge x) (remote_pubkey x)
  (auth_deadline x) (is_validator x) (session_key x) (encrypted x) (encryption_pk x) (wire_format x)
  (pending_wire_format x) (is_initiator x) (remote_address x).
#[export] Instance set_protocol_version : Setter protocol_version := λ f x, mkPeer (host x) (port x) (node_id x)
  (connected x) (height x) (authenticated x) (f (protocol_version x)) (challenge x) (remote_pubkey x)
  (auth_deadline x) (is_validator x) (session_key x) (encrypted x) (encryption_pk x) (wire_format x)
  (pending_wire_format x) (is_initiator x) (remote_address x).
#[export] Instance set_challenge : Setter challenge := λ f x, mkPeer (host x) (port x) (node_id x) (connected x)
  (height x) (authenticated x) (protocol_version x) (f (challenge x)) (remote_pubkey x) (auth_deadline x)
  (is_validator x) (session_key x) (encrypted x) (encryption_pk x) (wire_format x) (pending_wire_format x)
  (is_initiator x) (remote_address x).
#[export] Instance set_remote_pubkey : Setter remote_pubkey := λ f x, mkPeer (host x) (port x) (node_id x)
  (connected x) (height x) (authenticated x) (protocol_version x) (challenge x) (f (remote_pubkey x))
  (auth_deadline x) (is_validator x) (session_key x) (encrypted x) (encryption_pk x) (wire_format x)
  (pending_wire_format x) (is_initiator x) (remote_address x).
#[export] Instance set_auth_deadline : Setter auth_deadline := λ f x, mkPeer (host x) (port x) (node_id x)
  (connected x) (height x) (authenticated x) (protocol_version x) (challenge x) (remote_pubkey x)
  (f (auth_deadline x)) (is_validator x) (session_key x) (encrypted x) (encryption_pk x) (wire_format x)
  (pending_wire_format x) (is_initiator x) (remote_address x).
#[export] Instance set_is_validator : Setter is_validator := λ f x, mkPeer (host x) (port x) (node_id x) (connected x)
  (height x) (authenticated x) (protocol_version x) (challenge x) (remote_pubkey x) (auth_deadline x)
  (f (is_validator x)) (session_key x) (encrypted x) (encryption_pk x) (wire_format x) (pending_wire_format x)
  (is_initiator x) (remote_address x).
#[export] Instance set_session_key : Setter session_key := λ f x, mkPeer (host x) (port x) (node_id x) (connected x)
  (height x) (authenticated x) (protocol_version x) (challenge x) (remote_pubkey x) (auth_deadline x) (is_validator x)
  (f (session_key x)) (encrypted x) (encryption_pk x) (wire_format x) (pending_wire_format x) (is_initiator x)
  (remote_address x).
#[export] Instance set_encrypted : Setter encrypted := λ f x, mkPeer (host x) (port x) (node_id x) (connected x)
  (height x) (authenticated x) (protocol_version x) (challenge x) (remote_pubkey x) (auth_deadline x) (is_validator x)
  (session_key x) (f (encrypted x)) (encryption_pk x) (wire_format x) (pending_wire_format x) (is_initiator x)
  (remote_address x).
#[export] Instance set_encryption_pk : Setter encryption_pk := λ f x, mkPeer (host x) (port x) (node_id x)
  (connected x) (height x) (authenticated x) (protocol_version x) (challenge x) (remote_pubkey x) (auth_deadline x)
  (is_validator x) (session_key x) (encrypted x) (f (encryption_pk x)) (wire_format x) (pending_wire_format x)
  (is_initiator x) (remote_address x).
#[export] Instance set_wire_format : Setter wire_format := λ f x, mkPeer (host x) (port x) (node_id x) (connected x)
  (height x) (authenticated x) (protocol_version x) (challenge x) (remote_pubkey x) (auth_deadline x) (is_validator x)
  (session_key x) (encrypted x) (encryption_pk x) (f (wire_format x)) (pending_wire_format x) (is_initiator x)
  (remote_address x).
#[export] Instance set_pending_wire_format : Setter pending_wire_format := λ f x, mkPeer (host x) (port x) (node_id x)
  (connected x) (height x) (authenticated x) (protocol_version x) (challenge x) (remote_pubkey x) (auth_deadline x)
  (is_validator x) (session_key x) (encrypted x) (encryption_pk x) (wire_format x) (f (pending_wire_format x))
  (is_initiator x) (remote_address x).
#[export] Instance set_is_initiator : Setter is_initiator := λ f x, mkPeer (host x) (port x) (node_id x) (connected x)
  (height x) (authenticated x) (protocol_version x) (challenge x) (remote_pubkey x) (auth_deadline x) (is_validator x)
  (session_key x) (encrypted x) (encryption_pk x) (wire_format x) (pending_wire_format x) (f (is_initiator x))
  (remote_address x).
#[export] Instance set_remote_address : Setter remote_address := λ f x, mkPeer (host x) (port x) (node_id x)
  (connected x) (height x) (authenticated x) (protocol_version x) (challenge x) (remote_pubkey x) (auth_deadline x)
  (is_validator x) (session_key x) (encrypted x) (encryption_pk x) (wire_format x) (pending_wire_format x)
  (is_initiator x) (f (remote_address x)).
(** [Peer(host, port)], connected *)
Definition new_peer (h : string) (p : Z) (initiator : bool) : Peer :=
  mkPeer h p (JStr EmptyString) true (-1) false 1 EmptyString EmptyString (float_of_Z 0) false None false None "json" (JStr "json")
         initiator EmptyString.
Definition addr (p : Peer) : string := host p +:+ ":" +:+ str_of_Z (port p).

(** The node itself *)
Record Self := mkSelf {
  self_host : string; self_port : Z; self_node_id : string;
  signing_sk : string; signing_pk : string; validator_address : string;
  self_encryption_sk : SecureBytes; self_encryption_pk : string;
  known_validators : gmap string string;
}.
Definition has_signing_keys (x : Self) : bool :=
  negb (is_empty (signing_sk x)) && negb (is_empty (signing_pk x)) && negb (is_empty (validator_address x)).
Definition has_encryption_keys (x : Self) : bool :=
  sb_bool (self_encryption_sk x) && negb (is_empty (self_encryption_pk x)).

Abbreviation message := (string * dict string JVal)%type.
Record P2P := mkP2P {
  objs : gmap nat Peer;
  table : dict string nat;
  limiter : RateLimiter;
  attempts : dict string (list float);
  reputation : PeerReputation;
  sent : list (nat * (string * message));
  dispatched : list (nat * message);
}.
#[export] Instance set_objs : Setter objs := λ f x, mkP2P (f (objs x)) (table x) (limiter x) (attempts x)
  (reputation x) (sent x) (dispatched x).
#[export] Instance set_table : Setter table := λ f x, mkP2P (objs x) (f (table x)) (limiter x) (attempts x)
  (reputation x) (sent x) (dispatched x).
#[export] Instance set_limiter : Setter limiter := λ f x, mkP2P (objs x) (table x) (f (limiter x)) (attempts x)
  (reputation x) (sent x) (dispatched x).
#[export] Instance set_attempts : Setter attempts := λ f x, mkP2P (objs x) (table x) (limiter x) (f (attempts x))
  (reputation x) (sent x) (dispatched x).
#[export] Instance set_reputation : Setter reputation := λ f x, mkP2P (objs x) (table x) (limiter x) (attempts x)
  (f (reputation x)) (sent x) (dispatched x).
#[export] Instance set_sent : Setter sent := λ f x, mkP2P (objs x) (table x) (limiter x) (attempts x) (reputation x)
  (f (sent x)) (dispatched x).
#[export] Instance set_dispatched : Setter dispatched := λ f x, mkP2P (objs x) (table x) (limiter x) (attempts x)
  (reputation x) (sent x) (f (dispatched x)).

(** The clocks read by a handler: [time.time()] and [time.monotonic()] *)
Record Clock := mkClock { wall : float; mono : float }.

Section P2P.
Context `{C : Crypto} `{K : Kem} `{G : Cipher} `{W : Wire} `{V : P2PEnv} (self : Self).

Definition the (i : nat) : M P2P Peer :=
  s ← get; match objs s !! i with Some p => mret p | None => raise KeyError end.
Definition update (i : nat) (f : Peer → Peer) : M P2P unit := modify (set objs (alter f i)).
(** [Peer.send], which writes in the format of the peer *)
Definition send (i : nat) (msg_type : string) (data : dict string JVal) : M P2P unit :=
  p ← the i;
  modify (set sent (λ l, l ++ [(i, (wire_format p, (msg_type, data)))])).
(** [Peer.send_encrypted]: the message inside is a line of JSON. *)
Definition send_encrypted (iv : string) (i : nat) (msg_type : string) (data : dict string JVal) : M P2P unit :=
  p ← the i;
  match session_key p with
  | Some key =>
      if encrypted p && negb (is_empty key)
      then send i "encrypted" [("data", JStr (hex (aes_encrypt key iv (print_spaced (msg_obj msg_type data)) EmptyString)))]
      else send i msg_type data
  | None => send i msg_type data
  end.
(** To every connected peer of the table but one; [ivs] are the random bytes. *)
Definition broadcast (ivs : nat → string) (msg_type : string) (data : dict string JVal) (exclude : string) : M P2P unit :=
  s ← get;
  mfor (λ ki : string * nat,
    p ← the ki.2;
    when (negb (bool_decide (ki.1 = exclude)) && connected p) (send_encrypted (ivs ki.2) ki.2 msg_type data)) (table s).
Definition peer_count (s : P2P) : Z :=
  Z.of_nat (length (filter (λ ki : string * nat, connected <$> objs s !! ki.2 = Some true) (table s))).
Definition best_peer_height (s : P2P) : Z :=
  foldr Z.max (-1) (omap (λ ki : string * nat,
    p ← objs s !! ki.2; if connected p && (0 <=? height p) then Some (height p) else None) (table s)).
Definition record (now : float) (peer_id event : string) : M P2P unit :=
  s ← get;
  r ← lift (Limits.record_event now peer_id event (reputation s));
  modify (set reputation (λ _, r)).

(** An early [return False] *)
Definition require (b : bool) (k : M P2P bool) : M P2P bool := if b then k else mret false.
Definition demand {A} (o : option A) (k : A → M P2P bool) : M P2P bool :=
  match o with Some a => k a | None => mret false end.

(** ** Helpers of the handshake *)

(** [isinstance(v, str)] and [bytes.fromhex(v)] *)
Definition hex_bytes (v : JVal) : option string := match v with JStr s => fromhex s | _ => None end.
Definition resolve_peer_pubkey (v : JVal) : option string :=
  pk ← hex_bytes v; if str_len pk =? MLDSA_PK_SIZE then Some pk else None.
Definition resolve_encryption_pk (v : JVal) : option string :=
  if truthy v then pk ← hex_bytes v; if str_len pk =? MLKEM_PK_SIZE then Some pk else None else None.
Definition build_auth_message (c address : string) : string := AUTH_DOMAIN +:+ c +:+ utf8 address.
Definition derive_session_key (shared_secret : string) : string := sha3_256 shared_secret.
(** [MLDSA.sign], a failure of which ends the handler *)
Definition signed (msg : string) (k : string → M P2P bool) : M P2P bool :=
  match MLDSA_sign (signing_sk self) msg with
  | Ok sig => k sig
  | Raise RuntimeError => mret false
  | Raise e => raise e
  end.
Definition encryption_field : dict string JVal :=
  if has_encryption_keys self then [("encryption_pk", JStr (hex (self_encryption_pk self)))] else [].
Definition store_encryption_pk (data : dict string JVal) : Peer → Peer :=
  match resolve_encryption_pk (jget data "encryption_pk" (JStr EmptyString)) with
  | Some pk => λ p, p <| encryption_pk := Some pk |>
  | None => λ p, p
  end.
Definition store_node_id (data : dict string JVal) : Peer → Peer :=
  match jget data "node_id" (JStr EmptyString) with JStr s => λ p, p <| node_id := JStr s |> | _ => λ p, p end.
Definition valid_port (v : JVal) : option Z :=
  match int_val v with Some z => if (0 <? z) && (z <=? 65535) then Some z else None | None => None end.
Definition check_validator_status (p : Peer) : Peer :=
  if is_empty (remote_pubkey p) then p
  else p <| is_validator := bool_decide (is_Some (known_validators self !! derive_address (remote_pubkey p))) |>.

(** *** Duplicate connections *)

(** The first other authenticated connection to the same address *)
Definition duplicate_of (s : P2P) (i : nat) (remote : string) : option (string * nat) :=
  let same (kj : string * nat) := match objs s !! kj.2 with
    | Some q => negb (bool_decide (kj.2 = i)) && authenticated q && bool_decide (remote_address q = remote)
    | None => false
    end in
  snd <$> list_find (λ kj, same kj = true) (table s).
(** The smaller address keeps the connection it initiated: whether the
    connection that just authenticated is the one to close *)
Definition closes_this (own remote : string) (initiator : bool) : bool :=
  if String.ltb own remote then negb initiator else initiator.
Definition dedup_connection (i : nat) : M P2P bool :=
  p ← the i;
  s ← get;
  if is_empty (remote_address p) || is_empty (validator_address self) then mret false
  else match duplicate_of s i (remote_address p) with
       | None => mret false
       | Some (k, j) =>
           if closes_this (validator_address self) (remote_address p) (is_initiator p) then mret true
           else
             _ ← update j (λ q, q <| connected := false |>);
             _ ← modify (set table (λ d, dpop d k));
             mret false
       end.

(** ** The encrypted channel *)

Definition initiate_encrypted_channel (coins : string) (i : nat) : M P2P unit :=
  p ← the i;
  if negb (has_encryption_keys self) then mret tt
  else match encryption_pk p with
       | None => mret tt
       | Some pk =>
           match encapsulate coins pk with
           | Raise _ => mret tt
           | Ok (ct, shared_secret) =>
               _ ← update i (λ p, p <| session_key := Some (derive_session_key shared_secret) |>);
               _ ← send i "session_key" [("ciphertext", JStr (hex ct)); ("encryption_pk", JStr (hex (self_encryption_pk self)))];
               update i (λ p, p <| encrypted := true |>)
           end
       end.
Definition handle_session_key (i : nat) (data : dict string JVal) : M P2P bool :=
  p ← the i;
  require (has_encryption_keys self) (
  require (authenticated p) (
  demand (hex_bytes (jget data "ciphertext" (JStr EmptyString))) (λ ct,
  require (str_len ct =? MLKEM_CT_SIZE) (
  _ ← update i (store_encryption_pk data);
  match decapsulate (self_encryption_sk self) ct with
  | Raise _ => mret false
  | Ok shared_secret =>
      _ ← update i (λ p, p <| session_key := Some (derive_session_key shared_secret) |> <| encrypted := true |>);
      mret true
  end)))).
(** [json.loads(text.decode())], then its [type] and [data] *)
Definition loads_message (text : string) : option message :=
  match s ← decode_utf8 text; loads s with
  | Some (JObj d) =>
      match jget d "type" (JStr EmptyString), jget d "data" (JObj []) with
      | JStr mt, JObj data => Some (mt, data)
      | _, _ => None
      end
  | _ => None
  end.
Definition decrypt_message (p : Peer) (data : dict string JVal) : option message :=
  match session_key p with
  | None => None
  | Some key =>
      ct ← hex_bytes (jget data "data" (JStr EmptyString));
      match aes_decrypt key ct EmptyString with Ok plaintext => loads_message plaintext | Raise _ => None end
  end.

(** ** The handshake *)

(** [|time.time() - ts| <= MAX_BLOCK_DRIFT] *)
Definition recent (t : Clock) (ts : Z) : bool :=
  negb (flt (float_of_Z MAX_BLOCK_DRIFT) (SFabs (fsub (wall t) (float_of_Z ts)))).
Definition hello_data (now : Z) (nonce proof : string) : dict string JVal :=
  [("protocol_version", JInt PROTOCOL_VERSION); ("wire_format", JStr preferred_wire_format);
   ("node_id", JStr (self_node_id self)); ("port", JInt (self_port self)); ("chain_id", JStr CHAIN_ID);
   ("challenge", JStr (hex nonce)); ("timestamp", JInt now); ("signing_pk", JStr (hex (signing_pk self)));
   ("proof", JStr (hex proof))] ++ encryption_field.
Definition response_data (nonce challenge_sig : string) : dict string JVal :=
  [("protocol_version", JInt PROTOCOL_VERSION); ("wire_format", JStr preferred_wire_format);
   ("node_id", JStr (self_node_id self)); ("port", JInt (self_port self));
   ("challenge_sig", JStr (hex challenge_sig)); ("counter_challenge", JStr (hex nonce));
   ("signing_pk", JStr (hex (signing_pk self)))] ++ encryption_field.
(** [connect], after the connection is made: the first message of the initiator *)
Definition hello_auth (t : Clock) (now : Z) (nonce : string) (i : nat) : M P2P bool :=
  _ ← update i (λ p, p <| challenge := nonce |> <| auth_deadline := fadd (mono t) AUTH_TIMEOUT |>
                       <| protocol_version := PROTOCOL_VERSION |>);
  signed (build_auth_message nonce (validator_address self)) (λ proof,
  _ ← send i "hello_auth" (hello_data now nonce proof);
  mret true).

Definition handle_hello_auth_inbound (t : Clock) (nonce : string) (i : nat) (data : dict string JVal) : M P2P bool :=
  require (has_signing_keys self) (
  demand (int_val (jget data "protocol_version" (JInt 1))) (λ pv,
  require (2 <=? pv) (
  demand (int_val (jget data "timestamp" (JInt 0))) (λ ts,
  require (recent t ts) (
  require (bool_decide (jget data "chain_id" (JStr EmptyString) = JStr CHAIN_ID)) (
  demand (hex_bytes (jget data "challenge" (JStr EmptyString))) (λ peer_challenge,
  require (str_len peer_challenge =? CHALLENGE_LEN) (
  demand (resolve_peer_pubkey (jget data "signing_pk" (JStr EmptyString))) (λ peer_pk,
  require (truthy (jget data "proof" (JStr EmptyString))) (
  demand (hex_bytes (jget data "proof" (JStr EmptyString))) (λ proof,
  let peer_address := derive_address peer_pk in
  require (MLDSA_verify peer_pk (build_auth_message peer_challenge peer_address) proof) (
  _ ← update i (λ p, store_node_id data (store_encryption_pk data p)
                       <| protocol_version := Z.min pv PROTOCOL_VERSION |>
                       <| pending_wire_format := jget data "wire_format" (JStr "json") |>);
  signed (build_auth_message peer_challenge (validator_address self)) (λ challenge_sig,
  _ ← update i (λ p, p <| challenge := nonce |> <| auth_deadline := fadd (mono t) AUTH_TIMEOUT |>
                       <| remote_pubkey := peer_pk |> <| remote_address := peer_address |>);
  _ ← send i "auth_response" (response_data nonce challenge_sig);
  mret true))))))))))))).

(** The challenge is used up before the answer to it is verified. *)
Definition spend (i : nat) : M P2P unit := update i (λ p, p <| challenge := EmptyString |>).
Definition spent (i : nat) : M P2P bool := _ ← spend i; mret false.

(** Once authenticated: roles, duplicates, channel and format *)
Definition settle_response (coins : string) (i : nat) (data : dict string JVal) : M P2P bool :=
  _ ← update i check_validator_status;
  closed ← dedup_connection i;
  if (closed : bool) then mret false
  else
    _ ← initiate_encrypted_channel coins i;
    _ ← update i (λ p, p <| wire_format := negotiate (protocol_version p) (protocol_version p) preferred_wire_format
                                             (jget data "wire_format" (JStr "json")) |>);
    mret true.
Definition handle_auth_response (t : Clock) (coins : string) (i : nat) (data : dict string JVal) : M P2P bool :=
  p ← the i;
  require (negb (is_empty (challenge p))) (
  if flt (auth_deadline p) (mono t) then spent i
  else match resolve_peer_pubkey (jget data "signing_pk" (JStr EmptyString)),
             hex_bytes (jget data "challenge_sig" (JStr EmptyString)) with
  | Some responder_pk, Some challenge_sig =>
      let responder_address := derive_address responder_pk in
      _ ← spend i;
      require (MLDSA_verify responder_pk (build_auth_message (challenge p) responder_address) challenge_sig) (
      demand (hex_bytes (jget data "counter_challenge" (JStr EmptyString))) (λ counter_challenge,
      require (str_len counter_challenge =? CHALLENGE_LEN) (
      signed (build_auth_message counter_challenge (validator_address self)) (λ counter_sig,
      _ ← send i "auth_confirm" [("challenge_sig", JStr (hex counter_sig))];
      _ ← update i (λ p, p <| authenticated := true |> <| remote_pubkey := responder_pk |>
                           <| remote_address := responder_address |> <| auth_deadline := float_of_Z 0 |>);
      pv ← lift (as_Z (jget data "protocol_version" (JInt 1)));
      _ ← update i (λ p, store_encryption_pk data (
            (λ q, match valid_port (jget data "port" (JInt 0)) with Some z => q <| port := z |> | None => q end)
              (store_node_id data (p <| protocol_version := Z.min pv PROTOCOL_VERSION |>))));
      settle_response coins i data))))
  | _, _ => spent i
  end).
Definition settle_confirm (i : nat) : M P2P bool :=
  _ ← update i (λ p, check_validator_status (
        p <| wire_format := negotiate (protocol_version p) (protocol_version p) preferred_wire_format (pending_wire_format p) |>));
  closed ← dedup_connection i;
  mret (negb closed).
Definition handle_auth_confirm (t : Clock) (i : nat) (data : dict string JVal) : M P2P bool :=
  p ← the i;
  require (negb (is_empty (challenge p))) (
  if is_empty (remote_pubkey p) then spent i
  else if flt (auth_deadline p) (mono t) then spent i
  else match hex_bytes (jget data "challenge_sig" (JStr EmptyString)) with
  | Some challenge_sig =>
      let initiator_address := derive_address (remote_pubkey p) in
      _ ← spend i;
      if negb (MLDSA_verify (remote_pubkey p) (build_auth_message (challenge p) initiator_address) challenge_sig)
      then _ ← update i (λ p, p <| remote_pubkey := EmptyString |>); mret false
      else
        _ ← update i (λ p, p <| authenticated := true |> <| auth_deadline := float_of_Z 0 |>
                             <| remote_address := initiator_address |>);
        settle_confirm i
  | None => spent i
  end).

(** ** Limits *)

Definition is_localhost (h : string) : bool := bool_decide (h ∈ ["127.0.0.1"; "::1"; "localhost"]).
(** At most five handshakes a minute from one host; the hosts are kept in the
    order of their last attempt, the oldest beyond the cap forgotten. *)
Definition check_auth_rate (now : float) (h : string) : M P2P bool :=
  if is_localhost h then mret true
  else
    s ← get;
    let recent := filter (λ t, flt (fsub now t) AUTH_RATE_WINDOW = true) (dget_or (attempts s) h []) in
    if AUTH_RATE_MAX <=? Z.of_nat (length recent) then mret false
    else
      let d := dpop (attempts s) h ++ [(h, recent ++ [now])] in
      _ ← modify (set attempts (λ _, drop (Z.to_nat (Z.of_nat (length d) - AUTH_ATTEMPTS_CAP)) d));
      mret true.
Definition check_rate_limit (now : float) (p : Peer) (msg_type : string) : M P2P bool :=
  if bool_decide (msg_type ∈ RATE_EXEMPT) || is_localhost (host p) then mret true
  else
    s ← get;
    let r := limiter_check now (host p) (limiter s) in
    _ ← modify (set limiter (λ _, r.2));
    mret r.1.
Definition should_disconnect_rate (now : float) (p : Peer) : M P2P bool :=
  s ← get;
  if P2P_RATE_VIOLATIONS_MAX <=? limiter_violations (limiter s) (host p)
  then _ ← record now (addr p) "rate_limited"; mret true
  else mret false.
(** A peer that never announced version 2 is exempt. *)
Definition check_auth_gate (msg_type : string) (p : Peer) : bool :=
  negb (bool_decide (msg_type ∈ AUTH_REQUIRED_MSGS)) || (protocol_version p <? 2) || authenticated p.
Definition is_safe_peer (h : string) (pt : Z) : bool :=
  (0 <? pt) && (pt <=? 65535) && negb (bool_decide (pt ∈ BLOCKED_PORTS))
  && negb (bool_decide (h ∈ ["127.0.0.1"; "localhost"; "::1"; self_host self]) && (pt =? self_port self))
  && safe_inbound_ip h.

(** ** Connections *)

Definition fresh_id (s : P2P) : nat := fresh (dom (objs s)).
(** An inbound connection: the peer object, under a temporary key *)
Definition on_connect (h temp_key : string) : M P2P (option nat) :=
  s ← get;
  if (MAX_PEERS <=? Z.of_nat (length (table s))) || is_banned (reputation s) h || negb (safe_inbound_ip h) then mret None
  else
    let i := fresh_id s in
    _ ← modify (λ s, s <| objs ::= insert i (new_peer h 0 false) |> <| table ::= λ d, dset d temp_key i |>);
    mret (Some i).
(** An outbound connection that was opened *)
Definition connect (t : Clock) (now : Z) (nonce : string) (h : string) (pt : Z) : M P2P (option nat) :=
  s ← get;
  let key := h +:+ ":" +:+ str_of_Z pt in
  if (MAX_PEERS <=? Z.of_nat (length (table s))) || dmem (table s) key || negb (is_safe_peer h pt) then mret None
  else
    let i := fresh_id s in
    _ ← modify (λ s, s <| objs ::= insert i (new_peer h pt true) |> <| table ::= λ d, dset d key i |>);
    if has_signing_keys self then
      ok ← hello_auth t now nonce i;
      if (ok : bool) then mret (Some i)
      else
        _ ← update i (λ p, p <| connected := false |>);
        _ ← modify (set table (λ d, dpop d key));
        mret None
    else
      _ ← send i "hello" [("node_id", JStr (self_node_id self)); ("port", JInt (self_port self))];
      mret (Some i).

(** The listening port a peer announces re-keys it, unless the key is taken. *)
Definition update_peer_key (i : nat) (peer_key temp_key : string) (new_port : JVal) : M P2P string :=
  match valid_port new_port with
  | None => mret peer_key
  | Some z =>
      _ ← modify (set table (λ d, dpop d peer_key));
      _ ← update i (λ p, p <| port := z |>);
      p ← the i;
      s ← get;
      let key := if dmem (table s) (addr p) then temp_key else addr p in
      _ ← modify (set table (λ d, dset d key i));
      mret key
  end.
(** [finally]: the peer is gone, and so is what its key leads to; the loop of
    an outbound connection takes the address of the peer for its key. *)
Definition leave (i : nat) (key : string) : M P2P unit :=
  p ← the i;
  _ ← update i (λ p, p <| connected := false |>);
  modify (set table (λ d, dpop d (if is_initiator p then addr p else key))).
Definition dispatch (i : nat) (m : message) : M P2P unit := modify (set dispatched (λ l, l ++ [(i, m)])).
Definition report (t : Clock) (i : nat) : M P2P unit := p ← the i; record (mono t) (addr p) "auth_failed".

(** The first message of an inbound connection: the key of the peer from now
    on and whether the connection goes on.  Then it is dispatched, whatever
    its type. *)
Definition first_message (t : Clock) (nonce : string) (i : nat) (temp_key : string) (m : message) : M P2P (string * bool) :=
  let (mt, data) := m in
  p ← the i;
  if bool_decide (mt = "hello_auth") then
    allowed ← check_auth_rate (mono t) (host p);
    if negb allowed then mret (temp_key, false)
    else
      key ← update_peer_key i temp_key temp_key (jget data "port" (JInt 0));
      ok ← handle_hello_auth_inbound t nonce i data;
      if (ok : bool) then _ ← dispatch i m; mret (key, true)
      else _ ← report t i; mret (key, false)
  else if bool_decide (mt = "hello") then
    _ ← update i (λ p, p <| node_id := jget data "node_id" (JStr EmptyString) |> <| protocol_version := 1 |>);
    key ← update_peer_key i temp_key temp_key (jget data "port" (JInt 0));
    _ ← send i "hello" [("node_id", JStr (self_node_id self)); ("port", JInt (self_port self))];
    _ ← dispatch i m;
    mret (key, true)
  else _ ← dispatch i m; mret (temp_key, true).

(** A later message: whether the loop goes on *)
Definition answer_or_leave (t : Clock) (i : nat) (handler : M P2P bool) : M P2P bool :=
  ok ← handler;
  if (ok : bool) then mret true else _ ← report t i; mret false.
Definition gated (i : nat) (m : message) : M P2P bool :=
  p ← the i;
  s ← get;
  if is_banned (reputation s) (addr p) then mret false
  else _ ← when (check_auth_gate m.1 p) (dispatch i m); mret true.
Definition next_message (t : Clock) (coins : string) (i : nat) (m : message) : M P2P bool :=
  p ← the i;
  allowed ← check_rate_limit (mono t) p m.1;
  if negb allowed then gone ← should_disconnect_rate (mono t) p; mret (negb gone)
  else match (if bool_decide (m.1 = "encrypted") then decrypt_message p m.2 else Some m) with
  | None => mret true
  | Some (mt, data) =>
      _ ← when (bool_decide (mt = "status"))
            match int_val (jget data "height" (JInt (-1))) with
            | Some h => when ((-1 <=? h) && (h <=? 10000000)) (update i (λ p, p <| height := h |>))
            | None => mret tt
            end;
      if bool_decide (mt = "session_key") then _ ← handle_session_key i data; mret true
      else if negb (is_initiator p) && bool_decide (mt = "auth_confirm") then answer_or_leave t i (handle_auth_confirm t i data)
      else if is_initiator p && bool_decide (mt = "auth_response") then answer_or_leave t i (handle_auth_response t coins i data)
      else gated i (mt, data)
  end.
(** [_rate_cleanup_loop], one turn *)
Definition rate_cleanup (now : float) : M P2P unit :=
  _ ← modify (set limiter (λ l, (limiter_cleanup now l).2));
  let cutoff := fsub now AUTH_RATE_WINDOW in
  _ ← modify (set attempts (filter (λ ha : string * list float,
        match list.last ha.2 with Some t => negb (flt t cutoff) | None => false end = true)));
  modify (set reputation decay).

(** ** The node, event by event *)

(** A connection is greeting until its first message, and then served. *)
Inductive stage := Greeting (key : string) | Serving (key : string).
Record Net := mkNet { p2p : P2P; stages : gmap nat stage }.
Inductive event :=
  | Accepted (host temp_key : string)
  | Connecting (t : Clock) (now : Z) (nonce host : string) (port : Z)
  | Received (t : Clock) (random : string) (i : nat) (m : message)
  | Ended (i : nat)
  | Cleanup (now : float).

Definition stage_key (st : stage) : string := match st with Greeting k => k | Serving k => k end.
(** The end of a loop: [i] is served no more. *)
Definition end_of (i : nat) (key : string) (n : Net) : Net := mkNet (leave i key (p2p n)).2 (delete i (stages n)).
Definition net_step (n : Net) (e : event) : Net :=
  match e with
  | Accepted h k =>
      match on_connect h k (p2p n) with
      | (Ok (Some i), s) => mkNet s (<[i := Greeting k]> (stages n))
      | (_, s) => mkNet s (stages n)
      end
  | Connecting t now nonce h pt =>
      match connect t now nonce h pt (p2p n) with
      | (Ok (Some i), s) => mkNet s (<[i := Serving EmptyString]> (stages n))
      | (_, s) => mkNet s (stages n)
      end
  | Received t random i m =>
      match stages n !! i with
      | None => n
      | Some (Greeting k) =>
          match first_message t random i k m (p2p n) with
          | (Ok (k', true), s) => mkNet s (<[i := Serving k']> (stages n))
          | (Ok (k', false), s) => end_of i k' (mkNet s (stages n))
          | (Raise _, s) => end_of i k (mkNet s (stages n))
          end
      | Some (Serving k) =>
          match next_message t random i m (p2p n) with
          | (Ok true, s) => mkNet s (stages n)
          | (_, s) => end_of i k (mkNet s (stages n))
          end
      end
  | Ended i => match stages n !! i with Some st => end_of i (stage_key st) n | None => n end
  | Cleanup now => mkNet (rate_cleanup now (p2p n)).2 (stages n)
  end.
Definition net_run (n : Net) (es : list event) : Net := foldl net_step n es.
End P2P.

Definition empty_p2p (rate burst : float) : P2P := mkP2P ∅ [] (new_limiter rate burst) [] new_reputation [] [].
Definition empty_net (rate burst : float) : Net := mkNet (empty_p2p rate burst) ∅.
