(* ===== verification/Query.v ===== *)
(** * Read-only queries

    The rest of [core/query.py] in memory mode: documents, shares, tokens and
    their holders, headers and the proofs served to light clients.  [now] is [int(time.time())].  Python's [sorted]
    and [heapq.nsmallest] are sorting functions of the standard library. *)
From S2P Require Import Prelude PyStr Json Config Crypto StateTrie Wallet Transaction Fees Block Receipt ChainState Apply TokenLaws Chain.
Open Scope Z_scope.

Section Query.
Context `{C : Crypto}.

(** ** Transactions of an address *)

Definition get_txs_by_sender_count (s : Chain) (a : string) : Z :=
  Z.of_nat (length (get_txs_by_sender s a)).
Definition get_txs_by_recipient_count (s : Chain) (a : string) : Z :=
  Z.of_nat (length (get_txs_by_recipient s a)).
Definition get_txs_by_sender_page (s : Chain) (a : string) (offset limit : Z) : list string :=
  py_slice (get_txs_by_sender s a) offset (offset + limit).

(** ** Documents *)

Record DocumentInfo := mkDocument {
  di_tx_id : string; di_block_index : Z; di_block_hash : string; di_timestamp : Z; di_sender : string }.
Definition verify_document (s : Chain) (document_hash : string) : option DocumentInfo :=
  match notarizations (idx s) !! document_hash with
  | None => None
  | Some tid =>
      if is_empty tid then None
      else match get_tx s tid, get_tx_block s tid with
           | Some tx, Some bi =>
               match get_block_by_index s bi with
               | Some b => Some (mkDocument tid bi (block_hash b) (timestamp tx) (sender tx))
               | None => None
               end
           | _, _ => None
           end
  end.

Record NotarizationInfo := mkNotarization {
  ni_tx_id : string; ni_block_index : option Z; ni_timestamp : Z; ni_sender : string }.
Definition notarization_of (s : Chain) (tid : string) : option NotarizationInfo :=
  (λ tx, mkNotarization tid (get_tx_block s tid) (timestamp tx) (sender tx)) <$> get_tx s tid.
Definition get_all_notarizations (s : Chain) (document_hash : string) : list NotarizationInfo :=
  sort_by (λ x y, ni_timestamp x <=? ni_timestamp y)
    (omap (notarization_of s) (get_or (notarizations_by_hash (idx s)) document_hash [])).

(** [expires == 0 or expires > now]; validation made it an integer *)
Definition share_active (now : Z) (tx : Transaction) : result bool :=
  e ← as_Z (jget (payload tx) "expires" (JInt 0)); Ok ((e =? 0) || (now <? e)).
Fixpoint shares (now : Z) (s : Chain) (ids : list string) : result (list (dict string JVal)) :=
  match ids with
  | [] => Ok []
  | tid :: rest =>
      match get_tx s tid with
      | Some tx =>
          if decide (tx_type tx = SHARE) then
            active ← share_active now tx;
            more ← shares now s rest;
            Ok (if active : bool then tx_to_dict tx :: more else more)
          else shares now s rest
      | None => shares now s rest
      end
  end.
Definition get_shared_with (now : Z) (s : Chain) (a : string) : result (list (dict string JVal)) :=
  shares now s (get_txs_by_recipient s a).

(** ** Tokens *)

Definition token_le (x y : string * Token) : Prop := String.le x.1 y.1.
#[global] Instance token_le_dec : ∀ x y, Decision (token_le x y).
Proof. intros x y. unfold token_le. apply _. Defined.
Definition list_tokens (s : Chain) (page limit : Z) : list (string * Token) :=
  let all := merge_sort token_le (map_to_list (token_registry (tokens s))) in
  let start := (page - 1) * limit in
  py_slice all start (start + limit).

Definition TOKEN_HOLDER_MAX_PAGE : Z := 100.
(** The sort key [(-amount, addr)] *)
Definition holder_key_le (x y : Z * string) : Prop :=
  x.1 < y.1 ∨ (x.1 = y.1 ∧ String.le x.2 y.2).
#[global] Instance holder_key_le_dec : ∀ x y, Decision (holder_key_le x y).
Proof. intros x y. unfold holder_key_le. apply _. Defined.

(** [_positive_holders] *)
Definition positive_holders (tk : Tokens) (tid : string) (addrs : list string) : list (Z * string) :=
  omap (λ a, let amount := token_balance tk tid a in if 0 <? amount then Some (- amount, a) else None) addrs.
(** [heapq.nsmallest(n, it)] *)
Definition nsmallest (n : Z) (l : list (Z * string)) : list (Z * string) :=
  take (Z.to_nat n) (merge_sort holder_key_le l).

Definition get_token_holders (s : Chain) (tid : string) (page limit : Z) : list (string * Z) * Z :=
  let page := Z.max 1 page in
  let limit := Z.max 1 (Z.min limit TOKEN_HOLDER_MAX_PAGE) in
  let addrs := get_or (holders_by_token (tokens s)) tid ∅ in
  if decide (addrs = ∅) then ([], 0)
  else
    let holders := positive_holders (tokens s) tid (elements addrs) in
    let total := Z.of_nat (length holders) in
    if total =? 0 then ([], 0)
    else
      let start := (page - 1) * limit in
      let top_n := nsmallest (start + limit) holders in
      ((λ h, (h.2, - h.1)) <$> drop (Z.to_nat start) top_n, total).

Record AddressToken := mkAddressToken {
  at_token_id : string; at_symbol : string; at_name : string; at_decimals : Z; at_amount : Z }.
(** The tokens of an address, in the iteration order [order] of a Python set *)
Definition get_address_tokens (order : gset string → list string) (s : Chain) (a : string) (page limit : Z)
    : list AddressToken :=
  let page := Z.max 1 page in
  let limit := Z.max 1 (Z.min limit 100) in
  let tids := get_or (tokens_by_address (tokens s)) a ∅ in
  let held := omap (λ tid,
    let amount := token_balance (tokens s) tid a in
    if 0 <? amount then
      Some (match token_registry (tokens s) !! tid with
            | Some t => mkAddressToken tid (tk_symbol t) (tk_name t) (tk_decimals t) amount
            | None => mkAddressToken tid EmptyString EmptyString 0 amount
            end)
    else None) (order tids) in
  let start := (page - 1) * limit in
  py_slice held start (start + limit).

(** ** Light clients *)

Definition get_block_headers (s : Chain) (start count : Z) : list (dict string JVal) :=
  let count := Z.min count 100 in
  let stop := Z.min (start + count) (height s + 1) in
  omap (λ i, to_header_dict <$> get_block_by_index s i) (zrange (Z.max 0 start) stop).

Record ReceiptProof := mkReceiptProof {
  rp_tx_id : string; rp_receipt : Receipt; rp_proof : list (string * bool);
  rp_receipts_root : string; rp_block_index : Z }.
Definition get_receipt_proof (s : Chain) (tid : string) : option ReceiptProof :=
  match dget (receipts (recs s)) tid with
  | None => None
  | Some r =>
      match get_block_by_index s (r_block_index r) with
      | None => None
      | Some b =>
          let block_receipts := omap (λ tx, dget (receipts (recs s)) (tx_id tx)) (transactions b) in
          Some (mkReceiptProof tid r ((λ p, (hex p.1, p.2)) <$> receipt_proof block_receipts (r_tx_index r))
                  (receipts_root b) (r_block_index r))
      end
  end.

Definition get_state_proof_at_block (s : Chain) (key : string) (block_index : option Z)
    : option (StateProof * Z) :=
  match block_index with
  | Some i =>
      match state_snapshots (trie s) !! i with
      | None => None
      | Some snapshot => (λ p, (p, i)) <$> get_proof (trie_restore ∅ snapshot) key
      end
  | None => (λ p, (p, height s)) <$> get_proof (state_trie (trie s)) key
  end.
End Query.

(** ** Holders, ranked *)

#[global] Instance holder_key_trans : Transitive holder_key_le.
Proof.
  intros [a x] [b y] [c z] [H1|[H1 H1']] [H2|[H2 H2']]; unfold holder_key_le in *; cbn in *.
  - left; lia. - left; lia. - left; lia. - right. split; [lia|]. by transitivity y.
Qed.
#[global] Instance holder_key_antisymm : AntiSymm (=) holder_key_le.
Proof.
  intros [a x] [b y] [H1|[H1 H1']] [H2|[H2 H2']]; cbn in *; try lia.
  subst. f_equal. by apply (anti_symm String.le).
Qed.
#[global] Instance holder_key_total : Total holder_key_le.
Proof.
  intros [a x] [b y]. unfold holder_key_le. cbn. destruct (Z.lt_trichotomy a b) as [|[->|]]; [by left; left| |by right; left].
  destruct (total String.le x y); [left|right]; by right.
Qed.

(** The reference: every balance of the token above zero, the largest first,
    equal balances in the order of the addresses *)
Definition holder_entries (tk : Tokens) (tid : string) : list (Z * string) :=
  omap (λ kv : string * string * Z, if decide (kv.1.1 = tid ∧ 0 < kv.2) then Some (- kv.2, kv.1.2) else None)
    (map_to_list (token_balances tk)).
Definition ranked_holders (tk : Tokens) (tid : string) : list (string * Z) :=
  (λ h, (h.2, - h.1)) <$> merge_sort holder_key_le (holder_entries tk tid).

Lemma token_balance_lookup tk tid a v : 0 < v →
  token_balance tk tid a = v ↔ token_balances tk !! (tid, a) = Some v.
Proof.
  intros Hv. unfold token_balance, get_or. destruct (token_balances tk !! (tid, a)) as [w|]; cbn; split; try lia.
  - by intros ->. - by intros [= ->]. - done.
Qed.

Lemma elem_of_positive_holders tk tid addrs h :
  h ∈ positive_holders tk tid addrs ↔ h.2 ∈ addrs ∧ h.1 < 0 ∧ token_balances tk !! (tid, h.2) = Some (- h.1).
Proof.
  unfold positive_holders. rewrite list_elem_of_omap. split.
  - intros (a & Ha & Hh). cbn in Hh. destruct (Z.ltb_spec 0 (token_balance tk tid a)) as [Hp|]; [|done].
    injection Hh as <-. cbn. split_and!; [done|lia|]. apply token_balance_lookup; lia.
  - intros (Ha & Hneg & Hl). exists h.2. split; [done|]. cbn. apply token_balance_lookup in Hl; [|lia].
    rewrite Hl. destruct (Z.ltb_spec 0 (- h.1)); [|lia]. f_equal. destruct h. cbn. f_equal. lia.
Qed.
Lemma elem_of_holder_entries tk tid h :
  h ∈ holder_entries tk tid ↔ h.1 < 0 ∧ token_balances tk !! (tid, h.2) = Some (- h.1).
Proof.
  unfold holder_entries. rewrite list_elem_of_omap. split.
  - intros ([[t a] v] & Hkv & Hh). cbn in Hh. case_decide as Hd; [|done]. destruct Hd as [-> Hv].
    injection Hh as <-. cbn. split; [lia|]. apply elem_of_map_to_list in Hkv. rewrite Hkv. f_equal. lia.
  - intros [Hneg Hl]. exists (tid, h.2, - h.1). split; [by apply elem_of_map_to_list|]. cbn.
    rewrite decide_True by (split; [done|lia]). destruct h. cbn. do 2 f_equal. lia.
Qed.

Lemma positive_holders_NoDup tk tid addrs : NoDup addrs → NoDup (positive_holders tk tid addrs).
Proof.
  induction 1 as [|a l Ha Hl IH]; [constructor|]. unfold positive_holders. csimpl.
  destruct (0 <? token_balance tk tid a); [|done]. constructor; [|done].
  intros Hin. apply elem_of_positive_holders in Hin as [Hin _]. done.
Qed.
Lemma holder_entries_NoDup tk tid : NoDup (holder_entries tk tid).
Proof.
  unfold holder_entries. assert (Hnd : NoDup (map_to_list (token_balances tk)).*1) by apply NoDup_fst_map_to_list.
  induction (map_to_list (token_balances tk)) as [|[[t a] v] l IH]; [constructor|]. csimpl.
  apply list.NoDup_cons in Hnd as [Hni Hnd]. case_decide as Hd; [|by apply IH]. destruct Hd as [-> Hv].
  constructor; [|by apply IH]. rewrite list_elem_of_omap. intros ([[t' a'] v'] & Hkv & Hh). cbn in Hh.
  case_decide as Hd'; [|done]. destruct Hd' as [-> _]. injection Hh as Hv' ->. apply Hni.
  apply list_elem_of_fmap. by exists (tid, a, v').
Qed.

(** The holder index lists the owners the balances have. *)
Lemma holders_permutation tk tid : tokens_ok tk →
  positive_holders tk tid (elements (get_or (holders_by_token tk) tid ∅)) ≡ₚ holder_entries tk tid.
Proof.
  intros Hok. apply NoDup_Permutation.
  - apply positive_holders_NoDup, NoDup_elements.
  - apply holder_entries_NoDup.
  - intros h. rewrite elem_of_positive_holders, elem_of_holder_entries, elem_of_elements.
    rewrite (io_holders _ (to_index _ _ Hok)). split; [tauto|]. intros [H1 H2]. rewrite H2. by split_and!.
Qed.
Lemma sorted_holders tk tid : tokens_ok tk →
  merge_sort holder_key_le (positive_holders tk tid (elements (get_or (holders_by_token tk) tid ∅))) =
  merge_sort holder_key_le (holder_entries tk tid).
Proof.
  intros Hok. apply (StronglySorted_unique holder_key_le).
  - apply (StronglySorted_merge_sort _). - apply (StronglySorted_merge_sort _).
  - rewrite !merge_sort_Permutation. by apply holders_permutation.
Qed.
Lemma ranked_length tk tid : length (ranked_holders tk tid) = length (holder_entries tk tid).
Proof. unfold ranked_holders. by rewrite length_fmap, merge_sort_Permutation. Qed.

(** A page is a piece of the ranking. *)
Lemma holders_page s tid page limit : tokens_ok (tokens s) → 1 <= page → 1 <= limit <= 100 →
  get_token_holders s tid page limit =
    (take (Z.to_nat limit) (drop (Z.to_nat ((page - 1) * limit)) (ranked_holders (tokens s) tid)),
     Z.of_nat (length (ranked_holders (tokens s) tid))).
Proof.
  intros Hok Hp Hl. unfold get_token_holders. rewrite (Z.max_r 1 page) by lia.
  unfold TOKEN_HOLDER_MAX_PAGE. rewrite (Z.min_l limit 100), (Z.max_r 1 limit) by lia.
  pose proof (holders_permutation _ tid Hok) as HP. rewrite ranked_length, <-HP.
  set (addrs := get_or (holders_by_token (tokens s)) tid ∅) in *.
  assert (Hr : length (positive_holders (tokens s) tid (elements addrs)) = 0%nat → ranked_holders (tokens s) tid = []).
  { intros H0. apply length_zero_iff_nil. by rewrite ranked_length, <-HP. }
  destruct (decide (addrs = ∅)) as [He|He].
  { rewrite He in *. rewrite elements_empty in *. rewrite Hr by done. by rewrite drop_nil, take_nil. }
  destruct (Z.eqb_spec (Z.of_nat (length (positive_holders (tokens s) tid (elements addrs)))) 0) as [H0|H0].
  { rewrite Hr by lia. rewrite drop_nil, take_nil. f_equal. lia. }
  f_equal. unfold nsmallest. subst addrs. rewrite sorted_holders by done.
  unfold ranked_holders. rewrite <-fmap_drop, <-fmap_take. f_equal.
  rewrite Z2Nat.inj_add by nia. rewrite skipn_firstn_comm. f_equal. lia.
Qed.

(** ** Properties *)

(** Token holders by page, against a reference that scans the balances: in
    every state whose token books are consistent, the pages 1 to n put
    together are the first n * limit entries of the ranking of all positive
    balances of the token, without gaps or repetitions, and each page reports
    the number of holders. *)
Lemma holder_pages_rank_balances (s : Chain) (tid : string) (n : nat) (limit : Z)
  (Hok : tokens_ok (tokens s)) (Hl : 1 <= limit <= 100) :
  let ranking := ranked_holders (tokens s) tid in
  mjoin ((λ k, (get_token_holders s tid (Z.of_nat k) limit).1) <$> seq 1 n)
    = take (n * Z.to_nat limit) ranking ∧
  (∀ page, 1 <= page → (get_token_holders s tid page limit).2 = Z.of_nat (length ranking)) ∧
  (∀ a v, (a, v) ∈ ranking ↔ 0 < v ∧ token_balance (tokens s) tid a = v) ∧
  StronglySorted (λ x y : string * Z, y.2 <= x.2) ranking.
Proof.
  intros ranking. split_and!.
  - induction n as [|n IH]; [done|]. rewrite seq_S, fmap_app, join_app, IH. csimpl. rewrite app_nil_r.
    rewrite holders_page by (done || lia). cbn [fst].
    fold ranking. change (1 + n)%nat with (S n).
    replace (Z.to_nat ((Z.of_nat (S n) - 1) * limit)) with (n * Z.to_nat limit)%nat by nia.
    rewrite take_take_drop. f_equal. lia.
  - intros page Hp. by rewrite holders_page.
  - intros a v. unfold ranking, ranked_holders. rewrite list_elem_of_fmap. split.
    + intros ([m x] & [= -> ->] & Hin). rewrite merge_sort_Permutation in Hin.
      apply elem_of_holder_entries in Hin as [Hneg Hb]. cbn in *. split; [lia|]. apply token_balance_lookup; [lia|done].
    + intros [Hv Hb]. exists (- v, a). split; [cbn; f_equal; lia|]. rewrite merge_sort_Permutation.
      apply elem_of_holder_entries. cbn. apply token_balance_lookup in Hb; [|done]. rewrite Z.opp_involutive. split; [lia|done].
  - unfold ranking, ranked_holders. pose proof (StronglySorted_merge_sort holder_key_le (holder_entries (tokens s) tid)) as Hs.
    induction Hs as [|x l Hl' IH Hx]; [constructor|]. csimpl. constructor; [done|].
    apply Forall_fmap, Forall_intro. intros y Hy. destruct (Forall_in _ _ _ Hx Hy) as [H|[H _]]; cbn; lia.
Qed.

Lemma token_block_valid : Forall (λ tx, validate_payload (C := Toy.crypto) tx = accept) (transactions TokenBlock.blk).
Proof. apply (bool_decide_unpack _). vm_compute. exact I. Qed.
Lemma append_tokens_ok `{Crypto} `{ChainConfig} b s : Forall (λ tx, validate_payload tx = accept) (transactions b) →
  tokens_ok (tokens s) → tokens_ok (tokens (append_block_inner b s).2).
Proof.
  intros Hv Hs. pose proof (keeps_tokens_append b Hv s Hs) as Hk. unfold wp in Hk. by destruct (append_block_inner b s).
Qed.

