(* ===== verification/Node.v ===== *)
(** * The full node

    [node.py] over the chain: the RPC methods that
    create, sign and submit transactions for the wallets of the node, the
    handlers of transactions and blocks that arrive from peers, and the turn of
    the block loop.  A handler has no [await] between taking the wallet's lock
    and releasing it, so each is one atomic step; messages to peers and
    reputation events are collected in the order they are sent.  Parameters
    of a request are typed (JSON-RPC delivers untyped values, which the
    handlers check); metrics and notifications to web clients are left out.
    [now] is [int(time.time())]. *)
From S2P Require Import Prelude PyStr Json Metrics Config Crypto StateTrie Wallet Transaction Fees Block Receipt ChainState Ledger StateOps Consensus Apply TxPool Rollback Chain WalletFile Mlkem Query.
Open Scope Z_scope.

(** ** State *)

(** A message to one peer, or to all but one *)
Inductive target := Peer (addr : string) | Everyone_but (addr : string).
Record Message := mkMessage { m_to : target; m_type : string; m_data : dict string JVal }.

Record Node := mkNode {
  chain : Chain;
  wallets : dict string Wallet;
  shared_secrets : dict string string;
  wallet_locks : dict string bool;
  pending_requests : gset string;
  outbox : list Message;
  reputation_events : list (string * string);
}.
#[export] Instance set_chain : Setter chain := λ f x, mkNode (f (chain x)) (wallets x) (shared_secrets x)
  (wallet_locks x) (pending_requests x) (outbox x) (reputation_events x).
#[export] Instance set_wallets : Setter wallets := λ f x, mkNode (chain x) (f (wallets x)) (shared_secrets x)
  (wallet_locks x) (pending_requests x) (outbox x) (reputation_events x).
#[export] Instance set_shared_secrets : Setter shared_secrets := λ f x, mkNode (chain x) (wallets x)
  (f (shared_secrets x)) (wallet_locks x) (pending_requests x) (outbox x) (reputation_events x).
#[export] Instance set_wallet_locks : Setter wallet_locks := λ f x, mkNode (chain x) (wallets x)
  (shared_secrets x) (f (wallet_locks x)) (pending_requests x) (outbox x) (reputation_events x).
#[export] Instance set_pending_requests : Setter pending_requests := λ f x, mkNode (chain x) (wallets x)
  (shared_secrets x) (wallet_locks x) (f (pending_requests x)) (outbox x) (reputation_events x).
#[export] Instance set_outbox : Setter outbox := λ f x, mkNode (chain x) (wallets x) (shared_secrets x)
  (wallet_locks x) (pending_requests x) (f (outbox x)) (reputation_events x).
#[export] Instance set_reputation_events : Setter reputation_events := λ f x, mkNode (chain x) (wallets x)
  (shared_secrets x) (wallet_locks x) (pending_requests x) (outbox x) (f (reputation_events x)).

Definition MAX_SHARED_SECRETS : Z := 10000.
Definition MAX_WALLET_LOCKS : Z := 10000.

(** [if cond: raise ValueError(msg)] *)
Definition check (cond : bool) (msg : string) : M Node unit := lift (guard cond msg (Ok tt)).

(** ** Locks

    An ordered dictionary, the least recently used first.  A lock that is taken
    would suspend the handler; [with_lock] raises there, and [node_safe] shows
    that it never happens. *)

Fixpoint evict_unlocked (locks : dict string bool) : option (dict string bool) :=
  match locks with
  | [] => None
  | (k, false) :: rest => Some rest
  | (k, true) :: rest => (λ l, (k, true) :: l) <$> evict_unlocked rest
  end.
(** [while len(locks) >= _MAX_WALLET_LOCKS]; every turn removes an entry. *)
Fixpoint evict_locks (fuel : nat) (locks : dict string bool) : result (dict string bool) :=
  if Z.of_nat (length locks) <? MAX_WALLET_LOCKS then Ok locks
  else match fuel with
       | O => Ok locks
       | S f => match evict_unlocked locks with
                | Some rest => evict_locks f rest
                | None => Raise (ValueError "wallet lock pool exhausted: all slots in use, try again later")
                end
       end.
Definition lock_for (address : string) (locks : dict string bool) : result (dict string bool) :=
  match dget locks address with
  | Some l => Ok (dpop locks address ++ [(address, l)])
  | None => rest ← evict_locks (length locks) locks; Ok (rest ++ [(address, false)])
  end.
(** The body of [async with], then the release, also after an exception *)
Definition releasing {A} (address : string) (body : M Node A) : M Node A := λ n,
  let (r, n') := body n in (r, n' <| wallet_locks ::= λ l, dset l address false |>).
(** [async with self._lock_for(address): body] *)
Definition with_lock {A} (address : string) (body : M Node A) : M Node A :=
  n ← get;
  locks ← lift (lock_for address (wallet_locks n));
  _ ← modify (set wallet_locks (λ _, locks));
  if dget_or locks address false then raise RuntimeError
  else
    _ ← modify (set wallet_locks (λ l, dset l address true));
    releasing address body.

(** [while len(d) > _MAX_SHARED_SECRETS: d.popitem(last=False)] *)
Definition store_shared_secret (tid ss : string) : M Node unit := modify (set shared_secrets (λ d,
  let d' := dset d tid ss in drop (Z.to_nat (Z.of_nat (length d') - MAX_SHARED_SECRETS)) d')).

Section Node.
Context `{C : Crypto} `{Cfg : ChainConfig} `{K : Kem}.

(** ** Helpers *)

Definition get_wallet (address : string) : M Node Wallet :=
  n ← get;
  match dget (wallets n) address with
  | Some w => mret w
  | None => raise (ValueError "wallet not found")
  end.

Definition validate_fee_param (value : option Z) : result (option Z) :=
  match value with
  | None => Ok None
  | Some z => guard (z <? 0) "must be non-negative" (guard (2 ^ 63 <? z) "exceeds maximum allowed value" (Ok (Some z)))
  end.
Definition compute_fee_defaults (s : Chain) (max_fee_per_weight max_priority_fee : option Z) : result (Z * Z) :=
  mf ← validate_fee_param max_fee_per_weight;
  mp ← validate_fee_param max_priority_fee;
  match mf, mp with
  | Some mf, Some mp => Ok (mf, mp)
  | _, _ =>
      if negb (next_is_dynamic s) then Ok (default 0 mf, default 0 mp)
      else current_bf ← current_base_fee s;
           Ok (default (current_bf * 2) mf, default (Z.max 1 (current_bf / 10)) mp)
  end.

Definition next_nonce (s : Chain) (address : string) : Z := get_next_nonce s address + pending_from s address.

(** [tx.sign(w.signing_sk, w.signing_pk)] *)
Definition sign_with (w : Wallet) (tx : Transaction) : result Transaction :=
  sk ← sb_bytes (w_signing_sk w); tx_sign tx sk (w_signing_pk w).
Definition broadcast (msg_type : string) (data : dict string JVal) (exclude : string) : M Node unit :=
  modify (set outbox (λ l, l ++ [mkMessage (Everyone_but exclude) msg_type data])).
Definition send (addr msg_type : string) (data : dict string JVal) : M Node unit :=
  modify (set outbox (λ l, l ++ [mkMessage (Peer addr) msg_type data])).
Definition record_event (addr event : string) : M Node unit :=
  modify (set reputation_events (λ l, l ++ [(addr, event)])).
Definition announce_tx (tx : Transaction) (exclude : string) : M Node unit :=
  broadcast "new_tx" [("tx", JObj (tx_to_dict tx))] exclude.
Definition announce_block (b : Block) (exclude : string) : M Node unit :=
  broadcast "new_block" [("block", JObj (block_to_dict b))] exclude.

(** [ok, result = submit_tx(tx)]; [if not ok: raise ValueError(result)] *)
Definition submit_or_raise (now : Z) (tx : Transaction) : M Node unit :=
  verdict ← on chain (submit_tx now tx);
  match verdict with
  | None => mret tt
  | Some msg => raise (ValueError msg)
  end.

(** What the methods below share: build the wallet's next transaction under the
    wallet's lock, sign, submit; then announce it. *)
Definition submit_next (now : Z) (w : Wallet) (mk : Z → Transaction) : M Node Transaction :=
  tx ← with_lock (w_address w) (
    n ← get;
    tx ← lift (sign_with w (mk (next_nonce (chain n) (w_address w))));
    _ ← submit_or_raise now tx;
    mret tx);
  _ ← announce_tx tx EmptyString;
  mret tx.
Definition wallet_tx (now : Z) (w : Wallet) (max_fee_per_weight max_priority_fee : option Z)
    (mk : Z → Z → Z → Transaction) : M Node Transaction :=
  n ← get;
  fees ← lift (compute_fee_defaults (chain n) max_fee_per_weight max_priority_fee);
  submit_next now w (λ nonce, mk nonce fees.1 fees.2).
Definition tx_result (tx : Transaction) (more : dict string JVal) : dict string JVal :=
  ("tx_id", JStr (tx_id tx)) :: more.

(** ** Methods that submit a transaction *)

Section Methods.
Context (now : Z) (wallet_address : string) (mfpw mpf : option Z).

Definition rpc_register_key : M Node (dict string JVal) :=
  w ← get_wallet wallet_address;
  tx ← wallet_tx now w mfpw mpf (λ n f p, mk_register_key now (w_address w) n f p (w_encryption_pk w));
  mret (tx_result tx []).
Definition rpc_register_validator : M Node (dict string JVal) :=
  w ← get_wallet wallet_address;
  n ← get;
  _ ← check (is_registered_validator (chain n) (w_address w)) "validator already registered";
  tx ← wallet_tx now w mfpw mpf (λ n f p,
         mk_register_validator now (w_address w) n f p (w_signing_pk w) (w_address w));
  mret (tx_result tx [("validator_address", JStr (w_address w))]).
Definition rpc_revoke_key (key_type reason : string) : M Node (dict string JVal) :=
  _ ← check (negb (bool_decide (key_type ∈ ["signing"; "encryption"; "validator"]))) "key_type must be one of";
  _ ← check (negb (bool_decide (reason ∈ ["compromised"; "rotation"; "decommission"]))) "reason must be one of";
  w ← get_wallet wallet_address;
  tx ← wallet_tx now w mfpw mpf (λ n f p, mk_revoke_key now (w_address w) n f p key_type reason);
  mret (tx_result tx [("key_type", JStr key_type); ("reason", JStr reason)]).
Definition rpc_stake (validator_address : string) (amount : Z) : M Node (dict string JVal) :=
  _ ← check (is_empty validator_address) "validator_address must be non-empty string";
  _ ← check (amount <? 1) "amount must be positive integer";
  w ← get_wallet wallet_address;
  tx ← wallet_tx now w mfpw mpf (λ n f p, mk_stake now (w_address w) n f p validator_address amount);
  mret (tx_result tx [("validator_address", JStr validator_address); ("amount", JInt amount)]).
Definition rpc_delegate (validator_address : string) (amount : Z) : M Node (dict string JVal) :=
  _ ← check (is_empty validator_address) "validator_address must be non-empty string";
  _ ← check (amount <? 1) "amount must be positive integer";
  w ← get_wallet wallet_address;
  _ ← check (bool_decide (w_address w = validator_address)) "self-delegation is not allowed";
  tx ← wallet_tx now w mfpw mpf (λ n f p, mk_delegate now (w_address w) n f p validator_address amount);
  mret (tx_result tx [("validator_address", JStr validator_address); ("amount", JInt amount)]).
Definition rpc_unstake (validator_address : string) (amount : Z) : M Node (dict string JVal) :=
  _ ← check (is_empty validator_address) "validator_address must be non-empty string";
  _ ← check (amount <? 1) "amount must be positive integer";
  w ← get_wallet wallet_address;
  tx ← wallet_tx now w mfpw mpf (λ n f p, mk_unstake now (w_address w) n f p validator_address amount);
  mret (tx_result tx [("validator_address", JStr validator_address); ("amount", JInt amount)]).
Definition rpc_notarize (document_hash metadata : string) : M Node (dict string JVal) :=
  w ← get_wallet wallet_address;
  tx ← wallet_tx now w mfpw mpf (λ n f p, mk_notarize now (w_address w) n f p document_hash metadata);
  mret (tx_result tx []).
Definition rpc_store (document_hash cid metadata : string) : M Node (dict string JVal) :=
  w ← get_wallet wallet_address;
  tx ← wallet_tx now w mfpw mpf (λ n f p, mk_store now (w_address w) n f p document_hash cid metadata);
  mret (tx_result tx []).
(** The key to encapsulate for: the one given, or the one on the chain *)
Definition recipient_key (recipient_address recipient_encryption_pk : string) : M Node string :=
  if is_empty recipient_encryption_pk then
    n ← get;
    match get_encryption_pk (chain n) recipient_address with
    | Some pk_hex => _ ← check (is_empty pk_hex) "no encryption key"; mret pk_hex
    | None => raise (ValueError "no encryption key")
    end
  else mret recipient_encryption_pk.
Definition rpc_share (coins recipient_address cid recipient_encryption_pk : string) (expires : Z)
    : M Node (dict string JVal) :=
  w ← get_wallet wallet_address;
  pk_hex ← recipient_key recipient_address recipient_encryption_pk;
  pk_bytes ← lift (fromhex_val (JStr pk_hex));
  box ← lift (encapsulate coins pk_bytes);
  tx ← wallet_tx now w mfpw mpf (λ n f p,
         mk_share now (w_address w) n f p recipient_address cid box.1 expires);
  _ ← store_shared_secret (tx_id tx) box.2;
  mret (tx_result tx [("shared_secret_stored", JBool true)]).
Definition rpc_transfer (to_address : string) (amount : Z) (memo : string) : M Node (dict string JVal) :=
  _ ← check (is_empty wallet_address) "wallet_address must be non-empty string";
  _ ← check (is_empty to_address) "to_address must be non-empty string";
  _ ← check (amount <=? 0) "amount must be a positive integer";
  _ ← check (256 <? str_len memo) "memo exceeds 256 characters";
  w ← get_wallet wallet_address;
  _ ← check (bool_decide (w_address w = to_address)) "cannot transfer to self";
  tx ← wallet_tx now w mfpw mpf (λ n f p, mk_transfer now (w_address w) n f p to_address amount memo);
  mret (tx_result tx [("amount", JInt amount); ("to", JStr to_address)]).
Definition rpc_issue_token (name symbol : string) (decimals max_supply : Z) (transferable : bool)
    : M Node (dict string JVal) :=
  _ ← check (is_empty wallet_address) "wallet_address must be non-empty string";
  _ ← check (is_empty name) "name must be non-empty string";
  _ ← check (is_empty symbol) "symbol must be non-empty string";
  _ ← check (decimals <? 0) "decimals must be a non-negative integer";
  _ ← check (max_supply <? 0) "max_supply must be a non-negative integer";
  w ← get_wallet wallet_address;
  tx ← wallet_tx now w mfpw mpf (λ n f p,
         mk_issue_token now (w_address w) n f p name symbol decimals max_supply transferable);
  let token_id := str_take 32 (hex (sha3_256 (utf8 (w_address w +:+ symbol +:+ str_of_Z (nonce tx))))) in
  mret (tx_result tx [("token_id", JStr token_id); ("symbol", JStr symbol)]).
Definition rpc_mint_token (token_id rcp : string) (amount : Z) : M Node (dict string JVal) :=
  _ ← check (is_empty wallet_address) "wallet_address must be non-empty string";
  _ ← check (is_empty token_id) "token_id must be non-empty string";
  _ ← check (is_empty rcp) "recipient must be non-empty string";
  _ ← check (amount <=? 0) "amount must be a positive integer";
  w ← get_wallet wallet_address;
  tx ← wallet_tx now w mfpw mpf (λ n f p, mk_mint_token now (w_address w) n f p rcp token_id amount);
  mret (tx_result tx [("token_id", JStr token_id); ("amount", JInt amount); ("recipient", JStr rcp)]).
Definition rpc_transfer_token (token_id rcp : string) (amount : Z) (memo : string) : M Node (dict string JVal) :=
  _ ← check (is_empty wallet_address) "wallet_address must be non-empty string";
  _ ← check (is_empty token_id) "token_id must be non-empty string";
  _ ← check (is_empty rcp) "recipient must be non-empty string";
  _ ← check (amount <=? 0) "amount must be a positive integer";
  w ← get_wallet wallet_address;
  tx ← wallet_tx now w mfpw mpf (λ n f p, mk_transfer_token now (w_address w) n f p rcp token_id amount memo);
  mret (tx_result tx [("token_id", JStr token_id); ("amount", JInt amount); ("recipient", JStr rcp)]).
Definition rpc_submit_evidence (validator_address : string) (block_index : Z)
    (a_hash b_hash a_sig b_sig a_header b_header : string) : M Node (dict string JVal) :=
  _ ← check (is_empty wallet_address) "wallet_address required";
  _ ← check (is_empty validator_address) "validator_address required";
  _ ← check (block_index <? 0) "block_index must be non-negative integer";
  _ ← check (existsb is_empty [a_hash; b_hash; a_sig; b_sig; a_header; b_header]) "must be non-empty string";
  w ← get_wallet wallet_address;
  tx ← wallet_tx now w mfpw mpf (λ n f p,
         mk_evidence now (w_address w) n f p validator_address block_index a_hash b_hash a_sig b_sig a_header b_header);
  mret (tx_result tx [("validator_address", JStr validator_address)]).
End Methods.

(** The methods that submit for a wallet, as [_register_rpc] names them *)
Inductive request :=
  | RegisterKey
  | RegisterValidator
  | RevokeKey (key_type reason : string)
  | StakeOn (validator_address : string) (amount : Z)
  | DelegateTo (validator_address : string) (amount : Z)
  | UnstakeFrom (validator_address : string) (amount : Z)
  | NotarizeDoc (document_hash metadata : string)
  | StoreDoc (document_hash cid metadata : string)
  | ShareDoc (coins recipient_address cid recipient_encryption_pk : string) (expires : Z)
  | TransferTo (to_address : string) (amount : Z) (memo : string)
  | IssueToken (name symbol : string) (decimals max_supply : Z) (transferable : bool)
  | MintToken (token_id rcp : string) (amount : Z)
  | TransferToken (token_id rcp : string) (amount : Z) (memo : string)
  | SubmitEvidence (validator_address : string) (block_index : Z)
      (a_hash b_hash a_sig b_sig a_header b_header : string).
Definition handle (now : Z) (wallet_address : string) (mfpw mpf : option Z) (r : request) : M Node (dict string JVal) :=
  match r with
  | RegisterKey => rpc_register_key now wallet_address mfpw mpf
  | RegisterValidator => rpc_register_validator now wallet_address mfpw mpf
  | RevokeKey kt reason => rpc_revoke_key now wallet_address mfpw mpf kt reason
  | StakeOn v a => rpc_stake now wallet_address mfpw mpf v a
  | DelegateTo v a => rpc_delegate now wallet_address mfpw mpf v a
  | UnstakeFrom v a => rpc_unstake now wallet_address mfpw mpf v a
  | NotarizeDoc dh meta => rpc_notarize now wallet_address mfpw mpf dh meta
  | StoreDoc dh cid meta => rpc_store now wallet_address mfpw mpf dh cid meta
  | ShareDoc coins rcp cid pk e => rpc_share now wallet_address mfpw mpf coins rcp cid pk e
  | TransferTo rcp a memo => rpc_transfer now wallet_address mfpw mpf rcp a memo
  | IssueToken nm sy d ms tr => rpc_issue_token now wallet_address mfpw mpf nm sy d ms tr
  | MintToken tid rcp a => rpc_mint_token now wallet_address mfpw mpf tid rcp a
  | TransferToken tid rcp a memo => rpc_transfer_token now wallet_address mfpw mpf tid rcp a memo
  | SubmitEvidence v i ah bh asig bsig ahd bhd =>
      rpc_submit_evidence now wallet_address mfpw mpf v i ah bh asig bsig ahd bhd
  end.

(** A transaction signed elsewhere *)
Definition rpc_send_raw_tx (now : Z) (tx_data : dict string JVal) : M Node (dict string JVal) :=
  tx ← lift (tx_from_dict tx_data);
  _ ← with_lock (sender tx) (submit_or_raise now tx);
  _ ← announce_tx tx EmptyString;
  mret (tx_result tx []).

(** ** Shared secrets and wallets *)

Definition rpc_get_shared_secret (tid : string) : M Node (dict string JVal) :=
  n ← get;
  match dget (shared_secrets n) tid with
  | Some ss => _ ← check (is_empty ss) "shared secret not found"; mret [("shared_secret", JStr (hex ss))]
  | None => raise (ValueError "shared secret not found")
  end.
Definition rpc_decapsulate_shared (wallet_address tid : string) : M Node (dict string JVal) :=
  w ← get_wallet wallet_address;
  n ← get;
  match get_tx (chain n) tid with
  | None => raise (ValueError "tx not found")
  | Some tx =>
      _ ← check (negb (bool_decide (tx_type tx = SHARE))) "not a SHARE transaction";
      _ ← check (negb (bool_decide (recipient tx = w_address w))) "wallet is not the recipient";
      let ct_hex := jget (payload tx) "encapsulatedKey" (JStr EmptyString) in
      _ ← check (negb (truthy ct_hex)) "no encapsulatedKey in tx";
      ciphertext ← lift (fromhex_val ct_hex);
      ss ← lift (decapsulate (w_encryption_sk w) ciphertext);
      mret [("shared_secret", JStr (hex ss))]
  end.
(** [Wallet.generate] with the pairs the two [keygen] return *)
Definition rpc_new_wallet (signing encryption : string * string) : M Node (dict string JVal) :=
  let w := generate signing encryption in
  _ ← modify (set wallets (λ d, dset d (w_address w) w));
  mret [("address", JStr (w_address w)); ("signing_pk", JStr (hex (w_signing_pk w)));
        ("encryption_pk", JStr (hex (w_encryption_pk w)))].

(** ** Read-only methods *)

Definition rpc_get_block (s : Chain) (i : option Z) (block_hash : option string) : result (option (dict string JVal)) :=
  match i, block_hash with
  | Some _, Some _ => Raise (ValueError "ambiguous: provide either index or block_hash, not both")
  | Some i, None => Ok (block_to_dict <$> get_block s (inl i))
  | None, Some h => Ok (block_to_dict <$> get_block s (inr h))
  | None, None => Ok None
  end.
Definition rpc_get_tx (s : Chain) (tid : string) : option (dict string JVal) :=
  match get_tx s tid with
  | None => None
  | Some tx =>
      let block_idx := get_tx_block s tid in
      let result := dset (tx_to_dict tx) "block_index" (default JNull (JInt <$> block_idx)) in
      Some match block_idx with
           | Some i =>
               if DYNAMIC_FEE_ACTIVATION_HEIGHT <=? i then
                 match get_block s (inl i) with
                 | Some b =>
                     if 0 <? weight_of tx
                     then dset result "effectiveFee" (JInt (compute_tx_fee (base_fee b) (max_fee_per_weight tx)
                                                              (max_priority_fee tx) (weight_of tx)))
                     else result
                 | None => result
                 end
               else result
           | None => result
           end
  end.

Record FeeInfo := mkFeeInfo {
  fi_base_fee : Z; fi_next_base_fee : Z; fi_suggested_priority : Z;
  fi_estimated : list (string * (Z * Z)); fi_dynamic : bool }.
Definition rpc_get_fee_info (s : Chain) : result FeeInfo :=
  let dynamic := next_is_dynamic s in
  current_bf ← (if dynamic then current_base_fee s else Ok 0);
  let next_bf :=
    if dynamic then
      match latest_block s with
      | Some parent => compute_base_fee current_bf
                         (effective_block_weight (transactions parent) (validator parent)) TARGET_BLOCK_WEIGHT
      | None => INITIAL_BASE_FEE
      end
    else INITIAL_BASE_FEE in
  let suggested_priority := Z.max 1 (current_bf / 10) in
  let estimate (tw : string * Z) :=
    (tw.1, if tw.2 =? 0 then (0, 0) else (current_bf * tw.2, (current_bf + suggested_priority) * tw.2)) in
  Ok (mkFeeInfo current_bf next_bf suggested_priority (estimate <$> TX_WEIGHTS) dynamic).

Definition rpc_validators (s : Chain) : list string :=
  merge_sort String.le (elements (dom (validators (cons s)) ∪ dom (validator_registry (keys s)))).
Definition rpc_get_encryption_pk (s : Chain) (address : string) : result (dict string JVal) :=
  match get_encryption_pk s address with
  | Some pk => guard (is_empty pk) "no encryption key registered"
                 (Ok [("address", JStr address); ("encryption_pk", JStr pk)])
  | None => Raise (ValueError "no encryption key registered")
  end.
Definition PUBLIC_PROOF_PREFIXES : list string := ["balance:"; "nonce:"].
Definition rpc_get_state_proof_at (s : Chain) (key : string) (block_index : option Z)
    : result (option (StateProof * Z)) :=
  guard (is_empty key) "key must be a non-empty string" (
  guard (negb (existsb (λ p, String.prefix p key) PUBLIC_PROOF_PREFIXES))
    "only balance: and nonce: key prefixes are allowed" (
  Ok (get_state_proof_at_block s key block_index))).
Definition rpc_list_tokens (s : Chain) (page limit : Z) : result (list (string * Token) * Z) :=
  guard (page <? 1) "page must be a positive integer" (
  guard ((limit <? 1) || (100 <? limit)) "limit must be 1-100" (
  Ok (list_tokens s page limit, Z.of_nat (size (token_registry (tokens s)))))).
Definition rpc_get_address_tokens (order : gset string → list string) (s : Chain) (address : string) (page limit : Z)
    : result (list AddressToken) :=
  guard (is_empty address) "address must be a non-empty string" (
  guard (page <? 1) "page must be a positive integer" (
  guard (limit <? 1) "limit must be a positive integer" (
  Ok (get_address_tokens order s address page (Z.min limit 100))))).
Definition rpc_get_block_headers (s : Chain) (start count : Z) : result (list (dict string JVal)) :=
  guard (start <? 0) "start must be a non-negative integer" (
  guard ((count <? 1) || (100 <? count)) "count must be 1-100" (
  Ok (get_block_headers s start count))).

(** ** Handlers of messages from peers *)

(** [try: m; except Exception: h] *)
Definition try_except (m h : M Node unit) : M Node unit := λ n,
  match m n with (Ok tt, n') => (Ok tt, n') | (Raise _, n') => h n' end.
(** The heavier penalty for a forged state root *)
Definition refusal_event (err : string) : string :=
  if contains "state_root mismatch" err then "state_root_mismatch" else "invalid_block".

Definition lock_genesis_if_needed : M Node unit :=
  n ← get;
  when ((0 <=? height (chain n)) && is_empty (genesis_hash (cons (chain n))))
    match get_block (chain n) (inl 0) with
    | Some genesis => on chain (on cons (set_the_genesis_hash (block_hash genesis)))
    | None => mret tt
    end.

(** [self.metrics.block_validation_errors_total.inc()]; the counters the
    registry has are only read by its text and left out of the node. *)
Definition count_refusal : M Node unit :=
  match counter_named new_registry "block_validation_errors_total" with Some _ => mret tt | None => raise AttributeError end.
(** [syncing] is [sync_manager.is_syncing()]. *)
Definition p2p_new_block (syncing : bool) (now : Z) (peer : string) (data : dict string JVal) : M Node unit :=
  try_except
    (v ← lift (jindex data "block");
     d ← lift (as_dict v);
     block ← lift (block_from_dict d);
     verdict ← on chain (add_block now block);
     match verdict with
     | None =>
         _ ← record_event peer "valid_block";
         _ ← lock_genesis_if_needed;
         when (negb syncing) (announce_block block peer)
     | Some err => _ ← record_event peer (refusal_event err); count_refusal
     end)
    (_ ← record_event peer "invalid_block"; count_refusal).
Definition p2p_new_tx (now : Z) (peer : string) (data : dict string JVal) : M Node unit :=
  try_except
    (v ← lift (jindex data "tx");
     d ← lift (as_dict v);
     tx ← lift (tx_from_dict d);
     verdict ← on chain (submit_tx now tx);
     match verdict with
     | None => _ ← record_event peer "valid_tx"; announce_tx tx peer
     | Some _ => record_event peer "invalid_tx"
     end)
    (record_event peer "invalid_tx").

(** The heights and the count are integers; [int()] of a text or a float is
    outside the model. *)
Definition with_request_id (data resp : dict string JVal) : dict string JVal :=
  let req_id := jget data "request_id" JNull in
  if truthy req_id then resp ++ [("request_id", req_id)] else resp.
Definition p2p_get_blocks (peer : string) (data : dict string JVal) : M Node unit :=
  match (a ← jget_int data "from" 0; c ← jget_int data "count" 50; Ok (Z.max 0 a, Z.min c 100)) with
  | Raise _ => mret tt
  | Ok (start, count) =>
      n ← get;
      let chain_len := height (chain n) + 1 in
      let blocks := omap (λ i, get_block (chain n) (inl i)) (zrange start (Z.min (start + count) chain_len)) in
      send peer "blocks" (with_request_id data [("blocks", JList ((λ b, JObj (block_to_dict b)) <$> blocks))])
  end.

(** A batch ends at the first block that is not taken, and the handler with it.
    A [request_id] that cannot be hashed fails the test of membership. *)
Fixpoint accept_blocks (now : Z) (peer : string) (l : list JVal) : M Node unit :=
  match l with
  | [] => mret tt
  | bd :: rest => λ n,
      match (d ← lift (as_dict bd); block ← lift (block_from_dict d); verdict ← on chain (add_block now block);
             match verdict with
             | None => _ ← record_event peer "valid_block"; lock_genesis_if_needed
             | Some err => _ ← record_event peer (refusal_event err); count_refusal
             end) n with
      | (Ok tt, n') => accept_blocks now peer rest n'
      | (Raise _, n') => (_ ← record_event peer "invalid_block"; count_refusal) n'
      end
  end.
Definition p2p_blocks (now : Z) (peer : string) (data : dict string JVal) : M Node unit :=
  match jget data "request_id" JNull with
  | JStr req_id =>
      n ← get;
      if is_empty req_id || negb (bool_decide (req_id ∈ pending_requests n)) then mret tt
      else
        _ ← modify (set pending_requests (λ r, r ∖ {[req_id]}));
        match jget data "blocks" (JList []) with
        | JList l => accept_blocks now peer (take 100 l)
        | _ => mret tt
        end
  | JList (_ :: _) | JObj (_ :: _) => raise TypeError
  | _ => mret tt
  end.
Definition p2p_get_chain_info (peer : string) (data : dict string JVal) : M Node unit :=
  n ← get;
  let head := match latest_block (chain n) with
              | Some tip => block_hash tip
              | None => String.string_of_list_ascii (replicate 64 "0"%char)
              end in
  send peer "chain_info" (with_request_id data
    [("height", JInt (height (chain n))); ("head_hash", JStr head);
     ("finalized_height", JInt (Z.max 0 (height (chain n) - 6)));
     ("epoch", JInt (current_epoch (staking (chain n))))]).

(** One turn of [_block_loop], with the wallet of the validator; a failure is logged. *)
Definition block_loop_turn (syncing : bool) (now : Z) (w : Wallet) : M Node unit :=
  if syncing then mret tt
  else try_except
    (sk ← lift (sb_bytes (w_signing_sk w));
     made ← on chain (produce_block now (w_address w) sk);
     match made with Some b => announce_block b EmptyString | None => mret tt end)
    (mret tt).
End Node.
