(* ===== verification/ReceiptLaws.v ===== *)
(** * The receipts of an accepted block

    What [record_receipts] leaves for every transaction of a block, that
    pruning never touches the new receipts, and that the light-client query
    for a receipt answers with a proof against the header of its block. *)
From S2P Require Import Prelude PyStr Json Config Crypto StateTrie Wallet Transaction Fees Block Receipt ChainState Ledger StateOps Staking Consensus ReceiptOps Apply Frames Books TxPool Rollback Chain ChainLaws Query.
Open Scope Z_scope.

Lemma Forall2_with_id {B} (P : Applied → B → Prop) l (k : list B) :
  Forall2 P l k → Forall2 (λ a x, ap_tx_id a ∈ ap_tx_id <$> l ∧ P a x) l k.
Proof.
  intros H. assert (G : ∀ l' : list string, (∀ a, a ∈ l → ap_tx_id a ∈ l') → Forall2 (λ a x, ap_tx_id a ∈ l' ∧ P a x) l k).
  { induction H as [|a x l k Hax H IH]; intros l' Hl'; constructor; [split; [apply Hl'; set_solver|done]|].
    apply IH. intros; apply Hl'; set_solver. }
  apply G. intros a Ha. by apply list_elem_of_fmap_2.
Qed.

Section Receipts.
Context `{C : Crypto} `{Cfg : ChainConfig}.

(** The application of the transactions does not touch the receipts. *)
Lemma recs_apply_txs b i n txs : fixes recs (apply_txs b i n txs).
Proof.
  revert n. induction txs as [|tx txs IH]; intros n; cbn [apply_txs]; [apply fixes_ret|].
  apply fixes_bind; [|intros a; apply fixes_bind; [apply IH|intros; apply fixes_ret]].
  unfold apply_tx. do 3 (apply fixes_bind; [by apply fixes_blind|intros ?]).
  apply fixes_bind; [|intros failed; auto 10 with fixes].
  apply frame_apply_type; intros; (done || by apply fixes_blind).
Qed.

Lemma apply_tx_result b i n tx s a s' : apply_tx b i n tx s = (Ok a, s') → ap_tx_id a = tx_id tx ∧ ap_index a = n.
Proof.
  unfold apply_tx. unfold mbind, M_bind. unfold on at 1, zoom at 1, modify at 1. cbv beta iota.
  unfold on at 1, zoom at 1, modify at 1. cbv beta iota. unfold on at 1, zoom at 1.
  destruct (settle b i tx _) as [[fee|e] L]; [|done]. destruct (apply_type i tx _) as [[r|e] s2]; [|done].
  unfold get, lift. destruct (build_tx_events s2 tx i); [|done]. by intros [= <- _].
Qed.
Lemma apply_txs_result b i n txs s l s' : apply_txs b i n txs s = (Ok l, s') →
  ap_tx_id <$> l = tx_id <$> txs ∧ (∀ k a, l !! k = Some a → ap_index a = n + Z.of_nat k).
Proof.
  revert n s l. induction txs as [|tx txs IH]; intros n s l; cbn [apply_txs].
  { intros [= <- _]. split; [done|]. intros k a. by rewrite lookup_nil. }
  unfold mbind at 1, M_bind at 1. destruct (apply_tx b i n tx s) as [[a|e] s1] eqn:E1; [|done].
  unfold mbind, M_bind. destruct (apply_txs b i (n + 1) txs s1) as [[l1|e] s2] eqn:E2; [|done].
  intros [= <- <-]. apply apply_tx_result in E1 as [H1 H2]. apply IH in E2 as [H3 H4]. split.
  - csimpl. by rewrite H1, H3.
  - intros [|k] x; cbn; [intros [= <-]; lia|]. intros Hx. apply H4 in Hx. lia.
Qed.

(** ** Recording *)

Lemma push_lookup_ne {K V} `{Countable K} (k k' : K) (x : V) (m : gmap K (list V)) : k ≠ k' → push k x m !! k' = m !! k'.
Proof. intros Hk. unfold push. by rewrite lookup_insert_ne. Qed.

Lemma record_receipts_spec i failed l r rs r' :
  record_receipts i failed l r = (Ok rs, r') → NoDup (ap_tx_id <$> l) →
  Forall2 (λ a x, receipt_of i failed a = Ok x) l rs ∧
  Forall2 (λ a x, dget (receipts r') (ap_tx_id a) = Some x) l rs ∧
  (∀ t, t ∉ ap_tx_id <$> l → dget (receipts r') t = dget (receipts r) t) ∧
  (∀ j, j ≠ i → events_by_block r' !! j = events_by_block r !! j) ∧
  (∀ t, t ∈ get_or (events_by_block r') i [] → t ∈ get_or (events_by_block r) i [] ∨ t ∈ ap_tx_id <$> l).
Proof.
  revert r rs. induction l as [|a l IH]; intros r rs; cbn [record_receipts].
  { intros [= <- <-] _. split_and!; [constructor|constructor|done|done|tauto]. }
  unfold lift. unfold mbind at 1, M_bind at 1. destruct (receipt_of i failed a) as [x|e] eqn:Ex; [|done].
  unfold modify. unfold mbind at 1, M_bind at 1. unfold mbind at 1, M_bind at 1. unfold mbind at 1, M_bind at 1.
  set (r1 := set events_by_block _ _). unfold mbind, M_bind.
  destruct (record_receipts i failed l r1) as [[rest|e] r2] eqn:Er; [|done]. intros [= <- <-] Hnd.
  csimpl in Hnd. apply list.NoDup_cons in Hnd as [Hni Hnd].
  destruct (IH _ _ Er Hnd) as (H1 & H2 & H3 & H4 & H5). split_and!.
  - by constructor.
  - constructor; [|done]. rewrite (H3 _ Hni). subst r1. chain_simpl. apply dget_dset_eq.
  - intros t Ht. rewrite fmap_cons, not_elem_of_cons in Ht. destruct Ht as [Ha Ht]. rewrite (H3 t Ht). subst r1. chain_simpl.
    by apply dget_dset_ne.
  - intros j Hj. rewrite (H4 j Hj). subst r1. chain_simpl. by apply push_lookup_ne.
  - intros t Ht. apply H5 in Ht as [Ht|Ht]; [|right; csimpl; set_solver]. subst r1. chain_simpl_in Ht.
    unfold push in Ht. rewrite get_or_insert, decide_True in Ht by done.
    apply elem_of_app in Ht as [Ht|Ht]; [by left|]. right. csimpl. set_solver.
Qed.

(** ** Pruning *)

Lemma dget_foldl_dpop (l : list string) (d : dict string Receipt) t :
  t ∉ l → dget (foldl dpop d l) t = dget d t.
Proof.
  revert d. induction l as [|x l IH]; intros d Ht; [done|]. cbn [foldl].
  apply not_elem_of_cons in Ht as [Hx Ht]. rewrite IH by done. by apply dget_dpop_ne.
Qed.
Lemma prune_receipts_spec pb r :
  (∀ t, (∀ l, events_by_block r !! pb = Some l → t ∉ l) →
    dget (receipts (prune_receipts pb r)) t = dget (receipts r) t) ∧
  (∀ j t, t ∈ get_or (events_by_block (prune_receipts pb r)) j [] → t ∈ get_or (events_by_block r) j []).
Proof.
  unfold prune_receipts. destruct (events_by_block r !! pb) as [pruned|] eqn:E; [|by split].
  assert (Hev : ∀ j t, t ∈ get_or (delete pb (events_by_block r)) j [] → t ∈ get_or (events_by_block r) j []).
  { intros j t. rewrite get_or_delete. case_decide; [intros Ht; by apply elem_of_nil in Ht|done]. }
  case_bool_decide; split; intros *; chain_simpl; [done|apply Hev| |apply Hev].
  intros Ht. apply dget_foldl_dpop. by apply Ht.
Qed.

Definition kept_recs (s : Chain) : dict string Receipt * gmap Z (list string) :=
  (receipts (recs s), events_by_block (recs s)).
Lemma kept_finality i : fixes kept_recs (update_finality i).
Proof.
  unfold update_finality. apply fixes_bind; [done|intros s]. destruct (_ || _); [done|].
  destruct (finality_walk _ _ _ _ _ _); [|done]. apply fixes_when. done.
Qed.
Lemma kept_reward b i : fixes kept_recs (on ledger (apply_reward b i)).
Proof. by apply fixes_on. Qed.
Lemma kept_store i es : fixes kept_recs (on recs (modify (store_block_events i es))).
Proof. done. Qed.

Lemma prune_history_spec i s : 
  (∀ t, (∀ l, events_by_block (recs s) !! (i - MAX_REORG_DEPTH - 1) = Some l → t ∉ l) →
    dget (receipts (recs (prune_history i s).2)) t = dget (receipts (recs s)) t) ∧
  (∀ j t, t ∈ get_or (events_by_block (recs (prune_history i s).2)) j [] →
    t ∈ get_or (events_by_block (recs s)) j []).
Proof.
  unfold prune_history, when. destruct (0 <=? _); [|done]. apply prune_receipts_spec.
Qed.

Lemma seal_receipts_root b rs s s' : seal_receipts b rs s = (Ok tt, s') →
  kept_recs s' = kept_recs s ∧ (receipts_root b ≠ EmptyString → receipts_root b = receipts_root_of rs).
Proof.
  unfold seal_receipts, mbind, M_bind, on, zoom, modify, lift, check_root. intros [= Hc <-].
  split; [done|]. intros Hne. destruct (receipts_root b) as [|c t] eqn:Eb; [done|]. cbn [is_empty negb andb] in Hc.
  destruct (bool_decide (String c t = receipts_root_of rs)) eqn:Er; [|done]. by apply bool_decide_eq_true in Er.
Qed.

(** Everything after the transactions, seen from the receipts *)
Lemma close_receipts b i es l s s' : close_block b i es l s = (Ok tt, s') → NoDup (ap_tx_id <$> l) →
  (∀ x t, events_by_block (recs s) !! (i - MAX_REORG_DEPTH - 1) = Some x → t ∈ ap_tx_id <$> l → t ∉ x) →
  ∃ rs failed, Forall2 (λ a x, receipt_of i failed a = Ok x) l rs ∧
    Forall2 (λ a x, dget (receipts (recs s')) (ap_tx_id a) = Some x) l rs ∧
    (receipts_root b ≠ EmptyString → receipts_root b = receipts_root_of rs) ∧
    (∀ j t, t ∈ get_or (events_by_block (recs s')) j [] →
      t ∈ get_or (events_by_block (recs s)) j [] ∨ t ∈ ap_tx_id <$> l).
Proof.
  intros Hrun Hnd Hfresh. unfold close_block in Hrun. set (failed := ap_tx_id <$> _) in Hrun.
  unfold mbind at 1, M_bind at 1, on at 1, zoom at 1 in Hrun.
  destruct (record_receipts i failed l (recs s)) as [[rs|e] r1] eqn:Er; [|done].
  destruct (record_receipts_spec _ _ _ _ _ _ Er Hnd) as (H1 & H2 & _ & H4 & H5).
  set (s1 := set recs _ s) in Hrun. unfold mbind at 1, M_bind at 1 in Hrun. pose proof (kept_reward b i s1) as K2.
  destruct (on ledger (apply_reward b i) s1) as [[revs|e] s2]; [|done]. cbn [snd] in K2.
  unfold mbind at 1, M_bind at 1 in Hrun. pose proof (kept_store i (es ++ revs) s2) as K3.
  destruct (on recs _ s2) as [[[]|e] s3]; [|done]. cbn [snd] in K3.
  unfold mbind at 1, M_bind at 1 in Hrun. destruct (seal_receipts b rs s3) as [[[]|e] s4] eqn:E4; [|done].
  apply seal_receipts_root in E4 as [K4 Hroot].
  unfold mbind at 1, M_bind at 1 in Hrun. pose proof (frame_seal_state kept_recs b i ltac:(done) s4) as K5.
  destruct (seal_state b i s4) as [[[]|e] s5]; [|done]. cbn [snd] in K5.
  unfold mbind at 1, M_bind at 1 in Hrun. destruct (prune_history_spec i s5) as [P1 P2].
  destruct (prune_history i s5) as [[[]|e] s6]; [|done]. cbn [snd] in P1, P2.
  pose proof (kept_finality i s6) as K7. rewrite Hrun in K7. cbn [snd] in K7.
  rewrite K4, K3, K2 in K5. unfold kept_recs in K5, K7. injection K5 as E5 E5'. injection K7 as E7 E7'.
  subst s1. chain_simpl_in E5. chain_simpl_in E5'. rewrite E5 in P1. rewrite E5' in P1, P2. rewrite E7, E7'.
  exists rs, failed. split_and!; [done| |done|].
  - eapply list.Forall2_impl; [exact (Forall2_with_id _ _ _ H2)|]. cbn. intros a x [Ha Hx]. rewrite P1; [done|].
    intros y Hy. rewrite H4 in Hy by (unfold MAX_REORG_DEPTH; lia). by apply (Hfresh y).
  - intros j t Ht. apply P2 in Ht. destruct (decide (j = i)) as [->|Hj]; [by apply H5|].
    left. unfold get_or in *. by rewrite H4 in Ht.
Qed.

(** ** The invariant: what the event index lists is on the chain *)

Definition recs_ok (s : Chain) : Prop := ∀ j t,
  t ∈ get_or (events_by_block (recs s)) j [] → t ∈ chain_tx_ids (cons s).
Lemma recs_ok_eq s s' : recs s' = recs s → chain_tx_ids (cons s') = chain_tx_ids (cons s) → recs_ok s → recs_ok s'.
Proof. intros H1 H2 H j t. rewrite H1, H2. apply H. Qed.

(** Appending a block whose identifiers are new to the chain *)
Lemma append_receipts b s s' : recs_ok s → append_block_inner b s = (Ok tt, s') →
  NoDup (tx_id <$> transactions b) → (∀ tx, tx ∈ transactions b → tx_id tx ∉ chain_tx_ids (cons s)) →
  recs_ok s' ∧ ∃ l rs failed,
    ap_tx_id <$> l = tx_id <$> transactions b ∧ (∀ k a, l !! k = Some a → ap_index a = Z.of_nat k) ∧
    Forall2 (λ a x, receipt_of (height s + 1) failed a = Ok x) l rs ∧
    Forall2 (λ a x, dget (receipts (recs s')) (ap_tx_id a) = Some x) l rs ∧
    (receipts_root b ≠ EmptyString → receipts_root b = receipts_root_of rs).
Proof.
  intros Hok Hrun Hnd Hfresh. pose proof (append_spine b s s' Hrun) as Hsp. injection Hsp as _ _ _ _ _ Hids.
  rewrite append_block_inner_close in Hrun. unfold mbind at 1, M_bind at 1, gets in Hrun. unfold mbind at 1, M_bind at 1 in Hrun.
  unfold open_block, modify in Hrun. set (i := height s + 1) in *. set (s0 := set idx _ _) in Hrun.
  unfold mbind at 1, M_bind at 1 in Hrun. pose proof (frame_begin_block recs i ltac:(done) ltac:(done) s0) as F1.
  destruct (begin_block i s0) as [[es|e] s1]; [|done]. cbn [snd] in F1.
  unfold mbind at 1, M_bind at 1 in Hrun. pose proof (recs_apply_txs b i 0 (transactions b) s1) as F2.
  destruct (apply_txs b i 0 (transactions b) s1) as [[l|e] s2] eqn:E2; [|done]. cbn [snd] in F2.
  apply apply_txs_result in E2 as [Hl Hidx]. assert (Hr : recs s2 = recs s) by by rewrite F2, F1.
  destruct (close_receipts _ _ _ _ _ _ Hrun) as (rs & failed & H1 & H2 & H3 & H4).
  - by rewrite Hl.
  - intros x t Hx Ht Hin. rewrite Hl in Ht. apply list_elem_of_fmap in Ht as (tx & -> & Htx).
    apply (Hfresh tx Htx), (Hok (i - MAX_REORG_DEPTH - 1)). unfold get_or. by rewrite <-Hr, Hx.
  - split.
    + intros j t Ht. rewrite Hids. apply H4 in Ht as [Ht|Ht].
      * rewrite Hr in Ht. apply Hok in Ht. set_solver.
      * rewrite Hl in Ht. set_solver.
    + by exists l, rs, failed.
Qed.
End Receipts.

(** ** Reachable chains *)

Section Reach.
Context `{C : Crypto} `{Cfg : ChainConfig}.

Lemma recs_submit now tx s : recs (submit_tx now tx s).2 = recs s.
Proof.
  unfold submit_tx, get, lift. unfold mbind, M_bind. destruct (admission now s tx) as [[m|]|e]; [done| |done].
  by destruct (calc_tx_debit _ _ tx).
Qed.
Lemma recs_activate v : fixes recs (activate_financial_layer v).
Proof. pose proof (frame_rebuild recs ltac:(done)). unfold activate_financial_layer. auto 20 with fixes. Qed.

Lemma valid_fresh now s b p tx : valid_successor now s b p → tx ∈ transactions b → tx_id tx ∉ chain_tx_ids (cons s).
Proof. intros Hv Htx. pose proof (vs_txs _ _ _ _ Hv) as H. apply (Forall_in _ _ _ H) in Htx. by destruct Htx as [[]]. Qed.

Lemma step_recs s s' : step s s' → chain_ok s → 0 <= height s → recs_ok s → recs_ok s'.
Proof.
  intros Hst Hs Hh Hr. destruct Hst as [now tx r s' Hrun|now b s' Hrun|now v sk [b|] s' Hrun|v s' Hrun].
  - pose proof (submit_spine now tx s) as Hsp. pose proof (recs_submit now tx s) as He. rewrite Hrun in *.
    injection Hsp as _ _ _ _ _ Hids. by apply (recs_ok_eq s).
  - destruct (add_block_run now b s s' Hs Hh Hrun) as (p & s1 & Hp & Hv & _ & Happ & Hdr).
    destruct (drain_pool_run b s1) as (r & q & Hq). rewrite Hdr in Hq. injection Hq as _ ->.
    destruct (append_receipts b s s1 Hr Happ) as [H1 _]; [apply (vs_unique _ _ _ _ Hv)|by intros; eapply valid_fresh|].
    by apply (recs_ok_eq s1).
  - destruct (produce_block_run now v sk s b s' Hrun) as (_ & p & d & blk & s1 & s2 & Hp & Hd & Hb & Hv & Happ & Hst & Hdr).
    destruct (drain_pool_run b s2) as (r & q & Hq). rewrite Hdr in Hq. injection Hq as _ ->.
    destruct (stamp_run _ _ _ _ _ _ _ Hst) as (_ & Hs2).
    destruct (chain_ok_tip s p Hs Hp) as (l & Hl & Hip & _). destruct (draft_block_sub _ _ _ _ _ Hd) as (Hdi & _).
    unfold block_sign in Hb. destruct (MLDSA_sign sk _) as [sig|]; [|done]. injection Hb as <-.
    assert (Hnz : index (set_signature d sig) ≠ 0) by (cbn; lia). apply (validate_block_accept now s _ p Hnz) in Hv.
    destruct (append_receipts _ s s1 Hr Happ) as [H1 _]; [apply (vs_unique _ _ _ _ Hv)|by intros; eapply valid_fresh|].
    apply (recs_ok_eq s1); [by rewrite Hs2|by rewrite Hs2|done].
  - by apply produce_none in Hrun as ->.
  - pose proof (spine_activate v s) as Hsp. pose proof (recs_activate v s) as He. rewrite Hrun in *.
    injection Hsp as _ _ _ _ _ Hids. by apply (recs_ok_eq s).
Qed.

Lemma genesis_recs now v sk pk s : init_chain now v sk pk empty_Chain = (Ok tt, s) → recs_ok s.
Proof.
  intros Hrun. destruct (init_run now v sk pk s Hrun) as (txs & sig & s1 & st & sr & rr & signed & s3 & Hlen & _ & Ha & Est & ->).
  assert (H0 : recs_ok empty_Chain) by (intros j t Ht; by apply elem_of_nil in Ht).
  destruct (append_receipts _ empty_Chain s1 H0 Ha) as [H1 _].
  - cbn. destruct txs as [|t [|]]; [constructor|apply NoDup_singleton|cbn in Hlen; lia].
  - intros tx _. by apply not_elem_of_empty.
  - destruct (stamp_run _ _ _ _ _ _ _ Est) as (_ & Hs3). apply (recs_ok_eq s1); [by rewrite Hs3|by rewrite Hs3|done].
Qed.
Lemma reachable_recs s : reachable s → recs_ok s.
Proof.
  induction 1 as [now v sk pk s Hrun|s s' Hs Hr Hst]; [by eapply genesis_recs|].
  destruct (reachable_ok s Hs). by eapply step_recs.
Qed.

Lemma receipt_proof_verifies (rs : list Receipt) n r : rs !! n = Some r →
  verify_receipt_proof (receipt_hash r) (receipt_proof rs (Z.of_nat n)) (receipts_root_of rs) = Ok true.
Proof.
  intros Hr. pose proof (lookup_lt_Some _ _ _ Hr) as Hlt. unfold receipt_proof, verify_receipt_proof, receipt_hash, receipts_root_of.
  destruct (Z.ltb_spec (Z.of_nat n) 0); [lia|]. destruct (Z.leb_spec (Z.of_nat (length rs)) (Z.of_nat n)); [lia|]. cbn [orb].
  destruct rs as [|r0 rs0] eqn:E; [done|]. rewrite <-E in *. rewrite !fromhex_hex. f_equal.
  apply merkle_proof_complete. by rewrite list_lookup_fmap, Hr.
Qed.

Lemma omap_receipts (R : dict string Receipt) l rs (txs : list Transaction) :
  Forall2 (λ a x, dget R (ap_tx_id a) = Some x) l rs → ap_tx_id <$> l = tx_id <$> txs →
  omap (λ t, dget R (tx_id t)) txs = rs.
Proof.
  intros H. revert txs. induction H as [|a x l rs Hax H IH]; intros [|t ts]; csimpl; try done.
  intros [= Ha Hl]. rewrite <-Ha, Hax. f_equal. by apply IH.
Qed.

(** What the receipt query answers for a transaction of the tip *)
Lemma receipt_query s b l rs i failed n tx :
  chain_list s !! Z.to_nat i = Some b → 0 <= i →
  ap_tx_id <$> l = tx_id <$> transactions b → (∀ k a, l !! k = Some a → ap_index a = Z.of_nat k) →
  Forall2 (λ a x, receipt_of i failed a = Ok x) l rs →
  Forall2 (λ a x, dget (receipts (recs s)) (ap_tx_id a) = Some x) l rs →
  transactions b !! n = Some tx →
  ∃ r, get_receipt_proof s (tx_id tx) = Some (mkReceiptProof (tx_id tx) r
         ((λ p, (hex p.1, p.2)) <$> receipt_proof rs (Z.of_nat n)) (receipts_root b) i) ∧
    rs !! n = Some r ∧ r_tx_id r = tx_id tx.
Proof.
  intros Hb Hi Hl Hidx Hof Hget Hn.
  assert (∃ a, l !! n = Some a ∧ ap_tx_id a = tx_id tx) as (a & Ha & Hid).
  { assert ((ap_tx_id <$> l) !! n = Some (tx_id tx)) as H by (by rewrite Hl, list_lookup_fmap, Hn).
    rewrite list_lookup_fmap in H. destruct (l !! n) as [a|]; [|done]. injection H as H. by exists a. }
  destruct (Forall2_lookup_l _ _ _ _ _ Hof Ha) as (r & Hr & Hro). destruct (Forall2_lookup_l _ _ _ _ _ Hget Ha) as (r' & Hr' & Hg).
  rewrite Hr in Hr'. injection Hr' as <-. apply new_receipt_ok in Hro as (Er & _). rewrite Hid in Hg.
  exists r. split; [|split; [done|by rewrite Er]].
  assert (Hlt : (Z.to_nat i < length (chain_list s))%nat) by (by eapply lookup_lt_Some).
  unfold get_receipt_proof. rewrite Hg.
  assert (r_block_index r = i) as -> by by rewrite Er. assert (r_tx_index r = Z.of_nat n) as -> by (rewrite Er; by apply Hidx).
  unfold get_block_by_index. destruct (Z.leb_spec 0 i); [|lia]. destruct (Z.ltb_spec i (Z.of_nat (length (chain_list s)))); [|lia].
  cbn [andb]. by rewrite Hb, (omap_receipts _ _ _ _ Hget Hl).
Qed.
End Reach.

(** ** Property *)

(** C28 Light clients can prove execution: after a node has accepted a block that
    carries a receipts root, the receipt query answers for every transaction of
    the block, with that transaction's receipt and a Merkle path that
    verifies against the receipts root in the block's header. *)
Theorem accepted_receipts_proven `{C : Crypto} `{Cfg : ChainConfig} (now : Z) (b : Block) (s s' : Chain)
  (n : nat) (tx : Transaction)
  (Hs : reachable s) (Hrun : add_block now b s = (Ok None, s'))
  (Hroot : receipts_root b ≠ EmptyString) (Hn : transactions b !! n = Some tx) :
  ∃ rp path, get_receipt_proof s' (tx_id tx) = Some rp ∧
    r_tx_id (rp_receipt rp) = tx_id tx ∧ rp_block_index rp = index b ∧
    rp_receipts_root rp = receipts_root b ∧ decode_proof (rp_proof rp) = Some path ∧
    verify_receipt_proof (receipt_hash (rp_receipt rp)) path (receipts_root b) = Ok true.
Proof.
  destruct (reachable_ok s Hs) as [Hok Hh].
  destruct (add_block_run now b s s' Hok Hh Hrun) as (p & s1 & Hp & Hv & _ & Happ & Hdr).
  destruct (drain_pool_run b s1) as (q & pl & Hq). rewrite Hdr in Hq. injection Hq as _ ->.
  destruct (append_receipts b s s1 (reachable_recs s Hs) Happ) as (_ & l & rs & failed & Hl & Hidx & Hof & Hget & Hrr);
    [apply (vs_unique _ _ _ _ Hv)|by intros; eapply valid_fresh|].
  destruct (chain_ok_tip s p Hok Hp) as (l0 & Hl0 & Hip & _).
  destruct (receipt_query (s1 <| pool := pl |>) b l rs (height s + 1) failed n tx) as (r & Hq & Hr & Hid); try done.
  - apply append_spine in Happ. injection Happ as E1 _. chain_simpl. rewrite E1, (ck_height _ Hok).
    replace (Z.to_nat _) with (length (chain_list s)) by lia. by apply list_lookup_middle.
  - lia.
  - eexists _, _. split; [exact Hq|]. cbn. rewrite (vs_index _ _ _ _ Hv), Hip. split_and!; [done..|apply decode_proof_hex|].
    rewrite (Hrr Hroot). by apply receipt_proof_verifies.
Qed.

#[local] Existing Instance Toy.crypto.
#[local] Existing Instance legacy_config.
Lemma accepted_receipts_proven_witness :
  transactions (block_of Run.produced) !! 0%nat = Some Run.twin ∧
  ∃ rp path, get_receipt_proof Run.node_a' (tx_id Run.twin) = Some rp ∧
    r_tx_id (rp_receipt rp) = tx_id Run.twin ∧ rp_block_index rp = 1 ∧
    rp_receipts_root rp = receipts_root (block_of Run.produced) ∧ decode_proof (rp_proof rp) = Some path ∧
    verify_receipt_proof (receipt_hash (rp_receipt rp)) path (receipts_root (block_of Run.produced)) = Ok true.
Proof.
  assert (Hn : transactions (block_of Run.produced) !! 0%nat = Some Run.twin) by (vm_compute; reflexivity).
  assert (Hi : index (block_of Run.produced) = 1) by (vm_compute; reflexivity). rewrite <-Hi.
  split; [exact Hn|].
  apply (accepted_receipts_proven (C := Toy.crypto) (Cfg := legacy_config) 1000 (block_of Run.produced)
    Run.node_a Run.node_a' 0 Run.twin (Run.reachable_submit _ _ _ Run.reachable_genesis) Run.accepted_run); [|exact Hn].
  apply (bool_decide_unpack _). vm_compute. exact I.
Defined.
