(* ===== verification/Replica.v ===== *)
(** * Replication

    What the node's steps amount to between nodes.  First, determinism: the
    application of a block is a function of everything in the state but the
    pool and the stored block objects, so a block one node produces is
    accepted by every node in the same state, which ends in the state of the
    producer.  Second, an abstract specification: the log of transactions,
    which the steps of a node extend or leave alone. *)
From S2P Require Import Prelude PyStr Json Config Crypto StateTrie Wallet Transaction Fees Block Receipt ChainState Ledger StateOps Staking Consensus ReceiptOps Apply Frames Books TxPool Rollback Chain ChainLaws.
Open Scope Z_scope.

(** ** States that agree on everything a block application reads *)

Record alike (s t : Chain) : Prop := mkAlike {
  al_builders : validator <$> chain_list s = validator <$> chain_list t;
  al_height : height s = height t;
  al_idx : idx s <| block_by_hash := ∅ |> = idx t <| block_by_hash := ∅ |>;
  al_keys : keys s = keys t; al_staking : staking s = staking t; al_ledger : ledger s = ledger t;
  al_tokens : tokens s = tokens t; al_trie : trie s = trie t; al_recs : recs s = recs t;
  al_cons : cons s = cons t }.
(** [m] does the same in states that are alike. *)
Definition sim {A} (m : M Chain A) : Prop := ∀ s t, alike s t →
  (m s).1 = (m t).1 ∧ alike (m s).2 (m t).2.

Lemma sim_ret {A} (a : A) : sim (mret a).
Proof. done. Qed.
Lemma sim_raise {A} e : sim (raise (A:=A) e).
Proof. done. Qed.
Lemma sim_lift {A} (r : result A) : sim (lift r).
Proof. done. Qed.
Lemma sim_bind {A B} (m : M Chain A) (k : A → M Chain B) : sim m → (∀ a, sim (k a)) → sim (m ≫= k).
Proof.
  intros Hm Hk s t Hst. destruct (Hm s t Hst) as [H1 H2]. unfold mbind, M_bind.
  destruct (m s) as [r s1], (m t) as [r' t1]. cbn in H1, H2. subst r'. destruct r as [a|e]; [by apply Hk|done].
Qed.
Lemma sim_when b m : sim m → sim (when b m).
Proof. destruct b; [done|intros _; apply sim_ret]. Qed.
Lemma sim_mfor {A} (f : A → M Chain unit) l : (∀ x, sim (f x)) → sim (mfor f l).
Proof. intros Hf. induction l as [|x l IH]; [apply sim_ret|]. apply sim_bind; [apply Hf|done]. Qed.
(** What is read is the same in both states. *)
Lemma sim_get {A} (k : Chain → M Chain A) :
  (∀ s t, alike s t → k s = k t) → (∀ s, sim (k s)) → sim (get ≫= k).
Proof. intros Hk Hs s t Hst. unfold mbind, M_bind, get. rewrite (Hk s t) by done. by apply Hs. Qed.
Lemma sim_gets {A} (f : Chain → A) : (∀ s t, alike s t → f s = f t) → sim (gets f).
Proof. intros Hf s t Hst. unfold gets. cbn. by rewrite (Hf s t). Qed.
(** An operation of one component that both states share *)
Lemma sim_on {U A} (ρ : Chain → U) `{!Setter ρ} (m : M U A) :
  (∀ s t, alike s t → ρ s = ρ t) → (∀ u s t, alike s t → alike (set ρ (λ _, u) s) (set ρ (λ _, u) t)) →
  sim (on ρ m).
Proof.
  intros Hr Hset s t Hst. unfold on, zoom. rewrite (Hr s t Hst).
  destruct (m (ρ t)) as [r u]. split; [done|]. by apply Hset.
Qed.

Create HintDb sim.
#[export] Hint Resolve sim_ret sim_raise sim_lift sim_when sim_mfor : sim.
Ltac sim_component := apply sim_on; [by intros ? ? []|intros ? ? ? []; by split].
#[export] Hint Extern 1 (sim (on keys _)) => sim_component : sim.
#[export] Hint Extern 1 (sim (on staking _)) => sim_component : sim.
#[export] Hint Extern 1 (sim (on ledger _)) => sim_component : sim.
#[export] Hint Extern 1 (sim (on tokens _)) => sim_component : sim.
#[export] Hint Extern 1 (sim (on trie _)) => sim_component : sim.
#[export] Hint Extern 1 (sim (on recs _)) => sim_component : sim.
#[export] Hint Extern 1 (sim (on cons _)) => sim_component : sim.
#[export] Hint Extern 2 (sim (_ ≫= _)) => (apply sim_bind; [|intros ?]) : sim.
#[export] Hint Extern 3 (sim (if ?b then _ else _)) => destruct b : sim.
#[export] Hint Extern 3 (sim (match ?x with _ => _ end)) => destruct x : sim.

Section Sim.
Context `{C : Crypto} `{Cfg : ChainConfig}.

(** The pool is outside, whatever is done to it. *)
Lemma sim_pool (m : M Pool unit) : (∀ p, (m p).1 = Ok tt) → sim (on pool m).
Proof.
  intros Hm s t Hst. unfold on, zoom. pose proof (Hm (pool s)) as H1. pose proof (Hm (pool t)) as H2.
  destruct (m (pool s)) as [r p], (m (pool t)) as [r' p']. cbn in *. subst. split; [done|]. by destruct Hst.
Qed.

Lemma alike_nonce s t a : alike s t → get_next_nonce s a = get_next_nonce t a.
Proof. intros H. unfold get_next_nonce. by injection (al_idx _ _ H) as _ _ _ _ _ _ ->. Qed.

(** The index apart from the hashes of blocks *)
Lemma sim_index f : (∀ x h, f (x <| block_by_hash := h |>) = f x <| block_by_hash := h |>) →
  sim (on idx (modify f)).
Proof.
  intros Hf s t Hst. unfold on, zoom, modify. split; [done|]. cbn [fst snd].
  destruct Hst. split; try done. change (f (idx s) <| block_by_hash := ∅ |> = f (idx t) <| block_by_hash := ∅ |>).
  by rewrite <-!Hf, al_idx0.
Qed.
Lemma sim_ext {A} (m m' : M Chain A) : (∀ s, m s = m' s) → sim m' → sim m.
Proof. intros Hm Hs s t Hst. rewrite !Hm. by apply Hs. Qed.

Lemma sim_notarize tid tx : sim (on idx (apply_notarize tid tx)).
Proof.
  unfold apply_notarize. destruct (jget_str (payload tx) "documentHash") as [dh|e]; [|by intros s t []].
  eapply (sim_ext _ (on idx (modify (λ x,
    (if negb (is_empty dh) then
       x <| notarizations ::= λ m, if decide (is_Some (m !! dh)) then m else <[dh := tid]> m |>
         <| notarizations_by_hash ::= push dh tid |> else x)
    <| notarization_count ::= λ m, <[sender tx := get_or m (sender tx) 0 + 1]> m |>)))).
  - intros s. unfold on, zoom, lift, when, mbind, M_bind, modify. by destruct (negb (is_empty dh)).
  - apply sim_index. intros x h. by destruct (negb (is_empty dh)).
Qed.
Lemma sim_index_tx i n tx : sim (on idx (modify (index_tx i n tx))).
Proof. by apply sim_index. Qed.
#[local] Hint Resolve sim_notarize sim_index_tx : sim.
#[local] Hint Extern 1 (sim (gets _)) => (apply sim_gets; by intros ? ? []; (congruence || f_equal; congruence)) : sim.

Lemma sim_revoke_key tid tx : sim (apply_revoke_key tid tx).
Proof.
  unfold apply_revoke_key. assert (sim (on pool (modify (purge_sender (sender tx))))) by by apply sim_pool.
  auto 20 with sim.
Qed.
Lemma sim_slash v e i : sim (slash_validator v e i).
Proof.
  unfold slash_validator. apply sim_bind; [|auto 10 with sim]. apply sim_gets. intros s t []. by rewrite al_staking0.
Qed.
Lemma sim_evidence tx i : sim (process_evidence_tx tx i).
Proof.
  unfold process_evidence_tx. apply sim_bind; [apply sim_lift|intros v]. apply sim_get.
  - intros s t []. by rewrite al_staking0, al_keys0.
  - intros s. pose proof sim_slash. unfold fromhex_or_return. auto 40 with sim.
Qed.
Lemma sim_register_validator tx : sim (apply_register_validator tx).
Proof.
  unfold apply_register_validator. apply sim_bind; [apply sim_lift|intros hexpk].
  apply sim_bind; [apply sim_lift|intros v]. apply sim_when, sim_get.
  - intros s t []. unfold is_registered_validator. by rewrite al_keys0.
  - intros s. unfold set_commission. auto 20 with sim.
Qed.
Lemma sim_apply_type i tx : sim (apply_type i tx).
Proof.
  unfold apply_type. pose proof sim_revoke_key. pose proof sim_evidence. pose proof sim_register_validator.
  destruct (tx_type tx); auto 10 with sim.
Qed.

Lemma sim_apply_txs b i n txs : sim (apply_txs b i n txs).
Proof.
  revert n. induction txs as [|tx txs IH]; intros n; cbn [apply_txs]; [apply sim_ret|].
  apply sim_bind; [|intros a; apply sim_bind; [apply IH|intros l; apply sim_ret]].
  unfold apply_tx. pose proof sim_apply_type. do 4 (apply sim_bind; [auto with sim|intros ?]).
  apply sim_get; [|intros s; auto with sim]. intros s t Hst.
  assert (build_tx_events s tx i = build_tx_events t tx i) as ->; [|done].
  destruct Hst. unfold build_tx_events. by rewrite al_staking0, al_tokens0.
Qed.
Lemma sim_begin_block i : sim (begin_block i).
Proof.
  unfold begin_block. assert (∀ e o, sim (distribute_epoch_rewards e o)) as Hd.
  { intros e o. unfold distribute_epoch_rewards. apply sim_get; [intros s t []; by rewrite al_staking0|auto with sim]. }
  assert (sim (process_mature_unbondings i)) as Hu.
  { unfold process_mature_unbondings. apply sim_get; [intros s t []; by rewrite al_ledger0, al_staking0|auto 10 with sim]. }
  assert (sim (check_epoch_transition i)) as He.
  { unfold check_epoch_transition. apply sim_get; [|intros s; auto 10 with sim].
    intros s t []. unfold balance_snapshot. by rewrite al_staking0, al_ledger0. }
  assert (sim (gets (λ s, current_epoch (staking s)))) by (apply sim_gets; intros s t []; by rewrite al_staking0).
  auto 10 with sim.
Qed.
Lemma sim_rebuild : sim rebuild_state_trie.
Proof.
  assert (∀ k v, sim (put_entry k v)) by (intros; unfold put_entry; auto with sim).
  unfold rebuild_state_trie. apply sim_bind; [auto with sim|intros _]. apply sim_get.
  - intros s t Hst. pose proof (al_idx _ _ Hst) as Hi. injection Hi as _ _ _ _ _ _ Hn. destruct Hst.
    by rewrite al_ledger0, al_tokens0, Hn.
  - intros s. unfold put_balance, put_nonce, put_token_balance, put_token_supply. auto 20 with sim.
Qed.
Lemma sim_prune_history i : sim (prune_history i).
Proof. unfold prune_history. auto 10 with sim. Qed.

Lemma block_at_alike s t i : alike s t → validator <$> get_block_by_index s i = validator <$> get_block_by_index t i.
Proof.
  intros H. pose proof (al_builders _ _ H) as Hb. unfold get_block_by_index.
  assert (length (chain_list s) = length (chain_list t)) as ->.
  { by rewrite <-(length_fmap validator (chain_list s)), Hb, length_fmap. }
  destruct (_ && _); [|done]. by rewrite <-!list_lookup_fmap, Hb.
Qed.
Lemma walk_alike s t total n bi seen cum : alike s t →
  finality_walk s total n bi seen cum = finality_walk t total n bi seen cum.
Proof.
  intros H. revert bi seen cum. induction n as [|n IH]; intros bi seen cum; [done|]. cbn [finality_walk].
  pose proof (block_at_alike s t bi H) as Hb.
  destruct (get_block_by_index s bi) as [b|], (get_block_by_index t bi) as [b'|]; try done.
  injection Hb as Hv. rewrite Hv. assert (∀ v, stake_of s v = stake_of t v) as Hs.
  { intros v. unfold stake_of. by rewrite (al_staking _ _ H). }
  rewrite Hs. by rewrite !IH.
Qed.
Lemma sim_finality i : sim (update_finality i).
Proof.
  unfold update_finality. apply sim_get; [|intros s; auto 10 with sim].
  intros s t H. rewrite (walk_alike s t) by done. destruct H. by rewrite al_staking0, al_ledger0, al_recs0.
Qed.

(** ** A block and its stamped copy *)

Record twin (b b' : Block) : Prop := mkTwin {
  tw_index : index b' = index b; tw_prev : prev_hash b' = prev_hash b;
  tw_txs : transactions b' = transactions b; tw_validator : validator b' = validator b;
  tw_time : blk_timestamp b' = blk_timestamp b; tw_fee : base_fee b' = base_fee b }.

Lemma apply_txs_twin b b' i n txs s : twin b b' → apply_txs b' i n txs s = apply_txs b i n txs s.
Proof.
  intros H. assert (Ha : ∀ n tx, apply_tx b' i n tx = apply_tx b i n tx).
  { intros k tx. unfold apply_tx, settle, charge_fee. by rewrite (tw_validator _ _ H), (tw_fee _ _ H). }
  revert n s. induction txs as [|tx txs IH]; intros n s; [done|]. cbn [apply_txs]. unfold mbind, M_bind. rewrite Ha.
  destruct (apply_tx b i n tx s) as [[a|e] s1]; [|done]. by rewrite IH.
Qed.
Lemma apply_reward_twin b b' i l : twin b b' → apply_reward b' i l = apply_reward b i l.
Proof. intros H. unfold apply_reward. by rewrite (tw_validator _ _ H). Qed.

Definition receipts_root_kept (s : Chain) : option string := last_receipts_root (trie s).
Lemma keeps_receipts_root b i : fixes receipts_root_kept (_ ← seal_state b i; _ ← prune_history i; update_finality i).
Proof.
  assert (Hput : ∀ k v, fixes receipts_root_kept (put_entry k v)).
  { intros k v s. unfold put_entry, lift, mbind, M_bind. by destruct (to_bytes 8 v). }
  assert (Hset : ∀ f, fixes receipts_root_kept (on trie (modify (set state_trie f)))) by done.
  assert (fixes receipts_root_kept rebuild_state_trie).
  { unfold rebuild_state_trie, put_balance, put_nonce, put_token_balance, put_token_supply. auto 20 with fixes. }
  assert (∀ f, fixes receipts_root_kept (on trie (modify (set last_state_root f)))) by done.
  assert (∀ f, fixes receipts_root_kept (on trie (modify (set state_snapshots f)))) by done.
  assert (fixes receipts_root_kept (prune_history i)) by (unfold prune_history; auto 20 with fixes).
  assert (fixes receipts_root_kept (update_finality i)) by by apply frame_update_finality.
  unfold seal_state. auto 20 with fixes.
Qed.

Lemma check_root_empty c m : check_root EmptyString c m = Ok tt.
Proof. done. Qed.
Lemma check_root_same c m : check_root c c m = Ok tt.
Proof. unfold check_root. rewrite bool_decide_eq_true_2 by done. by rewrite andb_false_r. Qed.

(** A run that returned, played again in a state that is alike *)
Lemma sim_run {A} (m : M Chain A) s t a s' : sim m → alike s t → m s = (Ok a, s') →
  ∃ t', m t = (Ok a, t') ∧ alike s' t'.
Proof.
  intros Hm Hst Hrun. destruct (Hm s t Hst) as [H1 H2]. rewrite Hrun in H1, H2. cbn in H1, H2.
  exists (m t).2. split; [|done]. by rewrite (surjective_pairing (m t)), <-H1.
Qed.

Lemma seal_receipts_replay b b' rs s t s' : receipts_root b = EmptyString →
  receipts_root b' = receipts_root_of rs → alike s t → seal_receipts b rs s = (Ok tt, s') →
  (∃ t', seal_receipts b' rs t = (Ok tt, t') ∧ alike s' t') ∧ last_receipts_root (trie s') = Some (receipts_root_of rs).
Proof.
  intros Hb Hb' Hst. unfold seal_receipts. rewrite Hb, Hb'. cbv zeta. rewrite check_root_empty, check_root_same. intros Hrun. split.
  - eapply sim_run; [|exact Hst|exact Hrun]. auto with sim.
  - unfold mbind, M_bind, on, zoom, modify, lift in Hrun. by injection Hrun as <-.
Qed.
Lemma seal_state_replay b b' i s t s' : state_root b = EmptyString →
  state_root b' = hex (trie_root (state_trie (trie s'))) → alike s t → seal_state b i s = (Ok tt, s') →
  ∃ t', seal_state b' i t = (Ok tt, t') ∧ alike s' t'.
Proof.
  intros Hb Hb' Hst. unfold seal_state. rewrite Hb. unfold mbind at 1, M_bind at 1.
  destruct (rebuild_state_trie s) as [[[]|e] s1] eqn:E1; [|done].
  destruct (sim_run _ _ _ _ _ sim_rebuild Hst E1) as (t1 & E2 & H1). cbn [check_root is_empty negb andb]. intros Hrun.
  assert (state_root b' = hex (trie_root (state_trie (trie s1)))) as ->.
  { rewrite Hb'. unfold mbind, M_bind, gets, on, zoom, modify, lift in Hrun. by injection Hrun as <-. }
  unfold mbind at 1, M_bind at 1. rewrite E2. unfold mbind at 1, M_bind at 1, gets. rewrite <-(al_trie _ _ H1), check_root_same.
  eapply sim_run; [|exact H1|exact Hrun]. auto 10 with sim.
Qed.

(** The next bind of a run in [H] and of the one in the goal *)
Ltac step_both H := unfold mbind at 1, M_bind at 1 in H; unfold mbind at 1, M_bind at 1.

(** The block that was applied without roots is applied with the right ones. *)
Lemma append_replay b b' s t s' : twin b b' → state_root b = EmptyString → receipts_root b = EmptyString →
  append_block_inner b s = (Ok tt, s') → alike s t →
  state_root b' = hex (trie_root (state_trie (trie s'))) →
  receipts_root b' = default EmptyString (last_receipts_root (trie s')) →
  ∃ t', append_block_inner b' t = (Ok tt, t') ∧ alike s' t'.
Proof.
  intros Hw Hb1 Hb2 Hrun Hst Hr1 Hr2. rewrite append_block_inner_close in Hrun |- *.
  step_both Hrun. unfold gets in Hrun. unfold gets. step_both Hrun.
  rewrite <-(al_height _ _ Hst). set (i := height s + 1) in *.
  assert (Ho : alike (open_block b s).2 (open_block b' t).2).
  { destruct Hst. unfold open_block, modify. cbn [snd]. split; chain_simpl; try done; [|by rewrite al_height0].
    rewrite !fmap_app, al_builders0. csimpl. by rewrite (tw_validator _ _ Hw). }
  change (open_block b s) with (@Ok unit tt, (open_block b s).2) in Hrun.
  change (open_block b' t) with (@Ok unit tt, (open_block b' t).2). cbv beta iota in Hrun |- *.
  step_both Hrun.
  destruct (begin_block i (open_block b s).2) as [[es|e] s1] eqn:E1; [|done].
  destruct (sim_run _ _ _ _ _ (sim_begin_block i) Ho E1) as (t1 & -> & H1).
  step_both Hrun. rewrite (tw_txs _ _ Hw), (apply_txs_twin b b') by done.
  destruct (apply_txs b i 0 (transactions b) s1) as [[l|e] s2] eqn:E2; [|done].
  destruct (sim_run _ _ _ _ _ (sim_apply_txs b i 0 (transactions b)) H1 E2) as (t2 & -> & H2).
  unfold close_block in Hrun |- *. set (failed := ap_tx_id <$> _) in *.
  step_both Hrun. destruct (on recs _ s2) as [[rs|e] s3] eqn:E3; [|done].
  destruct (sim_run (on recs (record_receipts i failed l)) _ _ _ _ ltac:(auto with sim) H2 E3) as (t3 & -> & H3).
  step_both Hrun. destruct (on ledger _ s3) as [[revs|e] s4] eqn:E4; [|done].
  destruct (sim_run (on ledger (apply_reward b i)) _ _ _ _ ltac:(auto with sim) H3 E4) as (t4 & E4' & H4).
  assert (on ledger (apply_reward b' i) t3 = (Ok revs, t4)) as ->.
  { rewrite <-E4'. unfold on, zoom. by rewrite (apply_reward_twin b b'). }
  step_both Hrun. destruct (on recs _ s4) as [[[]|e] s5] eqn:E5; [|done].
  destruct (sim_run (on recs (modify (store_block_events i (es ++ revs)))) _ _ _ _ ltac:(auto with sim) H4 E5) as (t5 & -> & H5).
  step_both Hrun. destruct (seal_receipts b rs s5) as [[[]|e] s6] eqn:E6; [|done].
  assert (last_receipts_root (trie s6) = last_receipts_root (trie s')) as Hkept.
  { symmetry. pose proof (keeps_receipts_root b i s6) as Hk. by rewrite Hrun in Hk. }
  assert (receipts_root b' = receipts_root_of rs) as Hrr.
  { rewrite Hr2, <-Hkept. unfold seal_receipts, mbind, M_bind, on, zoom, modify, lift in E6. by injection E6 as _ <-. }
  destruct (seal_receipts_replay b b' rs s5 t5 s6 Hb2 Hrr H5 E6) as ((t6 & -> & H6) & _).
  step_both Hrun. destruct (seal_state b i s6) as [[[]|e] s7] eqn:E7; [|done].
  assert (state_trie (trie s') = state_trie (trie s7)) as Htrie.
  { assert (fixes (λ s : Chain, state_trie (trie s)) (_ ← prune_history i; update_finality i)) as Hf.
    { apply fixes_bind; [|intros _; by apply frame_update_finality]. unfold prune_history.
      assert (∀ f, fixes (λ s : Chain, state_trie (trie s)) (on trie (modify (set state_snapshots f)))) by done.
      auto 20 with fixes. }
    specialize (Hf s7). by rewrite Hrun in Hf. }
  rewrite Htrie in Hr1. destruct (seal_state_replay b b' i s6 t6 s7 Hb1 Hr1 H6 E7) as (t7 & -> & H7).
  eapply sim_run; [|exact H7|exact Hrun]. pose proof sim_prune_history. pose proof sim_finality. auto with sim.
Qed.
End Sim.

(** ** What a valid successor needs of the state *)

Section Valid.
Context `{C : Crypto} `{Cfg : ChainConfig}.

Lemma alike_revoked s t a k : alike s t → is_key_revoked s a k = is_key_revoked t a k.
Proof. intros H. unfold is_key_revoked. by rewrite (al_keys _ _ H). Qed.
Lemma select_alike now now' s t i pt ph bt : alike s t →
  select_validator now s i (Some pt) ph (Some bt) = select_validator now' t i (Some pt) ph (Some bt).
Proof.
  intros H. unfold select_validator, select_poa, select_with_skip. by rewrite (al_staking _ _ H), (al_cons _ _ H).
Qed.
Lemma valid_tx_alike s t b b' tx : alike s t → twin b b' → valid_tx s b tx → valid_tx t b' tx.
Proof.
  intros H Hw [H1 H2 H3 H4 H5 H6]. split; try done.
  - by rewrite <-(al_cons _ _ H).
  - by rewrite (tw_index _ _ Hw), (tw_fee _ _ Hw).
  - by rewrite <-(alike_revoked s t).
Qed.

(** Valid before stamping here, valid after stamping there and later *)
Lemma valid_replay now now' s t b b' p : alike s t → twin b b' → now <= now' →
  (∀ pk, validators (cons s) !! validator b = Some pk → verify_signature b' pk = true) →
  valid_successor now s b p → valid_successor now' t b' p.
Proof.
  intros H Hw Hnow Hsig [V1 V2 V3 V4 V5 V6 V7 V8 V9 V10 V11 V12 V13 V14].
  destruct Hw as [T1 T2 T3 T4 T5 T6]. assert (Hw : twin b b') by done.
  split; unfold self_weight in *; rewrite ?T1, ?T2, ?T3, ?T4, ?T5, ?T6; try done.
  - lia.
  - destruct V4 as (pk & Hpk & _). exists pk. rewrite <-(al_cons _ _ H). auto.
  - by rewrite <-(alike_revoked s t).
  - by rewrite <-(select_alike now now' s t).
  - eapply list.Forall_impl; [exact V12|]. intros tx. by apply valid_tx_alike.
  - eapply nonces_follow_ext; [|exact V14]. intros a. by apply alike_nonce.
Qed.

Lemma trie_root_nonempty `{!CryptoLaws C} t : hex (trie_root t) ≠ EmptyString.
Proof.
  intros H. apply (f_equal String.length) in H. rewrite hex_length in H.
  assert (String.length (trie_root t) = 32%nat) as Hl; [|rewrite Hl in H; done].
  unfold trie_root. destruct (decide (t = ∅)) as [|Ht]; [apply sha3_256_length|].
  assert (sorted_leaves t ≠ []) as Hne.
  { unfold sorted_leaves. intros E%fmap_nil_inv. by apply sorted_keys_nil in E. }
  destruct (build_tree_spec _ Hne) as [<- _]. apply mhash_length.
Qed.
End Valid.

(** ** Property: determinism *)

(** A valid successor of the tip that applies is accepted. *)
Lemma extend_tip `{C : Crypto} `{Cfg : ChainConfig} now b t p t1 t2 :
  block_by_hash (idx t) !! block_hash b = None → latest_block t = Some p → index b = height t + 1 → index b ≠ 0 →
  0 <= height t → valid_successor now t b p → state_root b ≠ EmptyString →
  append_block_inner b t = (Ok tt, t1) → drain_pool b t1 = (Ok tt, t2) → add_block now b t = (Ok None, t2).
Proof.
  intros Hnew Htip Hi Hnz Hh Hval Hroot Happ Hdrain. unfold add_block, get. unfold mbind at 1, M_bind at 1.
  rewrite Hnew, bool_decide_eq_false_2 by (by intros []). rewrite <-Hi, Z.eqb_refl.
  rewrite (proj2 (Z.ltb_lt 0 (index b))) by lia. rewrite Htip.
  rewrite (proj2 (validate_block_accept now t b p Hnz) Hval). unfold mbind at 1, M_bind at 1, lift. cbn [andb]. unfold accept.
  assert (is_empty (state_root b) = false) as -> by by destruct (state_root b).
  unfold refused_on_value_error, append_block. rewrite Happ. unfold mbind, M_bind. by rewrite Hdrain.
Qed.

(** C17 Replication: a block one node produces from a state is accepted, then or
    later, by every node whose state agrees with that state up to its pool and
    its stored block objects, and leads it to the producer's resulting state.
    The signing key must be the one registered for the producer, and the
    receiver must not hold a block with the new hash already. *)
Theorem produced_block_replicates `{C : Crypto} `{!CryptoLaws C} `{Cfg : ChainConfig}
  (now now' : Z) (v sk : string) (s s' t : Chain) (b : Block)
  (Hs : reachable s) (Hrun : produce_block now v sk s = (Ok (Some b), s')) (Hnow : now <= now')
  (Hkey : ∀ pk msg sig, validators (cons s) !! v = Some pk → MLDSA_sign sk msg = Ok sig →
    MLDSA_verify pk msg sig = true)
  (Hst : alike s t) (Htip : latest_block t = latest_block s) (Hpool : pool_ok t)
  (Hnew : block_by_hash (idx t) !! block_hash b = None) :
  ∃ t', add_block now' b t = (Ok None, t') ∧ alike s' t' ∧
    latest_block t' = Some b ∧ chain_list t' = chain_list t ++ [b].
Proof.
  destruct (reachable_ok s Hs) as [Hok Hh].
  pose proof (produced_extends now v sk s b s' Hok Hrun) as (_ & Hcl & Hheight & Hsr & _ & _).
  destruct (produce_block_run now v sk s b s' Hrun)
    as (_ & p & d & blk & s1 & s2 & Hp & Hd & Hb & Hv & Happ & Hstamp & Hdr).
  destruct (chain_ok_tip s p Hok Hp) as (l & Hl & Hip & _).
  destruct (draft_block_sub _ _ _ _ _ Hd) as (Hdi & Hdp & Hdv & _).
  assert (state_root d = EmptyString ∧ receipts_root d = EmptyString) as [Hd1 Hd2].
  { unfold draft_block in Hd. destruct (select_txs s p). destruct (_ && _); [done|]. by injection Hd as <-. }
  unfold block_sign in Hb. destruct (MLDSA_sign sk _) as [sig|]; [|done]. injection Hb as <-.
  set (blk := set_signature d sig) in *. assert (Hbi : index blk = height s + 1) by (cbn; lia).
  assert (Hnz : index blk ≠ 0) by lia. apply (validate_block_accept now s blk p Hnz) in Hv.
  destruct (append_state_root blk s s1 Happ) as [Hroot _]. rewrite Hroot in Hstamp. cbn [default] in Hstamp.
  destruct (stamp_run _ _ _ _ _ _ _ Hstamp) as (_ & Hs2).
  unfold stamp_and_sign in Hstamp. unfold mbind at 1, M_bind at 1, replace_tip at 1, modify at 1 in Hstamp.
  unfold block_sign in Hstamp. unfold mbind at 1, M_bind at 1, lift at 1 in Hstamp.
  destruct (MLDSA_sign sk _) as [sig'|] eqn:Esig; [|done]. cbn [mbind result_bind] in Hstamp.
  unfold mbind, M_bind, replace_tip, reindex, modify in Hstamp. injection Hstamp as Hb' _.
  assert (Hw : twin blk b) by by rewrite <-Hb'.
  assert (Hbv : validator b = v) by by rewrite <-Hb'.
  assert (Hval : valid_successor now' t b p).
  { eapply (valid_replay now now' s t blk b); try done. intros pk Hpk. rewrite <-Hb'.
    apply (Hkey pk _ sig'); [|exact Esig]. rewrite <-Hpk. f_equal. symmetry. exact Hdv. }
  destruct (append_replay blk b s t s1 Hw Hd1 Hd2 Happ Hst) as (t1 & Happ' & Hal);
    [by rewrite <-Hb'|by rewrite <-Hb'|].
  destruct (drain_run t1 b) as (cache & Hdrain & _).
  { pose proof (kept_append (get_next_nonce t) (tx_pool (pool t)) b t (shrunk_start _ _ (proj1 Hpool))) as Hk.
    unfold wp in Hk. rewrite Happ' in Hk. apply (po_valid _ _ (proj1 Hk)). }
  eexists. split.
  { eapply (extend_tip now' b t p); try done; [by rewrite Htip|by rewrite (tw_index _ _ Hw), Hbi, (al_height _ _ Hst)|
      by rewrite (tw_index _ _ Hw)|by rewrite <-(al_height _ _ Hst)|rewrite Hsr; apply trie_root_nonempty]. }
  apply append_spine in Happ'. injection Happ' as E1 E2 _ _ _ _.
  destruct (drain_pool_run b s2) as (r & q & Hq). rewrite Hdr in Hq. injection Hq as _ Hq.
  split; [|split; [exact E2|exact E1]]. destruct Hal. split; chain_simpl; try (by rewrite Hq, Hs2).
  by rewrite Hcl, E1, !fmap_app, (al_builders _ _ Hst).
Qed.

(** ** The abstract log *)

Section Log.
Context `{C : Crypto} `{Cfg : ChainConfig}.

(** The specification: a list of transactions, which a step leaves alone or
    extends by a batch of authentic transactions, none of them in the log
    already, in which each sender continues where the log has left it. *)
Definition authentic (tx : Transaction) : Prop :=
  tx_verify tx = true ∧ chain_id tx = CHAIN_ID ∧ validate_payload tx = accept.
Inductive log_step (l : list Transaction) : list Transaction → Prop :=
  | log_stutter : log_step l l
  | log_extend batch :
      Forall authentic batch → NoDup (tx_id <$> l ++ batch) →
      (∀ a, nonce <$> of_sender a batch = seqZ (count_sender a l) (count_sender a batch)) →
      log_step l (l ++ batch).

(** What a chain says of the log: the transactions after the genesis block *)
Definition log_of (s : Chain) : list Transaction := all_txs (tail (chain_list s)).

Lemma log_count s a : chain_ok s → count_sender a (log_of s) = get_next_nonce s a.
Proof.
  intros H. pose proof (ck_nonces _ H a) as Hn. pose proof (ck_nonneg _ H a).
  apply (f_equal length) in Hn. rewrite length_fmap, length_seqZ in Hn. unfold count_sender, log_of. lia.
Qed.
Lemma log_NoDup s : chain_ok s → NoDup (tx_id <$> log_of s).
Proof.
  intros H. pose proof (ck_once _ H) as Hn. unfold log_of. destruct (chain_list s) as [|g l]; [done|].
  change (g :: l) with ([g] ++ l) in Hn. rewrite all_txs_app, fmap_app in Hn. by apply list.NoDup_app in Hn as (_ & _ & ?).
Qed.
Lemma log_snoc s s' b : 0 <= height s → chain_ok s → chain_list s' = chain_list s ++ [b] →
  log_of s' = log_of s ++ transactions b.
Proof.
  intros Hh H Hl. unfold log_of. rewrite Hl. pose proof (ck_height _ H). destruct (chain_list s) as [|g l]; [cbn in *; lia|].
  cbn [app tail]. rewrite all_txs_app. unfold all_txs at 2. csimpl. by rewrite app_nil_r.
Qed.

(** A block that is a valid successor of the tip extends the log. *)
Lemma log_grow now s s' b b0 p : 0 <= height s → chain_ok s → chain_ok s' → chain_list s' = chain_list s ++ [b] →
  transactions b = transactions b0 → valid_successor now s b0 p → log_step (log_of s) (log_of s').
Proof.
  intros Hh H H' Hl Htxs Hv. pose proof (log_snoc s s' b Hh H Hl) as Hlog.
  pose proof (log_NoDup s' H') as Hnd. rewrite Hlog in Hnd |- *. rewrite Htxs in *. apply log_extend; [|done|].
  - eapply list.Forall_impl; [apply (vs_txs _ _ _ _ Hv)|]. intros tx [H1 H2 _ H4 _ _]. done.
  - intros a. rewrite (log_count s a H). apply (nonces_follow_seq _ _ a (vs_nonces _ _ _ _ Hv)).
Qed.

Lemma step_log s s' : reachable s → step s s' → log_step (log_of s) (log_of s').
Proof.
  intros Hs Hst. destruct (reachable_ok s Hs) as [Hok Hh]. destruct (step_ok s s' Hst Hok Hh) as [Hok' _].
  destruct Hst as [now tx r s' Hrun|now b s' Hrun|now v sk [b|] s' Hrun|v s' Hrun].
  - pose proof (submit_spine now tx s) as Hsp. rewrite Hrun in Hsp. injection Hsp as Hl _ _ _ _ _.
    unfold log_of. rewrite Hl. apply log_stutter.
  - destruct (add_block_run now b s s' Hok Hh Hrun) as (p & s1 & Hp & Hv & _).
    destruct (accepted_extends now b s s' Hok Hh Hrun) as (_ & Hl & _). by eapply log_grow.
  - destruct (produced_extends now v sk s b s' Hok Hrun) as (_ & Hl & _).
    destruct (produce_block_run now v sk s b s' Hrun)
      as (_ & p & d & blk & s1 & s2 & Hp & Hd & Hb & Hv & _ & Hstamp & _).
    destruct (chain_ok_tip s p Hok Hp) as (l & _ & Hip & _). destruct (draft_block_sub _ _ _ _ _ Hd) as (Hdi & _).
    unfold block_sign in Hb. destruct (MLDSA_sign sk _) as [sig|]; [|done]. injection Hb as <-.
    assert (Hnz : index (set_signature d sig) ≠ 0) by (cbn; lia). apply (validate_block_accept now s _ p Hnz) in Hv.
    destruct (stamp_run _ _ _ _ _ _ _ Hstamp) as ((sig' & Hsig) & _).
    apply (log_grow now s s' b (set_signature d sig) p); try done. by rewrite Hsig.
  - apply produce_none in Hrun as ->. apply log_stutter.
  - pose proof (spine_activate v s) as Hsp. rewrite Hrun in Hsp. injection Hsp as Hl _ _ _ _ _.
    unfold log_of. rewrite Hl. apply log_stutter.
Qed.
End Log.


#[local] Existing Instance Toy.crypto.
#[local] Existing Instance Toy.laws.
#[local] Existing Instance legacy_config.
Lemma produced_block_replicates_witness :
  ∃ t', add_block 2000 (block_of Run.produced) Run.genesis = (Ok None, t') ∧ alike Run.produced.2 t' ∧
    latest_block t' = Some (block_of Run.produced) ∧
    chain_list t' = chain_list Run.genesis ++ [block_of Run.produced].
Proof.
  apply (produced_block_replicates (C := Toy.crypto) (Cfg := legacy_config) 1000 2000 Sample.addr "k"
    Run.node_b Run.produced.2 Run.genesis (block_of Run.produced)
    (Run.reachable_submit _ _ _ Run.reachable_genesis) Run.produced_run).
  - lia.
  - intros pk msg sig Hpk Hsig. assert (validators (cons Run.node_b) !! Sample.addr = Some "k") as Hk by (vm_compute; reflexivity).
    rewrite Hk in Hpk. injection Hpk as <-. injection Hsig as <-. unfold MLDSA_verify. cbn. apply bool_decide_eq_true_2. done.
  - split; vm_compute; reflexivity.
  - vm_compute. reflexivity.
  - apply (genesis_ok 900 Sample.addr "k" "k"), unit_run. vm_compute. reflexivity.
  - vm_compute. reflexivity.
Defined.

