(* ===== verification/NodeLaws.v ===== *)
(** * Properties of the full node

    The wallet locks are never found taken and never run out; every method that
    submits for a wallet either leaves the node as it was or appends one
    transaction of that wallet, with its next nonce, to the pool and announces
    exactly that transaction; what the sender of a SHARE stores is what its
    recipient decapsulates. *)
From Stdlib Require Import Floats.SpecFloat.
From S2P Require Import Prelude PyStr Json Limits Config Crypto StateTrie Wallet Transaction Fees Block Receipt ChainState Ledger StateOps Consensus Apply TxPool Rollback Chain ChainLaws WalletFile Mlkem Query Node.
Open Scope Z_scope.

(** ** Locks *)

Record locks_free (l : dict string bool) : Prop := mkLocksFree {
  lf_keys : NoDup l.*1;
  lf_free : Forall (λ kv : string * bool, kv.2 = false) l;
  lf_size : Z.of_nat (length l) <= MAX_WALLET_LOCKS }.
(** The same but for the lock of [a], which is taken *)
Record locks_held (a : string) (l : dict string bool) : Prop := mkLocksHeld {
  lh_keys : NoDup l.*1;
  lh_taken : dget l a = Some true;
  lh_free : ∀ k b, (k, b) ∈ l → k ≠ a → b = false;
  lh_size : Z.of_nat (length l) <= MAX_WALLET_LOCKS }.

Lemma evict_locks_done fuel l : Z.of_nat (length l) < MAX_WALLET_LOCKS → evict_locks fuel l = Ok l.
Proof. intros H%Z.ltb_lt. unfold evict_locks. destruct fuel; by rewrite H. Qed.
Lemma evict_locks_free l : locks_free l →
  ∃ l', evict_locks (length l) l = Ok l' ∧ locks_free l' ∧ Z.of_nat (length l') < MAX_WALLET_LOCKS ∧
    l'.*1 ⊆ l.*1.
Proof.
  intros [Hk Hf Hs]. destruct (Z.ltb_spec (Z.of_nat (length l)) MAX_WALLET_LOCKS) as [Hlt|Hge].
  - exists l. split; [by apply evict_locks_done|by split_and!].
  - destruct l as [|[k b] l]; [by cbn in Hge|]. apply list.Forall_cons in Hf as [Hb Hf]. cbn in Hb. subst b.
    cbn [length] in *. exists l. csimpl in Hk. apply list.NoDup_cons in Hk as [Hk1 Hk2].
    assert (Hlt : Z.of_nat (length l) < MAX_WALLET_LOCKS) by lia. split; [|split_and!; [split; [done|done|lia]|done|set_solver]].
    cbn [evict_locks length evict_unlocked]. destruct (Z.ltb_spec (Z.of_nat (S (length l))) MAX_WALLET_LOCKS); [lia|].
    by apply evict_locks_done.
Qed.

Lemma lock_for_free a l : locks_free l →
  ∃ l', lock_for a l = Ok l' ∧ locks_free l' ∧ dget l' a = Some false.
Proof.
  intros Hl. unfold lock_for. destruct (dget l a) as [b|] eqn:Eb.
  - destruct Hl as [Hk Hf Hs]. pose proof (Forall_in _ _ _ Hf (dget_Some_elem _ _ _ Eb)) as Hb. cbn in Hb. subst b.
    assert (Hni : a ∉ (dpop l a).*1).
    { intros ([k b] & -> & [_ Hk2]%dpop_sub)%list_elem_of_fmap. done. }
    exists (dpop l a ++ [(a, false)]). split; [done|]. split; [split|].
    + rewrite fmap_app. apply list.NoDup_app. split_and!; [by apply dpop_NoDup| |apply NoDup_singleton].
      intros x Hx ->%list_elem_of_singleton. done.
    + apply list.Forall_app. split; [|by repeat constructor]. apply Forall_intro. intros x [Hx _]%dpop_sub.
      exact (Forall_in _ _ _ Hf Hx).
    + rewrite length_app. cbn. pose proof (dpop_length l a) as Hlen. apply dget_Some_elem in Eb.
      specialize (Hlen ltac:(apply list_elem_of_fmap; by exists (a, false))). lia.
    + apply dget_elem; [|set_solver]. rewrite fmap_app. apply list.NoDup_app.
      split_and!; [by apply dpop_NoDup| |apply NoDup_singleton]. intros x Hx ->%list_elem_of_singleton. done.
  - destruct (evict_locks_free l Hl) as (l' & -> & [Hk Hf Hs] & Hlt & Hsub). cbn [mbind result_bind].
    assert (Hni : a ∉ l'.*1) by (apply dget_None in Eb; set_solver).
    assert (Hnd : NoDup (l' ++ [(a, false)]).*1).
    { rewrite fmap_app. apply list.NoDup_app. split_and!; [done| |apply NoDup_singleton].
      intros x Hx ->%list_elem_of_singleton. done. }
    eexists. split; [reflexivity|]. split; [split|].
    + done. + apply list.Forall_app. split; [done|by repeat constructor].
    + rewrite length_app. cbn. lia. + apply dget_elem; [done|set_solver].
Qed.

Lemma take_lock a l : locks_free l → dget l a = Some false → locks_held a (dset l a true).
Proof.
  intros [Hk Hf Hs] Ha. split.
  - by apply dset_NoDup. - apply dget_dset_eq.
  - intros k b [[= -> ->]|[Hin Hne]]%dset_elem Hka; [done| |done]. exact (Forall_in _ _ _ Hf Hin).
  - by rewrite dset_length_old.
Qed.
Lemma release_lock a l : locks_held a l → locks_free (dset l a false).
Proof.
  intros [Hk Ha Hf Hs]. split.
  - by apply dset_NoDup.
  - apply Forall_intro. intros [k b] [[= -> ->]|[Hin Hne]]%dset_elem; [done| |done]. by apply (Hf k b).
  - by rewrite dset_length_old.
Qed.

(** The body runs with the lock taken; whatever happens it is free again. *)
Lemma wp_with_lock {A} a (body : M Node A) Q n :
  locks_free (wallet_locks n) →
  (∀ l, locks_held a l → wp body (λ r n', Q r (n' <| wallet_locks ::= λ l, dset l a false |>)) (n <| wallet_locks := l |>)) →
  wp (with_lock a body) Q n.
Proof.
  intros Hl Hbody. unfold with_lock. apply wp_bind, wp_get, wp_bind, wp_lift.
  destruct (lock_for_free a _ Hl) as (l' & -> & Hl' & Ha). apply wp_bind, wp_modify.
  unfold dget_or. rewrite Ha. cbn [default from_option]. apply wp_bind, wp_modify.
  specialize (Hbody _ (take_lock a l' Hl' Ha)). unfold wp, releasing in *.
  change (set wallet_locks _ (set wallet_locks (λ _, l') n)) with (n <| wallet_locks := dset l' a true |>).
  by destruct (body _).
Qed.

(** ** The methods that submit for a wallet *)

Record node_ok (n : Node) : Prop := mkNodeOk {
  no_locks : locks_free (wallet_locks n);
  no_secrets : Z.of_nat (length (shared_secrets n)) <= MAX_SHARED_SECRETS;
  no_wallets : ∀ a w, dget (wallets n) a = Some w → w_address w = a }.

(** Nothing happened that anybody else could see. *)
Record idle (n n' : Node) : Prop := mkIdle {
  id_chain : chain n' = chain n; id_outbox : outbox n' = outbox n; id_wallets : wallets n' = wallets n;
  id_secrets : shared_secrets n' = shared_secrets n; id_requests : pending_requests n' = pending_requests n;
  id_events : reputation_events n' = reputation_events n }.
#[global] Instance idle_refl : Reflexive idle.
Proof. by intros n. Qed.

Section Methods.
Context `{C : Crypto} `{Cfg : ChainConfig} `{K : Kem}.

Definition new_tx_message (tx : Transaction) : Message :=
  mkMessage (Everyone_but EmptyString) "new_tx" [("tx", JObj (tx_to_dict tx))].
(** One transaction was admitted and announced. *)
Record posted (now : Z) (tx : Transaction) (n n' : Node) : Prop := mkPosted {
  ps_chain : submit_tx now tx (chain n) = (Ok None, chain n');
  ps_outbox : outbox n' = outbox n ++ [new_tx_message tx];
  ps_wallets : wallets n' = wallets n;
  ps_requests : pending_requests n' = pending_requests n;
  ps_events : reputation_events n' = reputation_events n }.
Definition signed_form (t tx : Transaction) : Prop :=
  ∃ sig pk, tx = mkTx (tx_type t) (sender t) (recipient t) (timestamp t) (payload t) sig pk
                      (nonce t) (chain_id t) (max_fee_per_weight t) (max_priority_fee t).

Lemma wp_check c msg Q n :
  (c = true → Q (Raise (ValueError msg)) n) → (c = false → Q (Ok tt) n) → wp (check c msg) Q n.
Proof. intros H1 H2. unfold check, guard. apply wp_lift. destruct c; auto. Qed.
Lemma wp_get_wallet a Q n :
  (∀ w, dget (wallets n) a = Some w → Q (Ok w) n) → (∀ e, Q (Raise e) n) → wp (get_wallet a) Q n.
Proof. intros H1 H2. unfold get_wallet. apply wp_bind, wp_get. destruct (dget _ a); [by apply H1|by apply H2]. Qed.
Lemma sign_with_form w t tx : sign_with w t = Ok tx → signed_form t tx.
Proof.
  unfold sign_with. destruct (sb_bytes _) as [sk|]; [|done]. cbn [mbind result_bind]. unfold tx_sign.
  destruct (MLDSA_sign _ _) as [sig|]; [|done]. intros [= <-]. by eexists _, _.
Qed.

(** Submission under any state of the locks *)
Lemma wp_submit now tx Q n :
  (∀ e, Q (Raise e) n) →
  (∀ s', submit_tx now tx (chain n) = (Ok None, s') → Q (Ok tt) (n <| chain := s' |>)) →
  wp (submit_or_raise now tx) Q n.
Proof.
  intros Hno Hyes. unfold submit_or_raise. apply wp_bind, wp_on.
  assert (Hid : ∀ n : Node, n <| chain := chain n |> = n) by by intros [].
  destruct (decide (admission now (chain n) tx = accept)) as [Ha|Ha].
  - destruct (submit_run now tx (chain n) Ha) as (d & _ & Hrun). unfold wp. rewrite Hrun. by apply Hyes.
  - pose proof (submit_refused now tx (chain n) Ha) as Hr. unfold wp.
    destruct (submit_tx now tx (chain n)) as [[[m|]|e] s'] eqn:E; cbn in Hr; subst s'.
    + apply wp_raise. change (Q (Raise (ValueError m)) (n <| chain := chain n |>)). rewrite Hid. apply Hno.
    + apply wp_ret. by apply Hyes.
    + change (Q (Raise e) (n <| chain := chain n |>)). rewrite Hid. apply Hno.
Qed.

Lemma wp_submit_next now w mk Q n : node_ok n →
  (∀ e n', node_ok n' → idle n n' → Q (Raise e) n') →
  (∀ tx n', node_ok n' → posted now tx n n' → shared_secrets n' = shared_secrets n →
     signed_form (mk (next_nonce (chain n) (w_address w))) tx → Q (Ok tx) n') →
  wp (submit_next now w mk) Q n.
Proof.
  intros [Hl Hs Hw] Hno Hyes. unfold submit_next. apply wp_bind, wp_with_lock; [done|]. intros l Hheld.
  pose proof (release_lock _ _ Hheld) as Hfree. apply wp_bind, wp_get, wp_bind, wp_lift. cbn [chain set set_wallet_locks].
  destruct (sign_with w _) as [tx|e] eqn:Es.
  - apply wp_bind, wp_submit.
    + intros e. by apply Hno.
    + intros s' Hrun. apply wp_ret. apply wp_bind, wp_modify, wp_ret. apply Hyes; [done| |done|by eapply sign_with_form].
      by split.
  - by apply Hno.
Qed.

Lemma wp_wallet_tx now w mfpw mpf mk Q n : node_ok n →
  (∀ e n', node_ok n' → idle n n' → Q (Raise e) n') →
  (∀ tx n' f p, node_ok n' → posted now tx n n' → shared_secrets n' = shared_secrets n →
     compute_fee_defaults (chain n) mfpw mpf = Ok (f, p) →
     signed_form (mk (next_nonce (chain n) (w_address w)) f p) tx → Q (Ok tx) n') →
  wp (wallet_tx now w mfpw mpf mk) Q n.
Proof.
  intros Hok Hno Hyes. unfold wallet_tx. apply wp_bind, wp_get, wp_bind, wp_lift.
  destruct (compute_fee_defaults _ _ _) as [[f p]|e] eqn:Ef; [|by apply Hno].
  apply wp_submit_next; [done|done|]. intros tx n' H1 H2 H3 H4. by eapply Hyes.
Qed.

(** What a method answers: it raised and nothing happened, or the answer names
    the transaction that was posted. *)
Definition request_type (r : request) : TxType :=
  match r with
  | RegisterKey => REGISTER_KEY | RegisterValidator => REGISTER_VALIDATOR | RevokeKey _ _ => REVOKE_KEY
  | StakeOn _ _ => STAKE | DelegateTo _ _ => DELEGATE | UnstakeFrom _ _ => UNSTAKE
  | NotarizeDoc _ _ => NOTARIZE | StoreDoc _ _ _ => STORE | ShareDoc _ _ _ _ _ => SHARE
  | TransferTo _ _ _ => TRANSFER | IssueToken _ _ _ _ _ => ISSUE_TOKEN | MintToken _ _ _ => MINT_TOKEN
  | TransferToken _ _ _ _ => TRANSFER_TOKEN | SubmitEvidence _ _ _ _ _ _ _ _ => EVIDENCE
  end.
Definition answered (now : Z) (a : string) (mfpw mpf : option Z) (ty : TxType) (n : Node)
    (r : result (dict string JVal)) (n' : Node) : Prop :=
  node_ok n' ∧
  match r with
  | Raise _ => idle n n'
  | Ok d => ∃ tx f p, posted now tx n n' ∧ dget d "tx_id" = Some (JStr (tx_id tx)) ∧ is_Some (dget (wallets n) a) ∧
      tx_type tx = ty ∧ sender tx = a ∧ nonce tx = next_nonce (chain n) a ∧
      compute_fee_defaults (chain n) mfpw mpf = Ok (f, p) ∧ max_fee_per_weight tx = f ∧ max_priority_fee tx = p
  end.

Lemma answered_idle now a mfpw mpf ty n e : node_ok n → answered now a mfpw mpf ty n (Raise e) n.
Proof. by split. Qed.

(** The common tail of the methods *)
Lemma wp_answer now a w mfpw mpf mk ty more n : node_ok n → dget (wallets n) a = Some w →
  (∀ k f p, tx_type (mk k f p) = ty ∧ sender (mk k f p) = w_address w ∧ nonce (mk k f p) = k ∧
     max_fee_per_weight (mk k f p) = f ∧ max_priority_fee (mk k f p) = p) →
  wp (tx ← wallet_tx now w mfpw mpf mk; mret (tx_result tx (more tx))) (answered now a mfpw mpf ty n) n.
Proof.
  intros Hok Hw Hmk. pose proof (no_wallets _ Hok _ _ Hw) as Ha.
  apply wp_bind, wp_wallet_tx; [done|by split|].
  intros tx n' f p Hok' Hp _ Hf (sig & pk & ->). apply wp_ret. split; [done|].
  destruct (Hmk (next_nonce (chain n) (w_address w)) f p) as (H1 & H2 & H3 & H4 & H5). rewrite Ha in *.
  eexists _, f, p. split; [exact Hp|]. by split_and!.
Qed.

Lemma store_secret_ok tid ss n : node_ok n →
  node_ok (n <| shared_secrets ::= λ d, let d' := dset d tid ss in drop (Z.to_nat (Z.of_nat (length d') - MAX_SHARED_SECRETS)) d' |>).
Proof. intros [Hl Hs Hw]. split; [done| |done]. cbn. rewrite length_drop. unfold MAX_SHARED_SECRETS in *. lia. Qed.

Lemma stored_secret_kept tid ss (d : dict string string) : Z.of_nat (length d) <= MAX_SHARED_SECRETS →
  dget (let d' := dset d tid ss in drop (Z.to_nat (Z.of_nat (length d') - MAX_SHARED_SECRETS)) d') tid = Some ss.
Proof.
  intros Hd. cbn zeta. destruct (dget d tid) as [old|] eqn:E.
  - rewrite dset_length_old by done. replace (Z.to_nat _) with O by lia. apply dget_dset_eq.
  - rewrite dset_new by done. rewrite length_app. cbn [length].
    rewrite drop_app_le by (unfold MAX_SHARED_SECRETS in *; lia). apply dget_app_new, dget_None.
    apply dget_None in E. intros (kv & -> & Hin)%list_elem_of_fmap. apply E, list_elem_of_fmap_2.
    exact (subseteq_drop _ _ _ Hin).
Qed.

Ltac method_step Hok :=
  lazymatch goal with
  | |- wp (check _ _ ≫= _) _ _ => apply wp_bind, wp_check; [by intros; apply answered_idle|intros _]
  | |- wp (get_wallet _ ≫= _) _ _ =>
      let w := fresh "w" in let Hw := fresh "Hw" in
      apply wp_bind, wp_get_wallet; [intros w Hw|by intros; apply answered_idle]
  | |- wp (get ≫= _) _ _ => apply wp_bind, wp_get
  | |- wp (wallet_tx _ _ _ _ _ ≫= _) _ _ => eapply (wp_answer _ _ _ _ _ _ _ (λ _, _) _ Hok); [eassumption|by intros]
  end.

Lemma wp_recipient_key_run rcp given n :
  wp (recipient_key rcp given) (λ r n', n' = n ∧ (recipient_key rcp given n).1 = r) n.
Proof.
  unfold wp. destruct (recipient_key rcp given n) as [r n'] eqn:E. split; [|done]. revert E.
  unfold recipient_key. destruct (is_empty given); [|by intros [=]]. unfold get, mbind, M_bind.
  destruct (get_encryption_pk _ _); [|by intros [=]]. unfold check, guard, lift. destruct (is_empty _); by intros [=].
Qed.

(** A SHARE that was posted *)
Definition share_tx (now : Z) (w : Wallet) (mfpw mpf : option Z) (rcp cid ct : string) (expires : Z) (s : Chain)
    (tx : Transaction) : Prop :=
  ∃ f p, compute_fee_defaults s mfpw mpf = Ok (f, p) ∧
    signed_form (mk_share now (w_address w) (next_nonce s (w_address w)) f p rcp cid ct expires) tx.
Definition key_bytes (n : Node) (rcp given : string) : result string :=
  pk_hex ← (recipient_key rcp given n).1; fromhex_val (JStr pk_hex).
Definition shared (now : Z) (a : string) (mfpw mpf : option Z) (coins rcp cid given : string) (expires : Z) (n : Node)
    (r : result (dict string JVal)) (n' : Node) : Prop :=
  node_ok n' ∧
  match r with
  | Raise _ => idle n n'
  | Ok d => ∃ w pk ct ss tx, posted now tx n n' ∧ dget (wallets n) a = Some w ∧
      share_tx now w mfpw mpf rcp cid ct expires (chain n) tx ∧
      d = tx_result tx [("shared_secret_stored", JBool true)] ∧
      key_bytes n rcp given = Ok pk ∧ encapsulate coins pk = Ok (ct, ss) ∧ dget (shared_secrets n') (tx_id tx) = Some ss
  end.
Lemma wp_share now a mfpw mpf coins rcp cid given expires n : node_ok n →
  wp (rpc_share now a mfpw mpf coins rcp cid given expires)
     (shared now a mfpw mpf coins rcp cid given expires n) n.
Proof.
  intros Hok. assert (Hid : ∀ e, shared now a mfpw mpf coins rcp cid given expires n (Raise e) n) by by split.
  unfold rpc_share. apply wp_bind, wp_get_wallet; [intros w Hw|done].
  apply wp_bind. eapply wp_mono; [apply wp_recipient_key_run|]. intros res n1 [-> Hkey].
  destruct res as [k|e]; [|apply Hid]. apply wp_bind, wp_lift. destruct (fromhex_val _) as [pk|] eqn:Epk; [|done].
  apply wp_bind, wp_lift. destruct (encapsulate _ _) as [[ct ss]|] eqn:Ebox; [|done].
  apply wp_bind, wp_wallet_tx; [done|by split|].
  intros tx n' f p Hok' Hp Hsec Hf Hform. apply wp_bind, wp_modify, wp_ret. split; [by apply store_secret_ok|].
  exists w, pk, ct, ss, tx. split_and!; [destruct Hp; by split|done|by exists f, p|done| |done|].
  - unfold key_bytes. by rewrite Hkey.
  - apply stored_secret_kept, Hok'.
Qed.

Lemma wp_handle now a mfpw mpf r n : node_ok n →
  wp (handle now a mfpw mpf r) (answered now a mfpw mpf (request_type r) n) n.
Proof.
  intros Hok. destruct r; cbn [handle request_type].
  all: unfold rpc_register_key, rpc_register_validator, rpc_revoke_key, rpc_stake, rpc_delegate, rpc_unstake, rpc_notarize,
    rpc_store, rpc_transfer, rpc_issue_token, rpc_mint_token, rpc_transfer_token, rpc_submit_evidence.
  all: repeat method_step Hok.
  eapply wp_mono; [by eapply wp_share|]. intros res n' Hres. destruct res as [d|e]; [|exact Hres].
  destruct Hres as (Hok' & w' & pk & ct & ss & tx & Hp & Hw' & Hshare & Hd & Hss). split; [done|].
  destruct Hshare as (f & p & Hf & sig & spk & ->). pose proof (no_wallets _ Hok _ _ Hw') as Ha. rewrite Ha in *.
  eexists _, f, p. split; [exact Hp|]. by rewrite Hd.
Qed.
End Methods.

(** ** A running node *)

Section Running.
Context `{C : Crypto} `{Cfg : ChainConfig} `{K : Kem}.

(** What the messages of peers and the block loop never touch *)
Definition private (n : Node) : dict string bool * dict string string * dict string Wallet :=
  (wallet_locks n, shared_secrets n, wallets n).
Lemma private_ok n n' : private n' = private n → node_ok n → node_ok n'.
Proof. intros [= E1 E2 E3] [Hl Hs Hw]. split; by rewrite ?E1, ?E2, ?E3. Qed.
Lemma fixes_try {T} (π : Node → T) m h : fixes π m → fixes π h → fixes π (try_except m h).
Proof.
  intros Hm Hh n. unfold try_except. specialize (Hm n). destruct (m n) as [[[]|e] n1]; cbn in Hm; [done|].
  by rewrite (Hh n1).
Qed.
#[local] Hint Resolve fixes_try : fixes.
#[local] Hint Extern 1 (fixes private (modify _)) => (by intros []) : fixes.
#[local] Hint Extern 1 (fixes private (record_event _ _)) => (by intros []) : fixes.
#[local] Hint Extern 1 (fixes private count_refusal) => (by intros []) : fixes.
#[local] Hint Extern 1 (fixes private (announce_block _ _)) => (by intros []) : fixes.
#[local] Hint Extern 1 (fixes private (announce_tx _ _)) => (by intros []) : fixes.
Lemma private_lock_genesis : fixes private lock_genesis_if_needed.
Proof. unfold lock_genesis_if_needed. auto 10 with fixes. Qed.
#[local] Hint Resolve private_lock_genesis : fixes.
Lemma private_new_block syncing now peer d : fixes private (p2p_new_block syncing now peer d).
Proof. unfold p2p_new_block. auto 20 with fixes. Qed.
Lemma private_new_tx now peer d : fixes private (p2p_new_tx now peer d).
Proof. unfold p2p_new_tx. auto 20 with fixes. Qed.
Lemma private_turn syncing now w : fixes private (block_loop_turn syncing now w).
Proof. unfold block_loop_turn. auto 20 with fixes. Qed.

(** The spine of the chain after each of them *)
Definition sound (s s' : Chain) : Prop := chain_ok s ∧ 0 <= height s → chain_ok s' ∧ 0 <= height s'.
Lemma sound_step s s' : step s s' → sound s s'.
Proof. intros Hst [H1 H2]. by eapply step_ok. Qed.
Lemma sound_spine s s' : spine s' = spine s → sound s s'.
Proof.
  intros Hsp [H1 H2]. split; [by eapply chain_ok_spine|]. injection Hsp as _ _ -> _ _ _. done.
Qed.
Lemma sound_trans s1 s2 s3 : sound s1 s2 → sound s2 s3 → sound s1 s3.
Proof. unfold sound. tauto. Qed.

Lemma wp_chain_lock_genesis n : wp lock_genesis_if_needed (λ r n', r = Ok tt ∧ sound (chain n) (chain n')) n.
Proof.
  unfold lock_genesis_if_needed. apply wp_bind, wp_get, wp_when; intros _; [|split; [done|by apply sound_spine]].
  destruct (get_block _ _) as [g|]; [|apply wp_ret; split; [done|by apply sound_spine]].
  apply wp_on, wp_on. split; [done|]. by apply sound_spine.
Qed.

(** The block a message carries *)
Definition wire_block (d : dict string JVal) : result Block :=
  v ← jindex d "block"; b ← as_dict v; block_from_dict b.
Lemma wp_chain_new_block syncing now peer d n :
  (∀ b, wire_block d = Ok b → (add_block now b (chain n)).1 = Ok None ∨ (add_block now b (chain n)).2 = chain n) →
  wp (p2p_new_block syncing now peer d) (λ _ n', sound (chain n) (chain n')) n.
Proof.
  intros Hadd. unfold p2p_new_block, try_except. unfold wp at 1.
  assert (Hid : sound (chain n) (chain n)) by by apply sound_spine.
  match goal with |- context [let (_, _) := (let (r, n') := ?m n in _) in _] => set (body := m) end.
  unfold wire_block in Hadd.
  assert (Hbody : wp body (λ _ n', sound (chain n) (chain n')) n).
  { unfold body. apply wp_bind, wp_lift. destruct (jindex d "block") as [v|]; [|done]. cbn [mbind result_bind] in Hadd.
    apply wp_bind, wp_lift. destruct (as_dict v) as [bd|]; [|done]. cbn [mbind result_bind] in Hadd.
    apply wp_bind, wp_lift. destruct (block_from_dict bd) as [b|]; [|done]. specialize (Hadd b eq_refl).
    apply wp_bind, wp_on. unfold wp. destruct (add_block now b (chain n)) as [r s'] eqn:Er. cbn in Hadd.
    assert (Hs' : sound (chain n) s').
    { destruct Hadd as [->| ->]; [|done]. apply sound_step. by eapply step_accept. }
    destruct r as [[err|]|e]; [done| |done].
    change (wp (_ ← record_event peer "valid_block"; _ ← lock_genesis_if_needed;
                when (negb syncing) (announce_block b peer))
              (λ _ n', sound (chain n) (chain n')) (n <| chain := s' |>)).
    apply wp_bind, wp_modify, wp_bind. eapply wp_mono; [apply wp_chain_lock_genesis|].
    intros r n' [-> Hn']. cbn in Hn'. destruct syncing; cbn [negb when]; by eapply sound_trans. }
  unfold wp in Hbody. by destruct (body n) as [[[]|e] n'].
Qed.
Lemma wp_chain_new_tx now peer d n : wp (p2p_new_tx now peer d) (λ _ n', sound (chain n) (chain n')) n.
Proof.
  unfold p2p_new_tx, try_except. unfold wp at 1. assert (Hid : sound (chain n) (chain n)) by by apply sound_spine.
  destruct (jindex d "tx") as [v|] eqn:E1; unfold mbind, M_bind, lift; rewrite ?E1; [|done].
  destruct (as_dict v) as [td|]; [|done]. destruct (tx_from_dict td) as [tx|]; [|done].
  unfold on, zoom. destruct (submit_tx now tx (chain n)) as [r s'] eqn:Er.
  assert (Hs' : sound (chain n) s') by (apply sound_step; by eapply step_submit).
  by destruct r as [[err|]|e].
Qed.
Lemma wp_chain_turn syncing now w n :
  (∀ sk, sb_bytes (w_signing_sk w) = Ok sk →
     (∃ o, (produce_block now (w_address w) sk (chain n)).1 = Ok o) ∨
     (produce_block now (w_address w) sk (chain n)).2 = chain n) →
  wp (block_loop_turn syncing now w) (λ _ n', sound (chain n) (chain n')) n.
Proof.
  intros Hprod. unfold block_loop_turn. assert (Hid : sound (chain n) (chain n)) by by apply sound_spine.
  destruct syncing; [done|]. unfold try_except, wp, mbind, M_bind, lift.
  destruct (sb_bytes _) as [sk|]; [|done]. specialize (Hprod sk eq_refl). unfold on, zoom.
  destruct (produce_block now (w_address w) sk (chain n)) as [r s'] eqn:Er. cbn in Hprod.
  assert (Hs' : sound (chain n) s').
  { destruct Hprod as [[o ->]| ->]; [|done]. apply sound_step. by eapply step_produce. }
  by destruct r as [[b|]|e].
Qed.

Lemma wp_raw now d n : node_ok n →
  wp (rpc_send_raw_tx now d) (λ r n', node_ok n' ∧ sound (chain n) (chain n')) n.
Proof.
  intros Hok. assert (Hid : sound (chain n) (chain n)) by by apply sound_spine.
  unfold rpc_send_raw_tx. apply wp_bind, wp_lift. destruct (tx_from_dict d) as [tx|]; [|done].
  apply wp_bind, wp_with_lock; [apply Hok|]. intros l Hheld. pose proof (release_lock _ _ Hheld) as Hfree.
  destruct Hok as [_ Hs Hw]. apply wp_submit; [intros e; by split|].
  intros s' Hrun. apply wp_bind, wp_modify, wp_ret. split; [by split|].
  apply sound_step. by eapply step_submit.
Qed.
Lemma wp_new_wallet sp ep n : node_ok n →
  wp (rpc_new_wallet sp ep) (λ r n', node_ok n' ∧ sound (chain n) (chain n')) n.
Proof.
  intros [Hl Hs Hw]. unfold rpc_new_wallet. apply wp_bind, wp_modify, wp_ret. split; [split; [done|done|]|by apply sound_spine].
  intros a w. cbn. rewrite dget_dset. case_decide as E; [|apply Hw]. by intros [= <-].
Qed.

(** One event at the node.  A block taken from a peer and a block produced must
    not fail half-way through their application: what an aborted application
    leaves is the subject of [rejected_transfer_corrupts]. *)
Inductive node_step (n : Node) : Node → Prop :=
  | on_request now a mfpw mpf r res n' : handle now a mfpw mpf r n = (res, n') → node_step n n'
  | on_raw_tx now d res n' : rpc_send_raw_tx now d n = (res, n') → node_step n n'
  | on_new_wallet sp ep res n' : rpc_new_wallet sp ep n = (res, n') → node_step n n'
  | on_new_tx now peer d res n' : p2p_new_tx now peer d n = (res, n') → node_step n n'
  | on_new_block syncing now peer d res n' :
      (∀ b, wire_block d = Ok b → (add_block now b (chain n)).1 = Ok None ∨ (add_block now b (chain n)).2 = chain n) →
      p2p_new_block syncing now peer d n = (res, n') → node_step n n'
  | on_block_turn syncing now w res n' :
      (∀ sk, sb_bytes (w_signing_sk w) = Ok sk →
         (∃ o, (produce_block now (w_address w) sk (chain n)).1 = Ok o) ∨
         (produce_block now (w_address w) sk (chain n)).2 = chain n) →
      block_loop_turn syncing now w n = (res, n') → node_step n n'.

Lemma node_step_ok n n' : node_step n n' → node_ok n → node_ok n' ∧ sound (chain n) (chain n').
Proof.
  intros Hst Hok. destruct Hst as [now a mf mp r res n' Hrun|now d res n' Hrun|sp ep res n' Hrun|now peer d res n' Hrun|
    sy now peer d res n' Hadd Hrun|sy now w res n' Hprod Hrun].
  - pose proof (wp_run _ _ _ _ _ Hrun (wp_handle now a mf mp r n Hok)) as [Hok' Hres]. split; [done|].
    destruct res as [d|e].
    + destruct Hres as (tx & f & p & Hp & _). apply sound_step. eapply step_submit, ps_chain, Hp.
    + apply sound_spine. by rewrite (id_chain _ _ Hres).
  - exact (wp_run _ _ _ _ _ Hrun (wp_raw now d n Hok)).
  - exact (wp_run _ _ _ _ _ Hrun (wp_new_wallet sp ep n Hok)).
  - split; [|exact (wp_run _ _ _ _ _ Hrun (wp_chain_new_tx now peer d n))].
    apply (private_ok n); [|done]. pose proof (private_new_tx now peer d n) as H. by rewrite Hrun in H.
  - split; [|exact (wp_run _ _ _ _ _ Hrun (wp_chain_new_block sy now peer d n Hadd))].
    apply (private_ok n); [|done]. pose proof (private_new_block sy now peer d n) as H. by rewrite Hrun in H.
  - split; [|exact (wp_run _ _ _ _ _ Hrun (wp_chain_turn sy now w n Hprod))].
    apply (private_ok n); [|done]. pose proof (private_turn sy now w n) as H. by rewrite Hrun in H.
Qed.
End Running.

(** The node as [FullNode.__init__] leaves it, over a chain *)
Definition fresh_node (s : Chain) : Node := mkNode s [] [] [] ∅ [] [].
Lemma fresh_node_ok s : node_ok (fresh_node s).
Proof. split; [split; [constructor|constructor|done]|done|done]. Qed.

(** ** Properties *)


(** ** A block that is refused *)

Section Refused.
Context `{C : Crypto} `{Cfg : ChainConfig} `{K : Kem}.
(** The handler records the refusal, fails on the missing counter, records it
    once more and fails again: the exception reaches the connection. *)
Lemma refused_block_run syncing now peer d b err n s' : wire_block d = Ok b → add_block now b (chain n) = (Ok (Some err), s') →
  p2p_new_block syncing now peer d n =
  (Raise AttributeError, n <| chain := s' |> <| reputation_events ::= λ l, l ++ [(peer, refusal_event err); (peer, "invalid_block")] |>).
Proof.
  unfold wire_block. destruct (jindex d "block") as [v|] eqn:Ev; [|done]. cbn [mbind result_bind].
  destruct (as_dict v) as [bd|] eqn:Ed; [|done]. cbn [mbind result_bind]. intros Eb Hadd.
  unfold p2p_new_block, try_except. rewrite Ev. unfold mbind at 1, M_bind at 1. cbn [lift]. rewrite Ed.
  unfold mbind at 1, M_bind at 1. cbn [lift]. rewrite Eb. unfold mbind at 1, M_bind at 1. cbn [lift].
  unfold mbind at 1, M_bind at 1, on, zoom. rewrite Hadd.
  assert (Hl : ∀ l : list (string * string), l ++ [(peer, refusal_event err); (peer, "invalid_block")] =
    (l ++ [(peer, refusal_event err)]) ++ [(peer, "invalid_block")]) by (intros l; by rewrite <-app_assoc).
  transitivity (Raise (A := unit) AttributeError, n <| chain := s' |>
    <| reputation_events ::= λ l, (l ++ [(peer, refusal_event err)]) ++ [(peer, "invalid_block")] |>); [reflexivity|].
  f_equal. unfold set, set_reputation_events. f_equal. symmetry. apply Hl.
Qed.
Lemma known_block_refused now b s : is_Some (block_by_hash (idx s) !! block_hash b) →
  add_block now b s = (Ok (Some "already have this block"), s).
Proof. intros Hb. unfold add_block, mbind, M_bind, get. by rewrite bool_decide_eq_true_2. Qed.
End Refused.
Lemma is_empty_false s : s ≠ EmptyString → is_empty s = false.
Proof. by destruct s. Qed.
(** The events of a peer entered into its record *)
Definition enter_events (t : spec_float) (events : list (string * string)) (r : PeerReputation) : result PeerReputation :=
  foldl (λ r e, r ← r; Limits.record_event t e.1 e.2 r) (Ok r) events.
Lemma entered_score t p e r r' delta : p ≠ EmptyString → dget EVENTS e = Some delta → Limits.record_event t p e r = Ok r' →
  dget (scores r') p = Some (fadd (dget_or (scores r) p DEFAULT_SCORE) (float_of_Z delta)) ∧
  (fle (fadd (dget_or (scores r) p DEFAULT_SCORE) (float_of_Z delta)) BAN_THRESHOLD = true → is_banned r' p = true).
Proof.
  intros Hp He. unfold Limits.record_event. rewrite is_empty_false, He by done. intros [= <-]. cbn [scores]. rewrite dget_dset, decide_True by done.
  split; [done|]. intros Hle. unfold is_banned. rewrite is_empty_false by done. cbn [negb andb banned]. rewrite Hle. apply bool_decide_eq_true. set_solver.
Qed.


(** C29 Every method that submits for a wallet either raises, and then the chain,
    the pool, the wallets and the outbox are as before, or answers with the
    identifier of one transaction: of the requested type, from that wallet,
    signed, with the nonce after everything the sender has on the chain and in
    the pool, offering the given or the default fees, appended to the pool and
    broadcast.  The pool keeps its invariant either way. *)
Theorem rpc_posts_next `{C : Crypto} `{Cfg : ChainConfig} `{K : Kem} (now : Z) (a : string) (mfpw mpf : option Z)
  (r : request) (n n' : Node) (res : result (dict string JVal))
  (Hn : node_ok n) (Hp : pool_ok (chain n)) (Hrun : handle now a mfpw mpf r n = (res, n')) :
  pool_ok (chain n') ∧
  match res with
  | Raise _ => chain n' = chain n ∧ outbox n' = outbox n ∧ wallets n' = wallets n
  | Ok d => ∃ tx, dget d "tx_id" = Some (JStr (tx_id tx)) ∧
      tx_pool (pool (chain n')) = tx_pool (pool (chain n)) ++ [tx] ∧
      outbox n' = outbox n ++ [new_tx_message tx] ∧
      tx_type tx = request_type r ∧ sender tx = a ∧ tx_verify tx = true ∧ validate_payload tx = accept ∧
      nonce tx = get_next_nonce (chain n) a + count_sender a (tx_pool (pool (chain n))) ∧
      compute_fee_defaults (chain n) mfpw mpf = Ok (max_fee_per_weight tx, max_priority_fee tx)
  end.
Proof.
  pose proof (wp_run _ _ _ _ _ Hrun (wp_handle now a mfpw mpf r n Hn)) as [_ Hres]. destruct res as [d|e].
  - destruct Hres as (tx & f & p & Hps & Hid & _ & Hty & Hsnd & Hno & Hf & <- & <-).
    pose proof (ps_chain _ _ _ _ Hps) as Hsub. split.
    { pose proof (submit_pool_ok now tx (chain n) Hp) as H. by rewrite Hsub in H. }
    destruct (decide (admission now (chain n) tx = accept)) as [Ha|Ha].
    + destruct (submit_run now tx (chain n) Ha) as (dd & _ & Hrun'). rewrite Hsub in Hrun'. injection Hrun' as Hc.
      apply admit_admissible in Ha as []. exists tx. split_and!; try done.
      * by rewrite Hc. * apply (ps_outbox _ _ _ _ Hps).
      * rewrite Hno. unfold next_nonce, pending_from. by rewrite (po_count _ _ (proj1 Hp)).
    + exfalso. apply Ha. unfold submit_tx, get, lift in Hsub. unfold mbind, M_bind in Hsub.
      by destruct (admission now (chain n) tx) as [[m|]|e].
  - split; [by rewrite (id_chain _ _ Hres)|]. by destruct Hres.
Qed.

Lemma get_secret_run tid ss n : dget (shared_secrets n) tid = Some ss → ss ≠ EmptyString →
  rpc_get_shared_secret tid n = (Ok [("shared_secret", JStr (hex ss))], n).
Proof.
  intros Hg Hne. unfold rpc_get_shared_secret, get, check, guard, lift, mbind, M_bind. by rewrite Hg, is_empty_false.
Qed.
Lemma truthy_hex ct : 0 < str_len ct → truthy (JStr (hex ct)) = true.
Proof. by destruct ct. Qed.
Lemma decapsulate_run `{C : Crypto} `{K : Kem} b tid m w tx ct sk ss :
  dget (wallets m) b = Some w → get_tx (chain m) tid = Some tx → tx_type tx = SHARE → recipient tx = w_address w →
  jget (payload tx) "encapsulatedKey" (JStr EmptyString) = JStr (hex ct) → str_len ct = MLKEM_CT_SIZE →
  sb_bytes (w_encryption_sk w) = Ok sk → str_len sk = MLKEM_SK_SIZE → oqs_decap sk ct = Some ss →
  (rpc_decapsulate_shared b tid m).1 = Ok [("shared_secret", JStr (hex ss))].
Proof.
  intros Hw Htx Hty Hto Hbox Hct Hsk Hlen Hss.
  unfold rpc_decapsulate_shared, get_wallet, get, check, guard, lift, mbind, M_bind. rewrite Hw. unfold mret, M_ret. rewrite Htx, Hty, Hto, Hbox.
  rewrite !bool_decide_eq_true_2 by done. cbn [negb]. rewrite truthy_hex by (rewrite Hct; done). cbn [negb].
  rewrite fromhex_val_hex. unfold decapsulate, guard. rewrite Hsk. cbn [mbind result_bind]. by rewrite Hlen, Hct, !Z.eqb_refl, Hss.
Qed.

(** C37 The two ends of a SHARE agree.  When the method answers, a SHARE was
    posted under the identifier it returns; the sender reads the shared secret
    of that transaction back from the node, and on any node that has the
    transaction, mined or pooled, the recipient's wallet decapsulates exactly
    the same secret from it. *)
Theorem share_roundtrip `{C : Crypto} `{Cfg : ChainConfig} `{K : Kem} `{!KemLaws K}
  (now : Z) (a : string) (mfpw mpf : option Z) (coins rcp cid given : string) (expires : Z)
  (n n' : Node) (d : dict string JVal) (sk pk : string)
  (Hn : node_ok n) (Hkey : key_bytes n rcp given = Ok pk) (Hpair : kem_pair sk pk)
  (Hrun : rpc_share now a mfpw mpf coins rcp cid given expires n = (Ok d, n')) :
  ∃ tx ss, posted now tx n n' ∧ dget d "tx_id" = Some (JStr (tx_id tx)) ∧ tx_type tx = SHARE ∧
    (rpc_get_shared_secret (tx_id tx) n').1 = Ok [("shared_secret", JStr (hex ss))] ∧
    ∀ m b w, get_tx (chain m) (tx_id tx) = Some tx → dget (wallets m) b = Some w → w_address w = rcp →
      sb_bytes (w_encryption_sk w) = Ok sk → str_len sk = MLKEM_SK_SIZE →
      (rpc_decapsulate_shared b (tx_id tx) m).1 = Ok [("shared_secret", JStr (hex ss))].
Proof.
  pose proof (wp_run _ _ _ _ _ Hrun (wp_share now a mfpw mpf coins rcp cid given expires n Hn)) as [_ Hres].
  destruct Hres as (w0 & pk' & ct & ss & tx & Hp & _ & (f & p & _ & Hform) & -> & Hpk & Hbox & Hss).
  rewrite Hkey in Hpk. injection Hpk as <-. apply encapsulate_inv in Hbox.
  destruct (encap_sizes _ _ _ _ Hbox) as [Hct Hne]. exists tx, ss. split; [done|]. split; [done|].
  destruct Hform as (sig & spk & Etx). assert (Hty : tx_type tx = SHARE) by by rewrite Etx.
  assert (Hto : recipient tx = rcp) by by rewrite Etx.
  assert (Hbox2 : jget (payload tx) "encapsulatedKey" (JStr EmptyString) = JStr (hex ct)) by by rewrite Etx.
  clear Etx. split; [done|]. split; [by rewrite (get_secret_run _ ss)|].
  intros m b w Hm Hw Hr Hsk Hlen.
  refine (decapsulate_run _ _ _ w tx ct sk ss Hw Hm Hty _ Hbox2 Hct Hsk Hlen (Hpair _ _ _ Hbox)). by rewrite Hto.
Qed.

(** ** Concrete runs *)

Module Shares.
#[local] Existing Instance Toy.crypto.
#[local] Existing Instance legacy_config.
#[local] Existing Instance ToyKem.kem.
Definition bob_sk : string := be_bytes 2400 77.
Definition alice : Wallet := generate ("k", "k") ("e", "pe").
Definition bob : Wallet := generate ("b", "b") (bob_sk, ToyKem.pk_of bob_sk).
(** The validator's node on its genesis, holding both wallets *)
Abbreviation node := (mkNode Run.genesis [(w_address alice, alice); (w_address bob, bob)] [] [] ∅ [] []).
Abbreviation share := (rpc_share 1000 (w_address alice) None None "coins" (w_address bob) "cid" (hex (ToyKem.pk_of bob_sk)) 0 node).
Abbreviation notarize := (handle 1000 Sample.addr None None (NotarizeDoc "ab" "") node).
Definition answer {A} (dflt : A) (r : result A) : A := match r with Ok a => a | Raise _ => dflt end.
Lemma node_holds : node_ok node.
Proof.
  split; [split; [constructor|constructor|done]|done|].
  intros a w Hw%dget_Some_elem. cbn [wallets] in Hw. apply elem_of_cons in Hw as [[= -> ->]|[[= -> ->]|[]%elem_of_nil]%elem_of_cons]; done.
Qed.
Lemma genesis_pool : pool_ok (chain node).
Proof. apply (genesis_ok 900 Sample.addr "k" "k"), unit_run. vm_compute. reflexivity. Qed.
Definition answered_ok {A} (r : result A) : bool := match r with Ok _ => true | Raise _ => false end.
Lemma answers {A S} (dflt : A) (r : result A * S) : answered_ok r.1 = true → r = (Ok (answer dflt r.1), r.2).
Proof. by destruct r as [[] ]. Qed.
Abbreviation ran := (handle 1000 Sample.addr None None (NotarizeDoc "ab" "")
  (rpc_new_wallet ("k", "k") ("e", "pe") (fresh_node Run.genesis)).2).2.
Lemma ran_reached : rtc node_step (fresh_node Run.genesis) ran.
Proof.
  eapply rtc_l; [eapply (on_new_wallet _ ("k", "k") ("e", "pe")), surjective_pairing|].
  apply rtc_once. eapply on_request, surjective_pairing.
Qed.
Lemma notarized : notarize = (Ok (answer [] notarize.1), notarize.2).
Proof. apply answers. vm_compute. reflexivity. Qed.
Lemma shared_run : share = (Ok (answer [] share.1), share.2).
Proof. apply answers. vm_compute. reflexivity. Qed.
Lemma bob_key : key_bytes node (w_address bob) (hex (ToyKem.pk_of bob_sk)) = Ok (ToyKem.pk_of bob_sk).
Proof. vm_compute. reflexivity. Qed.
End Shares.

#[local] Existing Instance Toy.crypto.
#[local] Existing Instance legacy_config.
#[local] Existing Instance ToyKem.kem.

(** An empty block, relayed to a node that has it in its index *)
Module Relayed.
#[local] Existing Instance Toy.crypto.
#[local] Existing Instance legacy_config.
Definition block : Block := mkBlock 1 zeros64 [] Sample.addr 950 EmptyString 0 zeros64 EmptyString.
Definition message : dict string JVal := [("block", JObj (block_to_dict block))].
Definition node : Node := fresh_node (Run.genesis <| idx ::= set block_by_hash <[block_hash block := 1]> |>).
End Relayed.

Lemma rpc_posts_next_witness :
  (dget (Shares.answer [] Shares.notarize.1) "tx_id" = Some (JStr (tx_id (C := Toy.crypto) (Sample.tx 0)))) ∧
  pool_ok (C := Toy.crypto) (Cfg := legacy_config) (chain Shares.notarize.2).
Proof.
  split; [vm_compute; reflexivity|].
  exact (proj1 (rpc_posts_next (C := Toy.crypto) (Cfg := legacy_config) (K := ToyKem.kem) 1000 Sample.addr None None
    (NotarizeDoc "ab" "") Shares.node Shares.notarize.2 _ Shares.node_holds Shares.genesis_pool Shares.notarized)).
Defined.

Lemma share_roundtrip_witness :
  ∃ tx ss, tx_type tx = SHARE ∧
    (rpc_get_shared_secret (tx_id (C := Toy.crypto) tx) Shares.share.2).1 = Ok [("shared_secret", JStr (hex ss))].
Proof.
  destruct (share_roundtrip (C := Toy.crypto) (Cfg := legacy_config) (K := ToyKem.kem) (KemLaws0 := ToyKem.laws)
    1000 (w_address Shares.alice) None None "coins" (w_address Shares.bob) "cid" (hex (ToyKem.pk_of Shares.bob_sk)) 0
    Shares.node Shares.share.2 _ Shares.bob_sk (ToyKem.pk_of Shares.bob_sk)
    Shares.node_holds Shares.bob_key (ToyKem.pair _) Shares.shared_run) as (tx & ss & _ & _ & H1 & H2 & _).
  exact (ex_intro _ tx (ex_intro _ ss (conj H1 H2))).
Defined.
