(* ===== verification/Sync.v ===== *)
(** * Header-first synchronisation

    [network/sync.py] and the sync helpers of [core/blockchain.py]: the states
    of the manager, the download and the checks of headers, the comparison with
    further peers, the download of blocks, the handling of forks and the main
    loop; with the handler of peer heights of [node.py].

    Everything outside a handler happens at its [await]s: one is a turn of the
    [world], which delivers the answer to a request, the time, the peers as
    they are then, the heights peers announced, what gossip did to the chain,
    and whether [stop] was called.  Answers are typed as lists of dictionaries
    (a list of anything else raises in the code).  Comparisons of JSON
    values are on integers and on strings; floats and lists raise here.
    [sync.py] imports its constants from [config.py] and names from
    [sync_messages.py], and calls [reputation.score]: none of them is in the
    repository, so they are parameters. *)
From S2P Require Import Prelude PyStr Json Config Crypto StateTrie Wallet Transaction Fees Block Receipt ChainState Ledger StateOps Consensus Apply TxPool Rollback Chain.
Open Scope Z_scope.

Class SyncConfig := {
  SYNC_BATCH_SIZE : Z; SYNC_BLOCK_BATCH : Z; SYNC_THRESHOLD : Z; SYNC_MAX_PARALLEL : Z; SYNC_MAX_RETRIES : Z;
  SYNC_CHECKPOINT_INTERVAL : Z; SYNC_CROSS_VERIFY_PEERS : Z;
  (** [p2p.reputation.score], as an integer to compare *)
  score : string → Z;
}.

(** ** State *)

Inductive SyncState := IDLE | HEADER_SYNC | BLOCK_SYNC | SYNCED.
#[global] Instance SyncState_eq_dec : EqDecision SyncState.
Proof. solve_decision. Defined.
Definition TRANSITIONS (s : SyncState) : list SyncState :=
  match s with
  | IDLE => [HEADER_SYNC]
  | HEADER_SYNC => [BLOCK_SYNC; IDLE]
  | BLOCK_SYNC => [SYNCED; HEADER_SYNC]
  | SYNCED => [HEADER_SYNC; IDLE]
  end.

Record SyncPeer := mkSyncPeer { sp_addr : string; sp_height : Z; sp_connected : bool }.
Abbreviation header := (dict string JVal).

Record Sync := mkSync {
  chain : Chain;
  peers : dict string SyncPeer;
  state : SyncState;
  target_height : Z;
  sync_source : string;
  header_queue : list header;
  checkpoint_height : Z;
  running : bool;
  fork_source : string;
  stats : dict string Z;
  events : list (string * string);
  clock : nat;
  now : Z;
}.
#[export] Instance set_chain : Setter chain := λ f x, mkSync (f (chain x)) (peers x) (state x) (target_height x) (sync_source x)
  (header_queue x) (checkpoint_height x) (running x) (fork_source x) (stats x) (events x) (clock x) (now x).
#[export] Instance set_peers : Setter peers := λ f x, mkSync (chain x) (f (peers x)) (state x) (target_height x) (sync_source x)
  (header_queue x) (checkpoint_height x) (running x) (fork_source x) (stats x) (events x) (clock x) (now x).
#[export] Instance set_state : Setter state := λ f x, mkSync (chain x) (peers x) (f (state x)) (target_height x) (sync_source x)
  (header_queue x) (checkpoint_height x) (running x) (fork_source x) (stats x) (events x) (clock x) (now x).
#[export] Instance set_target_height : Setter target_height := λ f x, mkSync (chain x) (peers x) (state x) (f (target_height x))
  (sync_source x) (header_queue x) (checkpoint_height x) (running x) (fork_source x) (stats x) (events x) (clock x) (now x).
#[export] Instance set_sync_source : Setter sync_source := λ f x, mkSync (chain x) (peers x) (state x) (target_height x)
  (f (sync_source x)) (header_queue x) (checkpoint_height x) (running x) (fork_source x) (stats x) (events x) (clock x) (now x).
#[export] Instance set_header_queue : Setter header_queue := λ f x, mkSync (chain x) (peers x) (state x) (target_height x)
  (sync_source x) (f (header_queue x)) (checkpoint_height x) (running x) (fork_source x) (stats x) (events x) (clock x) (now x).
#[export] Instance set_checkpoint_height : Setter checkpoint_height := λ f x, mkSync (chain x) (peers x) (state x)
  (target_height x) (sync_source x) (header_queue x) (f (checkpoint_height x)) (running x) (fork_source x) (stats x) (events x)
  (clock x) (now x).
#[export] Instance set_running : Setter running := λ f x, mkSync (chain x) (peers x) (state x) (target_height x) (sync_source x)
  (header_queue x) (checkpoint_height x) (f (running x)) (fork_source x) (stats x) (events x) (clock x) (now x).
#[export] Instance set_fork_source : Setter fork_source := λ f x, mkSync (chain x) (peers x) (state x) (target_height x)
  (sync_source x) (header_queue x) (checkpoint_height x) (running x) (f (fork_source x)) (stats x) (events x) (clock x) (now x).
#[export] Instance set_stats : Setter stats := λ f x, mkSync (chain x) (peers x) (state x) (target_height x) (sync_source x)
  (header_queue x) (checkpoint_height x) (running x) (fork_source x) (f (stats x)) (events x) (clock x) (now x).
#[export] Instance set_events : Setter events := λ f x, mkSync (chain x) (peers x) (state x) (target_height x) (sync_source x)
  (header_queue x) (checkpoint_height x) (running x) (fork_source x) (stats x) (f (events x)) (clock x) (now x).
#[export] Instance set_clock : Setter clock := λ f x, mkSync (chain x) (peers x) (state x) (target_height x) (sync_source x)
  (header_queue x) (checkpoint_height x) (running x) (fork_source x) (stats x) (events x) (f (clock x)) (now x).
#[export] Instance set_now : Setter now := λ f x, mkSync (chain x) (peers x) (state x) (target_height x) (sync_source x)
  (header_queue x) (checkpoint_height x) (running x) (fork_source x) (stats x) (events x) (clock x) (f (now x)).

(** ** The world *)

(** [Failed]: sending the request raised *)
Inductive reply := Replied (l : list header) | TimedOut | Failed.
Record Turn := mkTurn {
  t_reply : reply;
  t_now : Z;
  t_peers : dict string SyncPeer;
  t_statuses : list JVal;
  t_gossip : Chain → Chain;
  t_stop : bool;
}.

(** [_p2p_status]: the announced height, when it is taken *)
Definition status_height (v : JVal) : option Z :=
  match int_val v with
  | Some h => if (-1 <=? h) && (h <=? 10000000) then Some h else None
  | None => None
  end.
Definition on_peer_status (target h : Z) : Z := if target <? h then h else target.

(** ** Checks on headers *)

(** [a < b] *)
Definition py_lt (a b : JVal) : result bool :=
  match a, b with
  | JStr s, JStr t => Ok (String.ltb s t)
  | _, _ => x ← as_Z a; y ← as_Z b; Ok (x <? y)
  end.
(** [v[:16]] in a message, which raises unless [v] is a sequence *)
Definition clip (v : JVal) : result unit :=
  match v with JStr _ | JList _ => Ok tt | _ => Raise TypeError end.
Definition mismatch (expected got : JVal) (msg : string) : verdict :=
  _ ← clip expected; _ ← clip got; reject msg.
Definition header_fields : list string := ["index"; "timestamp"; "prevHash"; "hash"; "validator"].

(** The link of a header to the one before it *)
Definition check_link (prev : header) (hdr : header) : verdict :=
  let prev_hash := jget hdr "prevHash" JNull in
  if negb (bool_decide (prev_hash = jget prev "hash" JNull))
  then mismatch (jget prev "hash" JNull) prev_hash "broken prev_hash linkage"
  else
    i ← as_Z (jget hdr "index" JNull);
    j ← as_Z (jget prev "index" JNull);
    refuse_if (negb (i =? j + 1)) "non-consecutive indices" (
    earlier ← py_lt (jget hdr "timestamp" JNull) (jget prev "timestamp" JNull);
    refuse_if earlier "non-monotonic timestamp" accept).
Definition check_start (start_prev_hash : JVal) (hdr : header) : verdict :=
  let prev_hash := jget hdr "prevHash" JNull in
  if truthy start_prev_hash && negb (bool_decide (prev_hash = start_prev_hash))
  then mismatch start_prev_hash prev_hash "header chain doesn't connect"
  else accept.
(** [validator not in registry]; a list or a dictionary is not hashable. *)
Definition check_registered (registry : gmap string string) (hdr : header) : verdict :=
  let v := jget hdr "validator" (JStr EmptyString) in
  i ← as_Z (jget hdr "index" JNull);
  if truthy v && (0 <? i) then
    match v with
    | JStr a => refuse_if (bool_decide (registry !! a = None)) "unknown validator" accept
    | JList _ | JObj _ => Raise TypeError
    | _ => reject "unknown validator"
    end
  else accept.
Definition check_header (registry : gmap string string) (link : verdict) (hdr : header) : verdict :=
  refuse_if (negb (forallb (λ f, bool_decide (is_Some (dget hdr f))) header_fields)) "missing field" (
  refuse_if (not_int_ge (jget hdr "index" JNull) 0) "invalid index" (
  and_then link (check_registered registry hdr))).
Fixpoint check_rest (registry : gmap string string) (prev : header) (l : list header) : verdict :=
  match l with
  | [] => accept
  | hdr :: rest => and_then (check_header registry (check_link prev hdr) hdr) (check_rest registry hdr rest)
  end.
Definition validate_header_chain (registry : gmap string string) (headers : list header) (start_prev_hash : JVal) : verdict :=
  match headers with
  | [] => accept
  | hdr :: rest => and_then (check_header registry (check_start start_prev_hash hdr) hdr) (check_rest registry hdr rest)
  end.

(** *** Signatures *)

(** The header a dictionary claims to be *)
Definition claimed_header (h : header) : result JVal :=
  i ← jindex h "index";
  prev ← jindex h "prevHash";
  ts ← jindex h "timestamp";
  let root k := if truthy (jget h k JNull) then [(k, jget h k JNull)] else [] in
  Ok (JObj ([("baseFee", jget h "baseFee" (JInt 0)); ("index", i);
             ("merkleRoot", jget h "merkleRoot" (JStr EmptyString)); ("prevHash", prev); ("timestamp", ts);
             ("txCount", jget h "txCount" (JInt 0)); ("validator", jget h "validator" (JStr EmptyString))]
            ++ root "receiptsRoot" ++ root "stateRoot")).

Section Checks.
Context `{C : Crypto}.

Definition verify_header_signature (h : header) (pk : string) : bool :=
  match (obj ← claimed_header h; v ← jindex h "signature"; sig ← fromhex_val v; Ok (MLDSA_verify pk (dumps obj) sig)) with
  | Ok b => b
  | Raise _ => false
  end.
Definition verify_block_signature (d : dict string JVal) (pk : string) : bool :=
  match block_from_dict d with Ok b => verify_signature b pk | Raise _ => false end.

(** What is looked up before any signature is verified *)
Definition header_key (registry : gmap string string) (h : header) : result (string + option string) :=
  if bool_decide (int_val (jget h "index" (JInt 0)) = Some 0) then Ok (inr None)
  else
    let v := jget h "validator" (JStr EmptyString) in
    if negb (truthy v) then Ok (inl "missing validator field")
    else match v with
         | JStr a =>
             match registry !! a with
             | None => Ok (inl "no public key for validator")
             | Some pk => if truthy (jget h "signature" JNull) then Ok (inr (Some pk)) else Ok (inl "missing signature")
             end
         | JList _ | JObj _ => Raise TypeError
         | _ => Ok (inl "no public key for validator")
         end.
Fixpoint verify_header_signatures (registry : gmap string string) (todo : list (header * string)) (l : list header) : verdict :=
  match l with
  | [] => refuse_if (negb (forallb (λ hk, verify_header_signature hk.1 hk.2) todo)) "invalid PQC signature" accept
  | h :: rest =>
      key ← header_key registry h;
      match key with
      | inl msg => reject msg
      | inr None => verify_header_signatures registry todo rest
      | inr (Some pk) => verify_header_signatures registry (todo ++ [(h, pk)]) rest
      end
  end.
End Checks.

Section Serve.
Context `{C : Crypto} `{Y : SyncConfig}.
(** *** What a node serves *)

Definition get_block_headers_for_sync (s : Chain) (start count : Z) : list header :=
  let stop := Z.min (start + Z.min count SYNC_BATCH_SIZE) (height s + 1) in
  omap (λ i, to_header_dict <$> get_block_by_index s i) (zrange (Z.max 0 start) stop).
Definition get_blocks_for_sync (s : Chain) (heights : list JVal) : list (dict string JVal) :=
  omap (λ v, match int_val v with
             | Some h => if h <? 0 then None else block_to_dict <$> get_block_by_index s h
             | None => None
             end) (take (Z.to_nat SYNC_BLOCK_BATCH) heights).
End Serve.

(** ** The manager *)

Section Manager.
Context `{C : Crypto} `{Cfg : ChainConfig} `{Y : SyncConfig} (world : nat → Turn).

(** One [await] *)
Definition await : M Sync reply := λ s,
  let t := world (clock s) in
  (Ok (t_reply t),
   s <| clock ::= S |> <| now := t_now t |> <| peers := t_peers t |> <| chain ::= t_gossip t |>
     <| running ::= λ r, r && negb (t_stop t) |>
     <| target_height ::= λ h, foldl on_peer_status h (omap status_height (t_statuses t)) |>).
Definition pause : M Sync unit := _ ← await; mret tt.

(** Whether the move was made; the callers ignore the answer. *)
Definition transition (new : SyncState) : M Sync bool :=
  s ← get;
  if bool_decide (new ∈ TRANSITIONS (state s)) then _ ← modify (set state (λ _, new)); mret true else mret false.
Definition to_state (new : SyncState) : M Sync unit := _ ← transition new; mret tt.
Definition is_syncing (s : Sync) : bool := bool_decide (state s = HEADER_SYNC ∨ state s = BLOCK_SYNC).
Definition bump (k : string) (n : Z) : M Sync unit := modify (set stats (λ d, dset d k (dget_or d k 0 + n))).
Definition record (addr event : string) : M Sync unit := modify (set events (λ l, l ++ [(addr, event)])).

Definition best_peer_height (s : Sync) : Z :=
  foldl Z.max (-1) (sp_height <$> filter (λ p, sp_connected p ∧ 0 <= sp_height p) (peers s).*2).
Definition peer_count (s : Sync) : Z := Z.of_nat (length (filter (λ p, sp_connected p) (peers s).*2)).
Definition get_peer (s : Sync) (addr : string) : option SyncPeer :=
  match dget (peers s) addr with Some p => if sp_connected p then Some p else None | None => None end.
(** The highest first, then the best reputed, then the order of the peers *)
Definition better (p q : SyncPeer) : bool :=
  (sp_height q <? sp_height p) || ((sp_height q =? sp_height p) && (score (sp_addr q) <=? score (sp_addr p))).
Definition ranked_peers (s : Sync) : list SyncPeer :=
  sort_by better (filter (λ p, sp_connected p ∧ 0 <= sp_height p) (peers s).*2).
Definition select_sync_source (s : Sync) : option SyncPeer := head (ranked_peers s).
Definition get_sync_peers (s : Sync) : list SyncPeer := take (Z.to_nat SYNC_MAX_PARALLEL) (ranked_peers s).
Definition registry (s : Sync) : gmap string string := validator_registry (keys (chain s)).

(** *** Idle *)

Definition begin_sync (p : SyncPeer) : M Sync unit :=
  _ ← modify (λ s, s <| sync_source := sp_addr p |> <| target_height := sp_height p |>);
  to_state HEADER_SYNC.
Definition check_peers : M Sync unit :=
  _ ← pause;
  s ← get;
  let best := best_peer_height s in
  let local := height (chain s) in
  match (if local + SYNC_THRESHOLD <? best then select_sync_source s else None) with
  | Some p => begin_sync p
  | None =>
      if (0 <=? best) && (best <=? local + SYNC_THRESHOLD) && (0 <? peer_count s)
      then modify (set state (λ _, SYNCED))
      else pause
  end.

(** *** Headers *)

Definition request_headers : M Sync (option (list header)) :=
  r ← await;
  match r with
  | Replied l => mret (Some l)
  | TimedOut => mret None
  | Failed => raise RuntimeError
  end.
Definition abandon_peer (addr : string) : M Sync unit :=
  _ ← record addr "invalid_block"; _ ← bump "banned_peers" 1; to_state IDLE.
(** A batch that arrived: whether it was queued *)
Definition take_headers (addr : string) (start_prev_hash : string) (headers : list header) : M Sync bool :=
  s ← get;
  let expected := match list.last (header_queue s) with
                  | Some h => jget h "hash" JNull
                  | None => JStr start_prev_hash
                  end in
  linked ← lift (validate_header_chain (registry s) headers expected);
  match linked with
  | Some _ => _ ← abandon_peer addr; mret false
  | None =>
      signed ← lift (verify_header_signatures (registry s) [] headers);
      _ ← pause;
      match signed with
      | Some _ => _ ← abandon_peer addr; mret false
      | None =>
          _ ← modify (set header_queue (λ q, q ++ headers));
          _ ← bump "headers_downloaded" (Z.of_nat (length headers));
          mret true
      end
  end.
(** [while current_height <= target and running]: [Some true] when the loop was
    left, [Some false] when the method returned from inside it, [None] when the
    fuel ran out. *)
Fixpoint header_loop (fuel : nat) (start_prev_hash : string) (current retries : Z) : M Sync (option bool) :=
  s ← get;
  if negb ((current <=? target_height s) && running s) then mret (Some true)
  else match fuel with
  | O => mret None
  | S fuel =>
      match get_peer s (sync_source s) with
      | None => _ ← to_state IDLE; mret (Some false)
      | Some peer =>
          answer ← request_headers;
          match answer with
          | None =>
              _ ← bump "retries" 1;
              if SYNC_MAX_RETRIES <=? retries + 1 then
                _ ← record (sp_addr peer) "timeout"; _ ← to_state IDLE; mret (Some false)
              else
                _ ← modify (λ s, s <| sync_source := match select_sync_source s with
                                                     | Some p => sp_addr p
                                                     | None => EmptyString
                                                     end |>);
                header_loop fuel start_prev_hash current (retries + 1)
          | Some [] => mret (Some true)
          | Some headers =>
              queued ← take_headers (sp_addr peer) start_prev_hash headers;
              if (queued : bool) then header_loop fuel start_prev_hash (current + Z.of_nat (length headers)) 0
              else mret (Some false)
          end
      end
  end.

(** The hashes compared with further peers: at every hundredth index and at the last *)
Definition checkpoints (q : list header) : dict Z JVal :=
  let last_index := match list.last q with Some h => int_val (jget h "index" JNull) | None => None end in
  foldl (λ d h,
    match int_val (jget h "index" JNull) with
    | Some i => if (i mod SYNC_CHECKPOINT_INTERVAL =? 0) || bool_decide (last_index = Some i)
                then dset d i (jget h "hash" JNull) else d
    | None => d
    end) [] q.
(** One peer against the checkpoints: a fork ends the comparison. *)
Fixpoint compare_hashes (l : dict Z JVal) : M Sync bool :=
  match l with
  | [] => mret false
  | (_, hash) :: rest =>
      answer ← request_headers;
      match answer with
      | Some (h :: _) =>
          if bool_decide (jget h "hash" JNull = hash) then compare_hashes rest
          else _ ← lift (clip (jget h "hash" (JStr "?"))); _ ← lift (clip hash); mret true
      | _ => compare_hashes rest
      end
  end.
Fixpoint compare_peers (l : dict Z JVal) (ps : list SyncPeer) : M Sync bool :=
  match ps with
  | [] => mret false
  | p :: rest =>
      fork ← compare_hashes l;
      if (fork : bool) then _ ← modify (set fork_source (λ _, sp_addr p)); mret true else compare_peers l rest
  end.
Definition cross_verify_headers : M Sync bool :=
  s ← get;
  let verify_peers := filter (λ p, sp_connected p ∧ 0 <= sp_height p ∧ sp_addr p ≠ sync_source s) (peers s).*2 in
  if bool_decide (header_queue s = []) || (Z.of_nat (length verify_peers) <? SYNC_CROSS_VERIFY_PEERS) then mret false
  else
    fork ← compare_peers (checkpoints (header_queue s)) (take (Z.to_nat SYNC_CROSS_VERIFY_PEERS) verify_peers);
    _ ← when fork (bump "forks_detected" 1);
    mret fork.

(** [None]: the fuel ran out *)
Definition header_sync (fuel : nat) : M Sync (option unit) :=
  s ← get;
  let start_prev_hash := match latest_block (chain s) with Some tip => block_hash tip | None => zeros64 end in
  _ ← modify (set header_queue (λ _, []));
  outcome ← header_loop fuel start_prev_hash (height (chain s) + 1) 0;
  match outcome with
  | None => mret None
  | Some false => mret (Some tt)
  | Some true =>
      s ← get;
      if bool_decide (header_queue s = []) then _ ← to_state IDLE; mret (Some tt)
      else _ ← cross_verify_headers; _ ← to_state BLOCK_SYNC; mret (Some tt)
  end.
(** *** Blocks *)

(** [range(0, len(l), n)]: consecutive pieces of [n], the last one shorter; one turn per element is enough *)
Fixpoint pieces (fuel : nat) (n : nat) (l : list JVal) : list (list JVal) :=
  match fuel, l with
  | _, [] | O, _ => []
  | S fuel, _ => take n l :: pieces fuel n (drop n l)
  end.
Definition chunks (q : list header) : list (list JVal) :=
  let heights := (λ h, jget h "index" JNull) <$> q in
  pieces (length heights) (Z.to_nat SYNC_BLOCK_BATCH) heights.

(** The signature of a received block against the registry, in a worker process *)
Definition signature_ok (block : Block) : M Sync bool :=
  s ← get;
  match registry s !! validator block with
  | None => mret false
  | Some pk => _ ← pause; mret (verify_block_signature (block_to_dict block) pk)
  end.

(** One block of an answer: go on with these competing blocks, stop reading
    the answer, or leave the method. *)
Inductive taken := Go (fork_blocks : list Block) | Stop (fork_blocks : list Block) | Leave.
Definition sort_refusal (err : string) (block : Block) (fork_blocks : list Block) : taken :=
  if contains "first-seen wins" err || contains "already have" err
  then if contains "already have" err then Go fork_blocks else Go (fork_blocks ++ [block])
  else Stop fork_blocks.
(** [try: ... except Exception: break] *)
Definition or_stop (fork_blocks : list Block) (m : M Sync taken) : M Sync taken := λ s,
  match m s with (Raise _, s') => (Ok (Stop fork_blocks), s') | r => r end.
Definition take_block (fork_blocks : list Block) (d : dict string JVal) : M Sync taken := or_stop fork_blocks (
  block ← lift (block_from_dict d);
  ok ← signature_ok block;
  if negb ok then
    s ← get;
    _ ← record (sync_source s) "invalid_block";
    _ ← to_state IDLE;
    mret Leave
  else
    s ← get;
    verdict ← on chain (add_block (now s) block);
    match verdict with
    | None => _ ← bump "blocks_validated" 1; mret (Go fork_blocks)
    | Some err => mret (sort_refusal err block fork_blocks)
    end).
Fixpoint take_blocks (fork_blocks : list Block) (l : list (dict string JVal)) : M Sync (option (list Block)) :=
  match l with
  | [] => mret (Some fork_blocks)
  | d :: rest =>
      outcome ← take_block fork_blocks d;
      match outcome with
      | Go fork_blocks => take_blocks fork_blocks rest
      | Stop fork_blocks => mret (Some fork_blocks)
      | Leave => mret None
      end
  end.
(** The answer to one chunk; [None]: leave the method *)
Definition take_chunk (fork_blocks : list Block) (peer : SyncPeer) : M Sync (option (list Block)) :=
  r ← await;
  match r with
  | TimedOut => _ ← record (sp_addr peer) "timeout"; _ ← bump "retries" 1; mret (Some fork_blocks)
  | Failed => mret (Some fork_blocks)
  | Replied blocks =>
      outcome ← take_blocks fork_blocks blocks;
      match outcome with
      | None => mret None
      | Some fork_blocks =>
          _ ← bump "blocks_downloaded" (Z.of_nat (length blocks));
          s ← get;
          _ ← when (SYNC_CHECKPOINT_INTERVAL <=? height (chain s) - checkpoint_height s)
                (modify (set checkpoint_height (λ _, height (chain s))));
          mret (Some fork_blocks)
      end
  end.
Fixpoint take_batch (fork_blocks : list Block) (ps : list SyncPeer) : M Sync (option (list Block)) :=
  match ps with
  | [] => mret (Some fork_blocks)
  | p :: rest =>
      outcome ← take_chunk fork_blocks p;
      match outcome with
      | None => mret None
      | Some fork_blocks => take_batch fork_blocks rest
      end
  end.
(** [while chunk_idx < len(chunks) and running]: no batch has more chunks than
    there are peers, so each chunk has a peer of its own.  [None]: out of fuel;
    [Some None]: the method was left *)
Fixpoint download_loop (fuel : nat) (n chunk_idx : Z) (fork_blocks : list Block) : M Sync (option (option (list Block))) :=
  s ← get;
  if negb ((chunk_idx <? n) && running s) then mret (Some (Some fork_blocks))
  else match fuel with
  | O => mret None
  | S fuel =>
      match get_sync_peers s with
      | [] => _ ← pause; download_loop fuel n chunk_idx fork_blocks
      | ps =>
          let batch_size := Z.min (Z.min (Z.of_nat (length ps)) SYNC_MAX_PARALLEL) (n - chunk_idx) in
          outcome ← take_batch fork_blocks (take (Z.to_nat batch_size) ps);
          match outcome with
          | None => mret (Some None)
          | Some fork_blocks => download_loop fuel n (chunk_idx + batch_size) fork_blocks
          end
      end
  end.

Definition index_leb (a b : Block) : bool := index a <=? index b.
Definition attempt_fork_resolution (fork_blocks : list Block) : M Sync unit :=
  match sort_by index_leb fork_blocks with
  | [] => mret tt
  | first :: _ as sorted =>
      s ← get;
      if MAX_REORG_DEPTH <? height (chain s) + 1 - index first then bump "forks_rejected" 1
      else
        verdict ← on chain (try_reorg (now s) sorted);
        match verdict with
        | None => bump "reorgs_applied" 1
        | Some _ => bump "forks_rejected" 1
        end
  end.
Definition block_sync (fuel : nat) : M Sync (option unit) :=
  s ← get;
  if bool_decide (header_queue s = []) then _ ← to_state SYNCED; mret (Some tt)
  else
    outcome ← download_loop fuel (Z.of_nat (length (chunks (header_queue s)))) 0 [];
    match outcome with
    | None => mret None
    | Some None => mret (Some tt)
    | Some (Some fork_blocks) =>
        _ ← attempt_fork_resolution fork_blocks;
        _ ← modify (λ s, s <| header_queue := [] |> <| fork_source := EmptyString |>);
        _ ← to_state SYNCED;
        mret (Some tt)
    end.

(** *** Following the tip, and the main loop *)

Definition follow_tip : M Sync unit :=
  _ ← pause;
  s ← get;
  match (if height (chain s) + SYNC_THRESHOLD <? best_peer_height s then select_sync_source s else None) with
  | Some p => begin_sync p
  | None => when (peer_count s =? 0) (to_state IDLE)
  end.

Definition turn (fuel : nat) : M Sync (option unit) :=
  s ← get;
  match state s with
  | IDLE => _ ← check_peers; mret (Some tt)
  | HEADER_SYNC => header_sync fuel
  | BLOCK_SYNC => block_sync fuel
  | SYNCED => _ ← follow_tip; mret (Some tt)
  end.
(** An exception is logged, and the loop goes on after a pause. *)
Definition main_turn (fuel : nat) : M Sync (option unit) := λ s,
  match turn fuel s with
  | (Raise _, s') => (_ ← pause; mret (Some tt)) s'
  | r => r
  end.
End Manager.
