(* ===== verification/SyncLaws.v ===== *)
(** * Properties of the synchronisation

    The header download ends, whatever peers answer and announce, and hands
    over only headers that are linked and signed; the headers an honest node
    serves are accepted; every turn of the main loop moves the state along the
    table of transitions, except for the shortcut from idle to synced; a block
    with a bad signature leaves the manager where it was. *)
From S2P Require Import Prelude PyStr Json Config Crypto StateTrie Wallet Transaction Fees Block Receipt ChainState Ledger StateOps Consensus Apply TxPool Rollback Chain ChainLaws Sync.
Open Scope Z_scope.

(** The greatest height [_p2p_status] takes *)
Definition MAX_PEER_HEIGHT : Z := 10000000.

Section Laws.
Context `{C : Crypto} `{Cfg : ChainConfig} `{Y : SyncConfig} (world : nat → Turn).

(** *** What an await keeps *)

Definition target_ok (s : Sync) : Prop := target_height s <= MAX_PEER_HEIGHT.
Lemma statuses_bounded l t : t <= MAX_PEER_HEIGHT → foldl on_peer_status t (omap status_height l) <= MAX_PEER_HEIGHT.
Proof.
  revert t. induction l as [|v l IH]; intros t Ht; [done|]. csimpl.
  destruct (status_height v) as [h|] eqn:E; [|by apply IH]. apply IH. unfold on_peer_status.
  unfold status_height in E. destruct (int_val v) as [z|]; [|done].
  destruct ((-1 <=? z) && (z <=? 10000000)) eqn:Eb; [|done]. injection E as <-. unfold MAX_PEER_HEIGHT in *.
  destruct (Z.ltb_spec t z); lia.
Qed.
(** What an await does not touch *)
Definition core (s : Sync) : SyncState * string * list header * Z * dict string Z * list (string * string) :=
  (state s, sync_source s, header_queue s, checkpoint_height s, stats s, events s).
Lemma wp_await Q s :
  (∀ r s', core s' = core s → (target_ok s → target_ok s') → Q (Ok r) s') → wp (await world) Q s.
Proof. intros H. unfold wp, await. apply H; [done|]. apply statuses_bounded. Qed.
Lemma wp_pause Q s :
  (∀ s', core s' = core s → (target_ok s → target_ok s') → Q (Ok tt) s') → wp (pause world) Q s.
Proof. intros H. unfold pause. apply wp_bind, wp_await. intros r s' H1 H2. apply wp_ret. by apply H. Qed.
Lemma wp_to_state new Q s :
  Q (Ok tt) (if bool_decide (new ∈ TRANSITIONS (state s)) then s <| state := new |> else s) → wp (to_state new) Q s.
Proof.
  intros H. unfold to_state, transition. apply wp_bind, wp_bind, wp_get. case_bool_decide; [|done].
  apply wp_bind, wp_modify, wp_ret. done.
Qed.

(** *** Checks that passed *)

(** Each header names the hash claimed by the one before it, unless that claim is empty. *)
Fixpoint chained (expected : JVal) (q : list header) : Prop :=
  match q with
  | [] => True
  | h :: rest => (truthy expected = true → jget h "prevHash" JNull = expected) ∧ chained (jget h "hash" JNull) rest
  end.
Definition last_hash (start : JVal) (q : list header) : JVal :=
  match list.last q with Some h => jget h "hash" JNull | None => start end.
Definition signed_header (h : header) : Prop :=
  int_val (jget h "index" (JInt 0)) = Some 0 ∨ ∃ pk, verify_header_signature h pk = true.

Lemma chained_app start q1 q2 : chained start (q1 ++ q2) ↔ chained start q1 ∧ chained (last_hash start q1) q2.
Proof.
  revert start. induction q1 as [|h q1 IH]; intros start; cbn [app chained].
  - unfold last_hash. cbn. tauto.
  - rewrite IH. unfold last_hash. destruct q1 as [|h' q1]; cbn; [tauto|].
    destruct (list.last (h' :: q1)) eqn:E; [tauto|]. by apply last_None in E.
Qed.
Lemma mismatch_refuses a b msg : mismatch a b msg ≠ accept.
Proof. unfold mismatch. destruct (clip a) as [[]|]; [|done]. by destruct (clip b) as [[]|]. Qed.
Lemma check_header_link reg link hdr : check_header reg link hdr = accept → link = accept.
Proof. unfold check_header. rewrite !refuse_if_accept. intros (_ & _ & H). by apply and_then_accept in H as [H _]. Qed.
Lemma check_rest_chained reg prev l : check_rest reg prev l = accept → chained (jget prev "hash" JNull) l.
Proof.
  revert prev. induction l as [|h l IH]; intros prev; [done|]. cbn [check_rest chained].
  rewrite and_then_accept. intros [Hh%check_header_link Hl%IH]. split; [|done]. intros _.
  unfold check_link in Hh. case_bool_decide; [done|]. by apply mismatch_refuses in Hh.
Qed.
Lemma validate_chained reg l start : validate_header_chain reg l start = accept → chained start l.
Proof.
  destruct l as [|h l]; [done|]. cbn [validate_header_chain chained]. rewrite and_then_accept.
  intros [Hh%check_header_link Hl%check_rest_chained]. split; [|done]. intros Ht.
  unfold check_start in Hh. rewrite Ht in Hh. case_bool_decide; [done|]. by apply mismatch_refuses in Hh.
Qed.
Lemma header_key_signed reg h : header_key reg h = Ok (inr None) → signed_header h.
Proof.
  unfold header_key. case_bool_decide as E; [by left|]. destruct (truthy _); [|done]. cbn [negb].
  destruct (jget h "validator" _); try done. destruct (reg !! s); [|done]. by destruct (truthy _).
Qed.
Lemma verify_signed reg todo l : verify_header_signatures reg todo l = accept →
  Forall (λ hk, verify_header_signature hk.1 hk.2 = true) todo ∧ Forall signed_header l.
Proof.
  revert todo. induction l as [|h l IH]; intros todo; cbn [verify_header_signatures].
  - rewrite refuse_if_accept, negb_false_iff. intros [H _]. split; [|done]. apply List.Forall_forall. by apply forallb_forall.
  - destruct (header_key reg h) as [[msg|[pk|]]|] eqn:E; [done| | |done]; cbn [mbind result_bind].
    + intros [Ht Hl]%IH. apply list.Forall_app in Ht as [Ht Hh]. apply list.Forall_cons in Hh as [Hh _]. split; [done|].
      constructor; [right; by exists pk|done].
    + intros [Ht Hl]%IH. split; [done|]. constructor; [|done]. by eapply header_key_signed.
Qed.

(** *** The header download *)

Definition queue_ok (start : JVal) (q : list header) : Prop := chained start q ∧ Forall signed_header q.

Lemma wp_abandon addr Q s : state s = HEADER_SYNC →
  (∀ s', state s' = IDLE → Q (Ok tt) s') → wp (abandon_peer addr) Q s.
Proof.
  intros Hst H. unfold abandon_peer, record, bump. apply wp_bind, wp_modify, wp_bind, wp_modify, wp_to_state.
  cbn. rewrite Hst. cbn. by apply H.
Qed.
Lemma wp_take_headers addr start hs s : state s = HEADER_SYNC → target_ok s → queue_ok (JStr start) (header_queue s) →
  wp (take_headers world addr start hs) (λ r s', match r with
    | Ok true => state s' = HEADER_SYNC ∧ target_ok s' ∧ queue_ok (JStr start) (header_queue s')
    | Ok false => state s' = IDLE
    | Raise _ => state s' = HEADER_SYNC end) s.
Proof.
  intros Hst Ht [Hc Hf]. unfold take_headers. apply wp_bind, wp_get.
  set (expected := match list.last (header_queue s) with Some h => _ | None => _ end).
  apply wp_bind, wp_lift. destruct (validate_header_chain _ _ _) as [[m|]|e] eqn:Ev; [| |done].
  - apply wp_bind. by apply wp_abandon.
  - apply wp_bind, wp_lift. destruct (verify_header_signatures _ _ _) as [verdict|e] eqn:Es; [|done].
    apply wp_bind, wp_pause. intros s1 [= Hst1 _ Hq1 _ _ _] Ht1. destruct verdict as [m|].
    + apply wp_bind, wp_abandon; [congruence|]. done.
    + apply wp_bind, wp_modify, wp_bind, wp_modify, wp_ret. split_and!; [cbn; congruence|by apply Ht1|].
      cbn. rewrite Hq1. split.
      * apply chained_app. split; [done|]. by apply validate_chained in Ev.
      * apply list.Forall_app. split; [done|]. by apply verify_signed in Es as [_ Es].
Qed.

(** The turns that are left: a batch makes progress, and between two batches
    there are fewer timeouts than retries. *)
Definition retry_limit : Z := Z.max 1 SYNC_MAX_RETRIES.
Definition turns_left (current retries : Z) : Z := (MAX_PEER_HEIGHT + 1 - current) * retry_limit + (retry_limit - retries).

Lemma wp_request_headers Q s :
  (∀ o s', core s' = core s → (target_ok s → target_ok s') → Q (Ok o) s') →
  (∀ s', core s' = core s → Q (Raise RuntimeError) s') → wp (request_headers world) Q s.
Proof.
  intros H1 H2. unfold request_headers. apply wp_bind, wp_await. intros [l| |] s' Hc Ht.
  - apply wp_ret. by apply H1. - apply wp_ret. by apply H1. - apply wp_raise. by apply H2.
Qed.
Definition loop_outcome (start : JVal) (r : result (option bool)) (s : Sync) : Prop :=
  match r with
  | Ok (Some true) => state s = HEADER_SYNC ∧ queue_ok start (header_queue s)
  | Ok (Some false) => state s = IDLE
  | Ok None => False
  | Raise _ => state s = HEADER_SYNC
  end.
Lemma wp_header_loop fuel start current retries s :
  state s = HEADER_SYNC → target_ok s → queue_ok (JStr start) (header_queue s) → 0 <= retries < retry_limit →
  turns_left current retries <= Z.of_nat fuel →
  wp (header_loop world fuel start current retries) (loop_outcome (JStr start)) s.
Proof.
  revert current retries s. induction fuel as [|fuel IH]; intros current retries s Hst Ht Hq Hr Hm;
    cbn [header_loop]; apply wp_bind, wp_get; destruct (Z.leb_spec current (target_height s)) as [Hle|];
    destruct (running s); cbn [andb negb]; try (by apply wp_ret).
  { exfalso. unfold turns_left, target_ok in *. nia. }
  destruct (get_peer s _) as [peer|]; [|by apply wp_bind, wp_to_state; rewrite Hst].
  apply wp_bind, wp_request_headers; [|intros s1 [= E _ _ _ _ _]; cbn; congruence].
  intros answer s1 [= Hst1 _ Hq1 _ _ _] Ht1. rewrite Hst in Hst1. specialize (Ht1 Ht). rewrite <-Hq1 in Hq. clear Hq1.
  destruct answer as [[|hd tl]|]; [by apply wp_ret| |].
  - apply wp_bind. eapply wp_mono; [by apply wp_take_headers|]. intros [[]|e] s2 H2; [|done|done].
    destruct H2 as (Hst2 & Ht2 & Hq2). apply IH; try done; [unfold retry_limit in *; lia|].
    unfold turns_left in *. cbn [length]. nia.
  - unfold bump, record. apply wp_bind, wp_modify. destruct (Z.leb_spec SYNC_MAX_RETRIES (retries + 1)).
    + apply wp_bind, wp_modify, wp_bind, wp_to_state. cbn. by rewrite Hst1.
    + apply wp_bind, wp_modify. apply IH; try done; [unfold retry_limit in *; lia|]. unfold turns_left in *. lia.
Qed.

Lemma wp_compare_hashes l s :
  wp (compare_hashes world l) (λ _ s', state s' = state s ∧ header_queue s' = header_queue s) s.
Proof.
  revert s. induction l as [|[i h] l IH]; intros s; [done|]. cbn [compare_hashes].
  apply wp_bind, wp_request_headers; [|by intros s' [= -> _ -> _ _ _]]. intros o s1 [= Hst _ Hq _ _ _] _.
  rewrite <-Hst, <-Hq. destruct o as [[|hd tl]|]; [apply IH| |apply IH]. case_bool_decide; [apply IH|].
  apply wp_bind, wp_lift. destruct (clip _) as [[]|]; [|done]. apply wp_bind, wp_lift. by destruct (clip h) as [[]|].
Qed.
Lemma wp_compare_peers l ps s :
  wp (compare_peers world l ps) (λ _ s', state s' = state s ∧ header_queue s' = header_queue s) s.
Proof.
  revert s. induction ps as [|p ps IH]; intros s; [done|]. cbn [compare_peers].
  apply wp_bind. eapply wp_mono; [apply wp_compare_hashes|]. intros [[]|e] s1 [Hst Hq]; rewrite <-Hst, <-Hq; [|apply IH|done].
  by apply wp_bind, wp_modify, wp_ret.
Qed.
Lemma wp_cross_verify s :
  wp (cross_verify_headers world) (λ _ s', state s' = state s ∧ header_queue s' = header_queue s) s.
Proof.
  unfold cross_verify_headers. apply wp_bind, wp_get. destruct (_ || _); [done|].
  apply wp_bind. eapply wp_mono; [apply wp_compare_peers|]. intros [fork|e] s1 H1; [|done].
  apply wp_bind, wp_when; intros _; [by apply wp_modify, wp_ret|by apply wp_ret].
Qed.

Lemma wp_header_sync fuel s : state s = HEADER_SYNC → target_ok s →
  turns_left (height (chain s) + 1) 0 <= Z.of_nat fuel →
  wp (header_sync world fuel) (λ r s', match r with
    | Ok None => False
    | Ok (Some _) => state s' = IDLE ∨ (state s' = BLOCK_SYNC ∧ header_queue s' ≠ [] ∧
        queue_ok (JStr match latest_block (chain s) with Some b => block_hash b | None => zeros64 end) (header_queue s'))
    | Raise _ => state s' = HEADER_SYNC end) s.
Proof.
  intros Hst Ht Hf. unfold header_sync. apply wp_bind, wp_get, wp_bind, wp_modify, wp_bind.
  eapply wp_mono; [apply wp_header_loop; try done; unfold retry_limit; lia|].
  intros [[[]|]|e] s1 H1; [|by left|done|done]. destruct H1 as [Hst1 Hq1].
  apply wp_bind, wp_get. case_bool_decide as Hne.
  { apply wp_bind, wp_to_state. rewrite Hst1. by left. }
  apply wp_bind. eapply wp_mono; [apply wp_cross_verify|]. intros [f|e] s2 [Hst2 Hq2]; [|congruence].
  apply wp_bind, wp_to_state. rewrite Hst2, Hst1, bool_decide_eq_true_2 by set_solver. right. by rewrite <-Hq2 in Hne, Hq1.
Qed.

(** *** The moves of the state machine *)

Section Moves.
Context (A : list SyncState).
Definition within (s : Sync) : Prop := state s ∈ A.
Lemma within_modify f : (∀ s, state (f s) = state s) → keeps within (modify f).
Proof. intros Hf. apply keeps_modify. intros s. unfold within. by rewrite Hf. Qed.
Lemma within_await : keeps within (await world).
Proof. intros s Hs. apply wp_await. intros r s' [= E _ _ _ _ _] _. unfold within. by rewrite E. Qed.
Lemma within_pause : keeps within (pause world).
Proof. intros s Hs. apply wp_pause. intros s' [= E _ _ _ _ _] _. unfold within. by rewrite E. Qed.
Lemma within_to_state new : (∀ σ, σ ∈ A → new ∈ TRANSITIONS σ → new ∈ A) → keeps within (to_state new).
Proof. intros Hnew s Hs. apply wp_to_state. case_bool_decide; [|done]. by apply (Hnew (state s)). Qed.
Lemma within_on {B} (m : M Chain B) : keeps within (on chain m).
Proof. intros s Hs. apply wp_on. unfold wp. by destruct (m (chain s)). Qed.
Lemma within_or_stop fb m : keeps within m → keeps within (or_stop fb m).
Proof. intros Hm s Hs. specialize (Hm s Hs). unfold wp, or_stop in *. by destruct (m s) as [[]]. Qed.
End Moves.
#[local] Hint Resolve within_await within_pause within_on within_or_stop : keeps.
#[local] Hint Extern 1 (keeps (within _) (modify _)) => (apply within_modify; by intros []) : keeps.
#[local] Hint Extern 1 (keeps (within _) (bump _ _)) => (apply within_modify; by intros []) : keeps.
#[local] Hint Extern 1 (keeps (within _) (record _ _)) => (apply within_modify; by intros []) : keeps.
#[local] Hint Extern 1 (keeps (within _) (to_state _)) =>
  (apply within_to_state; intros σ; rewrite !elem_of_cons, elem_of_nil; intuition (subst; set_solver)) : keeps.

Lemma moves_idle : keeps (within [IDLE; HEADER_SYNC; SYNCED]) (check_peers world).
Proof.
  unfold check_peers, begin_sync. apply keeps_bind; [auto with keeps|intros _]. apply keeps_bind; [auto with keeps|intros s].
  destruct (if _ <? _ then _ else _); [auto with keeps|]. destruct (_ && _ && _); [|auto with keeps].
  apply keeps_modify. intros; unfold within; cbn; set_solver.
Qed.
Lemma moves_tip : keeps (within [SYNCED; HEADER_SYNC; IDLE]) (follow_tip world).
Proof.
  unfold follow_tip, begin_sync. apply keeps_bind; [auto with keeps|intros _]. apply keeps_bind; [auto with keeps|intros s].
  destruct (if _ <? _ then _ else _); auto with keeps.
Qed.

(** Downloading headers, the manager goes to the next state or back to idle. *)
Abbreviation header_states := (within [HEADER_SYNC; BLOCK_SYNC; IDLE]).
Lemma moves_request : keeps header_states (request_headers world).
Proof. unfold request_headers. auto with keeps. Qed.
#[local] Hint Resolve moves_request : keeps.
Lemma moves_take_headers addr start hs : keeps header_states (take_headers world addr start hs).
Proof. unfold take_headers, abandon_peer. auto 20 with keeps. Qed.
#[local] Hint Resolve moves_take_headers : keeps.
Lemma moves_header_loop fuel start current retries : keeps header_states (header_loop world fuel start current retries).
Proof. revert current retries. induction fuel; intros; cbn [header_loop]; auto 30 with keeps. Qed.
Lemma moves_compare l : keeps header_states (compare_hashes world l).
Proof. induction l as [|[]]; cbn [compare_hashes]; auto 20 with keeps. Qed.
#[local] Hint Resolve moves_header_loop moves_compare : keeps.
Lemma moves_compare_peers l ps : keeps header_states (compare_peers world l ps).
Proof. induction ps; cbn [compare_peers]; auto 20 with keeps. Qed.
#[local] Hint Resolve moves_compare_peers : keeps.
Lemma moves_headers fuel : keeps header_states (header_sync world fuel).
Proof. unfold header_sync, cross_verify_headers. auto 30 with keeps. Qed.

(** Downloading blocks, the manager stays where it is until it is done. *)
Abbreviation block_state := (within [BLOCK_SYNC]).
Lemma stays_signature b : keeps block_state (signature_ok world b).
Proof. unfold signature_ok. auto 20 with keeps. Qed.
#[local] Hint Resolve stays_signature : keeps.
Lemma stays_take_block fb d : keeps block_state (take_block world fb d).
Proof. unfold take_block. auto 30 with keeps. Qed.
#[local] Hint Resolve stays_take_block : keeps.
Lemma stays_take_blocks fb l : keeps block_state (take_blocks world fb l).
Proof. revert fb. induction l; intros fb; cbn [take_blocks]; auto 20 with keeps. Qed.
#[local] Hint Resolve stays_take_blocks : keeps.
Lemma stays_take_chunk fb p : keeps block_state (take_chunk world fb p).
Proof. unfold take_chunk. auto 30 with keeps. Qed.
#[local] Hint Resolve stays_take_chunk : keeps.
Lemma stays_take_batch fb ps : keeps block_state (take_batch world fb ps).
Proof. revert fb. induction ps; intros fb; cbn [take_batch]; auto 20 with keeps. Qed.
#[local] Hint Resolve stays_take_batch : keeps.
Lemma stays_download fuel n i fb : keeps block_state (download_loop world fuel n i fb).
Proof. revert i fb. induction fuel; intros; cbn [download_loop]; auto 30 with keeps. Qed.
Lemma stays_fork fb : keeps block_state (attempt_fork_resolution fb).
Proof. unfold attempt_fork_resolution. auto 30 with keeps. Qed.
#[local] Hint Resolve stays_download stays_fork : keeps.
Lemma moves_blocks fuel s : state s = BLOCK_SYNC →
  wp (block_sync world fuel) (λ _ s', state s' = BLOCK_SYNC ∨ state s' = SYNCED) s.
Proof.
  intros Hst. assert (Hin : block_state s) by (unfold within; set_solver).
  assert (Hb : ∀ s', block_state s' → state s' = BLOCK_SYNC) by (unfold within; set_solver).
  unfold block_sync. apply wp_bind, wp_get. case_bool_decide.
  { apply wp_bind, wp_to_state. rewrite Hst. cbn. right. done. }
  apply wp_bind. eapply wp_mono; [by apply stays_download|]. intros [[[fb|]|]|e] s1 H1; [|left; by apply Hb..].
  apply wp_bind. eapply wp_mono; [by apply stays_fork|]. intros [[]|e] s2 H2%Hb; [|by left].
  apply wp_bind, wp_modify, wp_bind, wp_to_state. cbn. rewrite H2. cbn. right. done.
Qed.

Definition moved (σ : SyncState) (s' : Sync) : Prop :=
  state s' = σ ∨ state s' ∈ TRANSITIONS σ ∨ (σ = IDLE ∧ state s' = SYNCED).
Lemma within_moved A σ s' : within A s' → (∀ τ, τ ∈ A → τ = σ ∨ τ ∈ TRANSITIONS σ ∨ (σ = IDLE ∧ τ = SYNCED)) → moved σ s'.
Proof. intros H HA. exact (HA _ H). Qed.
Lemma wp_turn fuel s : wp (turn world fuel) (λ _ s', moved (state s) s') s.
Proof.
  unfold turn. apply wp_bind, wp_get. destruct (state s) eqn:E.
  - apply wp_bind. eapply wp_mono; [apply moves_idle; unfold within; rewrite E; set_solver|].
    intros r s' H. assert (moved IDLE s') by (eapply within_moved; [exact H|set_solver]). by destruct r.
  - eapply wp_mono; [apply moves_headers; unfold within; rewrite E; set_solver|].
    intros r s' H. eapply within_moved; [exact H|set_solver].
  - eapply wp_mono; [by apply moves_blocks|]. intros r s' H; unfold moved; destruct H as [->| ->]; [by left|right; left; set_solver].
  - apply wp_bind. eapply wp_mono; [apply moves_tip; unfold within; rewrite E; set_solver|].
    intros r s' H. assert (moved SYNCED s') by (eapply within_moved; [exact H|set_solver]). by destruct r.
Qed.
Lemma wp_main_turn fuel s : wp (main_turn world fuel) (λ _ s', moved (state s) s') s.
Proof.
  pose proof (wp_turn fuel s) as H. unfold wp, main_turn in *. destruct (turn world fuel s) as [[o|e] s1]; [done|].
  change (wp (_ ← pause world; mret (Some tt)) (λ _ s', moved (state s) s') s1).
  apply wp_bind, wp_pause. intros s2 [= E _ _ _ _ _] _. apply wp_ret. unfold moved in *. by rewrite E.
Qed.
End Laws.

(** ** What an honest node serves *)

Section Honest.
Context `{C : Crypto} `{Y : SyncConfig}.

(** Blocks that follow [p] one after the other *)
Fixpoint follow (p : Block) (l : list Block) : Prop :=
  match l with
  | [] => True
  | b :: l => (index b = index p + 1 ∧ prev_hash b = block_hash p ∧ blk_timestamp p < blk_timestamp b) ∧ follow b l
  end.
Lemma chain_follow s l1 p l2 : chain_ok s → chain_list s = l1 ++ p :: l2 → follow p l2.
Proof.
  intros Hok. revert l1 p. induction l2 as [|b l2 IH]; intros l1 p Hl; [done|]. cbn [follow]. split.
  - assert (Hp : chain_list s !! length l1 = Some p) by (rewrite Hl; by apply list_lookup_middle).
    assert (Hb : chain_list s !! S (length l1) = Some b).
    { rewrite Hl, lookup_app_r by lia. by replace (S (length l1) - length l1)%nat with 1%nat by lia. }
    destruct (ck_links _ Hok _ _ _ Hp Hb). rewrite (ck_index _ Hok _ _ Hp), (ck_index _ Hok _ _ Hb). split_and!; [lia|done|done].
  - apply (IH (l1 ++ [p])). by rewrite Hl, <-app_assoc.
Qed.
Lemma follow_app p l1 l2 : follow p (l1 ++ l2) → follow p l1.
Proof. revert p. induction l1 as [|b l1 IH]; intros p; [done|]. cbn. intros [H1 H2]. split; [done|by eapply IH]. Qed.

(** A block whose signature verifies under the key the registry has for it *)
Definition signed_under (reg : gmap string string) (b : Block) : Prop :=
  index b = 0 ∨
  (0 < index b ∧ validator b ≠ EmptyString ∧ blk_signature b ≠ EmptyString ∧
   ∃ pk, reg !! validator b = Some pk ∧ verify_signature b pk = true).

Lemma not_empty s : s ≠ EmptyString → is_empty s = false.
Proof. by destruct s. Qed.
Lemma claimed_honest b : claimed_header (to_header_dict b) = Ok (header_obj b).
Proof.
  unfold claimed_header, header_obj. cbn. destruct (receipts_root b), (state_root b); reflexivity.
Qed.
Lemma verify_honest b pk : verify_header_signature (to_header_dict b) pk = verify_signature b pk.
Proof.
  unfold verify_header_signature. rewrite claimed_honest. cbn [mbind result_bind].
  change (jindex (to_header_dict b) "signature") with (@Ok JVal (JStr (hex (blk_signature b)))). cbn [mbind result_bind].
  by rewrite fromhex_val_hex.
Qed.
Lemma registered_honest reg b : signed_under reg b → check_registered reg (to_header_dict b) = accept.
Proof.
  intros Hs. unfold check_registered. change (as_Z _) with (@Ok Z (index b)).
  change (jget (to_header_dict b) "validator" (JStr EmptyString)) with (JStr (validator b)). cbn [mbind result_bind truthy].
  destruct Hs as [->|(Hi & Hv & _ & pk & Hpk & _)]; [by rewrite andb_false_r|].
  rewrite (not_empty _ Hv). cbn. rewrite (proj2 (Z.ltb_lt _ _) Hi). by rewrite Hpk.
Qed.
Lemma header_honest reg link b : signed_under reg b → link = accept → check_header reg link (to_header_dict b) = accept.
Proof.
  intros Hs ->. unfold check_header. rewrite !refuse_if_accept, and_then_accept. split; [done|]. split.
  - unfold not_int_ge. cbn. apply Z.ltb_ge. destruct Hs as [->|[]]; lia.
  - split; [done|]. by apply registered_honest.
Qed.
Lemma link_honest p b : index b = index p + 1 → prev_hash b = block_hash p → blk_timestamp p < blk_timestamp b →
  check_link (to_header_dict p) (to_header_dict b) = accept.
Proof.
  intros Hi Hp Ht. unfold check_link.
  change (jget (to_header_dict b) "prevHash" JNull) with (JStr (prev_hash b)).
  change (jget (to_header_dict p) "hash" JNull) with (JStr (block_hash p)).
  rewrite Hp, bool_decide_eq_true_2 by done. cbn [negb].
  change (as_Z (jget (to_header_dict b) "index" JNull)) with (@Ok Z (index b)).
  change (as_Z (jget (to_header_dict p) "index" JNull)) with (@Ok Z (index p)). cbn [mbind result_bind].
  rewrite Hi, Z.eqb_refl. cbn [negb refuse_if].
  change (py_lt _ _) with (@Ok bool (blk_timestamp b <? blk_timestamp p)). cbn [mbind result_bind].
  by rewrite (proj2 (Z.ltb_ge _ _)) by lia.
Qed.
Lemma rest_honest reg p l : follow p l → Forall (signed_under reg) l → check_rest reg (to_header_dict p) (to_header_dict <$> l) = accept.
Proof.
  revert p. induction l as [|b l IH]; intros p; [done|]. csimpl. intros [(Hi & Hp & Ht) Hl] [Hb Hs]%list.Forall_cons.
  apply and_then_accept. split; [|by apply IH]. apply header_honest; [done|]. by apply link_honest.
Qed.
Lemma signatures_honest reg todo l : Forall (λ hk, verify_header_signature hk.1 hk.2 = true) todo → Forall (signed_under reg) l →
  verify_header_signatures reg todo (to_header_dict <$> l) = accept.
Proof.
  intros Ht Hs. revert todo Ht. induction Hs as [|b l Hb Hl IH]; intros todo Ht; csimpl.
  - rewrite refuse_if_accept, negb_false_iff. split; [|done]. apply forallb_forall. by apply List.Forall_forall.
  - unfold header_key. change (int_val (jget (to_header_dict b) "index" (JInt 0))) with (Some (index b)).
    change (jget (to_header_dict b) "validator" (JStr EmptyString)) with (JStr (validator b)).
    change (jget (to_header_dict b) "signature" JNull) with (JStr (hex (blk_signature b))). cbn [truthy].
    destruct Hb as [Hb|(Hi & Hv & Hsig & pk & Hpk & Hok)].
    + rewrite bool_decide_eq_true_2 by (by rewrite Hb). cbn [mbind result_bind]. by apply IH.
    + rewrite bool_decide_eq_false_2 by (intros [=]; lia). rewrite (not_empty _ Hv), Hpk. cbn [negb].
      assert (is_empty (hex (blk_signature b)) = false) as -> by by destruct (blk_signature b).
      cbn [negb mbind result_bind]. apply IH. apply list.Forall_app. split; [done|]. constructor; [|done]. cbn. by rewrite verify_honest.
Qed.

(** The blocks of a range of heights are a stretch of the chain. *)
Lemma blocks_of_seq s a n : (a + n ≤ length (chain_list s))%nat →
  omap (get_block_by_index s) ((λ k, Z.of_nat a + Z.of_nat k) <$> seq 0 n) = take n (drop a (chain_list s)).
Proof.
  revert a. induction n as [|n IH]; intros a Ha; [done|]. cbn [seq]. rewrite <-seq_shift. csimpl.
  destruct (lookup_lt_is_Some_2 (chain_list s) a ltac:(lia)) as [b Hb].
  unfold get_block_by_index at 1. rewrite Z.add_0_r, Nat2Z.id, Hb.
  rewrite (proj2 (Z.leb_le _ _)), (proj2 (Z.ltb_lt _ _)) by lia. cbn [andb].
  rewrite (drop_S _ _ _ Hb). cbn [take]. f_equal. rewrite <-(IH (S a)) by lia. f_equal.
  rewrite <-list_fmap_compose. apply list_fmap_ext. intros i k _. cbn. lia.
Qed.
Lemma served_headers s start count : chain_ok s → 0 <= start →
  ∃ n, get_block_headers_for_sync s start count = to_header_dict <$> take n (drop (Z.to_nat start) (chain_list s)).
Proof.
  intros Hok Hs. unfold get_block_headers_for_sync, zrange. rewrite Z.max_r by done.
  assert (Hn : let n := Z.to_nat (Z.min (start + Z.min count SYNC_BATCH_SIZE) (height s + 1) - start) in
    n = 0%nat ∨ (Z.to_nat start + n ≤ length (chain_list s))%nat) by (pose proof (ck_height _ Hok); cbn zeta; lia).
  cbn zeta in Hn. revert Hn. generalize (Z.to_nat (Z.min (start + Z.min count SYNC_BATCH_SIZE) (height s + 1) - start)).
  intros n Hn. exists n. destruct Hn as [->|Hn]; [done|]. rewrite <-blocks_of_seq by done. rewrite Z2Nat.id by done.
  generalize ((λ k : nat, start + Z.of_nat k) <$> seq 0 n). intros l.
  induction l as [|i l IH]; [done|]. csimpl. destruct (get_block_by_index s i); csimpl; by rewrite IH.
Qed.
Lemma served_after s start count p : chain_ok s → get_block_by_index s (start - 1) = Some p →
  ∃ l, get_block_headers_for_sync s start count = to_header_dict <$> l ∧ follow p l ∧ l ⊆ chain_list s.
Proof.
  intros Hok Hp. unfold get_block_by_index in Hp. destruct (Z.leb_spec 0 (start - 1)); [|done].
  destruct (Z.ltb_spec (start - 1) (Z.of_nat (length (chain_list s)))); [|done]. cbn [andb] in Hp.
  destruct (served_headers s start count Hok ltac:(lia)) as [n ->].
  exists (take n (drop (Z.to_nat start) (chain_list s))). split; [done|]. split.
  - apply (follow_app _ _ (drop n (drop (Z.to_nat start) (chain_list s)))). rewrite take_drop.
    eapply (chain_follow s (take (Z.to_nat (start - 1)) (chain_list s))); [done|].
    replace (Z.to_nat start) with (S (Z.to_nat (start - 1))) by lia. by rewrite take_drop_middle.
  - intros b Hb. apply (subseteq_drop (Z.to_nat start)). by apply (subseteq_take n).
Qed.
End Honest.

(** ** A block with a bad signature *)

Section Stuck.
Context `{C : Crypto} `{Cfg : ChainConfig} `{Y : SyncConfig} (world : nat → Turn).

(** The registry when the answer of the first [await] is looked at *)
Definition registry_then (s : Sync) : gmap string string :=
  validator_registry (keys (t_gossip (world (clock s)) (chain s))).
Definition stuck (s s' : Sync) : Prop := state s' = BLOCK_SYNC ∧ header_queue s' = header_queue s.

Lemma wp_bad_block fb d b s : block_from_dict d = Ok b → state s = BLOCK_SYNC →
  (∀ pk, registry s !! validator b = Some pk → verify_block_signature (block_to_dict b) pk = false) →
  wp (take_block world fb d) (λ r s', r = Ok Leave ∧ stuck s s') s.
Proof.
  intros Hd Hst Hbad. unfold take_block, or_stop. unfold wp at 1.
  match goal with |- context [match ?m s with _ => _ end] => set (body := m) end.
  assert (Hb : wp body (λ r s', r = Ok Leave ∧ stuck s s') s).
  { unfold body. rewrite Hd. apply wp_bind, wp_lift, wp_bind.
    assert (Hleave : ∀ s1, core s1 = core s →
      wp (s ← get; _ ← record (sync_source s) "invalid_block"; _ ← to_state IDLE; mret Leave)
         (λ r s', r = Ok Leave ∧ stuck s s') s1).
    { intros s1 [= E1 _ E2 _ _ _]. apply wp_bind, wp_get, wp_bind, wp_modify, wp_bind, wp_to_state.
      rewrite bool_decide_eq_false_2 by (cbn; rewrite E1, Hst; set_solver). split; [done|]. split; [cbn; congruence|done]. }
    unfold signature_ok. apply wp_bind, wp_get. destruct (registry s !! validator b) as [pk|] eqn:Er.
    - apply wp_bind, wp_pause. intros s1 Hc _. apply wp_ret. rewrite (Hbad pk) by done. by apply Hleave.
    - apply wp_ret. by apply Hleave. }
  unfold wp in Hb. by destruct (body s) as [[t|e] s'] eqn:E; destruct Hb.
Qed.
Lemma wp_bad_chunk fb p d rest b s : state s = BLOCK_SYNC →
  t_reply (world (clock s)) = Replied (d :: rest) → block_from_dict d = Ok b →
  (∀ pk, registry_then s !! validator b = Some pk → verify_block_signature (block_to_dict b) pk = false) →
  wp (take_chunk world fb p) (λ r s', r = Ok None ∧ stuck s s') s.
Proof.
  intros Hst Hr Hd Hbad. unfold take_chunk. apply wp_bind. unfold await, wp at 1. rewrite Hr.
  apply wp_bind. cbn [take_blocks]. apply wp_bind. eapply wp_mono; [by apply (wp_bad_block _ _ b)|].
  by intros r s' [-> H].
Qed.
Lemma wp_bad_sync fuel d rest b s : state s = BLOCK_SYNC → header_queue s ≠ [] → 1 <= SYNC_BLOCK_BATCH → running s = true →
  get_sync_peers s ≠ [] → t_reply (world (clock s)) = Replied (d :: rest) → block_from_dict d = Ok b →
  (∀ pk, registry_then s !! validator b = Some pk → verify_block_signature (block_to_dict b) pk = false) →
  wp (block_sync world (S fuel)) (λ r s', r = Ok (Some tt) ∧ stuck s s') s.
Proof.
  intros Hst Hq Hbatch Hrun Hp Hr Hd Hbad. unfold block_sync. apply wp_bind, wp_get.
  rewrite bool_decide_eq_false_2 by done. apply wp_bind. cbn [download_loop]. apply wp_bind, wp_get.
  assert (Hn : 0 < Z.of_nat (length (chunks (header_queue s)))).
  { unfold chunks. destruct (header_queue s) as [|h q]; [done|]. csimpl. lia. }
  rewrite (proj2 (Z.ltb_lt _ _) Hn), Hrun. cbn [andb negb].
  assert (Hmax : 1 <= SYNC_MAX_PARALLEL).
  { unfold get_sync_peers in Hp. destruct (Z.to_nat SYNC_MAX_PARALLEL) eqn:E; [done|lia]. }
  destruct (get_sync_peers s) as [|p ps]; [done|].
  destruct (Z.to_nat (Z.min (Z.min (Z.of_nat (length (p :: ps))) SYNC_MAX_PARALLEL) (Z.of_nat (length (chunks (header_queue s))) - 0)))
    as [|k] eqn:Ek; [cbn [length] in Ek; lia|].
  cbn [take take_batch]. apply wp_bind, wp_bind. eapply wp_mono; [by apply (wp_bad_chunk _ _ d rest b)|].
  by intros r s' [-> H].
Qed.
End Stuck.

(** ** The claimed hash *)

Lemma jget_dset_ne d k k' v dv : k' ≠ k → jget (dset d k v) k' dv = jget d k' dv.
Proof. intros H. unfold jget, dget_or. by rewrite dget_dset_ne. Qed.
Lemma jindex_dset_ne d k k' v : k' ≠ k → jindex (dset d k v) k' = jindex d k'.
Proof. intros H. unfold jindex. by rewrite dget_dset_ne. Qed.
(** The [hash] field of a header is neither signed nor compared with the hash
    of the header: any value passes the signature check in its place. *)
Lemma header_hash_unsigned `{C : Crypto} h x pk : verify_header_signature (dset h "hash" x) pk = verify_header_signature h pk.
Proof.
  unfold verify_header_signature, claimed_header. by rewrite !jindex_dset_ne, !jget_dset_ne by done.
Qed.

(** ** Properties *)


(** One turn of the main loop moves the state along the table of
    transitions or leaves it, with one exception: from idle it may go straight
    to synced, which the table does not list. *)
Lemma sync_moves `{C : Crypto} `{Cfg : ChainConfig} `{Y : SyncConfig} (world : nat → Turn) (fuel : nat) (s s' : Sync)
  (r : result (option unit)) (Hrun : main_turn world fuel s = (r, s')) :
  state s' = state s ∨ state s' ∈ TRANSITIONS (state s) ∨ (state s = IDLE ∧ state s' = SYNCED).
Proof.
  exact (wp_run _ _ _ _ _ Hrun (wp_main_turn world fuel s)).
Qed.

(** An honest node is believed: the headers it serves from a sound chain,
    asked for from the height after a block both nodes have, pass the
    structural check and the signature check of a node whose registry has the
    keys of the validators that signed them. *)
Lemma honest_headers_accepted `{C : Crypto} `{Y : SyncConfig} (s : Chain) (reg : gmap string string) (start count : Z) (p : Block)
  (Hs : chain_ok s) (Hreg : Forall (signed_under reg) (chain_list s)) (Hp : get_block_by_index s (start - 1) = Some p) :
  let headers := get_block_headers_for_sync s start count in
  validate_header_chain reg headers (JStr (block_hash p)) = accept ∧ verify_header_signatures reg [] headers = accept.
Proof.
  destruct (served_after s start count p Hs Hp) as (l & Hl & Hf & Hsub). cbn zeta. rewrite Hl.
  assert (Hsigned : Forall (signed_under reg) l) by (apply Forall_intro; intros b Hb; exact (Forall_in _ _ _ Hreg (Hsub _ Hb))).
  split; [|by apply signatures_honest]. destruct l as [|b l]; [done|]. csimpl.
  apply list.Forall_cons in Hsigned as [Hb Hrest]. destruct Hf as [(Hi & Hph & Ht) Hf].
  apply and_then_accept. split; [|by apply rest_honest]. apply header_honest; [done|].
  unfold check_start. change (jget (to_header_dict b) "prevHash" JNull) with (JStr (prev_hash b)).
  rewrite Hph, bool_decide_eq_true_2 by done. by rewrite andb_false_r.
Qed.

(** A peer can stop a node's synchronisation: a block whose signature does
    not verify makes [block_sync] ask for the idle state, which the table of
    transitions refuses, so the manager keeps its state and its whole queue,
    and the next turn downloads the same headers' blocks again. *)
Lemma bad_signature_keeps_syncing `{C : Crypto} `{Cfg : ChainConfig} `{Y : SyncConfig} (world : nat → Turn) (fuel : nat)
  (s : Sync) (d : dict string JVal) (rest : list (dict string JVal)) (b : Block)
  (Hst : state s = BLOCK_SYNC) (Hq : header_queue s ≠ []) (Hbatch : 1 <= SYNC_BLOCK_BATCH) (Hrun : running s = true)
  (Hp : get_sync_peers s ≠ []) (Hr : t_reply (world (clock s)) = Replied (d :: rest)) (Hd : block_from_dict d = Ok b)
  (Hbad : ∀ pk, registry_then world s !! validator b = Some pk → verify_block_signature (block_to_dict b) pk = false) :
  let r := main_turn world (S fuel) s in
  r.1 = Ok (Some tt) ∧ state r.2 = BLOCK_SYNC ∧ header_queue r.2 = header_queue s.
Proof.
  cbn zeta. unfold main_turn, turn, get, mbind, M_bind. rewrite Hst.
  pose proof (wp_bad_sync world fuel d rest b s Hst Hq Hbatch Hrun Hp Hr Hd Hbad) as H. unfold wp in H.
  by destruct (block_sync world (S fuel) s) as [r s'], H as [-> [H1 H2]].
Qed.

(** ** Concrete runs *)

Module SyncRun.
#[local] Existing Instance Toy.crypto.
#[local] Existing Instance legacy_config.
#[export] Instance sync_config : SyncConfig :=
  {| SYNC_BATCH_SIZE := 100; SYNC_BLOCK_BATCH := 50; SYNC_THRESHOLD := 2; SYNC_MAX_PARALLEL := 2; SYNC_MAX_RETRIES := 3;
     SYNC_CHECKPOINT_INTERVAL := 100; SYNC_CROSS_VERIFY_PEERS := 2; score := λ _, 100 |}.
Definition peer : dict string SyncPeer := [("peer", mkSyncPeer "peer" 1 true)].
(** Every answer is [l]. *)
Definition answering (l : list (dict string JVal)) (k : nat) : Turn := mkTurn (Replied l) 1000 peer [] id false.
(** Two blocks, of which one node has the first *)
Definition first : Block := mkBlock 0 zeros64 [] Sample.addr 900 EmptyString 0 EmptyString EmptyString.
Definition second : Block := Sample.sealed (mkBlock 1 (block_hash first) [] Sample.addr 1000 EmptyString 0 EmptyString EmptyString) "k".
Definition ahead : Chain := empty_Chain <| height := 1 |> <| chain_list := [first; second] |> <| latest_block := Some second |>.
Definition known : gmap string string := {[Sample.addr := "k"]}.
Definition behind : Chain := empty_Chain <| height := 0 |> <| chain_list := [first] |> <| latest_block := Some first |>
  <| keys := keys empty_Chain <| validator_registry := known |> |>.
Abbreviation served := (get_block_headers_for_sync ahead 1 100).
Abbreviation start := (mkSync behind peer HEADER_SYNC 1 "peer" [] (-1) true EmptyString [] [] 0 1000).
Abbreviation after := (main_turn (answering served) 10 start).
Definition signs (reg : gmap string string) (b : Block) : bool :=
  (index b =? 0) || ((0 <? index b) && negb (is_empty (validator b)) && negb (is_empty (blk_signature b)) &&
    match reg !! validator b with Some pk => verify_signature b pk | None => false end).
Lemma signs_ok reg b : signs reg b = true → signed_under reg b.
Proof.
  unfold signs, signed_under. destruct (Z.eqb_spec (index b) 0) as [|]; [by left|]. cbn [orb].
  destruct (Z.ltb_spec 0 (index b)); [|done]. cbn [andb]. intros Hb. right. split; [done|].
  destruct (validator b) as [|c v]; [done|]. destruct (blk_signature b) as [|c' g]; [done|]. cbn [is_empty negb andb] in Hb.
  split_and!; [done|done|]. destruct (reg !! String c v) as [pk|]; [by exists pk|done].
Qed.
Lemma keys_known : Forall (signed_under known) (chain_list ahead).
Proof.
  apply List.Forall_forall. intros b Hb. apply signs_ok. revert b Hb. apply forallb_forall. vm_compute. reflexivity.
Qed.
Lemma chain_sound : chain_ok ahead.
Proof.
  split; try done.
  - by intros [|[|i]] b [=<-].
  - intros [|[|i]] p b [=<-] [=<-]. split; [reflexivity|done].
  - constructor.
Qed.
Lemma first_there : get_block_by_index ahead (1 - 1) = Some first.
Proof. reflexivity. Qed.
Lemma batch_size : 1 <= SYNC_BLOCK_BATCH.
Proof. vm_compute. discriminate. Qed.
End SyncRun.

#[local] Existing Instance Toy.crypto.
#[local] Existing Instance legacy_config.
#[local] Existing Instance SyncRun.sync_config.

