(* ===== verification/P2PLaws.v ===== *)
(** * Laws of peer connections

    What a node may conclude from its connections: an authenticated peer
    answered a challenge of this node with the key it claims, the messages that
    need authentication are dispatched for authenticated or first-version peers
    only, a handshake between two honest nodes completes on both sides and
    gives them one session key.  And what it may not conclude. *)
From Stdlib Require Import Floats.SpecFloat.
From S2P Require Import Prelude PyStr Json JsonText Config Crypto Wallet Transaction Sdk WalletFile Mlkem Limits Codec P2P.
Open Scope Z_scope.

Abbreviation outbox := (list (nat * (string * message))).
(** The challenge [c] was sent to peer [i]. *)
Definition challenged (l : outbox) (i : nat) (c : string) : Prop :=
  ∃ w mt data, (i, (w, (mt, data))) ∈ l ∧
    ((mt = "hello_auth" ∧ jget data "challenge" JNull = JStr (hex c)) ∨
     (mt = "auth_response" ∧ jget data "counter_challenge" JNull = JStr (hex c))).
Lemma challenged_app l l' i c : challenged l i c → challenged (l ++ l') i c.
Proof. intros (w & mt & data & H & ?). exists w, mt, data. split; [set_solver|done]. Qed.

(** The peer may send what needs authentication. *)
Definition exempt (p : Peer) : bool := authenticated p || (protocol_version p <? 2).
(** Something that needs authentication was dispatched for peer [j]. *)
Definition restricted (s : P2P) (j : nat) : Prop := ∃ m, (j, m) ∈ dispatched s ∧ m.1 ∈ AUTH_REQUIRED_MSGS.

Section Invariant.
Context `{C : Crypto} `{K : Kem} `{G : Cipher} `{W : Wire} `{V : P2PEnv} (self : Self).
(** The peers that are served, those that have not finished their first
    message, and those that have not begun it *)
Context (served greeting untouched : nat → Prop).

Record good (s : P2P) (j : nat) (p : Peer) : Prop := mkGood {
  g_proved : authenticated p = true → remote_address p = derive_address (remote_pubkey p) ∧ challenge p = EmptyString ∧
    ∃ c sig, challenged (sent s) j c ∧ MLDSA_verify (remote_pubkey p) (build_auth_message c (remote_address p)) sig = true;
  g_pending : served j → challenge p ≠ EmptyString → challenged (sent s) j (challenge p);
  g_gate : restricted s j → exempt p = true;
  g_greeting : greeting j → authenticated p = false ∧ ¬ restricted s j;
  g_untouched : untouched j → protocol_version p = 1 }.
Record Inv (s : P2P) : Prop := mkInv {
  inv_peers : ∀ j p, objs s !! j = Some p → good s j p;
  inv_from : ∀ jm, jm ∈ dispatched s → is_Some (objs s !! jm.1);
  inv_served : ∀ j, served j → is_Some (objs s !! j) }.

Lemma good_mono s s' j p l : sent s' = sent s ++ l → dispatched s' = dispatched s → good s j p → good s' j p.
Proof.
  intros Hs Hd [H1 H2 H3 H4 H5]. assert (Hr : restricted s' j = restricted s j) by (unfold restricted; by rewrite Hd).
  split; rewrite ?Hr; auto.
  - intros Ha. destruct (H1 Ha) as (E1 & E2 & c & sig & Hc & Hv). split_and!; [done|done|]. exists c, sig. split; [|done].
    rewrite Hs. by apply challenged_app.
  - intros Hj Hp. rewrite Hs. by apply challenged_app, H2.
Qed.
(** One peer changes, messages are sent. *)
Lemma Inv_step s s' i f l : Inv s → objs s' = alter f i (objs s) → sent s' = sent s ++ l → dispatched s' = dispatched s →
  (∀ p, objs s !! i = Some p → good s i p → good s' i (f p)) → Inv s'.
Proof.
  intros [H1 H2 H3] Ho Hs Hd Hf. split.
  - intros j p. rewrite Ho. destruct (decide (j = i)) as [->|Hne].
    + rewrite lookup_alter_eq. destruct (objs s !! i) as [q|] eqn:E; [|done]. intros [= <-]. by apply Hf, H1.
    + rewrite lookup_alter_ne by done. intros Hp. by eapply good_mono, H1.
  - intros jm. rewrite Hd, Ho. intros Hin. destruct (H2 jm Hin) as [q Hq]. destruct (decide (jm.1 = i)) as [<-|].
    + by rewrite lookup_alter_eq, Hq. + by rewrite lookup_alter_ne, Hq.
  - intros j Hj. rewrite Ho. destruct (H3 j Hj) as [q Hq]. destruct (decide (j = i)) as [<-|].
    + by rewrite lookup_alter_eq, Hq. + by rewrite lookup_alter_ne, Hq.
Qed.

(** *** The steps of the handlers *)

Definition same_role (f : Peer → Peer) : Prop := ∀ p, authenticated (f p) = authenticated p ∧ challenge (f p) = challenge p ∧
  remote_pubkey (f p) = remote_pubkey p ∧ remote_address (f p) = remote_address p ∧ protocol_version (f p) = protocol_version p.
Lemma keeps_update i f : (∀ s p, objs s !! i = Some p → good s i p → good s i (f p)) → keeps Inv (update i f).
Proof.
  intros Hf s Hs. apply wp_modify. apply (Inv_step s _ i f []); [done|done|by rewrite app_nil_r|done|].
  intros p Hp Hg. apply (good_mono s _ _ _ []); [by rewrite app_nil_r|done|by apply Hf].
Qed.
Lemma keeps_same i f : same_role f → keeps Inv (update i f).
Proof.
  intros Hf. apply keeps_update. intros s p _ [H1 H2 H3 H4 H5]. destruct (Hf p) as (E1 & E2 & E3 & E4 & E5).
  assert (E : exempt (f p) = exempt p) by (unfold exempt; by rewrite E1, E5). split; by rewrite ?E, ?E1, ?E2, ?E3, ?E4, ?E5.
Qed.
Lemma keeps_spend i : keeps Inv (spend i).
Proof. apply keeps_update. intros s p _ [H1 H2 H3 H4 H5]. split; try done. intros Ha. cbn in *. naive_solver. Qed.
Lemma keeps_the i : keeps Inv (the i).
Proof. unfold the. auto with keeps. Qed.
Lemma keeps_send i mt data : keeps Inv (send i mt data).
Proof.
  apply keeps_bind; [apply keeps_the|]. intros p s Hs. apply wp_modify. eapply (Inv_step s _ i id); [done|..]; try done.
  - cbn. symmetry. apply alter_id. done.
  - intros q Hq Hg. by eapply good_mono.
Qed.
Lemma keeps_aside f : (∀ s, objs (f s) = objs s ∧ sent (f s) = sent s ∧ dispatched (f s) = dispatched s) → keeps Inv (modify f).
Proof.
  intros Hf s Hs. apply wp_modify. destruct (Hf s) as (E1 & E2 & E3). apply (Inv_step s _ O id []); [done|..].
  - rewrite E1. symmetry. by apply alter_id.
  - by rewrite app_nil_r.
  - done.
  - intros p _ Hg. apply (good_mono s _ _ _ []); [by rewrite app_nil_r|done|done].
Qed.
Lemma keeps_signed msg k : (∀ sig, keeps Inv (k sig)) → keeps Inv (signed self msg k).
Proof. intros Hk. unfold signed. destruct (MLDSA_sign _ _) as [|[]]; auto with keeps. Qed.
Lemma keeps_require b k : keeps Inv k → keeps Inv (require b k).
Proof. destruct b; cbn; auto with keeps. Qed.
Lemma keeps_demand {A} (o : option A) k : (∀ a, keeps Inv (k a)) → keeps Inv (demand o k).
Proof. destruct o; cbn; auto with keeps. Qed.

#[local] Hint Resolve keeps_the keeps_send keeps_spend : keeps.
#[local] Hint Extern 1 (keeps Inv (modify _)) => (apply keeps_aside; done) : keeps.
#[local] Hint Extern 2 (keeps Inv (update _ _)) => (apply keeps_same; by intros ?) : keeps.
#[local] Hint Extern 1 (keeps Inv (require _ _)) => apply keeps_require : keeps.
#[local] Hint Extern 1 (keeps Inv (demand _ _)) => (apply keeps_demand; intros ?) : keeps.
#[local] Hint Extern 1 (keeps Inv (signed _ _ _)) => (apply keeps_signed; intros ?) : keeps.

Lemma keeps_record now p e : keeps Inv (record now p e).
Proof. unfold record. auto 10 with keeps. Qed.
#[local] Hint Resolve keeps_record : keeps.
Lemma keeps_report t i : keeps Inv (report t i).
Proof. unfold report. auto 10 with keeps. Qed.
Lemma keeps_leave i key : keeps Inv (leave i key).
Proof. unfold leave. auto 10 with keeps. Qed.
Lemma keeps_dedup i : keeps Inv (dedup_connection self i).
Proof. unfold dedup_connection. auto 20 with keeps. Qed.
Lemma keeps_channel coins i : keeps Inv (initiate_encrypted_channel self coins i).
Proof. unfold initiate_encrypted_channel. auto 20 with keeps. Qed.
Lemma same_store data : same_role (store_encryption_pk data).
Proof. intros p. unfold store_encryption_pk. by destruct (resolve_encryption_pk _). Qed.
Lemma same_node data : same_role (store_node_id data).
Proof. intros p. unfold store_node_id. by destruct (jget data _ _). Qed.
Lemma same_status : same_role (check_validator_status self).
Proof. intros p. unfold check_validator_status. by destruct (is_empty _). Qed.
Lemma keeps_session_key i data : keeps Inv (handle_session_key self i data).
Proof.
  unfold handle_session_key. pose proof (keeps_same i _ (same_store data)). auto 20 with keeps.
Qed.
#[local] Hint Resolve keeps_report keeps_leave keeps_dedup keeps_channel keeps_session_key : keeps.
Lemma keeps_settle_response coins i data : keeps Inv (settle_response self coins i data).
Proof. unfold settle_response. pose proof (keeps_same i _ same_status). auto 20 with keeps. Qed.
Lemma keeps_settle_confirm i : keeps Inv (settle_confirm self i).
Proof.
  unfold settle_confirm. apply keeps_bind; [|auto 10 with keeps].
  apply keeps_same. intros p. by destruct (same_status (p <| wire_format := negotiate (protocol_version p) (protocol_version p)
    preferred_wire_format (pending_wire_format p) |>)).
Qed.
Lemma keeps_auth_rate now h : keeps Inv (check_auth_rate now h).
Proof. unfold check_auth_rate. auto 20 with keeps. Qed.
Lemma keeps_rate_limit now p mt : keeps Inv (check_rate_limit now p mt).
Proof. unfold check_rate_limit. auto 20 with keeps. Qed.
Lemma keeps_disconnect now p : keeps Inv (should_disconnect_rate now p).
Proof. unfold should_disconnect_rate. auto 20 with keeps. Qed.
Lemma keeps_peer_key i key temp v : keeps Inv (update_peer_key i key temp v).
Proof. unfold update_peer_key. auto 20 with keeps. Qed.
Lemma keeps_cleanup now : keeps Inv (rate_cleanup now).
Proof. unfold rate_cleanup. auto 20 with keeps. Qed.
#[local] Hint Resolve keeps_settle_response keeps_settle_confirm keeps_auth_rate keeps_rate_limit keeps_disconnect
  keeps_peer_key keeps_report : keeps.

(** *** What makes a peer authenticated *)

Lemma wp_the i s Q : (∀ p, objs s !! i = Some p → Q (Ok p) s) → (objs s !! i = None → Q (Raise KeyError) s) → wp (the i) Q s.
Proof. intros H1 H2. apply wp_bind, wp_get. destruct (objs s !! i) as [p|] eqn:E; [by apply H1|by apply H2]. Qed.

Lemma wp_send i mt data s Q : (∀ p, objs s !! i = Some p →
    Q (Ok tt) (s <| sent ::= λ l, l ++ [(i, (wire_format p, (mt, data)))] |>)) →
  (objs s !! i = None → Q (Raise KeyError) s) → wp (send i mt data) Q s.
Proof. intros H1 H2. unfold send. by apply wp_bind, wp_the. Qed.
(** The peer answered the challenge [c], which was sent to it. *)
Lemma good_authenticated s i c sig q : challenged (sent s) i c → ¬ greeting i → ¬ untouched i →
  MLDSA_verify (remote_pubkey q) (build_auth_message c (remote_address q)) sig = true →
  authenticated q = true → remote_address q = derive_address (remote_pubkey q) → challenge q = EmptyString → good s i q.
Proof.
  intros Hc Hg Hu Hv Ha Had Hch. split; [|by rewrite Hch| |done|done].
  - intros _. split_and!; [done|done|]. by exists c, sig.
  - intros _. unfold exempt. by rewrite Ha.
Qed.

(** An authenticated peer may say which version it speaks. *)
Definition but_version (f : Peer → Peer) : Prop := ∀ p, authenticated (f p) = authenticated p ∧ challenge (f p) = challenge p ∧
  remote_pubkey (f p) = remote_pubkey p ∧ remote_address (f p) = remote_address p.
Lemma wp_version i f s : Inv s → ¬ untouched i → but_version f → (∀ p, objs s !! i = Some p → authenticated p = true) →
  wp (update i f) (λ _ s', Inv s') s.
Proof.
  intros Hs Hu Hf Ha. apply wp_modify. apply (Inv_step s _ i f []); [done|done|by rewrite app_nil_r|done|].
  intros p Hp Hg. apply (good_mono s _ _ _ []); [by rewrite app_nil_r|done|]. destruct Hg as [H1 H2 H3 H4 H5].
  destruct (Hf p) as (E1 & E2 & E3 & E4). split; rewrite ?E1, ?E2, ?E3, ?E4; auto; [|done].
  intros _. unfold exempt. by rewrite E1, Ha.
Qed.
#[local] Hint Extern 2 (wp _ _ _) => (apply keeps_report || apply keeps_spend) : keeps.
Lemma keeps_spent i : keeps Inv (spent i).
Proof. unfold spent. auto with keeps. Qed.

Lemma keeps_auth_response t coins i data : served i → ¬ greeting i → ¬ untouched i → keeps Inv (handle_auth_response self t coins i data).
Proof.
  intros Hi Hg Hu s Hs. unfold handle_auth_response. apply wp_bind, wp_the; [|done]. intros p Hp.
  destruct (is_empty (challenge p)) eqn:He; [done|]. cbn [require negb].
  assert (Hc : challenged (sent s) i (challenge p)).
  { apply (inv_peers _ Hs i p Hp); [done|]. by intros E; rewrite E in He. }
  destruct (flt _ _); [by apply keeps_spent|]. destruct (resolve_peer_pubkey _) as [pk|]; [|by apply keeps_spent].
  destruct (hex_bytes _) as [sig|]; [|by apply keeps_spent].
  apply wp_bind, wp_modify. pose proof (keeps_spend i s Hs) as H1. unfold wp, spend, update, modify in H1.
  set (s1 := set objs _ s) in *. assert (Hp1 : objs s1 !! i = Some (p <| challenge := EmptyString |>)).
  { cbn. by rewrite lookup_alter_eq, Hp. }
  destruct (MLDSA_verify _ _ _) eqn:Hv; [|done]. cbn [require]. unfold demand. destruct (hex_bytes _) as [counter|]; [|done].
  destruct (str_len counter =? CHALLENGE_LEN); [|done]. cbn [require]. unfold signed.
  destruct (MLDSA_sign _ _) as [csig|[]]; try done.
  apply wp_bind, wp_send; [|done]. intros p1 Hp1'. apply wp_bind, wp_modify. set (s3 := set objs _ _).
  assert (H3 : Inv s3).
  { eapply (Inv_step s1 s3 i _ [_]); [done|reflexivity|reflexivity|done|]. intros q Hq _.
    eapply good_authenticated; [|done|done|exact Hv|..]; cbn; [|done..|]; [by apply challenged_app|].
    rewrite Hp1 in Hq. by injection Hq as <-. }
  apply wp_bind, wp_lift. destruct (as_Z _) as [pv|e]; [|done].
  apply wp_bind. eapply wp_mono; [apply wp_version; [done|done| |]|].
  - intros q. unfold store_encryption_pk, store_node_id. by destruct (resolve_encryption_pk _), (valid_port _), (jget data _ _).
  - intros q. cbn. rewrite lookup_alter_eq. destruct (alter _ _ _ !! i) as [q'|]; [|done]. by intros [= <-].
  - intros [u|e] s' Hs'; [by apply keeps_settle_response|done].
Qed.
Lemma keeps_auth_confirm t i data : served i → ¬ greeting i → ¬ untouched i → keeps Inv (handle_auth_confirm self t i data).
Proof.
  intros Hi Hg Hu s Hs. unfold handle_auth_confirm. apply wp_bind, wp_the; [|done]. intros p Hp.
  pose proof (inv_peers _ Hs i p Hp) as Hgood.
  destruct (is_empty (challenge p)) eqn:He; [done|]. cbn [require negb].
  assert (Hne : challenge p ≠ EmptyString) by (intros E; by rewrite E in He).
  pose proof (g_pending _ _ _ Hgood Hi Hne) as Hc.
  destruct (is_empty (remote_pubkey p)); [by apply keeps_spent|]. destruct (flt _ _); [by apply keeps_spent|].
  destruct (hex_bytes _) as [sig|]; [|by apply keeps_spent].
  apply wp_bind, wp_modify. pose proof (keeps_spend i s Hs) as H1. unfold wp, spend, update, modify in H1.
  set (s1 := set objs _ s) in *. assert (Hp1 : objs s1 !! i = Some (p <| challenge := EmptyString |>)).
  { cbn. by rewrite lookup_alter_eq, Hp. }
  destruct (MLDSA_verify _ _ _) eqn:Hv; cbn [negb]; apply wp_bind, wp_modify.
  - apply keeps_settle_confirm. eapply (Inv_step s1 _ i _ []); [done|reflexivity|by rewrite app_nil_r|done|]. intros q Hq _.
    rewrite Hp1 in Hq. injection Hq as <-. by eapply good_authenticated.
  - eapply (Inv_step s1 _ i _ []); [done|reflexivity|by rewrite app_nil_r|done|]. intros q Hq [G1 G2 G3 G4 G5].
    rewrite Hp1 in Hq. injection Hq as <-. split; try done. cbn. intros Ha. destruct (g_proved _ _ _ Hgood Ha) as (_ & E & _). done.
Qed.

(** *** The first message *)

(** A greeting peer has nothing to lose. *)
Lemma good_greeting s s' i p q : greeting i → ¬ untouched i → good s i p → authenticated q = authenticated p →
  dispatched s' = dispatched s → (served i → challenge q ≠ EmptyString → challenged (sent s') i (challenge q)) → good s' i q.
Proof.
  intros Hg Hu Hp Ha Hd Hc. destruct (g_greeting _ _ _ Hp Hg) as [Hn Hr].
  assert (E : restricted s' i = restricted s i) by (unfold restricted; by rewrite Hd).
  split; rewrite ?E, ?Ha; try done. by rewrite Hn.
Qed.
Lemma keeps_hello_auth_inbound t nonce i data : greeting i → ¬ untouched i →
  keeps Inv (handle_hello_auth_inbound self t nonce i data).
Proof.
  intros Hg Hu. unfold handle_hello_auth_inbound. repeat first [apply keeps_require|apply keeps_demand; intros ?].
  apply keeps_bind.
  { intros s Hs. apply wp_modify. eapply (Inv_step s _ i _ []); [done|reflexivity|by rewrite app_nil_r|done|]. intros q Hq Hgood.
    destruct (same_node data (store_encryption_pk data q)) as (A1 & A2 & _), (same_store data q) as (B1 & B2 & _).
    eapply good_greeting; [done|done|exact Hgood|cbn; by rewrite A1, B1|done|]. cbn. rewrite A2, B2. apply Hgood. }
  intros _. apply keeps_signed. intros csig s Hs. apply wp_bind, wp_modify. set (s1 := set objs _ s). apply wp_bind, wp_send.
  - intros q _. apply wp_ret. eapply (Inv_step s _ i _ [_]); [done|reflexivity|reflexivity|done|]. intros p Hp Hgood.
    eapply good_greeting; [done|done|exact Hgood|done|done|]. intros _ _. cbn. do 3 eexists.
    split; [apply elem_of_app; right; by apply list_elem_of_singleton|]. right. by split.
  - cbn. rewrite lookup_alter_eq. intros Hn. eapply (Inv_step s _ i _ []); [done|reflexivity|by rewrite app_nil_r|done|].
    intros p Hp. by rewrite Hp in Hn.
Qed.

(** *** Dispatch *)

Lemma wp_dispatch i m s : Inv s → is_Some (objs s !! i) →
  (m.1 ∈ AUTH_REQUIRED_MSGS → ¬ greeting i ∧ ∀ p, objs s !! i = Some p → exempt p = true) → wp (dispatch i m) (λ _ s', Inv s') s.
Proof.
  intros [H1 H2 H3] Hi Hm. apply wp_modify. set (s' := set dispatched _ s).
  assert (Hr : ∀ j, restricted s' j → restricted s j ∨ (j = i ∧ m.1 ∈ AUTH_REQUIRED_MSGS)).
  { intros j (m' & [Hin|Hin%list_elem_of_singleton]%elem_of_app & Ha); [left; by exists m'|]. injection Hin as -> ->. by right. }
  split.
  - intros j p Hp. destruct (H1 j p Hp) as [G1 G2 G3 G4 G5]. split; [done|done| | |done].
    + intros [Hj|[-> Ha]]%Hr; [by apply G3|]. by apply Hm.
    + intros Hg. destruct (G4 Hg) as [Hn Hnr]. split; [done|]. intros [Hj|[-> Ha]]%Hr; [done|]. by destruct (Hm Ha).
  - intros jm [Hin|Hin%list_elem_of_singleton]%elem_of_app; [by apply H2|]. by subst jm.
  - done.
Qed.
Lemma keeps_dispatch i m : served i → m.1 ∉ AUTH_REQUIRED_MSGS → keeps Inv (dispatch i m).
Proof. intros Hi Hm s Hs. apply wp_dispatch; [done|by apply (inv_served _ Hs)|done]. Qed.
Lemma keeps_gated i m : served i → ¬ greeting i → keeps Inv (gated i m).
Proof.
  intros Hi Hg s Hs. unfold gated. apply wp_bind, wp_the; [|done]. intros p Hp. apply wp_bind, wp_get.
  destruct (is_banned _ _); [done|]. apply wp_bind, wp_when; [|done]. intros Hgate.
  eapply wp_mono; [apply wp_dispatch; [done|done|]|by intros [] ?].
  intros Hm. split; [done|]. intros q Hq. rewrite Hp in Hq. injection Hq as <-. unfold check_auth_gate in Hgate. unfold exempt.
  rewrite bool_decide_eq_true_2 in Hgate by done. by rewrite orb_comm.
Qed.
Lemma keeps_answer t i h : keeps Inv h → keeps Inv (answer_or_leave t i h).
Proof. intros Hh. unfold answer_or_leave. auto 10 with keeps. Qed.
Lemma keeps_next_message t coins i m : served i → ¬ greeting i → ¬ untouched i → keeps Inv (next_message self t coins i m).
Proof.
  intros Hi Hg Hu. unfold next_message.
  apply keeps_bind; [apply keeps_the|]. intros p. apply keeps_bind; [apply keeps_rate_limit|]. intros allowed.
  destruct allowed; cbn [negb]; [|apply keeps_bind; [apply keeps_disconnect|auto with keeps]].
  destruct (if bool_decide _ then _ else _) as [[mt data]|]; [|auto with keeps].
  apply keeps_bind.
  { apply keeps_when. destruct (int_val _); [apply keeps_when|]; auto with keeps. }
  intros _. pose proof (keeps_answer t i _ (keeps_auth_confirm t i data Hi Hg Hu)).
  pose proof (keeps_answer t i _ (keeps_auth_response t coins i data Hi Hg Hu)). pose proof (keeps_gated i (mt, data) Hi Hg).
  auto 10 with keeps.
Qed.

(** *** The first message *)

Lemma keeps_greet i f : greeting i → ¬ untouched i → (∀ p, authenticated (f p) = authenticated p ∧ challenge (f p) = challenge p) →
  keeps Inv (update i f).
Proof.
  intros Hg Hu Hf s Hs. apply wp_modify. eapply (Inv_step s _ i _ []); [done|reflexivity|by rewrite app_nil_r|done|]. intros q Hq Hgood.
  destruct (Hf q) as [A1 A2]. eapply good_greeting; [done|done|exact Hgood|done|done|]. rewrite A2. apply Hgood.
Qed.
Lemma keeps_first_hello t nonce i key mt data : served i → greeting i → ¬ untouched i → mt = "hello_auth" ∨ mt = "hello" →
  keeps Inv (first_message self t nonce i key (mt, data)).
Proof.
  intros Hi Hg Hu Hmt. unfold first_message. pose proof (keeps_hello_auth_inbound t nonce i data Hg Hu).
  assert (Hd : keeps Inv (dispatch i (mt, data))) by (apply keeps_dispatch; [done|]; destruct Hmt as [->| ->]; cbn; set_solver).
  apply keeps_bind; [apply keeps_the|]. intros p. destruct (bool_decide_reflect (mt = "hello_auth")) as [|Hne]; [auto 20 with keeps|].
  rewrite bool_decide_eq_true_2 by naive_solver. apply keeps_bind; [|auto 20 with keeps].
  by apply keeps_greet.
Qed.
End Invariant.

(** ** Every run of a node *)

Section Net.
Context `{C : Crypto} `{K : Kem} `{G : Cipher} `{W : Wire} `{V : P2PEnv} (self : Self).

Lemma good_weaken (D D' R R' U U' : nat → Prop) s j p : (D' j → D j) → (R' j → R j) → (U' j → U j) →
  good D R U s j p → good D' R' U' s j p.
Proof. intros HD HR HU [H1 H2 H3 H4 H5]. split; auto. Qed.
Lemma Inv_weaken (D D' R R' U U' : nat → Prop) s : (∀ j, D' j → D j) → (∀ j, R' j → R j) → (∀ j, U' j → U j) →
  Inv D R U s → Inv D' R' U' s.
Proof. intros HD HR HU [H1 H2 H3]. split; [|done|by auto]. intros j p Hp. eapply good_weaken; [..|by apply H1]; auto. Qed.
Definition without (P : nat → Prop) (i : nat) (j : nat) : Prop := P j ∧ j ≠ i.
Definition with_peer (P : nat → Prop) (i : nat) (j : nat) : Prop := P j ∨ j = i.

(** A peer object that is not in the store yet *)
Lemma Inv_insert D R U s i h pt init (b : bool) tb : Inv D R U s → objs s !! i = None →
  Inv (with_peer D i) (if b then with_peer R i else R) (if b then with_peer U i else U)
    (s <| objs ::= insert i (new_peer h pt init) |> <| table ::= tb |>).
Proof.
  intros [H1 H2 H3] Hi.
  assert (Hnr : ∀ m, (i, m) ∉ dispatched s) by (intros m Hin; destruct (H2 _ Hin) as [p Hp]; cbn in Hp; by rewrite Hi in Hp).
  split; cbn.
  - intros j p. destruct (decide (j = i)) as [->|Hne].
    + rewrite lookup_insert_eq. intros [= <-]. split; try done. intros _. split; [done|]. by intros (m & Hin & _); apply (Hnr m).
    + rewrite lookup_insert_ne by done. intros Hp. apply (good_mono _ _ _ s _ _ _ []); [by rewrite app_nil_r|done|].
      eapply good_weaken; [..|by apply H1].
      * by intros [?|?]. * destruct b; [by intros [?|?]|done]. * destruct b; [by intros [?|?]|done].
  - intros jm Hin. destruct (H2 jm Hin) as [p Hp]. exists p. rewrite lookup_insert_ne; [done|congruence].
  - intros j [Hj| ->]; [|by rewrite lookup_insert_eq]. destruct (H3 j Hj) as [p Hp]. exists p. rewrite lookup_insert_ne; [done|congruence].
Qed.
Lemma fresh_id_new s : objs s !! fresh_id s = None.
Proof. apply (not_elem_of_dom (D := gset nat)). unfold fresh_id. apply is_fresh. Qed.

Lemma wp_on_connect D R U h key s : Inv D R U s → wp (on_connect h key)
  (λ r s', match r with
           | Ok (Some i) => objs s !! i = None ∧ Inv (with_peer D i) (with_peer R i) (with_peer U i) s'
           | _ => Inv D R U s' end) s.
Proof.
  intros Hs. unfold on_connect. apply wp_bind, wp_get. destruct (_ || _); [done|]. apply wp_bind, wp_modify, wp_ret.
  split; [apply fresh_id_new|]. apply (Inv_insert D R U s _ h 0 false true); [done|apply fresh_id_new].
Qed.
Lemma wp_hello_auth D R U t now nonce i s : ¬ D i → ¬ R i → ¬ U i → Inv (with_peer D i) R U s → 
  (∀ p, objs s !! i = Some p → authenticated p = false) → ¬ restricted s i →
  wp (hello_auth self t now nonce i) (λ r s', Inv D R U s' ∧ (r = Ok true → Inv (with_peer D i) R U s')) s.
Proof.
  intros HD HR HU Hs Ha Hr. unfold hello_auth. apply wp_bind, wp_modify. set (s1 := set objs _ s).
  assert (H1 : Inv D R U s1).
  { eapply (Inv_step D R U s s1 i _ []); [|reflexivity|by rewrite app_nil_r|done|].
    - eapply Inv_weaken; [..|exact Hs]; try done. by left.
    - intros p Hp _. split; try done. cbn. by rewrite (Ha p Hp). }
  unfold signed. destruct (MLDSA_sign _ _) as [proof|[]]; try (split; [done|by intros [=]]).
  apply wp_bind, wp_send; [|by split; [|intros [=]]]. intros q _. apply wp_ret.
  assert (H2 : Inv (with_peer D i) R U (s1 <| sent ::= λ l, l ++ [(i, (wire_format q, ("hello_auth", hello_data self now nonce proof)))] |>)).
  { eapply (Inv_step _ R U s _ i _ [_]); [exact Hs|reflexivity|reflexivity|done|]. intros p Hp _. split; try done.
    - cbn. by rewrite (Ha p Hp).
    - intros _ _. cbn. do 3 eexists. split; [apply elem_of_app; right; by apply list_elem_of_singleton|]. left. by split. }
  split; [|done]. eapply Inv_weaken; [..|exact H2]; try done. by left.
Qed.
Lemma wp_connect D R U t now nonce h pt s : Inv D R U s → (∀ j, R j → D j) → (∀ j, U j → D j) → wp (connect self t now nonce h pt)
  (λ r s', match r with
           | Ok (Some i) => objs s !! i = None ∧ Inv (with_peer D i) R U s'
           | _ => Inv D R U s' end) s.
Proof.
  intros Hs HR HU. unfold connect. apply wp_bind, wp_get. destruct (_ || _); [done|]. set (i := fresh_id s).
  pose proof (fresh_id_new s : objs s !! i = None) as Hi.
  assert (HD : ¬ D i) by (intros Hd; destruct (inv_served _ _ _ _ Hs i Hd) as [p Hp]; by rewrite Hi in Hp).
  apply wp_bind, wp_modify. set (s1 := set table _ _).
  assert (H1 : Inv (with_peer D i) R U s1) by (apply (Inv_insert D R U s i h pt true false); done).
  destruct (has_signing_keys self).
  - apply wp_bind. eapply wp_mono; [apply (wp_hello_auth D R U); [done|by auto|by auto|exact H1|..]|].
    + intros p. cbn. rewrite lookup_insert_eq. by intros [= <-].
    + intros (m & Hin & _). destruct (inv_from _ _ _ _ Hs _ Hin) as [p Hp]. cbn in Hp. by rewrite Hi in Hp.
    + intros [[]|e] s' [Ha Hb]; [split; [done|by apply Hb]| |done].
      apply wp_bind, wp_modify. apply (keeps_same D R U i (λ p, p <| connected := false |>) ltac:(by intros ?)) in Ha.
      apply wp_bind, wp_modify. by apply (keeps_aside D R U (set table (λ d, dpop d (h +:+ ":" +:+ str_of_Z pt)))) in Ha.
  - apply wp_bind. eapply wp_mono; [by apply (keeps_send (with_peer D i) R U)|]. intros [[]|e] s' H'.
    + by split. + eapply Inv_weaken; [..|exact H']; try done. by left.
Qed.

Lemma wp_first_message (D R : nat → Prop) t nonce i key m s : Inv D R R s → D i → R i →
  wp (first_message self t nonce i key m) (λ _ s', Inv D (without R i) (without R i) s') s.
Proof.
  intros Hs Hi Hg. destruct m as [mt data].
  assert (Hw : Inv D R (without R i) s) by (eapply Inv_weaken; [..|exact Hs]; try done; by intros j []).
  destruct (decide (mt = "hello_auth" ∨ mt = "hello")) as [Hmt|Hmt].
  { eapply wp_mono; [apply (keeps_first_hello self D R (without R i)); [done|done|by intros []|done|done]|].
    intros r s' Hs'. eapply Inv_weaken; [..|exact Hs']; try done. by intros j []. }
  unfold first_message. apply wp_bind, wp_the.
  - intros p Hp. rewrite !bool_decide_eq_false_2 by tauto. apply wp_bind. eapply wp_mono.
    + apply (wp_dispatch D (without R i) (without R i)); [|by apply (inv_served _ _ _ _ Hs)|].
      * eapply Inv_weaken; [..|exact Hw]; try done. by intros j [].
      * intros _. split; [by intros []|]. intros q Hq. unfold exempt.
        rewrite (g_untouched _ _ _ _ _ _ (inv_peers _ _ _ _ Hs i q Hq) Hg). by rewrite orb_true_r.
    + intros [u|e] s' Hs'; done.
  - intros _. eapply Inv_weaken; [..|exact Hw]; try done. by intros j [].
Qed.

Definition served_of (T : gmap nat stage) (j : nat) : Prop := is_Some (T !! j).
Definition greeting_of (T : gmap nat stage) (j : nat) : Prop := ∃ k, T !! j = Some (Greeting k).
Definition net_ok (n : Net) : Prop := Inv (served_of (stages n)) (greeting_of (stages n)) (greeting_of (stages n)) (p2p n).
Lemma greeting_served T j : greeting_of T j → served_of T j.
Proof. intros [k Hk]. by exists (Greeting k). Qed.
Lemma serving_not_greeting T i k : T !! i = Some (Serving k) → ¬ greeting_of T i.
Proof. intros Hk [k' Hk']. by rewrite Hk in Hk'. Qed.
Lemma end_of_ok i key s T : Inv (served_of T) (without (greeting_of T) i) (without (greeting_of T) i) s → net_ok (end_of i key (mkNet s T)).
Proof.
  intros Hs. apply (keeps_leave _ _ _ i key) in Hs. unfold wp in Hs. unfold net_ok, end_of. cbn. destruct (leave i key s) as [r s'].
  eapply Inv_weaken; [..|exact Hs]; unfold served_of, greeting_of, without.
  - intros j [st Hj]. apply lookup_delete_Some in Hj as [_ Hj]. by exists st.
  - intros j [st Hj]. apply lookup_delete_Some in Hj as [Hne Hj]. split; [by exists st|done].
  - intros j [st Hj]. apply lookup_delete_Some in Hj as [Hne Hj]. split; [by exists st|done].
Qed.
Lemma stage_ok s T i st : Inv (with_peer (served_of T) i)
    (match st with Greeting _ => with_peer (greeting_of T) i | Serving _ => without (greeting_of T) i end)
    (match st with Greeting _ => with_peer (greeting_of T) i | Serving _ => without (greeting_of T) i end) s → net_ok (mkNet s (<[i := st]> T)).
Proof.
  intros Hs. assert (Hg : ∀ j, greeting_of (<[i := st]> T) j →
    match st with Greeting _ => with_peer (greeting_of T) i | Serving _ => without (greeting_of T) i end j).
  { intros j [k Hk]. apply lookup_insert_Some in Hk as [[<- ->]|[Hne Hk]]; [by right|].
    destruct st; [left|split; [|done]]; by exists k. }
  eapply Inv_weaken; [..|exact Hs]; cbn; [|exact Hg..].
  intros j [k Hk]. apply lookup_insert_Some in Hk as [[<- _]|[Hne Hk]]; [by right|left; by exists k].
Qed.
Lemma net_step_ok n e : net_ok n → net_ok (net_step self n e).
Proof.
  destruct n as [s T]. unfold net_ok at 1. cbn [p2p stages]. intros Hs. destruct e as [h k|t now nonce h pt|t rnd i m|i|now]; cbn [net_step p2p stages].
  - pose proof (wp_on_connect _ _ _ h k s Hs) as H. unfold wp in H. destruct (on_connect h k s) as [[[i|]|e] s']; try done.
    destruct H as [_ H]. by apply stage_ok.
  - pose proof (wp_connect _ _ _ t now nonce h pt s Hs (greeting_served T) (greeting_served T)) as H. unfold wp in H.
    destruct (connect self t now nonce h pt s) as [[[i|]|e] s']; try done. destruct H as [_ H]. apply stage_ok.
    eapply Inv_weaken; [..|exact H]; try done; by intros j [].
  - destruct (T !! i) as [[k|k]|] eqn:Hi; [| |done].
    + assert (HR : greeting_of T i) by (by exists k).
      pose proof (wp_first_message _ _ t rnd i k m s Hs (greeting_served T i HR) HR) as H. unfold wp in H.
      destruct (first_message self t rnd i k m s) as [[[k' []]|e] s']; [|by apply end_of_ok..].
      apply stage_ok. eapply Inv_weaken; [..|exact H]; try done. intros j [Hj| ->]; [done|by eexists].
    + pose proof (serving_not_greeting T i k Hi) as Hg. assert (HD : served_of T i) by (by exists (Serving k)).
      pose proof (keeps_next_message self _ _ _ t rnd i m HD Hg Hg s Hs) as H. unfold wp in H.
      destruct (next_message self t rnd i m s) as [[[]|e] s']; [done|..];
        (apply end_of_ok; eapply Inv_weaken; [..|exact H]; try done; by intros j []).
  - destruct (T !! i) as [st|]; [|done]. apply end_of_ok. eapply Inv_weaken; [..|exact Hs]; try done; by intros j [].
  - pose proof (keeps_cleanup _ _ _ now s Hs) as H. unfold wp in H. unfold net_ok. cbn. by destruct (rate_cleanup now s).
Qed.
Lemma net_run_ok es n : net_ok n → net_ok (net_run self n es).
Proof. revert n. induction es as [|e es IH]; intros n Hn; [done|]. apply IH. by apply net_step_ok. Qed.
Lemma empty_net_ok r b : net_ok (empty_net r b).
Proof.
  split; cbn.
  - intros j p H. by rewrite lookup_empty in H.
  - intros jm H. by apply elem_of_nil in H.
  - intros j [st H]. by rewrite lookup_empty in H.
Qed.
End Net.

(** ** A handshake between two honest nodes *)

(** A node with a key pair of ML-DSA, whose address is that of its key *)
Record honest `{C : Crypto} (x : Self) : Prop := mkHonest {
  ho_signs : ∀ msg, ∃ sig, oqs_sign (signing_sk x) msg = Some sig ∧ sig ≠ EmptyString ∧ oqs_verify msg sig (signing_pk x) = true;
  ho_size : str_len (signing_pk x) = MLDSA_PK_SIZE;
  ho_secret : signing_sk x ≠ EmptyString;
  ho_address : validator_address x = derive_address (signing_pk x) }.

Section Handshake.
Context `{C : Crypto} `{K : Kem} `{G : Cipher} `{W : Wire} `{V : P2PEnv}.

(** The data of the last message of type [mt] *)
Definition sent_data (mt : string) (l : outbox) : dict string JVal :=
  match list.last (filter (λ m : nat * (string * message), m.2.2.1 = mt) l) with Some m => m.2.2.2 | None => [] end.
(** [x] opens a connection [i] to [y], where it is [j]; each message of the
    handshake reaches the other side. *)
Definition handshake (x y : Self) (t t' u u' : Clock) (now : Z) (nx ny coins : string) (i j : nat) (s r : P2P) : P2P * P2P :=
  let s1 := (hello_auth x t now nx i s).2 in
  let r1 := (handle_hello_auth_inbound y u ny j (sent_data "hello_auth" (sent s1)) r).2 in
  let s2 := (handle_auth_response x t' coins i (sent_data "auth_response" (sent r1)) s1).2 in
  let r2 := (handle_auth_confirm y u' j (sent_data "auth_confirm" (sent s2)) r1).2 in
  (s2, r2).

Lemma sent_data_last mt l l' m : m.2.2.1 = mt → Forall (λ m : nat * (string * message), m.2.2.1 ≠ mt) l' →
  sent_data mt (l ++ m :: l') = m.2.2.2.
Proof.
  intros Hm Hl. unfold sent_data. rewrite list.filter_app, list.filter_cons_True by done. rewrite (filter_none _ l') by (intros x Hx; by apply (Forall_in _ _ _ Hl)).
  by rewrite last_snoc.
Qed.

Lemma honest_keys x : honest x → has_signing_keys x = true.
Proof.
  intros [_ Hs Hk Ha]. unfold has_signing_keys. rewrite Ha. unfold derive_address.
  destruct (signing_sk x); [done|]. by destruct (signing_pk x).
Qed.
Lemma honest_pk x : honest x → resolve_peer_pubkey (JStr (hex (signing_pk x))) = Some (signing_pk x).
Proof. intros H. unfold resolve_peer_pubkey. cbn. rewrite fromhex_hex. cbn. by rewrite (ho_size x H), Z.eqb_refl. Qed.
Lemma honest_verifies x msg : honest x → ∃ sig, sig ≠ EmptyString ∧ MLDSA_sign (signing_sk x) msg = Ok sig ∧ MLDSA_verify (signing_pk x) msg sig = true.
Proof.
  intros [Hs Hz _ _]. destruct (Hs msg) as (sig & H1 & H2 & H3). exists sig. unfold MLDSA_sign, MLDSA_verify. rewrite H1, H3.
  split_and!; [done|done|]. destruct (signing_pk x); [done|]. by destruct sig.
Qed.
(** *** The four messages *)

Lemma alter_known (m : gmap nat Peer) i p f : m !! i = Some p → alter f i m = <[i := f p]> m.
Proof.
  intros Hp. apply map_eq. intros j. destruct (decide (j = i)) as [->|]; [by rewrite lookup_alter_eq, lookup_insert_eq, Hp|].
  by rewrite lookup_alter_ne, lookup_insert_ne.
Qed.
Lemma wp_update i f s p Q : objs s !! i = Some p → Q (Ok tt) (s <| objs := <[i := f p]> (objs s) |>) → wp (update i f) Q s.
Proof. intros Hp HQ. apply wp_modify. unfold set at 1, set_objs. by rewrite (alter_known _ _ p). Qed.
Lemma wp_the_known i s p Q : objs s !! i = Some p → Q (Ok p) s → wp (the i) Q s.
Proof. intros Hp HQ. apply wp_the; [|by rewrite Hp]. intros q Hq. rewrite Hp in Hq. by injection Hq as <-. Qed.
Lemma wp_send_known i mt data s p Q : objs s !! i = Some p →
  Q (Ok tt) (s <| sent := sent s ++ [(i, (wire_format p, (mt, data)))] |>) → wp (send i mt data) Q s.
Proof. intros Hp HQ. apply wp_send; [|by rewrite Hp]. intros q Hq. rewrite Hp in Hq. by injection Hq as <-. Qed.
Lemma wp_signed x msg k s Q : honest x → (∀ sig, sig ≠ EmptyString → MLDSA_verify (signing_pk x) msg sig = true → wp (k sig) Q s) →
  wp (signed x msg k) Q s.
Proof. intros Hx Hk. destruct (honest_verifies x msg Hx) as (sig & Hne & Hs & Hv). unfold signed. rewrite Hs. by apply Hk. Qed.

(** What a handler does to its own peer and what it sends it *)
Definition moved (i : nat) (q : Peer) (l : outbox) (s s' : P2P) : Prop :=
  objs s' = <[i := q]> (objs s) ∧ table s' = table s ∧ sent s' = sent s ++ l.

Lemma wp_hello_sent x t now nonce i s p : honest x → objs s !! i = Some p →
  wp (hello_auth x t now nonce i) (λ r s', r = Ok true ∧ ∃ q proof,
    moved i q [(i, (wire_format p, ("hello_auth", hello_data x now nonce proof)))] s s' ∧ proof ≠ EmptyString ∧
    MLDSA_verify (signing_pk x) (build_auth_message nonce (validator_address x)) proof = true ∧
    challenge q = nonce ∧ auth_deadline q = fadd (mono t) AUTH_TIMEOUT ∧ wire_format q = wire_format p) s.
Proof.
  intros Hx Hp. unfold hello_auth. eapply wp_bind, wp_update; [done|]. apply wp_signed; [done|]. intros proof Hne Hv.
  eapply wp_bind, wp_send_known; [apply lookup_insert_eq|]. apply wp_ret. split; [done|]. eexists _, proof. split; [by split_and!|by split_and!].
Qed.
Lemma hex_nonempty b : b ≠ EmptyString → truthy (JStr (hex b)) = true.
Proof. by destruct b. Qed.
Lemma hex_bytes_hex b : hex_bytes (JStr (hex b)) = Some b.
Proof. apply fromhex_hex. Qed.
Lemma store_wire data p : wire_format (store_node_id data (store_encryption_pk data p)) = wire_format p.
Proof. unfold store_encryption_pk, store_node_id. by destruct (resolve_encryption_pk _), (jget data _ _). Qed.

Lemma wp_hello_received x y u ny j r q now nx proof : honest x → honest y → objs r !! j = Some q → str_len nx = CHALLENGE_LEN →
  recent u now = true → proof ≠ EmptyString → MLDSA_verify (signing_pk x) (build_auth_message nx (validator_address x)) proof = true →
  wp (handle_hello_auth_inbound y u ny j (hello_data x now nx proof)) (λ o r', o = Ok true ∧ ∃ q' sig,
    moved j q' [(j, (wire_format q, ("auth_response", response_data y ny sig)))] r r' ∧ sig ≠ EmptyString ∧
    MLDSA_verify (signing_pk y) (build_auth_message nx (validator_address y)) sig = true ∧
    challenge q' = ny ∧ auth_deadline q' = fadd (mono u) AUTH_TIMEOUT ∧ remote_pubkey q' = signing_pk x ∧
    pending_wire_format q' = JStr preferred_wire_format ∧ protocol_version q' = PROTOCOL_VERSION ∧ wire_format q' = wire_format q) r.
Proof.
  intros Hx Hy Hq Hlen Hrec Hne Hv. unfold handle_hello_auth_inbound. rewrite (honest_keys y Hy). cbn [require].
  set (data := hello_data x now nx proof). change (int_val (jget data "protocol_version" _)) with (Some PROTOCOL_VERSION).
  cbn [demand]. change (2 <=? PROTOCOL_VERSION) with true. cbn [require].
  change (int_val (jget data "timestamp" _)) with (Some now). cbn [demand]. rewrite Hrec. cbn [require].
  change (jget data "chain_id" _) with (JStr CHAIN_ID). rewrite bool_decide_eq_true_2 by done. cbn [require].
  change (jget data "challenge" _) with (JStr (hex nx)). rewrite hex_bytes_hex. cbn [demand]. rewrite Hlen, Z.eqb_refl. cbn [require].
  change (jget data "signing_pk" _) with (JStr (hex (signing_pk x))). rewrite (honest_pk x Hx). cbn [demand].
  change (jget data "proof" _) with (JStr (hex proof)). rewrite (hex_nonempty _ Hne), hex_bytes_hex. cbn [demand require].
  rewrite <-(ho_address x Hx), Hv. cbn [require].
  eapply wp_bind, wp_update; [exact Hq|]. apply wp_signed; [done|]. intros sig Hsig Hvs.
  eapply wp_bind, wp_update; [apply lookup_insert_eq|]. eapply wp_bind, wp_send_known; [apply lookup_insert_eq|]. apply wp_ret.
  split; [done|]. eexists _, sig. split; [split_and!; [cbn; by rewrite !insert_insert_eq|done|cbn; by rewrite store_wire]|].
  split_and!; try done. cbn. apply store_wire.
Qed.

(** No other connection to [remote] is authenticated. *)
Definition alone (s : P2P) (i : nat) (remote : string) : Prop :=
  ∀ k j p, (k, j) ∈ table s → j ≠ i → objs s !! j = Some p → authenticated p = true → remote_address p ≠ remote.
Lemma alone_moved s s' i q l remote : moved i q l s s' → alone s i remote → alone s' i remote.
Proof. intros (Ho & Ht & _) Ha k j p. rewrite Ho, Ht. intros Hin Hne. rewrite lookup_insert_ne by done. by eapply Ha. Qed.
Lemma moved_chain i p q l l' s1 s2 s3 : moved i p l s1 s2 → moved i q l' s2 s3 → moved i q (l ++ l') s1 s3.
Proof. intros (H1 & H2 & H3) (H4 & H5 & H6). split_and!; [by rewrite H4, H1, insert_insert_eq|by rewrite H5|by rewrite H6, H3, app_assoc]. Qed.
Lemma moved_none i p s : objs s !! i = Some p → moved i p [] s s.
Proof. intros Hp. split_and!; [by rewrite insert_id|done|by rewrite app_nil_r]. Qed.
Lemma moved_set i q s s' : s' = s <| objs := <[i := q]> (objs s) |> → moved i q [] s s'.
Proof. intros ->. split_and!; [done|done|by rewrite app_nil_r]. Qed.

Lemma wp_dedup_alone x i s p (Q : result bool → P2P → Prop) : objs s !! i = Some p → alone s i (remote_address p) → Q (Ok false) s →
  wp (dedup_connection x i) Q s.
Proof.
  intros Hp Ha HQ. unfold dedup_connection. eapply wp_bind, wp_the_known; [done|]. apply wp_bind, wp_get.
  destruct (_ || _); [done|]. assert (E : duplicate_of s i (remote_address p) = None); [|by rewrite E].
  unfold duplicate_of. destruct (list_find _ _) as [[n [k j]]|] eqn:E; [|done]. exfalso.
  apply list_find_Some in E as (Hin & Hs & _). cbn in Hs. destruct (objs s !! j) as [q|] eqn:Hq; [|done].
  apply andb_true_iff in Hs as [[Hne%negb_true_iff%bool_decide_eq_false Hauth]%andb_true_iff Had%bool_decide_eq_true].
  by eapply (Ha k j q); [by eapply list_elem_of_lookup_2|..].
Qed.
Lemma negotiate_same : negotiate PROTOCOL_VERSION PROTOCOL_VERSION preferred_wire_format (JStr preferred_wire_format) = preferred_wire_format.
Proof. unfold negotiate, preferred_wire_format. by destruct HAS_MSGPACK. Qed.

(** The channel the initiator opens: what the peer becomes and what it is sent *)
Definition channel (x : Self) (coins : string) (p : Peer) : Peer * list (string * dict string JVal) :=
  if has_encryption_keys x then
    match encryption_pk p with
    | Some pk => match encapsulate coins pk with
                 | Ok (ct, ss) => (p <| session_key := Some (derive_session_key ss) |> <| encrypted := true |>,
                     [("session_key", [("ciphertext", JStr (hex ct)); ("encryption_pk", JStr (hex (self_encryption_pk x)))])])
                 | Raise _ => (p, [])
                 end
    | None => (p, [])
    end
  else (p, []).
Lemma wp_channel x coins i s p (Q : result unit → P2P → Prop) : objs s !! i = Some p →
  (∀ s', moved i (channel x coins p).1 ((λ m, (i, (wire_format p, m))) <$> (channel x coins p).2) s s' → Q (Ok tt) s') →
  wp (initiate_encrypted_channel x coins i) Q s.
Proof.
  intros Hp HQ. unfold initiate_encrypted_channel. eapply wp_bind, wp_the_known; [done|]. unfold channel in HQ.
  destruct (has_encryption_keys x); cbn [negb]; [|by apply HQ, moved_none].
  destruct (encryption_pk p) as [pk|]; [|by apply HQ, moved_none]. destruct (encapsulate coins pk) as [[ct ss]|e]; [|by apply HQ, moved_none].
  eapply wp_bind, wp_update; [done|]. eapply wp_bind, wp_send_known; [apply lookup_insert_eq|].
  eapply wp_update; [apply lookup_insert_eq|]. apply HQ. split_and!; [cbn; by rewrite insert_insert_eq|done|done].
Qed.
Lemma channel_same x coins p : let q := (channel x coins p).1 in authenticated q = authenticated p ∧ remote_address q = remote_address p ∧
  remote_pubkey q = remote_pubkey p ∧ protocol_version q = protocol_version p ∧ wire_format q = wire_format p.
Proof.
  unfold channel. destruct (has_encryption_keys x); [|done]. destruct (encryption_pk p) as [pk|]; [|done].
  by destruct (encapsulate coins pk) as [[ct ss]|].
Qed.
Lemma status_same x p : let q := check_validator_status x p in authenticated q = authenticated p ∧ remote_address q = remote_address p ∧
  remote_pubkey q = remote_pubkey p ∧ protocol_version q = protocol_version p ∧ wire_format q = wire_format p ∧ encryption_pk q = encryption_pk p.
Proof. unfold check_validator_status. by destruct (is_empty _). Qed.

Lemma wp_settle_response x coins i data s p : objs s !! i = Some p → alone s i (remote_address p) →
  jget data "wire_format" (JStr "json") = JStr preferred_wire_format → protocol_version p = PROTOCOL_VERSION →
  let p1 := check_validator_status x p in let c := channel x coins p1 in
  wp (settle_response x coins i data) (λ r s', r = Ok true ∧
    moved i (c.1 <| wire_format := preferred_wire_format |>) ((λ m, (i, (wire_format p, m))) <$> c.2) s s') s.
Proof.
  intros Hp Ha Hw Hv p1 c. unfold settle_response. destruct (status_same x p) as (A1 & A2 & A3 & A4 & A5 & A6). fold p1 in A1, A2, A3, A4, A5, A6.
  destruct (channel_same x coins p1) as (B1 & B2 & B3 & B4 & B5). fold c in B1, B2, B3, B4, B5.
  eapply wp_bind, wp_update; [done|]. fold p1. set (s1 := set objs _ s).
  assert (H1 : moved i p1 [] s s1) by by apply moved_set.
  assert (Hp1 : objs s1 !! i = Some p1) by apply lookup_insert_eq.
  apply wp_bind. eapply wp_dedup_alone; [exact Hp1| |].
  { rewrite A2. by eapply alone_moved. }
  apply wp_bind. eapply wp_channel; [exact Hp1|]. intros s2 H2.
  assert (Hp2 : objs s2 !! i = Some c.1) by (destruct H2 as [-> _]; apply lookup_insert_eq).
  eapply wp_bind, wp_update; [exact Hp2|]. apply wp_ret. split; [done|].
  rewrite Hw, B4, A4, Hv, negotiate_same. fold c in H2. rewrite A5 in H2.
  pose proof (moved_chain _ _ _ _ _ _ _ _ H1 H2) as H3. rewrite <-(app_nil_r (_ <$> c.2)).
  eapply moved_chain; [exact H3|]. by apply moved_set.
Qed.
Lemma stored_encryption y ny sig p : has_encryption_keys y = true → str_len (self_encryption_pk y) = MLKEM_PK_SIZE →
  encryption_pk (store_encryption_pk (response_data y ny sig) p) = Some (self_encryption_pk y).
Proof.
  intros Hk Hz. unfold store_encryption_pk, response_data, encryption_field. rewrite Hk.
  change (jget _ _ _) with (JStr (hex (self_encryption_pk y))). unfold resolve_encryption_pk.
  rewrite hex_nonempty by (intros E; by rewrite E in Hz). rewrite hex_bytes_hex. cbn. by rewrite Hz, Z.eqb_refl.
Qed.

Lemma wp_response_received x y t coins ny sig i s p : honest x → honest y → objs s !! i = Some p → challenge p ≠ EmptyString →
  flt (auth_deadline p) (mono t) = false → str_len ny = CHALLENGE_LEN →
  MLDSA_verify (signing_pk y) (build_auth_message (challenge p) (validator_address y)) sig = true → alone s i (validator_address y) →
  wp (handle_auth_response x t coins i (response_data y ny sig)) (λ r s', r = Ok true ∧ ∃ q csig c,
    moved i q ((i, (wire_format p, ("auth_confirm", [("challenge_sig", JStr (hex csig))]))) :: ((λ m, (i, (wire_format p, m))) <$> c.2)) s s' ∧
    MLDSA_verify (signing_pk x) (build_auth_message ny (validator_address x)) csig = true ∧
    authenticated q = true ∧ remote_address q = validator_address y ∧ wire_format q = preferred_wire_format ∧
    session_key q = session_key (c.1 : Peer) ∧ encrypted q = encrypted c.1 ∧
    ∃ p1, c = channel x coins p1 ∧ (has_encryption_keys y = true → str_len (self_encryption_pk y) = MLKEM_PK_SIZE →
      encryption_pk p1 = Some (self_encryption_pk y))) s.
Proof.
  intros Hx Hy Hp Hc Hd Hlen Hv Ha. unfold handle_auth_response. set (data := response_data y ny sig).
  eapply wp_bind, wp_the_known; [done|]. destruct (is_empty (challenge p)) eqn:He; [by destruct (challenge p)|]. cbn [require negb].
  rewrite Hd. change (jget data "signing_pk" _) with (JStr (hex (signing_pk y))). rewrite (honest_pk y Hy).
  change (jget data "challenge_sig" _) with (JStr (hex sig)). rewrite hex_bytes_hex, <-(ho_address y Hy).
  eapply wp_bind, wp_update; [exact Hp|]. rewrite Hv. cbn [require].
  change (jget data "counter_challenge" _) with (JStr (hex ny)). rewrite hex_bytes_hex. cbn [demand]. rewrite Hlen, Z.eqb_refl. cbn [require].
  apply wp_signed; [done|]. intros csig _ Hcs. eapply wp_bind, wp_send_known; [apply lookup_insert_eq|]. cbn [wire_format set set_challenge].
  eapply wp_bind, wp_update; [apply lookup_insert_eq|]. apply wp_bind, wp_lift.
  change (as_Z (jget data "protocol_version" _)) with (Ok PROTOCOL_VERSION). cbv iota beta. set (s3 := set objs _ _).
  eapply wp_bind, wp_update; [apply lookup_insert_eq|].
  match goal with |- wp _ _ (set objs (λ _, <[i := ?f ?p0]> _) _) => set (p3 := f p0) end. set (s4 := set objs _ s3).
  assert (H4 : moved i p3 [(i, (wire_format p, ("auth_confirm", [("challenge_sig", JStr (hex csig))])))] s s4).
  { split_and!; [cbn; by rewrite !insert_insert_eq|done|done]. }
  assert (H3 : authenticated p3 = true ∧ remote_address p3 = validator_address y ∧ protocol_version p3 = PROTOCOL_VERSION ∧ wire_format p3 = wire_format p).
  { unfold p3, store_encryption_pk, store_node_id. by destruct (resolve_encryption_pk _), (valid_port _), (jget data "node_id" _). }
  destruct H3 as (E1 & E2 & E3 & E4).
  eapply wp_mono; [apply (wp_settle_response x coins i data s4 p3)|]; [by destruct H4 as [-> _]; apply lookup_insert_eq|..].
  - rewrite E2. eapply alone_moved; [|exact Ha]. exact H4.
  - done.
  - done.
  - intros r s' [-> H5]. split; [done|]. rewrite E4 in H5. eexists _, csig, _. split; [exact (moved_chain _ _ _ _ _ _ _ _ H4 H5)|].
    destruct (channel_same x coins (check_validator_status x p3)) as (B1 & B2 & _), (status_same x p3) as (A1 & A2 & _ & _ & _ & A6).
    split_and!; [done|cbn; by rewrite B1, A1|cbn; by rewrite B2, A2|done|done|done|]. eexists. split; [done|].
    intros Hk Hz. rewrite A6. unfold p3. by apply stored_encryption.
Qed.
Lemma wp_confirm_received x y u csig j s q : honest x → objs s !! j = Some q → challenge q ≠ EmptyString →
  remote_pubkey q = signing_pk x → flt (auth_deadline q) (mono u) = false →
  MLDSA_verify (signing_pk x) (build_auth_message (challenge q) (validator_address x)) csig = true → alone s j (validator_address x) →
  pending_wire_format q = JStr preferred_wire_format → protocol_version q = PROTOCOL_VERSION →
  wp (handle_auth_confirm y u j [("challenge_sig", JStr (hex csig))]) (λ r s', r = Ok true ∧ ∃ q',
    moved j q' [] s s' ∧ authenticated q' = true ∧ remote_address q' = validator_address x ∧ wire_format q' = preferred_wire_format) s.
Proof.
  intros Hx Hq Hc Hpk Hd Hv Ha Hw Hpv. unfold handle_auth_confirm. eapply wp_bind, wp_the_known; [done|].
  destruct (is_empty (challenge q)) eqn:He; [by destruct (challenge q)|]. cbn [require negb].
  destruct (is_empty (remote_pubkey q)) eqn:Hr.
  { exfalso. pose proof (ho_size x Hx) as Hz. rewrite <-Hpk in Hz. by destruct (remote_pubkey q). }
  rewrite Hd. change (hex_bytes (jget _ _ _)) with (hex_bytes (JStr (hex csig))). rewrite hex_bytes_hex.
  eapply wp_bind, wp_update; [exact Hq|]. rewrite Hpk, <-(ho_address x Hx), Hv. cbn [negb].
  eapply wp_bind, wp_update; [apply lookup_insert_eq|]. unfold settle_confirm.
  eapply wp_bind, wp_update; [apply lookup_insert_eq|].
  match goal with |- context [<[j := check_validator_status y ?p0]>] => set (q0 := p0) end.
  destruct (status_same y q0) as (A1 & A2 & A3 & A4 & A5 & _). set (q' := check_validator_status y q0) in *. set (s4 := set objs _ _).
  assert (H4 : moved j q' [] s s4).
  { split_and!; [cbn; by rewrite !insert_insert_eq|done|by rewrite app_nil_r]. }
  apply wp_bind. eapply wp_dedup_alone; [by destruct H4 as [-> _]; apply lookup_insert_eq|rewrite A2; by eapply alone_moved|].
  apply wp_ret. split; [done|]. exists q'. rewrite A1, A2, A5. split_and!; try done; [apply H4..|].
  cbn. by rewrite Hw, Hpv, negotiate_same.
Qed.
Lemma wp_session_received y j s q ct ss pk sk : has_encryption_keys y = true → objs s !! j = Some q → authenticated q = true →
  str_len ct = MLKEM_CT_SIZE → sb_bytes (self_encryption_sk y) = Ok sk → str_len sk = MLKEM_SK_SIZE → oqs_decap sk ct = Some ss →
  wp (handle_session_key y j [("ciphertext", JStr (hex ct)); ("encryption_pk", pk)]) (λ r s', r = Ok true ∧ ∃ q',
    moved j q' [] s s' ∧ authenticated q' = true ∧ remote_address q' = remote_address q ∧
    session_key q' = Some (derive_session_key ss) ∧ encrypted q' = true) s.
Proof.
  intros Hk Hq Hauth Hct Hsk Hz Hd. unfold handle_session_key. eapply wp_bind, wp_the_known; [done|]. rewrite Hk, Hauth. cbn [require].
  change (hex_bytes (jget _ _ _)) with (hex_bytes (JStr (hex ct))). rewrite hex_bytes_hex. cbn [demand].
  rewrite Hct, Z.eqb_refl. cbn [require]. eapply wp_bind, wp_update; [exact Hq|].
  unfold decapsulate, guard. rewrite Hsk. cbn [mbind result_bind]. rewrite Hz, Hct, Hd, !Z.eqb_refl. cbn [negb].
  eapply wp_bind, wp_update; [apply lookup_insert_eq|]. apply wp_ret. split; [done|]. eexists. split.
  - split_and!; [cbn; by rewrite insert_insert_eq|done|by rewrite app_nil_r].
  - unfold store_encryption_pk. by destruct (resolve_encryption_pk _).
Qed.

(** *** The whole handshake *)

(** Both connections are there, and nothing is in the way of the handshake. *)
Record ready (x y : Self) (t t' u u' : Clock) (now : Z) (nx ny : string) (i j : nat) (s r : P2P) : Prop := mkReady {
  rd_peer : is_Some (objs s !! i);
  rd_peer' : is_Some (objs r !! j);
  rd_nonces : str_len nx = CHALLENGE_LEN ∧ str_len ny = CHALLENGE_LEN;
  rd_recent : recent u now = true;
  rd_in_time : flt (fadd (mono t) AUTH_TIMEOUT) (mono t') = false ∧ flt (fadd (mono u) AUTH_TIMEOUT) (mono u') = false;
  rd_alone : alone s i (validator_address y) ∧ alone r j (validator_address x) }.
Lemma long_nonempty n : str_len n = CHALLENGE_LEN → n ≠ EmptyString.
Proof. by intros H ->. Qed.
Lemma channel_types x coins p i w : Forall (λ m : nat * (string * message), m.2.2.1 ≠ "auth_confirm") ((λ m, (i, (w, m))) <$> (channel x coins p).2).
Proof.
  apply Forall_intro. intros m (d & -> & Hd)%list_elem_of_fmap. unfold channel in Hd.
  destruct (has_encryption_keys x), (encryption_pk p) as [pk|]; try by apply elem_of_nil in Hd.
  destruct (encapsulate coins pk) as [[ct ss]|]; [|by apply elem_of_nil in Hd]. by apply list_elem_of_singleton in Hd as ->.
Qed.

Lemma handshake_run x y t t' u u' now nx ny coins i j s r : honest x → honest y → ready x y t t' u u' now nx ny i j s r →
  let h := handshake x y t t' u u' now nx ny coins i j s r in ∃ p q c p1 w l,
  objs h.1 !! i = Some p ∧ objs h.2 !! j = Some q ∧ authenticated p = true ∧ authenticated q = true ∧
  remote_address p = validator_address y ∧ remote_address q = validator_address x ∧
  wire_format p = preferred_wire_format ∧ wire_format q = preferred_wire_format ∧
  session_key p = session_key (c.1 : Peer) ∧ encrypted p = encrypted c.1 ∧ c = channel x coins p1 ∧
  (has_encryption_keys y = true → str_len (self_encryption_pk y) = MLKEM_PK_SIZE → encryption_pk p1 = Some (self_encryption_pk y)) ∧
  sent h.1 = l ++ ((λ m, (i, (w, m))) <$> c.2) ∧ (∃ p0, objs s !! i = Some p0 ∧ w = wire_format p0).
Proof.
  intros Hx Hy [[p0 Hp0] [q0 Hq0] [Hnx Hny] Hrec [Hin Hin'] [Ha Ha']]. unfold handshake.
  pose proof (wp_hello_sent x t now nx i s p0 Hx Hp0) as H. unfold wp in H.
  destruct (hello_auth x t now nx i s) as [o1 s1]. destruct H as (_ & p1 & proof & M1 & Hne & Hv1 & Hc1 & Hd1 & Hw1). cbn [fst snd].
  rewrite (proj2 (proj2 M1)), sent_data_last by done. cbn [snd].
  pose proof (wp_hello_received x y u ny j r q0 now nx proof Hx Hy Hq0 Hnx Hrec Hne Hv1) as H. unfold wp in H.
  destruct (handle_hello_auth_inbound _ _ _ _ _ _) as [o2 r1]. cbn [fst snd].
  destruct H as (_ & q1 & sig & N1 & _ & Hv2 & Hcq & Hdq & Hpk & Hpw & Hpv & _).
  rewrite (proj2 (proj2 N1)), sent_data_last by done. cbn [snd].
  assert (Hp1 : objs s1 !! i = Some p1) by (rewrite (proj1 M1); apply lookup_insert_eq).
  assert (Hq1 : objs r1 !! j = Some q1) by (rewrite (proj1 N1); apply lookup_insert_eq).
  pose proof (wp_response_received x y t' coins ny sig i s1 p1 Hx Hy Hp1 ltac:(by rewrite Hc1; apply long_nonempty)
    ltac:(by rewrite Hd1) Hny ltac:(by rewrite Hc1) (alone_moved _ _ _ _ _ _ M1 Ha)) as H. unfold wp in H.
  destruct (handle_auth_response _ _ _ _ _ _) as [o3 s2]. cbn [fst snd].
  destruct H as (_ & p2 & csig & c & M2 & Hv3 & Hauth & Had & Hw2 & Hsk & Henc & pc & Hpc & Hepk).
  rewrite (proj2 (proj2 M2)), sent_data_last by (try done; rewrite Hpc; apply channel_types). cbn [snd].
  pose proof (wp_confirm_received x y u' csig j r1 q1 Hx Hq1 ltac:(by rewrite Hcq; apply long_nonempty) Hpk ltac:(by rewrite Hdq)
    ltac:(by rewrite Hcq) (alone_moved _ _ _ _ _ _ N1 Ha') Hpw Hpv) as H. unfold wp in H.
  destruct (handle_auth_confirm _ _ _ _ _) as [o4 r2]. cbn [fst snd]. destruct H as (_ & q2 & N2 & Hauth' & Had' & Hw2').
  exists p2, q2, c, pc, (wire_format p1), (sent s1 ++ [(i, (wire_format p1, ("auth_confirm", [("challenge_sig", JStr (hex csig))])))]).
  split_and!; try done; [by rewrite (proj1 M2); apply lookup_insert_eq|by rewrite (proj1 N2); apply lookup_insert_eq| |by exists p0].
  by rewrite <-app_assoc.
Qed.
End Handshake.

(** ** What the handshake does not give *)

Section Relay.
Context `{C : Crypto} `{K : Kem} `{G : Cipher} `{W : Wire} `{V : P2PEnv}.
Definition field_bytes (data : dict string JVal) (k : string) : string := default EmptyString (hex_bytes (jget data k JNull)).
(** [m] connects twice to [v] with its own key.  Its challenges are first one
    of its choice, then the challenge it got from [y] when it greeted [y] with
    the public data of [v] and the first answer of [v] for a proof.  The second
    answer of [v] confirms the handshake at [y]. *)
Definition relay (m v y : Self) (tv tv' u u' : Clock) (now : Z) (c nv nv' ny proof proof' : string) (k k' j : nat) (sv r : P2P) : P2P :=
  let sv1 := (handle_hello_auth_inbound v tv nv k (hello_data m now c proof) sv).2 in
  let answer := field_bytes (sent_data "auth_response" (sent sv1)) "challenge_sig" in
  let r1 := (handle_hello_auth_inbound y u ny j (hello_data v now c answer) r).2 in
  let challenge := field_bytes (sent_data "auth_response" (sent r1)) "counter_challenge" in
  let sv2 := (handle_hello_auth_inbound v tv' nv' k' (hello_data m now challenge proof') sv1).2 in
  let answer' := field_bytes (sent_data "auth_response" (sent sv2)) "challenge_sig" in
  (handle_auth_confirm y u' j [("challenge_sig", JStr (hex answer'))] r1).2.
Lemma wp_own_hello v m t n k now c proof s : honest v → honest m → is_Some (objs s !! k) → str_len c = CHALLENGE_LEN → recent t now = true →
  proof ≠ EmptyString → MLDSA_verify (signing_pk m) (build_auth_message c (validator_address m)) proof = true →
  let s' := (handle_hello_auth_inbound v t n k (hello_data m now c proof) s).2 in
  let answer := field_bytes (sent_data "auth_response" (sent s')) "challenge_sig" in
  answer ≠ EmptyString ∧ MLDSA_verify (signing_pk v) (build_auth_message c (validator_address v)) answer = true ∧
  field_bytes (sent_data "auth_response" (sent s')) "counter_challenge" = n ∧
  ∃ q l, moved k q l s s' ∧ challenge q = n ∧ auth_deadline q = fadd (mono t) AUTH_TIMEOUT ∧ remote_pubkey q = signing_pk m ∧
    pending_wire_format q = JStr preferred_wire_format ∧ protocol_version q = PROTOCOL_VERSION.
Proof.
  intros Hv Hm [q0 Hq0] Hc Hrec Hne Hp. pose proof (wp_hello_received m v t n k s q0 now c proof Hm Hv Hq0 Hc Hrec Hne Hp) as H. unfold wp in H.
  destruct (handle_hello_auth_inbound _ _ _ _ _ _) as [o s']. cbn [snd].
  destruct H as (_ & q & sig & M & Hs & Hvs & E1 & E2 & E3 & E4 & E5 & _). cbn zeta.
  rewrite (proj2 (proj2 M)), sent_data_last by done. cbn [snd].
  change (field_bytes _ "challenge_sig") with (default EmptyString (fromhex (hex sig))).
  change (field_bytes _ "counter_challenge") with (default EmptyString (fromhex (hex n))). rewrite !fromhex_hex. cbn [default].
  split_and!; [done..|]. by exists q, [(k, (wire_format q0, ("auth_response", response_data v n sig)))].
Qed.
End Relay.

(** A peer's misbehaviour is recorded for its address with the port, while a
    new connection asks for its host: it is never refused for that. *)
Lemma addr_not_host p : addr p ≠ host p.
Proof.
  intros E%(f_equal String.length). unfold addr in E. rewrite !string_length_app in E. cbn in E. lia.
Qed.
Lemma ban_never_bars_host now p e r r' : Limits.record_event now (addr p) e r = Ok r' → is_banned r' (host p) = is_banned r (host p).
Proof.
  unfold Limits.record_event, is_banned. destruct (is_empty (addr p)); [by intros [= <-]|]. destruct (dget EVENTS e); [|done].
  intros [= <-]. f_equal. cbn. destruct (fle _ _); [|done]. apply bool_decide_ext. pose proof (addr_not_host p). set_solver.
Qed.
(** The loop of an outbound connection removes the address the peer has at the
    end; a peer that announced another port keeps its place in the table. *)
Lemma outbound_entry_stays i key s p : objs s !! i = Some p → is_initiator p = true → dget (table s) key = Some i → key ≠ addr p →
  wp (leave i key) (λ _ s', dget (table s') key = Some i) s.
Proof.
  intros Hp Hini Hk Hne. unfold leave. eapply wp_bind, wp_the_known; [done|]. apply wp_bind, wp_modify, wp_modify. cbn.
  by rewrite Hini, dget_dpop_ne.
Qed.
(** Whatever is inside an encrypted message, the limits let it pass. *)
Lemma encrypted_unlimited now p s : check_rate_limit now p "encrypted" s = (Ok true, s).
Proof. reflexivity. Qed.

(** ** The limits are bounded *)

Section Bounded.
Context `{C : Crypto} `{K : Kem} `{G : Cipher} `{W : Wire} `{V : P2PEnv} (self : Self).
Record bounded (s : P2P) : Prop := mkBounded {
  bd_limiter : limiter_ok (limiter s);
  bd_attempts : Z.of_nat (length (attempts s)) <= AUTH_ATTEMPTS_CAP;
  bd_hosts : NoDup (attempts s).*1 }.

Lemma bounded_other f : (∀ s, limiter (f s) = limiter s ∧ attempts (f s) = attempts s) → keeps bounded (modify f).
Proof. intros Hf s [H1 H2 H3]. apply wp_modify. destruct (Hf s) as [E1 E2]. split; by rewrite ?E1, ?E2. Qed.
Lemma bounded_update i f : keeps bounded (update i f).
Proof. by apply bounded_other. Qed.
#[local] Hint Resolve bounded_update : keeps.
#[local] Hint Extern 1 (keeps bounded (modify _)) => (apply bounded_other; done) : keeps.
Lemma bounded_the i : keeps bounded (the i).
Proof. unfold the. auto with keeps. Qed.
#[local] Hint Resolve bounded_the : keeps.
Lemma bounded_send i mt data : keeps bounded (send i mt data).
Proof. unfold send. auto with keeps. Qed.
Lemma bounded_record now p e : keeps bounded (record now p e).
Proof. unfold record. auto 10 with keeps. Qed.
Lemma bounded_spend i : keeps bounded (spend i).
Proof. unfold spend. auto with keeps. Qed.
Lemma bounded_signed msg k : (∀ sig, keeps bounded (k sig)) → keeps bounded (signed self msg k).
Proof. intros Hk. unfold signed. destruct (MLDSA_sign _ _) as [|[]]; auto with keeps. Qed.
Lemma bounded_require b k : keeps bounded k → keeps bounded (require b k).
Proof. destruct b; cbn; auto with keeps. Qed.
Lemma bounded_demand {A} (o : option A) k : (∀ a, keeps bounded (k a)) → keeps bounded (demand o k).
Proof. destruct o; cbn; auto with keeps. Qed.
#[local] Hint Resolve bounded_send bounded_record bounded_spend : keeps.
#[local] Hint Extern 1 (keeps bounded (require _ _)) => apply bounded_require : keeps.
#[local] Hint Extern 1 (keeps bounded (demand _ _)) => (apply bounded_demand; intros ?) : keeps.
#[local] Hint Extern 1 (keeps bounded (signed _ _ _)) => (apply bounded_signed; intros ?) : keeps.
Lemma bounded_report t i : keeps bounded (report t i).
Proof. unfold report. auto 10 with keeps. Qed.
Lemma bounded_leave i key : keeps bounded (leave i key).
Proof. unfold leave. auto 10 with keeps. Qed.
Lemma bounded_dedup i : keeps bounded (dedup_connection self i).
Proof. unfold dedup_connection. auto 20 with keeps. Qed.
Lemma bounded_channel coins i : keeps bounded (initiate_encrypted_channel self coins i).
Proof. unfold initiate_encrypted_channel. auto 20 with keeps. Qed.
Lemma bounded_session_key i data : keeps bounded (handle_session_key self i data).
Proof. unfold handle_session_key. auto 20 with keeps. Qed.
Lemma bounded_peer_key i key temp v : keeps bounded (update_peer_key i key temp v).
Proof. unfold update_peer_key. auto 20 with keeps. Qed.
#[local] Hint Resolve bounded_report bounded_leave bounded_dedup bounded_channel bounded_session_key bounded_peer_key : keeps.
Lemma bounded_auth_response t coins i data : keeps bounded (handle_auth_response self t coins i data).
Proof. unfold handle_auth_response, spent, settle_response. auto 40 with keeps. Qed.
Lemma bounded_auth_confirm t i data : keeps bounded (handle_auth_confirm self t i data).
Proof. unfold handle_auth_confirm, spent, settle_confirm. auto 40 with keeps. Qed.
Lemma bounded_hello_inbound t nonce i data : keeps bounded (handle_hello_auth_inbound self t nonce i data).
Proof. unfold handle_hello_auth_inbound. auto 40 with keeps. Qed.
Lemma bounded_hello t now nonce i : keeps bounded (hello_auth self t now nonce i).
Proof. unfold hello_auth. auto 20 with keeps. Qed.
Lemma bounded_dispatch i m : keeps bounded (dispatch i m).
Proof. unfold dispatch. auto with keeps. Qed.
#[local] Hint Resolve bounded_auth_response bounded_auth_confirm bounded_hello_inbound bounded_hello bounded_dispatch : keeps.

(** *** The two limits *)

Lemma bounded_auth_rate now h : keeps bounded (check_auth_rate now h).
Proof.
  unfold check_auth_rate. destruct (is_localhost h); [auto with keeps|]. intros s Hs. apply wp_bind, wp_get.
  destruct (AUTH_RATE_MAX <=? _); [done|]. apply wp_bind, wp_modify, wp_ret. destruct Hs as [H1 H2 H3]. split; cbn; [done|..].
  - rewrite length_drop, length_app. cbn [length]. unfold AUTH_ATTEMPTS_CAP. lia.
  - rewrite fmap_drop. eapply sublist_NoDup; [|apply sublist_drop]. rewrite fmap_app. apply list.NoDup_app.
    split_and!; [by apply dpop_NoDup| |apply NoDup_singleton].
    intros k (kv & -> & [_ Hne]%dpop_sub)%list_elem_of_fmap Hin. by apply list_elem_of_singleton in Hin.
Qed.
Lemma bounded_rate_limit now p mt : keeps bounded (check_rate_limit now p mt).
Proof.
  unfold check_rate_limit. destruct (_ || _); [auto with keeps|]. intros s Hs. apply wp_bind, wp_get, wp_bind, wp_modify, wp_ret.
  destruct Hs as [H1 H2 H3]. split; [by apply check_ok|done..].
Qed.
Lemma bounded_disconnect now p : keeps bounded (should_disconnect_rate now p).
Proof. unfold should_disconnect_rate. auto 20 with keeps. Qed.
Lemma bounded_cleanup now : keeps bounded (rate_cleanup now).
Proof.
  intros s [H1 H2 H3]. do 2 apply wp_bind, wp_modify. apply wp_modify. split; cbn.
  - by apply cleanup_ok.
  - etransitivity; [apply inj_le, sublist_length, sublist_filter|done].
  - by apply NoDup_fmap_filter.
Qed.
#[local] Hint Resolve bounded_auth_rate bounded_rate_limit bounded_disconnect : keeps.

Lemma bounded_first_message t nonce i key m : keeps bounded (first_message self t nonce i key m).
Proof. unfold first_message. destruct m. auto 40 with keeps. Qed.
Lemma bounded_next_message t coins i m : keeps bounded (next_message self t coins i m).
Proof.
  unfold next_message, answer_or_leave, gated. apply keeps_bind; [auto with keeps|]. intros p.
  apply keeps_bind; [auto with keeps|]. intros []; cbn [negb]; [|auto 10 with keeps].
  destruct (if bool_decide _ then _ else _) as [[mt data]|]; auto 40 with keeps.
Qed.
Lemma bounded_on_connect h key : keeps bounded (on_connect h key).
Proof. unfold on_connect. auto 20 with keeps. Qed.
Lemma bounded_connect t now nonce h pt : keeps bounded (connect self t now nonce h pt).
Proof. unfold connect. auto 40 with keeps. Qed.

Lemma keeps_snd {S A} (I : S → Prop) (m : M S A) s : keeps I m → I s → I (m s).2.
Proof. intros Hm Hs. specialize (Hm s Hs). unfold wp in Hm. by destruct (m s). Qed.
Lemma net_step_bounded n e : bounded (p2p n) → bounded (p2p (net_step self n e)).
Proof.
  destruct n as [s T]. cbn [p2p]. intros Hs.
  assert (Hend : ∀ i k s T, bounded s → bounded (p2p (end_of i k (mkNet s T)))) by (intros; by apply (keeps_snd _ _ _ (bounded_leave _ _))).
  destruct e as [h k|t now nonce h pt|t rnd i m|i|now]; cbn [net_step p2p stages].
  - pose proof (keeps_snd _ _ s (bounded_on_connect h k) Hs). by destruct (on_connect h k s) as [[[i|]|e] s'].
  - pose proof (keeps_snd _ _ s (bounded_connect t now nonce h pt) Hs). by destruct (connect _ _ _ _ _ _ s) as [[[i|]|e] s'].
  - destruct (T !! i) as [[k|k]|]; [| |done].
    + pose proof (keeps_snd _ _ s (bounded_first_message t rnd i k m) Hs). destruct (first_message _ _ _ _ _ _ s) as [[[k' []]|e] s']; [done|by apply Hend..].
    + pose proof (keeps_snd _ _ s (bounded_next_message t rnd i m) Hs). destruct (next_message _ _ _ _ _ s) as [[[]|e] s']; [done|by apply Hend..].
  - destruct (T !! i); [by apply Hend|done].
  - by apply (keeps_snd _ _ s (bounded_cleanup now)).
Qed.
End Bounded.

(** ** Properties *)

(** C16 In every run of a node, whatever is received and however the events of
    its connections interleave, an authenticated peer has the address of its
    key, and the node holds a signature of that key on a challenge it sent on
    this connection, with that address; the challenge is used up.  And every
    message that needs authentication was dispatched for a peer that is
    authenticated or speaks the first version of the protocol. *)
Theorem authenticated_peers_proved `{C : Crypto} `{K : Kem} `{G : Cipher} `{W : Wire} `{V : P2PEnv} (self : Self)
  (rate burst : spec_float) (es : list event) :
  let s := p2p (net_run self (empty_net rate burst) es) in
  (∀ i p, objs s !! i = Some p → authenticated p = true →
    remote_address p = derive_address (remote_pubkey p) ∧ challenge p = EmptyString ∧
    ∃ c sig, challenged (sent s) i c ∧ MLDSA_verify (remote_pubkey p) (build_auth_message c (remote_address p)) sig = true) ∧
  (∀ i m, (i, m) ∈ dispatched s → m.1 ∈ AUTH_REQUIRED_MSGS →
    ∃ p, objs s !! i = Some p ∧ (authenticated p = true ∨ protocol_version p < 2)).
Proof.
  cbn zeta. pose proof (net_run_ok self es _ (empty_net_ok rate burst)) as [H1 H2 H3]. split.
  - intros i p Hp. apply (H1 i p Hp).
  - intros i m Hin Hm. destruct (H2 _ Hin) as [p Hp]. exists p. split; [done|].
    pose proof (g_gate _ _ _ _ _ _ (H1 i p Hp) ltac:(by exists m)) as He. unfold exempt in He.
    apply orb_true_iff in He as [|He%Z.ltb_lt]; auto.
Qed.

(** What the encrypted channel needs of the two nodes: keys of ML-KEM on both
    sides, the responder's a pair, and an encapsulation that succeeds *)
Record channel_keys `{C : Crypto} `{K : Kem} (x y : Self) (coins : string) : Prop := mkChannelKeys {
  ck_has : has_encryption_keys x = true ∧ has_encryption_keys y = true;
  ck_size : str_len (self_encryption_pk y) = MLKEM_PK_SIZE;
  ck_pair : ∃ sk, sb_bytes (self_encryption_sk y) = Ok sk ∧ str_len sk = MLKEM_SK_SIZE ∧ kem_pair sk (self_encryption_pk y);
  ck_encap : is_Some (oqs_encap coins (self_encryption_pk y)) }.
Lemma channel_keys_channel `{C : Crypto} `{K : Kem} `{!KemLaws K} x y coins p : channel_keys x y coins →
  encryption_pk p = Some (self_encryption_pk y) → ∃ ct ss sk, sb_bytes (self_encryption_sk y) = Ok sk ∧ str_len sk = MLKEM_SK_SIZE ∧
    str_len ct = MLKEM_CT_SIZE ∧ oqs_decap sk ct = Some ss ∧
    channel x coins p = (p <| session_key := Some (derive_session_key ss) |> <| encrypted := true |>,
      [("session_key", [("ciphertext", JStr (hex ct)); ("encryption_pk", JStr (hex (self_encryption_pk x)))])]).
Proof.
  intros [[Hx _] Hz (sk & Hsk & Hskz & Hpair) [[ct ss] He]] Hp. destruct (encap_sizes _ _ _ _ He) as [Hct _].
  exists ct, ss, sk. split_and!; [done|done|done|by eapply Hpair|]. unfold channel. rewrite Hx, Hp. unfold encapsulate, guard.
  by rewrite Hz, Z.eqb_refl, He.
Qed.

(** C25 Two honest nodes that play the handshake authenticate each other: each
    ends with a connection to the address of the other, in the same format.  If
    both have encryption keys and msgpack is not installed, the session key
    the initiator announces is the one the responder derives, and the channel
    is open on both sides. *)
Theorem handshake_completes `{C : Crypto} `{K : Kem} `{!KemLaws K} `{G : Cipher} `{W : Wire} `{V : P2PEnv} (x y : Self)
  (t t' u u' : Clock) (now : Z) (nx ny coins : string) (i j : nat) (s r : P2P)
  (Hx : honest x) (Hy : honest y) (Hr : ready x y t t' u u' now nx ny i j s r) :
  let h := handshake x y t t' u u' now nx ny coins i j s r in
  ∃ p q, objs h.1 !! i = Some p ∧ objs h.2 !! j = Some q ∧ authenticated p = true ∧ authenticated q = true ∧
    remote_address p = validator_address y ∧ remote_address q = validator_address x ∧ wire_format p = wire_format q ∧
    (HAS_MSGPACK = false → channel_keys x y coins →
      ∃ q' key, objs (handle_session_key y j (sent_data "session_key" (sent h.1)) h.2).2 !! j = Some q' ∧
        session_key p = Some key ∧ session_key q' = Some key ∧ encrypted p = true ∧ encrypted q' = true).
Proof.
  intros h. destruct (handshake_run x y t t' u u' now nx ny coins i j s r Hx Hy Hr)
    as (p & q & c & p1 & w & l & Hp & Hq & Ha & Ha' & Hd & Hd' & Hw & Hw' & Hsk & He & Hc & Hpk & Hsent & _). fold h in Hp, Hq, Hsent.
  exists p, q. split_and!; try done; [congruence|]. intros _ Hck.
  destruct (channel_keys_channel x y coins p1 Hck (Hpk (proj2 (ck_has _ _ _ Hck)) (ck_size _ _ _ Hck)))
    as (ct & ss & sk & E1 & E2 & E3 & E4 & E5). rewrite E5 in Hc. subst c. cbn [fst snd] in *.
  rewrite Hsent. csimpl. rewrite sent_data_last by done. cbn [snd].
  pose proof (wp_session_received y j h.2 q ct ss (JStr (hex (self_encryption_pk x))) sk (proj2 (ck_has _ _ _ Hck)) Hq Ha' E3 E1 E2 E4) as H.
  unfold wp in H. destruct (handle_session_key _ _ _ _) as [o r3]. destruct H as (_ & q' & M & _ & _ & Hk & He').
  exists q', (derive_session_key ss). cbn [fst snd]. split_and!; [by rewrite (proj1 M); apply lookup_insert_eq|done..].
Qed.

(** With msgpack installed on two honest nodes that have encryption keys,
    the handshake cuts itself off: the initiator writes the announcement of
    the session key as a line of JSON, while the responder, once it has the
    confirmation, reads frames of msgpack, so the announcement ends its side
    of the connection. *)
Lemma session_key_cuts_connection `{C : Crypto} `{K : Kem} `{!KemLaws K} `{G : Cipher} `{W : Wire} `{V : P2PEnv} (x y : Self)
  (t t' u u' : Clock) (now : Z) (nx ny coins : string) (i j : nat) (s r : P2P)
  (Hx : honest x) (Hy : honest y) (Hr : ready x y t t' u u' now nx ny i j s r)
  (Hm : HAS_MSGPACK = true) (Hck : channel_keys x y coins) (Hw : ∀ p, objs s !! i = Some p → wire_format p = "json") :
  let h := handshake x y t t' u u' now nx ny coins i j s r in
  ∃ l w data raw q, sent h.1 = l ++ [(i, (w, ("session_key", data)))] ∧ sent_bytes w "session_key" data = Ok raw ∧
    objs h.2 !! j = Some q ∧ ∀ rest, read_message (wire_format q) (raw +:+ rest) = None.
Proof.
  intros h. destruct (handshake_run x y t t' u u' now nx ny coins i j s r Hx Hy Hr)
    as (p & q & c & p1 & w & l & _ & Hq & _ & _ & _ & _ & _ & Hw' & _ & _ & Hc & Hpk & Hsent & p0 & Hp0 & Hwp). fold h in Hq, Hsent.
  destruct (channel_keys_channel x y coins p1 Hck (Hpk (proj2 (ck_has _ _ _ Hck)) (ck_size _ _ _ Hck)))
    as (ct & ss & sk & _ & _ & _ & _ & E5). rewrite E5 in Hc. subst c. cbn [fst snd] in *. rewrite (Hw p0 Hp0) in Hwp. subst w.
  eexists l, "json", _, _, q. split_and!; [exact Hsent|reflexivity|done|]. intros rest.
  rewrite Hw'. unfold preferred_wire_format. rewrite Hm, string_app_assoc. apply json_line_no_frame.
Qed.

(** C40 A node can be impersonated by a relay: whoever connects to an honest
    node with a key of its own, twice, can make any other honest node end a
    handshake believing that it talks to the first, which never spoke to it.
    The answer to a challenge and the confirmation of a handshake sign the same
    text, and neither names the other side. *)
Theorem relay_authenticates `{C : Crypto} `{K : Kem} `{G : Cipher} `{W : Wire} `{V : P2PEnv} (m v y : Self) (tv tv' u u' : Clock) (now : Z)
  (c nv nv' ny proof proof' : string) (k k' j : nat) (sv r : P2P)
  (Hm : honest m) (Hv : honest v) (Hy : honest y)
  (Hlen : str_len c = CHALLENGE_LEN ∧ str_len ny = CHALLENGE_LEN)
  (Hk : is_Some (objs sv !! k) ∧ is_Some (objs sv !! k') ∧ is_Some (objs r !! j))
  (Hrec : recent tv now = true ∧ recent tv' now = true ∧ recent u now = true)
  (Hin : flt (fadd (mono u) AUTH_TIMEOUT) (mono u') = false) (Halone : alone r j (validator_address v))
  (Hp : proof ≠ EmptyString ∧ MLDSA_verify (signing_pk m) (build_auth_message c (validator_address m)) proof = true)
  (Hp' : proof' ≠ EmptyString ∧ MLDSA_verify (signing_pk m) (build_auth_message ny (validator_address m)) proof' = true) :
  ∃ q, objs (relay m v y tv tv' u u' now c nv nv' ny proof proof' k k' j sv r) !! j = Some q ∧
    authenticated q = true ∧ remote_address q = validator_address v.
Proof.
  destruct Hlen as [Hlc Hln], Hk as (Hk1 & Hk2 & Hk3), Hrec as (Hr1 & Hr2 & Hr3), Hp as [Hpn Hpv], Hp' as [Hpn' Hpv']. unfold relay.
  destruct (wp_own_hello v m tv nv k now c proof sv Hv Hm Hk1 Hlc Hr1 Hpn Hpv) as (A1 & A2 & _ & q1 & l1 & M1 & _).
  set (sv1 := (handle_hello_auth_inbound v tv nv k _ sv).2) in *. cbn zeta in A1, A2. set (a := field_bytes _ _) in A1, A2 |- *.
  destruct (wp_own_hello y v u ny j now c a r Hy Hv Hk3 Hlc Hr3 A1 A2) as (_ & _ & B3 & q2 & l2 & M2 & B4 & B5 & B6 & B7 & B8).
  set (r1 := (handle_hello_auth_inbound y u ny j _ r).2) in *. cbn zeta in B3. rewrite B3.
  assert (Hk2' : is_Some (objs sv1 !! k')).
  { rewrite (proj1 M1). destruct (decide (k' = k)) as [->|]; [by rewrite lookup_insert_eq|by rewrite lookup_insert_ne]. }
  destruct (wp_own_hello v m tv' nv' k' now ny proof' sv1 Hv Hm Hk2' Hln Hr2 Hpn' Hpv') as (D1 & D2 & _).
  cbn zeta in D1, D2. set (a' := field_bytes _ _) in D1, D2 |- *.
  assert (Hq2 : objs r1 !! j = Some q2) by (rewrite (proj1 M2); apply lookup_insert_eq).
  pose proof (wp_confirm_received v y u' a' j r1 q2 Hv Hq2 ltac:(by rewrite B4; apply long_nonempty) B6 ltac:(by rewrite B5)
    ltac:(by rewrite B4) (alone_moved _ _ _ _ _ _ M2 Halone) B7 B8) as H. unfold wp in H.
  destruct (handle_auth_confirm _ _ _ _ _) as [o r2]. destruct H as (_ & q & M & E1 & E2 & _).
  exists q. cbn [snd]. split_and!; [by rewrite (proj1 M); apply lookup_insert_eq|done|done].
Qed.

(** C38 Whatever is received, the memory of the limits is bounded: the limiter
    tracks at most ten thousand hosts, each once, and so does the table of
    handshake attempts. *)
Theorem limits_stay_bounded `{C : Crypto} `{K : Kem} `{G : Cipher} `{W : Wire} `{V : P2PEnv} (self : Self) (rate burst : spec_float)
  (es : list event) :
  let s := p2p (net_run self (empty_net rate burst) es) in
  NoDup (buckets (limiter s)).*1 ∧ Z.of_nat (length (buckets (limiter s))) <= MAX_TRACKED ∧
  NoDup (attempts s).*1 ∧ Z.of_nat (length (attempts s)) <= AUTH_ATTEMPTS_CAP.
Proof.
  assert (H : ∀ n, bounded (p2p n) → bounded (p2p (net_run self n es))).
  { induction es as [|e l IH]; intros n Hn; [done|]. apply IH. by apply net_step_bounded. }
  destruct (H (empty_net rate burst)) as [[H1 H2 _] H3 H4]; [|done].
  split; cbn; [split; cbn; [apply NoDup_nil_2|done|set_solver]|done|apply NoDup_nil_2].
Qed.

(** ** Concrete runs *)

Module P2PRun.
#[export] Instance env : P2PEnv := {| safe_inbound_ip := λ _, true |}.
(** A node without msgpack *)
Definition json_wire : Wire :=
  {| HAS_MSGPACK := false; packb := λ _, Raise TypeError; unpackb := λ _, None; decode_utf8 := λ _, None; wire_float := λ r, r |}.
Definition key_of (n : Z) : string := be_bytes 1952 n.
Definition secret_of (n : Z) : string := be_bytes 2400 n.
Lemma key_length n : str_len (key_of n) = MLDSA_PK_SIZE.
Proof. unfold key_of, str_len. by rewrite be_bytes_length. Qed.
Lemma secret_length n : str_len (secret_of n) = MLKEM_SK_SIZE.
Proof. unfold secret_of, str_len. by rewrite be_bytes_length. Qed.
Lemma kem_key_length sk : str_len (ToyKem.pk_of sk) = MLKEM_PK_SIZE.
Proof. unfold ToyKem.pk_of, str_len. by rewrite be_bytes_length. Qed.
#[local] Opaque key_of secret_of ToyKem.pk_of.
Definition node (n : Z) : Self :=
  mkSelf "192.0.2.1" 9000 "node" (key_of n) (key_of n) (derive_address (C := Toy.crypto) (key_of n)) (secure (secret_of n))
    (ToyKem.pk_of (secret_of n)) ∅.
Lemma key_signs n msg : Toy.verify msg ("sig:" +:+ key_of n +:+ ":" +:+ Toy.hash msg) (key_of n) = true.
Proof. unfold Toy.verify. by apply bool_decide_eq_true. Qed.
Lemma node_honest n : honest (C := Toy.crypto) (node n).
Proof.
  split.
  - intros msg. exists ("sig:" +:+ key_of n +:+ ":" +:+ Toy.hash msg). split_and!; [reflexivity|done|apply key_signs].
  - apply key_length.
  - intros E. pose proof (key_length n) as H. cbn in E. by rewrite E in H.
  - reflexivity.
Qed.
Definition clock : Clock := mkClock (float_of_Z 1000) (float_of_Z 50).
Definition with_peers (ps : gmap nat Peer) : P2P := empty_p2p (float_of_Z 20) (float_of_Z 100) <| objs := ps |>.
Definition dialing : P2P := with_peers {[0%nat := new_peer "192.0.2.7" 9000 true]}.
Definition dialed : P2P := with_peers {[0%nat := new_peer "192.0.2.8" 0 false]}.
Definition twice_dialed : P2P := with_peers {[0%nat := new_peer "192.0.2.8" 0 false; 1%nat := new_peer "192.0.2.8" 0 false]}.
Definition nonce (n : Z) : string := be_bytes 32 n.
Lemma nonce_length n : str_len (nonce n) = CHALLENGE_LEN.
Proof. unfold nonce, str_len. by rewrite be_bytes_length. Qed.
Lemma now_recent : recent clock 1000 = true.
Proof. vm_compute. reflexivity. Qed.
Lemma in_time : flt (fadd (mono clock) AUTH_TIMEOUT) (mono clock) = false.
Proof. vm_compute. reflexivity. Qed.
Lemma alone_here ps i a : alone (with_peers ps) i a.
Proof. intros k j p Hin. by apply elem_of_nil in Hin. Qed.
Lemma run_ready : ready (node 1) (node 2) clock clock clock clock 1000 (nonce 3) (nonce 4) 0 0 dialing dialed.
Proof.
  split; [by eexists|by eexists|split; apply nonce_length|exact now_recent|split; exact in_time|split; apply alone_here].
Qed.
Lemma node_keys n : has_encryption_keys (node n) = true.
Proof.
  unfold has_encryption_keys, sb_bool, sb_len. cbn [self_encryption_sk self_encryption_pk node secure sb_buf sb_zeroed].
  rewrite secret_length. cbn. destruct (ToyKem.pk_of _) eqn:H; [|done]. pose proof (kem_key_length (secret_of n)) as E. by rewrite H in E.
Qed.
Lemma run_channel : channel_keys (C := Toy.crypto) (K := ToyKem.kem) (node 1) (node 2) "coins".
Proof.
  split.
  - split; apply node_keys.
  - apply kem_key_length.
  - exists (secret_of 2). split_and!; [reflexivity|apply secret_length|apply ToyKem.pair].
  - by eexists.
Qed.
Definition own_proof (n : Z) (c : string) : string := "sig:" +:+ key_of n +:+ ":" +:+ Toy.hash (build_auth_message c (validator_address (node n))).
Lemma own_proof_ok n c : own_proof n c ≠ EmptyString ∧
  MLDSA_verify (C := Toy.crypto) (signing_pk (node n)) (build_auth_message c (validator_address (node n))) (own_proof n c) = true.
Proof.
  split; [done|]. unfold MLDSA_verify. destruct (is_empty (signing_pk (node n))) eqn:E.
  - pose proof (key_length n) as H. change (signing_pk (node n)) with (key_of n) in E. by destruct (key_of n).
  - apply key_signs.
Qed.
Lemma wire_there (p : Peer) : objs dialing !! 0%nat = Some p → wire_format p = "json".
Proof. cbn. intros [= <-]. reflexivity. Qed.
End P2PRun.
#[local] Existing Instance Toy.crypto.
#[local] Existing Instance ToyKem.kem.
#[local] Existing Instance ToyKem.laws.
#[local] Existing Instance ToyCipher.cipher.
#[local] Existing Instance P2PRun.env.

Lemma handshake_completes_witness :
  let h := handshake (W := P2PRun.json_wire) (P2PRun.node 1) (P2PRun.node 2) P2PRun.clock P2PRun.clock P2PRun.clock P2PRun.clock 1000
    (P2PRun.nonce 3) (P2PRun.nonce 4) "coins" 0 0 P2PRun.dialing P2PRun.dialed in
  ∃ p q' key, objs h.1 !! 0%nat = Some p ∧ remote_address p = validator_address (P2PRun.node 2) ∧
    objs (handle_session_key (P2PRun.node 2) 0 (sent_data "session_key" (sent h.1)) h.2).2 !! 0%nat = Some q' ∧
    session_key p = Some key ∧ session_key q' = Some key.
Proof.
  pose proof (handshake_completes (W := P2PRun.json_wire) (P2PRun.node 1) (P2PRun.node 2) P2PRun.clock P2PRun.clock P2PRun.clock
    P2PRun.clock 1000 (P2PRun.nonce 3) (P2PRun.nonce 4) "coins" 0 0 P2PRun.dialing P2PRun.dialed (P2PRun.node_honest 1)
    (P2PRun.node_honest 2) P2PRun.run_ready) as H.
  cbn zeta in *. destruct H as (p & q & Hp & _ & _ & _ & Hd & _ & _ & H).
  destruct (H eq_refl P2PRun.run_channel) as (q' & key & H1 & H2 & H3 & _). exists p, q', key.
  exact (conj Hp (conj Hd (conj H1 (conj H2 H3)))).
Defined.
Lemma relay_authenticates_witness :
  ∃ q, objs (relay (W := P2PRun.json_wire) (P2PRun.node 5) (P2PRun.node 1) (P2PRun.node 2) P2PRun.clock P2PRun.clock P2PRun.clock P2PRun.clock
      1000 (P2PRun.nonce 3) (P2PRun.nonce 6) (P2PRun.nonce 7) (P2PRun.nonce 4) (P2PRun.own_proof 5 (P2PRun.nonce 3))
      (P2PRun.own_proof 5 (P2PRun.nonce 4)) 0 1 0 P2PRun.twice_dialed P2PRun.dialed) !! 0%nat = Some q ∧
    authenticated q = true ∧ remote_address q = validator_address (P2PRun.node 1).
Proof.
  apply (relay_authenticates (W := P2PRun.json_wire)); try apply P2PRun.node_honest; try apply P2PRun.own_proof_ok;
    try exact P2PRun.in_time; try apply P2PRun.alone_here.
  - split; apply P2PRun.nonce_length.
  - split_and!; by eexists.
  - split_and!; exact P2PRun.now_recent.
Defined.
