(* ===== verification/Webhooks.v ===== *)
(** * Webhooks

    [network/webhooks.py]: registration with its checks against requests to
    inside addresses, listing, deletion, and the delivery of events with
    retries.  The dictionary of a webhook is shared between the table and the
    tasks that deliver to it; an entry never leaves the table, so a task refers
    to it by its id.  A task runs from one [await] to the next: it starts or
    wakes up and posts, then the answer of the post arrives; between two such
    steps anything else may happen.

    The address tests of [ipaddress], [urlparse(url).hostname] and HMAC-SHA256
    are parameters.  A URL, a list of events and a secret are values of the
    request, which the code tests for their type. *)
From S2P Require Import Prelude PyStr Json JsonText.
Open Scope Z_scope.

(** What the code asks of an IP address, after [ipv4_mapped] is unwrapped *)
Record IPAddress := mkIP {
  is_private : bool; is_loopback : bool; is_link_local : bool;
  is_reserved : bool; is_multicast : bool; is_unspecified : bool }.
Class WebEnv := {
  (** [urlparse(url).hostname], which raises [ValueError] on some texts *)
  url_hostname : string → result (option string);
  (** [ipaddress.ip_address(s)], unwrapped; [None] when it raises *)
  ip_address : string → option IPAddress;
  (** [hmac.new(key, msg, hashlib.sha256).hexdigest()] *)
  hmac_sha256 : string → string → string;
}.

Definition MAX_WEBHOOKS : Z := 100.
Definition MAX_URL_LENGTH : Z := 2048.
Definition MAX_SECRET_LENGTH : Z := 256.
Definition MAX_EVENTS_PER_HOOK : Z := 20.
Definition RETRY_DELAYS : list Z := [1; 5; 25].
Definition CONSECUTIVE_FAIL_DISABLE : Z := 10.
Definition VALID_EVENT_TYPES : list string :=
  ["Transfer"; "Notarize"; "Store"; "Share"; "Stake"; "Delegate"; "Unstake"; "KeyRegistered"; "ValidatorRegistered";
   "KeyRevoked"; "Slashed"; "BlockReward"; "EpochTransition"; "TokenIssued"; "TokenMinted"; "TokenTransferred"].

(** ** State *)

Inductive hook_status := Active | Failing | Disabled | Deleted.
#[global] Instance hook_status_eq_dec : EqDecision hook_status.
Proof. solve_decision. Defined.
Definition status_text (s : hook_status) : string :=
  match s with Active => "active" | Failing => "failing" | Disabled => "disabled" | Deleted => "deleted" end.

(** [created_at] is the [repr] of a float. *)
Record Webhook := mkWebhook {
  wh_id : string; wh_url : string; wh_events : list string; wh_secret : string; wh_created_at : string;
  wh_status : hook_status; wh_failures : Z }.
#[export] Instance set_wh_status : Setter wh_status := λ f x,
  mkWebhook (wh_id x) (wh_url x) (wh_events x) (wh_secret x) (wh_created_at x) (f (wh_status x)) (wh_failures x).
#[export] Instance set_wh_failures : Setter wh_failures := λ f x,
  mkWebhook (wh_id x) (wh_url x) (wh_events x) (wh_secret x) (wh_created_at x) (wh_status x) (f (wh_failures x)).

(** A post: where, the text and the headers of its own *)
Record Post := mkPost { po_url : string; po_payload : string; po_signature : string; po_webhook_id : string }.

(** Where a delivery stands: not started; asleep before an attempt; waiting
    for the answer to an attempt.  The text and signature are made once. *)
Inductive stage :=
  | Created
  | Asleep (attempt : nat) (p : Post)
  | Posting (attempt : nat) (p : Post).
Record Task := mkTask { t_hook : string; t_event : dict string JVal; t_block : Z; t_stage : stage }.

Record WebhookManager := mkManager {
  webhooks : dict string Webhook;
  delivery_tasks : gmap nat Task;
  posts : list Post;
}.
#[export] Instance set_webhooks : Setter webhooks := λ f x, mkManager (f (webhooks x)) (delivery_tasks x) (posts x).
#[export] Instance set_delivery_tasks : Setter delivery_tasks := λ f x, mkManager (webhooks x) (f (delivery_tasks x)) (posts x).
#[export] Instance set_posts : Setter posts := λ f x, mkManager (webhooks x) (delivery_tasks x) (f (posts x)).
Definition new_manager : WebhookManager := mkManager [] ∅ [].

Definition live (w : Webhook) : bool := negb (bool_decide (wh_status w = Deleted)).
Definition live_count (m : WebhookManager) : Z := Z.of_nat (length (filter (λ kw : string * Webhook, live kw.2) (webhooks m))).

(** [_safe_webhook] *)
Definition safe_webhook (w : Webhook) : dict string JVal :=
  [("id", JStr (wh_id w)); ("url", JStr (wh_url w)); ("events", JList (JStr <$> wh_events w));
   ("created_at", JFloat (wh_created_at w)); ("status", JStr (status_text (wh_status w)));
   ("consecutive_failures", JInt (wh_failures w))].

Section Webhooks.
Context `{V : WebEnv}.

(** ** Registration *)

Definition inside_address (a : IPAddress) : bool :=
  is_private a || is_loopback a || is_link_local a || is_reserved a || is_multicast a || is_unspecified a.
(** [str.lower] on ASCII letters; a name with others equals none of the list *)
Definition lower_char (c : ascii) : ascii := if is_upper c then chr (ord c + 32) else c.
Fixpoint lower (s : string) : string :=
  match s with EmptyString => EmptyString | String c s' => String (lower_char c) (lower s') end.
Definition LOCAL_NAMES : list string :=
  ["localhost"; "127.0.0.1"; "::1"; "[::1]"; "0.0.0.0"; "metadata.google.internal"; "169.254.169.254"].

(** A text that is no address is a name, unless the error message, which quotes
    it, looks like a refusal. *)
Definition check_url (v : JVal) : result string :=
  match v with
  | JStr url =>
      guard (is_empty url) "url must be a non-empty string" (
      guard (MAX_URL_LENGTH <? str_len url) "url exceeds 2048 characters" (
      guard (negb (String.prefix "http://" url) && negb (String.prefix "https://" url))
        "url must start with http:// or https://" (
      h ← url_hostname url;
      let hostname := default EmptyString h in
      guard (is_empty hostname) "url must contain a valid hostname" (
      guard (bool_decide (lower hostname ∈ LOCAL_NAMES)) "webhook url must not target localhost or metadata endpoints" (
      match ip_address hostname with
      | Some a => guard (inside_address a)
                    "webhook url must not target private/loopback/link-local/multicast/unspecified addresses" (Ok url)
      | None => guard (contains "must not target" hostname) "not an address" (Ok url)
      end)))))
  | _ => Raise (ValueError "url must be a non-empty string")
  end.
Definition check_event (v : JVal) : result string :=
  match v with
  | JStr ev => guard (negb (bool_decide (ev ∈ VALID_EVENT_TYPES))) ("unknown event type: " +:+ ev) (Ok ev)
  | _ => Raise (ValueError "each event must be a string")
  end.
Definition check_events (v : JVal) : result (list string) :=
  match v with
  | JList l =>
      guard (bool_decide (l = [])) "events must be a non-empty list" (
      guard (MAX_EVENTS_PER_HOOK <? Z.of_nat (length l)) "max 20 events per webhook" (
      mmap check_event l))
  | _ => Raise (ValueError "events must be a non-empty list")
  end.
Definition check_secret (v : JVal) : result string :=
  match v with
  | JStr s => guard (is_empty s) "secret must be a non-empty string" (
              guard (MAX_SECRET_LENGTH <? str_len s) "secret exceeds 256 characters" (Ok s))
  | _ => Raise (ValueError "secret must be a non-empty string")
  end.
(** [token] is [secrets.token_hex(16)], [now] the [repr] of [time.time()]. *)
Definition register (token now : string) (url events secret : JVal) : M WebhookManager (dict string JVal) :=
  url ← lift (check_url url);
  events ← lift (check_events events);
  secret ← lift (check_secret secret);
  m ← get;
  if MAX_WEBHOOKS <=? live_count m then raise (ValueError "max 100 webhooks reached")
  else
    let w := mkWebhook token url events secret now Active 0 in
    _ ← modify (set webhooks (λ d, dset d token w));
    mret (safe_webhook w).

(** ** Listing and deletion *)

Definition list_webhooks (m : WebhookManager) : list (dict string JVal) :=
  safe_webhook <$> filter (λ w, live w) (webhooks m).*2.
Definition get_webhook (m : WebhookManager) (webhook_id : string) : option (dict string JVal) :=
  w ← dget (webhooks m) webhook_id;
  if live w then Some (safe_webhook w) else None.
(** The dictionary of a webhook, changed in place *)
Definition change (webhook_id : string) (f : Webhook → Webhook) (m : WebhookManager) : WebhookManager :=
  match dget (webhooks m) webhook_id with
  | Some w => m <| webhooks ::= λ d, dset d webhook_id (f w) |>
  | None => m
  end.
Definition delete_webhook (webhook_id : JVal) : M WebhookManager bool :=
  match webhook_id with
  | JStr i =>
      m ← get;
      match dget (webhooks m) i with
      | Some w =>
          if live w then _ ← modify (change i (set wh_status (λ _, Deleted))); mret true
          else mret false
      | None => mret false
      end
  | _ => raise (ValueError "webhook_id must be a string")
  end.

(** ** Delivery *)

(** [deliver]: one task for each webhook that listens and each event it asked
    for.  Events carry their type as a text, or none. *)
Definition wants (w : Webhook) (e : dict string JVal) : bool :=
  match dget e "type" with Some (JStr t) => bool_decide (t ∈ wh_events w) | _ => false end.
Definition listening (w : Webhook) : bool := bool_decide (wh_status w = Active ∨ wh_status w = Failing).
Definition deliveries (m : WebhookManager) (events : list (dict string JVal)) (block_index : Z) : list Task :=
  mjoin ((λ kw : string * Webhook,
    if listening kw.2 then (λ e, mkTask kw.1 e block_index Created) <$> filter (λ e, wants kw.2 e) events else [])
    <$> webhooks m).
Definition add_task (t : Task) (m : WebhookManager) : WebhookManager :=
  m <| delivery_tasks ::= λ ts, <[fresh (dom ts) := t]> ts |>.
Definition deliver (events : list (dict string JVal)) (block_index : Z) (m : WebhookManager) : WebhookManager :=
  foldl (flip add_task) m (deliveries m events block_index).

(** [compute_webhook_signature] *)
Definition compute_webhook_signature (secret payload : string) : string := hmac_sha256 (utf8 secret) (utf8 payload).
Definition payload_of (now : string) (t : Task) : string :=
  print_spaced (JObj [("event", JObj (t_event t)); ("block_index", JInt (t_block t)); ("timestamp", JFloat now)]).
Definition make_post (now : string) (w : Webhook) (t : Task) : Post :=
  let payload := payload_of now t in
  mkPost (wh_url w) payload (compute_webhook_signature (wh_secret w) payload) (wh_id w).

(** The answer to a post: a status, an error of the resolver that blocks an
    inside address, or another exception *)
Inductive outcome := Answered (status : Z) | Blocked | Errored.
(** [_SSRFSafeResolver.resolve] on the addresses of a name: the first inside
    address blocks the post, a text that is no address is another exception. *)
Fixpoint resolve (addresses : list string) : outcome + list string :=
  match addresses with
  | [] => inr []
  | h :: rest =>
      match ip_address h with
      | None => inl Errored
      | Some a => if inside_address a then inl Blocked
                  else match resolve rest with inr l => inr (h :: l) | inl o => inl o end
      end
  end.
(** No post connects to an address inside. *)
Lemma resolved_outside addresses l : resolve addresses = inr l →
  l = addresses ∧ Forall (λ h, ∃ a, ip_address h = Some a ∧ inside_address a = false) addresses.
Proof.
  revert l. induction addresses as [|h rest IH]; intros l; cbn [resolve]; [intros [= <-]; by split|].
  destruct (ip_address h) as [a|] eqn:Ea; [|done]. destruct (inside_address a) eqn:Ei; [done|].
  destruct (resolve rest) as [|l'] eqn:Er; [done|]. intros [= <-]. destruct (IH l' eq_refl) as [-> Hall].
  split; [done|]. constructor; [by exists a|done].
Qed.

(** The end of a delivery with nothing delivered *)
Definition exhausted (w : Webhook) : Webhook :=
  let w := w <| wh_failures ::= Z.succ |> in
  if CONSECUTIVE_FAIL_DISABLE <=? wh_failures w then w <| wh_status := Disabled |>
  else if bool_decide (wh_status w = Active) then w <| wh_status := Failing |>
  else w.
Definition delivered (w : Webhook) : Webhook :=
  let w := w <| wh_failures := 0 |> in
  if bool_decide (wh_status w = Failing) then w <| wh_status := Active |> else w.
Definition finish (i : nat) (m : WebhookManager) : WebhookManager := m <| delivery_tasks ::= delete i |>.
Definition move (i : nat) (s : stage) (m : WebhookManager) : WebhookManager :=
  m <| delivery_tasks ::= alter (λ t, mkTask (t_hook t) (t_event t) (t_block t) s) i |>.

(** The head of the loop: a deleted webhook ends the task, else it posts. *)
Definition attempt_post (i n : nat) (p : Post) (w : Webhook) (m : WebhookManager) : WebhookManager :=
  if live w then move i (Posting n p) (m <| posts ::= λ l, l ++ [p] |>) else finish i m.
(** Task [i] starts, or wakes up. *)
Definition task_runs (now : string) (i : nat) (m : WebhookManager) : WebhookManager :=
  match delivery_tasks m !! i with
  | None => m
  | Some t =>
      match dget (webhooks m) (t_hook t), t_stage t with
      | Some w, Created => attempt_post i 0 (make_post now w t) w m
      | Some w, Asleep n p => attempt_post i n p w m
      | _, _ => m
      end
  end.
(** The post of task [i] is answered. *)
Definition task_answered (o : outcome) (i : nat) (m : WebhookManager) : WebhookManager :=
  match delivery_tasks m !! i with
  | None => m
  | Some t =>
      match t_stage t with
      | Posting n p =>
          match o with
          | Answered st =>
              if (200 <=? st) && (st <? 300) then finish i (change (t_hook t) delivered m)
              else if (S n <? length RETRY_DELAYS)%nat then move i (Asleep (S n) p) m
              else finish i (change (t_hook t) exhausted m)
          | Blocked => finish i m
          | Errored =>
              if (S n <? length RETRY_DELAYS)%nat then move i (Asleep (S n) p) m
              else finish i (change (t_hook t) exhausted m)
          end
      | _ => m
      end
  end.
(** [stop]: a task cancelled at its [await] changes nothing more. *)
Definition stop (m : WebhookManager) : WebhookManager := m <| delivery_tasks := ∅ |>.

(** ** Runs *)

Inductive hook_event :=
  | HRegister (token now : string) (url events secret : JVal)
  | HDelete (webhook_id : JVal)
  | HDeliver (events : list (dict string JVal)) (block_index : Z)
  | HRun (now : string) (i : nat)
  | HAnswer (o : outcome) (i : nat)
  | HStop.
Definition hook_step (m : WebhookManager) (e : hook_event) : WebhookManager :=
  match e with
  | HRegister tok now u ev s => (register tok now u ev s m).2
  | HDelete i => (delete_webhook i m).2
  | HDeliver evs b => deliver evs b m
  | HRun now i => task_runs now i m
  | HAnswer o i => task_answered o i m
  | HStop => stop m
  end.
Definition run_hooks : WebhookManager → list hook_event → WebhookManager := foldl hook_step.
(** The ids drawn for the registrations of a run *)
Definition tokens_of (es : list hook_event) : list string :=
  omap (λ e, match e with HRegister tok _ _ _ _ => Some tok | _ => None end) es.

(** ** The table of webhooks *)

(** What the checks of the registration and the count of failures keep true *)
Record hook_ok (k : string) (w : Webhook) : Prop := mkHookOk {
  hk_id : wh_id w = k;
  hk_url : check_url (JStr (wh_url w)) = Ok (wh_url w);
  hk_events : check_events (JList (JStr <$> wh_events w)) = Ok (wh_events w);
  hk_secret : check_secret (JStr (wh_secret w)) = Ok (wh_secret w);
  hk_failures : 0 <= wh_failures w;
  hk_active : wh_status w = Active → wh_failures w = 0;
  hk_failing : wh_status w = Failing → 1 <= wh_failures w < CONSECUTIVE_FAIL_DISABLE }.

(** Entries stay, with their address, events and secret. *)
Definition same_hook (w w' : Webhook) : Prop :=
  wh_url w' = wh_url w ∧ wh_events w' = wh_events w ∧ wh_secret w' = wh_secret w.
Definition extends (m m' : WebhookManager) : Prop :=
  ∀ k w, dget (webhooks m) k = Some w → ∃ w', dget (webhooks m') k = Some w' ∧ same_hook w w'.

(** A post goes to the address of a webhook, signed with its secret. *)
Definition post_ok (m : WebhookManager) (p : Post) : Prop := ∃ w,
  dget (webhooks m) (po_webhook_id p) = Some w ∧ po_url p = wh_url w ∧
  po_signature p = compute_webhook_signature (wh_secret w) (po_payload p).
Definition stage_ok (m : WebhookManager) (s : stage) : Prop :=
  match s with Created => True | Asleep n p | Posting n p => (n < length RETRY_DELAYS)%nat ∧ post_ok m p end.
Record hooks_ok (m : WebhookManager) : Prop := mkHooksOk {
  ho_keys : NoDup (webhooks m).*1;
  ho_hooks : ∀ k w, dget (webhooks m) k = Some w → hook_ok k w;
  ho_tasks : ∀ i t, delivery_tasks m !! i = Some t → is_Some (dget (webhooks m) (t_hook t)) ∧ stage_ok m (t_stage t);
  ho_posts : Forall (post_ok m) (posts m) }.

Lemma extends_some m m' k : extends m m' → is_Some (dget (webhooks m) k) → is_Some (dget (webhooks m') k).
Proof. intros He [w Hw]. destruct (He k w Hw) as (w' & Hw' & _). by exists w'. Qed.
Lemma extends_post m m' p : extends m m' → post_ok m p → post_ok m' p.
Proof.
  intros He (w & Hw & Hu & Hs). destruct (He _ _ Hw) as (w' & Hw' & Eu & _ & Es). exists w'. by rewrite Eu, Es.
Qed.
Lemma extends_stage m m' s : extends m m' → stage_ok m s → stage_ok m' s.
Proof. intros He. destruct s; cbn; [done| |]; intros [? ?%(extends_post m m')]; done. Qed.

(** The table changed, the tasks and posts as they were *)
Lemma table_ok m d : hooks_ok m → NoDup d.*1 → (∀ k w, dget d k = Some w → hook_ok k w) →
  extends m (m <| webhooks := d |>) → hooks_ok (m <| webhooks := d |>).
Proof.
  intros [_ _ Ht Hp] Hd Hh He. split; [done|done| |].
  - intros i t Hi. destruct (Ht i t Hi) as [H1 H2]. split; [by eapply extends_some|by eapply extends_stage].
  - eapply list.Forall_impl; [exact Hp|]. intros p. by apply extends_post.
Qed.
Lemma change_ok k f m : hooks_ok m → (∀ w, same_hook w (f w) ∧ wh_id (f w) = wh_id w) →
  (∀ w, hook_ok k w → hook_ok k (f w)) → hooks_ok (change k f m).
Proof.
  intros Hm Hf Hok. unfold change. destruct (dget (webhooks m) k) as [w|] eqn:E; [|done].
  apply (table_ok m (dset (webhooks m) k (f w))); [done|by apply dset_NoDup, Hm| |].
  - intros k' w'. rewrite dget_dset. case_decide as Ek; [|by apply (ho_hooks m)].
    intros [= <-]. subst k'. by apply Hok, (ho_hooks m Hm).
  - intros k' w' Hw'. cbn. rewrite dget_dset. case_decide as Ek; [|by exists w'].
    subst k'. rewrite E in Hw'. injection Hw' as <-. exists (f w). split; [done|]. apply Hf.
Qed.
Lemma exhausted_same w : same_hook w (exhausted w) ∧ wh_id (exhausted w) = wh_id w.
Proof. unfold exhausted. cbn zeta. by repeat case_match. Qed.
Lemma delivered_same w : same_hook w (delivered w) ∧ wh_id (delivered w) = wh_id w.
Proof. unfold delivered. cbn zeta. by case_match. Qed.
Lemma exhausted_ok k w : hook_ok k w → hook_ok k (exhausted w).
Proof.
  intros [H1 H2 H3 H4 H5 H6 H7]. unfold exhausted. cbn zeta. cbn [wh_failures wh_status set set_wh_failures].
  destruct (Z.leb_spec CONSECUTIVE_FAIL_DISABLE (Z.succ (wh_failures w))) as [|Hlt]; [split; cbn; done || lia|].
  case_bool_decide as Ea.
  - split; cbn; try done; try lia.
  - split; cbn; try done; lia.
Qed.
Lemma delivered_ok k w : hook_ok k w → hook_ok k (delivered w).
Proof.
  intros [H1 H2 H3 H4 H5 H6 H7]. unfold delivered. cbn zeta. case_bool_decide as Ef; split; cbn in *; try done; try lia.
Qed.

(** Tasks and posts changed, the table as it was *)
Lemma task_table_ok m ts ps : hooks_ok m →
  (∀ i t, ts !! i = Some t → is_Some (dget (webhooks m) (t_hook t)) ∧ stage_ok m (t_stage t)) →
  Forall (post_ok m) ps → hooks_ok (mkManager (webhooks m) ts ps).
Proof. intros [Hk Hh _ _] Ht Hp. by split. Qed.
Lemma finish_ok i m : hooks_ok m → hooks_ok (finish i m).
Proof.
  intros Hm. apply (task_table_ok m (delete i (delivery_tasks m))); [done| |apply Hm].
  intros j t [_ Hj]%lookup_delete_Some. by apply (ho_tasks m Hm j).
Qed.
Lemma move_ok i s m : hooks_ok m → stage_ok m s → hooks_ok (move i s m).
Proof.
  intros Hm Hs. apply (task_table_ok m (alter _ i (delivery_tasks m))); [done| |apply Hm].
  intros j t Hj. apply lookup_alter_Some in Hj as [(-> & t0 & Ht0 & ->)|[_ Hj]]; [|by apply (ho_tasks m Hm j)].
  split; [|done]. by destruct (ho_tasks m Hm _ _ Ht0).
Qed.
Lemma add_task_ok t m : hooks_ok m → is_Some (dget (webhooks m) (t_hook t)) → t_stage t = Created → hooks_ok (add_task t m).
Proof.
  intros Hm Hk Hs. apply (task_table_ok m (<[_:=t]> (delivery_tasks m))); [done| |apply Hm].
  intros j t' [[_ <-]|[_ Hj]]%lookup_insert_Some; [by rewrite Hs|by apply (ho_tasks m Hm j)].
Qed.
Lemma attempt_ok i n p w m : hooks_ok m → (n < length RETRY_DELAYS)%nat → post_ok m p → hooks_ok (attempt_post i n p w m).
Proof.
  intros Hm Hn Hp. unfold attempt_post. destruct (live w); [|by apply finish_ok].
  apply (move_ok i (Posting n p)); [|by split]. apply (task_table_ok m (delivery_tasks m)); [done|apply Hm|].
  apply list.Forall_app. split; [apply Hm|by constructor].
Qed.
Lemma made_post_ok now m t w : hooks_ok m → dget (webhooks m) (t_hook t) = Some w → post_ok m (make_post now w t).
Proof. intros Hm Hw. exists w. cbn. by rewrite (hk_id _ _ (ho_hooks m Hm _ _ Hw)). Qed.

Lemma deliveries_in m events b t : hooks_ok m → t ∈ deliveries m events b →
  is_Some (dget (webhooks m) (t_hook t)) ∧ t_stage t = Created.
Proof.
  intros Hm (l & Ht & ([k w] & -> & Hkw)%list_elem_of_fmap)%list_elem_of_join. cbn in Ht.
  destruct (listening w); [|by apply elem_of_nil in Ht]. apply list_elem_of_fmap in Ht as (e & -> & _). cbn.
  split; [|done]. exists w. apply dget_elem; [apply Hm|done].
Qed.
Lemma deliver_ok events b m : hooks_ok m → hooks_ok (deliver events b m).
Proof.
  intros Hm. unfold deliver. assert (Hin : Forall (λ t, is_Some (dget (webhooks m) (t_hook t)) ∧ t_stage t = Created)
    (deliveries m events b)) by (apply Forall_intro; intros t; by apply deliveries_in).
  revert Hin. generalize (deliveries m events b). intros ts. revert m Hm.
  induction ts as [|t ts IH]; intros m Hm Hin; [done|]. inversion_clear Hin as [|? ? [H1 H2] Hin']. cbn [foldl flip].
  apply IH; [by apply add_task_ok|done].
Qed.

Lemma mmap_events l es : mmap check_event l = Ok es → mmap check_event (JStr <$> es) = Ok es ∧ length es = length l.
Proof.
  revert es. induction l as [|v l IH]; intros es; cbn; [by intros [= <-]|].
  destruct (check_event v) as [e|] eqn:E; cbn; [|done]. destruct (mmap check_event l) as [es'|]; cbn; [|done].
  intros [= <-]. destruct (IH es' eq_refl) as [IH1 IH2]. csimpl. split; [|by f_equal].
  destruct v; try done. cbn in E. unfold guard in E. destruct (negb _) eqn:Hg; [done|]. injection E as <-.
  cbn. unfold guard. rewrite Hg. cbn. by rewrite IH1.
Qed.
Lemma check_events_idem v es : check_events v = Ok es → check_events (JList (JStr <$> es)) = Ok es.
Proof.
  destruct v as [| | | | |l|]; try done. unfold check_events, guard. case_bool_decide as Hnil; [done|].
  destruct (Z.ltb_spec MAX_EVENTS_PER_HOOK (Z.of_nat (length l))) as [|Hle]; [done|]. intros H.
  destruct (mmap_events l es H) as [H1 H2]. rewrite bool_decide_eq_false_2, length_fmap, H2.
  - destruct (Z.ltb_spec MAX_EVENTS_PER_HOOK (Z.of_nat (length l))); [lia|done].
  - intros Hes%fmap_nil_inv. subst es. by apply Hnil, nil_length_inv.
Qed.
Lemma check_url_idem v url : check_url v = Ok url → v = JStr url.
Proof.
  destruct v; try done. cbn. unfold guard. repeat case_match; try done; cbn.
  all: destruct (url_hostname s); cbn; [|done]; repeat case_match; try done; congruence.
Qed.
Lemma check_secret_idem v s : check_secret v = Ok s → v = JStr s.
Proof. destruct v; try done. cbn. unfold guard. repeat case_match; try done; congruence. Qed.
Lemma register_ok tok now url events secret m : hooks_ok m → dget (webhooks m) tok = None →
  hooks_ok (register tok now url events secret m).2.
Proof.
  intros Hm Hf. unfold register, mbind, M_bind, lift. destruct (check_url url) as [u|] eqn:Eu; [|done].
  destruct (check_events events) as [es|] eqn:Ee; [|done]. destruct (check_secret secret) as [sec|] eqn:Es; [|done].
  cbn [get]. destruct (MAX_WEBHOOKS <=? live_count m); [done|]. cbn.
  pose proof (check_url_idem _ _ Eu) as ->. pose proof (check_secret_idem _ _ Es) as ->.
  apply (table_ok m (dset (webhooks m) tok _)); [done|by apply dset_NoDup, Hm| |].
  - intros k w. rewrite dget_dset. case_decide as Ek; [|by apply (ho_hooks m)]. intros [= <-]. subst k.
    split; try done. by eapply check_events_idem.
  - intros k w Hw. cbn. rewrite dget_dset. case_decide as Ek; [|by exists w]. congruence.
Qed.

(** ** Every step *)

Lemma post_done_ok o k n p i m : hooks_ok m → post_ok m p → 
  hooks_ok (if (S n <? length RETRY_DELAYS)%nat then move i (Asleep (S n) p) m else finish i (change k exhausted m)) ∧
  hooks_ok (match o with
            | Answered _ => finish i (change k delivered m)
            | _ => finish i m end).
Proof.
  intros Hm Hp. split.
  - destruct (Nat.ltb_spec (S n) (length RETRY_DELAYS)); [by apply move_ok|].
    apply finish_ok, change_ok; [done|apply exhausted_same|apply exhausted_ok].
  - destruct o; apply finish_ok; [|done|done]. apply change_ok; [done|apply delivered_same|apply delivered_ok].
Qed.
Lemma hook_step_ok m e : hooks_ok m → (∀ k, k ∈ tokens_of [e] → dget (webhooks m) k = None) → hooks_ok (hook_step m e).
Proof.
  intros Hm Hf. destruct e as [tok now u ev s|v|evs b|now i|o i|]; cbn [hook_step].
  - apply register_ok; [done|]. apply Hf. by left.
  - destruct v as [| | | |k| |]; try done. unfold delete_webhook, mbind, M_bind. cbn [get].
    destruct (dget (webhooks m) k) as [w|]; [|done]. destruct (live w); [|done]. cbn.
    apply change_ok; [done|done|]. intros w' [H1 H2 H3 H4 H5 H6 H7]. by split.
  - by apply deliver_ok.
  - unfold task_runs. destruct (delivery_tasks m !! i) as [t|] eqn:Et; [|done].
    destruct (ho_tasks m Hm i t Et) as [[w Hw] Hs]. rewrite Hw.
    destruct (t_stage t) as [|n p|n p]; [|by apply attempt_ok; destruct Hs|done].
    apply attempt_ok; [done|cbn; lia|by apply made_post_ok].
  - unfold task_answered. destruct (delivery_tasks m !! i) as [t|] eqn:Et; [|done].
    destruct (ho_tasks m Hm i t Et) as [Hk Hs]. destruct (t_stage t) as [|n p|n p]; [done|done|].
    destruct Hs as [Hn Hp]. destruct (post_done_ok o (t_hook t) n p i m Hm Hp) as [H1 H2].
    destruct o; [destruct (_ && _)|..]; done.
  - by apply (task_table_ok m ∅ (posts m)); [|intros ? ?|apply Hm].
Qed.

Lemma change_keys k f m : (webhooks (change k f m)).*1 = (webhooks m).*1.
Proof.
  unfold change. destruct (dget (webhooks m) k) as [w|] eqn:E; [|done]. cbn. apply dset_keys_old.
  apply dget_Some_elem in E. by apply (list_elem_of_fmap_2 fst) in E.
Qed.
Lemma change_some k f m k' : is_Some (dget (webhooks (change k f m)) k') ↔ is_Some (dget (webhooks m) k').
Proof.
  rewrite <-!not_eq_None_Some. by rewrite !dget_None, change_keys.
Qed.
Lemma add_tasks_table ts m : webhooks (foldl (flip add_task) m ts) = webhooks m.
Proof. revert m. induction ts as [|t ts IH]; intros m; [done|]. cbn. by rewrite IH. Qed.
Lemma hook_step_keys m e k : is_Some (dget (webhooks (hook_step m e)) k) → is_Some (dget (webhooks m) k) ∨ k ∈ tokens_of [e].
Proof.
  destruct e as [tok now u ev s|v|evs b|now i|o i|]; cbn [hook_step].
  - unfold register, mbind, M_bind, lift. destruct (check_url u); [|by left]. destruct (check_events ev); [|by left].
    destruct (check_secret s); [|by left]. cbn [get].
    destruct (MAX_WEBHOOKS <=? live_count m); [by left|]. cbn. rewrite dget_dset. case_decide; [right; subst; by left|by left].
  - destruct v as [| | | |j| |]; [by left..| |by left|by left]. unfold delete_webhook, mbind, M_bind. cbn [get].
    destruct (dget (webhooks m) j) as [w|]; [|by left]. destruct (live w); [|by left]. cbn. rewrite change_some. by left.
  - unfold deliver. rewrite add_tasks_table. by left.
  - unfold task_runs, attempt_post. repeat case_match; by left.
  - unfold task_answered. repeat case_match; intros Hk; left; revert Hk; cbn; by rewrite ?change_some.
  - by left.
Qed.

Lemma hook_run_ok es m : hooks_ok m → NoDup (tokens_of es) → (∀ k, k ∈ tokens_of es → dget (webhooks m) k = None) →
  hooks_ok (run_hooks m es).
Proof.
  revert m. induction es as [|e es IH]; intros m Hm Hnd Hf; [done|].
  assert (Hsplit : tokens_of (e :: es) = tokens_of [e] ++ tokens_of es) by (destruct e; done).
  rewrite Hsplit in Hnd, Hf. apply list.NoDup_app in Hnd as (_ & Hdis & Hnd). cbn [run_hooks foldl]. apply IH.
  - apply hook_step_ok; [done|]. intros k Hk. apply Hf. apply elem_of_app. by left.
  - done.
  - intros k Hk. apply eq_None_not_Some. intros [Hs|Hs]%hook_step_keys.
    + assert (dget (webhooks m) k = None) as Hn by (apply Hf, elem_of_app; by right). rewrite Hn in Hs. by destruct Hs.
    + by apply (Hdis k).
Qed.
Lemma run_keys es k : is_Some (dget (webhooks (run_hooks new_manager es)) k) → k ∈ tokens_of es.
Proof.
  induction es as [|e es IH] using rev_ind; [by intros []|]. unfold run_hooks. rewrite foldl_app.
  assert (Ht : tokens_of (es ++ [e]) = tokens_of es ++ tokens_of [e]) by apply omap_app. rewrite Ht, elem_of_app.
  intros [H|H]%hook_step_keys; [left; by apply IH|by right].
Qed.
Lemma new_manager_ok : hooks_ok new_manager.
Proof. split; cbn; [constructor|done|done|constructor]. Qed.

(** ** Attempts *)

(** The posts a task may still make *)
Definition attempts_left (t : Task) : Z :=
  match t_stage t with Created => 3 | Asleep n _ => 3 - Z.of_nat n | Posting n _ => 2 - Z.of_nat n end.
Definition post_budget (m : WebhookManager) : Z := Z.of_nat (length (posts m)) + msum (attempts_left <$> delivery_tasks m).
Definition is_delivery (e : hook_event) : bool := match e with HDeliver _ _ => true | _ => false end.

Lemma attempts_left_nonneg m i t : hooks_ok m → delivery_tasks m !! i = Some t → 0 <= attempts_left t <= 3.
Proof.
  intros Hm Ht. destruct (ho_tasks m Hm i t Ht) as [_ Hs]. unfold attempts_left.
  destruct (t_stage t) as [|n p|n p]; cbn in Hs |- *; lia.
Qed.
Lemma msum_bound `{Countable K} (mm : gmap K Z) b : (∀ k x, mm !! k = Some x → 0 <= x <= b) →
  0 <= msum mm <= b * Z.of_nat (size mm).
Proof.
  induction mm as [|k x mm Hk IH] using map_ind; intros Hb; [change (0 <= 0 <= b * 0); lia|].
  rewrite msum_insert_new, map_size_insert_None by done.
  pose proof (Hb k x (lookup_insert_eq _ _ _)). assert (0 <= msum mm <= b * Z.of_nat (size mm)); [|lia].
  apply IH. intros k' x' Hx. apply (Hb k'). rewrite lookup_insert_ne; [done|]. intros ->. congruence.
Qed.
Lemma budget_finish i m : hooks_ok m → post_budget (finish i m) <= post_budget m.
Proof.
  intros Hm. unfold post_budget, finish. cbn. rewrite fmap_delete, msum_delete. unfold get_or. rewrite lookup_fmap.
  destruct (delivery_tasks m !! i) as [t|] eqn:Et; cbn; [|lia]. pose proof (attempts_left_nonneg m i t Hm Et). lia.
Qed.
Lemma msum_alter_tasks f i t (ts : gmap nat Task) : ts !! i = Some t →
  msum (attempts_left <$> alter f i ts) = msum (attempts_left <$> ts) - attempts_left t + attempts_left (f t).
Proof.
  intros Ht. assert (alter f i ts = <[i := f t]> ts) as -> by (apply map_eq; intros j;
    destruct (decide (i = j)) as [<-|]; [by rewrite lookup_alter_eq, Ht, lookup_insert_eq|
    by rewrite lookup_alter_ne, lookup_insert_ne]).
  rewrite fmap_insert, msum_insert. unfold get_or. rewrite lookup_fmap, Ht. done.
Qed.
Lemma budget_move i s m t : delivery_tasks m !! i = Some t →
  post_budget (move i s m) = post_budget m - attempts_left t + attempts_left (mkTask (t_hook t) (t_event t) (t_block t) s).
Proof. intros Ht. unfold post_budget, move. cbn. rewrite (msum_alter_tasks _ _ t) by done. lia. Qed.
Lemma budget_change k f m : post_budget (change k f m) = post_budget m.
Proof. unfold change. by destruct (dget _ _). Qed.
Lemma budget_attempt i n p w m t : hooks_ok m → delivery_tasks m !! i = Some t → attempts_left t = 3 - Z.of_nat n →
  post_budget (attempt_post i n p w m) <= post_budget m.
Proof.
  intros Hm Ht Hl. unfold attempt_post. destruct (live w); [|by apply budget_finish].
  rewrite (budget_move i _ _ t) by done. unfold post_budget. cbn. rewrite length_app. cbn. lia.
Qed.
Lemma finish_change_budget i k f m : hooks_ok m → hooks_ok (change k f m) → post_budget (finish i (change k f m)) <= post_budget m.
Proof. intros Hm Hc. etransitivity; [by apply budget_finish|]. by rewrite budget_change. Qed.
Lemma hook_step_budget m e : hooks_ok m → is_delivery e = false → post_budget (hook_step m e) <= post_budget m.
Proof.
  intros Hm He. destruct e as [tok now u ev s|v|evs b|now i|o i|]; cbn [hook_step]; [..|done| | |].
  - unfold register, mbind, M_bind, lift. destruct (check_url u); [|done]. destruct (check_events ev); [|done].
    destruct (check_secret s); [|done]. cbn [get]. by destruct (MAX_WEBHOOKS <=? live_count m).
  - destruct v as [| | | |k| |]; try done. unfold delete_webhook, mbind, M_bind. cbn [get].
    destruct (dget (webhooks m) k) as [w|]; [|done]. destruct (live w); [|done]. cbn. by rewrite budget_change.
  - unfold task_runs. destruct (delivery_tasks m !! i) as [t|] eqn:Et; [|done].
    destruct (dget (webhooks m) (t_hook t)) as [w|]; [|done].
    destruct (t_stage t) as [|n p|n p] eqn:Es; [| |done]; apply (budget_attempt _ _ _ _ _ t); try done;
      unfold attempts_left; by rewrite Es.
  - unfold task_answered. destruct (delivery_tasks m !! i) as [t|] eqn:Et; [|done].
    destruct (t_stage t) as [|n p|n p] eqn:Es; [done|done|].
    assert (Hd : post_budget (finish i (change (t_hook t) delivered m)) <= post_budget m).
    { apply finish_change_budget; [done|]. apply change_ok; [done|apply delivered_same|apply delivered_ok]. }
    assert (Hr : post_budget (if (S n <? length RETRY_DELAYS)%nat then move i (Asleep (S n) p) m
                              else finish i (change (t_hook t) exhausted m)) <= post_budget m).
    { destruct (S n <? length RETRY_DELAYS)%nat.
      - rewrite (budget_move i _ _ t) by done. unfold attempts_left. rewrite Es. cbn [t_stage]. lia.
      - apply finish_change_budget; [done|]. apply change_ok; [done|apply exhausted_same|apply exhausted_ok]. }
    destruct o; [by destruct (_ && _)|by apply budget_finish|done].
  - unfold post_budget, stop. cbn. rewrite fmap_empty, msum_empty.
    destruct (msum_bound (attempts_left <$> delivery_tasks m) 3); [|lia].
    intros k x. rewrite lookup_fmap. intros (t & Ht & ->)%fmap_Some. by apply (attempts_left_nonneg m k).
Qed.

Lemma tasks_budget m : hooks_ok m → 0 <= msum (attempts_left <$> delivery_tasks m) <= 3 * Z.of_nat (size (delivery_tasks m)).
Proof.
  intros Hm. rewrite <-(map_size_fmap attempts_left). apply msum_bound.
  intros k x. rewrite lookup_fmap. intros (t & Ht & ->)%fmap_Some. by apply (attempts_left_nonneg m k).
Qed.
Lemma run_budget es m : hooks_ok m → NoDup (tokens_of es) → (∀ k, k ∈ tokens_of es → dget (webhooks m) k = None) →
  forallb (negb ∘ is_delivery) es = true → post_budget (run_hooks m es) <= post_budget m.
Proof.
  induction es as [|e es IH] using rev_ind; intros Hm Hnd Hf Hno; [done|].
  assert (Ht : tokens_of (es ++ [e]) = tokens_of es ++ tokens_of [e]) by apply omap_app.
  rewrite Ht in Hnd, Hf. apply list.NoDup_app in Hnd as (Hes & _ & _).
  rewrite forallb_app in Hno. apply andb_true_iff in Hno as [Hno He]. cbn in He. rewrite andb_true_r, negb_true_iff in He.
  assert (Hf' : ∀ k, k ∈ tokens_of es → dget (webhooks m) k = None) by (intros k Hk; apply Hf, elem_of_app; by left).
  unfold run_hooks. rewrite foldl_app. cbn. etransitivity; [|by apply IH]. apply hook_step_budget; [by apply hook_run_ok|done].
Qed.

(** ** What one step does to a webhook *)

(** The transitions of the status; the last is that of a delivery that gives
    up after the webhook was deleted. *)
Definition MOVES : list (hook_status * hook_status) :=
  [(Active, Failing); (Failing, Active); (Failing, Disabled);
   (Active, Deleted); (Failing, Deleted); (Disabled, Deleted); (Deleted, Disabled)].
Definition moved (w w' : Webhook) : Prop :=
  same_hook w w' ∧ (wh_status w' = wh_status w ∨ (wh_status w, wh_status w') ∈ MOVES).
Lemma hook_moved_refl w : moved w w.
Proof. split; [done|by left]. Qed.
Lemma exhausted_moved k w : hook_ok k w → moved w (exhausted w).
Proof.
  intros [_ _ _ _ H5 H6 H7]. split; [apply exhausted_same|]. unfold exhausted. cbn zeta.
  cbn [wh_failures wh_status set set_wh_failures]. unfold CONSECUTIVE_FAIL_DISABLE.
  destruct (Z.leb_spec 10 (Z.succ (wh_failures w))).
  - cbn. destruct (wh_status w) eqn:Es; [specialize (H6 eq_refl); lia|right; set_solver|by left|right; set_solver].
  - case_bool_decide as Ea; cbn; [|by left]. rewrite Ea. right. set_solver.
Qed.
Lemma delivered_moved w : moved w (delivered w).
Proof.
  split; [apply delivered_same|]. unfold delivered. cbn zeta. cbn [wh_failures wh_status set set_wh_failures].
  case_bool_decide as Ef; cbn; [|by left]. rewrite Ef. right. set_solver.
Qed.
Lemma change_moves j f m k w : dget (webhooks m) k = Some w → moved w (f w) →
  ∃ w', dget (webhooks (change j f m)) k = Some w' ∧ moved w w'.
Proof.
  intros Hk Hf. unfold change. destruct (dget (webhooks m) j) as [w0|] eqn:Ej; [|exists w; split; [done|apply hook_moved_refl]].
  cbn. rewrite dget_dset. case_decide as E; [|exists w; split; [done|apply hook_moved_refl]].
  subst. exists (f w0). split; [done|]. congruence.
Qed.
Lemma hook_step_moves m e k w : hooks_ok m → (∀ k, k ∈ tokens_of [e] → dget (webhooks m) k = None) →
  dget (webhooks m) k = Some w → ∃ w', dget (webhooks (hook_step m e)) k = Some w' ∧ moved w w'.
Proof.
  intros Hm Hf Hk. pose proof (hook_moved_refl w) as Hr.
  destruct e as [tok now u ev s|v|evs b|now i|o i|]; cbn [hook_step]; [| |exists w; unfold deliver; by rewrite add_tasks_table|..|by exists w].
  - unfold register, mbind, M_bind, lift. destruct (check_url u); [|by exists w]. destruct (check_events ev); [|by exists w].
    destruct (check_secret s); [|by exists w]. cbn [get]. destruct (MAX_WEBHOOKS <=? live_count m); [by exists w|]. cbn.
    rewrite dget_dset_ne; [by exists w|]. intros ->. assert (dget (webhooks m) tok = None) as Hn by (apply Hf; by left). congruence.
  - destruct v as [| | | |j| |]; try by exists w. unfold delete_webhook, mbind, M_bind. cbn [get].
    destruct (dget (webhooks m) j) as [w0|] eqn:Ej; [|by exists w]. destruct (live w0) eqn:El; [|by exists w]. cbn.
    unfold change. rewrite Ej. cbn. rewrite dget_dset. case_decide; [|by exists w]. subst k. rewrite Hk in Ej. injection Ej as <-.
    eexists. split; [done|]. split; [done|]. right. cbn. unfold live in El. destruct (wh_status w); [set_solver..|done].
  - unfold task_runs, attempt_post. repeat case_match; by exists w.
  - unfold task_answered. destruct (delivery_tasks m !! i) as [t|]; [|by exists w].
    pose proof (change_moves (t_hook t) delivered m k w Hk (delivered_moved w)).
    pose proof (change_moves (t_hook t) exhausted m k w Hk (exhausted_moved k w (ho_hooks m Hm k w Hk))).
    repeat case_match; done || by exists w.
Qed.

(** ** Secrets *)

Definition veil (w : Webhook) : Webhook :=
  mkWebhook (wh_id w) (wh_url w) (wh_events w) "*" (wh_created_at w) (wh_status w) (wh_failures w).
Definition veil_post (p : Post) : Post := mkPost (po_url p) (po_payload p) EmptyString (po_webhook_id p).
Definition veil_task (t : Task) : Task := mkTask (t_hook t) (t_event t) (t_block t)
  match t_stage t with Created => Created | Asleep n p => Asleep n (veil_post p) | Posting n p => Posting n (veil_post p) end.
(** Two states that differ in secrets and signatures only *)
Definition alike (m m' : WebhookManager) : Prop :=
  prod_map id veil <$> webhooks m = prod_map id veil <$> webhooks m' ∧
  veil_task <$> delivery_tasks m = veil_task <$> delivery_tasks m'.
(** Two requests that differ in a secret that is accepted *)
Definition veil_event (e : hook_event) : hook_event :=
  match e with
  | HRegister tok now u ev s => HRegister tok now u ev (match check_secret s with Ok _ => JStr "*" | Raise _ => s end)
  | e => e
  end.
Definition answer_of (e : hook_event) (m : WebhookManager) : result JVal :=
  match e with
  | HRegister tok now u ev s => JObj <$> (register tok now u ev s m).1
  | HDelete i => JBool <$> (delete_webhook i m).1
  | _ => Ok JNull
  end.

Lemma dget_veil (d : dict string Webhook) k : dget (prod_map id veil <$> d) k = veil <$> dget d k.
Proof. induction d as [|[k' w] d IH]; [done|]. csimpl. by case_decide. Qed.
Lemma dset_veil (d : dict string Webhook) k w :
  prod_map id veil <$> dset d k w = dset (prod_map id veil <$> d) k (veil w).
Proof. induction d as [|[k' w'] d IH]; [done|]. csimpl. case_decide; csimpl; [done|]. by rewrite IH. Qed.
Lemma live_veil w : live (veil w) = live w.
Proof. done. Qed.
Lemma filter_veil (d : dict string Webhook) :
  filter (λ kw : string * Webhook, live kw.2) (prod_map id veil <$> d) =
  prod_map id veil <$> filter (λ kw : string * Webhook, live kw.2) d.
Proof.
  induction d as [|[k w] d IH]; [done|]. csimpl. rewrite !filter_cons. cbn [snd prod_map]. rewrite live_veil, IH.
  by case_decide.
Qed.

Section Alike.
Context (m m' : WebhookManager) (Ha : alike m m').
Lemma alike_get k : veil <$> dget (webhooks m) k = veil <$> dget (webhooks m') k.
Proof. destruct Ha as [H _]. by rewrite <-!dget_veil, H. Qed.
Lemma alike_count : live_count m = live_count m'.
Proof.
  destruct Ha as [H _]. unfold live_count.
  rewrite <-(length_fmap (prod_map id veil) (filter _ (webhooks m))), <-(length_fmap (prod_map id veil) (filter _ (webhooks m'))).
  by rewrite <-!filter_veil, H.
Qed.
Lemma alike_list : list_webhooks m = list_webhooks m'.
Proof.
  assert (Hf : ∀ d : dict string Webhook, safe_webhook <$> filter (λ w, live w) d.*2
    = safe_webhook <$> filter (λ w, live w) (prod_map id veil <$> d).*2).
  { induction d as [|[k w] d IH]; [done|]. csimpl. rewrite !filter_cons. cbn [prod_map snd]. rewrite live_veil.
    case_decide; csimpl; [|done]. by f_equal. }
  unfold list_webhooks. rewrite !(Hf (webhooks _)). destruct Ha as [H _]. by rewrite H.
Qed.
Lemma alike_deliveries evs b : deliveries m evs b = deliveries m' evs b.
Proof.
  unfold deliveries. assert (Hf : ∀ d : dict string Webhook,
    (λ kw : string * Webhook, if listening kw.2 then (λ e, mkTask kw.1 e b Created) <$> filter (λ e, wants kw.2 e) evs else []) <$> d =
    (λ kw : string * Webhook, if listening kw.2 then (λ e, mkTask kw.1 e b Created) <$> filter (λ e, wants kw.2 e) evs else [])
      <$> (prod_map id veil <$> d)) by (intros d; by rewrite <-list_fmap_compose).
  rewrite !(Hf (webhooks _)). destruct Ha as [H _]. by rewrite H.
Qed.
Lemma alike_task i : veil_task <$> delivery_tasks m !! i = veil_task <$> delivery_tasks m' !! i.
Proof. destruct Ha as [_ H]. by rewrite <-!lookup_fmap, H. Qed.
Lemma alike_change k f g : (∀ w w', veil w = veil w' → veil (f w) = veil (g w')) → alike (change k f m) (change k g m').
Proof.
  intros Hf. pose proof (alike_get k) as Hk. destruct Ha as [H1 H2]. unfold change.
  destruct (dget (webhooks m) k) as [w|], (dget (webhooks m') k) as [w'|]; try done. split; cbn; [|done].
  rewrite !dset_veil, H1. f_equal. apply Hf. by apply (inj Some) in Hk.
Qed.
Lemma alike_finish i : alike (finish i m) (finish i m').
Proof. destruct Ha as [H1 H2]. split; cbn; [done|]. by rewrite !fmap_delete, H2. Qed.
Lemma alike_move i s s' : (∀ t, veil_task (mkTask (t_hook t) (t_event t) (t_block t) s) = veil_task (mkTask (t_hook t) (t_event t) (t_block t) s')) →
  alike (move i s m) (move i s' m').
Proof.
  intros Hs. pose proof alike_task as Ht. destruct Ha as [H1 H2]. split; cbn; [done|]. apply map_eq. intros j.
  rewrite !lookup_fmap. specialize (Ht j). destruct (decide (i = j)) as [<-|]; [|by rewrite !lookup_alter_ne].
  rewrite !lookup_alter_eq. destruct (delivery_tasks m !! i) as [t|], (delivery_tasks m' !! i) as [t'|]; try done. cbn in *.
  f_equal. rewrite Hs. injection Ht as E1 E2 E3 _. unfold veil_task. cbn. by rewrite E1, E2, E3.
Qed.
Lemma alike_add t t' : veil_task t = veil_task t' → alike (add_task t m) (add_task t' m').
Proof.
  intros Ht. destruct Ha as [H1 H2]. split; cbn; [done|]. rewrite !fmap_insert, H2, Ht.
  assert (dom (delivery_tasks m) = dom (delivery_tasks m')) as ->; [|done].
  rewrite <-(dom_fmap_L veil_task (delivery_tasks m)), H2. by rewrite dom_fmap_L.
Qed.
End Alike.

Lemma veil_live w w' : veil w = veil w' → live w = live w'.
Proof. intros H. by rewrite <-(live_veil w), H. Qed.
Lemma exhausted_veil w w' : veil w = veil w' → veil (exhausted w) = veil (exhausted w').
Proof.
  assert (Hc : ∀ w, veil (exhausted w) = exhausted (veil w)) by (intros x; unfold exhausted; cbn -[Z.leb]; destruct (_ <=? _); [done|by case_bool_decide]).
  intros H. by rewrite !Hc, H.
Qed.
Lemma delivered_veil w w' : veil w = veil w' → veil (delivered w) = veil (delivered w').
Proof.
  assert (Hc : ∀ w, veil (delivered w) = delivered (veil w)) by (intros x; unfold delivered; cbn; by case_bool_decide).
  intros H. by rewrite !Hc, H.
Qed.
Lemma alike_attempt i n p p' w w' m m' : alike m m' → veil w = veil w' → veil_post p = veil_post p' →
  alike (attempt_post i n p w m) (attempt_post i n p' w' m').
Proof.
  intros Ha Hw Hp. unfold attempt_post. rewrite (veil_live w w' Hw). destruct (live w'); [|by apply alike_finish].
  apply alike_move; [done|]. intros t. unfold veil_task. cbn. by rewrite Hp.
Qed.
Lemma alike_runs now i m m' : alike m m' → alike (task_runs now i m) (task_runs now i m').
Proof.
  intros Ha. unfold task_runs. pose proof (alike_task m m' Ha i) as Ht.
  destruct (delivery_tasks m !! i) as [[k ev b st]|], (delivery_tasks m' !! i) as [[k' ev' b' st']|]; try done.
  apply (inj Some) in Ht. injection Ht as <- <- <- Hs. cbn. pose proof (alike_get m m' Ha k) as Hg.
  destruct (dget (webhooks m) k) as [w|], (dget (webhooks m') k) as [w'|]; try done. apply (inj Some) in Hg.
  destruct st as [|n p|n p], st' as [|n' p'|n' p']; try done.
  - apply alike_attempt; [done|done|]. injection Hg as E1 E2 _ _ _ _. unfold veil_post. cbn. by rewrite E1, E2.
  - injection Hs as <- E1 E2 E3. apply alike_attempt; [done|done|]. unfold veil_post. by rewrite E1, E2, E3.
Qed.
Lemma alike_answered o i m m' : alike m m' → alike (task_answered o i m) (task_answered o i m').
Proof.
  intros Ha. unfold task_answered. pose proof (alike_task m m' Ha i) as Ht.
  destruct (delivery_tasks m !! i) as [[k ev b st]|], (delivery_tasks m' !! i) as [[k' ev' b' st']|]; try done.
  apply (inj Some) in Ht. injection Ht as <- <- <- Hs. cbn -[Nat.ltb].
  destruct st as [|n p|n p], st' as [|n' p'|n' p']; try done. injection Hs as <- E1 E2 E3.
  assert (Hr : alike (if (S n <? 3)%nat then move i (Asleep (S n) p) m else finish i (change k exhausted m))
                     (if (S n <? 3)%nat then move i (Asleep (S n) p') m' else finish i (change k exhausted m'))).
  { destruct (S n <? 3)%nat; [|by apply alike_finish, alike_change; [|apply exhausted_veil]].
    apply alike_move; [done|]. intros t. unfold veil_task, veil_post. cbn. by rewrite E1, E2, E3. }
  destruct o as [st| |]; [destruct (_ && _)| |]; [|done|by apply alike_finish|done].
  apply alike_finish, alike_change; [done|apply delivered_veil].
Qed.
Lemma alike_delivers evs b m m' : alike m m' → alike (deliver evs b m) (deliver evs b m').
Proof.
  intros Ha. unfold deliver. rewrite (alike_deliveries m m' Ha). generalize (deliveries m' evs b). intros ts. revert m m' Ha.
  induction ts as [|t ts IH]; intros m m' Ha; [done|]. cbn. apply IH. by apply alike_add.
Qed.
Lemma alike_registers tok now u ev s s' m m' : alike m m' →
  veil_event (HRegister tok now u ev s) = veil_event (HRegister tok now u ev s') →
  alike (register tok now u ev s m).2 (register tok now u ev s' m').2 ∧
  JObj <$> (register tok now u ev s m).1 = JObj <$> (register tok now u ev s' m').1.
Proof.
  intros Ha Hs. injection Hs as Hs. unfold register, mbind, M_bind, lift. destruct (check_url u) as [url|]; [|done].
  destruct (check_events ev) as [es|]; [|done].
  destruct (check_secret s) as [sec|e] eqn:E1, (check_secret s') as [sec'|e'] eqn:E2.
  2: { rewrite <-Hs in E2. discriminate E2. }
  2: { rewrite Hs in E1. discriminate E1. }
  2: { subst s'. rewrite E1 in E2. by injection E2 as <-. }
  cbn [get]. rewrite (alike_count m m' Ha). destruct (MAX_WEBHOOKS <=? live_count m'); [done|]. cbn. split; [|done].
  destruct Ha as [H1 H2]. split; cbn; [|done]. by rewrite !dset_veil, H1.
Qed.
Lemma alike_deletes v m m' : alike m m' → alike (delete_webhook v m).2 (delete_webhook v m').2 ∧
  (delete_webhook v m).1 = (delete_webhook v m').1.
Proof.
  intros Ha. destruct v as [| | | |k| |]; try done. unfold delete_webhook, mbind, M_bind. cbn [get].
  pose proof (alike_get m m' Ha k) as Hg.
  destruct (dget (webhooks m) k) as [w|], (dget (webhooks m') k) as [w'|]; try done. apply (inj Some) in Hg.
  rewrite (veil_live w w' Hg). destruct (live w'); [|done]. cbn. split; [|done]. apply alike_change; [done|].
  intros x x' Hx. injection Hx as E1 E2 E3 E4 E5 E6. unfold veil. cbn. by rewrite E1, E2, E3, E4, E6.
Qed.
Lemma alike_step m m' e e' : alike m m' → veil_event e = veil_event e' →
  alike (hook_step m e) (hook_step m' e') ∧ answer_of e m = answer_of e' m'.
Proof.
  intros Ha He. destruct e as [tok now u ev s|v|evs b|now i|o i|], e' as [tok' now' u' ev' s'|v'|evs' b'|now' i'|o' i'|]; try discriminate He.
  - pose proof He as Hs. injection He as <- <- <- <- _. cbn [hook_step answer_of]. by apply alike_registers.
  - injection He as <-. cbn [hook_step answer_of]. destruct (alike_deletes v m m' Ha) as [H1 H2]. by rewrite H2.
  - injection He as <- <-. split; [|done]. by apply alike_delivers.
  - injection He as <- <-. split; [|done]. by apply alike_runs.
  - injection He as <- <-. split; [|done]. by apply alike_answered.
  - split; [|done]. destruct Ha as [H1 _]. by split.
Qed.
Lemma alike_run es es' m m' : alike m m' → map veil_event es = map veil_event es' →
  alike (run_hooks m es) (run_hooks m' es').
Proof.
  revert es' m m'. induction es as [|e es IH]; intros [|e' es'] m m' Ha He; try discriminate He; [done|].
  injection He as He Hes. cbn [run_hooks foldl]. apply IH; [|done]. by destruct (alike_step m m' e e' Ha He).
Qed.
End Webhooks.

(** ** Toy parameters *)

Module ToyWeb.
Definition hostname (url : string) : result (option string) :=
  match String.index 0 "://" url with
  | Some n => Ok (Some (span (λ c, negb (bool_decide (c = "/"%char))) (str_drop (n + 3) url)).1)
  | None => Ok None
  end.
Definition address (s : string) : option IPAddress :=
  if String.prefix "10." s then Some (mkIP true false false false false false) else None.
#[export] Instance env : WebEnv := {| url_hostname := hostname; ip_address := address;
  hmac_sha256 := λ k m, hex (k +:+ "|" +:+ str_of_Z (str_len m)) |}.

Definition event : dict string JVal := [("type", JStr "Transfer"); ("data", JObj [("amount", JInt 5)])].
Definition hook (tok secret : string) : hook_event :=
  HRegister tok "1.5" (JStr "https://example.org/in") (JList [JStr "Transfer"]) (JStr secret).
(** One delivery whose three posts fail *)
Definition gives_up (i : nat) : list hook_event :=
  [HRun "2.0" i; HAnswer Errored i; HRun "3.0" i; HAnswer (Answered 500) i; HRun "8.0" i; HAnswer Errored i].
Definition busy : list hook_event :=
  [hook "a1" "key one"; HDeliver [event] 7; HRun "2.0" 0; HAnswer (Answered 503) 0; HRun "3.0" 0; HAnswer (Answered 204) 0;
   HDeliver [event; event] 8; HRun "4.0" 0; HRun "4.0" 1; HAnswer Errored 0].
(** Ten deliveries at once; the webhook is deleted before the last answer. *)
Definition revived : list hook_event :=
  [hook "a1" "key one"; HDeliver (replicate 10 event) 7] ++ mjoin (gives_up <$> seq 0 9) ++
  take 5 (gives_up 9) ++ [HDelete (JStr "a1"); HAnswer Errored 9].
End ToyWeb.

#[local] Existing Instance ToyWeb.env.

(** ** Properties *)


(** C33: one step of anything moves the status of a webhook along a fixed table,
    leaves its address, events and secret alone, and never drops it; a webhook
    that is active has no failures on record, one that is failing has between
    one and nine, and events are handed only to those two. *)
Theorem webhook_lifecycle `{V : WebEnv} (es : list hook_event) (e : hook_event) (k : string) (w : Webhook)
  (Hfresh : NoDup (tokens_of (es ++ [e]))) (Hw : dget (webhooks (run_hooks new_manager es)) k = Some w) :
  (∃ w', dget (webhooks (run_hooks new_manager (es ++ [e]))) k = Some w' ∧ same_hook w w' ∧
     (wh_status w' = wh_status w ∨ (wh_status w, wh_status w') ∈ MOVES)) ∧
  (wh_status w = Active → wh_failures w = 0) ∧ (wh_status w = Failing → 1 <= wh_failures w <= 9) ∧
  (∀ evs b t, t ∈ deliveries (run_hooks new_manager es) evs b → t_hook t = k →
     (wh_status w = Active ∨ wh_status w = Failing) ∧ t_event t ∈ evs ∧ wants w (t_event t)).
Proof.
  assert (Ht : tokens_of (es ++ [e]) = tokens_of es ++ tokens_of [e]) by apply omap_app.
  rewrite Ht in Hfresh. apply list.NoDup_app in Hfresh as (Hes & Hdis & _).
  assert (Hm : hooks_ok (run_hooks new_manager es)) by (apply hook_run_ok; [apply new_manager_ok|done|done]).
  destruct (ho_hooks _ Hm k w Hw) as [_ _ _ _ H5 H6 H7]. split_and!; [|done|intros Hf; specialize (H7 Hf); unfold CONSECUTIVE_FAIL_DISABLE in H7; lia|].
  - unfold run_hooks. rewrite foldl_app. apply hook_step_moves; [done| |done].
    intros j Hj. apply eq_None_not_Some. intros Hs%run_keys. by apply (Hdis j).
  - intros evs b t (l & Hin & ([j w'] & -> & Hj)%list_elem_of_fmap)%list_elem_of_join Htk. cbn in Hin.
    destruct (listening w') eqn:El; [|by apply elem_of_nil in Hin].
    apply list_elem_of_fmap in Hin as (ev & -> & [Hwant Hev]%list_elem_of_filter). cbn in Htk |- *. subst j.
    apply dget_elem in Hj; [|apply Hm]. rewrite Hw in Hj. injection Hj as <-.
    split_and!; [by apply bool_decide_eq_true in El|done|done].
Qed.
Lemma webhook_lifecycle_witness :
  let m := run_hooks new_manager (ToyWeb.busy ++ [HAnswer Errored 1]) in
  let w := mkWebhook "a1" "https://example.org/in" ["Transfer"] "key one" "1.5" Active 0 in
  (∃ w', dget (webhooks m) "a1" = Some w' ∧ same_hook w w' ∧ (wh_status w' = wh_status w ∨ (wh_status w, wh_status w') ∈ MOVES)) ∧
  (wh_status w = Active → wh_failures w = 0) ∧ (wh_status w = Failing → 1 <= wh_failures w <= 9) ∧
  (∀ evs b t, t ∈ deliveries (run_hooks new_manager ToyWeb.busy) evs b → t_hook t = "a1" →
     (wh_status w = Active ∨ wh_status w = Failing) ∧ t_event t ∈ evs ∧ wants w (t_event t)).
Proof.
  apply (webhook_lifecycle ToyWeb.busy (HAnswer Errored 1) "a1"); [|vm_compute; reflexivity].
  apply (bool_decide_unpack _). vm_compute. exact I.
Defined.

(** Between two deliveries no webhook is posted to without end: from any
    state that can arise, and whatever else happens, the tasks at hand make at
    most three posts each. *)
Theorem webhook_attempts_bounded `{V : WebEnv} (es es' : list hook_event) (Hfresh : NoDup (tokens_of (es ++ es')))
  (Hno : forallb (negb ∘ is_delivery) es' = true) :
  let m := run_hooks new_manager es in
  Z.of_nat (length (posts (run_hooks m es'))) <= Z.of_nat (length (posts m)) + 3 * Z.of_nat (size (delivery_tasks m)).
Proof.
  intros m. assert (Ht : tokens_of (es ++ es') = tokens_of es ++ tokens_of es') by apply omap_app.
  rewrite Ht in Hfresh. apply list.NoDup_app in Hfresh as (Hes & Hdis & Hes').
  assert (Hm : hooks_ok m) by (apply hook_run_ok; [apply new_manager_ok|done|done]).
  assert (Hf : ∀ k, k ∈ tokens_of es' → dget (webhooks m) k = None).
  { intros k Hk. apply eq_None_not_Some. intros Hs%run_keys. by apply (Hdis k). }
  pose proof (run_budget es' m Hm Hes' Hf Hno) as Hb.
  assert (H1 : post_budget m <= Z.of_nat (length (posts m)) + 3 * Z.of_nat (size (delivery_tasks m))).
  { pose proof (tasks_budget m Hm). unfold post_budget. lia. }
  pose proof (tasks_budget _ (hook_run_ok es' m Hm Hes' Hf)). unfold post_budget in Hb at 1. lia.
Qed.
Lemma webhook_attempts_bounded_witness :
  let m := run_hooks new_manager [ToyWeb.hook "a1" "key"; HDeliver [ToyWeb.event; ToyWeb.event] 7] in
  size (delivery_tasks m) = 2%nat ∧
  length (posts (run_hooks m (ToyWeb.gives_up 0 ++ ToyWeb.gives_up 1))) = 6%nat ∧
  Z.of_nat (length (posts (run_hooks m (ToyWeb.gives_up 0 ++ ToyWeb.gives_up 1)))) <=
    Z.of_nat (length (posts m)) + 3 * Z.of_nat (size (delivery_tasks m)).
Proof.
  split; [vm_compute; reflexivity|]. split; [vm_compute; reflexivity|].
  apply (webhook_attempts_bounded [ToyWeb.hook "a1" "key"; HDeliver [ToyWeb.event; ToyWeb.event] 7]
    (ToyWeb.gives_up 0 ++ ToyWeb.gives_up 1)); [|vm_compute; reflexivity].
  apply (bool_decide_unpack _). vm_compute. exact I.
Defined.

(** The interface never tells a secret: two nodes whose requests differ
    only in the secrets given, all of them acceptable, answer every later
    request with the same values and list the same webhooks, through any
    deliveries in between. *)
Theorem webhook_secrets_unseen `{V : WebEnv} (es es' : list hook_event) (e e' : hook_event)
  (Hsame : map veil_event es = map veil_event es') (He : veil_event e = veil_event e') :
  let m := run_hooks new_manager es in let m' := run_hooks new_manager es' in
  answer_of e m = answer_of e' m' ∧ list_webhooks m = list_webhooks m' ∧ (∀ k, get_webhook m k = get_webhook m' k).
Proof.
  intros m m'. assert (Ha : alike m m') by by apply alike_run. split_and!.
  - by destruct (alike_step m m' e e' Ha He).
  - by apply alike_list.
  - intros k. unfold get_webhook. pose proof (alike_get m m' Ha k) as Hg. destruct (dget (webhooks m) k) as [w|], (dget (webhooks m') k) as [w'|];
      try done. apply (inj Some) in Hg. cbn. rewrite (veil_live w w' Hg). destruct (live w'); [|done]. f_equal.
    injection Hg as E1 E2 E3 E4 E5 E6. unfold safe_webhook. by rewrite E1, E2, E3, E4, E5, E6.
Qed.
Lemma webhook_secrets_unseen_witness :
  let es s := ToyWeb.hook "a1" s :: tail ToyWeb.busy in
  let m := run_hooks new_manager (es "key one") in let m' := run_hooks new_manager (es "another") in
  answer_of (ToyWeb.hook "b2" "k1") m = answer_of (ToyWeb.hook "b2" "k2") m' ∧ list_webhooks m = list_webhooks m' ∧
  (∀ k, get_webhook m k = get_webhook m' k).
Proof.
  apply (webhook_secrets_unseen (ToyWeb.hook "a1" "key one" :: tail ToyWeb.busy) (ToyWeb.hook "a1" "another" :: tail ToyWeb.busy));
    vm_compute; reflexivity.
Defined.

(** A deleted webhook whose last post was under way comes back as disabled: it
    is listed again and counts towards the limit. *)
Lemma deleted_webhook_revived :
  wh_status <$> dget (webhooks (run_hooks new_manager (removelast ToyWeb.revived))) "a1" = Some Deleted ∧
  list_webhooks (run_hooks new_manager (removelast ToyWeb.revived)) = [] ∧
  wh_status <$> dget (webhooks (run_hooks new_manager ToyWeb.revived)) "a1" = Some Disabled ∧
  length (list_webhooks (run_hooks new_manager ToyWeb.revived)) = 1%nat.
Proof. vm_compute. split_and!; reflexivity. Qed.
