(* ===== verification/WebSocket.v ===== *)
(** * WebSocket subscriptions

    [network/websocket.py]: who listens to which channel, the rate and the
    number of clients, and the broadcast of events.  A client is known by the
    identity of its socket object.  The steps of a run are what happens between
    two [await]s: a connection is admitted and, after [ws.prepare], becomes a
    client; a text arrives at the handler of a client; the handler ends; a
    broadcast takes its copy of the subscribers, sends to one of them after the
    other, and drops those that failed.  They may come in any order.

    A reply that cannot be sent is ignored by the code, so replies are only
    recorded.  Times are floats. *)
From Stdlib Require Import Floats.SpecFloat.
From S2P Require Import Prelude PyStr Json JsonText Limits.
Open Scope Z_scope.

(** ** Bearer tokens *)

(** [hmac.compare_digest] of two texts, which must be ASCII *)
Definition is_ascii (s : string) : bool := all_chars (in_range 0 127) s.
Definition compare_digest (a b : string) : result bool :=
  if is_ascii a && is_ascii b then Ok (bool_decide (a = b)) else Raise TypeError.
Definition BEARER : string := "Bearer ".
(** What follows [Bearer ] in the header, without white space around it *)
Definition bearer (auth : string) : option string := strip <$> after BEARER auth.
(** [_check_ws_auth]: the server's token and the header of the request *)
Definition check_ws_auth (expected auth : string) : result bool :=
  if is_empty expected then Ok true
  else match bearer auth with
       | None => Ok false
       | Some token => if is_empty token then Ok false else compare_digest token expected
       end.

(** ** State *)

Definition MAX_WS_CONNECTIONS : Z := 100.
Definition MAX_SUBSCRIPTIONS_PER_CLIENT : Z := 10.
Definition WS_RATE_LIMIT : Z := 10.
Definition VALID_CHANNELS : list string := ["new_block"; "new_tx"; "chain_stats"; "finalized"].

(** The object behind a socket *)
Abbreviation socket := Z (only parsing).

Record WebSocketManager := mkWS {
  subscribers : dict string (gset socket);
  client_channels : gmap socket (gset string);
  all_clients : gset socket;
  client_rate : gmap socket (list float);
}.
#[export] Instance set_subscribers : Setter subscribers :=
  λ f x, mkWS (f (subscribers x)) (client_channels x) (all_clients x) (client_rate x).
#[export] Instance set_client_channels : Setter client_channels :=
  λ f x, mkWS (subscribers x) (f (client_channels x)) (all_clients x) (client_rate x).
#[export] Instance set_all_clients : Setter all_clients :=
  λ f x, mkWS (subscribers x) (client_channels x) (f (all_clients x)) (client_rate x).
#[export] Instance set_client_rate : Setter client_rate :=
  λ f x, mkWS (subscribers x) (client_channels x) (all_clients x) (f (client_rate x)).
Definition new_ws : WebSocketManager := mkWS ((λ ch, (ch, ∅)) <$> VALID_CHANNELS) ∅ ∅ ∅.

Definition connected_count (m : WebSocketManager) : Z := Z.of_nat (size (all_clients m)).
Definition channels_of (m : WebSocketManager) (ws : socket) : gset string := get_or (client_channels m) ws ∅.
(** [self._subscribers[channel]], changed in place *)
Definition on_channel (f : gset socket → gset socket) (m : WebSocketManager) (ch : string) : WebSocketManager :=
  m <| subscribers ::= λ d, dset d ch (f (dget_or d ch ∅)) |>.

(** ** Operations *)

Definition add_subscriber (ws : socket) (channel : string) (m : WebSocketManager) : (bool * string) * WebSocketManager :=
  if negb (bool_decide (channel ∈ VALID_CHANNELS)) then ((false, "unknown channel: " +:+ channel), m)
  else if bool_decide (channel ∈ channels_of m ws) then ((false, "already subscribed to " +:+ channel), m)
  else if MAX_SUBSCRIPTIONS_PER_CLIENT <=? Z.of_nat (size (channels_of m ws)) then ((false, "max subscriptions (10) reached"), m)
  else ((true, "subscribed to " +:+ channel),
        on_channel (union {[ws]}) m channel <| client_channels ::= <[ws := {[channel]} ∪ channels_of m ws]> |>).
Definition remove_subscriber (ws : socket) (channel : string) (m : WebSocketManager) : (bool * string) * WebSocketManager :=
  if negb (bool_decide (channel ∈ VALID_CHANNELS)) then ((false, "unknown channel: " +:+ channel), m)
  else if negb (bool_decide (channel ∈ channels_of m ws)) then ((false, "not subscribed to " +:+ channel), m)
  else ((true, "unsubscribed from " +:+ channel),
        on_channel (λ X, X ∖ {[ws]}) m channel <| client_channels ::= <[ws := channels_of m ws ∖ {[channel]}]> |>).
Definition remove_all (ws : socket) (m : WebSocketManager) : WebSocketManager :=
  let channels := channels_of m ws in
  let m := m <| client_channels ::= delete ws |> in
  let m := foldl (on_channel (λ X, X ∖ {[ws]})) m (elements channels) in
  m <| all_clients ::= λ X, X ∖ {[ws]} |> <| client_rate ::= delete ws |>.
(** Messages that are refused count as well. *)
Definition check_rate (now : float) (ws : socket) (m : WebSocketManager) : bool * WebSocketManager :=
  let cutoff := fsub now (float_of_Z 1) in
  let timestamps := filter (λ t, flt cutoff t = true) (get_or (client_rate m) ws []) ++ [now] in
  (Z.of_nat (length timestamps) <=? WS_RATE_LIMIT, m <| client_rate ::= <[ws := timestamps]> |>).

Definition ws_error (msg : string) : JVal := JObj [("type", JStr "error"); ("message", JStr msg)].
Definition ws_ack (kind channel : string) : JVal := JObj [("type", JStr kind); ("channel", JStr channel)].
Definition ws_event (channel : string) (data : dict string JVal) : JVal :=
  JObj [("type", JStr "event"); ("channel", JStr channel); ("data", JObj data)].

Section Text.
Context `{F : PyFloat}.
(** A text frame of [websocket_handler]: the reply and the new state.  A text
    nested deeper than Python's stack, which ends the handler, is left out. *)
Definition on_channel_field (d : dict string JVal) (k : string → JVal * WebSocketManager) (m : WebSocketManager)
    : JVal * WebSocketManager :=
  match jget d "channel" JNull with
  | JStr channel => k channel
  | _ => (ws_error "missing or invalid 'channel' field", m)
  end.
Definition on_text (now : float) (ws : socket) (text : string) (m : WebSocketManager) : JVal * WebSocketManager :=
  let '(allowed, m) := check_rate now ws m in
  if negb allowed then (ws_error "rate limit exceeded", m)
  else match loads text with
       | None => (ws_error "invalid JSON", m)
       | Some (JObj d) =>
           match jget d "type" JNull with
           | JStr t =>
               if decide (t = "ping") then (JObj [("type", JStr "pong")], m)
               else if decide (t = "subscribe") then
                 on_channel_field d (λ ch, let '((ok, msg), m) := add_subscriber ws ch m in
                   (if ok : bool then ws_ack "subscribed" ch else ws_error msg, m)) m
               else if decide (t = "unsubscribe") then
                 on_channel_field d (λ ch, let '((ok, msg), m) := remove_subscriber ws ch m in
                   (if ok : bool then ws_ack "unsubscribed" ch else ws_error msg, m)) m
               else (ws_error ("unknown message type: " +:+ t), m)
           | _ => (ws_error "missing or invalid 'type' field", m)
           end
       | Some _ => (ws_error "message must be a JSON object", m)
       end.
End Text.

(** ** Runs *)

(** A broadcast under way *)
Record Broadcast := mkBroadcast { b_message : JVal; b_left : gset socket; b_dead : gset socket }.
(** The manager, the connections between admission and [ws.prepare], the
    handlers that run, the broadcasts under way, and what was sent *)
Record WSServer := mkServer {
  manager : WebSocketManager; preparing : gset socket; handlers : gset socket;
  broadcasts : gmap nat Broadcast; ws_sent : list (socket * JVal) }.
Definition new_server : WSServer := mkServer new_ws ∅ ∅ ∅ [].
#[export] Instance set_manager : Setter manager := λ f x,
  mkServer (f (manager x)) (preparing x) (handlers x) (broadcasts x) (ws_sent x).
#[export] Instance set_preparing : Setter preparing := λ f x,
  mkServer (manager x) (f (preparing x)) (handlers x) (broadcasts x) (ws_sent x).
#[export] Instance set_handlers : Setter handlers := λ f x,
  mkServer (manager x) (preparing x) (f (handlers x)) (broadcasts x) (ws_sent x).
#[export] Instance set_broadcasts : Setter broadcasts := λ f x,
  mkServer (manager x) (preparing x) (handlers x) (f (broadcasts x)) (ws_sent x).
#[export] Instance set_ws_sent : Setter ws_sent := λ f x,
  mkServer (manager x) (preparing x) (handlers x) (broadcasts x) (f (ws_sent x)).

Section Server.
Context `{F : PyFloat}.

(** [websocket_handler] up to [ws.prepare]: [None] when the connection goes on,
    else the status of the refusal.  An exception of the comparison is a 500. *)
Definition admit_ws (expected auth : string) (m : WebSocketManager) : option Z :=
  match check_ws_auth expected auth with
  | Raise _ => Some 500
  | Ok false => Some 401
  | Ok true => if MAX_WS_CONNECTIONS <=? connected_count m then Some 503 else None
  end.
Definition ws_connect (expected auth : string) (ws : socket) (s : WSServer) : WSServer :=
  match admit_ws expected auth (manager s) with
  | None => s <| preparing ::= union {[ws]} |>
  | Some _ => s
  end.
Definition ws_prepared (ws : socket) (s : WSServer) : WSServer :=
  if decide (ws ∈ preparing s) then
    s <| preparing ::= λ X, X ∖ {[ws]} |> <| handlers ::= union {[ws]} |> <| manager ::= set all_clients (union {[ws]}) |>
  else s.
Definition ws_text (now : float) (ws : socket) (text : string) (s : WSServer) : WSServer :=
  if decide (ws ∈ handlers s) then
    let '(reply, m) := on_text now ws text (manager s) in
    s <| manager := m |> <| ws_sent ::= λ l, l ++ [(ws, reply)] |>
  else s.
(** The loop over the messages ends; [finally] *)
Definition ws_ends (ws : socket) (s : WSServer) : WSServer :=
  if decide (ws ∈ handlers s) then s <| manager ::= remove_all ws |> <| handlers ::= λ X, X ∖ {[ws]} |> else s.

(** [broadcast] *)
Definition broadcast_starts (i : nat) (channel : string) (data : dict string JVal) (s : WSServer) : WSServer :=
  match dget (subscribers (manager s)) channel with
  | Some X => if decide (X = ∅ ∨ is_Some (broadcasts s !! i)) then s
              else s <| broadcasts ::= <[i := mkBroadcast (ws_event channel data) X ∅]> |>
  | None => s
  end.
(** [send_str] to one of the copy, which returns, or fails in one way or another *)
Definition broadcast_sends (i : nat) (ws : socket) (sent : bool) (s : WSServer) : WSServer :=
  match broadcasts s !! i with
  | Some b =>
      if decide (ws ∈ b_left b) then
        let s := s <| broadcasts ::= <[i := mkBroadcast (b_message b) (b_left b ∖ {[ws]})
                                        (if sent then b_dead b else {[ws]} ∪ b_dead b)]> |> in
        if sent then s <| ws_sent ::= λ l, l ++ [(ws, b_message b)] |> else s
      else s
  | None => s
  end.
Definition broadcast_ends (i : nat) (s : WSServer) : WSServer :=
  match broadcasts s !! i with
  | Some b =>
      if decide (b_left b = ∅) then
        s <| broadcasts ::= delete i |> <| manager ::= λ m, foldl (flip remove_all) m (elements (b_dead b)) |>
      else s
  | None => s
  end.
(** [stop], after the sockets were closed *)
Definition ws_stop (m : WebSocketManager) : WebSocketManager :=
  mkWS (prod_map id (λ _, ∅) <$> subscribers m) ∅ ∅ ∅.

Inductive ws_step :=
  | WConnect (expected auth : string) (ws : socket)
  | WPrepared (ws : socket)
  | WPrepareFails (ws : socket)
  | WText (now : float) (ws : socket) (text : string)
  | WEnds (ws : socket)
  | WBroadcast (i : nat) (channel : string) (data : dict string JVal)
  | WSends (i : nat) (ws : socket) (sent : bool)
  | WBroadcastEnds (i : nat)
  | WStop.
Definition ws_do (s : WSServer) (e : ws_step) : WSServer :=
  match e with
  | WConnect expected auth ws => ws_connect expected auth ws s
  | WPrepared ws => ws_prepared ws s
  | WPrepareFails ws => s <| preparing ::= λ X, X ∖ {[ws]} |>
  | WText now ws text => ws_text now ws text s
  | WEnds ws => ws_ends ws s
  | WBroadcast i ch data => broadcast_starts i ch data s
  | WSends i ws sent => broadcast_sends i ws sent s
  | WBroadcastEnds i => broadcast_ends i s
  | WStop => s <| manager ::= ws_stop |>
  end.
Definition run_ws : WSServer → list ws_step → WSServer := foldl ws_do.
End Server.

(** ** Subscribers and channels agree *)

Definition subs (m : WebSocketManager) (ch : string) : gset socket := dget_or (subscribers m) ch ∅.
Record subs_ok (m : WebSocketManager) : Prop := mkSubsOk {
  so_keys : (subscribers m).*1 = VALID_CHANNELS;
  so_both : ∀ ch ws, ws ∈ subs m ch ↔ ch ∈ channels_of m ws;
  so_valid : ∀ ws ch, ch ∈ channels_of m ws → ch ∈ VALID_CHANNELS }.
(** Only sockets of [H] are known to the manager. *)
Definition owned (H : gset socket) (m : WebSocketManager) : Prop := ∀ ws, ws ∉ H →
  client_channels m !! ws = None ∧ client_rate m !! ws = None ∧ ws ∉ all_clients m.

Lemma subs_on_channel f m ch ch' : subs (on_channel f m ch) ch' = if decide (ch' = ch) then f (subs m ch) else subs m ch'.
Proof. unfold subs, on_channel, dget_or. cbn. rewrite dget_dset. by case_decide. Qed.
Lemma channels_insert m ws ws' X : channels_of (m <| client_channels ::= <[ws := X]> |>) ws' = if decide (ws' = ws) then X else channels_of m ws'.
Proof. unfold channels_of, get_or. cbn. rewrite lookup_insert. by repeat case_decide; subst. Qed.

(** One channel and one client change together. *)
Lemma pair_ok f g m ch ws : subs_ok m → ch ∈ VALID_CHANNELS →
  (∀ ws', ws' ∈ f (subs m ch) ↔ if decide (ws' = ws) then ch ∈ g (channels_of m ws) else ws' ∈ subs m ch) →
  (∀ ch', ch' ≠ ch → ch' ∈ g (channels_of m ws) ↔ ch' ∈ channels_of m ws) →
  subs_ok (on_channel f m ch <| client_channels ::= <[ws := g (channels_of m ws)]> |>).
Proof.
  intros Hm Hch Hf Hg. split.
  - cbn. rewrite dset_keys_old; [apply Hm|]. by rewrite (so_keys m Hm).
  - intros ch' ws'. rewrite channels_insert. change (channels_of (on_channel f m ch)) with (channels_of m).
    change (subs _ ch') with (subs (on_channel f m ch) ch'). rewrite subs_on_channel.
    destruct (decide (ch' = ch)) as [->|Hne].
    + rewrite Hf. case_decide; [done|]. apply (so_both m Hm).
    + case_decide; [subst; rewrite Hg by done|]; apply (so_both m Hm).
  - intros ws' ch'. rewrite channels_insert. case_decide as E; [|apply (so_valid m Hm)]. intros Hin.
    destruct (decide (ch' = ch)) as [->|Hne]; [done|]. apply (so_valid m Hm ws). by apply Hg.
Qed.
Lemma add_subs_ok ws ch m : subs_ok m → subs_ok (add_subscriber ws ch m).2.
Proof.
  intros Hm. unfold add_subscriber. case_bool_decide as Hv; cbn [negb]; [|done]. case_bool_decide as Hc; [done|].
  destruct (_ <=? _); [done|]. cbn [snd]. apply (pair_ok _ (union {[ch]})); [done|done| |set_solver].
  intros ws'. case_decide; set_solver.
Qed.
Lemma remove_subs_ok ws ch m : subs_ok m → subs_ok (remove_subscriber ws ch m).2.
Proof.
  intros Hm. unfold remove_subscriber. case_bool_decide as Hv; cbn [negb]; [|done]. case_bool_decide as Hc; [|done].
  cbn [negb snd]. apply (pair_ok _ (λ X, X ∖ {[ch]})); [done|done| |set_solver].
  intros ws'. case_decide; set_solver.
Qed.
Lemma fold_channels (f : gset socket → gset socket) l m : NoDup l → (∀ ch, ch ∈ l → ch ∈ (subscribers m).*1) →
  let m' := foldl (on_channel f) m l in
  (subscribers m').*1 = (subscribers m).*1 ∧ (∀ ch, subs m' ch = if decide (ch ∈ l) then f (subs m ch) else subs m ch) ∧
  client_channels m' = client_channels m ∧ client_rate m' = client_rate m ∧ all_clients m' = all_clients m.
Proof.
  revert m. induction l as [|c l IH]; intros m Hnd Hin; [done|]. apply list.NoDup_cons in Hnd as [Hc Hnd]. cbn zeta. cbn [foldl].
  assert (Hk : (subscribers (on_channel f m c)).*1 = (subscribers m).*1) by (apply dset_keys_old, Hin; by left).
  destruct (IH (on_channel f m c) Hnd) as (H1 & H2 & H3 & H4 & H5); [intros ch Hch; rewrite Hk; apply Hin; by right|].
  split_and!; [by rewrite H1|intros ch|done..]. rewrite H2, subs_on_channel.
  destruct (decide (ch = c)) as [->|Hne].
  - rewrite decide_False by done. by rewrite decide_True by by left.
  - destruct (decide (ch ∈ l)); [by rewrite decide_True by by right|]. rewrite decide_False; [done|]. set_solver.
Qed.
Lemma remove_all_spec ws m : subs_ok m →
  let m' := remove_all ws m in
  (subscribers m').*1 = VALID_CHANNELS ∧ (∀ ch, subs m' ch = subs m ch ∖ {[ws]}) ∧
  client_channels m' = delete ws (client_channels m) ∧ client_rate m' = delete ws (client_rate m) ∧
  all_clients m' = all_clients m ∖ {[ws]}.
Proof.
  intros Hm. unfold remove_all. cbn zeta. set (m0 := m <| client_channels ::= delete ws |>).
  destruct (fold_channels (λ X, X ∖ {[ws]}) (elements (channels_of m ws)) m0) as (H1 & H2 & H3 & H4 & H5); [apply NoDup_elements| |].
  { intros ch Hch%elem_of_elements. change (ch ∈ (subscribers m).*1). rewrite (so_keys m Hm). by apply (so_valid m Hm ws). }
  set (m1 := foldl _ m0 _) in *. split_and!.
  - change ((subscribers m1).*1 = VALID_CHANNELS). rewrite H1. apply Hm.
  - intros ch. change (subs m1 ch = subs m ch ∖ {[ws]}). rewrite H2. change (subs m0 ch) with (subs m ch).
    destruct (decide (ch ∈ elements (channels_of m ws))) as [|Hn]; [done|].
    assert (ws ∉ subs m ch) by (rewrite (so_both m Hm); by rewrite elem_of_elements in Hn). set_solver.
  - exact H3.
  - change (delete ws (client_rate m1) = delete ws (client_rate m)). by rewrite H4.
  - change (all_clients m1 ∖ {[ws]} = all_clients m ∖ {[ws]}). by rewrite H5.
Qed.
Lemma remove_all_ok ws m : subs_ok m → subs_ok (remove_all ws m).
Proof.
  intros Hm. destruct (remove_all_spec ws m Hm) as (H1 & H2 & H3 & _). 
  assert (Hc : ∀ ws', channels_of (remove_all ws m) ws' = if decide (ws' = ws) then ∅ else channels_of m ws').
  { intros ws'. unfold channels_of, get_or. rewrite H3, lookup_delete. by repeat case_decide; subst. }
  split; [done|intros ch ws'|intros ws' ch]; rewrite Hc.
  - rewrite H2. pose proof (so_both m Hm ch ws'). case_decide; set_solver.
  - case_decide; [set_solver|apply (so_valid m Hm)].
Qed.

(** ** Who is known to the manager *)

Lemma owned_mono H H' m : H ⊆ H' → owned H m → owned H' m.
Proof. intros Hs Ho ws Hws. apply Ho. set_solver. Qed.
Lemma owned_insert H ws X m : ws ∈ H → owned H m → owned H (m <| client_channels ::= <[ws := X]> |>).
Proof. intros Hin Ho ws' Hws'. cbn. rewrite lookup_insert_ne; [by apply Ho|]. intros ->. done. Qed.
Lemma add_owned H ws ch m : ws ∈ H → owned H m → owned H (add_subscriber ws ch m).2.
Proof.
  intros Hin Ho. unfold add_subscriber. repeat case_match; try done. cbn [snd]. by apply owned_insert.
Qed.
Lemma remove_owned H ws ch m : ws ∈ H → owned H m → owned H (remove_subscriber ws ch m).2.
Proof.
  intros Hin Ho. unfold remove_subscriber. repeat case_match; try done. cbn [snd]. by apply owned_insert.
Qed.
Lemma rate_owned H now ws m : ws ∈ H → owned H m → owned H (check_rate now ws m).2.
Proof.
  intros Hin Ho ws' Hws'. cbn. rewrite lookup_insert_ne; [by apply Ho|]. intros ->. done.
Qed.
Lemma remove_all_owned H ws m : subs_ok m → owned H m → owned (H ∖ {[ws]}) (remove_all ws m).
Proof.
  intros Hm Ho ws' Hws'. destruct (remove_all_spec ws m Hm) as (_ & _ & -> & -> & ->).
  destruct (decide (ws' = ws)) as [->|Hne]; [rewrite !lookup_delete_eq; set_solver|].
  rewrite !lookup_delete_ne by done. destruct (Ho ws'); [set_solver|]. set_solver.
Qed.
Lemma drop_dead l H m : subs_ok m → owned H m → subs_ok (foldl (flip remove_all) m l) ∧ owned H (foldl (flip remove_all) m l).
Proof.
  revert m. induction l as [|ws l IH]; intros m Hm Ho; [done|]. cbn. apply IH; [by apply remove_all_ok|].
  eapply owned_mono; [|by apply remove_all_owned]. set_solver.
Qed.

(** ** The invariant of a server *)

Record server_ok (s : WSServer) : Prop := mkServerOk {
  vo_subs : subs_ok (manager s); vo_owned : owned (handlers s) (manager s) }.

Section Invariant.
Context `{F : PyFloat}.
Lemma on_text_ok now ws text m H : ws ∈ H → subs_ok m → owned H m →
  subs_ok (on_text now ws text m).2 ∧ owned H (on_text now ws text m).2.
Proof.
  intros Hin Hm Ho. unfold on_text.
  assert (Hm' : subs_ok (check_rate now ws m).2) by (destruct Hm; by split).
  pose proof (rate_owned H now ws m Hin Ho) as Ho'. destruct (check_rate now ws m) as [ok m']. cbn [snd] in *.
  destruct ok; cbn [negb]; [|done]. destruct (loads text) as [[| | | | | |d]|]; try done.
  destruct (jget d "type" JNull); try done. unfold on_channel_field. repeat case_decide; [done| | |done].
  - destruct (jget d "channel" JNull) as [| | | |ch| |]; try done.
    pose proof (add_subs_ok ws ch m' Hm'). pose proof (add_owned H ws ch m' Hin Ho').
    by destruct (add_subscriber ws ch m') as [[[] ?] ?].
  - destruct (jget d "channel" JNull) as [| | | |ch| |]; try done.
    pose proof (remove_subs_ok ws ch m' Hm'). pose proof (remove_owned H ws ch m' Hin Ho').
    by destruct (remove_subscriber ws ch m') as [[[] ?] ?].
Qed.
Lemma stop_ok m H : subs_ok m → subs_ok (ws_stop m) ∧ owned H (ws_stop m).
Proof.
  intros Hm. split; [|intros ws _; cbn; by rewrite !lookup_empty]. split; cbn.
  - rewrite <-list_fmap_compose. rewrite <-(so_keys m Hm). by apply list_fmap_ext.
  - intros ch ws. unfold channels_of, get_or, subs, dget_or. cbn. rewrite lookup_empty. cbn.
    assert (Hd : ∀ d : dict string (gset socket), default ∅ (dget (prod_map id (λ _, ∅) <$> d) ch) = (∅ : gset socket)).
    { induction d as [|[c X] d IH]; [done|]. csimpl. by case_decide. }
    rewrite Hd. set_solver.
  - intros ws ch. unfold channels_of, get_or. cbn. rewrite lookup_empty. set_solver.
Qed.
Lemma ws_do_ok e s : server_ok s → server_ok (ws_do s e).
Proof.
  intros [Hm Ho]. destruct e as [expected auth ws|ws|ws|now ws text|ws|i ch data|i ws sent|i|]; cbn [ws_do].
  - unfold ws_connect. by destruct (admit_ws _ _ _).
  - unfold ws_prepared. case_decide; [|done]. split; cbn; [by destruct Hm|].
    intros ws' Hws'. cbn. destruct (Ho ws'); [set_solver|]. set_solver.
  - done.
  - unfold ws_text. case_decide as Hin; [|done]. destruct (on_text_ok now ws text (manager s) (handlers s) Hin Hm Ho).
    by destruct (on_text now ws text (manager s)).
  - unfold ws_ends. case_decide; [|done]. split; cbn; [by apply remove_all_ok|by apply remove_all_owned].
  - unfold broadcast_starts. destruct (dget _ _); [|done]. by case_decide.
  - unfold broadcast_sends. destruct (broadcasts s !! i); [|done]. case_decide; [|done]. by destruct sent.
  - unfold broadcast_ends. destruct (broadcasts s !! i); [|done]. case_decide; [|done].
    by destruct (drop_dead (elements (b_dead b)) (handlers s) (manager s) Hm Ho).
  - by destruct (stop_ok (manager s) (handlers s) Hm).
Qed.
Lemma new_server_ok : server_ok new_server.
Proof.
  split; [split|]; cbn.
  - done.
  - intros ch ws. unfold channels_of, get_or, subs, dget_or. cbn. repeat case_decide; set_solver.
  - intros ws ch. unfold channels_of, get_or. cbn. set_solver.
  - by intros ws _.
Qed.
Lemma run_ws_ok es s : server_ok s → server_ok (run_ws s es).
Proof. revert s. induction es as [|e es IH]; intros s Hs; [done|]. apply IH. by apply ws_do_ok. Qed.
End Invariant.

(** The limit on the channels of a client is never met. *)
Lemma channels_bound m ws : subs_ok m → Z.of_nat (size (channels_of m ws)) <= 4.
Proof.
  intros Hm. assert (channels_of m ws ⊆ list_to_set VALID_CHANNELS) as Hs.
  { intros ch Hch. apply elem_of_list_to_set. by apply (so_valid m Hm ws). }
  apply subseteq_size in Hs. change (size (list_to_set VALID_CHANNELS : gset string)) with 4%nat in Hs. lia.
Qed.

(** ** The rate of a client *)

(** The verdicts on texts that arrive at the times [ts] *)
Fixpoint verdicts (ws : socket) (ts : list float) (m : WebSocketManager) : list bool :=
  match ts with
  | [] => []
  | t :: ts => (check_rate t ws m).1 :: verdicts ws ts (check_rate t ws m).2
  end.
(** Any two of the times are less than a second apart. *)
Fixpoint close_times (ts : list float) : bool :=
  match ts with
  | [] => true
  | t :: ts => forallb (λ u, flt (fsub u (float_of_Z 1)) t) ts && close_times ts
  end.
(** A client that stays above the limit is refused from the eleventh text on. *)
Lemma ws_burst_refused ws ts m i : close_times ts = true → (10 <= i)%nat → (i < length ts)%nat →
  verdicts ws ts m !! i = Some false.
Proof.
  (* generalised: [n] times of the same second are on record already *)
  assert (Hgen : ∀ ts m old i, Forall (λ o, Forall (λ u, flt (fsub u (float_of_Z 1)) o = true) ts) old →
    old ⊆+ get_or (client_rate m) ws [] → close_times ts = true → (10 <= length old + i)%nat → (i < length ts)%nat →
    verdicts ws ts m !! i = Some false).
  { clear. induction ts as [|t ts IH]; intros m old i Hold Hsub Hc Hi Hlen; [cbn in Hlen; lia|].
    cbn in Hc. apply andb_true_iff in Hc as [Ht Hc].
    assert (Hkept : old ⊆+ filter (λ o, flt (fsub t (float_of_Z 1)) o = true) (get_or (client_rate m) ws [])).
    { apply submseteq_Permutation in Hsub as [k Hk]. rewrite Hk, list.filter_app, (filter_all _ old).
      - apply submseteq_inserts_r. done.
      - intros o Ho. pose proof (Forall_in _ _ _ Hold Ho) as H. by inversion H. }
    assert (Hnow : old ++ [t] ⊆+ filter (λ o, flt (fsub t (float_of_Z 1)) o = true) (get_or (client_rate m) ws []) ++ [t])
      by by apply submseteq_app.
    destruct i as [|i].
    - cbn. f_equal. apply Z.leb_gt. apply submseteq_length in Hnow. rewrite length_app in Hnow. cbn in Hnow. unfold WS_RATE_LIMIT. lia.
    - cbn [verdicts lookup list_lookup]. apply (IH _ (old ++ [t])).
      + apply list.Forall_app. split.
        * eapply list.Forall_impl; [exact Hold|]. intros o Ho. by inversion Ho.
        * constructor; [|done]. apply Forall_intro. intros u Hu. rewrite forallb_forall in Ht. apply Ht. by apply list_elem_of_In.
      + unfold get_or at 1. cbn. rewrite lookup_insert_eq. exact Hnow.
      + done.
      + rewrite length_app. cbn. lia.
      + cbn in Hlen. lia. }
  intros Hc Hi Hl. apply (Hgen ts m []); [done|apply submseteq_nil_l|done|cbn; lia|done].
Qed.

(** ** Properties *)

(** C34: whatever connects, subscribes, is dropped, ends or is broadcast, in any
    order, a socket is among the subscribers of a channel exactly when the
    channel is recorded for the socket, no channel but the four exists, the
    limit of ten channels per client never refuses anybody, and once its
    handler has ended nothing of a socket is left. *)
Theorem ws_subscriptions_consistent `{F : PyFloat} (es : list ws_step) (ws : socket) :
  let s := run_ws new_server es in
  (∀ ch, ws ∈ subs (manager s) ch ↔ ch ∈ channels_of (manager s) ws) ∧
  (subscribers (manager s)).*1 = VALID_CHANNELS ∧
  (∀ ch, (add_subscriber ws ch (manager s)).1 ≠ (false, "max subscriptions (10) reached")) ∧
  (ws ∉ handlers s → channels_of (manager s) ws = ∅ ∧ client_rate (manager s) !! ws = None ∧
     ws ∉ all_clients (manager s) ∧ (∀ ch, ws ∉ subs (manager s) ch)).
Proof.
  intros s. destruct (run_ws_ok es new_server new_server_ok) as [Hm Ho]. fold s in Hm, Ho. split_and!.
  - intros ch. apply (so_both _ Hm).
  - apply Hm.
  - intros ch. pose proof (channels_bound _ ws Hm). unfold add_subscriber, MAX_SUBSCRIPTIONS_PER_CLIENT.
    case_bool_decide; [|done]. cbn. case_bool_decide; [done|].
    destruct (Z.leb_spec 10 (Z.of_nat (size (channels_of (manager s) ws)))); [lia|done].
  - intros Hws. destruct (Ho ws Hws) as (H1 & H2 & H3).
    assert (Hc : channels_of (manager s) ws = ∅) by (unfold channels_of, get_or; by rewrite H1).
    split_and!; [done..|]. intros ch Hin%(so_both _ Hm). rewrite Hc in Hin. set_solver.
Qed.

(** ** What the limits do not limit *)

Module WsRuns.
#[export] Instance float_text : PyFloat := λ r, r.
Definition join (ws : socket) : list ws_step := [WConnect "t" "Bearer t" ws; WPrepared ws].
Definition listen (ws : socket) : ws_step :=
  WText (float_of_Z 5) ws (dumps (JObj [("type", JStr "subscribe"); ("channel", JStr "new_tx")])).
(** A client that fails a broadcast is dropped, and subscribes again. *)
Definition dropped : list ws_step :=
  join 1 ++ [listen 1; WBroadcast 0 "new_tx" [] ; WSends 0 1 false; WBroadcastEnds 0; listen 1].
(** Connections admitted before any of them is counted *)
Definition crowd : list ws_step :=
  (λ n, WConnect "t" "Bearer t" (Z.of_nat n)) <$> seq 0 101.
Definition overrun : list ws_step := crowd ++ ((λ n, WPrepared (Z.of_nat n)) <$> seq 0 101).
End WsRuns.
#[local] Existing Instance WsRuns.float_text.

(** The client is not counted any more, but hears the channel. *)
Lemma dropped_client_listens :
  connected_count (manager (run_ws new_server WsRuns.dropped)) = 0 ∧
  1 ∈ subs (manager (run_ws new_server WsRuns.dropped)) "new_tx".
Proof. split; [vm_compute; reflexivity|]. apply (bool_decide_unpack _). vm_compute. exact I. Qed.
(** The limit is tested before [ws.prepare] and the client counted after it. *)
Lemma ws_limit_overrun : connected_count (manager (run_ws new_server WsRuns.overrun)) = MAX_WS_CONNECTIONS + 1.
Proof. vm_compute. reflexivity. Qed.
(** One admission at a time keeps the limit. *)
Lemma ws_limit_alone `{F : PyFloat} expected auth ws s : connected_count (manager s) <= MAX_WS_CONNECTIONS → preparing s = ∅ →
  connected_count (manager (ws_prepared ws (ws_connect expected auth ws s))) <= MAX_WS_CONNECTIONS.
Proof.
  intros Hle Hp. unfold ws_connect, admit_ws. destruct (check_ws_auth expected auth) as [[]|];
    [|unfold ws_prepared; rewrite Hp; by rewrite decide_False by set_solver..].
  destruct (Z.leb_spec MAX_WS_CONNECTIONS (connected_count (manager s))); unfold ws_prepared.
  - rewrite Hp. by rewrite decide_False by set_solver.
  - rewrite decide_True by (cbn; set_solver). unfold connected_count in *. cbn.
    pose proof (size_union_alt {[ws]} (all_clients (manager s))) as Hs. rewrite size_singleton in Hs.
    assert (size (all_clients (manager s) ∖ {[ws]}) ≤ size (all_clients (manager s)))%nat by (apply subseteq_size; set_solver).
    lia.
Qed.
