(* ===== verification/Rpc.v ===== *)
(** * The JSON-RPC server

    [network/rpc.py]: from an HTTP request to the call of a method and back.
    The server does not know what its methods do: [S] is the state they share,
    [E] what the surroundings give one call (the time, random bytes), and a
    method is a computation that receives its arguments by name.  A call runs
    from start to end before the next one of its batch.

    An exception that leaves [_exec] is an answer 500 of the web framework; an
    exception of the method is an answer of the protocol. *)
From Stdlib Require Import Floats.SpecFloat.
From S2P Require Import Prelude PyStr Json JsonText Config Limits WebSocket.
Open Scope Z_scope.

Definition MAX_RPC_BODY : Z := 1024 * 1024.
Definition MAX_RPC_BATCH : Z := 50.
Definition PROTECTED_METHODS : list string :=
  ["qv_newWallet"; "qv_listWallets"; "qv_getWalletKeys"; "qv_notarize"; "qv_store"; "qv_share"; "qv_registerKey";
   "qv_sendRawTransaction"; "qv_getSharedSecret"; "qv_decapsulateShared"; "qv_getSharedWithMe"; "qv_submitEvidence";
   "qv_registerValidator"; "qv_revokeKey"; "qv_stake"; "qv_delegate"; "qv_unstake"; "qv_transfer"; "qv_issueToken";
   "qv_mintToken"; "qv_transferToken"; "qv_registerWebhook"; "qv_listWebhooks"; "qv_deleteWebhook"].
Definition TLS_REQUIRED_METHODS : list string := ["qv_getSharedSecret"; "qv_decapsulateShared"].
Definition RATE_EXEMPT_PATHS : list string := ["/"; "/api/v1/health"; "/api/v1/info"].

(** ** Requests and answers *)

(** [rq_body] is the text of the body, or the exception of reading and decoding
    it; [rq_length] the announced length. *)
Record Request := mkRequest {
  rq_method : string; rq_path : string; rq_remote : string; rq_length : option Z;
  rq_body : result string; rq_auth : string }.
(** The status and the value of the answer *)
Record Response := mkResponse { rs_status : Z; rs_value : JVal }.

Definition rpc_result (rid value : JVal) : dict string JVal :=
  [("jsonrpc", JStr "2.0"); ("id", rid); ("result", value)].
Definition rpc_error (rid : JVal) (code : Z) (msg : string) : dict string JVal :=
  [("jsonrpc", JStr "2.0"); ("id", rid); ("error", JObj [("code", JInt code); ("message", JStr msg)])].

(** [f"{v}"] of a value that can be a key of a dictionary *)
Definition py_text (v : JVal) : string :=
  match v with
  | JNull => "None"
  | JBool b => if b then "True" else "False"
  | JInt z => str_of_Z z
  | JFloat r => r
  | JStr s => s
  | _ => EmptyString
  end.
Definition hashable (v : JVal) : bool := match v with JList _ | JObj _ => false | _ => true end.
(** [str(e)]; the texts Python gives its own exceptions are left out. *)
Definition exn_text (e : exn) : string := match e with ValueError msg => msg | _ => EmptyString end.
Definition cut_message (msg : string) : string := if 200 <? str_len msg then str_take 200 msg +:+ "..." else msg.

Section Rpc.
Context {S E : Type}.

(** The names of the parameters, each with a default, and the body *)
Record Method := mkMethod { me_params : list string; me_call : E → dict string JVal → M S JVal }.
Record RPCServer := mkRPC { auth_token : string; tls_active : bool; methods : dict string Method }.
(** [method]: [_register_rpc] calls it for each of the table. *)
Definition register_method (name : string) (fn : Method) (srv : RPCServer) : RPCServer :=
  mkRPC (auth_token srv) (tls_active srv) (dset (methods srv) name fn).

(** [fn( **params )]: an argument with no parameter is a [TypeError]. *)
Definition call_named (fn : Method) (e : E) (args : dict string JVal) : M S JVal :=
  if forallb (λ kv : string * JVal, bool_decide (kv.1 ∈ me_params fn)) args then me_call fn e args else raise TypeError.
Definition respond (fn : Method) (e : E) (rid : JVal) (args : dict string JVal) : M S (dict string JVal) :=
  v ← call_named fn e args; mret (rpc_result rid v).
Definition dispatch (fn : Method) (e : E) (rid params : JVal) : M S (dict string JVal) :=
  match params with
  | JList l =>
      if (length (me_params fn) <? length l)%nat then
        mret (rpc_error rid (-32602) ("too many positional params: expected at most " +:+
          str_of_Z (Z.of_nat (length (me_params fn))) +:+ ", got " +:+ str_of_Z (Z.of_nat (length l))))
      else respond fn e rid (zip (me_params fn) l)
  | JObj d => respond fn e rid d
  | _ => respond fn e rid []
  end.
(** [try: m; except Exception as e: h(e)] *)
Definition recover {A} (h : exn → A) (m : M S A) : M S A := λ s,
  match m s with (Ok r, s') => (Ok r, s') | (Raise e, s') => (Ok (h e), s') end.
Definition answered (rid : JVal) (m : M S (dict string JVal)) : M S (dict string JVal) :=
  recover (λ e, rpc_error rid (-32603) (cut_message (exn_text e))) m.

Section Exec.
Context (srv : RPCServer) (token : string).
(** [_exec] *)
Definition exec (e : E) (req : JVal) : M S (dict string JVal) :=
  req ← lift (as_dict req);
  let rid := jget req "id" JNull in
  let method := jget req "method" (JStr EmptyString) in
  let params := jget req "params" (JObj []) in
  if negb (hashable method) then raise TypeError
  else
    match (match method with JStr name => (λ fn, (name, fn)) <$> dget (methods srv) name | _ => None end) with
    | None => mret (rpc_error rid (-32601) ("unknown method: " +:+ py_text method))
    | Some (name, fn) =>
        allowed ← (if bool_decide (name ∈ PROTECTED_METHODS) then lift (compare_digest token (auth_token srv)) else mret true);
        if negb allowed then mret (rpc_error rid (-32600) "authentication required for this method")
        else if bool_decide (name ∈ TLS_REQUIRED_METHODS) && negb (tls_active srv) then
          mret (rpc_error rid (-32600) (name +:+ " requires TLS. Start node with --tls-cert/--tls-key or --tls-self-signed"))
        else answered rid (dispatch fn e rid params)
    end.
(** [[await self._exec(r, token) for r in body]]; [env n] surrounds the [n]-th call. *)
Fixpoint exec_all (env : nat → E) (n : nat) (reqs : list JVal) : M S (list JVal) :=
  match reqs with
  | [] => mret []
  | r :: rest => x ← exec (env n) r; xs ← exec_all env (Datatypes.S n) rest; mret (JObj x :: xs)
  end.
End Exec.

(** The token of the header, or the empty one *)
Definition request_token (auth : string) : string := default EmptyString (bearer auth).
(** [_handle] *)
Definition reply (r : dict string JVal) : Response := mkResponse 200 (JObj r).
Context `{F : PyFloat}.
Definition handle_body (srv : RPCServer) (env : nat → E) (auth : string) (body : JVal) : M S Response :=
  let token := request_token auth in
  match body with
  | JList l =>
      if MAX_RPC_BATCH <? Z.of_nat (length l) then
        mret (reply (rpc_error JNull (-32600) ("batch too large: " +:+ str_of_Z (Z.of_nat (length l)) +:+ " > " +:+ str_of_Z MAX_RPC_BATCH)))
      else xs ← exec_all srv token env 0 l; mret (mkResponse 200 (JList xs))
  | _ => x ← exec srv token (env 0%nat) body; mret (reply x)
  end.
Definition handle_request (srv : RPCServer) (env : nat → E) (rq : Request) : M S Response :=
  if match rq_length rq with Some n => MAX_RPC_BODY <? n | None => false end
  then mret (reply (rpc_error JNull (-32600) "request body too large"))
  else match rq_body rq with
       | Raise _ => mret (reply (rpc_error JNull (-32700) "Parse error"))
       | Ok text =>
           if MAX_RPC_BODY <? str_len (utf8 text) then mret (reply (rpc_error JNull (-32600) "request body too large"))
           else match loads text with
                | None => mret (reply (rpc_error JNull (-32700) "Parse error"))
                | Some body => handle_body srv env (rq_auth rq) body
                end
       end.
(** [_rate_limit_middleware] *)
Definition exempt (rq : Request) : bool :=
  (bool_decide (rq_method rq = "GET") && bool_decide (rq_path rq ∈ RATE_EXEMPT_PATHS))
  || bool_decide (rq_remote rq ∈ ["127.0.0.1"; "::1"; "localhost"]).
Definition admit_request (now : float) (rq : Request) (l : RateLimiter) : bool * RateLimiter :=
  if exempt rq then (true, l) else limiter_check now (rq_remote rq) l.

(** [_info] *)
Definition public_methods (srv : RPCServer) : list string :=
  merge_sort String.le (filter (λ m, m ∉ PROTECTED_METHODS) (methods srv).*1).
Definition info (srv : RPCServer) : dict string JVal :=
  [("name", JStr "QBit Network PQC Blockchain"); ("tls", JBool (tls_active srv));
   ("methods", JList (JStr <$> public_methods srv))].

(** A request to the server: the rate limit of its address, then the route.
    An exception that leaves the handler is a 500. *)
Definition too_many : Response := mkResponse 429 (JObj (rpc_error JNull (-32000) "rate limit exceeded")).
Definition route (srv : RPCServer) (env : nat → E) (rq : Request) : M S Response :=
  if bool_decide (rq_path rq = "/") then
    if bool_decide (rq_method rq = "POST") then recover (λ _, mkResponse 500 JNull) (handle_request srv env rq)
    else if bool_decide (rq_method rq ∈ ["GET"; "HEAD"]) then mret (reply (info srv))
    else mret (mkResponse 405 JNull)
  else mret (mkResponse 404 JNull).
Definition serve (srv : RPCServer) (env : nat → E) (now : float) (rq : Request) : M (RateLimiter * S) Response := λ ls,
  let (ok, l) := admit_request now rq ls.1 in
  if ok : bool then let (r, s) := route srv env rq ls.2 in (r, (l, s)) else (Ok too_many, (l, ls.2)).

(** ** Who may call what *)

Definition callable (srv : RPCServer) (token name : string) : Prop :=
  (name ∈ PROTECTED_METHODS → token = auth_token srv) ∧ (name ∈ TLS_REQUIRED_METHODS → tls_active srv = true).
Lemma compare_digest_true a b : compare_digest a b = Ok true → a = b.
Proof. unfold compare_digest. destruct (_ && _); [|done]. intros [= H]. by apply bool_decide_eq_true in H. Qed.

(** A property of computations that the server carries from its methods to
    itself: it holds of returning and raising, and survives sequencing and the
    handling of exceptions. *)
Class Closed (P : ∀ A, M S A → Prop) := {
  closed_lift A (r : result A) : P A (lift r);
  closed_bind A B (m : M S A) (k : A → M S B) : P A m → (∀ a, P B (k a)) → P B (m ≫= k);
  closed_recover A (h : exn → A) (m : M S A) : P A m → P A (recover h m);
}.
#[export] Instance closed_keeps (I : S → Prop) : Closed (λ A, keeps (A := A) I).
Proof.
  split; [by intros; apply keeps_lift|by intros; apply keeps_bind|]. intros A h m Hm s Hs. specialize (Hm s Hs).
  unfold wp, recover in *. by destruct (m s) as [[]].
Qed.
(** From related states: the same answer, and related states again *)
Definition same_answer (R : S → S → Prop) (A : Type) (m : M S A) : Prop :=
  ∀ s1 s2, R s1 s2 → (m s1).1 = (m s2).1 ∧ R (m s1).2 (m s2).2.
#[export] Instance closed_same (R : S → S → Prop) : Closed (same_answer R).
Proof.
  split.
  - by intros A r s1 s2 HR.
  - intros A B m k Hm Hk s1 s2 HR. destruct (Hm s1 s2 HR) as [H1 H2]. unfold mbind, M_bind.
    destruct (m s1) as [r1 t1], (m s2) as [r2 t2]. cbn in H1, H2. subst r2. destruct r1; [by apply Hk|done].
  - intros A h m Hm s1 s2 HR. destruct (Hm s1 s2 HR) as [H1 H2]. unfold recover.
    destruct (m s1) as [r1 t1], (m s2) as [r2 t2]. cbn in H1, H2. subst r2. by destruct r1.
Qed.

Section Carries.
Context (P : ∀ A, M S A → Prop) `{!Closed P} (srv : RPCServer) (token : string).
Hypothesis Hcalls : ∀ name fn e args, dget (methods srv) name = Some fn → callable srv token name → P _ (me_call fn e args).

Lemma closed_ret {A} (a : A) : P A (mret a).
Proof. apply (closed_lift A (Ok a)). Qed.
Lemma closed_raise {A} e : P A (raise e).
Proof. apply (closed_lift A (Raise e)). Qed.
Lemma dispatch_carries fn e rid params : (∀ args, P _ (me_call fn e args)) → P _ (dispatch fn e rid params).
Proof.
  intros Hfn. assert (Hr : ∀ args, P _ (respond fn e rid args)).
  { intros args. unfold respond, call_named. apply closed_bind; [|intros v; apply closed_ret].
    destruct (forallb _ args); [apply Hfn|apply closed_raise]. }
  unfold dispatch. destruct params; try apply Hr. destruct (_ <? _)%nat; [apply closed_ret|apply Hr].
Qed.
Lemma exec_carries e req : P _ (exec srv token e req).
Proof.
  unfold exec. apply closed_bind; [apply closed_lift|]. intros d. destruct (negb (hashable _)); [apply closed_raise|].
  destruct (match jget d "method" (JStr EmptyString) with JStr name => _ | _ => None end) as [[name fn]|] eqn:Em; [|apply closed_ret].
  assert (Hfn : dget (methods srv) name = Some fn).
  { destruct (jget d "method" _); try done. destruct (dget (methods srv) s) eqn:Es; [|done]. cbn in Em. by injection Em as <- <-. }
  assert (Hrest : ∀ allowed, (allowed = true → name ∈ PROTECTED_METHODS → token = auth_token srv) →
    P _ (if negb allowed then mret (rpc_error (jget d "id" JNull) (-32600) "authentication required for this method")
         else if bool_decide (name ∈ TLS_REQUIRED_METHODS) && negb (tls_active srv)
         then mret (rpc_error (jget d "id" JNull) (-32600)
                (name +:+ " requires TLS. Start node with --tls-cert/--tls-key or --tls-self-signed"))
         else answered (jget d "id" JNull) (dispatch fn e (jget d "id" JNull) (jget d "params" (JObj []))))).
  { intros [] Ha; [|apply closed_ret]. cbn [negb]. destruct (bool_decide _ && _) eqn:Ht; [apply closed_ret|].
    apply closed_recover, dispatch_carries. intros args. apply (Hcalls name); [done|]. split; [by apply Ha|].
    intros Htls. rewrite bool_decide_eq_true_2 in Ht by done. by apply negb_false_iff. }
  destruct (bool_decide (name ∈ PROTECTED_METHODS)) eqn:Hp.
  - destruct (compare_digest token (auth_token srv)) as [ok|err] eqn:Ec; [|apply (closed_raise err)].
    apply (Hrest ok). intros -> _. by apply compare_digest_true.
  - apply (Hrest true). intros _ Hin. rewrite bool_decide_eq_true_2 in Hp by done. done.
Qed.
Lemma exec_all_carries env n reqs : P _ (exec_all srv token env n reqs).
Proof.
  revert n. induction reqs as [|r reqs IH]; intros n; cbn; [apply closed_ret|].
  apply closed_bind; [apply exec_carries|]. intros x. apply closed_bind; [apply IH|]. intros xs. apply closed_ret.
Qed.
Lemma route_carries env rq : request_token (rq_auth rq) = token → P _ (route srv env rq).
Proof.
  intros Ht. assert (Hb : ∀ body, P _ (handle_body srv env (rq_auth rq) body)).
  { intros body. unfold handle_body. rewrite Ht.
    destruct body; try (apply closed_bind; [apply exec_carries|intros x; apply closed_ret]).
    destruct (MAX_RPC_BATCH <? _); [apply closed_ret|]. apply closed_bind; [apply exec_all_carries|]. intros xs. apply closed_ret. }
  unfold route, handle_request. repeat (case_bool_decide; try apply closed_ret). apply closed_recover.
  destruct (match rq_length rq with Some n => _ | None => _ end); [apply closed_ret|].
  destruct (rq_body rq); [|apply closed_ret]. destruct (_ <? _); [apply closed_ret|].
  destruct (loads a); [apply Hb|apply closed_ret].
Qed.
End Carries.

(** ** Answers *)

Definition request_id (req : JVal) : JVal := match req with JObj d => jget d "id" JNull | _ => JNull end.
(** A request [_exec] can read *)
Definition well_formed (req : JVal) : bool :=
  match req with JObj d => hashable (jget d "method" (JStr EmptyString)) | _ => false end.
Definition answers (rid : JVal) (x : JVal) : Prop :=
  ∃ r, x = JObj r ∧ ((∃ v, r = rpc_result rid v) ∨ ∃ code msg, r = rpc_error rid code msg).

Lemma answered_answers rid m s : (∀ r s', m s = (Ok r, s') → answers rid (JObj r)) →
  ∃ r s', answered rid m s = (Ok r, s') ∧ answers rid (JObj r).
Proof.
  intros Hm. unfold answered, recover. destruct (m s) as [[r|e] s'] eqn:Em.
  - exists r, s'. split; [done|]. by eapply Hm.
  - eexists _, s'. split; [done|]. eexists. split; [done|]. right. eauto.
Qed.
Lemma respond_answers fn e rid args s r s' : respond fn e rid args s = (Ok r, s') → answers rid (JObj r).
Proof.
  unfold respond, mbind, M_bind. destruct (call_named fn e args s) as [[v|] s1]; [|done]. intros [= <- _].
  eexists. split; [done|]. left. eauto.
Qed.
Lemma dispatch_answers fn e rid params s r s' : dispatch fn e rid params s = (Ok r, s') → answers rid (JObj r).
Proof.
  unfold dispatch. destruct params; try apply respond_answers. destruct (_ <? _)%nat; [|apply respond_answers].
  intros [= <- _]. eexists. split; [done|]. right. eauto.
Qed.
Lemma exec_answers srv token e req s : well_formed req = true → is_ascii token && is_ascii (auth_token srv) = true →
  ∃ r s', exec srv token e req s = (Ok r, s') ∧ answers (request_id req) (JObj r).
Proof.
  intros Hw Ha. destruct req as [| | | | | |d]; try done. cbn in Hw. unfold exec, mbind at 1, M_bind at 1, lift. cbn [as_dict request_id].
  rewrite Hw. cbn [negb]. assert (Herr : ∀ code msg, ∃ r s', (mret (rpc_error (jget d "id" JNull) code msg) : M S _) s = (Ok r, s') ∧
    answers (jget d "id" JNull) (JObj r)) by (intros code msg; eexists _, s; split; [done|]; eexists; split; [done|]; right; eauto).
  destruct (match jget d "method" (JStr EmptyString) with JStr name => _ | _ => None end) as [[name fn]|]; [|apply Herr].
  assert (Hrest : ∀ allowed : bool, ∃ r s', ((if negb allowed then mret (rpc_error (jget d "id" JNull) (-32600) "authentication required for this method")
             else if bool_decide (name ∈ TLS_REQUIRED_METHODS) && negb (tls_active srv)
             then mret (rpc_error (jget d "id" JNull) (-32600)
                    (name +:+ " requires TLS. Start node with --tls-cert/--tls-key or --tls-self-signed"))
             else answered (jget d "id" JNull) (dispatch fn e (jget d "id" JNull) (jget d "params" (JObj [])))) : M S _) s = (Ok r, s')
             ∧ answers (jget d "id" JNull) (JObj r)).
  { intros []; [|apply Herr]. cbn [negb]. destruct (bool_decide _ && negb _); [apply Herr|]. apply answered_answers. intros r s'. apply dispatch_answers. }
  unfold mbind, M_bind. destruct (bool_decide (name ∈ PROTECTED_METHODS)); [|apply (Hrest true)]. unfold lift, compare_digest. rewrite Ha. apply Hrest.
Qed.

(** A protected method without the token *)
Definition refused (srv : RPCServer) (token : string) (req : JVal) : bool :=
  match req with
  | JObj d => match jget d "method" (JStr EmptyString) with
              | JStr name => dmem (methods srv) name && bool_decide (name ∈ PROTECTED_METHODS) && negb (bool_decide (token = auth_token srv))
              | _ => false
              end
  | _ => false
  end.
Definition refusal (req : JVal) : JVal := JObj (rpc_error (request_id req) (-32600) "authentication required for this method").
Lemma exec_refused srv token e req s : is_ascii token && is_ascii (auth_token srv) = true → refused srv token req = true →
  exec srv token e req s = (Ok (rpc_error (request_id req) (-32600) "authentication required for this method"), s).
Proof.
  intros Ha Hr. destruct req as [| | | | | |d]; try done. unfold refused in Hr. unfold exec, mbind, M_bind, lift. cbn [as_dict request_id].
  destruct (jget d "method" (JStr EmptyString)) as [| | | |name| |]; try done. cbn [hashable negb]. unfold dmem in Hr.
  destruct (dget (methods srv) name) as [fn|]; [|done]. cbn [fmap option_fmap option_map]. cbn [andb] in Hr.
  apply andb_true_iff in Hr as [Hp Ht]. rewrite Hp. unfold compare_digest. rewrite Ha.
  by destruct (bool_decide (token = auth_token srv)).
Qed.

(** The state after the calls of a batch, one after the other *)
Fixpoint after_calls (srv : RPCServer) (token : string) (env : nat → E) (n : nat) (reqs : list JVal) (s : S) : S :=
  match reqs with [] => s | r :: rest => after_calls srv token env (Datatypes.S n) rest (exec srv token (env n) r s).2 end.
Lemma exec_all_answers srv token env n reqs s : forallb well_formed reqs = true → is_ascii token && is_ascii (auth_token srv) = true →
  ∃ xs, exec_all srv token env n reqs s = (Ok xs, after_calls srv token env n reqs s) ∧
    Forall2 (λ req x, answers (request_id req) x ∧ (refused srv token req = true → x = refusal req)) reqs xs.
Proof.
  intros Hw Ha. revert n s. induction reqs as [|req reqs IH]; intros n s; [by exists []|].
  cbn in Hw. apply andb_true_iff in Hw as [Hr Hw]. cbn [exec_all after_calls]. unfold mbind, M_bind.
  destruct (exec_answers srv token (env n) req s Hr Ha) as (r & s1 & Hex & Hans). rewrite Hex. cbn [snd].
  destruct (IH Hw (Datatypes.S n) s1) as (xs & Hall & Hxs). rewrite Hall. exists (JObj r :: xs). split; [done|].
  constructor; [|done]. split; [done|]. intros Href. rewrite (exec_refused srv token _ req s Ha Href) in Hex. by injection Hex as <- <-.
Qed.

(** ** Properties *)

(** An element that is no object loses the answers to the calls made before it. *)
Lemma malformed_batch_loses_answers (srv : RPCServer) (env : nat → E) (auth : string) (req : JVal) (s : S) :
  well_formed req = true → is_ascii (request_token auth) && is_ascii (auth_token srv) = true →
  handle_body srv env auth (JList [req; JInt 1]) s = (Raise AttributeError, (exec srv (request_token auth) (env 0%nat) req s).2).
Proof.
  intros Hw Ha. unfold handle_body. cbn [length]. change (MAX_RPC_BATCH <? Z.of_nat 2) with false. cbv iota.
  cbn [exec_all]. unfold mbind, M_bind. destruct (exec_answers srv (request_token auth) (env 0%nat) req s Hw Ha) as (r & s' & -> & _). done.
Qed.
End Rpc.
Arguments Method : clear implicits.
Arguments RPCServer : clear implicits.

(** A counter that anybody reads and the owner of the token adds to *)
Module Counter.
Definition read : Method Z unit := mkMethod [] (λ _ _ s, (Ok (JInt s), s)).
Definition add : Method Z unit := mkMethod ["n"] (λ _ d s, match jget d "n" JNull with JInt n => (Ok JNull, s + n) | _ => (Raise TypeError, s) end).
Definition server : RPCServer Z unit := mkRPC "token" false [("qv_blockNumber", read); ("qv_transfer", add)].
Definition call (id : Z) (name : string) (params : JVal) : JVal :=
  JObj [("id", JInt id); ("method", JStr name); ("params", params)].
Definition batch : list JVal :=
  [call 1 "qv_transfer" (JList [JInt 5]); call 2 "qv_nothing" JNull; call 3 "qv_transfer" (JObj [("m", JInt 5)]);
   call 4 "qv_transfer" (JObj [("n", JInt 7)]); call 5 "qv_blockNumber" JNull].
End Counter.
