(* ===== verification/NodeRpc.v ===== *)
(** * The methods a node serves over JSON-RPC

    [_register_rpc] of [node.py]: the table of the methods with the names and
    defaults of their parameters, the tests of the types of their arguments and
    the values they answer.  The methods that submit a transaction decode their
    arguments to a [request] of [Node] first.  There an argument whose type the
    code does not test, and a boolean given for an integer, is refused at once;
    the code builds the transaction and leaves it to its validation.

    What a call takes from its surroundings (time, random bytes, the number of
    peers, the progress of synchronisation) is a [CallEnv]. *)
From Stdlib Require Import Floats.SpecFloat.
From S2P Require Import Prelude PyStr Json JsonText Config Crypto StateTrie Wallet Transaction Fees Block Receipt ChainState Ledger StateOps Staking ReceiptOps TxPool Chain WalletFile Mlkem Query Node Limits Webhooks WebSocket Rpc.
Open Scope Z_scope.

Definition VERSION : string := "0.8.0".
Definition TOKEN_SYMBOL : string := "QBIT".

(** ** Amounts in tokens *)

(** Python's [a / b] of integers, correctly rounded: the quotient to 120 binary
    places with a last bit for the remainder *)
Definition true_div (a b : Z) : float :=
  let q := a * 2 ^ 120 / b in
  let sticky := if a * 2 ^ 120 mod b =? 0 then 0 else 1 in
  binary_normalize 53 1024 (2 * q + sticky) (-121) false.
(** The nearest integer to [n / d], the even one of two *)
Definition round_half_even (n d : Z) : Z :=
  let q := n / d in let r := n mod d in
  if 2 * r <? d then q else if d <? 2 * r then q + 1 else if Z.even q then q else q + 1.
Fixpoint pad_left (width : nat) (s : string) : string :=
  match width with
  | O => s
  | S w => if (String.length s <=? w)%nat then String "0" (pad_left w s) else s
  end.
(** [f"{x:.8f}"] of a finite float *)
Definition format_8f (x : float) : string :=
  match x with
  | S754_finite sign m e =>
      let units := if 0 <=? e then Z.pos m * 2 ^ e * 10 ^ 8 else round_half_even (Z.pos m * 10 ^ 8) (2 ^ (- e)) in
      (if sign then "-" else EmptyString) +:+ str_of_Z (units / 10 ^ 8) +:+ "." +:+ pad_left 8 (str_of_Z (units mod 10 ^ 8))
  | S754_zero sign => (if sign then "-" else EmptyString) +:+ "0.00000000"
  | S754_infinity sign => if sign then "-inf" else "inf"
  | S754_nan => "nan"
  end.
Definition in_tokens (qubits : Z) : string := format_8f (true_div qubits QUBIT_PER_QBIT) +:+ " " +:+ TOKEN_SYMBOL.
Example in_tokens_1 : in_tokens 1234567891 = "1.23456789 QBIT" ∧ in_tokens 5 = "0.00000001 QBIT" ∧ in_tokens (21 * 10 ^ 15) = "21000000.00000000 QBIT".
Proof. vm_compute. split_and!; reflexivity. Qed.

(** ** Arguments *)

Definition str_arg (d : dict string JVal) (k : string) : result string :=
  match jget d k (JStr EmptyString) with JStr s => Ok s | _ => Raise (ValueError (k +:+ " must be string")) end.
Definition full_str_arg (d : dict string JVal) (k : string) : result string :=
  s ← str_arg d k; guard (is_empty s) (k +:+ " must be a non-empty string") (Ok s).
(** [isinstance(v, int)] *)
Definition int_arg (d : dict string JVal) (k : string) (default : Z) : result Z :=
  let v := jget d k (JInt default) in if is_int v then as_Z v else Raise (ValueError (k +:+ " must be integer")).
Definition opt_int_arg (d : dict string JVal) (k : string) : result (option Z) :=
  match jget d k JNull with
  | JNull => Ok None
  | v => if is_int v then z ← as_Z v; Ok (Some z) else Raise (ValueError (k +:+ " must be an integer or null"))
  end.
Definition opt_str_arg (d : dict string JVal) (k : string) : result (option string) :=
  match jget d k JNull with JNull => Ok None | JStr s => Ok (Some s) | _ => Raise (ValueError (k +:+ " must be string")) end.
(** The arguments of the submitting methods *)
Definition only_int (d : dict string JVal) (k : string) : result Z :=
  match jget d k (JInt 0) with JInt z => Ok z | _ => Raise (ValueError (k +:+ " must be an integer")) end.
Definition only_bool (d : dict string JVal) (k : string) (default : bool) : result bool :=
  match jget d k (JBool default) with JBool b => Ok b | _ => Raise (ValueError (k +:+ " must be a boolean")) end.
Definition fee_arg (d : dict string JVal) (k : string) : result (option Z) :=
  match jget d k JNull with JNull => Ok None | JInt z => Ok (Some z) | _ => Raise (ValueError (k +:+ " must be an integer")) end.

(** ** Answers *)

Definition opt_json (v : option JVal) : JVal := default JNull v.
Definition strs (l : list string) : JVal := JList (JStr <$> l).
Definition path_json (p : list (string * bool)) : JVal := JList ((λ x : string * bool, JList [JStr x.1; JBool x.2]) <$> p).
Definition state_proof_json (p : StateProof) : dict string JVal :=
  [("key", JStr (sp_key p)); ("value", JStr (sp_value p)); ("proof", path_json (sp_proof p)); ("root", JStr (sp_root p))].
Definition document_json (d : DocumentInfo) : JVal :=
  JObj [("tx_id", JStr (di_tx_id d)); ("block_index", JInt (di_block_index d)); ("block_hash", JStr (di_block_hash d));
        ("timestamp", JInt (di_timestamp d)); ("sender", JStr (di_sender d))].
Definition token_json (t : Token) : dict string JVal :=
  [("issuer", JStr (tk_issuer t)); ("name", JStr (tk_name t)); ("symbol", JStr (tk_symbol t)); ("decimals", JInt (tk_decimals t));
   ("max_supply", JInt (tk_max_supply t)); ("total_minted", JInt (tk_total_minted t)); ("transferable", JBool (tk_transferable t));
   ("created_block", JInt (tk_created_block t)); ("created_tx", JStr (tk_created_tx t))].
Definition slash_json (e : SlashEvent) : JVal :=
  JObj [("validator", JStr (sl_validator e)); ("evidence_tx_id", JStr (sl_tx_id e)); ("amount_slashed", JInt (sl_amount e));
        ("block_index", JInt (sl_block e))].
Definition hit_json (h : EventHit) : JVal :=
  JObj [("tx_id", JStr (eh_tx_id h)); ("block_index", JInt (eh_block h)); ("event", JObj (eh_event h))].
Definition address_token_json (t : AddressToken) : JVal :=
  JObj [("token_id", JStr (at_token_id t)); ("symbol", JStr (at_symbol t)); ("name", JStr (at_name t));
        ("decimals", JInt (at_decimals t)); ("amount", JInt (at_amount t))].
Definition fee_json (f : FeeInfo) : JVal :=
  JObj [("base_fee", JInt (fi_base_fee f)); ("next_base_fee", JInt (fi_next_base_fee f));
        ("suggested_priority_fee", JInt (fi_suggested_priority f));
        ("weights", JObj ((λ tw : string * Z, (tw.1, JInt tw.2)) <$> TX_WEIGHTS));
        ("estimated_fees", JObj ((λ te : string * (Z * Z), (te.1, JObj [("min", JInt te.2.1); ("suggested", JInt te.2.2)])) <$> fi_estimated f));
        ("fee_model", JStr (if fi_dynamic f then "dynamic" else "fixed"))].

(** ** State and surroundings *)

Record App := mkApp { app_node : Node; app_hooks : WebhookManager }.
#[export] Instance set_app_node : Setter app_node := λ f x, mkApp (f (app_node x)) (app_hooks x).
#[export] Instance set_app_hooks : Setter app_hooks := λ f x, mkApp (app_node x) (f (app_hooks x)).
Record CallEnv := mkEnv {
  ce_now : Z; ce_clock : string; ce_coins : string; ce_token : string; ce_keys : (string * string) * (string * string);
  ce_peers : Z; ce_progress : JVal; ce_validator : option string; ce_order : gset string → list string }.

Section Table.
Context `{C : Crypto} `{Cfg : ChainConfig} `{K : Kem} `{V : WebEnv}.

(** ** Public methods *)

Abbreviation query := (CallEnv → Node → dict string JVal → result JVal) (only parsing).

Definition q_block_number : query := λ _ n _, Ok (JInt (height (chain n))).
Definition q_get_block : query := λ _ n d,
  match jget d "index" JNull, jget d "block_hash" JNull with
  | JNull, _ =>
      h ← opt_str_arg d "block_hash"; b ← rpc_get_block (chain n) None h; Ok (opt_json (JObj <$> b))
  | _, JNull =>
      i ← opt_int_arg d "index"; b ← rpc_get_block (chain n) i None; Ok (opt_json (JObj <$> b))
  | _, _ => Raise (ValueError "ambiguous: provide either index or block_hash, not both")
  end.
Definition q_get_tx : query := λ _ n d, tid ← str_arg d "tx_id"; Ok (opt_json (JObj <$> rpc_get_tx (chain n) tid)).
Definition q_pending_count : query := λ _ n _, Ok (JInt (Z.of_nat (length (tx_pool (pool (chain n)))))).
Definition q_verify_document : query := λ _ n d,
  h ← str_arg d "document_hash"; Ok (opt_json (document_json <$> verify_document (chain n) h)).
Definition q_get_encryption_pk : query := λ _ n d,
  a ← str_arg d "address"; r ← rpc_get_encryption_pk (chain n) a; Ok (JObj r).
Definition q_peer_count : query := λ e _ _, Ok (JInt (ce_peers e)).
Definition q_node_info : query := λ e n _,
  Ok (JObj [("version", JStr VERSION); ("chain_height", JInt (height (chain n)));
            ("pending_txs", JInt (Z.of_nat (length (tx_pool (pool (chain n)))))); ("peers", JInt (ce_peers e));
            ("validator", opt_json (JStr <$> ce_validator e)); ("validators", strs (rpc_validators (chain n)));
            ("registered_validators", strs (merge_sort String.le (elements (dom (validator_registry (keys (chain n)))))));
            ("wallets", JInt (Z.of_nat (length (wallets n))))]).
Definition q_sync_status : query := λ e _ _, Ok (ce_progress e).
Definition q_validators : query := λ _ n _, Ok (strs (rpc_validators (chain n))).
Definition q_txs_by_sender : query := λ _ n d, a ← str_arg d "address"; Ok (strs (get_txs_by_sender (chain n) a)).
Definition q_txs_by_recipient : query := λ _ n d, a ← str_arg d "address"; Ok (strs (get_txs_by_recipient (chain n) a)).
Definition q_get_stake : query := λ _ n d,
  v ← str_arg d "validator_address";
  Ok (JObj [("validator_address", JStr v); ("total_stake", JInt (get_validator_stake (chain n) v));
            ("stakers", JObj ((λ sz : string * Z, (sz.1, JInt sz.2)) <$> dget_or (stakes (staking (chain n))) v []))]).
Definition q_validator_stakes : query := λ _ n _,
  Ok (JList ((λ x : string * Z, JObj [("validator", JStr x.1); ("total_stake", JInt x.2)]) <$> active_validators (staking (chain n)))).
Definition q_get_epoch : query := λ _ n _,
  let ep := current_epoch (staking (chain n)) in
  Ok (JObj [("epoch", JInt ep);
            ("validators", JList ((λ x : string * Z, JObj [("address", JStr x.1); ("stake", JInt x.2)])
               <$> get_epoch_validators (chain n) (Some ep)))]).
Definition q_slashing_events : query := λ _ n d,
  v ← str_arg d "validator"; Ok (JList (slash_json <$> get_slashing_events (chain n) v)).
Definition q_get_balance : query := λ _ n d,
  a ← full_str_arg d "address";
  Ok (JObj [("address", JStr a); ("balance", JInt (get_balance (chain n) a)); ("formatted", JStr (in_tokens (get_balance (chain n) a)))]).
Definition fee_model (n : Node) : JVal := JStr (if next_is_dynamic (chain n) then "dynamic" else "fixed").
Definition q_get_supply : query := λ _ n _,
  let s := get_total_supply (chain n) in
  Ok (JObj [("total_minted", JInt (sup_minted s)); ("total_burned", JInt (sup_burned s)); ("circulating", JInt (sup_circulating s));
            ("max_supply", JInt MAX_SUPPLY); ("formatted_circulating", JStr (in_tokens (sup_circulating s))); ("fee_model", fee_model n)]).
Definition q_fee_info : query := λ _ n _, f ← rpc_get_fee_info (chain n); Ok (fee_json f).
Definition q_state_proof : query := λ _ n d,
  a ← full_str_arg d "address";
  kt ← match jget d "key_type" (JStr "balance") with JStr s => Ok s | _ => Raise (ValueError "key_type must be a string") end;
  guard (negb (bool_decide (kt ∈ ["balance"; "nonce"]))) "key_type must be 'balance' or 'nonce'" (
  Ok (JObj (match get_state_proof (chain n) a kt with
            | Some p => state_proof_json p
            | None => [("error", JStr "key not found in state trie")]
            end))).
Definition q_state_root : query := λ _ n _, Ok (JObj [("state_root", JStr (get_state_root (chain n)))]).
Definition q_receipt : query := λ _ n d,
  tid ← full_str_arg d "tx_id"; Ok (opt_json ((λ r, JObj (receipt_to_dict r)) <$> get_receipt (chain n) tid)).
Definition q_finalized : query := λ _ n _, Ok (JObj [("finalized_height", JInt (get_finalized_height (chain n)))]).
Definition q_logs : query := λ _ n d,
  ty ← str_arg d "event_type";
  guard (negb (is_empty ty) && negb (bool_decide (ty ∈ VALID_EVENT_TYPES))) "unknown event_type" (
  bi ← opt_int_arg d "block_index";
  sndr ← str_arg d "sender";
  limit ← int_arg d "limit" 20;
  guard (limit <? 1) "limit must be a positive integer" (
  Ok (JList (hit_json <$> get_events (chain n) ty bi sndr (Z.min limit 100))))).
Definition q_token_info : query := λ _ n d,
  tid ← full_str_arg d "token_id"; Ok (opt_json ((λ t, JObj (token_json t)) <$> get_token_info (chain n) tid)).
Definition q_token_balance : query := λ _ n d,
  tid ← full_str_arg d "token_id"; a ← full_str_arg d "address";
  Ok (JObj [("token_id", JStr tid); ("address", JStr a); ("amount", JInt (get_token_balance (chain n) tid a))]).
Definition q_list_tokens : query := λ _ n d,
  page ← int_arg d "page" 1; limit ← int_arg d "limit" 50;
  r ← rpc_list_tokens (chain n) page limit;
  Ok (JObj [("tokens", JList ((λ t : string * Token, JObj (token_json t.2 ++ [("token_id", JStr t.1)])) <$> r.1)); ("total", JInt r.2)]).
Definition q_address_tokens : query := λ e n d,
  a ← full_str_arg d "address"; page ← int_arg d "page" 1; limit ← int_arg d "limit" 100;
  r ← rpc_get_address_tokens (ce_order e) (chain n) a page limit; Ok (JList (address_token_json <$> r)).
Definition q_block_headers : query := λ _ n d,
  start ← int_arg d "start" 0; count ← int_arg d "count" 20;
  r ← rpc_get_block_headers (chain n) start count; Ok (JList (JObj <$> r)).
Definition q_state_proof_at : query := λ _ n d,
  key ← full_str_arg d "key"; bi ← opt_int_arg d "block_index";
  r ← rpc_get_state_proof_at (chain n) key bi;
  Ok (opt_json ((λ p : StateProof * Z, JObj (state_proof_json p.1 ++ [("block_index", JInt p.2)])) <$> r)).
Definition q_receipt_proof : query := λ _ n d,
  tid ← full_str_arg d "tx_id";
  Ok (opt_json ((λ p, JObj [("tx_id", JStr (rp_tx_id p)); ("receipt", JObj (receipt_to_dict (rp_receipt p)));
    ("proof", path_json (rp_proof p)); ("receiptsRoot", JStr (rp_receipts_root p)); ("block_index", JInt (rp_block_index p))])
    <$> get_receipt_proof (chain n) tid)).

(** ** Methods that submit a transaction *)

(** The arguments of each, by the name the method is registered under *)
Definition decode_request (coins : string) (name : string) (d : dict string JVal) : result request :=
  let str := str_arg d in let int := only_int d in
  if decide (name = "qv_notarize") then h ← str "document_hash"; m ← str "metadata"; Ok (NotarizeDoc h m)
  else if decide (name = "qv_store") then
    h ← str "document_hash"; c ← str "cid"; m ← str "metadata"; Ok (StoreDoc h c m)
  else if decide (name = "qv_share") then
    r ← str "recipient_address"; c ← str "cid"; pk ← str "recipient_encryption_pk"; ex ← int "expires";
    Ok (ShareDoc coins r c pk ex)
  else if decide (name = "qv_registerKey") then Ok RegisterKey
  else if decide (name = "qv_registerValidator") then Ok RegisterValidator
  else if decide (name = "qv_revokeKey") then kt ← str "key_type"; r ← str "reason"; Ok (RevokeKey kt r)
  else if decide (name = "qv_stake") then v ← str "validator_address"; a ← int "amount"; Ok (StakeOn v a)
  else if decide (name = "qv_delegate") then v ← str "validator_address"; a ← int "amount"; Ok (DelegateTo v a)
  else if decide (name = "qv_unstake") then v ← str "validator_address"; a ← int "amount"; Ok (UnstakeFrom v a)
  else if decide (name = "qv_submitEvidence") then
    v ← str "validator_address"; i ← int "block_index"; ah ← str "block_a_hash"; bh ← str "block_b_hash";
    asig ← str "block_a_sig"; bsig ← str "block_b_sig"; ahd ← str "block_a_header"; bhd ← str "block_b_header";
    Ok (SubmitEvidence v i ah bh asig bsig ahd bhd)
  else if decide (name = "qv_transfer") then
    r ← str "to_address"; a ← int "amount"; m ← str "memo"; Ok (TransferTo r a m)
  else if decide (name = "qv_issueToken") then
    n ← str "name"; sy ← str "symbol"; de ← int "decimals"; ms ← int "max_supply"; tr ← only_bool d "transferable" true;
    Ok (IssueToken n sy de ms tr)
  else if decide (name = "qv_mintToken") then
    t ← str "token_id"; r ← str "recipient"; a ← int "amount"; Ok (MintToken t r a)
  else if decide (name = "qv_transferToken") then
    t ← str "token_id"; r ← str "recipient"; a ← int "amount"; m ← str "memo"; Ok (TransferToken t r a m)
  else Raise KeyError.

Definition at_node {A} (m : M Node A) : M App A := zoom app_node (set app_node) m.
Definition at_hooks {A} (m : M WebhookManager A) : M App A := zoom app_hooks (set app_hooks) m.
Definition p_submit (name : string) (e : CallEnv) (d : dict string JVal) : M App JVal :=
  w ← lift (str_arg d "wallet_address");
  mf ← lift (fee_arg d "max_fee_per_weight");
  mp ← lift (fee_arg d "max_priority_fee");
  r ← lift (decode_request (ce_coins e) name d);
  x ← at_node (handle (ce_now e) w mf mp r);
  mret (JObj x).

(** ** The other protected methods *)

Definition p_shared_with_me (e : CallEnv) (d : dict string JVal) : M App JVal :=
  a ← lift (str_arg d "address"); s ← get;
  l ← lift (get_shared_with (ce_now e) (chain (app_node s)) a);
  mret (JList (JObj <$> l)).
Definition p_get_shared_secret (e : CallEnv) (d : dict string JVal) : M App JVal :=
  tid ← lift (str_arg d "tx_id"); x ← at_node (rpc_get_shared_secret tid); mret (JObj x).
Definition p_decapsulate_shared (e : CallEnv) (d : dict string JVal) : M App JVal :=
  tid ← lift (str_arg d "tx_id"); w ← lift (str_arg d "wallet_address");
  x ← at_node (rpc_decapsulate_shared w tid); mret (JObj x).
Definition p_send_raw_tx (e : CallEnv) (d : dict string JVal) : M App JVal :=
  match jget d "tx_data" JNull with
  | JObj tx_data => x ← at_node (rpc_send_raw_tx (ce_now e) tx_data); mret (JObj x)
  | _ => raise (ValueError "tx_data must be a JSON object")
  end.
Definition p_new_wallet (e : CallEnv) (d : dict string JVal) : M App JVal :=
  x ← at_node (rpc_new_wallet (ce_keys e).1 (ce_keys e).2); mret (JObj x).
Definition p_list_wallets (e : CallEnv) (d : dict string JVal) : M App JVal :=
  s ← get; mret (strs (wallets (app_node s)).*1).
Definition p_get_wallet_keys (e : CallEnv) (d : dict string JVal) : M App JVal :=
  a ← lift (str_arg d "address"); s ← get;
  match dget (wallets (app_node s)) a with
  | Some w => mret (JObj [("address", JStr (w_address w)); ("signing_pk", JStr (hex (w_signing_pk w)));
                          ("encryption_pk", JStr (hex (w_encryption_pk w)))])
  | None => raise (ValueError "wallet not found")
  end.
Definition p_register_webhook (e : CallEnv) (d : dict string JVal) : M App JVal :=
  let url := jget d "url" (JStr EmptyString) in
  let events := jget d "events" JNull in
  let secret := jget d "secret" (JStr EmptyString) in
  _ ← lift (full_str_arg d "url");
  _ ← lift (match events with JList _ => Ok tt | _ => Raise (ValueError "events must be a list") end);
  _ ← lift (full_str_arg d "secret");
  x ← at_hooks (register (ce_token e) (ce_clock e) url events secret);
  mret (JObj x).
Definition p_list_webhooks (e : CallEnv) (d : dict string JVal) : M App JVal :=
  s ← get; mret (JList (JObj <$> list_webhooks (app_hooks s))).
Definition p_delete_webhook (e : CallEnv) (d : dict string JVal) : M App JVal :=
  i ← lift (full_str_arg d "webhook_id");
  deleted ← at_hooks (delete_webhook (JStr i));
  if deleted : bool then mret (JObj [("deleted", JBool true)]) else raise (ValueError "webhook not found").

(** ** The table *)

Definition public (params : list string) (q : CallEnv → Node → dict string JVal → result JVal) : Method App CallEnv :=
  mkMethod params (λ e d s, (q e (app_node s) d, s)).
Definition submitting (name : string) (params : list string) : string * Method App CallEnv :=
  (name, mkMethod ("wallet_address" :: params ++ ["max_fee_per_weight"; "max_priority_fee"]) (p_submit name)).
Definition table : list (string * Method App CallEnv) := [
  ("qv_blockNumber", public [] q_block_number);
  ("qv_getBlock", public ["index"; "block_hash"] q_get_block);
  ("qv_getTransaction", public ["tx_id"] q_get_tx);
  ("qv_pendingTxCount", public [] q_pending_count);
  ("qv_verifyDocument", public ["document_hash"] q_verify_document);
  ("qv_getEncryptionPk", public ["address"] q_get_encryption_pk);
  ("qv_peerCount", public [] q_peer_count);
  ("qv_nodeInfo", public [] q_node_info);
  ("qv_validators", public [] q_validators);
  ("qv_getTxsBySender", public ["address"] q_txs_by_sender);
  ("qv_getTxsByRecipient", public ["address"] q_txs_by_recipient);
  ("qv_getStake", public ["validator_address"] q_get_stake);
  ("qv_getValidatorStakes", public [] q_validator_stakes);
  ("qv_getEpoch", public [] q_get_epoch);
  ("qv_getSlashingEvents", public ["validator"] q_slashing_events);
  ("qv_getBalance", public ["address"] q_get_balance);
  ("qv_getSupply", public [] q_get_supply);
  ("qv_getFeeInfo", public [] q_fee_info);
  ("qv_getStateProof", public ["address"; "key_type"] q_state_proof);
  ("qv_getStateRoot", public [] q_state_root);
  ("qv_getReceipt", public ["tx_id"] q_receipt);
  ("qv_getFinalized", public [] q_finalized);
  ("qv_getLogs", public ["event_type"; "block_index"; "sender"; "limit"] q_logs);
  submitting "qv_notarize" ["document_hash"; "metadata"];
  submitting "qv_store" ["document_hash"; "cid"; "metadata"];
  submitting "qv_share" ["recipient_address"; "cid"; "recipient_encryption_pk"; "expires"];
  submitting "qv_registerKey" [];
  submitting "qv_registerValidator" [];
  submitting "qv_revokeKey" ["key_type"; "reason"];
  submitting "qv_stake" ["validator_address"; "amount"];
  submitting "qv_delegate" ["validator_address"; "amount"];
  submitting "qv_unstake" ["validator_address"; "amount"];
  submitting "qv_submitEvidence" ["validator_address"; "block_index"; "block_a_hash"; "block_b_hash";
                                  "block_a_sig"; "block_b_sig"; "block_a_header"; "block_b_header"];
  submitting "qv_transfer" ["to_address"; "amount"; "memo"];
  ("qv_getSharedWithMe", mkMethod ["address"] p_shared_with_me);
  ("qv_getSharedSecret", mkMethod ["tx_id"] p_get_shared_secret);
  ("qv_decapsulateShared", mkMethod ["wallet_address"; "tx_id"] p_decapsulate_shared);
  ("qv_sendRawTransaction", mkMethod ["tx_data"] p_send_raw_tx);
  ("qv_newWallet", mkMethod [] p_new_wallet);
  ("qv_listWallets", mkMethod [] p_list_wallets);
  ("qv_getWalletKeys", mkMethod ["address"] p_get_wallet_keys);
  ("qv_registerWebhook", mkMethod ["url"; "events"; "secret"] p_register_webhook);
  ("qv_listWebhooks", mkMethod [] p_list_webhooks);
  ("qv_deleteWebhook", mkMethod ["webhook_id"] p_delete_webhook);
  ("qv_getTokenInfo", public ["token_id"] q_token_info);
  ("qv_getTokenBalance", public ["token_id"; "address"] q_token_balance);
  ("qv_listTokens", public ["page"; "limit"] q_list_tokens);
  ("qv_getAddressTokens", public ["address"; "page"; "limit"] q_address_tokens);
  submitting "qv_issueToken" ["name"; "symbol"; "decimals"; "max_supply"; "transferable"];
  submitting "qv_mintToken" ["token_id"; "recipient"; "amount"];
  submitting "qv_transferToken" ["token_id"; "recipient"; "amount"; "memo"];
  ("qv_getBlockHeaders", public ["start"; "count"] q_block_headers);
  ("qv_getStateProofAt", public ["key"; "block_index"] q_state_proof_at);
  ("qv_getReceiptProof", public ["tx_id"] q_receipt_proof);
  ("qv_getSyncStatus", public [] q_sync_status)].
(** [_register_rpc]; the server draws a token of its own when it is given none. *)
Definition node_server (auth_token : string) (tls : bool) : RPCServer App CallEnv :=
  foldl (λ srv nm, register_method nm.1 nm.2 srv) (mkRPC auth_token tls []) table.
End Table.
