(* ===== verification/NodeRpcLaws.v ===== *)
(** * What a client of the node can do over HTTP

    The table of methods against the list of protected ones: without the token
    a client changes nothing and learns nothing but what the chain holds; with
    it, the node moves by the steps of [NodeLaws] only, so that its safety
    extends to everything that arrives over HTTP. *)
From Stdlib Require Import Floats.SpecFloat.
From S2P Require Import Prelude PyStr Json JsonText Config Crypto StateTrie Wallet Transaction Fees Block Receipt ChainState Ledger StateOps Consensus Apply TxPool Rollback Chain ChainLaws WalletFile Mlkem Query Node NodeLaws Limits Webhooks WebSocket Rpc NodeRpc.
Open Scope Z_scope.

(** The queries read the chain and the number of wallets only. *)
Ltac by_open Hc Hw :=
  cbv beta delta [q_block_number q_get_block q_get_tx q_pending_count q_verify_document q_get_encryption_pk q_peer_count
    q_node_info q_validators q_txs_by_sender q_txs_by_recipient q_get_stake q_validator_stakes q_get_epoch q_slashing_events
    q_get_balance q_get_supply q_fee_info q_state_proof q_state_root q_receipt q_finalized q_logs q_token_info
    q_token_balance q_list_tokens q_address_tokens q_block_headers q_state_proof_at q_receipt_proof q_sync_status fee_model];
  rewrite ?Hc, ?Hw; reflexivity.

Section Laws.
Context `{C : Crypto} `{Cfg : ChainConfig} `{K : Kem} `{V : WebEnv} `{F : PyFloat}.

(** ** The table *)

Lemma registered_in (l : list (string * Method App CallEnv)) srv name fn :
  dget (methods (foldl (λ srv nm, register_method nm.1 nm.2 srv) srv l)) name = Some fn →
  (name, fn) ∈ l ∨ dget (methods srv) name = Some fn.
Proof.
  revert srv. induction l as [|[k m] l IH]; intros srv; [by right|]. cbn [foldl fst snd]. intros [Hin|Hg]%IH; [left; by right|].
  cbn in Hg. rewrite dget_dset in Hg. case_decide as E; [|by right]. injection Hg as <-. subst. left. by left.
Qed.
Lemma node_server_table tok tls name fn : dget (methods (node_server tok tls)) name = Some fn → (name, fn) ∈ table.
Proof. unfold node_server. intros [H|H]%registered_in; [done|]. done. Qed.

(** A query of the chain and the number of wallets *)
Definition open_query (q : CallEnv → Node → dict string JVal → result JVal) : Prop :=
  ∀ e n1 n2 d, chain n1 = chain n2 → length (wallets n1) = length (wallets n2) → q e n1 d = q e n2 d.
Definition open_method (nm : string * Method App CallEnv) : Prop :=
  nm.1 ∈ PROTECTED_METHODS ∨ ∃ ps q, nm.2 = public ps q ∧ open_query q.
Ltac open_entry :=
  first [ left; apply (bool_decide_unpack _); vm_compute; exact I
        | right; eexists _, _; split; [reflexivity|]; intros ? ? ? ? Hc Hw;
          by_open Hc Hw ].
Lemma table_open : Forall open_method table.
Proof. unfold table, submitting. repeat (constructor; [open_entry|]). constructor. Qed.

(** ** Every method is a step of the node *)

Section Moves.
Context (n0 : Node) (h0 : WebhookManager).
Definition moves (s : App) : Prop := rtc node_step n0 (app_node s) ∧ ∃ es, app_hooks s = run_hooks h0 es.
Lemma at_node_moves {A} (m : M Node A) : (∀ n, node_step n (m n).2 ∨ (m n).2 = n) → keeps moves (at_node m).
Proof.
  intros Hm s [Hn Hh]. unfold wp, at_node, zoom. specialize (Hm (app_node s)). destruct (m (app_node s)) as [r n']. cbn in Hm.
  split; [|done]. cbn. destruct Hm as [Hm| ->]; [|done]. by eapply rtc_r.
Qed.
Lemma at_hooks_moves {A} (m : M WebhookManager A) : (∀ h, ∃ e, (m h).2 = hook_step h e) → keeps moves (at_hooks m).
Proof.
  intros Hm s (Hn & es & Hh). unfold wp, at_hooks, zoom. destruct (Hm (app_hooks s)) as [e He].
  destruct (m (app_hooks s)) as [r h']. cbn in He. split; [done|]. exists (es ++ [e]). cbn. unfold run_hooks.
  rewrite foldl_app. cbn. rewrite He, Hh. done.
Qed.
Lemma handle_moves now a mf mp r : keeps moves (at_node (handle now a mf mp r)).
Proof. apply at_node_moves. intros n. left. eapply (on_request n now a mf mp r), surjective_pairing. Qed.
Lemma raw_moves now d : keeps moves (at_node (rpc_send_raw_tx now d)).
Proof. apply at_node_moves. intros n. left. eapply (on_raw_tx n now d), surjective_pairing. Qed.
Lemma new_wallet_moves sp ep : keeps moves (at_node (rpc_new_wallet sp ep)).
Proof. apply at_node_moves. intros n. left. eapply (on_new_wallet n sp ep), surjective_pairing. Qed.
Lemma fixed_moves {A} (m : M Node A) : (∀ x, keeps (λ n, n = x) m) → keeps moves (at_node m).
Proof.
  intros Hm. apply at_node_moves. intros n. right. specialize (Hm n n eq_refl). unfold wp in Hm. by destruct (m n).
Qed.
Lemma secret_moves tid : keeps moves (at_node (rpc_get_shared_secret tid)).
Proof. apply fixed_moves. intros x. unfold rpc_get_shared_secret, check. auto 8 with keeps. Qed.
Lemma decapsulate_moves w tid : keeps moves (at_node (rpc_decapsulate_shared w tid)).
Proof. apply fixed_moves. intros x. unfold rpc_decapsulate_shared, get_wallet, check. auto 20 with keeps. Qed.
Lemma register_moves tok clock u ev sec : keeps moves (at_hooks (register tok clock u ev sec)).
Proof. apply at_hooks_moves. intros h. by exists (HRegister tok clock u ev sec). Qed.
Lemma delete_moves i : keeps moves (at_hooks (delete_webhook i)).
Proof. apply at_hooks_moves. intros h. by exists (HDelete i). Qed.
Lemma public_moves ps q e d : keeps moves (me_call (public ps q) e d).
Proof. by intros s Hs. Qed.

Hint Resolve handle_moves raw_moves new_wallet_moves secret_moves decapsulate_moves register_moves delete_moves : keeps.
Definition moving (nm : string * Method App CallEnv) : Prop := ∀ e d, keeps moves (me_call nm.2 e d).
Ltac moving_entry :=
  intros ? ?; first [ apply public_moves | cbn [me_call snd]; unfold p_submit, p_shared_with_me, p_get_shared_secret, p_decapsulate_shared,
    p_send_raw_tx, p_new_wallet, p_list_wallets, p_get_wallet_keys, p_register_webhook, p_list_webhooks, p_delete_webhook;
    auto 20 with keeps ].
Lemma table_moves : Forall moving table.
Proof. unfold table, submitting. repeat (constructor; [moving_entry|]). constructor. Qed.
End Moves.

(** ** Requests *)

Lemma admit_ok now rq l : limiter_ok l → limiter_ok (admit_request now rq l).2.
Proof. intros Hl. unfold admit_request. destruct (exempt rq); [done|by apply check_ok]. Qed.
Lemma serve_moves n0 h0 tok tls env now rq ls : moves n0 h0 ls.2 → limiter_ok ls.1 →
  let ls' := (serve (node_server tok tls) env now rq ls).2 in moves n0 h0 ls'.2 ∧ limiter_ok ls'.1.
Proof.
  intros Hm Hl. destruct ls as [l s]. cbn [fst snd] in *. unfold serve. cbn [fst snd].
  pose proof (admit_ok now rq l Hl) as Hl'.
  assert (Hr : keeps (moves n0 h0) (route (node_server tok tls) env rq)).
  { apply (route_carries (λ A, keeps (A := A) (moves n0 h0)) (node_server tok tls) (request_token (rq_auth rq)));
      [|done]. intros name fn e args Hfn%node_server_table _. exact (Forall_in _ _ _ (table_moves n0 h0) Hfn e args). }
  destruct (admit_request now rq l) as [ok l']. destruct ok; [|done].
  specialize (Hr s Hm). unfold wp in Hr. by destruct (route _ _ _ s).
Qed.

(** Two states that a client without the token cannot tell apart *)
Definition alike_outside (s1 s2 : App) : Prop :=
  chain (app_node s1) = chain (app_node s2) ∧ length (wallets (app_node s1)) = length (wallets (app_node s2)).
Lemma open_calls tok tls token name fn : token ≠ tok →
  dget (methods (node_server tok tls)) name = Some fn → callable (node_server tok tls) token name →
  ∃ q ps, fn = public ps q ∧ open_query q.
Proof.
  intros Hne Hfn%node_server_table [Hp _]. destruct (Forall_in _ _ _ table_open Hfn) as [Hin|(ps & q & Hq & Ho)].
  - by destruct Hne; apply Hp.
  - by exists q, ps.
Qed.
Lemma route_outside tok tls env rq : request_token (rq_auth rq) ≠ tok →
  (∀ s, (route (node_server tok tls) env rq s).2 = s) ∧
  ∀ s1 s2, alike_outside s1 s2 → (route (node_server tok tls) env rq s1).1 = (route (node_server tok tls) env rq s2).1.
Proof.
  intros Hne. split.
  - intros s. assert (Hk : keeps (λ s', s' = s) (route (node_server tok tls) env rq)).
    { apply (route_carries (λ A, keeps (A := A) (λ s', s' = s)) (node_server tok tls) (request_token (rq_auth rq))); [|done].
      intros name fn e args Hfn Hc. destruct (open_calls tok tls _ name fn Hne Hfn Hc) as (q & ps & -> & _). intros t Ht. exact Ht. }
    specialize (Hk s eq_refl). unfold wp in Hk. by destruct (route _ _ _ s).
  - intros s1 s2 Hs. refine (proj1 (route_carries (same_answer alike_outside) (node_server tok tls) (request_token (rq_auth rq)) _ env rq eq_refl s1 s2 Hs)).
    intros name fn e args Hfn Hc. destruct (open_calls tok tls _ name fn Hne Hfn Hc) as (q & ps & -> & Hq).
    intros t1 t2 Ht. split; [|done]. cbn. by apply Hq; apply Ht.
Qed.
End Laws.

(** ** Without the token *)

(** A request whose header does not carry the server's token leaves the node
    and its webhooks as they are, and its answer depends on nothing but the
    chain, the pool and the number of wallets. *)
Lemma serve_outside `{C : Crypto} `{Cfg : ChainConfig} `{K : Kem} `{V : WebEnv} `{F : PyFloat}
  (tok : string) (tls : bool) (env : nat → CallEnv) (now : float) (rq : Request) (l : RateLimiter) (s1 s2 : App)
  (Htok : request_token (rq_auth rq) ≠ tok)
  (Hchain : chain (app_node s1) = chain (app_node s2)) (Hcount : length (wallets (app_node s1)) = length (wallets (app_node s2))) :
  (serve (node_server tok tls) env now rq (l, s1)).2.2 = s1 ∧
  (serve (node_server tok tls) env now rq (l, s1)).1 = (serve (node_server tok tls) env now rq (l, s2)).1.
Proof.
  destruct (route_outside tok tls env rq Htok) as [H1 H2]. unfold serve. cbn [fst snd].
  destruct (admit_request now rq l) as [[] l']; [|done].
  specialize (H1 s1). specialize (H2 s1 s2 (conj Hchain Hcount)).
  set (srv := node_server tok tls) in *. clearbody srv.
  destruct (route srv env rq s1) as [r1 t1], (route srv env rq s2) as [r2 t2]. by cbn in *; subst.
Qed.

(** ** Sample clients *)

Module Clients.
#[local] Existing Instance Toy.crypto.
#[local] Existing Instance legacy_config.
#[local] Existing Instance ToyKem.kem.
#[local] Existing Instance ToyWeb.env.
#[local] Existing Instance WsRuns.float_text.
Definition env : CallEnv :=
  mkEnv 1000 "1000.5" "coins" "a1" (("k", "k"), ("e", "pe")) 0 JNull None elements.
Definition post (auth : string) (body : JVal) : Request := mkRequest "POST" "/" "203.0.113.5" None (Ok (dumps body)) auth.
Definition call (id : Z) (name : string) (params : list (string * JVal)) : JVal :=
  JObj [("id", JInt id); ("jsonrpc", JStr "2.0"); ("method", JStr name); ("params", JObj params)].
Definition notarize : JVal := call 2 "qv_notarize" [("document_hash", JStr "ab"); ("wallet_address", JStr Sample.addr)].
(** A stranger asks for a balance and tries to notarize. *)
Definition probe : Request := post "Bearer guess" (JList [call 1 "qv_getBalance" [("address", JStr Sample.addr)]; notarize]).
Definition app : App := mkApp (fresh_node Run.genesis) new_manager.
Definition other : App := mkApp (fresh_node Run.genesis <| shared_secrets := [("tx", "secret")] |>) (run_hooks new_manager ToyWeb.busy).
Definition limiter : RateLimiter := new_limiter (float_of_Z 10) (float_of_Z 50).
End Clients.
