(* ===== verification/RestApi.v ===== *)
(** * The REST interface

    [network/rest_api.py], mounted under [/api/v1]: the middleware for other
    origins and for the token, the routes, and their handlers, which read the
    path and the query, test the body and hand over to the methods of the node.
    The web framework resolves the path: a request comes with the canonical
    route it matched, the parts of the path and the query, all texts.

    An exception of a handler that catches none is an answer 500 of the
    framework; [ValueError] elsewhere is an answer 400 with its message.  The
    text of the metrics is an argument. *)
From Stdlib Require Import Floats.SpecFloat.
From S2P Require Import Prelude PyStr Json JsonText Config Limits Webhooks WebSocket Crypto StateTrie Wallet Transaction Fees Block Receipt ChainState Ledger StateOps Staking ReceiptOps TxPool Chain WalletFile Mlkem Query Node Rpc NodeRpc.
Open Scope Z_scope.

(** ** Requests and answers *)

(** What the framework made of the path *)
Record Resolved := mkResolved { re_route : option string; re_match : dict string string; re_query : dict string string }.
Record RestResponse := mkRest { rr_status : Z; rr_body : JVal; rr_headers : dict string string }.
Definition rest_ok (data : JVal) (status : Z) : RestResponse := mkRest status (JObj [("data", data); ("error", JNull)]) [].
Definition rest_err (code : Z) (message : string) (status : Z) : RestResponse :=
  mkRest status (JObj [("data", JNull); ("error", JObj [("code", JInt code); ("message", JStr message)])]) [].
Definition bare (status : Z) : RestResponse := mkRest status JNull [].

(** What the surroundings add to a call *)
Record RestEnv := mkRestEnv { rv_call : CallEnv; rv_best_peer : Z; rv_metrics : option string }.

Definition DEFAULT_PAGE : Z := 1.
Definition DEFAULT_LIMIT : Z := 20.
Definition MAX_LIMIT : Z := 100.
Definition TOKEN_DEFAULT_LIMIT : Z := 100.
Definition TOKEN_MAX_LIMIT : Z := 1000.

(** [request.match_info.get(k, "")] *)
Definition part (re : Resolved) (k : string) : string := dget_or (re_match re) k EmptyString.
Definition query_int (re : Resolved) (k : string) (default : Z) (refusal : string) : result Z :=
  match dget (re_query re) k with
  | None => Ok default
  | Some s => match py_int s with Some z => Ok z | None => Raise (ValueError refusal) end
  end.
Definition opt_query_int (re : Resolved) (k : string) : result (option Z) :=
  match dget (re_query re) k with
  | None => Ok None
  | Some s => match py_int s with Some z => Ok (Some z) | None => Raise (ValueError (k +:+ " must be an integer")) end
  end.
(** The answer 400 to a refused page is given as [ValueError]. *)
Definition parse_pagination (re : Resolved) : result (Z * Z) :=
  page ← query_int re "page" DEFAULT_PAGE "page must be an integer";
  limit ← query_int re "limit" DEFAULT_LIMIT "limit must be an integer";
  guard (page <? 1) "page must be >= 1" (
  guard ((limit <? 1) || (MAX_LIMIT <? limit)) "limit must be 1-100" (Ok (page, limit))).
Definition parse_token_pagination (re : Resolved) : result (Z * Z) :=
  offset ← query_int re "offset" 0 "offset must be an integer";
  limit ← query_int re "limit" TOKEN_DEFAULT_LIMIT "limit must be an integer";
  guard (offset <? 0) "offset must be >= 0" (
  guard ((limit <? 1) || (TOKEN_MAX_LIMIT <? limit)) "limit must be 1-1000" (Ok (offset, limit))).

Section Rest.
Context `{C : Crypto} `{Cfg : ChainConfig} `{K : Kem} `{V : WebEnv} `{F : PyFloat}.

(** ** The shape of the handlers *)

(** [except ValueError: 400; except Exception: 500] around a computation *)
Definition failure (e : exn) : RestResponse :=
  match e with ValueError msg => rest_err 400 msg 400 | _ => rest_err 500 "internal server error" 500 end.
Definition attempt (status : Z) (m : M App JVal) : M App RestResponse := recover failure (v ← m; mret (rest_ok v status)).
Definition evidence_failure (e : exn) : RestResponse :=
  match e with ValueError msg => rest_err 400 msg 400 | _ => rest_err 500 "internal error" 500 end.
(** [except Exception: 500] alone *)
Definition attempt_any (status : Z) (m : M App JVal) : M App RestResponse :=
  recover (λ _, rest_err 500 "internal server error" 500) (v ← m; mret (rest_ok v status)).
(** Refusals of the handler itself, then a computation nobody guards *)
Definition refusing {A} (r : result A) (k : A → M App RestResponse) : M App RestResponse :=
  match r with Ok a => k a | Raise e => mret (failure e) end.
Definition unguarded (m : M App JVal) : M App RestResponse := v ← m; mret (rest_ok v 200).
Definition or_404 (v : option JVal) (message : string) : RestResponse :=
  match v with Some v => rest_ok v 200 | None => rest_err 404 message 404 end.
Definition reading {A} (q : Node → A) : M App A := gets (λ s, q (app_node s)).
(** A query method of the node *)
Definition asking (q : CallEnv → Node → dict string JVal → result JVal) (e : RestEnv) (d : dict string JVal) : M App JVal :=
  r ← reading (λ n, q (rv_call e) n d); lift r.

Definition total_of (v : JVal) : Z := match v with JList l => Z.of_nat (length l) | _ => 0 end.
Definition with_total (k : string) (v : JVal) : JVal := JObj [(k, v); ("total", JInt (total_of v))].

(** The body of a POST *)
Definition json_body (rq : Request) : option JVal := match rq_body rq with Ok text => loads text | Raise _ => None end.
Definition with_object (rq : Request) (refusal : string) (k : dict string JVal → M App RestResponse) : M App RestResponse :=
  match json_body rq with
  | None => mret (rest_err 400 "invalid JSON body" 400)
  | Some (JObj d) => k d
  | Some _ => mret (rest_err 400 refusal 400)
  end.
Definition posting (rq : Request) (k : dict string JVal → M App JVal) : M App RestResponse :=
  with_object rq "request body must be a JSON object" (λ d, attempt 201 (k d)).
(** The handlers of tokens do not test that the body is an object. *)
Definition posting_unchecked (rq : Request) (k : dict string JVal → M App JVal) : M App RestResponse :=
  match json_body rq with
  | None => mret (rest_err 400 "invalid JSON body" 400)
  | Some v => d ← lift (as_dict v); attempt 201 (k d)
  end.
(** Fields of a body, and the arguments handed over *)
Definition nonempty_str (d : dict string JVal) (k refusal : string) : M App unit :=
  match jget d k (JStr EmptyString) with
  | JStr s => lift (guard (is_empty s) refusal (Ok tt))
  | _ => raise (ValueError refusal)
  end.
Definition need_str (d : dict string JVal) (k : string) : M App unit := nonempty_str d k (k +:+ " is required and must be a string").
Definition allow_str (d : dict string JVal) (k : string) : M App unit :=
  if is_str (jget d k (JStr EmptyString)) then mret tt else raise (ValueError (k +:+ " must be a string")).
(** [isinstance(v, int)] takes the booleans for 0 and 1. *)
Definition need_int (d : dict string JVal) (k : string) (lo : Z) (refusal : string) : M App unit :=
  match jget d k (JInt 0) with
  | JInt z => lift (guard (z <? lo) refusal (Ok tt))
  | JBool b => lift (guard ((if b then 1 else 0) <? lo) refusal (Ok tt))
  | _ => raise (ValueError refusal)
  end.
(** An integer that is no boolean *)
Definition strict_int (d : dict string JVal) (k : string) (default : JVal) (lo : Z) (refusal too_small : string) : M App unit :=
  match jget d k default with
  | JInt z => lift (guard (z <? lo) too_small (Ok tt))
  | _ => raise (ValueError refusal)
  end.
Definition pick_fields (d : dict string JVal) (names : list string) : dict string JVal :=
  omap (λ k, (λ v, (k, v)) <$> dget d k) names.
Definition FEE_FIELDS : list string := ["max_fee_per_weight"; "max_priority_fee"].
Definition submit_fields (name : string) (e : RestEnv) (d : dict string JVal) (fields : list string) : M App JVal :=
  p_submit name (rv_call e) (pick_fields d ("wallet_address" :: fields ++ FEE_FIELDS)).
(** The token handlers call the field of the wallet [wallet]. *)
Definition submit_token (name : string) (e : RestEnv) (d : dict string JVal) (fields : list string) : M App JVal :=
  p_submit name (rv_call e) (("wallet_address", jget d "wallet" (JStr EmptyString)) :: pick_fields d (fields ++ FEE_FIELDS)).

(** ** Public handlers *)

Abbreviation handler := (RestEnv → Request → Resolved → M App RestResponse) (only parsing).

Definition h_info : handler := λ e _ _, unguarded (asking q_node_info e []).
Definition h_health : handler := λ e _ _, unguarded (reading (λ n,
  let s := chain n in
  let last := if 0 <=? height s then (λ b, JInt (blk_timestamp b)) <$> get_block s (inl (height s)) else None in
  JObj [("status", JStr "ok"); ("chain_height", JInt (height s)); ("peers", JInt (ce_peers (rv_call e)));
        ("last_block_time", opt_json last); ("synced", JBool (rv_best_peer e <=? height s));
        ("tx_pool_size", JInt (Z.of_nat (length (tx_pool (pool s)))))])).
Definition h_readiness : handler := λ e _ _, reading (λ n,
  let h := height (chain n) in let peers := ce_peers (rv_call e) in let synced := rv_best_peer e <=? h in
  let ready := synced && ((0 <? peers) || (0 <=? h)) in
  rest_ok (JObj [("ready", JBool ready); ("chain_height", JInt h); ("peers", JInt peers); ("synced", JBool synced)])
    (if ready then 200 else 503)).
Definition h_metrics : handler := λ e _ _, mret
  match rv_metrics e with
  | Some text => mkRest 200 (JStr text) [("Content-Type", "text/plain; version=0.0.4; charset=utf-8")]
  | None => mkRest 503 (JStr "# Metrics not available") [("Content-Type", "text/plain")]
  end.
Definition h_list_blocks : handler := λ _ _ re, refusing (parse_pagination re) (λ pl, unguarded (reading (λ n,
  let '(page, limit) := pl in
  let total := if 0 <=? height (chain n) then height (chain n) + 1 else 0 in
  let start := (page - 1) * limit in
  let blocks := if start <? total then omap (λ i, get_block (chain n) (inl i)) (zrange start (Z.min (start + limit) total)) else [] in
  JObj [("blocks", JList ((λ b, JObj (dpop (block_to_dict b) "transactions")) <$> blocks)); ("total", JInt total);
        ("page", JInt page); ("limit", JInt limit)]))).
Definition block_json (b : Block) : JVal := JObj (block_to_dict b).
Definition h_latest_block : handler := λ _ _ _, reading (λ n, or_404 (block_json <$> latest_block (chain n)) "no blocks in chain").
Definition h_block_by_index : handler := λ _ _ re,
  match py_int (part re "index") with
  | None => mret (rest_err 400 "index must be an integer" 400)
  | Some i => if i <? 0 then mret (rest_err 400 "index must be >= 0" 400)
              else reading (λ n, or_404 (block_json <$> get_block (chain n) (inl i)) ("block " +:+ str_of_Z i +:+ " not found"))
  end.
Definition h_block_by_hash : handler := λ _ _ re,
  let h := part re "hash" in
  if is_empty h then mret (rest_err 400 "hash is required" 400)
  else if negb (hex_re h) then mret (rest_err 400 "invalid hash format" 400)
  else reading (λ n, or_404 (block_json <$> get_block (chain n) (inr h)) "block not found").
Definition h_get_tx : handler := λ _ _ re,
  let tid := part re "txid" in
  if is_empty tid then mret (rest_err 400 "txid is required" 400)
  else reading (λ n, or_404 (JObj <$> rpc_get_tx (chain n) tid) ("transaction " +:+ str_take 16 tid +:+ "... not found")).
Definition h_txs_by_sender : handler := λ _ _ re,
  let a := part re "addr" in
  if is_empty a then mret (rest_err 400 "address is required" 400)
  else refusing (parse_pagination re) (λ pl, unguarded (reading (λ n,
    let '(page, limit) := pl in
    let total := get_txs_by_sender_count (chain n) a in
    let start := (page - 1) * limit in
    let ids := if start <? total then get_txs_by_sender_page (chain n) a start limit else [] in
    let txs := omap (λ tid, (λ tx, JObj (dset (tx_to_dict tx) "block_index" (opt_json (JInt <$> get_tx_block (chain n) tid))))
                              <$> get_tx (chain n) tid) ids in
    JObj [("transactions", JList txs); ("total", JInt total); ("page", JInt page); ("limit", JInt limit)]))).
Definition h_address_info : handler := λ _ _ re,
  let a := part re "addr" in
  if is_empty a then mret (rest_err 400 "address is required" 400)
  else unguarded (reading (λ n, let s := chain n in
    JObj [("address", JStr a); ("balance", JInt (get_balance s a)); ("next_nonce", JInt (get_next_nonce s a));
          ("encryption_pk", opt_json (JStr <$> get_encryption_pk s a)); ("sent_tx_count", JInt (get_txs_by_sender_count s a));
          ("received_tx_count", JInt (get_txs_by_recipient_count s a)); ("notarization_count", JInt (get_notarization_count s a));
          ("is_validator", JBool (is_registered_validator s a))])).
Definition notarization_json (i : NotarizationInfo) : JVal :=
  JObj [("tx_id", JStr (ni_tx_id i)); ("block_index", opt_json (JInt <$> ni_block_index i)); ("timestamp", JInt (ni_timestamp i));
        ("sender", JStr (ni_sender i))].
Definition h_notarization_proof : handler := λ _ _ re,
  let h := part re "hash" in
  if is_empty h then mret (rest_err 400 "document hash is required" 400)
  else reading (λ n, or_404
    ((λ d, let all := JList (notarization_json <$> get_all_notarizations (chain n) h) in
           JObj [("first_notarization", document_json d); ("all_notarizations", all); ("total", JInt (total_of all))])
       <$> verify_document (chain n) h)
    ("no notarization found for hash " +:+ str_take 16 h +:+ "...")).
Definition h_validators : handler := λ e _ _, unguarded (v ← asking q_validators e []; mret (with_total "validators" v)).
(** The counts come in the order of the names; in the code it is that of their first use. *)
Definition count_le (x y : string * Z) : Prop := String.le x.1 y.1.
#[local] Instance count_le_dec : ∀ x y, Decision (count_le x y).
Proof. intros x y. unfold count_le. apply _. Defined.
Definition h_pool_summary : handler := λ _ _ _, unguarded (reading (λ n,
  JObj [("count", JInt (Z.of_nat (length (tx_pool (pool (chain n))))));
        ("by_type", JObj ((λ tz : string * Z, (tz.1, JInt tz.2)) <$> merge_sort count_le (map_to_list (pool_type_counts (pool (chain n))))))])).
Definition h_pool_count : handler := λ _ _ _, unguarded (reading (λ n, JObj [("count", JInt (Z.of_nat (length (tx_pool (pool (chain n))))))])).
Definition h_current_epoch : handler := λ e _ _, unguarded (asking q_get_epoch e []).
Definition h_slashing_events : handler := λ e _ re,
  unguarded (asking q_slashing_events e [("validator", JStr (dget_or (re_query re) "validator" EmptyString))]).
Definition h_state_proof : handler := λ e _ re,
  let a := part re "addr" in
  if is_empty a then mret (rest_err 400 "address is required" 400)
  else attempt 200 (asking q_state_proof e [("address", JStr a); ("key_type", JStr (dget_or (re_query re) "key" "balance"))]).
Definition h_state_root : handler := λ e _ _, attempt_any 200 (asking q_state_root e []).
Definition h_get_balance : handler := λ e _ re,
  let a := part re "addr" in
  if is_empty a then mret (rest_err 400 "address is required" 400)
  else attempt 200 (asking q_get_balance e [("address", JStr a)]).
Definition h_get_supply : handler := λ e _ _, attempt_any 200 (asking q_get_supply e []).
Definition h_fee_info : handler := λ e _ _, attempt_any 200 (asking q_fee_info e []).
Definition h_get_receipt : handler := λ e _ re,
  let tid := part re "txid" in
  if is_empty tid then mret (rest_err 400 "txid is required" 400)
  else if negb (hex_re tid) then mret (rest_err 400 "invalid txid format" 400)
  else recover failure (v ← asking q_receipt e [("tx_id", JStr tid)];
    mret (match v with JNull => rest_err 404 ("receipt for " +:+ str_take 16 tid +:+ "... not found") 404 | v => rest_ok v 200 end)).
Definition h_get_events : handler := λ e _ re,
  let q := re_query re in
  refusing (limit ← query_int re "limit" 20 "limit must be an integer";
            guard ((limit <? 1) || (MAX_LIMIT <? limit)) "limit must be 1-100" (
            bi ← opt_query_int re "block_index"; Ok (limit, bi)))
    (λ lb, attempt 200 (v ← asking q_logs e
       [("event_type", JStr (dget_or q "type" EmptyString)); ("block_index", opt_json (JInt <$> lb.2));
        ("sender", JStr (dget_or q "from" (dget_or q "sender" EmptyString))); ("limit", JInt lb.1)];
       mret (with_total "events" v))).
Definition h_get_finalized : handler := λ e _ _, attempt_any 200 (asking q_finalized e []).
Definition h_verify : handler := λ e rq _, with_object rq "request body must be a JSON object" (λ d, attempt 200 (
  _ ← need_str d "document_hash";
  v ← asking q_verify_document e [("document_hash", jget d "document_hash" JNull)];
  mret (JObj [("verified", JBool (negb (bool_decide (v = JNull)))); ("proof", v)]))).
Definition h_all_stakes : handler := λ e _ _, attempt_any 200 (v ← asking q_validator_stakes e []; mret (with_total "validators" v)).
Definition h_validator_stake : handler := λ e _ re,
  let v := part re "validator" in
  if is_empty v then mret (rest_err 400 "validator address required" 400)
  else attempt 200 (asking q_get_stake e [("validator_address", JStr v)]).

(** Tokens: the offset is turned into a page of [limit] entries. *)
Definition page_of (offset limit : Z) : Z := offset / limit + 1.
Definition token_entry (t : string * Token) : JVal := JObj (token_json t.2 ++ [("token_id", JStr t.1)]).
Definition h_list_tokens : handler := λ _ _ re, refusing (parse_token_pagination re) (λ ol, unguarded (reading (λ n,
  let '(offset, limit) := ol in
  JObj [("tokens", JList (token_entry <$> list_tokens (chain n) (page_of offset limit) limit)); ("offset", JInt offset);
        ("limit", JInt limit); ("total", JInt (Z.of_nat (size (token_registry (tokens (chain n))))))]))).
Definition h_get_token : handler := λ _ _ re,
  let tid := part re "token_id" in
  if is_empty tid then mret (rest_err 400 "token_id is required" 400)
  else reading (λ n, or_404 ((λ t, JObj (token_json t)) <$> get_token_info (chain n) tid) "token not found").
Definition holder_json (h : string * Z) : JVal := JObj [("address", JStr h.1); ("amount", JInt h.2)].
Definition h_token_holders : handler := λ _ _ re,
  let tid := part re "token_id" in
  if is_empty tid then mret (rest_err 400 "token_id is required" 400)
  else
    known ← reading (λ n, bool_decide (is_Some (token_registry (tokens (chain n)) !! tid)));
    if negb known then mret (rest_err 404 "token not found" 404)
    else refusing (parse_token_pagination re) (λ ol, unguarded (reading (λ n,
      let '(offset, limit) := ol in
      let '(holders, total) := get_token_holders (chain n) tid (page_of offset limit) limit in
      JObj [("token_id", JStr tid); ("holders", JList (holder_json <$> holders)); ("total", JInt total);
            ("offset", JInt offset); ("limit", JInt limit)]))).
Definition h_address_tokens : handler := λ e _ re,
  let a := part re "addr" in
  if is_empty a then mret (rest_err 400 "address is required" 400)
  else refusing (parse_token_pagination re) (λ ol, unguarded (reading (λ n,
    let '(offset, limit) := ol in
    JObj [("address", JStr a);
          ("tokens", JList (address_token_json <$> get_address_tokens (ce_order (rv_call e)) (chain n) a (page_of offset limit) limit));
          ("offset", JInt offset); ("limit", JInt limit)]))).

(** Light clients *)
Definition h_list_headers : handler := λ _ _ re,
  refusing (start ← query_int re "start" 0 "start and count must be integers"; count ← query_int re "count" 20 "start and count must be integers";
            guard (start <? 0) "start must be >= 0" (
            guard ((count <? 1) || (100 <? count)) "count must be 1-100" (Ok (start, count))))
    (λ sc, unguarded (reading (λ n,
      let headers := get_block_headers (chain n) sc.1 sc.2 in
      JObj [("headers", JList (JObj <$> headers)); ("start", JInt sc.1); ("count", JInt (Z.of_nat (length headers)));
            ("height", JInt (height (chain n)))]))).
Definition h_get_header : handler := λ _ _ re,
  match py_int (part re "index") with
  | None => mret (rest_err 400 "index must be an integer" 400)
  | Some i => reading (λ n, or_404 ((λ b, JObj (to_header_dict b)) <$> get_block_by_index (chain n) i) "block not found")
  end.
(** [_check_auth] *)
Definition rest_auth (expected auth : string) : result bool :=
  match bearer auth with
  | None => Ok false
  | Some token => if is_empty token then Ok false else compare_digest token expected
  end.
Definition AUTHED_PROOF_PREFIXES : list string := ["token:"].
Definition h_state_proof_by_key (expected : string) : handler := λ _ rq re,
  let key := part re "key" in
  let starts l := existsb (λ p, String.prefix p key) l in
  if is_empty key then mret (rest_err 400 "key is required" 400)
  else
    refused ← lift (if starts PUBLIC_PROOF_PREFIXES then Ok None
                    else if starts AUTHED_PROOF_PREFIXES then
                      ok ← rest_auth expected (rq_auth rq);
                      Ok (if ok : bool then None else Some (rest_err 403 "authentication required for token state proofs" 403))
                    else Ok (Some (rest_err 403 "state proof key prefix not allowed" 403)));
    match refused with
    | Some r => mret r
    | None => refusing (opt_query_int re "block") (λ bi, reading (λ n, or_404
        ((λ p : StateProof * Z, JObj (state_proof_json p.1 ++ [("block_index", JInt p.2)])) <$> get_state_proof_at_block (chain n) key bi)
        "key not found or block snapshot unavailable"))
    end.
Definition h_receipt_proof : handler := λ e _ re,
  let tid := part re "txid" in
  if is_empty tid then mret (rest_err 400 "txid is required" 400)
  else v ← asking q_receipt_proof e [("tx_id", JStr tid)];
       mret (match v with JNull => rest_err 404 "receipt not found" 404 | v => rest_ok v 200 end).

(** ** Protected handlers *)

Definition h_transfer : handler := λ e rq _, posting rq (λ d,
  _ ← need_str d "wallet_address"; _ ← need_str d "to_address"; _ ← need_int d "amount" 1 "amount must be a positive integer"; _ ← allow_str d "memo";
  submit_fields "qv_transfer" e d ["to_address"; "amount"; "memo"]).
Definition EVIDENCE_HASHES : list string :=
  ["block_a_hash"; "block_b_hash"; "block_a_sig"; "block_b_sig"; "block_a_header"; "block_b_header"].
Definition EVIDENCE_FIELDS : list string := ["validator_address"; "block_index"] ++ EVIDENCE_HASHES.
Fixpoint need_strs (d : dict string JVal) (ks : list string) : M App unit :=
  match ks with [] => mret tt | k :: ks => _ ← nonempty_str d k (k +:+ " must be a non-empty string"); need_strs d ks end.
(** The refusal of unknown fields also lists them. *)
Definition h_submit_evidence : handler := λ e rq _, with_object rq "body must be JSON object" (λ d, recover evidence_failure (v ← (
  _ ← lift (guard (negb (forallb (λ kv : string * JVal, bool_decide (kv.1 ∈ "wallet_address" :: EVIDENCE_FIELDS ++ FEE_FIELDS)) d))
              "unknown fields" (Ok tt));
  _ ← need_str d "wallet_address"; _ ← need_str d "validator_address";
  _ ← need_int d "block_index" 0 "block_index must be a non-negative integer";
  _ ← need_strs d EVIDENCE_HASHES;
  submit_fields "qv_submitEvidence" e d EVIDENCE_FIELDS);
  mret (rest_ok v 201))).
Definition h_submit_tx : handler := λ e rq _, posting rq (λ d, p_send_raw_tx (rv_call e) [("tx_data", JObj d)]).
Definition h_create_wallet : handler := λ e _ _, attempt_any 201 (p_new_wallet (rv_call e) []).
Definition h_list_wallets : handler := λ e _ _, attempt_any 200 (v ← p_list_wallets (rv_call e) []; mret (with_total "wallets" v)).
(** The fees of the body are not handed over. *)
Definition h_notarize : handler := λ e rq _, posting rq (λ d,
  _ ← need_str d "wallet_address"; _ ← need_str d "document_hash"; _ ← allow_str d "metadata";
  p_submit "qv_notarize" (rv_call e) (pick_fields d ["wallet_address"; "document_hash"; "metadata"])).
Definition h_store : handler := λ e rq _, posting rq (λ d,
  _ ← need_str d "wallet_address"; _ ← need_str d "document_hash"; _ ← allow_str d "cid"; _ ← allow_str d "metadata";
  submit_fields "qv_store" e d ["document_hash"; "cid"; "metadata"]).
Definition h_share : handler := λ e rq _, posting rq (λ d,
  _ ← need_str d "wallet_address"; _ ← need_str d "recipient_address"; _ ← allow_str d "cid";
  _ ← allow_str d "recipient_encryption_pk";
  _ ← (if is_int (jget d "expires" (JInt 0)) then mret tt else raise (ValueError "expires must be an integer"));
  submit_fields "qv_share" e d ["recipient_address"; "cid"; "recipient_encryption_pk"; "expires"]).
Definition h_register_validator : handler := λ e rq _, posting rq (λ d,
  _ ← need_str d "wallet_address"; submit_fields "qv_registerValidator" e d []).
(** [_stake_rest], [_delegate_rest] and [_unstake_rest] *)
Definition h_staking (name : string) : handler := λ e rq _, posting rq (λ d,
  _ ← need_str d "wallet_address"; _ ← need_str d "validator_address"; _ ← need_int d "amount" 1 "amount must be a positive integer";
  submit_fields name e d ["validator_address"; "amount"]).
Definition h_register_webhook : handler := λ e rq _, posting rq (λ d,
  _ ← need_str d "url";
  _ ← (match jget d "events" (JList []) with
       | JList (_ :: _) => mret tt
       | _ => raise (ValueError "events is required and must be a non-empty list")
       end);
  _ ← nonempty_str d "secret" "secret is required and must be a non-empty string";
  x ← at_hooks (register (ce_token (rv_call e)) (ce_clock (rv_call e)) (jget d "url" JNull) (jget d "events" JNull) (jget d "secret" JNull));
  mret (JObj x)).
Definition h_list_webhooks : handler := λ e _ _, attempt_any 200 (v ← p_list_webhooks (rv_call e) []; mret (with_total "webhooks" v)).
Definition h_delete_webhook : handler := λ e _ re,
  let i := part re "id" in
  if is_empty i then mret (rest_err 400 "webhook id is required" 400)
  else recover failure (deleted ← at_hooks (delete_webhook (JStr i));
    mret (if deleted : bool then rest_ok (JObj [("deleted", JBool true)]) 200 else rest_err 404 "webhook not found" 404)).
Definition h_issue_token : handler := λ e rq _, posting_unchecked rq (λ d,
  _ ← need_str d "wallet"; _ ← need_str d "name"; _ ← need_str d "symbol"; _ ← strict_int d "decimals" JNull 0 "decimals is required and must be an integer" "decimals must be >= 0";
  _ ← strict_int d "max_supply" (JInt 0) 0 "max_supply must be an integer" "max_supply must be >= 0";
  _ ← (if is_bool (jget d "transferable" (JBool true)) then mret tt else raise (ValueError "transferable must be a boolean"));
  submit_token "qv_issueToken" e d ["name"; "symbol"; "decimals"; "max_supply"; "transferable"]).
Definition h_mint_token : handler := λ e rq _, posting_unchecked rq (λ d,
  _ ← need_str d "wallet"; _ ← need_str d "token_id"; _ ← need_str d "recipient"; _ ← strict_int d "amount" JNull 1 "amount must be a positive integer" "amount must be a positive integer";
  submit_token "qv_mintToken" e d ["token_id"; "recipient"; "amount"]).
Definition h_transfer_token : handler := λ e rq _, posting_unchecked rq (λ d,
  _ ← need_str d "wallet"; _ ← need_str d "token_id"; _ ← need_str d "recipient"; _ ← strict_int d "amount" JNull 1 "amount must be a positive integer" "amount must be a positive integer";
  _ ← allow_str d "memo";
  submit_token "qv_transferToken" e d ["token_id"; "recipient"; "amount"; "memo"]).

(** ** Routes and middleware *)

Definition PUBLIC_ROUTES : list string :=
  ["/info"; "/health"; "/health/ready"; "/metrics"; "/blocks"; "/blocks/latest"; "/blocks/hash/{hash}"; "/blocks/{index}";
   "/txs/sender/{addr}"; "/txs/{txid}"; "/address/{addr}"; "/notarizations/{hash}"; "/validators"; "/stakes"; "/stakes/{validator}";
   "/balance/{addr}"; "/supply"; "/fee"; "/pool"; "/pool/count"; "/verify"; "/epochs/current"; "/slashing-events";
   "/state-proof/{addr}"; "/state-root"; "/receipt/{txid}"; "/events"; "/finalized"; "/tokens"; "/tokens/{token_id}";
   "/tokens/{token_id}/holders"; "/address/{addr}/tokens"; "/headers"; "/headers/{index}"; "/proofs/state/{key}";
   "/proofs/receipt/{txid}"].
(** [_register_routes] *)
Definition routes (expected : string) : list ((string * string) * (RestEnv → Request → Resolved → M App RestResponse)) := [
  (("GET", "/info"), h_info); (("GET", "/health"), h_health); (("GET", "/health/ready"), h_readiness); (("GET", "/metrics"), h_metrics);
  (("GET", "/blocks"), h_list_blocks); (("GET", "/blocks/latest"), h_latest_block); (("GET", "/blocks/hash/{hash}"), h_block_by_hash);
  (("GET", "/blocks/{index}"), h_block_by_index); (("GET", "/txs/sender/{addr}"), h_txs_by_sender); (("GET", "/txs/{txid}"), h_get_tx);
  (("GET", "/address/{addr}"), h_address_info); (("GET", "/notarizations/{hash}"), h_notarization_proof);
  (("GET", "/validators"), h_validators); (("GET", "/stakes"), h_all_stakes); (("GET", "/stakes/{validator}"), h_validator_stake);
  (("GET", "/balance/{addr}"), h_get_balance); (("GET", "/supply"), h_get_supply); (("GET", "/fee"), h_fee_info);
  (("GET", "/pool"), h_pool_summary); (("GET", "/pool/count"), h_pool_count); (("POST", "/verify"), h_verify);
  (("GET", "/epochs/current"), h_current_epoch); (("GET", "/slashing-events"), h_slashing_events);
  (("GET", "/state-proof/{addr}"), h_state_proof); (("GET", "/state-root"), h_state_root); (("GET", "/receipt/{txid}"), h_get_receipt);
  (("GET", "/events"), h_get_events); (("GET", "/finalized"), h_get_finalized);
  (("POST", "/webhooks"), h_register_webhook); (("GET", "/webhooks"), h_list_webhooks); (("DELETE", "/webhooks/{id}"), h_delete_webhook);
  (("POST", "/transfer"), h_transfer); (("POST", "/txs"), h_submit_tx); (("POST", "/evidence"), h_submit_evidence);
  (("POST", "/wallets"), h_create_wallet); (("GET", "/wallets"), h_list_wallets); (("POST", "/notarize"), h_notarize);
  (("POST", "/store"), h_store); (("POST", "/share"), h_share); (("POST", "/register-validator"), h_register_validator);
  (("POST", "/stake"), h_staking "qv_stake"); (("POST", "/delegate"), h_staking "qv_delegate"); (("POST", "/unstake"), h_staking "qv_unstake");
  (("GET", "/tokens"), h_list_tokens); (("GET", "/tokens/{token_id}"), h_get_token); (("GET", "/tokens/{token_id}/holders"), h_token_holders);
  (("GET", "/address/{addr}/tokens"), h_address_tokens); (("POST", "/issue-token"), h_issue_token);
  (("POST", "/mint-token"), h_mint_token); (("POST", "/transfer-token"), h_transfer_token);
  (("GET", "/headers"), h_list_headers); (("GET", "/headers/{index}"), h_get_header);
  (("GET", "/proofs/state/{key}"), h_state_proof_by_key expected); (("GET", "/proofs/receipt/{txid}"), h_receipt_proof)].

Record RestServer := mkRestServer { rest_token : string; cors_origins : string }.

(** [_auth_middleware], then the handler; a path or method without route is a 404. *)
Definition authorized (srv : RestServer) (e : RestEnv) (rq : Request) (re : Resolved) : M App RestResponse :=
  let open := match re_route re with Some r => bool_decide (r ∈ PUBLIC_ROUTES) | None => false end in
  allowed ← (if open then mret true else lift (rest_auth (rest_token srv) (rq_auth rq)));
  if negb allowed then mret (rest_err 401 "authentication required" 401)
  else match (r ← re_route re; dget (routes (rest_token srv)) (rq_method rq, r)) with
       | Some h => h e rq re
       | None => mret (bare 404)
       end.
(** [_cors_middleware] *)
Definition cors_headers (origins : string) : dict string string :=
  [("Access-Control-Allow-Origin", origins); ("Access-Control-Allow-Methods", "GET, POST, OPTIONS");
   ("Access-Control-Allow-Headers", if bool_decide (origins = "*") then "Content-Type" else "Authorization, Content-Type");
   ("Access-Control-Max-Age", "86400")].
Definition with_cors (srv : RestServer) (rq : Request) (m : M App RestResponse) : M App RestResponse :=
  if is_empty (cors_origins srv) then if bool_decide (rq_method rq = "OPTIONS") then mret (bare 403) else m
  else r ← (if bool_decide (rq_method rq = "OPTIONS") then mret (bare 204) else m);
       mret (mkRest (rr_status r) (rr_body r) (rr_headers r ++ cors_headers (cors_origins srv))).
(** The framework around it: the rate limit of the server it is mounted on,
    and 500 for an exception *)
Definition rest_serve (srv : RestServer) (e : RestEnv) (now : float) (rq : Request) (re : Resolved)
    : M (RateLimiter * App) RestResponse := λ ls,
  let (ok, l) := admit_request now rq ls.1 in
  if ok : bool then
    let (r, s) := recover (λ _, bare 500) (with_cors srv rq (authorized srv e rq re)) ls.2 in (r, (l, s))
  else (Ok (mkRest 429 (JObj (rpc_error JNull (-32000) "rate limit exceeded")) []), (l, ls.2)).
End Rest.
