(* ===== verification/RestLaws.v ===== *)
(** * Everything a node serves over HTTP

    The REST interface next to JSON-RPC: without the token a request changes
    nothing and learns nothing but the chain, whichever of the two it goes to;
    with it, the node moves by the steps of [NodeLaws]; the pages of token
    holders against the ranking of all balances. *)
From Stdlib Require Import Floats.SpecFloat.
From S2P Require Import Prelude PyStr Json JsonText Config Limits Webhooks WebSocket Crypto StateTrie Wallet Transaction Fees Block Receipt ChainState Ledger StateOps Staking ReceiptOps Consensus Apply TokenLaws TxPool Rollback Chain ChainLaws WalletFile Mlkem Query Node NodeLaws Rpc NodeRpc NodeRpcLaws RestApi.
Open Scope Z_scope.

Section Laws.
Context `{C : Crypto} `{Cfg : ChainConfig} `{K : Kem} `{V : WebEnv} `{F : PyFloat}.

(** ** Handlers of public routes *)

(** A reading of the chain and of the number of wallets *)
Definition open_reading {A} (q : Node → A) : Prop :=
  ∀ n1 n2, chain n1 = chain n2 → length (wallets n1) = length (wallets n2) → q n1 = q n2.

Section Public.
Context (P : ∀ A, M App A → Prop) `{!Closed P}.
Hypothesis Hread : ∀ A (q : Node → A), open_reading q → P A (reading q).

Lemma asking_carries q e d : open_query q → P _ (asking q e d).
Proof.
  intros Hq. unfold asking. apply closed_bind; [|intros r; apply closed_lift]. apply Hread.
  intros n1 n2 Hc Hw. by apply Hq.
Qed.
Lemma refusing_carries {A} (r : result A) k : (∀ a, P _ (k a)) → P _ (refusing r k).
Proof. intros Hk. unfold refusing. destruct r; [apply Hk|by apply closed_ret]. Qed.
Lemma attempt_carries status m : P _ m → P _ (attempt status m).
Proof. intros Hm. apply closed_recover, closed_bind; [done|]. intros v. by apply closed_ret. Qed.
Lemma attempt_any_carries status m : P _ m → P _ (attempt_any status m).
Proof. intros Hm. apply closed_recover, closed_bind; [done|]. intros v. by apply closed_ret. Qed.
Lemma unguarded_carries m : P _ m → P _ (unguarded m).
Proof. intros Hm. apply closed_bind; [done|]. intros v. by apply closed_ret. Qed.
Lemma nonempty_str_carries d k r : P _ (nonempty_str d k r).
Proof. unfold nonempty_str. destruct (jget d k (JStr EmptyString)); try by apply closed_raise. by apply closed_lift. Qed.

Ltac carry :=
  repeat first
    [ apply refusing_carries; intros ? | apply attempt_carries | apply attempt_any_carries | apply unguarded_carries
    | apply nonempty_str_carries | by apply closed_ret | by apply closed_raise | apply closed_lift
    | apply asking_carries; intros ? ? ? ? Hc Hw; by_open Hc Hw
    | apply Hread; intros ? ? Hc Hw; first [reflexivity | cbv beta; rewrite ?Hc, ?Hw; reflexivity]
    | apply closed_recover | apply closed_bind; [|intros ?]
    | match goal with |- P _ (if ?b then _ else _) => destruct b end
    | match goal with |- P _ (match ?x with _ => _ end) => destruct x end ].
Definition public_route (tok : string) (rh : (string * string) * (RestEnv → Request → Resolved → M App RestResponse)) : Prop :=
  rh.1.2 ∉ PUBLIC_ROUTES ∨ ∀ e rq re, P _ (rh.2 e rq re).
Ltac public_entry :=
  first [ left; apply (bool_decide_unpack _); vm_compute; exact I
        | right; intros e rq re; cbn [snd];
          cbv beta zeta delta [h_info h_health h_readiness h_metrics h_list_blocks h_latest_block h_block_by_hash h_block_by_index
            h_txs_by_sender h_get_tx h_address_info h_notarization_proof h_validators h_all_stakes h_validator_stake h_get_balance
            h_get_supply h_fee_info h_pool_summary h_pool_count h_verify h_current_epoch h_slashing_events h_state_proof h_state_root
            h_get_receipt h_get_events h_get_finalized h_list_tokens h_get_token h_token_holders h_address_tokens h_list_headers
            h_get_header h_state_proof_by_key h_receipt_proof with_object need_str];
          carry ].
Lemma routes_public tok : Forall (public_route tok) (routes tok).
Proof. unfold routes. repeat (constructor; [public_entry|]). constructor. Qed.
End Public.

(** ** Without the token *)

(** No token, or a wrong one *)
Definition unknown_caller (tok : string) (rq : Request) : Prop := rest_auth tok (rq_auth rq) ≠ Ok true.
Lemma route_found (l : list ((string * string) * (RestEnv → Request → Resolved → M App RestResponse))) k h :
  dget l k = Some h → (k, h) ∈ l.
Proof. apply dget_Some_elem. Qed.
Lemma lift_bind {A B} (r : result A) (k : A → M App B) :
  (lift r ≫= k) = match r with Ok a => k a | Raise e => raise e end.
Proof. by destruct r. Qed.
Section Outside.
Context (P : ∀ A, M App A → Prop) `{!Closed P} (srv : RestServer) (rq : Request).
Lemma authorized_carries e re :
  (∀ r h, dget (routes (rest_token srv)) (rq_method rq, r) = Some h →
    r ∈ PUBLIC_ROUTES ∨ rest_auth (rest_token srv) (rq_auth rq) = Ok true → P _ (h e rq re)) →
  P _ (authorized srv e rq re).
Proof.
  intros Hh. assert (Hfound : (∀ r, re_route re = Some r → r ∈ PUBLIC_ROUTES ∨ rest_auth (rest_token srv) (rq_auth rq) = Ok true) →
    P RestResponse match (r ← re_route re; dget (routes (rest_token srv)) (rq_method rq, r)) with
                   | Some h => h e rq re | None => mret (bare 404) end).
  { destruct (re_route re) as [r|]; [|intros _; by apply closed_ret]. intros Hr. cbn [mbind option_bind].
    destruct (dget (routes _) (rq_method rq, r)) as [h|] eqn:Eh; [apply (Hh r); [done|by apply Hr]|by apply closed_ret]. }
  unfold authorized. set (open := match re_route re with Some _ => _ | None => _ end).
  assert (Hr : (if open then mret true else lift (rest_auth (rest_token srv) (rq_auth rq))) =
    lift (S := App) (if open then Ok true else rest_auth (rest_token srv) (rq_auth rq))) by by destruct open.
  rewrite Hr, lift_bind. destruct open eqn:Ho.
  - apply Hfound. intros r Er. left. subst open. rewrite Er in Ho. by apply bool_decide_eq_true in Ho.
  - destruct (rest_auth _ _) as [[]|err]; [|by apply closed_ret|by apply closed_raise]. apply Hfound. by right.
Qed.
Lemma with_cors_carries m : P _ m → P _ (with_cors srv rq m).
Proof.
  intros Hm. unfold with_cors. destruct (is_empty _), (bool_decide _); try done; try by apply closed_ret.
  apply closed_bind; [done|]. intros r. apply (closed_lift _ (Ok _)).
Qed.
End Outside.
Lemma authorized_outside (P : ∀ A, M App A → Prop) `{!Closed P} srv e rq re :
  (∀ A (q : Node → A), open_reading q → P A (reading q)) → unknown_caller (rest_token srv) rq →
  P _ (with_cors srv rq (authorized srv e rq re)).
Proof.
  intros Hread Hun. apply with_cors_carries, authorized_carries; [done..|]. intros r h Hg%route_found [Hin|Ha]; [|done].
  destruct (Forall_in _ _ _ (routes_public P Hread (rest_token srv)) Hg) as [Hn|Hp]; [done|apply Hp].
Qed.
Lemma reading_keeps {A} (I : App → Prop) (q : Node → A) : keeps I (reading q).
Proof. apply keeps_gets. Qed.
Lemma reading_same {A} (q : Node → A) : open_reading q → same_answer alike_outside A (reading q).
Proof. intros Hq s1 s2 [Hc Hw]. split; [|done]. cbn. f_equal. by apply Hq. Qed.
Lemma rest_outside srv e rq re : unknown_caller (rest_token srv) rq →
  let m := recover (λ _, bare 500) (with_cors srv rq (authorized srv e rq re)) in
  (∀ s, (m s).2 = s) ∧ ∀ s1 s2, alike_outside s1 s2 → (m s1).1 = (m s2).1.
Proof.
  intros Hun m. split.
  - intros s. assert (Hk : keeps (λ s', s' = s) m).
    { apply (closed_recover (P := λ A, keeps (A := A) (λ s', s' = s))), (authorized_outside (λ A, keeps (A := A) (λ s', s' = s))); [|done].
      intros A q _. apply reading_keeps. }
    specialize (Hk s eq_refl). unfold wp in Hk. by destruct (m s).
  - intros s1 s2 Hs. assert (Hm : same_answer alike_outside _ m).
    { apply (closed_recover (P := same_answer alike_outside)), (authorized_outside (same_answer alike_outside)); [|done].
      intros A q Hq. by apply reading_same. }
    by destruct (Hm s1 s2 Hs).
Qed.

(** ** With it *)

Section Moves.
Context (n0 : Node) (h0 : WebhookManager).
Lemma submit_moves name e d : keeps (moves n0 h0) (p_submit name e d).
Proof. pose proof (handle_moves n0 h0). unfold p_submit. auto 20 with keeps. Qed.
Lemma send_raw_moves e d : keeps (moves n0 h0) (p_send_raw_tx e d).
Proof. pose proof (raw_moves n0 h0). unfold p_send_raw_tx. destruct (jget d _ _); auto 20 with keeps. Qed.
Lemma create_wallet_moves e d : keeps (moves n0 h0) (p_new_wallet e d).
Proof. pose proof (new_wallet_moves n0 h0). unfold p_new_wallet. auto 20 with keeps. Qed.
Lemma wallets_moves e d : keeps (moves n0 h0) (p_list_wallets e d).
Proof. unfold p_list_wallets. auto 20 with keeps. Qed.
Lemma webhooks_moves e d : keeps (moves n0 h0) (p_list_webhooks e d).
Proof. unfold p_list_webhooks. auto 20 with keeps. Qed.
(** Anything a handler is put together from keeps what its parts keep. *)
Lemma with_object_moves rq r k : (∀ d, keeps (moves n0 h0) (k d)) → keeps (moves n0 h0) (with_object rq r k).
Proof. intros Hk. unfold with_object. destruct (json_body rq) as [[]|]; auto with keeps. Qed.
Lemma attempt_moves status m : keeps (moves n0 h0) m → keeps (moves n0 h0) (attempt status m).
Proof. apply (attempt_carries (λ A, keeps (A := A) (moves n0 h0))). Qed.
Lemma attempt_any_moves status m : keeps (moves n0 h0) m → keeps (moves n0 h0) (attempt_any status m).
Proof. apply (attempt_any_carries (λ A, keeps (A := A) (moves n0 h0))). Qed.
Lemma recover_moves {A} (h : exn → A) (m : M App A) : keeps (moves n0 h0) m → keeps (moves n0 h0) (recover h m).
Proof. apply (closed_recover (P := λ A, keeps (A := A) (moves n0 h0))). Qed.
Lemma posting_moves rq k : (∀ d, keeps (moves n0 h0) (k d)) → keeps (moves n0 h0) (posting rq k).
Proof. intros Hk. apply with_object_moves. intros d. by apply attempt_moves. Qed.
Lemma posting_unchecked_moves rq k : (∀ d, keeps (moves n0 h0) (k d)) → keeps (moves n0 h0) (posting_unchecked rq k).
Proof.
  intros Hk. unfold posting_unchecked. destruct (json_body rq); [|apply keeps_ret].
  apply keeps_bind; [apply keeps_lift|]. intros d. by apply attempt_moves.
Qed.
Lemma nonempty_str_moves d k r : keeps (moves n0 h0) (nonempty_str d k r).
Proof. apply (nonempty_str_carries (λ A, keeps (A := A) (moves n0 h0))). Qed.
Lemma need_int_moves d k lo r : keeps (moves n0 h0) (need_int d k lo r).
Proof. unfold need_int. destruct (jget d k _); auto with keeps. Qed.
Lemma strict_int_moves d k v lo r r' : keeps (moves n0 h0) (strict_int d k v lo r r').
Proof. unfold strict_int. destruct (jget d k _); auto with keeps. Qed.
Lemma need_strs_moves d ks : keeps (moves n0 h0) (need_strs d ks).
Proof.
  induction ks as [|k ks IH]; cbn [need_strs]; [apply keeps_ret|].
  apply keeps_bind; [apply nonempty_str_moves|]. by intros _.
Qed.
Hint Resolve submit_moves send_raw_moves create_wallet_moves wallets_moves webhooks_moves register_moves delete_moves
  with_object_moves attempt_moves attempt_any_moves recover_moves posting_moves posting_unchecked_moves nonempty_str_moves need_int_moves
  strict_int_moves need_strs_moves reading_keeps : keeps.
Definition moving_route (rh : (string * string) * (RestEnv → Request → Resolved → M App RestResponse)) : Prop :=
  ∀ e rq re, keeps (moves n0 h0) (rh.2 e rq re).
Ltac moving_route :=
  intros e rq re; cbn [snd];
  cbv beta zeta delta [h_transfer h_submit_evidence h_submit_tx h_create_wallet h_list_wallets h_notarize h_store h_share
    h_register_validator h_staking h_register_webhook h_list_webhooks h_delete_webhook h_issue_token h_mint_token h_transfer_token
    submit_fields submit_token need_str allow_str];
  auto 40 with keeps.
Lemma protected_routes_move tok : Forall (λ rh, rh.1.2 ∈ PUBLIC_ROUTES ∨ moving_route rh) (routes tok).
Proof.
  unfold routes. repeat (constructor; [first [left; apply (bool_decide_unpack _); vm_compute; exact I | right; moving_route]|]).
  constructor.
Qed.
Lemma routes_move tok k h e rq re : dget (routes tok) k = Some h → keeps (moves n0 h0) (h e rq re).
Proof.
  intros Hg%route_found. pose proof (Forall_in _ _ _ (protected_routes_move tok) Hg) as [Hin|Hm]; [|apply Hm].
  assert (Hread : ∀ A (q : Node → A), open_reading q → keeps (moves n0 h0) (reading q)) by (intros; apply reading_keeps).
  destruct (Forall_in _ _ _ (routes_public (λ A, keeps (A := A) (moves n0 h0)) Hread tok) Hg) as [Hn|Hp]; [done|apply Hp].
Qed.
Lemma rest_serve_moves srv e now rq re ls : moves n0 h0 ls.2 → limiter_ok ls.1 →
  let ls' := (rest_serve srv e now rq re ls).2 in moves n0 h0 ls'.2 ∧ limiter_ok ls'.1.
Proof.
  intros Hm Hl. destruct ls as [l s]. cbn [fst snd] in *. unfold rest_serve. cbn [fst snd].
  pose proof (admit_ok now rq l Hl) as Hl'.
  assert (Hr : keeps (moves n0 h0) (recover (λ _, bare 500) (with_cors srv rq (authorized srv e rq re)))).
  { apply recover_moves, (with_cors_carries (λ A, keeps (A := A) (moves n0 h0))), (authorized_carries (λ A, keeps (A := A) (moves n0 h0))).
    intros r h Hg _. exact (routes_move _ _ _ e rq re Hg). }
  destruct (admit_request now rq l) as [ok l']. destruct ok; [|done].
  specialize (Hr s Hm). unfold wp in Hr. by destruct (recover _ _ s).
Qed.
End Moves.
End Laws.

(** ** Pages of token holders *)

Section Pages.
Context `{C : Crypto} `{Cfg : ChainConfig} `{K : Kem} `{V : WebEnv} `{F : PyFloat}.
Lemma pagination_bounds re offset limit : parse_token_pagination re = Ok (offset, limit) → 0 <= offset ∧ 1 <= limit <= 1000.
Proof.
  unfold parse_token_pagination, TOKEN_MAX_LIMIT. destruct (query_int re "offset" _ _) as [o|]; [|done]. cbn.
  destruct (query_int re "limit" _ _) as [l|]; [|done]. cbn. unfold guard.
  destruct (Z.ltb_spec o 0); [done|]. destruct (Z.ltb_spec l 1); [done|]. destruct (Z.ltb_spec 1000 l); [done|]. cbn.
  intros H2. simplify_eq. lia.
Qed.
(** What is served for an offset: the page the offset lies in, of at most 100
    entries. *)
Lemma rest_holders_served e rq re s offset limit :
  let tid := part re "token_id" in
  let ranking := ranked_holders (tokens (chain (app_node s))) tid in
  let m := Z.min limit 100 in
  tid ≠ EmptyString → is_Some (token_registry (tokens (chain (app_node s))) !! tid) → tokens_ok (tokens (chain (app_node s))) →
  parse_token_pagination re = Ok (offset, limit) →
  (h_token_holders e rq re s).1 =
  Ok (rest_ok (JObj [("token_id", JStr tid);
        ("holders", JList (holder_json <$> take (Z.to_nat m) (drop (Z.to_nat (offset / limit * m)) ranking)));
        ("total", JInt (Z.of_nat (length ranking))); ("offset", JInt offset); ("limit", JInt limit)]) 200).
Proof.
  intros tid ranking m Hne Hreg Hok Hp. destruct (pagination_bounds _ _ _ Hp) as [Ho Hl]. unfold h_token_holders. fold tid.
  replace (is_empty tid) with false by (by destruct tid).
  unfold mbind at 1, M_bind at 1. cbn [reading gets]. cbv beta. rewrite bool_decide_eq_true_2 by done. cbn [negb].
  rewrite Hp. cbn [refusing]. unfold unguarded, mbind at 1, M_bind at 1. cbn [reading gets]. cbv beta iota zeta.
  assert (Hpage : 1 <= page_of offset limit) by (unfold page_of; pose proof (Z.div_pos offset limit); lia).
  assert (Hcap : ∀ page, get_token_holders (chain (app_node s)) tid page limit = get_token_holders (chain (app_node s)) tid page m).
  { intros page. unfold get_token_holders, TOKEN_HOLDER_MAX_PAGE. subst m. by rewrite <-Z.min_assoc. }
  rewrite Hcap, holders_page by (done || lia). unfold page_of. by rewrite Z.add_simpl_r.
Qed.
(** An offset that is a multiple of a limit of at most 100 is served as asked. *)
Lemma rest_holders_aligned e rq re s k limit :
  let tid := part re "token_id" in
  let ranking := ranked_holders (tokens (chain (app_node s))) tid in
  tid ≠ EmptyString → is_Some (token_registry (tokens (chain (app_node s))) !! tid) → tokens_ok (tokens (chain (app_node s))) →
  parse_token_pagination re = Ok (k * limit, limit) → limit <= 100 →
  (h_token_holders e rq re s).1 =
  Ok (rest_ok (JObj [("token_id", JStr tid);
        ("holders", JList (holder_json <$> take (Z.to_nat limit) (drop (Z.to_nat (k * limit)) ranking)));
        ("total", JInt (Z.of_nat (length ranking))); ("offset", JInt (k * limit)); ("limit", JInt limit)]) 200).
Proof.
  intros tid ranking Hne Hreg Hok Hp Hl. destruct (pagination_bounds _ _ _ Hp).
  rewrite (rest_holders_served e rq re s (k * limit) limit) by done. rewrite Z.div_mul by lia. by rewrite Z.min_l by lia.
Qed.
(** Any other offset repeats entries before it: within the first page it is
    ignored. *)
Lemma rest_offset_ignored e rq re re0 s offset limit :
  part re0 "token_id" = part re "token_id" → part re "token_id" ≠ EmptyString →
  is_Some (token_registry (tokens (chain (app_node s))) !! part re "token_id") → tokens_ok (tokens (chain (app_node s))) →
  parse_token_pagination re = Ok (offset, limit) → parse_token_pagination re0 = Ok (0, limit) → offset < limit →
  ∃ fields, (∀ re' o, re' = re ∧ o = offset ∨ re' = re0 ∧ o = 0 → (h_token_holders e rq re' s).1 =
    Ok (rest_ok (JObj (fields ++ [("offset", JInt o); ("limit", JInt limit)])) 200)).
Proof.
  intros Hsame Hne Hreg Hok Hp Hp0 Hlt. destruct (pagination_bounds _ _ _ Hp). eexists.
  intros re' o [[-> ->]|[-> ->]].
  - rewrite (rest_holders_served e rq re s offset limit) by done. rewrite Z.div_small by lia.
    change (?a :: ?b :: ?c :: ?d) with ([a; b; c] ++ d). reflexivity.
  - rewrite (rest_holders_served e rq re0 s 0 limit) by (rewrite ?Hsame; done). by rewrite Hsame.
Qed.
End Pages.

(** ** Arrivals *)

Lemma rest_serve_outside `{C : Crypto} `{Cfg : ChainConfig} `{K : Kem} `{V : WebEnv} `{F : PyFloat} srv e now rq re l s1 s2 :
  unknown_caller (rest_token srv) rq → alike_outside s1 s2 →
  (rest_serve srv e now rq re (l, s1)).2.2 = s1 ∧
  (rest_serve srv e now rq re (l, s1)).1 = (rest_serve srv e now rq re (l, s2)).1.
Proof.
  intros Htok Hs. destruct (rest_outside srv e rq re Htok) as [H1 H2]. unfold rest_serve. cbn [fst snd].
  destruct (admit_request now rq l) as [[] l']; [|done]. specialize (H1 s1). specialize (H2 s1 s2 Hs).
  destruct (recover _ _ s1) as [r1 t1], (recover _ _ s2) as [r2 t2]. by cbn in *; subst.
Qed.

(** What reaches a node over HTTP, and the node after it *)
Inductive Arrival :=
  | ToRpc (env : nat → CallEnv) (now : float) (rq : Request)
  | ToRest (e : RestEnv) (now : float) (rq : Request) (re : Resolved).
Section Served.
Context `{C : Crypto} `{Cfg : ChainConfig} `{K : Kem} `{V : WebEnv} `{F : PyFloat} (tok : string) (tls : bool) (rest : RestServer).
Definition Answer : Type := result Response + result RestResponse.
Definition serve_one (ls : RateLimiter * App) (a : Arrival) : Answer * (RateLimiter * App) :=
  match a with
  | ToRpc env now rq => let (r, ls) := serve (node_server tok tls) env now rq ls in (inl r, ls)
  | ToRest e now rq re => let (r, ls) := rest_serve rest e now rq re ls in (inr r, ls)
  end.
Fixpoint serve_all (arrivals : list Arrival) (ls : RateLimiter * App) : list Answer * (RateLimiter * App) :=
  match arrivals with
  | [] => ([], ls)
  | a :: arrivals => let (r, ls) := serve_one ls a in let (rs, ls) := serve_all arrivals ls in (r :: rs, ls)
  end.
(** No token, or a wrong one *)
Definition stranger (a : Arrival) : Prop :=
  match a with
  | ToRpc _ _ rq => request_token (rq_auth rq) ≠ tok
  | ToRest _ _ rq _ => unknown_caller (rest_token rest) rq
  end.
Lemma serve_one_moves n0 h0 a ls : moves n0 h0 ls.2 → limiter_ok ls.1 →
  moves n0 h0 (serve_one ls a).2.2 ∧ limiter_ok (serve_one ls a).2.1.
Proof.
  intros Hm Hl. destruct a as [env now rq|e now rq re]; unfold serve_one.
  - pose proof (serve_moves n0 h0 tok tls env now rq ls Hm Hl) as H. set (srv := node_server tok tls) in *. clearbody srv.
    by destruct (serve srv env now rq ls).
  - pose proof (rest_serve_moves n0 h0 rest e now rq re ls Hm Hl) as H. by destruct (rest_serve rest e now rq re ls).
Qed.
Lemma serve_all_moves n0 h0 arrivals ls : moves n0 h0 ls.2 → limiter_ok ls.1 →
  moves n0 h0 (serve_all arrivals ls).2.2 ∧ limiter_ok (serve_all arrivals ls).2.1.
Proof.
  revert ls. induction arrivals as [|a l IH]; intros ls Hm Hl; [done|]. cbn [serve_all].
  destruct (serve_one_moves n0 h0 a ls Hm Hl) as [Hm' Hl']. destruct (serve_one ls a) as [r ls']. cbn [snd] in *.
  specialize (IH ls' Hm' Hl'). by destruct (serve_all l ls').
Qed.
Lemma serve_one_outside a l s1 s2 : stranger a → alike_outside s1 s2 →
  (serve_one (l, s1) a).2.2 = s1 ∧ (serve_one (l, s1) a).1 = (serve_one (l, s2) a).1 ∧
  (serve_one (l, s1) a).2.1 = (serve_one (l, s2) a).2.1.
Proof.
  intros Ha Hs. destruct a as [env now rq|e now rq re]; unfold serve_one.
  - destruct (serve_outside tok tls env now rq l s1 s2 Ha (proj1 Hs) (proj2 Hs)) as [H1 H2].
    unfold serve in *. cbn [fst snd] in *. set (srv := node_server tok tls) in *. clearbody srv.
    destruct (admit_request now rq l) as [[] l']; [|done].
    destruct (route srv env rq s1), (route srv env rq s2). cbn in *. by subst.
  - destruct (rest_serve_outside rest e now rq re l s1 s2 Ha Hs) as [H1 H2].
    unfold rest_serve in *. cbn [fst snd] in *. destruct (admit_request now rq l) as [[] l']; [|done].
    destruct (recover _ _ s1), (recover _ _ s2). cbn in *. by subst.
Qed.
Lemma serve_all_outside arrivals l s1 s2 : Forall stranger arrivals → alike_outside s1 s2 →
  (serve_all arrivals (l, s1)).2.2 = s1 ∧ (serve_all arrivals (l, s1)).1 = (serve_all arrivals (l, s2)).1.
Proof.
  intros Ha Hs. revert l. induction Ha as [|a arrivals Ha _ IH]; intros l; [done|]. cbn [serve_all].
  destruct (serve_one_outside a l s1 s2 Ha Hs) as (H1 & H2 & H3).
  destruct (serve_one_outside a l s2 s1 Ha) as (H4 & _ & _); [split; symmetry; apply Hs|].
  destruct (serve_one (l, s1) a) as [r1 [l1 t1]], (serve_one (l, s2) a) as [r2 [l2 t2]]. cbn in *. subst.
  specialize (IH l2). destruct (serve_all arrivals (l2, s1)) as [rs1 x1], (serve_all arrivals (l2, s2)) as [rs2 x2].
  cbn in *. destruct IH as [-> ->]. done.
Qed.
End Served.
Lemma steps_sound `{C : Crypto} `{Cfg : ChainConfig} `{K : Kem} c n n' :
  rtc node_step n n' → node_ok n → sound c (chain n) → node_ok n' ∧ sound c (chain n').
Proof.
  induction 1 as [n|n n1 n2 Hst _ IH]; intros Hok Hso; [done|]. destruct (node_step_ok _ _ Hst Hok) as [Hok' Hso'].
  apply IH; [done|by eapply sound_trans].
Qed.

(** ** Properties *)

(** C10: without the token nothing can be done over HTTP and no secret comes
    out: after any sequence of requests to JSON-RPC and REST that do not carry
    the server's token - single calls, batches, unknown paths, any arguments -
    the node and its webhooks are as they were, and every answer on the way is
    the one of any other node with the same chain and pool and as many wallets:
    it does not depend on the keys, the shared secrets or the webhooks. *)
Theorem unauthenticated_request_harmless `{C : Crypto} `{Cfg : ChainConfig} `{K : Kem} `{V : WebEnv} `{F : PyFloat}
  (tok : string) (tls : bool) (rest : RestServer) (arrivals : list Arrival) (l : RateLimiter) (s1 s2 : App)
  (Hstrangers : Forall (stranger tok rest) arrivals)
  (Hchain : chain (app_node s1) = chain (app_node s2)) (Hcount : length (wallets (app_node s1)) = length (wallets (app_node s2))) :
  (serve_all tok tls rest arrivals (l, s1)).2.2 = s1 ∧
  (serve_all tok tls rest arrivals (l, s1)).1 = (serve_all tok tls rest arrivals (l, s2)).1.
Proof. by apply serve_all_outside. Qed.


(** ** Witnesses *)

Module Sessions.
#[local] Existing Instance Toy.crypto.
#[local] Existing Instance legacy_config.
#[local] Existing Instance ToyKem.kem.
#[local] Existing Instance ToyWeb.env.
#[local] Existing Instance WsRuns.float_text.
Definition rest : RestServer := mkRestServer "secret" EmptyString.
Definition env : RestEnv := mkRestEnv Clients.env 0 None.
Definition web (meth auth : string) (body : JVal) : Request := mkRequest meth "/api/v1" "203.0.113.5" None (Ok (dumps body)) auth.
Definition at_route (r : string) : Resolved := mkResolved (Some r) [] [].
(** A stranger looks, is refused, the owner makes a wallet and notarizes. *)
Definition document : JVal := JObj [("wallet_address", JStr Sample.addr); ("document_hash", JStr "ab")].
Definition refused : Request := web "POST" "Bearer guess" document.
Definition session : list Arrival :=
  [ToRest env (float_of_Z 1) (web "GET" EmptyString JNull) (at_route "/health");
   ToRest env (float_of_Z 2) refused (at_route "/notarize");
   ToRest env (float_of_Z 3) (web "POST" "Bearer secret" JNull) (at_route "/wallets");
   ToRpc (λ _, Clients.env) (float_of_Z 4) (Clients.post "Bearer secret" Clients.notarize);
   ToRpc (λ _, Clients.env) (float_of_Z 5) Clients.probe].
Definition ended : RateLimiter * App := (serve_all "secret" false rest session (Clients.limiter, Clients.app)).2.
Definition status (r : Answer) : Z :=
  match r with inl (Ok x) => rs_status x | inr (Ok x) => rr_status x | _ => 0 end.
Definition strangers : list Arrival :=
  [ToRest env (float_of_Z 1) (web "GET" EmptyString JNull) (at_route "/health"); ToRest env (float_of_Z 2) refused (at_route "/notarize");
   ToRpc (λ _, Clients.env) (float_of_Z 3) Clients.probe].
End Sessions.
#[local] Existing Instance Toy.crypto.
#[local] Existing Instance legacy_config.
#[local] Existing Instance ToyKem.kem.
#[local] Existing Instance ToyWeb.env.
#[local] Existing Instance WsRuns.float_text.

Lemma unauthenticated_request_harmless_witness :
  Sessions.status <$> (serve_all "secret" false Sessions.rest Sessions.strangers (Clients.limiter, Clients.app)).1 = [200; 401; 200] ∧
  (serve_all "secret" false Sessions.rest Sessions.strangers (Clients.limiter, Clients.app)).2.2 = Clients.app ∧
  (serve_all "secret" false Sessions.rest Sessions.strangers (Clients.limiter, Clients.app)).1 =
  (serve_all "secret" false Sessions.rest Sessions.strangers (Clients.limiter, Clients.other)).1.
Proof.
  split; [vm_compute; reflexivity|].
  assert (Hs : Forall (stranger "secret" Sessions.rest) Sessions.strangers).
  { repeat (constructor; [vm_compute; discriminate|]). constructor. }
  exact (unauthenticated_request_harmless "secret" false Sessions.rest Sessions.strangers Clients.limiter
    Clients.app Clients.other Hs eq_refl eq_refl).
Defined.
