(* ===== verification/Client.v ===== *)
(** * The client of the SDK

    [sdk/qbit_sdk/client.py]: each method of [QBitClient] makes one request to
    the REST interface and reads one answer; [sdk/qbit_sdk/exceptions.py] are
    its errors, and the records of [sdk/qbit_sdk/models.py] that [Sdk] leaves
    are here.  A call is the message it sends and the reading of what comes
    back; [perform] runs it over a network, which answers a message or fails to
    connect. *)
From Stdlib Require Import Floats.SpecFloat.
From S2P Require Import Prelude PyStr Json JsonText Config Limits Webhooks WebSocket Crypto StateTrie Wallet Transaction Fees Block Receipt ChainState Ledger StateOps Staking ReceiptOps TxPool Chain WalletFile Mlkem Query Sdk Node Rpc NodeRpc RestApi.
Open Scope Z_scope.

(** ** Messages, answers, errors *)

Record QBitClient := mkClient { base_url : string; client_token : string }.
(** [base_url.rstrip("/")] *)
Fixpoint strip_slashes (s : string) : string :=
  match s with
  | EmptyString => EmptyString
  | String c s' => let t := strip_slashes s' in
                   if is_empty t && bool_decide (c = "/"%char) then EmptyString else String c t
  end.
Definition new_client (base_url token : string) : QBitClient := mkClient (strip_slashes base_url) token.

(** What [urllib] sends, and what comes back: status, reason and text *)
Record Sent := mkSent { se_method : string; se_url : string; se_body : option string; se_auth : option string }.
Record Received := mkReceived { rc_status : Z; rc_reason : string; rc_text : string }.

(** The exceptions of the SDK, with their message; [Crash] is any other exception. *)
Inductive sdk_error :=
  | AuthenticationError (msg : JVal)
  | NotFoundError (msg : JVal)
  | InsufficientBalance (msg : JVal)
  | ValidationError (msg : JVal)
  | QBitError (msg code : JVal)
  | Crash (e : exn).

(** [urllib.parse.urlencode] *)
Definition unreserved (c : ascii) : bool :=
  in_range 48 57 c || in_range 65 90 c || in_range 97 122 c || bool_decide (c ∈ ["_"; "."; "-"; "~"]%char).
Definition upper_digit (n : nat) : ascii := chr (if (n <? 10)%nat then 48 + n else 55 + n).
Definition quote_byte (c : ascii) : string :=
  if unreserved c then String c EmptyString
  else if bool_decide (c = " "%char) then "+"
  else String "%" (String (upper_digit (ord c / 16)) (String (upper_digit (ord c mod 16)) EmptyString)).
Fixpoint quote_bytes (s : string) : string :=
  match s with EmptyString => EmptyString | String c s => quote_byte c +:+ quote_bytes s end.
Definition quote_plus (s : string) : string := quote_bytes (utf8 s).
Definition urlencode (params : list (string * string)) : string :=
  String.concat "&" ((λ kv : string * string, quote_plus kv.1 +:+ "=" +:+ quote_plus kv.2) <$> params).
Example urlencode_1 : urlencode [("page", "1"); ("from", "a b&c")] = "page=1&from=a+b%26c".
Proof. reflexivity. Qed.

(** A method of the client *)
Record ApiCall (A : Type) := mkCall { ac_sent : QBitClient → Sent; ac_read : JVal → result A }.
Arguments mkCall {A} _ _.
Arguments ac_sent {A} _ _.
Arguments ac_read {A} _ _.

Section Client.
Context `{F : PyFloat}.

(** ** One request *)

(** [_request], up to [urlopen] *)
Definition prepare (c : QBitClient) (meth path : string) (body : option JVal) (auth : bool) (params : list (string * string)) : Sent :=
  let url := base_url c +:+ path in
  let url := match params with [] => url | _ => url +:+ "?" +:+ urlencode params end in
  mkSent meth url (print_spaced <$> body)
    (if auth && negb (is_empty (client_token c)) then Some (BEARER +:+ client_token c) else None).
(** The answer to a status that is no success *)
Definition err_message (r : Received) : JVal :=
  let plain := JStr ("HTTP Error " +:+ str_of_Z (rc_status r) +:+ ": " +:+ rc_reason r) in
  match loads (rc_text r) with
  | Some (JObj d) => match jget d "error" (JObj []) with JObj e => jget e "message" plain | _ => plain end
  | _ => plain
  end.
Definition about_balance (msg : string) : bool := contains "insufficient" (lower msg) || contains "balance" (lower msg).
Definition error_of (r : Received) : sdk_error :=
  let msg := err_message r in
  if rc_status r =? 401 then AuthenticationError msg
  else if rc_status r =? 404 then NotFoundError msg
  else if rc_status r =? 400 then
    match msg with
    | JStr m => if about_balance m then InsufficientBalance msg else ValidationError msg
    | _ => Crash AttributeError
    end
  else QBitError msg (JInt (rc_status r)).
(** [_request], from the answer on; the text of a [JSONDecodeError] is left out. *)
Definition read_answer (r : Received) : sdk_error + JVal :=
  if (200 <=? rc_status r) && (rc_status r <? 300) then
    match loads (rc_text r) with
    | Some (JObj d) =>
        match jget d "error" JNull with
        | JNull => inr (jget d "data" JNull)
        | JObj e => inl (QBitError (jget e "message" (JStr "unknown error")) (jget e "code" (JInt 0)))
        | _ => inl (Crash AttributeError)
        end
    | Some _ => inl (Crash AttributeError)
    | None => inl (Crash (ValueError "no JSON"))
    end
  else inl (error_of r).

Definition perform {S A : Type} (net : Sent → S → option Received * S) (c : QBitClient) (call : ApiCall A) (s : S) : (sdk_error + A) * S :=
  let (r, s) := net (ac_sent call c) s in
  (match r with
   | None => inl (QBitError (JStr "connection error") (JInt 0))
   | Some r => match read_answer r with
               | inl e => inl e
               | inr v => match ac_read call v with Ok a => inr a | Raise e => inl (Crash e) end
               end
   end, s).
Definition api_get {A} (path : string) (params : list (string * string)) (auth : bool) (read : JVal → result A) : ApiCall A :=
  mkCall (λ c, prepare c "GET" path None auth params) read.
Definition api_post {A} (path : string) (body : list (string * JVal)) (auth : bool) (read : JVal → result A) : ApiCall A :=
  mkCall (λ c, prepare c "POST" path (Some (JObj body)) auth []) read.
Definition api_delete {A} (path : string) (auth : bool) (read : JVal → result A) : ApiCall A :=
  mkCall (λ c, prepare c "DELETE" path None auth []) read.

(** ** The records *)

Record SdkWallet := mkSdkWallet { sw_address : JVal; sw_signing_pk : JVal; sw_encryption_pk : JVal }.
Definition sdk_wallet_from_dict (v : JVal) : result SdkWallet :=
  d ← as_dict v;
  Ok (mkSdkWallet (jget d "address" (JStr EmptyString)) (jget d "signing_pk" (JStr EmptyString)) (jget d "encryption_pk" (JStr EmptyString))).
Record SdkNodeInfo := mkSdkNodeInfo {
  si_version : JVal; si_chain_height : JVal; si_pending_txs : JVal; si_peers : JVal; si_validator : JVal;
  si_validators : JVal; si_registered_validators : JVal; si_wallets : JVal }.
Definition sdk_node_info_from_dict (v : JVal) : result SdkNodeInfo :=
  d ← as_dict v;
  Ok (mkSdkNodeInfo (jget d "version" (JStr EmptyString)) (jget d "chain_height" (JInt 0)) (jget d "pending_txs" (JInt 0))
        (jget d "peers" (JInt 0)) (jget d "validator" JNull) (jget d "validators" (JList []))
        (jget d "registered_validators" (JList [])) (jget d "wallets" (JInt 0))).
Record SdkBalance := mkSdkBalance { sa_address : JVal; sa_balance : JVal; sa_formatted : JVal }.
Definition sdk_balance_from_dict (v : JVal) : result SdkBalance :=
  d ← as_dict v;
  Ok (mkSdkBalance (jget d "address" (JStr EmptyString)) (jget d "balance" (JInt 0)) (jget d "formatted" (JStr EmptyString))).
Record SdkSupply := mkSdkSupply {
  ss_total_minted : JVal; ss_total_burned : JVal; ss_circulating : JVal; ss_max_supply : JVal;
  ss_formatted_circulating : JVal; ss_fee_model : JVal }.
Definition sdk_supply_from_dict (v : JVal) : result SdkSupply :=
  d ← as_dict v;
  Ok (mkSdkSupply (jget d "total_minted" (JInt 0)) (jget d "total_burned" (JInt 0)) (jget d "circulating" (JInt 0))
        (jget d "max_supply" (JInt 0)) (jget d "formatted_circulating" (JStr EmptyString)) (jget d "fee_model" (JStr "fixed"))).
Record SdkFeeInfo := mkSdkFeeInfo {
  sf_base_fee : JVal; sf_next_base_fee : JVal; sf_suggested_priority_fee : JVal; sf_weights : JVal;
  sf_estimated_fees : JVal; sf_fee_model : JVal }.
Definition sdk_fee_info_from_dict (v : JVal) : result SdkFeeInfo :=
  d ← as_dict v;
  Ok (mkSdkFeeInfo (jget d "base_fee" (JInt 0)) (jget d "next_base_fee" (JInt 0)) (jget d "suggested_priority_fee" (JInt 0))
        (jget d "weights" (JObj [])) (jget d "estimated_fees" (JObj [])) (jget d "fee_model" (JStr "fixed"))).
Record SdkStateProof := mkSdkStateProof { sp_key' : JVal; sp_value' : JVal; sp_proof' : JVal; sp_state_root' : JVal }.
Definition sdk_state_proof_from_dict (v : JVal) : result SdkStateProof :=
  d ← as_dict v;
  Ok (mkSdkStateProof (jget d "key" (JStr EmptyString)) (jget d "value" (JStr EmptyString)) (jget d "proof" (JList []))
        (jget d "state_root" (JStr EmptyString))).
Record SdkVerify := mkSdkVerify { sv_verified : JVal; sv_proof : JVal }.
Definition sdk_verify_from_dict (v : JVal) : result SdkVerify :=
  d ← as_dict v; Ok (mkSdkVerify (jget d "verified" (JBool false)) (jget d "proof" JNull)).
Record SdkWebhook := mkSdkWebhook {
  sh_id : JVal; sh_url : JVal; sh_events : JVal; sh_created_at : JVal; sh_status : JVal; sh_failures : JVal }.
Definition sdk_webhook_from_dict (v : JVal) : result SdkWebhook :=
  d ← as_dict v;
  Ok (mkSdkWebhook (jget d "id" (JStr EmptyString)) (jget d "url" (JStr EmptyString)) (jget d "events" (JList []))
        (jget d "created_at" (JFloat "0.0")) (jget d "status" (JStr "active")) (jget d "consecutive_failures" (JInt 0))).

(** ** Readings *)

Definition as_it_is (v : JVal) : result JVal := Ok v.
Definition field (k : string) (default : JVal) (v : JVal) : result JVal := d ← as_dict v; Ok (jget d k default).
Definition from_dict {A} (f : dict string JVal → result A) (v : JVal) : result A := d ← as_dict v; f d.
Definition entries {A} (k : string) (f : JVal → result A) (v : JVal) : result (list A) :=
  d ← as_dict v; l ← iter_val (jget d k (JList [])); mmap f l.
(** A page whose entries are replaced by records: the rest of the page with them *)
Definition page_of {A} (k : string) (f : JVal → result A) (v : JVal) : result (dict string JVal * list A) :=
  d ← as_dict v; l ← entries k f v; Ok (dpop d k, l).

(** ** Public endpoints *)

Definition c_get_health := api_get "/health" [] false as_it_is.
Definition c_get_info := api_get "/info" [] false sdk_node_info_from_dict.
Definition c_get_block (index : Z) := api_get ("/blocks/" +:+ str_of_Z index) [] false (from_dict sdk_block_from_dict).
Definition c_get_block_by_hash (block_hash : string) := api_get ("/blocks/hash/" +:+ block_hash) [] false (from_dict sdk_block_from_dict).
Definition c_get_latest_block := api_get "/blocks/latest" [] false (from_dict sdk_block_from_dict).
Definition page_params (page limit : Z) : list (string * string) := [("page", str_of_Z page); ("limit", str_of_Z limit)].
Definition c_list_blocks (page limit : Z) := api_get "/blocks" (page_params page limit) false (page_of "blocks" (from_dict sdk_block_from_dict)).
Definition c_get_transaction (tx_id : string) := api_get ("/txs/" +:+ tx_id) [] false sdk_tx_from_dict.
Definition c_get_txs_by_sender (address : string) (page limit : Z) :=
  api_get ("/txs/sender/" +:+ address) (page_params page limit) false (page_of "transactions" sdk_tx_from_dict).
Definition c_get_address_info (address : string) := api_get ("/address/" +:+ address) [] false as_it_is.
Definition c_get_balance (address : string) := api_get ("/balance/" +:+ address) [] false sdk_balance_from_dict.
Definition c_get_supply := api_get "/supply" [] false sdk_supply_from_dict.
Definition c_get_fee_info := api_get "/fee" [] false sdk_fee_info_from_dict.
Definition c_get_validators := api_get "/validators" [] false (field "validators" (JList [])).
Definition c_get_all_stakes := api_get "/stakes" [] false (field "validators" (JList [])).
Definition c_get_validator_stake (validator : string) := api_get ("/stakes/" +:+ validator) [] false as_it_is.
Definition c_get_current_epoch := api_get "/epochs/current" [] false as_it_is.
Definition if_given (k v : string) : list (string * string) := if is_empty v then [] else [(k, v)].
Definition c_get_slashing_events (validator : string) := api_get "/slashing-events" (if_given "validator" validator) false as_it_is.
Definition c_get_pool_summary := api_get "/pool" [] false as_it_is.
Definition c_get_pool_count := api_get "/pool/count" [] false (field "count" (JInt 0)).
Definition c_get_notarization (document_hash : string) := api_get ("/notarizations/" +:+ document_hash) [] false as_it_is.
Definition c_verify_document (document_hash : string) :=
  api_post "/verify" [("document_hash", JStr document_hash)] false sdk_verify_from_dict.
Definition c_get_state_proof (address key : string) := api_get ("/state-proof/" +:+ address) [("key", key)] false sdk_state_proof_from_dict.
Definition c_get_state_root := api_get "/state-root" [] false (field "state_root" (JStr EmptyString)).
Definition c_get_receipt (tx_id : string) := api_get ("/receipt/" +:+ tx_id) [] false (from_dict sdk_receipt_from_dict).
Definition c_get_events (event_type sender : string) (block_index : option Z) (limit : Z) :=
  api_get "/events" (if_given "type" event_type ++ if_given "from" sender ++
    match block_index with Some i => [("block_index", str_of_Z i)] | None => [] end ++ [("limit", str_of_Z limit)])
    false (field "events" (JList [])).
Definition c_get_finalized_height := api_get "/finalized" [] false (field "finalized_height" (JInt (-1))).

(** ** Protected endpoints *)

Definition c_create_wallet := api_post "/wallets" [] true sdk_wallet_from_dict.
Definition c_list_wallets := api_get "/wallets" [] true (field "wallets" (JList [])).

(** The methods that submit a transaction for a wallet of the node *)
Inductive submission :=
  | CTransfer (from_wallet to : string) (amount : Z) (memo : string)
  | CNotarize (wallet document_hash metadata : string)
  | CStore (wallet document_hash cid metadata : string)
  | CShare (wallet recipient cid recipient_encryption_pk : string) (expires : Z)
  | CStake (wallet validator : string) (amount : Z)
  | CDelegate (wallet validator : string) (amount : Z)
  | CUnstake (wallet validator : string) (amount : Z).
Definition sub_path (s : submission) : string :=
  match s with
  | CTransfer _ _ _ _ => "/transfer" | CNotarize _ _ _ => "/notarize" | CStore _ _ _ _ => "/store"
  | CShare _ _ _ _ _ => "/share" | CStake _ _ _ => "/stake" | CDelegate _ _ _ => "/delegate" | CUnstake _ _ _ => "/unstake"
  end.
Definition stake_body (w v : string) (amount : Z) : list (string * JVal) :=
  [("wallet_address", JStr w); ("validator_address", JStr v); ("amount", JInt amount)].
Definition sub_body (s : submission) : list (string * JVal) :=
  match s with
  | CTransfer w to amount memo => [("wallet_address", JStr w); ("to_address", JStr to); ("amount", JInt amount); ("memo", JStr memo)]
  | CNotarize w h meta => [("wallet_address", JStr w); ("document_hash", JStr h); ("metadata", JStr meta)]
  | CStore w h cid meta => [("wallet_address", JStr w); ("document_hash", JStr h); ("cid", JStr cid); ("metadata", JStr meta)]
  | CShare w r cid pk expires =>
      [("wallet_address", JStr w); ("recipient_address", JStr r); ("cid", JStr cid); ("recipient_encryption_pk", JStr pk);
       ("expires", JInt expires)]
  | CStake w v a | CDelegate w v a | CUnstake w v a => stake_body w v a
  end.
(** They return [data.get("tx_id", "")]. *)
Definition c_submit (s : submission) : ApiCall JVal := api_post (sub_path s) (sub_body s) true (field "tx_id" (JStr EmptyString)).
Definition c_register_validator (wallet : string) := api_post "/register-validator" [("wallet_address", JStr wallet)] true as_it_is.
Definition c_submit_evidence (kwargs : dict string JVal) := api_post "/evidence" kwargs true as_it_is.
Definition c_register_webhook (url : string) (events : list string) (secret : string) :=
  api_post "/webhooks" [("url", JStr url); ("events", JList (JStr <$> events)); ("secret", JStr secret)] true sdk_webhook_from_dict.
Definition c_list_webhooks := api_get "/webhooks" [] true (entries "webhooks" sdk_webhook_from_dict).
Definition c_delete_webhook (webhook_id : string) := api_delete ("/webhooks/" +:+ webhook_id) true (λ _, Ok tt).
End Client.
