(* ===== verification/ClientLaws.v ===== *)
(** * The SDK client against the node's REST interface

    The client's messages carried to the server, and what the client makes of
    the answers: a submission of the SDK runs the node's method with exactly
    the arguments of the caller, once, and the caller gets its identifier or the
    exception that belongs to the node's refusal. *)
From Stdlib Require Import Floats.SpecFloat.
From S2P Require Import Prelude PyStr Json JsonText Config Limits Webhooks WebSocket Crypto StateTrie Wallet Transaction Fees Block Receipt Sdk ChainState Ledger StateOps Staking ReceiptOps Consensus Apply TokenLaws TxPool Rollback Chain ChainLaws WalletFile Mlkem Query Node NodeLaws Rpc NodeRpc NodeRpcLaws RestApi RestLaws Client.
Open Scope Z_scope.

(** ** The wire *)

(** Where the framework's routing sends a URL: the path and what it matched *)
Abbreviation router := (string → string * Resolved) (only parsing).
Definition arrive (resolve : router) (remote : string) (m : Sent) : Request * Resolved :=
  let (path, re) := resolve (se_url m) in
  let text := default EmptyString (se_body m) in
  (mkRequest (se_method m) path remote (Some (str_len text))
     (if MAX_RPC_BODY <? str_len text then Raise (ValueError "too large") else Ok text) (default EmptyString (se_auth m)), re).
(** The text of an answer: JSON, a text, or, without a value, what the
    framework writes, which is no JSON. *)
Definition answer_text (r : RestResponse) : string :=
  match rr_body r with JNull => EmptyString | JStr t => t | v => print_spaced v end.

Section Laws.
Context `{C : Crypto} `{Cfg : ChainConfig} `{K : Kem} `{V : WebEnv} `{F : PyFloat}.

Definition received (reason : Z → string) (x : RestResponse) : Received :=
  mkReceived (rr_status x) (reason (rr_status x)) (answer_text x).
Definition wire (resolve : router) (remote : string) (reason : Z → string) (srv : RestServer) (e : RestEnv) (now : float)
    (m : Sent) (ls : RateLimiter * App) : option Received * (RateLimiter * App) :=
  let (rq, re) := arrive resolve remote m in
  let (r, ls) := rest_serve srv e now rq re ls in
  (match r with Ok x => Some (received reason x) | Raise _ => None end, ls).

(** ** Answers *)

Lemma answer_ok_text v status : text_ok v = true → loads (answer_text (rest_ok v status)) = Some (JObj [("data", v); ("error", JNull)]).
Proof.
  intros Hv. assert (Ht : text_ok (JObj [("data", v); ("error", JNull)]) = true).
  { cbn [text_ok forallb snd]. rewrite Hv. by rewrite bool_decide_eq_true_2 by (apply (bool_decide_unpack _); vm_compute; exact I). }
  destruct (loads_text _ EmptyString Ht eq_refl) as [_ R]. by rewrite string_app_nil in R.
Qed.
Definition error_json (code : Z) (msg : string) : JVal :=
  JObj [("data", JNull); ("error", JObj [("code", JInt code); ("message", JStr msg)])].
Lemma answer_err_text code msg status : text_ok (JInt code) = true →
  loads (answer_text (rest_err code msg status)) = Some (error_json code msg).
Proof.
  intros Hc. assert (Ht : text_ok (error_json code msg) = true).
  { cbn [error_json text_ok forallb snd] in *. rewrite Hc. rewrite !bool_decide_eq_true_2; [done|..];
      apply (bool_decide_unpack _); vm_compute; exact I. }
  destruct (loads_text _ EmptyString Ht eq_refl) as [_ R]. by rewrite string_app_nil in R.
Qed.
Lemma read_ok reason v status : text_ok v = true → 200 <= status < 300 → read_answer (received reason (rest_ok v status)) = inr v.
Proof.
  intros Hv Hs. unfold read_answer. cbn [received rc_status rc_text rr_status rest_ok].
  rewrite (proj2 (Z.leb_le 200 status)), (proj2 (Z.ltb_lt status 300)) by lia. by rewrite (answer_ok_text v status Hv).
Qed.

(** What the caller of a submission gets for the outcome of the node's method *)
Definition sdk_outcome (r : result (dict string JVal)) : sdk_error + JVal :=
  match r with
  | Ok x => inr (jget x "tx_id" (JStr EmptyString))
  | Raise (ValueError msg) => inl (if about_balance msg then InsufficientBalance (JStr msg) else ValidationError (JStr msg))
  | Raise _ => inl (QBitError (JStr "internal server error") (JInt 500))
  end.
Lemma read_failure reason e : (∃ a, read_answer (received reason (failure e)) = inl a ∧ sdk_outcome (Raise e) = inl a).
Proof.
  destruct e; eexists; (split; [|reflexivity]); unfold read_answer, failure; cbn [received rc_status rr_status rest_err];
    cbn [Z.leb Z.ltb Z.compare Pos.compare Pos.compare_cont andb]; unfold error_of, err_message; cbn [received rc_status rr_status rc_text];
    rewrite answer_err_text by reflexivity; reflexivity.
Qed.

(** ** The node's answers are JSON *)

Definition answers (P : dict string JVal → Prop) (m : M Node (dict string JVal)) : Prop :=
  ∀ n d n', m n = (Ok d, n') → P d.
Lemma answers_bind {A} P (m : M Node A) k : (∀ a, answers P (k a)) → answers P (m ≫= k).
Proof. intros Hk n d n' H. unfold mbind, M_bind in H. destruct (m n) as [[a|] n1]; [by eapply Hk|done]. Qed.
Lemma answers_ret (P : dict string JVal → Prop) d : P d → answers P (mret d).
Proof. by intros Hd n d' n' [= <- <-]. Qed.
Definition amounts_ok (r : request) : Prop :=
  match r with
  | StakeOn _ a | DelegateTo _ a | UnstakeFrom _ a | TransferTo _ a _ | MintToken _ _ a | TransferToken _ _ a _ => text_ok (JInt a) = true
  | _ => True
  end.
Lemma fields_ok (d : dict string JVal) : bool_decide (NoDup d.*1) = true → Forall (λ kv, text_ok kv.2 = true) d → text_ok (JObj d) = true.
Proof. intros H1 H2. cbn [text_ok]. rewrite H1. by apply forallb_True_iff. Qed.
Lemma handle_text now a mf mp r : amounts_ok r → answers (λ d, text_ok (JObj d) = true) (handle now a mf mp r).
Proof.
  intros Ha. destruct r; cbn [handle amounts_ok] in *;
    unfold rpc_register_key, rpc_register_validator, rpc_revoke_key, rpc_stake, rpc_delegate, rpc_unstake, rpc_notarize, rpc_store,
      rpc_share, rpc_transfer, rpc_issue_token, rpc_mint_token, rpc_transfer_token, rpc_submit_evidence;
    repeat (apply answers_bind; intros ?); apply answers_ret; unfold tx_result;
    (apply fields_ok; [vm_compute; reflexivity|by repeat constructor]).
Qed.

(** ** Requests *)

Definition token_text (tok : string) : Prop := tok ≠ EmptyString ∧ all_chars (in_range 33 126) tok = true.
Lemma visible_space : ∀ c : ascii, implb (in_range 33 126 c) (negb (py_space c)) = true.
Proof. by_chars. Qed.
Lemma visible_ascii : ∀ c : ascii, implb (in_range 33 126 c) (in_range 0 127 c) = true.
Proof. by_chars. Qed.
Lemma strip_token tok : token_text tok → strip tok = tok.
Proof.
  intros [Hne Hv]. destruct (visible_end tok Hne Hv) as (t & c & E & Hc). unfold strip.
  assert (lstrip tok = tok) as ->.
  { destruct tok as [|a s]; [done|]. cbn [all_chars lstrip] in *. apply andb_prop in Hv as [Ha _].
    pose proof (visible_space a) as Q. rewrite Ha in Q. by apply negb_true_iff in Q as ->. }
  rewrite E at 1. rewrite rstrip_end by done. by rewrite E.
Qed.
Lemma token_admitted tok : token_text tok → rest_auth tok (BEARER +:+ tok) = Ok true.
Proof.
  intros Ht. pose proof (strip_token tok Ht) as Hs. destruct Ht as [Hne Hv]. unfold rest_auth, bearer.
  rewrite after_app. cbn [fmap option_fmap option_map]. rewrite Hs, is_empty_false by done. unfold compare_digest.
  assert (Ha : is_ascii tok = true) by (apply (implb_all (in_range 33 126)); [exact visible_ascii|exact Hv]).
  rewrite Ha. cbn [andb]. by rewrite bool_decide_eq_true_2.
Qed.

(** ** Submissions *)

(** What the handler asks of the fields: names, and amounts of at least one *)
Definition sub_fields (s : submission) : list string * option Z :=
  match s with
  | CTransfer w to amount _ => ([w; to], Some amount)
  | CNotarize w h _ | CStore w h _ _ => ([w; h], None)
  | CShare w r _ _ _ => ([w; r], None)
  | CStake w v amount | CDelegate w v amount | CUnstake w v amount => ([w; v], Some amount)
  end.
Definition sub_wallet (s : submission) : string := hd EmptyString (sub_fields s).1.
Definition sub_ok (s : submission) : Prop :=
  Forall (λ x, x ≠ EmptyString) (sub_fields s).1 ∧ match (sub_fields s).2 with Some a => 1 <= a | None => True end.
Definition sub_request (coins : string) (s : submission) : request :=
  match s with
  | CTransfer _ to amount memo => TransferTo to amount memo
  | CNotarize _ h meta => NotarizeDoc h meta
  | CStore _ h cid meta => StoreDoc h cid meta
  | CShare _ r cid pk expires => ShareDoc coins r cid pk expires
  | CStake _ v amount => StakeOn v amount
  | CDelegate _ v amount => DelegateTo v amount
  | CUnstake _ v amount => UnstakeFrom v amount
  end.
Definition sub_handler (s : submission) : RestEnv → Request → Resolved → M App RestResponse :=
  match s with
  | CTransfer _ _ _ _ => h_transfer | CNotarize _ _ _ => h_notarize | CStore _ _ _ _ => h_store | CShare _ _ _ _ _ => h_share
  | CStake _ _ _ => h_staking "qv_stake" | CDelegate _ _ _ => h_staking "qv_delegate" | CUnstake _ _ _ => h_staking "qv_unstake"
  end.
Lemma sub_route tok sub : dget (routes tok) ("POST", sub_path sub) = Some (sub_handler sub).
Proof. by destruct sub. Qed.
Definition run_request (e : RestEnv) (w : string) (r : request) : M App JVal :=
  x ← at_node (handle (ce_now (rv_call e)) w None None r); mret (JObj x).

Lemma need_str_step {A} d k x (m : unit → M App A) : jget d k (JStr EmptyString) = JStr x → x ≠ EmptyString →
  (need_str d k ≫= m) = m tt.
Proof. intros Hj Hx. unfold need_str, nonempty_str. by rewrite Hj, is_empty_false. Qed.
Lemma need_int_step {A} d k x lo r (m : unit → M App A) : jget d k (JInt 0) = JInt x → lo <= x → (need_int d k lo r ≫= m) = m tt.
Proof. intros Hj Hx. unfold need_int. rewrite Hj. unfold guard. by rewrite (proj2 (Z.ltb_ge x lo)). Qed.
Lemma submit_step name e w r d :
  str_arg d "wallet_address" = Ok w → fee_arg d "max_fee_per_weight" = Ok None → fee_arg d "max_priority_fee" = Ok None →
  decode_request (ce_coins (rv_call e)) name d = Ok r → p_submit name (rv_call e) d = run_request e w r.
Proof. intros H1 H2 H3 H4. unfold p_submit. by rewrite H1, H2, H3, H4. Qed.
Lemma allow_str_step {A} d k x (m : unit → M App A) : jget d k (JStr EmptyString) = JStr x → (allow_str d k ≫= m) = m tt.
Proof. intros Hj. unfold allow_str. by rewrite Hj. Qed.
Ltac check_fields := repeat first
  [ erewrite need_str_step; [|reflexivity|eassumption]
  | erewrite need_int_step; [|reflexivity|eassumption]
  | erewrite allow_str_step; [|reflexivity] ].
Lemma sub_handled sub e rq re : json_body rq = Some (JObj (sub_body sub)) → sub_ok sub →
  sub_handler sub e rq re = attempt 201 (run_request e (sub_wallet sub) (sub_request (ce_coins (rv_call e)) sub)).
Proof.
  intros Hb [Hf Ha]. destruct sub; cbn [sub_handler sub_fields sub_body sub_request fst snd] in *;
    apply list.Forall_cons_1 in Hf as [Hw Hf]; apply list.Forall_cons_1 in Hf as [Hv _];
    unfold h_transfer, h_notarize, h_store, h_share, h_staking, posting, with_object; rewrite Hb; f_equal; unfold stake_body in *;
    check_fields; unfold submit_fields; try (apply submit_step; reflexivity).
Qed.
Lemma attempt_text (e : RestEnv) w r reason s : amounts_ok r →
  let out := handle (ce_now (rv_call e)) w None None r (app_node s) in
  ∃ x, attempt 201 (run_request e w r) s = (Ok x, mkApp out.2 (app_hooks s)) ∧
    match read_answer (received reason x) with
    | inl a => inl a
    | inr v => match field "tx_id" (JStr EmptyString) v with Ok b => inr b | Raise e => inl (Crash e) end
    end = sdk_outcome out.1.
Proof.
  intros Ha out. pose proof (handle_text (ce_now (rv_call e)) w None None r Ha (app_node s)) as Ht.
  unfold attempt, run_request, recover, mbind, M_bind, at_node, zoom. subst out.
  destruct (handle _ _ _ _ _ (app_node s)) as [[d|ex] n'] eqn:Eh; cbn [fst snd].
  - eexists. split; [reflexivity|]. rewrite read_ok by (by apply (Ht d n') || lia). reflexivity.
  - eexists. split; [reflexivity|]. destruct (read_failure reason ex) as (a & -> & ->). done.
Qed.
Lemma cors_through srv rq e re s x s' : rq_method rq = "POST" →
  authorized srv e rq re s = (Ok x, s') →
  ∃ hs, with_cors srv rq (authorized srv e rq re) s = (Ok (mkRest (rr_status x) (rr_body x) hs), s').
Proof.
  intros Hm Ha. unfold with_cors. rewrite Hm. cbn [bool_decide]. change (bool_decide ("POST" = "OPTIONS")) with false. cbn iota.
  destruct (is_empty (cors_origins srv)); [exists (rr_headers x); rewrite Ha; by destruct x|].
  eexists. unfold mbind, M_bind. by rewrite Ha.
Qed.
Lemma sub_amounts coins sub : text_ok (JObj (sub_body sub)) = true → amounts_ok (sub_request coins sub).
Proof.
  cbn [text_ok]. intros [_ H]%andb_prop. destruct sub; cbn [sub_body stake_body sub_request amounts_ok forallb snd] in *; try done;
    by repeat (apply andb_prop in H as [? H]).
Qed.
Lemma sub_arrives resolve remote sub base tok : is_empty tok = false → text_ok (JObj (sub_body sub)) = true →
  str_len (print_spaced (JObj (sub_body sub))) <= MAX_RPC_BODY →
  let rq := (arrive resolve remote (ac_sent (c_submit sub) (new_client base tok))).1 in
  let re := (arrive resolve remote (ac_sent (c_submit sub) (new_client base tok))).2 in
  rq_method rq = "POST" ∧ rq_auth rq = BEARER +:+ tok ∧ json_body rq = Some (JObj (sub_body sub)) ∧
  re = (resolve (strip_slashes base +:+ sub_path sub)).2.
Proof.
  intros Ht Hx Hs rq re. subst rq re. unfold c_submit, api_post, arrive, prepare, new_client. cbn [ac_sent base_url client_token se_url se_body se_auth se_method].
  rewrite Ht. cbn [andb negb fmap option_fmap option_map default]. destruct (resolve _) as [path re]. cbn [fst snd rq_method rq_auth].
  split_and!; [done..| |done]. unfold json_body. cbn [rq_body]. rewrite (proj2 (Z.ltb_ge _ _)) by done.
  destruct (loads_text _ EmptyString Hx eq_refl) as [_ R]. by rewrite string_app_nil in R.
Qed.

(** ** Readings *)

(** A public page the server answers with a value reaches the caller as its reading. *)
Lemma sdk_get {A} resolve remote reason srv e now (c : QBitClient) path params (read : JVal → result A) r h v l s :
  let m := ac_sent (api_get path params false read) c in
  let a := arrive resolve remote m in
  (admit_request now a.1 l).1 = true → re_route a.2 = Some r → r ∈ PUBLIC_ROUTES →
  dget (routes (rest_token srv)) ("GET", r) = Some h → h e a.1 a.2 s = (Ok (rest_ok v 200), s) → text_ok v = true →
  perform (wire resolve remote reason srv e now) c (api_get path params false read) (l, s) =
  (match read v with Ok x => inr x | Raise e => inl (Crash e) end, ((admit_request now a.1 l).2, s)).
Proof.
  intros m a Hadmit Hr Hp Hg Hh Hv. unfold perform, wire. fold m. rewrite (surjective_pairing (arrive _ _ _)). fold a.
  assert (Hm : rq_method a.1 = "GET") by (subst a m; unfold arrive; by destruct (resolve _)).
  assert (Hauth : authorized srv e a.1 a.2 s = (Ok (rest_ok v 200), s)).
  { unfold authorized. rewrite Hr, Hm. cbn [mbind option_bind]. rewrite Hg, bool_decide_eq_true_2 by done. rewrite <-Hh. reflexivity. }
  assert (Hc : ∃ hs, with_cors srv a.1 (authorized srv e a.1 a.2) s = (Ok (mkRest 200 (rr_body (rest_ok v 200)) hs), s)).
  { unfold with_cors. rewrite Hm. change (bool_decide ("GET" = "OPTIONS")) with false. cbn iota.
    destruct (is_empty (cors_origins srv)); [exists []; by rewrite Hauth|]. eexists. unfold mbind, M_bind. by rewrite Hauth. }
  destruct Hc as [hs Hc]. unfold rest_serve. cbn [fst snd]. rewrite (surjective_pairing (admit_request now a.1 l)), Hadmit.
  unfold recover. rewrite Hc. cbn iota beta. f_equal.
  change (read_answer (received reason (mkRest 200 (rr_body (rest_ok v 200)) hs))) with (read_answer (received reason (rest_ok v 200))).
  rewrite read_ok by (done || lia). reflexivity.
Qed.
(** The balance the SDK reports is the one of the chain. *)
Lemma sdk_reads_balance resolve remote reason srv e now (c : QBitClient) address l s :
  let a := arrive resolve remote (ac_sent (c_get_balance address) c) in
  (admit_request now a.1 l).1 = true → re_route a.2 = Some "/balance/{addr}" → part a.2 "addr" = address → address ≠ EmptyString →
  text_ok (JInt (get_balance (chain (app_node s)) address)) = true →
  perform (wire resolve remote reason srv e now) c (c_get_balance address) (l, s) =
  (inr (mkSdkBalance (JStr address) (JInt (get_balance (chain (app_node s)) address))
          (JStr (in_tokens (get_balance (chain (app_node s)) address)))), ((admit_request now a.1 l).2, s)).
Proof.
  intros a Hadmit Hr Hp Hne Ht.
  set (v := JObj [("address", JStr address); ("balance", JInt (get_balance (chain (app_node s)) address));
    ("formatted", JStr (in_tokens (get_balance (chain (app_node s)) address)))]).
  refine (sdk_get resolve remote reason srv e now c _ _ _ _ h_get_balance v l s Hadmit Hr _ _ _ _); [|done| |].
  - apply (bool_decide_unpack _). vm_compute. exact I.
  - change (h_get_balance e a.1 a.2 s = (Ok (rest_ok v 200), s)). unfold h_get_balance. rewrite Hp, is_empty_false by done. subst v.
    clear -Hne. unfold attempt, asking, recover, mbind, M_bind, reading, gets, q_get_balance, full_str_arg, str_arg, jget. cbn [dget_or].
    by destruct address.
  - unfold v. cbn [text_ok forallb snd]. cbn [text_ok] in Ht. rewrite Ht.
    by rewrite bool_decide_eq_true_2 by (apply (bool_decide_unpack _); vm_compute; exact I).
Qed.
(** Of a state proof the SDK reads no root: it looks for [state_root], the node
    sends [root]. *)
Lemma sdk_state_proof_rootless (p : StateProof) :
  sp_state_root' <$> (match sdk_state_proof_from_dict (JObj (state_proof_json p)) with Ok x => Some x | Raise _ => None end) =
  Some (JStr EmptyString).
Proof. reflexivity. Qed.
End Laws.

(** ** Properties *)

(** C12: the SDK and the node agree on every submission: when a client that
    holds the server's token calls one of its submitting methods and the rate
    limiter lets the request pass, the node runs its method once, with exactly
    the wallet and the arguments of the caller, nothing else of it changes, and
    the caller gets the identifier the node returned, or for a refusal the
    node's own message as [InsufficientBalance] or [ValidationError], and for
    any other failure [QBitError] 500. *)
Theorem sdk_submission_lands `{C : Crypto} `{Cfg : ChainConfig} `{K : Kem} `{V : WebEnv} `{F : PyFloat}
  (resolve : string → string * Resolved) (remote : string) (reason : Z → string) (cors base tok : string)
  (e : RestEnv) (now : float) (sub : submission) (l : RateLimiter) (s : App)
  (Htok : token_text tok) (Hsub : sub_ok sub)
  (Htext : text_ok (JObj (sub_body sub)) = true) (Hsize : str_len (print_spaced (JObj (sub_body sub))) <= MAX_RPC_BODY)
  (Hroute : re_route (resolve (strip_slashes base +:+ sub_path sub)).2 = Some (sub_path sub)) :
  let c := new_client base tok in
  let srv := mkRestServer tok cors in
  let rq := (arrive resolve remote (ac_sent (c_submit sub) c)).1 in
  let out := handle (ce_now (rv_call e)) (sub_wallet sub) None None (sub_request (ce_coins (rv_call e)) sub) (app_node s) in
  (admit_request now rq l).1 = true →
  perform (wire resolve remote reason srv e now) c (c_submit sub) (l, s) =
  (sdk_outcome out.1, ((admit_request now rq l).2, mkApp out.2 (app_hooks s))).
Proof.
  intros c srv rq out Hadmit. destruct (sub_arrives resolve remote sub base tok (is_empty_false _ (proj1 Htok)) Htext Hsize) as (Hm & Ha & Hb & Hre).
  fold c rq in Hm, Ha, Hb, Hre. unfold perform, wire. fold c. rewrite (surjective_pairing (arrive _ _ _)). fold rq.
  set (re := (arrive resolve remote (ac_sent (c_submit sub) c)).2) in *.
  destruct (attempt_text e (sub_wallet sub) (sub_request (ce_coins (rv_call e)) sub) reason s (sub_amounts _ _ Htext)) as (x & Hx & Hout).
  fold out in Hx, Hout.
  assert (Hauth : authorized srv e rq re s = (Ok x, mkApp out.2 (app_hooks s))).
  { unfold authorized. rewrite Hre, Hroute, Ha, Hm. cbn [rest_token srv mbind option_bind]. rewrite sub_route.
    replace (bool_decide (sub_path sub ∈ PUBLIC_ROUTES)) with false by (by destruct sub).
    rewrite (token_admitted tok Htok). pose proof (f_equal (λ m, m s) (sub_handled sub e rq re Hb Hsub)) as Hh. cbn beta in Hh.
    rewrite <-Hx, <-Hh, Hre. reflexivity. }
  destruct (cors_through srv rq e re s x _ Hm Hauth) as [hs Hc]. unfold rest_serve. cbn [fst snd].
  rewrite (surjective_pairing (admit_request now rq l)), Hadmit. unfold recover. rewrite Hc. cbn iota beta.
  f_equal. rewrite <-Hout. by destruct x.
Qed.

(** ** Witness *)

Module Callers.
#[local] Existing Instance Toy.crypto.
#[local] Existing Instance legacy_config.
#[local] Existing Instance ToyKem.kem.
#[local] Existing Instance ToyWeb.env.
#[local] Existing Instance WsRuns.float_text.
(** Static paths, under a base address *)
Definition base : string := "http://node/api/v1/".
Definition resolve (url : string) : string * Resolved :=
  let path := str_drop (String.length base - 1) url in (path, Sessions.at_route path).
Definition reason (status : Z) : string := if status =? 400 then "Bad Request" else "Created".
(** A node with a wallet, and a document to notarize *)
Definition owner : App := mkApp (rpc_new_wallet ("k", "k") ("e", "pe") (fresh_node Run.genesis)).2 new_manager.
Definition sub : submission := CNotarize Sample.addr "ab" EmptyString.
Definition done_by : (sdk_error + JVal) * (RateLimiter * App) :=
  perform (wire resolve "203.0.113.5" reason (mkRestServer "secret" "*") Sessions.env (float_of_Z 1)) (new_client base "secret")
    (c_submit sub) (Clients.limiter, owner).
End Callers.
#[local] Existing Instance Toy.crypto.
#[local] Existing Instance legacy_config.
#[local] Existing Instance ToyKem.kem.
#[local] Existing Instance ToyWeb.env.
#[local] Existing Instance WsRuns.float_text.

Lemma sdk_submission_lands_witness :
  Callers.done_by.1 = inr (JStr (tx_id (Sample.tx 0))) ∧
  perform (wire Callers.resolve "203.0.113.5" Callers.reason (mkRestServer "secret" "*") Sessions.env (float_of_Z 1))
    (new_client Callers.base "secret") (c_submit Callers.sub) (Clients.limiter, Callers.owner) =
  (sdk_outcome (handle 1000 Sample.addr None None (NotarizeDoc "ab" EmptyString) (app_node Callers.owner)).1,
    ((admit_request (float_of_Z 1) (arrive Callers.resolve "203.0.113.5" (ac_sent (c_submit Callers.sub) (new_client Callers.base "secret"))).1
        Clients.limiter).2,
     mkApp (handle 1000 Sample.addr None None (NotarizeDoc "ab" EmptyString) (app_node Callers.owner)).2 (app_hooks Callers.owner))).
Proof.
  split; [vm_compute; reflexivity|].
  assert (Htok : token_text "secret") by (split; [discriminate|vm_compute; reflexivity]).
  assert (Hsub : sub_ok Callers.sub) by (split; [repeat constructor; discriminate|exact I]).
  assert (Hsize : str_len (print_spaced (JObj (sub_body Callers.sub))) <= MAX_RPC_BODY) by (vm_compute; discriminate).
  exact (sdk_submission_lands Callers.resolve "203.0.113.5" Callers.reason "*" Callers.base "secret" Sessions.env (float_of_Z 1)
    Callers.sub Clients.limiter Callers.owner Htok Hsub eq_refl Hsize eq_refl eq_refl).
Defined.
