(* ===== verification/SdkSocket.v ===== *)
(** * The websocket of the SDK

    [sdk/qbit_sdk/websocket.py]: the upgrade request, the frames and their
    masks, subscriptions, and the loop that hands events to callbacks.  The
    parts of the URL and the random bytes are arguments, as is the decoding of
    UTF-8; a [ConnectionError] is [None].  Callbacks are numbers, their calls are
    logged; an exception of one of them is swallowed by the code, and they do not
    call the client back.  The failure of an answer to a ping is [RuntimeError]. *)
From Stdlib Require Import Floats.SpecFloat.
From S2P Require Import Prelude PyStr Json JsonText Limits WebSocket.
Open Scope Z_scope.

(** ** The upgrade *)

Definition CRLF : string := String (chr 13) (String (chr 10) EmptyString).
Definition handshake (host path ws_key : string) (port : Z) : string :=
  "GET " +:+ path +:+ " HTTP/1.1" +:+ CRLF +:+ "Host: " +:+ host +:+ ":" +:+ str_of_Z port +:+ CRLF +:+
  "Upgrade: websocket" +:+ CRLF +:+ "Connection: Upgrade" +:+ CRLF +:+ "Sec-WebSocket-Key: " +:+ ws_key +:+ CRLF +:+
  "Sec-WebSocket-Version: 13" +:+ CRLF +:+ CRLF.
(** The chunks of the answer are read until they hold the end of a head; what
    the last chunk holds after it is dropped.  [None] when the stream ends. *)
Fixpoint read_head (response : string) (chunks : list string) : option (string * list string) :=
  if contains (CRLF +:+ CRLF) response then Some (response, chunks)
  else match chunks with
       | [] => None
       | chunk :: rest => if is_empty chunk then None else read_head (response +:+ chunk) rest
       end.
Definition first_line (response : string) : string :=
  match String.index 0 CRLF response with Some n => str_take n response | None => response end.
(** What is left of the stream after an upgrade *)
Definition connect (chunks : list string) : option (list string) :=
  r ← read_head EmptyString chunks;
  if contains "101" (first_line r.1) then Some r.2 else None.

(** ** Frames *)

(** [b ^ mask[i % 4]] of every byte *)
Definition xor_char (a b : ascii) : ascii := chr (Nat.lxor (ord a) (ord b)).
Fixpoint xor_mask (mask : string) (i : nat) (s : string) : string :=
  match s with
  | EmptyString => EmptyString
  | String c s' => String (xor_char c (default "000"%char (String.get (i mod 4) mask))) (xor_mask mask (S i) s')
  end.
Definition byte (z : Z) : string := String (chr (Z.to_nat z)) EmptyString.
(** [_send_frame], the bytes written *)
Definition send_frame (mask payload : string) (opcode : Z) : string :=
  let length := str_len payload in
  byte (Z.lor 128 opcode) +:+
  (if length <? 126 then byte (Z.lor 128 length)
   else if length <? 65536 then byte (Z.lor 128 126) +:+ be_bytes 2 length
   else byte (Z.lor 128 127) +:+ be_bytes 8 length) +:+
  mask +:+ xor_mask mask 0 payload.
(** [_recv_exact], with what is left *)
Definition recv_exact (n : Z) (stream : string) : option (string * string) :=
  if n <=? str_len stream then Some (str_take (Z.to_nat n) stream, str_drop (Z.to_nat n) stream) else None.
Definition byte_at (n : nat) (s : string) : Z := match String.get n s with Some c => Z.of_nat (ord c) | None => 0 end.
(** [_recv_frame] *)
Definition recv_frame (stream : string) : option (Z * string * string) :=
  h ← recv_exact 2 stream;
  let '(header, stream) := (h : string * string) in
  let opcode := Z.land (byte_at 0 header) 15 in
  let masked := negb (Z.land (byte_at 1 header) 128 =? 0) in
  let length := Z.land (byte_at 1 header) 127 in
  l ← (if length =? 126 then b ← recv_exact 2 stream; Some (from_bytes (b : string * string).1, b.2)
       else if length =? 127 then b ← recv_exact 8 stream; Some (from_bytes (b : string * string).1, b.2)
       else Some (length, stream));
  let '(length, stream) := (l : Z * string) in
  if masked then
    m ← recv_exact 4 stream; d ← recv_exact length (m : string * string).2;
    Some (opcode, xor_mask m.1 0 (d : string * string).1, d.2)
  else d ← recv_exact length stream; Some (opcode, (d : string * string).1, d.2).

(** ** Subscriptions and events *)

Record QBitWebSocket := mkSocket {
  sock : bool; callbacks : dict string (list nat); running : bool; written : list string; calls : list (nat * JVal) }.
Definition write (frame : string) (s : QBitWebSocket) : QBitWebSocket :=
  mkSocket (sock s) (callbacks s) (running s) (written s ++ [frame]) (calls s).
Definition with_callbacks (f : dict string (list nat) → dict string (list nat)) (s : QBitWebSocket) : QBitWebSocket :=
  mkSocket (sock s) (f (callbacks s)) (running s) (written s) (calls s).
(** [_send_json]; false when there is no connection *)
Definition send_json (mask : string) (data : JVal) (s : QBitWebSocket) : bool * QBitWebSocket :=
  if sock s then (true, write (send_frame mask (print_spaced data) 1) s) else (false, s).
Definition ws_request (kind channel : string) : JVal := JObj [("type", JStr kind); ("channel", JStr channel)].
Definition subscribe (mask channel : string) (callback : nat) (s : QBitWebSocket) : bool * QBitWebSocket :=
  send_json mask (ws_request "subscribe" channel) (with_callbacks (λ d, dset d channel (dget_or d channel [] ++ [callback])) s).
Definition unsubscribe (mask channel : string) (s : QBitWebSocket) : bool * QBitWebSocket :=
  send_json mask (ws_request "unsubscribe" channel) (with_callbacks (λ d, dpop d channel) s).
Definition close (s : QBitWebSocket) : QBitWebSocket := mkSocket false (callbacks s) false (written s) (calls s).
Definition stops_running (s : QBitWebSocket) : QBitWebSocket := mkSocket (sock s) (callbacks s) false (written s) (calls s).
Definition log_calls (l : list (nat * JVal)) (s : QBitWebSocket) : QBitWebSocket :=
  mkSocket (sock s) (callbacks s) (running s) (written s) (calls s ++ l).

Section Loop.
Context `{F : PyFloat} (decode : string → option string).
(** A text frame: the callbacks of the channel of an event.  A channel that
    cannot be a key ends the loop with [TypeError]. *)
Definition on_payload (payload : string) (s : QBitWebSocket) : result QBitWebSocket :=
  match (text ← decode payload; loads text) with
  | Some (JObj d) =>
      if bool_decide (jget d "type" JNull = JStr "event") then
        match jget d "channel" (JStr EmptyString) with
        | JStr ch => Ok (log_calls ((λ cb, (cb, jget d "data" (JObj []))) <$> dget_or (callbacks s) ch []) s)
        | JList _ | JObj _ => Raise TypeError
        | _ => Ok s
        end
      else Ok s
  | _ => Ok s
  end.
(** A frame in [run_forever]: whether the loop goes on *)
Definition on_frame (mask : string) (opcode : Z) (payload : string) (s : QBitWebSocket) : result (bool * QBitWebSocket) :=
  if opcode =? 8 then Ok (false, s)
  else if opcode =? 9 then if sock s then Ok (true, write (send_frame mask payload 10) s) else Raise RuntimeError
  else if opcode =? 1 then s ← on_payload payload s; Ok (true, s)
  else Ok (true, s).
(** [run_forever] over the frames that arrive, with the masks drawn for the
    answers; the end of the stream ends the loop. *)
Fixpoint run_loop (fuel : nat) (masks : nat → string) (stream : string) (s : QBitWebSocket) : result QBitWebSocket :=
  match fuel with
  | O => Ok s
  | S fuel =>
      if negb (running s) then Ok s
      else match recv_frame stream with
           | None => Ok s
           | Some (opcode, payload, rest) =>
               match on_frame (masks fuel) opcode payload s with
               | Ok (true, s) => run_loop fuel masks rest s
               | Ok (false, s) => Ok s
               | Raise e => Raise e
               end
           end
  end.
Definition run_forever (masks : nat → string) (stream : string) (s : QBitWebSocket) : result QBitWebSocket :=
  s ← run_loop (S (String.length stream)) masks stream (mkSocket (sock s) (callbacks s) true (written s) (calls s));
  Ok (stops_running s).
End Loop.

(** ** Lemmas *)

Lemma xor_char_twice : ∀ a b : ascii, xor_char (xor_char a b) b = a.
Proof.
  intros a b. unfold xor_char, ord, chr.
  assert (Hlt : (Nat.lxor (nat_of_ascii a) (nat_of_ascii b) < 256)%nat).
  { destruct (decide (Nat.lxor (nat_of_ascii a) (nat_of_ascii b) = 0)%nat) as [->|Hne]; [lia|].
    apply (Nat.log2_lt_pow2 _ 8); [lia|]. pose proof (Nat.log2_lxor (nat_of_ascii a) (nat_of_ascii b)).
    pose proof (nat_ascii_bounded a). pose proof (nat_ascii_bounded b).
    assert (∀ n, (n < 256)%nat → (Nat.log2 n < 8)%nat) as Hl.
    { intros [|n] Hn; [cbn; lia|]. apply Nat.log2_lt_pow2; [lia|exact Hn]. }
    pose proof (Hl (nat_of_ascii a)). pose proof (Hl (nat_of_ascii b)). lia. }
  rewrite nat_ascii_embedding by done. rewrite Nat.lxor_assoc, Nat.lxor_nilpotent, Nat.lxor_0_r. apply ascii_nat_embedding.
Qed.
Lemma xor_mask_twice mask i s : xor_mask mask i (xor_mask mask i s) = s.
Proof. revert i. induction s as [|c s IH]; intros i; [done|]. cbn [xor_mask]. by rewrite xor_char_twice, IH. Qed.
Lemma xor_mask_length mask i s : String.length (xor_mask mask i s) = String.length s.
Proof. revert i. induction s as [|c s IH]; intros i; [done|]. cbn [xor_mask String.length]. by rewrite IH. Qed.

Lemma recv_app s t n : str_len s = n → recv_exact n (s +:+ t) = Some (s, t).
Proof.
  intros <-. unfold recv_exact. rewrite str_len_app, (proj2 (Z.leb_le _ _)) by (unfold str_len; lia).
  unfold str_len. by rewrite Nat2Z.id, str_take_app, str_drop_app.
Qed.
Lemma byte_value z : 0 <= z < 256 → byte_at 0 (byte z) = z.
Proof. intros Hz. unfold byte_at, byte, chr, ord. cbn. rewrite nat_ascii_embedding; lia. Qed.
(** The two bytes of a header *)
Lemma header_bytes a b t : 0 <= a < 256 → 0 <= b < 256 →
  recv_exact 2 (byte a +:+ byte b +:+ t) = Some (byte a +:+ byte b, t) ∧
  byte_at 0 (byte a +:+ byte b) = a ∧ byte_at 1 (byte a +:+ byte b) = b.
Proof.
  intros Ha Hb. split; [rewrite <-string_app_assoc; by apply recv_app|]. split; [by apply (byte_value a)|].
  change (byte_at 1 (byte a +:+ byte b)) with (byte_at 0 (byte b)). by apply byte_value.
Qed.
(** The high bit over a value below it *)
Definition high_bit_ok (n : nat) : bool :=
  let z := Z.of_nat n in
  (0 <=? Z.lor 128 z) && (Z.lor 128 z <? 256) && (Z.land (Z.lor 128 z) 127 =? z) && negb (Z.land (Z.lor 128 z) 128 =? 0) &&
  ((16 <=? n)%nat || (Z.land (Z.lor 128 z) 15 =? z)).
Lemma high_bits : forallb high_bit_ok (seq 0 128) = true.
Proof. vm_compute. reflexivity. Qed.
Lemma high_bit z : 0 <= z < 128 →
  0 <= Z.lor 128 z < 256 ∧ Z.land (Z.lor 128 z) 127 = z ∧ (Z.land (Z.lor 128 z) 128 =? 0) = false ∧
  (z < 16 → Z.land (Z.lor 128 z) 15 = z).
Proof.
  intros Hz. pose proof high_bits as H. rewrite forallb_forall in H. specialize (H (Z.to_nat z)).
  unfold high_bit_ok in H. rewrite Z2Nat.id in H by lia.
  assert (Hin : In (Z.to_nat z) (seq 0 128)) by (apply in_seq; lia). specialize (H Hin).
  rewrite !andb_true_iff, orb_true_iff, Z.leb_le, Z.ltb_lt, !Z.eqb_eq, negb_true_iff, Nat.leb_le in H.
  destruct H as [[[[H1 H2] H3] H4] H5]. split_and!; [done..|]. intros Hs. destruct H5; [lia|done].
Qed.
(** A frame with a header, the length that follows it, a mask and a payload *)
Lemma recv_masked opcode l ext mask data rest : 0 <= opcode < 16 → 0 <= l < 128 → str_len mask = 4 →
  (if l =? 126 then str_len ext = 2 ∧ from_bytes ext = str_len data
   else if l =? 127 then str_len ext = 8 ∧ from_bytes ext = str_len data
   else ext = EmptyString ∧ l = str_len data) →
  recv_frame (byte (Z.lor 128 opcode) +:+ byte (Z.lor 128 l) +:+ ext +:+ mask +:+ data +:+ rest) = Some (opcode, xor_mask mask 0 data, rest).
Proof.
  intros Ho Hl Hm Hx. destruct (high_bit opcode) as (O1 & _ & _ & O2); [lia|]. destruct (high_bit l Hl) as (L1 & L2 & L3 & _).
  unfold recv_frame. destruct (header_bytes _ _ (ext +:+ mask +:+ data +:+ rest) O1 L1) as (E1 & E2 & E3). rewrite E1. cbn [mbind option_bind].
  rewrite E2, E3, L2, L3, O2 by lia. cbn [negb].
  assert (He : (if l =? 126 then b ← recv_exact 2 (ext +:+ mask +:+ data +:+ rest); Some (from_bytes (b : string * string).1, b.2)
    else if l =? 127 then b ← recv_exact 8 (ext +:+ mask +:+ data +:+ rest); Some (from_bytes (b : string * string).1, b.2)
    else Some (l, ext +:+ mask +:+ data +:+ rest)) = Some (str_len data, mask +:+ data +:+ rest)).
  { destruct (l =? 126); [destruct Hx as [H1 H2]; rewrite recv_app by done; cbn [mbind option_bind fst snd]; by rewrite H2|].
    destruct (l =? 127); [destruct Hx as [H1 H2]; rewrite recv_app by done; cbn [mbind option_bind fst snd]; by rewrite H2|]. by destruct Hx as [-> ->]. }
  rewrite He. cbn [mbind option_bind]. rewrite recv_app by done. cbn [mbind option_bind fst snd]. by rewrite recv_app.
Qed.
Lemma send_recv mask payload opcode rest : 0 <= opcode < 16 → str_len mask = 4 → str_len payload < 2 ^ 64 →
  recv_frame (send_frame mask payload opcode +:+ rest) = Some (opcode, payload, rest).
Proof.
  intros Ho Hm Hs. assert (Hlen : str_len (xor_mask mask 0 payload) = str_len payload) by (unfold str_len; by rewrite xor_mask_length).
  assert (H0 : 0 <= str_len payload) by (unfold str_len; lia). unfold send_frame.
  rewrite <-Hlen in *. pose proof (xor_mask_twice mask 0 payload) as Hp. set (data := xor_mask mask 0 payload) in *. clearbody data.
  transitivity (Some (opcode, xor_mask mask 0 data, rest)); [|by rewrite Hp].
  destruct (Z.ltb_spec (str_len data) 126); [|destruct (Z.ltb_spec (str_len data) 65536)]; rewrite !string_app_assoc.
  - apply (recv_masked opcode (str_len data) EmptyString); [done|lia|done|].
    destruct (Z.eqb_spec (str_len data) 126); [lia|]. destruct (Z.eqb_spec (str_len data) 127); [lia|]. done.
  - apply (recv_masked opcode 126 (be_bytes 2 (str_len data))); [done|lia|done|]. cbn [Z.eqb Pos.eqb].
    unfold str_len at 1. rewrite be_bytes_length, from_be_bytes; [done|]. split; [lia|]. change (256 ^ Z.of_nat 2) with 65536. lia.
  - apply (recv_masked opcode 127 (be_bytes 8 (str_len data))); [done|lia|done|]. cbn [Z.eqb Pos.eqb].
    unfold str_len at 1. rewrite be_bytes_length, from_be_bytes; [done|]. split; [lia|]. change (256 ^ Z.of_nat 8) with (2 ^ 64). lia.
Qed.

(** ** Properties *)

Section Served.
Context `{F : PyFloat}.
Lemma spaced_text v : text_ok v = true → loads (print_spaced v) = Some v.
Proof. intros Hv. destruct (loads_text v EmptyString Hv eq_refl) as [_ R]. by rewrite string_app_nil in R. Qed.
Lemma request_text kind ch : text_ok (ws_request kind ch) = true.
Proof. cbn. by rewrite bool_decide_eq_true_2 by (apply (bool_decide_unpack _); vm_compute; exact I). Qed.
Lemma event_text ch data : text_ok (JObj data) = true → text_ok (ws_event ch data) = true.
Proof.
  intros Hd. unfold ws_event. cbn [text_ok forallb snd] in *. rewrite Hd.
  by rewrite bool_decide_eq_true_2 by (apply (bool_decide_unpack _); vm_compute; exact I).
Qed.
(** The server takes the request of a socket without subscriptions. *)
Lemma server_subscribes now ws ch m : ch ∈ VALID_CHANNELS → channels_of m ws = ∅ → (check_rate now ws m).1 = true →
  ∃ m', on_text now ws (print_spaced (ws_request "subscribe" ch)) m = (ws_ack "subscribed" ch, m') ∧
    ∀ c, ws ∈ subs m' c ↔ ws ∈ subs m c ∨ c = ch.
Proof.
  intros Hch Hfew Hrate. unfold on_text. destruct (check_rate now ws m) as [ok m1] eqn:Er. cbn [fst] in Hrate. subst ok. cbn [negb].
  rewrite (spaced_text _ (request_text "subscribe" ch)). unfold ws_request.
  change (jget [("type", JStr "subscribe"); ("channel", JStr ch)] "type" JNull) with (JStr "subscribe"). cbv iota beta.
  rewrite decide_False, decide_True by done. unfold on_channel_field.
  change (jget [("type", JStr "subscribe"); ("channel", JStr ch)] "channel" JNull) with (JStr ch). cbv iota beta.
  assert (Hm1 : channels_of m1 ws = ∅ ∧ subscribers m1 = subscribers m) by (unfold check_rate in Er; injection Er as _ <-; by split).
  destruct Hm1 as [Hc1 Hs1]. unfold add_subscriber. rewrite bool_decide_eq_true_2 by done. cbn [negb].
  rewrite Hc1, (bool_decide_eq_false_2 (ch ∈ ∅)) by set_solver. rewrite size_empty.
  eexists. split; [reflexivity|]. intros c. unfold subs, on_channel. cbn [set set_subscribers set_client_channels subscribers].
  unfold dget_or. rewrite dget_dset, Hs1. case_decide as E; [subst c|]; [set_solver|]. split; [by left|]. by intros [?| ->].
Qed.
End Served.
(** C30: a frame of the SDK's websocket is read back as it was: for any payload
    below 2^64 bytes, any of the 16 opcodes and any mask of four bytes, the
    frame written by [_send_frame], in each of the three encodings of the
    length, is read by [_recv_frame] as the opcode and the payload, and the
    stream behind it is untouched. *)
Theorem ws_frame_roundtrip (mask payload rest : string) (opcode : Z)
  (Hop : 0 <= opcode < 16) (Hmask : str_len mask = 4) (Hsize : str_len payload < 2 ^ 64) :
  recv_frame (send_frame mask payload opcode +:+ rest) = Some (opcode, payload, rest).
Proof. by apply send_recv. Qed.

(** A subscription of the SDK works through to its callbacks: the frame
    [subscribe] writes, read off the wire and given to the server's handler,
    makes the socket a subscriber of the channel and of no other, answered by
    [subscribed]; and an event that the server broadcasts on a channel calls
    exactly the callbacks of that channel, in their order, with the data that
    was broadcast. *)
Theorem ws_subscription_served `{F : PyFloat} (decode : string → option string) (mask ch : string) (cb : nat)
  (s : QBitWebSocket) (now : float) (ws : Z) (m : WebSocketManager)
  (Hdecode : ∀ t, all_chars printable t = true → decode t = Some t)
  (Hsock : sock s = true) (Hmask : str_len mask = 4) (Hsize : str_len (print_spaced (ws_request "subscribe" ch)) < 2 ^ 64)
  (Hch : ch ∈ VALID_CHANNELS) (Hfew : channels_of m ws = ∅) (Hrate : (check_rate now ws m).1 = true) :
  ∃ frame text s' m', subscribe mask ch cb s = (true, s') ∧ written s' = written s ++ [frame] ∧
    recv_frame frame = Some (1, text, EmptyString) ∧ on_text now ws text m = (ws_ack "subscribed" ch, m') ∧
    (∀ c, ws ∈ subs m' c ↔ ws ∈ subs m c ∨ c = ch) ∧
    ∀ c data, text_ok (JObj data) = true → ∃ s'',
      on_payload decode (print_spaced (ws_event c data)) s' = Ok s'' ∧
      calls s'' = calls s ++ ((λ k, (k, JObj data)) <$> dget_or (callbacks s) c [] ++ if decide (c = ch) then [cb] else []).
Proof.
  set (text := print_spaced (ws_request "subscribe" ch)) in *.
  destruct (server_subscribes now ws ch m Hch Hfew Hrate) as (m' & Ht & Hsubs). fold text in Ht.
  exists (send_frame mask text 1), text. unfold subscribe, send_json. cbn [with_callbacks sock]. rewrite Hsock.
  eexists _, m'. split_and!; [reflexivity|reflexivity| |exact Ht|exact Hsubs|].
  - rewrite <-(string_app_nil (send_frame mask text 1)). by apply send_recv.
  - intros c data Hd. pose proof (event_text c data Hd) as He. unfold on_payload.
    rewrite Hdecode by (by apply print_sep_printable). cbn [mbind option_bind]. rewrite (spaced_text _ He).
    eexists. split; [reflexivity|]. cbn [log_calls write with_callbacks calls callbacks].
    change (jget _ "data" _) with (JObj data). f_equal. f_equal. unfold dget_or. rewrite dget_dset.
    destruct (decide (c = ch)) as [->|]; [done|]. by rewrite app_nil_r.
Qed.

(** The SDK sends no token with its upgrade, and a server that has one, as
    [RPCServer] always has, refuses it. *)
Lemma sdk_socket_refused tok m : tok ≠ EmptyString → admit_ws tok EmptyString m = Some 401.
Proof. intros Hne. unfold admit_ws, check_ws_auth. by destruct tok. Qed.
(** Frames that come with the answer to the upgrade are lost. *)
Lemma first_events_lost frame : contains (CRLF +:+ CRLF) (("HTTP/1.1 101 Switching Protocols" +:+ CRLF +:+ CRLF) +:+ frame) = true →
  contains "101" (first_line (("HTTP/1.1 101 Switching Protocols" +:+ CRLF +:+ CRLF) +:+ frame)) = true →
  connect [("HTTP/1.1 101 Switching Protocols" +:+ CRLF +:+ CRLF) +:+ frame] = Some [].
Proof.
  intros H1 H2. unfold connect. cbn [read_head]. change (contains (CRLF +:+ CRLF) EmptyString) with false. cbn iota.
  change (is_empty (("HTTP/1.1 101 Switching Protocols" +:+ CRLF +:+ CRLF) +:+ frame)) with false. cbn iota.
  rewrite string_app_nil_l, H1. cbn [mbind option_bind fst snd]. by rewrite H2.
Qed.

(** ** Witnesses *)

#[local] Existing Instance WsRuns.float_text.
Lemma ws_frame_roundtrip_witness :
  send_frame "mask" "ping" 1 = String (chr 129) (String (chr 132) ("mask" +:+ String (chr 29) (String (chr 8) (String (chr 29) (String (chr 12) EmptyString))))) ∧
  recv_frame (send_frame "mask" "ping" 1 +:+ "next") = Some (1, "ping", "next").
Proof.
  split; [vm_compute; reflexivity|].
  exact (ws_frame_roundtrip "mask" "ping" "next" 1 ltac:(lia) eq_refl eq_refl).
Defined.
Lemma ws_subscription_served_witness : ∃ s' m',
  subscribe "mask" "new_block" 7 (mkSocket true [] false [] []) = (true, s') ∧ 5 ∈ subs m' "new_block" ∧
  ∃ s'', on_payload (λ t, Some t) (print_spaced (ws_event "new_block" [("index", JInt 3)])) s' = Ok s'' ∧
    calls s'' = [(7%nat, JObj [("index", JInt 3)])].
Proof.
  assert (Hch : "new_block" ∈ VALID_CHANNELS) by (apply (bool_decide_unpack _); vm_compute; exact I).
  assert (Hsize : str_len (print_spaced (ws_request "subscribe" "new_block")) < 2 ^ 64) by (vm_compute; reflexivity).
  destruct (ws_subscription_served (λ t, Some t) "mask" "new_block" 7 (mkSocket true [] false [] []) (float_of_Z 1) 5 new_ws
    (λ t _, eq_refl) eq_refl eq_refl Hsize Hch eq_refl eq_refl) as (frame & text & s' & m' & H1 & _ & _ & _ & H2 & H3).
  exists s', m'. split; [exact H1|]. split; [exact (proj2 (H2 "new_block") (or_intror eq_refl))|].
  exact (H3 "new_block" [("index", JInt 3)] eq_refl).
Defined.
