(* ===== verification/Tls.v ===== *)
(** * TLS certificates

    [network/tls_manager.py]: when a certificate is made, renewed and loaded
    again.  Certificates and keys are texts in two files with their times of
    modification; making them and reading the date of expiry belong to the
    package [cryptography], loading a pair to [ssl], all three parameters with
    their documented behaviour.  Times are in microseconds. *)
From S2P Require Import Prelude PyStr Json.
Open Scope Z_scope.

(** ** Parameters *)

Class TlsEnv := {
  (** a new pair for a host name, from a time on, for some days *)
  new_pair : string → Z → Z → string * string;
  not_valid_after : string → option Z;
  load_cert_chain : string → string → bool }.
Definition SECOND : Z := 1000000.
Definition DAY : Z := 86400 * SECOND.
(** The end of the year 9999, the last date there is *)
Definition MAX_DATE : Z := 253402300800 * SECOND.
(** A new certificate expires after its days, in whole seconds, and loads with
    its key. *)
Class TlsLaws `{E : TlsEnv} := {
  issued_expiry host now days : 0 <= now → 1 <= days → now + days * DAY < MAX_DATE →
    not_valid_after (new_pair host now days).1 = Some (now / SECOND * SECOND + days * DAY);
  issued_loads host now days : load_cert_chain (new_pair host now days).1 (new_pair host now days).2 = true }.

(** ** State *)

Record TlsFile := mkTlsFile { tf_text : string; tf_mtime : Z }.
Record TLSManager := mkTls {
  tls_hostname : string; validity_days : Z; renewal_threshold_days : Z;
  cert_file : option TlsFile; key_file : option TlsFile;
  cert_mtime : Z; key_mtime : Z; ssl_context : option (string * string) }.
#[export] Instance set_cert_file : Setter cert_file := λ f x, mkTls (tls_hostname x) (validity_days x) (renewal_threshold_days x)
  (f (cert_file x)) (key_file x) (cert_mtime x) (key_mtime x) (ssl_context x).
#[export] Instance set_key_file : Setter key_file := λ f x, mkTls (tls_hostname x) (validity_days x) (renewal_threshold_days x)
  (cert_file x) (f (key_file x)) (cert_mtime x) (key_mtime x) (ssl_context x).
Definition with_context (ctx : string * string) (x : TLSManager) : TLSManager :=
  mkTls (tls_hostname x) (validity_days x) (renewal_threshold_days x) (cert_file x) (key_file x) (cert_mtime x) (key_mtime x) (Some ctx).
Definition with_mtimes (c k : Z) (x : TLSManager) : TLSManager :=
  mkTls (tls_hostname x) (validity_days x) (renewal_threshold_days x) (cert_file x) (key_file x) c k (ssl_context x).
(** [__init__], on the files it finds *)
Definition new_tls (hostname : string) (validity threshold : Z) (cert key : option TlsFile) : result TLSManager :=
  if is_empty hostname then Raise TypeError
  else guard (validity <? 1) "validity_days must be a positive integer" (
       guard (threshold <? 0) "renewal_threshold_days must be a non-negative integer" (
       Ok (mkTls hostname validity threshold cert key 0 0 None))).

Section Tls.
Context `{E : TlsEnv}.

(** ** Operations *)

Definition get_cert_expiry (m : TLSManager) : option Z := f ← cert_file m; not_valid_after (tf_text f).
(** [delta.days] rounds down. *)
Definition days_until_expiry (now : Z) (m : TLSManager) : option Z := (λ e, (e - now) / DAY) <$> get_cert_expiry m.
Definition cert_needs_renewal (now : Z) (m : TLSManager) : bool :=
  match cert_file m, key_file m with
  | Some _, Some _ =>
      match days_until_expiry now m with
      | None => true
      | Some days => (days <? 0) || (days <=? renewal_threshold_days m)
      end
  | _, _ => true
  end.
(** [_generate_self_signed]: the certificate is written, then the key *)
Definition write_cert (now : Z) (m : TLSManager) : TLSManager :=
  m <| cert_file := Some (mkTlsFile (new_pair (tls_hostname m) now (validity_days m)).1 now) |>.
Definition write_key (now : Z) (m : TLSManager) : TLSManager :=
  m <| key_file := Some (mkTlsFile (new_pair (tls_hostname m) now (validity_days m)).2 now) |>.
Definition generate_self_signed (now : Z) (m : TLSManager) : TLSManager := write_key now (write_cert now m).
Definition ensure_certificate (now : Z) (m : TLSManager) : TLSManager :=
  if cert_needs_renewal now m then generate_self_signed now m else m.
Definition update_mtimes (m : TLSManager) : TLSManager :=
  match cert_file m, key_file m with
  | Some c, Some k => with_mtimes (tf_mtime c) (tf_mtime k) m
  | _, _ => with_mtimes 0 0 m
  end.
(** [reload_ssl_context]; a pair that does not load raises. *)
Definition reload_ssl_context (m : TLSManager) : result TLSManager :=
  match cert_file m, key_file m with
  | Some c, Some k => if load_cert_chain (tf_text c) (tf_text k)
                      then Ok (update_mtimes (with_context (tf_text c, tf_text k) m)) else Raise RuntimeError
  | _, _ => Raise RuntimeError
  end.
Definition get_ssl_context (m : TLSManager) : result TLSManager :=
  match ssl_context m with Some _ => Ok m | None => reload_ssl_context m end.
Definition check_and_renew (now : Z) (m : TLSManager) : result (bool * TLSManager) :=
  if cert_needs_renewal now m then m ← reload_ssl_context (generate_self_signed now m); Ok (true, m) else Ok (false, m).
Definition cert_files_changed (m : TLSManager) : bool :=
  match cert_file m, key_file m with
  | Some c, Some k => negb (tf_mtime c =? cert_mtime m) || negb (tf_mtime k =? key_mtime m)
  | _, _ => false
  end.
(** A turn of [_watch_loop]: the approaching expiry is logged only. *)
Definition watch_turn (m : TLSManager) : result TLSManager := if cert_files_changed m then reload_ssl_context m else Ok m.
Fixpoint watch (turns : nat) (m : TLSManager) : result TLSManager :=
  match turns with O => Ok m | S turns => m ← watch_turn m; watch turns m end.
(** The start of a server with [--tls-auto] *)
Definition start_auto (now : Z) (m : TLSManager) : result TLSManager := get_ssl_context (ensure_certificate now m).

(** ** Lemmas *)

(** After a start: a pair that is loaded as it is in the files *)
Record served (m : TLSManager) : Prop := mkServed {
  sv_loaded : ∃ c k, cert_file m = Some c ∧ key_file m = Some k ∧ ssl_context m = Some (tf_text c, tf_text k) ∧
    load_cert_chain (tf_text c) (tf_text k) = true;
  sv_mtimes : cert_files_changed m = false }.
Lemma reload_served m m' : reload_ssl_context m = Ok m' → served m' ∧ cert_file m' = cert_file m ∧ key_file m' = key_file m.
Proof.
  unfold reload_ssl_context. destruct (cert_file m) as [c|] eqn:Ec; [|done]. destruct (key_file m) as [k|] eqn:Ek; [|done].
  destruct (load_cert_chain _ _) eqn:El; [|done]. intros [= <-]. unfold update_mtimes. cbn. rewrite Ec, Ek. cbn. split; [|by rewrite Ec, Ek].
  split; [exists c, k; cbn; by rewrite Ec, Ek|]. unfold cert_files_changed. cbn. rewrite Ec, Ek, !Z.eqb_refl. done.
Qed.
Lemma served_watched n m : served m → watch n m = Ok m.
Proof. intros [_ Hm]. induction n as [|n IH]; [done|]. cbn [watch]. unfold watch_turn. by rewrite Hm. Qed.

Context `{!TlsLaws}.
Lemma generated_days now t m : 0 <= now → 1 <= validity_days m → now + validity_days m * DAY < MAX_DATE →
  days_until_expiry t (generate_self_signed now m) = Some ((now / SECOND * SECOND + validity_days m * DAY - t) / DAY).
Proof.
  intros Hn Hv Hd. unfold days_until_expiry, get_cert_expiry.
  cbn [generate_self_signed write_key write_cert cert_file set set_cert_file set_key_file mbind option_bind tf_text].
  by rewrite issued_expiry.
Qed.
End Tls.

(** ** Properties *)

(** What [--tls-auto] starts with is fresh: the start never fails when
    there is nothing to load yet or the files need renewal; the server then
    serves the pair in the files, and a new certificate needs no renewal until
    only the threshold and a day are left of its validity - but nobody renews
    it then: the watcher leaves files and context as they are for ever, also
    when the certificate has expired. *)
Theorem tls_auto_serves_fresh `{TlsLaws} (m : TLSManager) (now : Z) (Hnow : 0 <= now) (Hvalid : 1 <= validity_days m)
  (Hdate : now + validity_days m * DAY < MAX_DATE) (Hctx : ssl_context m = None) (Hneeds : cert_needs_renewal now m = true) :
  ∃ m', start_auto now m = Ok m' ∧ served m' ∧
    (∀ t, now <= t → t < now / SECOND * SECOND + (validity_days m - renewal_threshold_days m - 1) * DAY + 1 →
       0 <= renewal_threshold_days m → cert_needs_renewal t m' = false) ∧
    ∀ turns, watch turns m' = Ok m'.
Proof.
  unfold start_auto, ensure_certificate. rewrite Hneeds. set (g := generate_self_signed now m).
  assert (Hg : get_ssl_context g = reload_ssl_context g) by (unfold get_ssl_context, g; cbn; by rewrite Hctx).
  assert (Hr : ∃ m', reload_ssl_context g = Ok m').
  { unfold reload_ssl_context, g. cbn. rewrite issued_loads. eauto. }
  destruct Hr as [m' Hr]. exists m'. rewrite Hg. destruct (reload_served _ _ Hr) as (Hs & Hc & Hk). split_and!; [done|done| |].
  - intros t Ht Hlt Hth. unfold cert_needs_renewal. rewrite Hc, Hk.
    assert (Hd : days_until_expiry t m' = days_until_expiry t g) by (unfold days_until_expiry, get_cert_expiry; by rewrite Hc).
    rewrite Hd. unfold g. rewrite generated_days by done. cbn [generate_self_signed write_key write_cert cert_file key_file set set_cert_file set_key_file].
    assert (Hth' : renewal_threshold_days m' = renewal_threshold_days m).
    { revert Hr. unfold reload_ssl_context, g. cbn. rewrite issued_loads. by intros [= <-]. }
    rewrite Hth'. assert (renewal_threshold_days m + 1 <= (now / SECOND * SECOND + validity_days m * DAY - t) / DAY).
    { apply Z.div_le_lower_bound; [done|]. unfold DAY, SECOND in *. lia. }
    apply orb_false_iff. split; [apply Z.ltb_ge; lia|apply Z.leb_gt; lia].
  - intros n. by apply served_watched.
Qed.
(** A renewal cut off between its two writes leaves a pair that does not load,
    and that the next start keeps and fails on. *)
Lemma half_renewed_pair_kept `{TlsLaws} (m : TLSManager) (k : TlsFile) (now t : Z) :
  0 <= now → key_file m = Some k → ssl_context m = None →
  load_cert_chain (new_pair (tls_hostname m) now (validity_days m)).1 (tf_text k) = false →
  cert_needs_renewal t (write_cert now m) = false → start_auto t (write_cert now m) = Raise RuntimeError.
Proof.
  intros Hn Hk Hctx Hl Hr. unfold start_auto, ensure_certificate. rewrite Hr. unfold get_ssl_context. cbn. rewrite Hctx.
  unfold reload_ssl_context. cbn. by rewrite Hk, Hl.
Qed.

(** ** Witness *)

Module ToyTls.
(** A certificate is its date of expiry, and goes with the key "key". *)
#[export] Instance env : TlsEnv := {
  new_pair host now days := (be_bytes 8 (now / SECOND * SECOND + days * DAY), "key");
  not_valid_after cert := Some (from_bytes cert);
  load_cert_chain _ key := bool_decide (key = "key") }.
#[export] Instance laws : TlsLaws.
Proof.
  split; [|done]. intros host now days Hn Hd Hm. cbn [not_valid_after new_pair env fst]. f_equal. apply from_be_bytes.
  pose proof (Z.div_pos now SECOND Hn ltac:(done)). pose proof (Z.mul_div_le now SECOND ltac:(done)).
  change (256 ^ Z.of_nat 8) with 18446744073709551616. unfold MAX_DATE, DAY, SECOND in *. lia.
Qed.
Definition manager : TLSManager := mkTls "node" 365 30 None None 0 0 None.
End ToyTls.
#[local] Existing Instance ToyTls.env.
#[local] Existing Instance ToyTls.laws.
Lemma tls_auto_serves_fresh_witness : ∃ m', start_auto (1700000000 * SECOND) ToyTls.manager = Ok m' ∧ served m' ∧
  cert_needs_renewal (1700000000 * SECOND + 300 * DAY) m' = false ∧ watch 1000 m' = Ok m'.
Proof.
  assert (Hn : 0 <= 1700000000 * SECOND) by (vm_compute; discriminate).
  assert (Hv : 1 <= validity_days ToyTls.manager) by (vm_compute; discriminate).
  destruct (tls_auto_serves_fresh ToyTls.manager (1700000000 * SECOND) Hn Hv eq_refl eq_refl eq_refl) as (m' & H1 & H2 & H3 & H4).
  exists m'. split; [exact H1|]. split; [exact H2|].
  split; [apply H3; [vm_compute; discriminate|vm_compute; reflexivity|vm_compute; discriminate]|exact (H4 1000%nat)].
Defined.
